(* ===== verification/_CoqProject ===== *)
-Q . S2P
Prelude.v
RecordIO.v
RecordIOFacts.v
Jute.v
JuteSpec.v
JuteTheorems.v
Hashtable.v
HashtableFacts.v
HashtableTheorems.v
Path.v
PathFacts.v
Watchers.v
WatchersFacts.v
WatchersTheorems.v
Addrvec.v
AddrvecFacts.v
Hosts.v
HostsTheorems.v
HostsSpec.v
Handshake.v
Queues.v
Transport.v
TransportFacts.v
Handle.v
Session.v
Requests.v
SessionFacts.v
SessionTheorems.v
ResponseFacts.v
ResponseTheorems.v
EstablishTheorems.v
RequestTheorems.v
MultiTheorems.v
Interest.v
InterestTheorems.v
ConnectTheorems.v
ReadOnlyTheorems.v
Init.v
InitTheorems.v
Triples.v
Invariant.v
StateTheorems.v
Termination.v
TerminationTheorems.v
Sync.v
Threads.v
SyncFacts.v
SyncRequests.v
Lifetime.v
ThreadsTheorems.v
SyncTheorems.v
Cli.v
CliTheorems.v
Zookbag.v
Election.v
ElectionTheorems.v
LoadGen.v
LoadGenTheorems.v
CliRun.v
CliRunTheorems.v
Log.v
Exceptions.v
