(* ===== verification/Prelude.v ===== *)
(** * The ZooKeeper C client library, and an election of a master on top of it

    A model of the client library in src/zookeeper-client-c (the C files of its
    directories src/, include/ and generated/), translated function by function, with
    the theorems that make it correct, and of the program in src/ZOOK_MS that elects a
    master with it.  Paths below are relative to the first directory, those that begin
    with ZOOK_MS/ to src/.

    ** The program

    An application creates a handle with [zookeeper_init] and drives it with two calls:
    [zookeeper_interest] says which socket to watch, for what and for how long, and
    [zookeeper_process] does what there is to do when the socket is ready.  In between
    the application submits requests with the [zoo_a...] functions.  Underneath, a
    request is marshalled by the generated record code ([zookeeper.jute.c]) through a
    table of function pointers, the archive ([recordio.c]); the packet and a completion
    are queued; packets go over a non-blocking socket; responses are matched in order to
    the queue of requests; events are matched to the watchers registered in three hash
    tables ([zk_hashtable.c] over [hashtable/]).  When the connection breaks every
    waiting request is failed, and the next server of the list is tried ([addrvec.c]).
    In the build with threads the library drives itself: one thread runs that loop, one
    calls the completions, and the synchronous API makes the caller wait for the first.
    The program ZOOK_MS wraps the synchronous API in a class; its instances race to create
    one ephemeral node, and the winner works until its session ends or it gives up.

    ** The model

    A C function is a Rocq function into [outcome]: it returns, it fails an [assert], its
    behaviour is undefined, or the fuel of a loop is used up.  What the source reads
    from its environment is an argument: the allocator is a list of answers (the empty
    list: every allocation succeeds), the socket a script of how much each call
    transfers, the clock a stream of times, the resolver and the random numbers functions
    and lists.  Integers are [Z] with the wrap-around written out where the C type is
    unsigned, and [UB] where a signed operation overflows and that can happen.  Function
    pointers and user data are integers, 0 being NULL, and a call of a user function is
    recorded in the world; user functions do not call the library back.

    - [Prelude]: outcomes, machine integers, allocators, C strings, bytes in network
      order; the tactics and the hint database the other files use.
    - [RecordIO], [RecordIOFacts]: src/recordio.c.  The classes [OArchive] and [IArchive]
      are the tables of function pointers; [OArchiveOK] and [IArchiveOK] are what an
      archive promises to the record code, and the buffer archives keep it.
    - [Jute], [JuteSpec], [JuteTheorems]: generated/zookeeper.jute.c, every record,
      against those classes; the wire format; round trip, memory safety on arbitrary
      bytes and allocation failure, for the whole family of records at once.
    - [Hashtable], [HashtableFacts], [HashtableTheorems]: src/hashtable/.  Refinement of
      bags of pairs over any trace, of finite maps while keys are new, load limit,
      iteration, allocation failure.
    - [Path], [PathFacts]: the path functions of src/zookeeper.c and the chroot.
    - [Watchers], [WatchersFacts], [WatchersTheorems]: src/zk_hashtable.c.  Registration,
      one-shot delivery, session events, removal.
    - [Addrvec], [AddrvecFacts]: src/addrvec.c, [update_addrs], [zoo_cycle_next_server]:
      shuffling, dividing a changed list of servers, trying every server.
    - [Hosts], [HostsTheorems], [HostsSpec]: [resolve_hosts] with the string functions of
      the C library it uses, against a grammar of connection strings and port numbers that
      is stated without the parser.
    - [Handshake]: the hand-written connect packets and the arithmetic of times.
    - [Queues]: the linked queues at the level of pointers implement double-ended lists;
      the files after it use lists.
    - [Transport], [TransportFacts]: [send_buffer], [recv_buffer], [flush_send_queue].
      However the socket cuts the stream, packets cross the wire in order and unchanged.
    - [Handle], [Session], [SessionFacts], [SessionTheorems]: [zhandle_t] and the session
      engine: completions, loss of the connection, [check_events], [zookeeper_process],
      [zookeeper_close].  The class [Adaptor] is what the engine needs from the file it is
      linked with, src/st_adaptor.c or src/mt_adaptor.c; the theorems of these files and of
      those up to [TerminationTheorems] are about the instance without threads.
    - [ResponseFacts], [ResponseTheorems], [EstablishTheorems]: from the bytes on the
      socket to the calls of the user's functions; the end of the handshake.
    - [Requests], [RequestTheorems], [MultiTheorems]: the asynchronous API: what a request
      leaves in the queues, what is refused, transactions.
    - [Interest], [InterestTheorems], [ConnectTheorems], [ReadOnlyTheorems]:
      [zookeeper_interest]: connecting, keep-alive, timeouts, the search of a read-only
      session for a server that accepts writes.
    - [Init], [InitTheorems]: [zookeeper_init] and the accessors; the handle it makes is
      one the theorems about connecting apply to.
    - [Triples], [Invariant], [StateTheorems]: a program logic for the part of a handle
      that says where its session is; the calls of the library as a transition system,
      what holds between two calls, and the graph of the states of a session.
    - [Termination], [TerminationTheorems]: every call returns, fails an assertion or is
      undefined, but never runs out of fuel, whatever the environment does.
    - [Sync], [Threads]: the build with threads.  [Sync] has the functions of
      src/mt_adaptor.c the engine uses and the synchronous API, each call split where it
      waits for its [sync_completion]; the completions are a heap, so that one that is
      used after it was freed is [UB].  [Threads] has the barrier, the loops of the two
      threads and [adaptor_finish], and the steps of a process: what one thread does
      between two points where it can block is one step, steps are interleaved in any
      order, and between them the environment may change.
    - [SyncFacts], [SyncRequests], [Lifetime], [ThreadsTheorems], [SyncTheorems]: which
      requests refer to which completions, in any interleaving; who holds a reference to
      the handle and when it is freed; that a thread can leave its call, with what; what
      an answer, a lost connection and a close leave to the threads that wait; two ways
      in which the build with threads goes wrong.
    - [Cli], [CliTheorems]: src/cli.c on top of the request API; [processline], every
      command of it, and the reading of lines, against a syntax of commands, how they are
      written and which request each stands for.
    - [Zookbag], [Election], [ElectionTheorems]: the program in ZOOK_MS/ that uses the
      library.  A method is a tree of the calls it makes and the fields it reads and
      writes, so that the main thread and the thread for events interleave at each of
      them; a system is any number of such clients around a service.  What the service
      promises about the node they race for is the class [ZooKeeper], with a server as an
      instance; against it at most one client works, unless the node says [zk_1].
    - [LoadGen], [LoadGenTheorems]: src/load_gen.c.  [recursiveDelete] over the class
      [Tree] of what the service does, and the cycle of requests as steps of the main
      thread, of completions and of session events around [counter]; deletion is right and
      ends against a truthful service if paths are short, does not end below a path that
      fills its buffer, and the phases of the cycle are separated.
    - [CliRun], [CliRunTheorems]: the callbacks of src/cli.c and the start of its [main];
      each completion frees its text once, a stored session is never used.
    - [Log]: src/zk_log.c, the text of a message and that it stays within its buffer.
    - [Exceptions]: the exceptions of ZOOK_MS/, their texts and [extract_filename].

    ** Bounds and fuel

    Loops over a list are structural.  Loops of the code without a structural bound have
    fuel, and a theorem says that it is enough: the growth of a buffer is bounded by the
    doublings from its length to the largest one; [recv_buffer_stream] and
    [flush_send_queue_stream] give the result for every script of the socket, and
    [calls_terminate] says that no call of the library uses its fuel up.  Times are
    below 2^62 seconds and timeouts below 2^30 milliseconds, so that the [int] arithmetic
    of [calculate_interval] is exact.  Strings are shorter than [INT_MAX].  The theorems
    about the session assume an allocator that serves every request.  Those about reading
    and writing records and about the hash table, [between_calls] and [calls_terminate]
    hold for every allocator; where the code does not test an allocation they say what is
    undefined after a refusal and that nothing is before.

    ** Not modelled

    - Of src/mt_adaptor.c the mutexes and condition variables themselves: a step of
      [Threads] runs alone, so a race inside one is not seen.  [adaptor_destroy] and the
      initialisation of locks.
    - Of src/cli.c the calls of [select] in the loop of [main] and the branches for
      threads; of src/load_gen.c the arguments and the creation of the root.  The tests.
      [log_env] and the log messages everywhere but in src/zk_log.c: output only.
      src/winport.c and the branches for Windows and Cygwin.
    - SSL and SASL are not in this version of the library.  The accessors for tests are
      not called by the library.
    - Of ZOOK_MS/ the reading of STG.ini and the log, which is output only. *)

From stdpp Require Export base list gmap strings.
From coqutil Require Export Byte Word.LittleEndianList.

(** ** Outcomes of a C function

    [Ret a]  the call returns [a];
    [Abort]  an [assert] of the source fails (or [abort()] is called);
    [UB]     the execution is undefined: a NULL dereference, an access outside
             an object, or a signed overflow;
    [Loop]   the fuel of a loop without a structural bound was exhausted. *)
Inductive outcome (A : Type) :=
  | Ret (a : A)
  | Abort
  | UB
  | Loop.
Global Arguments Ret {A} a.
Global Arguments Abort {A}.
Global Arguments UB {A}.
Global Arguments Loop {A}.

Global Instance outcome_ret : MRet outcome := @Ret.
Global Instance outcome_bind : MBind outcome := λ A B f m,
  match m with Ret a => f a | Abort => Abort | UB => UB | Loop => Loop end.
Global Instance outcome_fmap : FMap outcome := λ A B f m,
  match m with Ret a => Ret (f a) | Abort => Abort | UB => UB | Loop => Loop end.

Lemma bind_Ret {A B} (a : A) (f : A → outcome B) : (Ret a ≫= f) = f a.
Proof. done. Qed.

Lemma bind_Ret_inv {A B} (m : outcome A) (f : A → outcome B) b :
  (m ≫= f) = Ret b → ∃ a, m = Ret a ∧ f a = Ret b.
Proof. destruct m; naive_solver. Qed.

(** ** Machine integers *)
Local Open Scope Z_scope.

Declare Scope cint_scope.
Delimit Scope cint_scope with cint.

(** Reduction of [z] to a [w]-bit two's complement (signed) or unsigned value. *)
Definition wrap_s (w z : Z) : Z := (z + 2 ^ (w - 1)) mod 2 ^ w - 2 ^ (w - 1).
Definition wrap_u (w z : Z) : Z := z mod 2 ^ w.
Abbreviation int32 := (wrap_s 32).
Abbreviation int64 := (wrap_s 64).
Abbreviation uint32 := (wrap_u 32).
Abbreviation size_t := (wrap_u 64).

Definition in_s (w z : Z) : Prop := - 2 ^ (w - 1) ≤ z < 2 ^ (w - 1).
Definition in_u (w z : Z) : Prop := 0 ≤ z < 2 ^ w.
Global Instance in_s_dec w z : Decision (in_s w z).
Proof. unfold in_s. apply _. Defined.
Global Instance in_u_dec w z : Decision (in_u w z).
Proof. unfold in_u. apply _. Defined.
Abbreviation INT_MAX := 2147483647.
Abbreviation INT_MIN := (-2147483648).

Lemma wrap_s_id w z : 0 < w → in_s w z → wrap_s w z = z.
Proof.
  unfold wrap_s, in_s. intros Hw Hz.
  assert (2 ^ w = 2 * 2 ^ (w - 1)).
  { rewrite <-Z.pow_succ_r by lia. f_equal. lia. }
  rewrite Z.mod_small; lia.
Qed.

Lemma wrap_s_range w z : 0 < w → in_s w (wrap_s w z).
Proof.
  unfold wrap_s, in_s. intros Hw.
  assert (2 ^ w = 2 * 2 ^ (w - 1)).
  { rewrite <-Z.pow_succ_r by lia. f_equal. lia. }
  assert (0 < 2 ^ w) by (apply Z.pow_pos_nonneg; lia).
  pose proof (Z.mod_pos_bound (z + 2 ^ (w - 1)) (2 ^ w)). lia.
Qed.

Lemma wrap_s_mod w z : 0 < w → wrap_s w (z mod 2 ^ w) = wrap_s w z.
Proof.
  intros Hw. unfold wrap_s. f_equal.
  apply Z.add_mod_idemp_l. apply Z.pow_nonzero; lia.
Qed.

Lemma wrap_u_id w z : in_u w z → wrap_u w z = z.
Proof. unfold wrap_u, in_u. intros. by rewrite Z.mod_small. Qed.

Lemma wrap_u_range w z : 0 ≤ w → in_u w (wrap_u w z).
Proof.
  intros. unfold in_u, wrap_u. apply Z.mod_pos_bound.
  apply Z.pow_pos_nonneg; lia.
Qed.

(** A negative [int] passed as a [size_t] is in the upper half of the range. *)
Lemma size_t_neg z : - 2 ^ 63 ≤ z < 0 → size_t z = z + 2 ^ 64.
Proof.
  intros. unfold wrap_u. rewrite <-(Z_mod_plus_full z 1), Z.mod_small; lia.
Qed.

(** ** Host byte order and the memory image of integers

    The source is compiled for hosts of either byte order and either
    signedness of plain [char]; every theorem holds for all of them. *)
Class Host := {
  big_endian : bool;     (* htonl(1) == 1 *)
  char_signed : bool;    (* plain char is signed *)
}.

Section host.
Context `{Host}.

(** The bytes an [n]-byte integer object holds, lowest address first. *)
Definition mem_of_int (n : nat) (z : Z) : list byte :=
  if big_endian then rev (le_split n z) else le_split n z.

(** The value of a signed integer object with the bytes [bs]. *)
Definition int_of_mem (bs : list byte) : Z :=
  wrap_s (8 * Z.of_nat (length bs))
    (le_combine (if big_endian then rev bs else bs)).

(** The value of a plain [char] as an [int]. *)
Definition char_val (b : byte) : Z :=
  if char_signed then wrap_s 8 (byte.unsigned b) else byte.unsigned b.

Definition bswap (n : nat) (z : Z) : Z :=
  wrap_s (8 * Z.of_nat n) (le_combine (rev (le_split n z))).

(** [htonl] and [ntohl] of the C library on a signed 32-bit argument. *)
Definition htonl (z : Z) : Z := if big_endian then z else bswap 4 z.
Definition ntohl (z : Z) : Z := if big_endian then z else bswap 4 z.
End host.

(** The network (big-endian) image of an [n]-byte integer, the wire format. *)
Definition be_split (n : nat) (z : Z) : list byte := rev (le_split n z).
Definition be_combine (bs : list byte) : Z :=
  wrap_s (8 * Z.of_nat (length bs)) (le_combine (rev bs)).

Lemma length_be_split n z : length (be_split n z) = n.
Proof. unfold be_split. by rewrite length_rev, length_le_split. Qed.

Lemma be_combine_split (n : nat) z :
  (0 < n)%nat → in_s (8 * Z.of_nat n) z → be_combine (be_split n z) = z.
Proof.
  intros Hn Hz. unfold be_combine. rewrite length_be_split.
  unfold be_split. rewrite rev_involutive, le_combine_split.
  rewrite (Z.mul_comm (Z.of_nat n) 8), wrap_s_mod by lia.
  apply wrap_s_id; [lia|done].
Qed.

Lemma be_combine_range bs : bs ≠ [] → in_s (8 * Z.of_nat (length bs)) (be_combine bs).
Proof. intros. apply wrap_s_range. destruct bs; simpl; [done|lia]. Qed.

(** Reading a signed value back from its low bytes is harmless. *)
Lemma le_split_wrap_s n z : le_split n (wrap_s (8 * Z.of_nat n) z) = le_split n z.
Proof.
  destruct n as [|n]; [done|].
  rewrite (le_split_mod (wrap_s _ _)), (le_split_mod z). f_equal.
  rewrite (Z.mul_comm (Z.of_nat (S n)) 8).
  set (w := 8 * Z.of_nat (S n)). unfold wrap_s.
  assert (2 ^ w ≠ 0) by (apply Z.pow_nonzero; lia).
  rewrite Zminus_mod_idemp_l. f_equal. lia.
Qed.

Section host_lemmas.
Context `{Host}.

Lemma length_mem_of_int n z : length (mem_of_int n z) = n.
Proof.
  unfold mem_of_int. destruct big_endian; by rewrite ?length_rev, length_le_split.
Qed.

Lemma int_of_mem_of_int n z :
  (0 < n)%nat → in_s (8 * Z.of_nat n) z → int_of_mem (mem_of_int n z) = z.
Proof.
  intros Hn Hz. unfold int_of_mem. rewrite length_mem_of_int.
  unfold mem_of_int. destruct big_endian; rewrite ?rev_involutive, le_combine_split;
    rewrite (Z.mul_comm (Z.of_nat n) 8), wrap_s_mod by lia;
    (apply wrap_s_id; [lia|done]).
Qed.

Lemma le_split_bswap n z : le_split n (bswap n z) = rev (le_split n z).
Proof.
  unfold bswap. rewrite le_split_wrap_s. apply split_le_combine'.
  by rewrite length_rev, length_le_split.
Qed.

(** Whatever the host, the memory image of [htonl z] is the wire format. *)
Lemma mem_htonl z : mem_of_int 4 (htonl z) = be_split 4 z.
Proof.
  unfold mem_of_int, htonl, be_split. destruct big_endian; [done|].
  apply le_split_bswap.
Qed.

Lemma ntohl_mem bs : length bs = 4%nat → ntohl (int_of_mem bs) = be_combine bs.
Proof.
  intros Hl. unfold ntohl, int_of_mem, be_combine. destruct big_endian; [done|].
  unfold bswap. rewrite Hl. change (8 * Z.of_nat 4) with (8 * Z.of_nat 4).
  rewrite le_split_wrap_s. f_equal. f_equal. f_equal.
  by apply split_le_combine'.
Qed.
End host_lemmas.

(** ** C strings

    A [char *] that points to a NUL-terminated string is modelled by the bytes
    before the terminator, the ones [strlen] counts; [None] is the NULL pointer. *)
Abbreviation cstring := (list byte).

Global Instance byte_eq_decision : EqDecision byte := Byte.byte_eq_dec.
Global Instance byte_countable : Countable byte :=
  inj_countable Byte.to_N Byte.of_N Byte.of_to_N.

(** The string [strlen] sees in a block of memory holding [bs] and a final NUL. *)
Fixpoint c_str (bs : list byte) : cstring :=
  match bs with
  | [] => []
  | b :: bs => if decide (b = Byte.x00) then [] else b :: c_str bs
  end.

Definition no_nul (s : cstring) : Prop := Forall (λ b, b ≠ Byte.x00) s.

Lemma c_str_no_nul bs : no_nul (c_str bs).
Proof. induction bs; simpl; [constructor|]. case_decide; by constructor. Qed.

Lemma c_str_id s : no_nul s → c_str s = s.
Proof. induction 1; simpl; [done|]. rewrite decide_False by done. by f_equal. Qed.

(** A string literal of the source. *)
Definition lit (s : string) : cstring := String.list_byte_of_string s.

(** ** Memory allocation

    The outcome of the coming [malloc]/[calloc]/[realloc] calls, one boolean per
    call; once the list is used up every request succeeds. *)
Abbreviation allocs := (list bool).
Definition alloc (o : allocs) : bool * allocs :=
  match o with [] => (true, []) | b :: o => (b, o) end.

(** A request of [n] bytes, [n] a [size_t]: no allocator serves half of the
    address space or more. *)
Definition alloc_bytes (n : Z) (o : allocs) : bool * allocs :=
  if n <? 2 ^ 63 then alloc o else (false, o).

(** ** Lists *)
Lemma filter_all {A} (P : A → Prop) `{∀ x, Decision (P x)} (l : list A) :
  (∀ x, x ∈ l → P x) → filter P l = l.
Proof.
  induction l as [|x l IH]; intros Hall; [done|].
  rewrite filter_cons_True by (apply Hall; left).
  f_equal. apply IH. intros y Hy. apply Hall. by right.
Qed.

Lemma filter_split_perm {A} (P : A → Prop) `{∀ x, Decision (P x)} (l : list A) :
  filter P l ++ filter (λ x, ¬ P x) l ≡ₚ l.
Proof.
  induction l as [|x l IH]; [done|]. destruct (decide (P x)).
  - rewrite filter_cons_True, (filter_cons_False (λ x, ¬ P x)) by tauto. by constructor.
  - rewrite filter_cons_False, (filter_cons_True (λ x, ¬ P x)) by tauto.
    rewrite <-Permutation_middle. by constructor.
Qed.

(** ** Automation shared by the components *)
#[export] Set Warnings "-clear-no-such-hyp".
Create HintDb zk.
Create Rewrite HintDb zk.
#[export] Hint Rewrite length_be_split @length_mem_of_int @mem_htonl : zk.

(** Splits a test of the source in the goal or a hypothesis and lets [lia] or
    [congruence] drop the impossible branch. *)
Ltac case_test :=
  match goal with
  | |- context [if ?b then _ else _] => let E := fresh "E" in destruct b eqn:E
  | H : context [if ?b then _ else _] |- _ => let E := fresh "E" in destruct b eqn:E
  end.
Ltac bool_to_prop :=
  rewrite ?andb_true_iff, ?andb_false_iff, ?orb_true_iff, ?orb_false_iff,
    ?negb_true_iff, ?negb_false_iff in *;
  rewrite ?Z.ltb_lt, ?Z.ltb_ge, ?Z.leb_le, ?Z.leb_gt, ?Z.eqb_eq, ?Z.eqb_neq in *.

(** Runs the binds whose first computation has returned. *)
Ltac run := cbn [mbind outcome_bind fst snd Z.ltb Z.eqb Z.compare Z.opp negb andb orb].

(** Inverts every [Ret]-valued [bind] of the context. *)
Ltac invert_bind :=
  repeat match goal with
  | H : (_ ≫= _) = Ret _ |- _ =>
      let a := fresh "a" in let Ha := fresh "Ha" in
      apply bind_Ret_inv in H as (a & Ha & H); try (destruct a; simpl in * )
  end.
