(* ===== verification/RecordIO.v ===== *)
(** * recordio.c: buffer archives

    The output and input archives of src/recordio.c.  A [buff_struct] is the
    private state of an archive; the operations of an archive are the methods of
    the classes [OArchive] and [IArchive], which stand for the tables of function
    pointers [struct oarchive] and [struct iarchive] that the generated record
    code calls.  [oa_default] and [ia_default] are the tables of recordio.c.

    The second half states what the archives promise to that code: an operation
    [appends] its wire encoding to the archive, or [reads] it back. *)

From S2P Require Import Prelude.
Local Open Scope Z_scope.

Abbreviation ENOMEM := 12.
Abbreviation E2BIG := 7.
Abbreviation EINVAL := 22.

(** [struct buffer]: [b_buff] is NULL or the block of memory it points to. *)
Record buffer := mk_buffer { b_len : Z; b_buff : option (list byte) }.

Global Instance buffer_eq_dec : EqDecision buffer.
Proof. solve_decision. Defined.

Definition deallocate_String (s : option cstring) : option cstring := None.
Definition deallocate_Buffer (b : buffer) : buffer := mk_buffer (b_len b) None.

(** [struct buff_struct].  Of the block [buffer] points to, [bs_buffer] holds the
    bytes written so far (an output archive) or all its bytes (an input archive);
    [bs_len] is the size of the block.  [bs_alloc] decides the allocations to come. *)
Record buff_struct := mk_buff {
  bs_len : Z;
  bs_off : Z;
  bs_buffer : option (list byte);
  bs_alloc : allocs;
}.

(** ** The interfaces of archives *)
Class OArchive (S : Type) := {
  oa_start_record_fn : S → outcome (Z * S);
  oa_end_record_fn : S → outcome (Z * S);
  oa_start_vector_fn : Z → S → outcome (Z * S);
  oa_end_vector_fn : S → outcome (Z * S);
  serialize_Bool : Z → S → outcome (Z * S);
  serialize_Int : Z → S → outcome (Z * S);
  serialize_Long : Z → S → outcome (Z * S);
  serialize_Buffer : option buffer → S → outcome (Z * S);
  serialize_String : option cstring → S → outcome (Z * S);
}.

(** A deserializer gets the old contents of the object it fills in and returns
    the result code, the new contents and the archive. *)
Definition deser (S A : Type) := A → S → outcome (Z * A * S).

Class IArchive (S : Type) := {
  ia_start_record_fn : S → outcome (Z * S);
  ia_end_record_fn : S → outcome (Z * S);
  ia_start_vector_fn : deser S Z;
  ia_end_vector_fn : S → outcome (Z * S);
  deserialize_Bool : deser S Z;
  deserialize_Int : deser S Z;
  deserialize_Long : deser S Z;
  deserialize_Buffer : deser S buffer;
  deserialize_String : deser S (option cstring);
}.

(** ** Output archives *)
Definition set_bs_len (n : Z) (s : buff_struct) : buff_struct :=
  mk_buff n (bs_off s) (bs_buffer s) (bs_alloc s).
Definition advance (n : Z) (s : buff_struct) : buff_struct :=
  mk_buff (bs_len s) (bs_off s + n) (bs_buffer s) (bs_alloc s).

(** [while (s->len < newlen) s->len *= 2;]  The product is a signed one, so it is
    undefined when it exceeds [INT_MAX]. *)
Fixpoint resize_loop (fuel : nat) (len newlen : Z) : outcome Z :=
  if len <? newlen then
    match fuel with
    | O => Loop
    | S fuel =>
        if (2 * len <=? INT_MAX) && (INT_MIN <=? 2 * len)
        then resize_loop fuel (2 * len) newlen else UB
    end
  else Ret len.

(** A positive [int] can be doubled at most 31 times. *)
Definition resize_fuel : nat := 32.

Definition resize_buffer (s : buff_struct) (newlen : Z) : outcome (Z * buff_struct) :=
  len ← resize_loop resize_fuel (bs_len s) newlen;
  let '(ok, o) := alloc_bytes (size_t len) (bs_alloc s) in
  if ok : bool
  then Ret (0, mk_buff len (bs_off s) (bs_buffer s) o)
  else Ret (- ENOMEM, mk_buff len (bs_off s) None o).

(** [memcpy(priv->buffer + priv->off, src, n)] for a source of [n] bytes. *)
Definition memcpy_to (s : buff_struct) (src : list byte) : outcome buff_struct :=
  match bs_buffer s with
  | None => UB
  | Some b =>
      if (0 <=? bs_off s) && (bs_off s + Z.of_nat (length src) <=? bs_len s)
      then Ret (mk_buff (bs_len s) (bs_off s)
                  (Some (take (Z.to_nat (bs_off s)) b ++ src)) (bs_alloc s))
      else UB
  end.

Definition oa_start_record (s : buff_struct) : outcome (Z * buff_struct) := Ret (0, s).
Definition oa_end_record (s : buff_struct) : outcome (Z * buff_struct) := Ret (0, s).
Definition oa_end_vector (s : buff_struct) : outcome (Z * buff_struct) := Ret (0, s).

Section host.
Context `{Host}.

Definition oa_serialize_int (d : Z) (s : buff_struct) : outcome (Z * buff_struct) :=
  let i := mem_of_int 4 (htonl d) in
  '(rc, s) ← (if size_t (bs_len s - bs_off s) <? 4
              then resize_buffer s (int32 (bs_len s + 4)) else Ret (0, s));
  if rc <? 0 then Ret (rc, s) else
  s ← memcpy_to s i;
  Ret (0, advance 4 s).

(** One iteration of the loop of [zoo_htonll] on the bytes of [v]. *)
Definition swap_bytes (i : nat) (s : list byte) : list byte :=
  match s !! i, s !! (8 - i - 1)%nat with
  | Some a, Some b => <[(8 - i - 1)%nat := a]> (<[i := b]> s)
  | _, _ => s
  end.

Definition zoo_htonll (v : Z) : Z :=
  if htonl 1 =? 1 then v
  else int_of_mem (foldl (λ s i, swap_bytes i s) (mem_of_int 8 v) (seq 0 4)).

Definition oa_serialize_long (d : Z) (s : buff_struct) : outcome (Z * buff_struct) :=
  let i := mem_of_int 8 (zoo_htonll d) in
  '(rc, s) ← (if size_t (bs_len s - bs_off s) <? 8
              then resize_buffer s (int32 (bs_len s + 8)) else Ret (0, s));
  if rc <? 0 then Ret (rc, s) else
  s ← memcpy_to s i;
  Ret (0, advance 8 s).

Definition oa_start_vector (count : Z) (s : buff_struct) : outcome (Z * buff_struct) :=
  oa_serialize_int count s.

Definition oa_serialize_bool (i : Z) (s : buff_struct) : outcome (Z * buff_struct) :=
  '(rc, s) ← (if bs_len s - bs_off s <? 1
              then resize_buffer s (bs_len s + 1) else Ret (0, s));
  if rc <? 0 then Ret (rc, s) else
  s ← memcpy_to s [if i =? 0 then Byte.x00 else Byte.x01];
  Ret (0, advance 1 s).

Definition negone : Z := -1.

(** The [n] bytes at the start of the block [p], the source of a [memcpy]. *)
Definition memory_at (p : option (list byte)) (n : Z) : outcome (list byte) :=
  if n =? 0 then Ret []
  else match p with
       | Some bs => if (0 <=? n) && (n <=? Z.of_nat (length bs))
                    then Ret (take (Z.to_nat n) bs) else UB
       | None => UB
       end.

Definition oa_serialize_buffer (b : option buffer) (s : buff_struct)
    : outcome (Z * buff_struct) :=
  match b with
  | None => oa_serialize_int negone s
  | Some b =>
      '(rc, s) ← oa_serialize_int (b_len b) s;
      if rc <? 0 then Ret (rc, s) else
      if b_len b =? -1 then Ret (rc, s) else
      '(rc, s) ← (if bs_len s - bs_off s <? b_len b
                  then resize_buffer s (bs_len s + b_len b) else Ret (rc, s));
      if rc <? 0 then Ret (rc, s) else
      src ← memory_at (b_buff b) (b_len b);
      s ← memcpy_to s src;
      Ret (0, advance (b_len b) s)
  end.

Definition oa_serialize_string (str : option cstring) (s : buff_struct)
    : outcome (Z * buff_struct) :=
  match str with
  | None => '(_, s) ← oa_serialize_int negone s; Ret (0, s)
  | Some str =>
      let len := int32 (Z.of_nat (length str)) in
      '(rc, s) ← oa_serialize_int len s;
      if rc <? 0 then Ret (rc, s) else
      '(rc, s) ← (if bs_len s - bs_off s <? len
                  then resize_buffer s (bs_len s + len) else Ret (rc, s));
      if rc <? 0 then Ret (rc, s) else
      src ← memory_at (Some str) len;
      s ← memcpy_to s src;
      Ret (0, advance len s)
  end.

Global Instance oa_default : OArchive buff_struct := {
  oa_start_record_fn := oa_start_record;
  oa_end_record_fn := oa_end_record;
  oa_start_vector_fn := oa_start_vector;
  oa_end_vector_fn := oa_end_vector;
  serialize_Bool := oa_serialize_bool;
  serialize_Int := oa_serialize_int;
  serialize_Long := oa_serialize_long;
  serialize_Buffer := oa_serialize_buffer;
  serialize_String := oa_serialize_string;
}.
End host.

(** [create_buffer_oarchive]: NULL when one of the first two allocations fails;
    the third one, of the 128 bytes, is not checked. *)
Definition create_buffer_oarchive (o : allocs) : option buff_struct :=
  let '(ok1, o) := alloc o in
  if negb ok1 then None else
  let '(ok2, o) := alloc o in
  if negb ok2 then None else
  let '(ok3, o) := alloc o in
  Some (mk_buff 128 0 (if ok3 : bool then Some [] else None) o).

Definition get_buffer (s : buff_struct) : option (list byte) := bs_buffer s.
Definition get_buffer_len (s : buff_struct) : Z := bs_off s.

(** ** Input archives *)
Definition create_buffer_iarchive (buf : option (list byte)) (len : Z) (o : allocs)
    : option buff_struct :=
  let '(ok1, o) := alloc o in
  if negb ok1 then None else
  let '(ok2, o) := alloc o in
  if negb ok2 then None else Some (mk_buff len 0 buf o).

(** The [n] bytes at [priv->buffer + priv->off]. *)
Definition bytes_at_off (s : buff_struct) (n : Z) : outcome (list byte) :=
  match bs_buffer s with
  | None => UB
  | Some b =>
      if (0 <=? n) && (0 <=? bs_off s) && (bs_off s + n <=? Z.of_nat (length b))
      then Ret (take (Z.to_nat n) (drop (Z.to_nat (bs_off s)) b)) else UB
  end.

Definition set_bs_alloc (o : allocs) (s : buff_struct) : buff_struct :=
  mk_buff (bs_len s) (bs_off s) (bs_buffer s) o.

Definition ia_start_record (s : buff_struct) : outcome (Z * buff_struct) := Ret (0, s).
Definition ia_end_record (s : buff_struct) : outcome (Z * buff_struct) := Ret (0, s).
Definition ia_end_vector (s : buff_struct) : outcome (Z * buff_struct) := Ret (0, s).

Section host_in.
Context `{Host}.

Definition ia_deserialize_int : deser buff_struct Z := λ count s,
  if size_t (bs_len s - bs_off s) <? 4 then Ret (- E2BIG, count, s) else
  bs ← bytes_at_off s 4;
  Ret (0, ntohl (int_of_mem bs), advance 4 s).

Definition ia_deserialize_long : deser buff_struct Z := λ count s,
  if size_t (bs_len s - bs_off s) <? 8 then Ret (- E2BIG, count, s) else
  bs ← bytes_at_off s 8;
  Ret (0, zoo_htonll (int_of_mem bs), advance 8 s).

Definition ia_start_vector : deser buff_struct Z := ia_deserialize_int.

Definition ia_deserialize_bool : deser buff_struct Z := λ v s,
  if bs_len s - bs_off s <? 1 then Ret (- E2BIG, v, s) else
  bs ← bytes_at_off s 1;
  match bs with
  | [b] => Ret (0, char_val b, advance 1 s)
  | _ => UB
  end.

Definition ia_deserialize_buffer : deser buff_struct buffer := λ b s,
  '(rc, len, s) ← ia_deserialize_int (b_len b) s;
  let b := mk_buffer len (b_buff b) in
  if rc <? 0 then Ret (rc, b, s) else
  if bs_len s - bs_off s <? len then Ret (- E2BIG, b, s) else
  if len =? -1 then Ret (rc, mk_buffer len None, s) else
  let '(ok, o) := alloc_bytes (size_t len) (bs_alloc s) in
  let s := set_bs_alloc o s in
  if negb ok then Ret (- ENOMEM, mk_buffer len None, s) else
  bs ← bytes_at_off s len;
  Ret (0, mk_buffer len (Some bs), advance len s).

(** The string stored is what the [str*] functions see of the copied bytes. *)
Definition ia_deserialize_string : deser buff_struct (option cstring) := λ str s,
  '(rc, len, s) ← ia_deserialize_int 0 s;
  if rc <? 0 then Ret (rc, str, s) else
  if bs_len s - bs_off s <? len then Ret (- E2BIG, str, s) else
  if len <? 0 then Ret (- EINVAL, str, s) else
  let '(ok, o) := alloc_bytes (size_t (int32 (len + 1))) (bs_alloc s) in
  let s := set_bs_alloc o s in
  if negb ok then Ret (- ENOMEM, None, s) else
  bs ← bytes_at_off s len;
  Ret (0, Some (c_str bs), advance len s).

Global Instance ia_default : IArchive buff_struct := {
  ia_start_record_fn := ia_start_record;
  ia_end_record_fn := ia_end_record;
  ia_start_vector_fn := ia_start_vector;
  ia_end_vector_fn := ia_end_vector;
  deserialize_Bool := ia_deserialize_bool;
  deserialize_Int := ia_deserialize_int;
  deserialize_Long := ia_deserialize_long;
  deserialize_Buffer := ia_deserialize_buffer;
  deserialize_String := ia_deserialize_string;
}.
End host_in.

(** ** [rc = rc ? rc : ...]: sequencing as the record code writes it *)
Definition ser_seq {S} (f g : S → outcome (Z * S)) : S → outcome (Z * S) := λ s,
  '(rc, s) ← f s;
  if rc =? 0 then g s else Ret (rc, s).
Definition deser_seq {S A} (f g : deser S A) : deser S A := λ v s,
  '(rc, v, s) ← f v s;
  if rc =? 0 then g v s else Ret (rc, v, s).
(** [in->op(in, tag, &v->fld)]: the operation fills in one field of [*v]. *)
Definition on_field {S A B} (get : A → B) (set : B → A → A) (op : deser S B) : deser S A :=
  λ v s, '(rc, x, s) ← op (get v) s; Ret (rc, set x v, s).
(** An operation of the archive that leaves [*v] alone. *)
Definition on_archive {S A} (op : S → outcome (Z * S)) : deser S A :=
  λ v s, '(rc, s) ← op s; Ret (rc, v, s).

Declare Scope record_scope.
Delimit Scope record_scope with rec.
Notation "f ;? g" := (ser_seq f g) (at level 62, right associativity) : record_scope.
Notation "f ;! g" := (deser_seq f g) (at level 62, right associativity) : record_scope.

(** ** What an archive promises to the record code

    [appends op bs]: on every archive that has room for [bs], the operation
    succeeds and adds exactly [bs].  [reads op v bs]: on every archive whose next
    bytes are [bs], the operation succeeds, consumes them and stores [v]. *)
Class OArchiveLaws (S : Type) `{OArchive S} := {
  written : S → list byte;
  has_room : S → Z → Prop;
}.
Class IArchiveLaws (S : Type) `{IArchive S} := {
  pending : S → list byte → Prop;
}.

Definition appends {S} `{OArchiveLaws S} (op : S → outcome (Z * S)) (bs : list byte) : Prop :=
  ∀ s m, has_room s (Z.of_nat (length bs) + m) → 0 ≤ m →
    ∃ s', op s = Ret (0, s') ∧ written s' = written s ++ bs ∧ has_room s' m.
Definition reads {S A} `{IArchiveLaws S} (op : deser S A) (v : A) (bs : list byte) : Prop :=
  ∀ old s rest, pending s (bs ++ rest) → ∃ s', op old s = Ret (0, v, s') ∧ pending s' rest.

(** The wire format of the primitive types. *)
Definition enc_int (z : Z) : list byte := be_split 4 z.
Definition enc_long (z : Z) : list byte := be_split 8 z.
Definition enc_bool (z : Z) : list byte := [if z =? 0 then Byte.x00 else Byte.x01].
Definition enc_buffer (b : buffer) : list byte :=
  enc_int (b_len b) ++ default [] (b_buff b).
Definition enc_string (s : option cstring) : list byte :=
  match s with
  | None => enc_int (-1)
  | Some s => enc_int (Z.of_nat (length s)) ++ s
  end.

Global Arguments enc_int : simpl never.
Global Arguments enc_long : simpl never.
Global Arguments enc_bool : simpl never.

(** The values of the primitive types that travel over the wire unchanged. *)
Definition wf_int (z : Z) : Prop := in_s 32 z.
Definition wf_long (z : Z) : Prop := in_s 64 z.
Definition wf_bool (z : Z) : Prop := z = 0 ∨ z = 1.
Definition wf_buffer (b : buffer) : Prop :=
  match b_buff b with
  | None => b_len b = -1
  | Some bs => b_len b = Z.of_nat (length bs) ∧ b_len b ≤ INT_MAX
  end.
(** NULL strings are written, as length -1, but refused by the reader. *)
Definition wf_string_out (s : option cstring) : Prop :=
  match s with None => True | Some s => Z.of_nat (length s) ≤ INT_MAX end.
Definition wf_string (s : option cstring) : Prop :=
  match s with None => False | Some s => no_nul s ∧ Z.of_nat (length s) < INT_MAX end.

(** What the record code relies on. *)
Class OArchiveOK (S : Type) `{OArchiveLaws S} := {
  start_record_appends : appends oa_start_record_fn [];
  end_record_appends : appends oa_end_record_fn [];
  start_vector_appends n : wf_int n → appends (oa_start_vector_fn n) (enc_int n);
  end_vector_appends : appends oa_end_vector_fn [];
  serialize_Bool_appends z : appends (serialize_Bool z) (enc_bool z);
  serialize_Int_appends z : wf_int z → appends (serialize_Int z) (enc_int z);
  serialize_Long_appends z : wf_long z → appends (serialize_Long z) (enc_long z);
  serialize_Buffer_appends b : wf_buffer b → appends (serialize_Buffer (Some b)) (enc_buffer b);
  serialize_String_appends s : wf_string_out s → appends (serialize_String s) (enc_string s);
}.
Class IArchiveOK (S : Type) `{IArchiveLaws S} := {
  ia_start_record_ok s : ia_start_record_fn s = Ret (0, s);
  ia_end_record_ok s : ia_end_record_fn s = Ret (0, s);
  ia_end_vector_ok s : ia_end_vector_fn s = Ret (0, s);
  start_vector_reads n : wf_int n → reads ia_start_vector_fn n (enc_int n);
  deserialize_Bool_reads z : wf_bool z → reads deserialize_Bool z (enc_bool z);
  deserialize_Int_reads z : wf_int z → reads deserialize_Int z (enc_int z);
  deserialize_Long_reads z : wf_long z → reads deserialize_Long z (enc_long z);
  deserialize_Buffer_reads b : wf_buffer b → reads deserialize_Buffer b (enc_buffer b);
  deserialize_String_reads s : wf_string s → reads deserialize_String s (enc_string s);
}.
