(* ===== verification/RecordIOFacts.v ===== *)
(** * Facts about buffer archives

    The buffer archives of recordio.c keep the promises [OArchiveOK] and
    [IArchiveOK] that the record code relies on; they write inside their block
    whatever the allocator does, and grow it by doubling. *)

From S2P Require Import Prelude RecordIO.
Local Open Scope Z_scope.

(** ** Output *)

(** The invariant of an output archive: the bytes written fill the block up to
    [off], and its size is a power of two between 128 and 2^30. *)
Definition oa_inv (s : buff_struct) : Prop :=
  ∃ b k, bs_buffer s = Some b ∧ Z.of_nat (length b) = bs_off s ∧
    bs_off s ≤ bs_len s ∧ bs_len s = 2 ^ k ∧ 7 ≤ k ≤ 30.

Definition oa_written (s : buff_struct) : list byte := default [] (bs_buffer s).

(** An archive takes half a gigabyte. *)
Definition oa_limit : Z := 2 ^ 29.

(** [writes op bs]: on every archive with [bs] below the limit, whatever the
    allocator answers, the operation appends [bs], or fails with [-ENOMEM]
    (which needs an allocation to fail) and leaves no block behind. *)
Definition writes (op : buff_struct → outcome (Z * buff_struct)) (bs : list byte) : Prop :=
  ∀ s, oa_inv s → bs_off s + Z.of_nat (length bs) ≤ oa_limit →
  ∃ s',
    (op s = Ret (0, s') ∧ oa_inv s' ∧ oa_written s' = oa_written s ++ bs ∧
     bs_off s' = bs_off s + Z.of_nat (length bs) ∧
     (bs_alloc s = [] → bs_alloc s' = [])) ∨
    (op s = Ret (- ENOMEM, s') ∧ bs_buffer s' = None ∧ bs_alloc s ≠ []).

Lemma resize_loop_pow2 (fuel : nat) (k newlen : Z) :
  7 ≤ k ≤ 30 → newlen ≤ 2 ^ 30 → 30 - k ≤ Z.of_nat fuel →
  ∃ k', k ≤ k' ≤ 30 ∧ resize_loop fuel (2 ^ k) newlen = Ret (2 ^ k') ∧ newlen ≤ 2 ^ k'.
Proof.
  revert k. induction fuel as [|fuel IH]; intros k Hk Hn Hf; simpl.
  - assert (k = 30) as -> by lia. exists 30.
    rewrite (proj2 (Z.ltb_ge _ _)) by done. split_and!; [lia..|done|done].
  - destruct (Z.ltb_spec (2 ^ k) newlen) as [Hlt|Hge]; [|exists k; split_and!; [lia..|done|lia]].
    assert (k ≠ 30) by (intros ->; lia).
    rewrite <-Z.pow_succ_r by lia.
    assert (0 < 2 ^ Z.succ k) by (apply Z.pow_pos_nonneg; lia).
    assert (2 ^ Z.succ k ≤ 2 ^ 30) by (apply Z.pow_le_mono_r; lia).
    rewrite (proj2 (Z.leb_le _ _)), (proj2 (Z.leb_le _ _)) by lia; simpl.
    destruct (IH (Z.succ k)) as (k' & ? & -> & ?); [lia..|].
    exists k'. split_and!; [lia..|done|done].
Qed.

Lemma pow2_bounds k : 7 ≤ k ≤ 30 → 128 ≤ 2 ^ k ≤ 2 ^ 30.
Proof.
  intros. split; [change 128 with (2 ^ 7)|]; apply Z.pow_le_mono_r; lia.
Qed.

(** What the size test and [resize_buffer] leave behind: room for [n] bytes. *)
Lemma resize_buffer_spec s n newlen :
  oa_inv s → 0 ≤ n → bs_off s + n ≤ oa_limit →
  bs_len s - bs_off s < n → newlen = bs_len s + n →
  ∃ k o, 7 ≤ k ≤ 30 ∧ bs_off s + n ≤ 2 ^ k ∧
    (resize_buffer s newlen = Ret (0, mk_buff (2 ^ k) (bs_off s) (bs_buffer s) o) ∧
       (bs_alloc s = [] → o = []) ∨
     resize_buffer s newlen = Ret (- ENOMEM, mk_buff (2 ^ k) (bs_off s) None o) ∧
       bs_alloc s ≠ []).
Proof.
  intros (b & k & Hb & Hlen & Hoff & Hk & Hk') Hn Hlim Hlt ->. unfold oa_limit in Hlim.
  assert (2 ^ k ≤ 2 ^ 29) as Hk29.
  { destruct (decide (k ≤ 29)); [apply Z.pow_le_mono_r; lia|].
    assert (k = 30) as -> by lia. lia. }
  destruct (resize_loop_pow2 resize_fuel k (2 ^ k + n)) as (k' & Hk2 & Hloop & Hge);
    [done|lia|unfold resize_fuel; lia|].
  pose proof (pow2_bounds k' ltac:(lia)).
  unfold resize_buffer. rewrite Hk, Hloop, bind_Ret.
  unfold alloc_bytes, wrap_u.
  rewrite Z.mod_small by lia. rewrite (proj2 (Z.ltb_lt _ _)) by lia.
  exists k'. destruct (bs_alloc s) as [|[] o]; simpl.
  - exists []. split_and!; [lia..|]. by left.
  - exists o. split_and!; [lia..|]. left. by split.
  - exists o. split_and!; [lia..|]. by right.
Qed.

(** [memcpy] into an archive that has room. *)
Lemma memcpy_to_spec s b k bs :
  bs_buffer s = Some b → Z.of_nat (length b) = bs_off s → bs_len s = 2 ^ k →
  7 ≤ k ≤ 30 → bs_off s + Z.of_nat (length bs) ≤ bs_len s →
  ∃ s1, memcpy_to s bs = Ret s1 ∧
    let s' := advance (Z.of_nat (length bs)) s1 in
    oa_inv s' ∧ oa_written s' = oa_written s ++ bs ∧
    bs_off s' = bs_off s + Z.of_nat (length bs) ∧ bs_alloc s' = bs_alloc s.
Proof.
  intros Hb Hl Hlen Hk Hroom. unfold memcpy_to. rewrite Hb.
  rewrite (proj2 (Z.leb_le 0 _)), (proj2 (Z.leb_le _ (bs_len s))) by lia; simpl.
  eexists; split; [done|]. simpl.
  rewrite (take_ge b) by lia. split_and!; [|by unfold oa_written; rewrite Hb|done..].
  exists (b ++ bs), k. simpl. rewrite length_app. split_and!; [done|lia..|done|lia|lia].
Qed.

(** The common shape of the writers: test, grow, copy, advance. *)
Lemma reserve_and_copy (test : bool) s newlen bs :
  (test = true ↔ bs_len s - bs_off s < Z.of_nat (length bs)) →
  newlen = bs_len s + Z.of_nat (length bs) →
  oa_inv s → bs_off s + Z.of_nat (length bs) ≤ oa_limit →
  let op := '(rc, s) ← (if test then resize_buffer s newlen else Ret (0, s));
            if rc <? 0 then Ret (rc, s) else
            s ← memcpy_to s bs;
            Ret (0, advance (Z.of_nat (length bs)) s) in
  ∃ s',
    (op = Ret (0, s') ∧ oa_inv s' ∧ oa_written s' = oa_written s ++ bs ∧
     bs_off s' = bs_off s + Z.of_nat (length bs) ∧
     (bs_alloc s = [] → bs_alloc s' = [])) ∨
    (op = Ret (- ENOMEM, s') ∧ bs_buffer s' = None ∧ bs_alloc s ≠ []).
Proof.
  intros Htest Hnew Hinv Hlim. pose proof Hinv as (b & k & Hb & Hl & Hoff & Hk & Hk').
  destruct test; simpl.
  - destruct (resize_buffer_spec s (Z.of_nat (length bs)) newlen)
      as (k2 & o & Hk2 & Hroom & [[-> Ho]|[-> Ho]]); [done|lia|done|by apply Htest|done| |].
    + simpl. destruct (memcpy_to_spec (mk_buff (2 ^ k2) (bs_off s) (bs_buffer s) o) b k2 bs)
        as (s1 & -> & Hi & Hw & Hof & Ha); [done..|].
      eexists. left. split_and!; [done..|]. intros Hal. etransitivity; [exact Ha|]. by apply Ho.
    + eexists. right. simpl. split_and!; [done..|]. done.
  - simpl. destruct (memcpy_to_spec s b k bs) as (s1 & -> & Hi & Hw & Hof & Ha); [done..| |].
    { assert (¬ bs_len s - bs_off s < Z.of_nat (length bs)) by (by rewrite <-Htest). lia. }
    eexists. left. split_and!; [done..|]. intros Hal. by rewrite Ha, Hal.
Qed.

Section host.
Context `{Host}.

Lemma size_test s n :
  oa_inv s → (size_t (bs_len s - bs_off s) <? n) = true ↔ bs_len s - bs_off s < n.
Proof.
  intros (b & k & _ & Hl & Hoff & Hk & Hk'). pose proof (pow2_bounds k Hk').
  unfold wrap_u. rewrite Z.mod_small by lia. apply Z.ltb_lt.
Qed.

Lemma int32_len s n : oa_inv s → 0 ≤ n ≤ 8 → int32 (bs_len s + n) = bs_len s + n.
Proof.
  intros (b & k & _ & Hl & Hoff & Hk & Hk') Hn. pose proof (pow2_bounds k Hk').
  apply wrap_s_id; [lia|]. unfold in_s. lia.
Qed.

Lemma oa_serialize_int_writes d : writes (oa_serialize_int d) (enc_int d).
Proof.
  intros s Hinv Hlim. unfold oa_serialize_int. rewrite mem_htonl.
  pose proof (reserve_and_copy (size_t (bs_len s - bs_off s) <? 4) s
    (int32 (bs_len s + 4)) (enc_int d)) as Hr.
  unfold enc_int in *. rewrite length_be_split in *.
  apply Hr; auto using size_test, int32_len with lia.
Qed.

(** The byte-swapping loop of [zoo_htonll] reverses the eight bytes. *)
Lemma swap_loop_rev (l : list byte) :
  length l = 8%nat → foldl (λ s i, swap_bytes i s) l (seq 0 4) = rev l.
Proof. by destruct l as [|? [|? [|? [|? [|? [|? [|? [|? [|]]]]]]]]]. Qed.

Lemma htonl_one : (htonl 1 =? 1) = big_endian.
Proof. unfold htonl. by destruct big_endian. Qed.

Lemma mem_zoo_htonll z : mem_of_int 8 (zoo_htonll z) = be_split 8 z.
Proof.
  unfold zoo_htonll. rewrite htonl_one, swap_loop_rev by apply length_mem_of_int.
  unfold mem_of_int, int_of_mem, be_split. destruct big_endian; [done|].
  rewrite length_rev, length_le_split, le_split_wrap_s.
  apply split_le_combine'. by rewrite length_rev, length_le_split.
Qed.

Lemma zoo_htonll_mem bs : length bs = 8%nat → zoo_htonll (int_of_mem bs) = be_combine bs.
Proof.
  intros Hl. unfold zoo_htonll. rewrite htonl_one, swap_loop_rev by apply length_mem_of_int.
  unfold mem_of_int, int_of_mem, be_combine. destruct big_endian; [done|].
  rewrite Hl, le_split_wrap_s, length_rev, length_le_split.
  by rewrite (split_le_combine' bs).
Qed.

Lemma oa_serialize_long_writes d : writes (oa_serialize_long d) (enc_long d).
Proof.
  intros s Hinv Hlim. unfold oa_serialize_long. rewrite mem_zoo_htonll.
  pose proof (reserve_and_copy (size_t (bs_len s - bs_off s) <? 8) s
    (int32 (bs_len s + 8)) (enc_long d)) as Hr.
  unfold enc_long in *. rewrite length_be_split in *.
  apply Hr; auto using size_test, int32_len with lia.
Qed.

Lemma oa_serialize_bool_writes d : writes (oa_serialize_bool d) (enc_bool d).
Proof.
  intros s Hinv Hlim.
  apply (reserve_and_copy (bs_len s - bs_off s <? 1) s (bs_len s + 1) (enc_bool d)); auto.
  apply Z.ltb_lt.
Qed.

Lemma memory_at_all bs : memory_at (Some bs) (Z.of_nat (length bs)) = Ret bs.
Proof.
  unfold memory_at. destruct (Z.eqb_spec (Z.of_nat (length bs)) 0) as [Hz|].
  - destruct bs; [done|simpl in Hz; lia].
  - rewrite (proj2 (Z.leb_le _ _)), (proj2 (Z.leb_le _ _)) by lia; simpl.
    by rewrite Nat2Z.id, take_ge.
Qed.

(** A length prefix followed by a block, as buffers and strings are written. *)
Lemma prefixed_writes (op : buff_struct → outcome (Z * buff_struct)) n bs :
  n = Z.of_nat (length bs) →
  (∀ s, op s =
    '(rc, s) ← oa_serialize_int n s;
    if rc <? 0 then Ret (rc, s) else
    '(rc, s) ← (if bs_len s - bs_off s <? n
                then resize_buffer s (bs_len s + n) else Ret (rc, s));
    if rc <? 0 then Ret (rc, s) else
    src ← memory_at (Some bs) n;
    s ← memcpy_to s src;
    Ret (0, advance n s)) →
  writes op (enc_int n ++ bs).
Proof.
  intros -> Hop s Hinv Hlim. rewrite Hop. rewrite length_app in Hlim.
  destruct (oa_serialize_int_writes (Z.of_nat (length bs)) s)
    as (s1 & [(-> & Hi & Hw & Hof & Ha)|(-> & Hb & Ha)]); [done|lia| |].
  - run. rewrite memory_at_all. run.
    destruct (reserve_and_copy (bs_len s1 - bs_off s1 <? Z.of_nat (length bs)) s1
      (bs_len s1 + Z.of_nat (length bs)) bs)
      as (s2 & [(-> & Hi2 & Hw2 & Hof2 & Ha2)|(-> & Hb2 & Ha2)]);
      [apply Z.ltb_lt|done..|lia| |].
    + exists s2. left. rewrite length_app.
      split_and!; [done..| |lia|auto]. by rewrite Hw2, Hw, <-app_assoc.
    + exists s2. right. split_and!; [done..|naive_solver].
  - exists s1. right. by split_and!.
Qed.

Lemma oa_serialize_buffer_writes b :
  wf_buffer b → writes (oa_serialize_buffer (Some b)) (enc_buffer b).
Proof.
  destruct b as [n [bs|]]; unfold wf_buffer, enc_buffer; cbn [b_len b_buff from_option id].
  - intros [-> Hmax]. apply (prefixed_writes _ _ bs eq_refl). intros s.
    unfold oa_serialize_buffer. cbn [b_len b_buff].
    destruct (oa_serialize_int _ _) as [[rc s1]| | |]; run; try done.
    by rewrite (proj2 (Z.eqb_neq _ _)) by lia.
  - intros ->. rewrite app_nil_r. intros s Hi Hl. unfold oa_serialize_buffer.
    cbn [b_len b_buff]. destruct (oa_serialize_int_writes (-1) s Hi Hl)
      as (s1 & [(E & Hr)|(E & Hr)]); exists s1; rewrite E; run; auto.
Qed.

Lemma oa_serialize_string_writes str :
  Z.of_nat (length str) ≤ INT_MAX →
  writes (oa_serialize_string (Some str)) (enc_string (Some str)).
Proof.
  intros Hmax. apply (prefixed_writes _ _ str eq_refl). intros s.
  unfold oa_serialize_string. rewrite wrap_s_id; [done|lia|unfold in_s; lia].
Qed.

Lemma oa_string_writes str :
  wf_string str → writes (oa_serialize_string str) (enc_string str).
Proof. destruct str; [|done]. intros [_ Hl]. apply oa_serialize_string_writes. lia. Qed.
End host.

(** ** Buffer archives keep the promises of [OArchiveOK] *)
Section output_laws.
Context `{Host}.

Global Instance oa_default_laws : OArchiveLaws buff_struct := {
  written := oa_written;
  has_room s m := oa_inv s ∧ bs_alloc s = [] ∧ bs_off s + m ≤ oa_limit;
}.

Lemma writes_appends op bs : writes op bs → appends op bs.
Proof.
  intros Hw s m (Hi & Ha & Hl) Hm.
  destruct (Hw s Hi ltac:(lia)) as (s' & [(E & Hi' & Hw' & Ho & Ha')|(_ & _ & Hn)]);
    [|done].
  exists s'. split; [done|]. split; [done|]. split_and!; [done|by apply Ha'|lia].
Qed.

Lemma skip_appends : appends (λ s : buff_struct, Ret (0, s)) [].
Proof. intros s m Hr Hm. exists s. by rewrite app_nil_r. Qed.

Lemma oa_null_string_appends : appends (oa_serialize_string None) (enc_int (-1)).
Proof.
  intros s m Hr Hm.
  destruct (writes_appends _ _ (oa_serialize_int_writes (-1)) s m Hr Hm) as (s' & E & ?).
  exists s'. unfold oa_serialize_string, negone. by rewrite E.
Qed.

Global Instance oa_default_ok : OArchiveOK buff_struct.
Proof.
  split.
  - exact skip_appends.
  - exact skip_appends.
  - intros n _. exact (writes_appends _ _ (oa_serialize_int_writes n)).
  - exact skip_appends.
  - intros z. exact (writes_appends _ _ (oa_serialize_bool_writes z)).
  - intros z _. exact (writes_appends _ _ (oa_serialize_int_writes z)).
  - intros z _. exact (writes_appends _ _ (oa_serialize_long_writes z)).
  - intros b Hb. exact (writes_appends _ _ (oa_serialize_buffer_writes b Hb)).
  - intros [str|] Hs; [exact (writes_appends _ _ (oa_serialize_string_writes str Hs))
                      |exact oa_null_string_appends].
Qed.
End output_laws.

(** A fresh archive has room for half a gigabyte. *)
Lemma create_buffer_oarchive_inv o s :
  create_buffer_oarchive o = Some s → bs_buffer s ≠ None →
  oa_inv s ∧ bs_off s = 0 ∧ oa_written s = [].
Proof.
  unfold create_buffer_oarchive. destruct o as [|[] [|[] [|[] o]]]; simpl; intros [= <-] Hb;
    try done; (split; [|done]); exists [], 7; simpl; split_and!; done || lia.
Qed.

(** ** Input archives *)
Lemma set_bs_alloc_nil s : bs_alloc s = [] → set_bs_alloc [] s = s.
Proof. intros Ha. unfold set_bs_alloc. rewrite <-Ha. by destruct s. Qed.

Section input_laws.
Context `{Host}.

(** [bs] is what lies between the offset and the end of the block.  The length
    given to [create_buffer_iarchive] may exceed the size of the block. *)
Global Instance ia_default_laws : IArchiveLaws buff_struct := {
  pending s bs := ∃ b, bs_buffer s = Some b ∧ 0 ≤ bs_off s ∧
    (Z.to_nat (bs_off s) ≤ length b)%nat ∧ drop (Z.to_nat (bs_off s)) b = bs ∧
    Z.of_nat (length b) ≤ bs_len s ≤ INT_MAX ∧ bs_alloc s = [];
}.

Lemma pending_room s bs :
  pending s bs → Z.of_nat (length bs) ≤ bs_len s - bs_off s ≤ INT_MAX.
Proof.
  intros (b & _ & Ho & Hob & <- & Hl & _). rewrite length_drop. lia.
Qed.

Lemma pending_size_test s bs n :
  pending s bs → n ≤ Z.of_nat (length bs) → (size_t (bs_len s - bs_off s) <? n) = false.
Proof.
  intros Hp Hn. pose proof (pending_room _ _ Hp).
  unfold wrap_u. rewrite Z.mod_small by lia. apply Z.ltb_ge. lia.
Qed.

Lemma pending_bytes s bs rest n :
  pending s (bs ++ rest) → n = Z.of_nat (length bs) → bytes_at_off s n = Ret bs.
Proof.
  intros (b & Hb & Ho & Hob & Hd & Hl & _) ->. unfold bytes_at_off. rewrite Hb.
  assert (length b = (Z.to_nat (bs_off s) + length bs + length rest)%nat).
  { apply (f_equal length) in Hd. rewrite length_drop, length_app in Hd. lia. }
  rewrite !(proj2 (Z.leb_le _ _)) by lia; simpl.
  by rewrite Nat2Z.id, Hd, take_app_length.
Qed.

Lemma pending_advance s bs rest n :
  pending s (bs ++ rest) → n = Z.of_nat (length bs) → pending (advance n s) rest.
Proof.
  intros (b & Hb & Ho & Hob & Hd & Hl & Ha) ->.
  assert (length b = (Z.to_nat (bs_off s) + length bs + length rest)%nat).
  { apply (f_equal length) in Hd. rewrite length_drop, length_app in Hd. lia. }
  exists b. simpl.
  assert (Z.to_nat (bs_off s + Z.of_nat (length bs)) = (Z.to_nat (bs_off s) + length bs)%nat)
    as -> by lia.
  rewrite <-drop_drop, Hd, drop_app_length. split_and!; done || lia.
Qed.

Lemma ia_deserialize_int_reads z : wf_int z → reads ia_deserialize_int z (enc_int z).
Proof.
  intros Hz old s rest Hp. unfold ia_deserialize_int, enc_int in *.
  erewrite pending_size_test by (try done; rewrite length_app, length_be_split; lia).
  erewrite pending_bytes by (try done; by rewrite length_be_split). run.
  rewrite ntohl_mem by apply length_be_split.
  rewrite be_combine_split by (done || lia).
  eexists; split; [done|]. eapply pending_advance; [done|by rewrite length_be_split].
Qed.

Lemma ia_deserialize_long_reads z : wf_long z → reads ia_deserialize_long z (enc_long z).
Proof.
  intros Hz old s rest Hp. unfold ia_deserialize_long, enc_long in *.
  erewrite pending_size_test by (try done; rewrite length_app, length_be_split; lia).
  erewrite pending_bytes by (try done; by rewrite length_be_split). run.
  rewrite zoo_htonll_mem by apply length_be_split.
  rewrite be_combine_split by (done || lia).
  eexists; split; [done|]. eapply pending_advance; [done|by rewrite length_be_split].
Qed.

Lemma ia_deserialize_bool_reads z : wf_bool z → reads ia_deserialize_bool z (enc_bool z).
Proof.
  intros Hz old s rest Hp. unfold ia_deserialize_bool, enc_bool in *.
  pose proof (pending_room _ _ Hp) as Hr. simpl in Hr.
  rewrite (proj2 (Z.ltb_ge _ _)) by lia.
  erewrite (pending_bytes s [_]) by done. run.
  eexists; split; [|by eapply pending_advance].
  destruct Hz as [-> | ->]; simpl; unfold char_val; by destruct char_signed.
Qed.

Lemma ia_deserialize_buffer_reads b :
  wf_buffer b → reads ia_deserialize_buffer b (enc_buffer b).
Proof.
  intros Hb old s rest Hp. unfold ia_deserialize_buffer, enc_buffer in *.
  rewrite <-app_assoc in Hp.
  assert (wf_int (b_len b)).
  { unfold wf_buffer, wf_int, in_s in *. destruct (b_buff b); lia. }
  destruct (ia_deserialize_int_reads (b_len b) ltac:(done) (b_len old) _ _ Hp)
    as (s1 & -> & Hp1). run.
  pose proof (pending_room _ _ Hp1) as Hr. rewrite length_app in Hr.
  destruct b as [n [bs|]]; unfold wf_buffer in Hb; cbn [b_len b_buff from_option id length] in *.
  - destruct Hb as [-> Hmax].
    rewrite (proj2 (Z.ltb_ge _ _)), (proj2 (Z.eqb_neq _ _)) by lia.
    unfold alloc_bytes. pose proof Hp1 as (b & _ & _ & _ & _ & _ & Ha). rewrite Ha.
    rewrite (wrap_u_id 64), (proj2 (Z.ltb_lt _ _)) by (unfold in_u; lia). cbn [alloc]. run.
    rewrite set_bs_alloc_nil by done.
    erewrite pending_bytes by done. run.
    eexists; split; [done|]. by eapply pending_advance.
  - subst n. rewrite (proj2 (Z.ltb_ge _ _)) by lia. run. by eexists.
Qed.

Lemma ia_deserialize_string_reads str :
  wf_string str → reads ia_deserialize_string str (enc_string str).
Proof.
  destruct str as [str|]; [|done]. intros [Hn Hmax] old s rest Hp.
  unfold ia_deserialize_string, enc_string in *. rewrite <-app_assoc in Hp.
  assert (wf_int (Z.of_nat (length str))) as Hw by (unfold wf_int, in_s; lia).
  destruct (ia_deserialize_int_reads _ Hw 0 _ _ Hp) as (s1 & -> & Hp1). run.
  pose proof (pending_room _ _ Hp1) as Hr. rewrite length_app in Hr.
  rewrite (proj2 (Z.ltb_ge _ _)), (proj2 (Z.ltb_ge _ 0)) by lia.
  unfold alloc_bytes. pose proof Hp1 as (b & _ & _ & _ & _ & _ & Ha). rewrite Ha.
  rewrite (wrap_s_id 32) by (unfold in_s; lia).
  rewrite (wrap_u_id 64), (proj2 (Z.ltb_lt _ _)) by (unfold in_u; lia). cbn [alloc]. run.
  rewrite set_bs_alloc_nil by done.
  erewrite pending_bytes by done. run. rewrite c_str_id by done.
  eexists; split; [done|]. by eapply pending_advance.
Qed.

Global Instance ia_default_ok : IArchiveOK buff_struct.
Proof.
  split; [done|done|done|..].
  - exact ia_deserialize_int_reads.
  - exact ia_deserialize_bool_reads.
  - exact ia_deserialize_int_reads.
  - exact ia_deserialize_long_reads.
  - exact ia_deserialize_buffer_reads.
  - exact ia_deserialize_string_reads.
Qed.
End input_laws.

(** ** Reading arbitrary bytes

    The invariant of an input archive whose length really is that of its block,
    whatever the block holds and whatever the allocator answers. *)
Definition ia_inv (s : buff_struct) : Prop :=
  (∃ b, bs_buffer s = Some b ∧ bs_len s ≤ Z.of_nat (length b)) ∧
  0 ≤ bs_off s ≤ bs_len s ∧ bs_len s ≤ INT_MAX.

(** The archive after some reading: further on in the same block. *)
Record further (s s' : buff_struct) : Prop := {
  further_inv : ia_inv s';
  further_buffer : bs_buffer s' = bs_buffer s;
  further_len : bs_len s' = bs_len s;
  further_off : bs_off s ≤ bs_off s';
  further_alloc : bs_alloc s' `suffix_of` bs_alloc s;
}.
(** [safe op]: on every such archive the operation returns, never leaves the
    block, and only moves forward in it; it can be undefined only after the allocator
    has refused a request. *)
Definition safe_result {A} (s : buff_struct) (m : outcome (Z * A * buff_struct)) : Prop :=
  match m with
  | Ret (_, _, s') => further s s'
  | UB => false ∈ bs_alloc s
  | _ => False
  end.
Definition safe {A} (op : deser buff_struct A) : Prop := ∀ v s, ia_inv s → safe_result s (op v s).

Lemma further_refl s : ia_inv s → further s s.
Proof. by split. Qed.
Lemma further_trans s1 s2 s3 : further s1 s2 → further s2 s3 → further s1 s3.
Proof.
  intros [? ? ? ? ?] [? ? ? ? ?]. split; [done|congruence|congruence|lia|by etrans].
Qed.
Lemma further_refused s s' : further s s' → false ∈ bs_alloc s' → false ∈ bs_alloc s.
Proof. intros [_ _ _ _ [l ->]] Hf. apply elem_of_app. by right. Qed.
(** Continuing after an operation that has moved forward. *)
Lemma safe_after {A} s0 s (m : outcome (Z * A * buff_struct)) :
  further s0 s → safe_result s m → safe_result s0 m.
Proof.
  intros Hs. destruct m as [[[rc v] s']| | |]; [by apply further_trans|done|by apply further_refused|done].
Qed.
Lemma safe_bind {A B} s (m : outcome (Z * A * buff_struct)) (f : Z * A * buff_struct → outcome (Z * B * buff_struct)) :
  safe_result s m → (∀ rc v s', m = Ret (rc, v, s') → further s s' → safe_result s' (f (rc, v, s'))) →
  safe_result s (m ≫= f).
Proof.
  intros Hm Hf. destruct m as [[[rc v] s']| | |]; [|done..]. eapply safe_after; [exact Hm|]. by apply Hf.
Qed.

(** A request to the allocator: granted, or refused for its size or by the allocator. *)
Lemma alloc_bytes_cases n (s : buff_struct) :
  ∃ ok o, alloc_bytes n (bs_alloc s) = (ok, o) ∧ o `suffix_of` bs_alloc s ∧
    (ok = true ∧ n < 2 ^ 63 ∨ ok = false ∧ (2 ^ 63 ≤ n ∨ false ∈ bs_alloc s)).
Proof.
  unfold alloc_bytes. destruct (Z.ltb_spec n (2 ^ 63)) as [Hn|Hn].
  - destruct (bs_alloc s) as [|ok o]; cbn [alloc]; [by exists true, []; split_and!; [..|left]|].
    exists ok, o. split_and!; [done|by apply suffix_cons_r|]. destruct ok; [by left|]. right. split; [done|]. right. left.
  - exists false, (bs_alloc s). split_and!; [done|done|]. right. split; [done|]. by left.
Qed.
Lemma further_set_alloc s o : ia_inv s → o `suffix_of` bs_alloc s → further s (set_bs_alloc o s).
Proof. intros Hi Ho. by split. Qed.

Section input_safety.
Context `{Host}.

Lemma bytes_at_off_safe s n :
  ia_inv s → 0 ≤ n ≤ bs_len s - bs_off s →
  ∃ bs, bytes_at_off s n = Ret bs ∧ length bs = Z.to_nat n.
Proof.
  intros ((b & Hb & Hl) & Ho & _) Hn. unfold bytes_at_off. rewrite Hb.
  rewrite !(proj2 (Z.leb_le _ _)) by lia; simpl.
  eexists; split; [done|]. rewrite length_take, length_drop. lia.
Qed.

Lemma advance_further s n : ia_inv s → 0 ≤ n ≤ bs_len s - bs_off s → further s (advance n s).
Proof.
  intros (Hb & Ho & Hm) Hn. split; [|done|done|simpl; lia|done]. split_and!; simpl; [done|lia..].
Qed.

Lemma size_test_safe s n :
  ia_inv s → (size_t (bs_len s - bs_off s) <? n) = false → n ≤ bs_len s - bs_off s.
Proof.
  intros (_ & Ho & Hm). unfold wrap_u. rewrite Z.mod_small by lia.
  rewrite Z.ltb_ge. lia.
Qed.

Lemma fail_safe {A} (rc : Z) (v : A) s : ia_inv s → safe_result s (Ret (rc, v, s)).
Proof. apply further_refl. Qed.

(** Reading a fixed number [n] of bytes. *)
Lemma read_fixed_safe {A} n (f : list byte → A) s :
  ia_inv s → 0 ≤ n ≤ bs_len s - bs_off s →
  safe_result s (bs ← bytes_at_off s n; Ret (0, f bs, advance n s)).
Proof.
  intros Hi Hn. destruct (bytes_at_off_safe s n Hi Hn) as (bs & -> & Hl). by apply advance_further.
Qed.

Lemma ia_deserialize_int_safe : safe ia_deserialize_int.
Proof.
  intros v s Hi. unfold ia_deserialize_int. case_test; [by apply fail_safe|].
  apply (read_fixed_safe 4 (λ bs, ntohl (int_of_mem bs)) s Hi).
  split; [lia|]. by apply size_test_safe.
Qed.

Lemma ia_deserialize_long_safe : safe ia_deserialize_long.
Proof.
  intros v s Hi. unfold ia_deserialize_long. case_test; [by apply fail_safe|].
  apply (read_fixed_safe 8 (λ bs, zoo_htonll (int_of_mem bs)) s Hi).
  split; [lia|]. by apply size_test_safe.
Qed.

Lemma ia_deserialize_bool_safe : safe ia_deserialize_bool.
Proof.
  intros v s Hi. unfold ia_deserialize_bool. case_test; [by apply fail_safe|].
  apply Z.ltb_ge in E.
  destruct (bytes_at_off_safe s 1 Hi ltac:(lia)) as (bs & -> & Hl).
  destruct bs as [|b [|]]; try done. run. apply advance_further; [done|lia].
Qed.

(** What an [int] read from the wire can be. *)
Lemma ia_deserialize_int_range v s rc n s' :
  ia_deserialize_int v s = Ret (rc, n, s') → (rc <? 0) = false → in_s 32 n.
Proof.
  unfold ia_deserialize_int. case_test; [by intros [= <- <- <-]|].
  destruct (bytes_at_off s 4) as [bs| | |] eqn:Eb; try done. run. intros [= <- <- <-] _.
  assert (length bs = 4%nat) as Hl.
  { revert Eb. unfold bytes_at_off. destruct (bs_buffer s); [|done].
    case_test; [|done]. bool_to_prop. intros [= <-].
    rewrite length_take, length_drop. lia. }
  rewrite ntohl_mem by done. change 32 with (8 * Z.of_nat 4). rewrite <-Hl.
  apply be_combine_range. by destruct bs.
Qed.

Lemma ia_deserialize_buffer_safe : safe ia_deserialize_buffer.
Proof.
  intros v s Hi. unfold ia_deserialize_buffer. apply safe_bind; [by apply ia_deserialize_int_safe|].
  intros rc len s1 Er [Hi1 _ _ _ _].
  case_test; [by apply fail_safe|]. apply ia_deserialize_int_range in Er; [|done].
  case_test; [by apply fail_safe|].
  case_test; [by apply fail_safe|]. apply Z.ltb_ge in E0.
  destruct (alloc_bytes_cases (size_t len) s1) as (ok & o & -> & Ho & Hok).
  pose proof (further_set_alloc s1 o Hi1 Ho) as Hf. apply (safe_after s1 _ _ Hf).
  destruct ok; cbn [negb]; [|apply fail_safe, Hf]. destruct Hok as [[_ Hn]|[? _]]; [|done].
  apply (read_fixed_safe len (λ bs, mk_buffer len (Some bs))); [apply Hf|].
  split; [|simpl; lia]. destruct (decide (0 ≤ len)) as [|Hneg]; [done|].
  rewrite size_t_neg in Hn by (unfold in_s in Er; lia). unfold in_s in Er. lia.
Qed.

Lemma ia_deserialize_string_safe : safe ia_deserialize_string.
Proof.
  intros v s Hi. unfold ia_deserialize_string. apply safe_bind; [by apply ia_deserialize_int_safe|].
  intros rc len s1 Er [Hi1 _ _ _ _].
  case_test; [by apply fail_safe|]. case_test; [by apply fail_safe|].
  case_test; [by apply fail_safe|].
  destruct (alloc_bytes_cases (size_t (int32 (len + 1))) s1) as (ok & o & -> & Ho & Hok).
  pose proof (further_set_alloc s1 o Hi1 Ho) as Hf. apply (safe_after s1 _ _ Hf).
  destruct ok; cbn [negb]; [|apply fail_safe, Hf].
  bool_to_prop. apply (read_fixed_safe len (λ bs, Some (c_str bs))); [apply Hf|simpl; lia].
Qed.
End input_safety.
