(* ===== verification/Jute.v ===== *)
(** * zookeeper.jute.c: the records of the protocol

    One record type per struct of generated/zookeeper.jute.h and one
    [serialize_X], [deserialize_X] and [deallocate_X] per record, written against
    the archive interfaces [OArchive] and [IArchive], as the generated code is
    written against [struct oarchive] and [struct iarchive].  The four vector
    types differ only in their element, so they are instances of [vector]. *)

From S2P Require Import Prelude RecordIO.
Local Open Scope Z_scope.

(** The allocator the record code calls beside its archive. *)
Class Heap (S : Type) := { calloc : Z → S → bool * S }.

Global Instance buff_struct_heap : Heap buff_struct := {
  calloc n s := let '(ok, o) := alloc_bytes n (bs_alloc s) in (ok, set_bs_alloc o s);
}.

(** ** Vectors *)
Record vector (A : Type) := mk_vector { v_count : Z; v_data : option (list A) }.
Global Arguments mk_vector {A} _ _.
Global Arguments v_count {A} _.
Global Arguments v_data {A} _.

(** The zero bytes of each of the four vector structs. *)
Abbreviation zero_String_vector := (mk_vector 0 None).
Abbreviation zero_ACL_vector := (mk_vector 0 None).
Abbreviation zero_Id_vector := (mk_vector 0 None).
Abbreviation zero_Txn_vector := (mk_vector 0 None).

Section vector.
Context {S A : Type}.

(** [for (i = ...; i < v->count; i++) rc = rc ? rc : op(&v->data[i]);]
    with [n] iterations left. *)
Fixpoint serialize_loop (op : A → S → outcome (Z * S)) (data : option (list A))
    (n i : nat) (rc : Z) (s : S) : outcome (Z * S) :=
  match n with
  | O => Ret (rc, s)
  | Datatypes.S n =>
      '(rc, s) ← (if rc =? 0 then
                    match data ≫= λ l, l !! i with
                    | Some x => op x s
                    | None => UB
                    end
                  else Ret (rc, s));
      serialize_loop op data n (Datatypes.S i) rc s
  end.

Definition serialize_vector `{OArchive S} (op : A → S → outcome (Z * S))
    (v : vector A) (s : S) : outcome (Z * S) :=
  '(rc, s) ← oa_start_vector_fn (v_count v) s;
  '(rc, s) ← serialize_loop op (v_data v) (Z.to_nat (v_count v)) 0 rc s;
  if rc =? 0 then oa_end_vector_fn s else Ret (rc, s).

(** [for (i = 0; i < v->count; i++) rc = rc ? rc : op(&v->data[i]);] over the
    elements still to be filled in. *)
Fixpoint deserialize_loop (op : deser S A) (l : list A) (rc : Z) (s : S)
    : outcome (Z * list A * S) :=
  match l with
  | [] => Ret (rc, [], s)
  | x :: l =>
      '(rc, x, s) ← (if rc =? 0 then op x s else Ret (rc, x, s));
      '(rc, l, s) ← deserialize_loop op l rc s;
      Ret (rc, x :: l, s)
  end.

(** The last statement is [rc = in->end_vector(in, tag)]: what the loop left in
    [rc] is overwritten.  [sizeof] and [zero] are those of the element type. *)
Definition deserialize_vector `{IArchive S} `{Heap S} (sizeof : Z) (zero : A)
    (op : deser S A) : deser S (vector A) := λ v s,
  '(rc, count, s) ← ia_start_vector_fn (v_count v) s;
  let '(ok, s) := calloc (size_t count * sizeof) s in
  if ok : bool then
    '(rc, data, s) ← deserialize_loop op (replicate (Z.to_nat count) zero) rc s;
    '(rc, s) ← ia_end_vector_fn s;
    Ret (rc, mk_vector count (Some data), s)
  else
    if (rc =? 0) && (0 <? count) then UB else
    '(rc, s) ← ia_end_vector_fn s;
    Ret (rc, mk_vector count None, s).

Definition allocate_vector (sizeof : Z) (zero : A) (len : Z) (o : allocs)
    : vector A * allocs :=
  if len =? 0 then (mk_vector 0 None, o) else
  let '(ok, o) := alloc_bytes (size_t len * sizeof) o in
  (mk_vector len (if ok : bool then Some (replicate (Z.to_nat len) zero) else None), o).

(** The elements are released with the block that holds them. *)
Definition deallocate_vector (v : vector A) : vector A := mk_vector (v_count v) None.
End vector.


(** ** The records of zookeeper.jute.h

    Field [f] of [struct X] is [X_f]; [zero_X] is a record of zero bytes, as
    [calloc] makes it; [set_X_f] assigns one field. *)
Record Id := mk_Id {
  Id_scheme : option cstring;
  Id_id : option cstring;
}.
Definition zero_Id : Id := mk_Id None None.
Definition set_Id_scheme (x : option cstring) (v : Id) : Id :=
  mk_Id x (Id_id v).
Definition set_Id_id (x : option cstring) (v : Id) : Id :=
  mk_Id (Id_scheme v) x.

Record ACL := mk_ACL {
  ACL_perms : Z;
  ACL_id : Id;
}.
Definition zero_ACL : ACL := mk_ACL 0 zero_Id.
Definition set_ACL_perms (x : Z) (v : ACL) : ACL :=
  mk_ACL x (ACL_id v).
Definition set_ACL_id (x : Id) (v : ACL) : ACL :=
  mk_ACL (ACL_perms v) x.

Record Stat := mk_Stat {
  Stat_czxid : Z;
  Stat_mzxid : Z;
  Stat_ctime : Z;
  Stat_mtime : Z;
  Stat_version : Z;
  Stat_cversion : Z;
  Stat_aversion : Z;
  Stat_ephemeralOwner : Z;
  Stat_dataLength : Z;
  Stat_numChildren : Z;
  Stat_pzxid : Z;
}.
Definition zero_Stat : Stat := mk_Stat 0 0 0 0 0 0 0 0 0 0 0.
Definition set_Stat_czxid (x : Z) (v : Stat) : Stat :=
  mk_Stat x (Stat_mzxid v) (Stat_ctime v) (Stat_mtime v) (Stat_version v) (Stat_cversion v) (Stat_aversion v) (Stat_ephemeralOwner v) (Stat_dataLength v) (Stat_numChildren v) (Stat_pzxid v).
Definition set_Stat_mzxid (x : Z) (v : Stat) : Stat :=
  mk_Stat (Stat_czxid v) x (Stat_ctime v) (Stat_mtime v) (Stat_version v) (Stat_cversion v) (Stat_aversion v) (Stat_ephemeralOwner v) (Stat_dataLength v) (Stat_numChildren v) (Stat_pzxid v).
Definition set_Stat_ctime (x : Z) (v : Stat) : Stat :=
  mk_Stat (Stat_czxid v) (Stat_mzxid v) x (Stat_mtime v) (Stat_version v) (Stat_cversion v) (Stat_aversion v) (Stat_ephemeralOwner v) (Stat_dataLength v) (Stat_numChildren v) (Stat_pzxid v).
Definition set_Stat_mtime (x : Z) (v : Stat) : Stat :=
  mk_Stat (Stat_czxid v) (Stat_mzxid v) (Stat_ctime v) x (Stat_version v) (Stat_cversion v) (Stat_aversion v) (Stat_ephemeralOwner v) (Stat_dataLength v) (Stat_numChildren v) (Stat_pzxid v).
Definition set_Stat_version (x : Z) (v : Stat) : Stat :=
  mk_Stat (Stat_czxid v) (Stat_mzxid v) (Stat_ctime v) (Stat_mtime v) x (Stat_cversion v) (Stat_aversion v) (Stat_ephemeralOwner v) (Stat_dataLength v) (Stat_numChildren v) (Stat_pzxid v).
Definition set_Stat_cversion (x : Z) (v : Stat) : Stat :=
  mk_Stat (Stat_czxid v) (Stat_mzxid v) (Stat_ctime v) (Stat_mtime v) (Stat_version v) x (Stat_aversion v) (Stat_ephemeralOwner v) (Stat_dataLength v) (Stat_numChildren v) (Stat_pzxid v).
Definition set_Stat_aversion (x : Z) (v : Stat) : Stat :=
  mk_Stat (Stat_czxid v) (Stat_mzxid v) (Stat_ctime v) (Stat_mtime v) (Stat_version v) (Stat_cversion v) x (Stat_ephemeralOwner v) (Stat_dataLength v) (Stat_numChildren v) (Stat_pzxid v).
Definition set_Stat_ephemeralOwner (x : Z) (v : Stat) : Stat :=
  mk_Stat (Stat_czxid v) (Stat_mzxid v) (Stat_ctime v) (Stat_mtime v) (Stat_version v) (Stat_cversion v) (Stat_aversion v) x (Stat_dataLength v) (Stat_numChildren v) (Stat_pzxid v).
Definition set_Stat_dataLength (x : Z) (v : Stat) : Stat :=
  mk_Stat (Stat_czxid v) (Stat_mzxid v) (Stat_ctime v) (Stat_mtime v) (Stat_version v) (Stat_cversion v) (Stat_aversion v) (Stat_ephemeralOwner v) x (Stat_numChildren v) (Stat_pzxid v).
Definition set_Stat_numChildren (x : Z) (v : Stat) : Stat :=
  mk_Stat (Stat_czxid v) (Stat_mzxid v) (Stat_ctime v) (Stat_mtime v) (Stat_version v) (Stat_cversion v) (Stat_aversion v) (Stat_ephemeralOwner v) (Stat_dataLength v) x (Stat_pzxid v).
Definition set_Stat_pzxid (x : Z) (v : Stat) : Stat :=
  mk_Stat (Stat_czxid v) (Stat_mzxid v) (Stat_ctime v) (Stat_mtime v) (Stat_version v) (Stat_cversion v) (Stat_aversion v) (Stat_ephemeralOwner v) (Stat_dataLength v) (Stat_numChildren v) x.

Record StatPersisted := mk_StatPersisted {
  StatPersisted_czxid : Z;
  StatPersisted_mzxid : Z;
  StatPersisted_ctime : Z;
  StatPersisted_mtime : Z;
  StatPersisted_version : Z;
  StatPersisted_cversion : Z;
  StatPersisted_aversion : Z;
  StatPersisted_ephemeralOwner : Z;
  StatPersisted_pzxid : Z;
}.
Definition zero_StatPersisted : StatPersisted := mk_StatPersisted 0 0 0 0 0 0 0 0 0.
Definition set_StatPersisted_czxid (x : Z) (v : StatPersisted) : StatPersisted :=
  mk_StatPersisted x (StatPersisted_mzxid v) (StatPersisted_ctime v) (StatPersisted_mtime v) (StatPersisted_version v) (StatPersisted_cversion v) (StatPersisted_aversion v) (StatPersisted_ephemeralOwner v) (StatPersisted_pzxid v).
Definition set_StatPersisted_mzxid (x : Z) (v : StatPersisted) : StatPersisted :=
  mk_StatPersisted (StatPersisted_czxid v) x (StatPersisted_ctime v) (StatPersisted_mtime v) (StatPersisted_version v) (StatPersisted_cversion v) (StatPersisted_aversion v) (StatPersisted_ephemeralOwner v) (StatPersisted_pzxid v).
Definition set_StatPersisted_ctime (x : Z) (v : StatPersisted) : StatPersisted :=
  mk_StatPersisted (StatPersisted_czxid v) (StatPersisted_mzxid v) x (StatPersisted_mtime v) (StatPersisted_version v) (StatPersisted_cversion v) (StatPersisted_aversion v) (StatPersisted_ephemeralOwner v) (StatPersisted_pzxid v).
Definition set_StatPersisted_mtime (x : Z) (v : StatPersisted) : StatPersisted :=
  mk_StatPersisted (StatPersisted_czxid v) (StatPersisted_mzxid v) (StatPersisted_ctime v) x (StatPersisted_version v) (StatPersisted_cversion v) (StatPersisted_aversion v) (StatPersisted_ephemeralOwner v) (StatPersisted_pzxid v).
Definition set_StatPersisted_version (x : Z) (v : StatPersisted) : StatPersisted :=
  mk_StatPersisted (StatPersisted_czxid v) (StatPersisted_mzxid v) (StatPersisted_ctime v) (StatPersisted_mtime v) x (StatPersisted_cversion v) (StatPersisted_aversion v) (StatPersisted_ephemeralOwner v) (StatPersisted_pzxid v).
Definition set_StatPersisted_cversion (x : Z) (v : StatPersisted) : StatPersisted :=
  mk_StatPersisted (StatPersisted_czxid v) (StatPersisted_mzxid v) (StatPersisted_ctime v) (StatPersisted_mtime v) (StatPersisted_version v) x (StatPersisted_aversion v) (StatPersisted_ephemeralOwner v) (StatPersisted_pzxid v).
Definition set_StatPersisted_aversion (x : Z) (v : StatPersisted) : StatPersisted :=
  mk_StatPersisted (StatPersisted_czxid v) (StatPersisted_mzxid v) (StatPersisted_ctime v) (StatPersisted_mtime v) (StatPersisted_version v) (StatPersisted_cversion v) x (StatPersisted_ephemeralOwner v) (StatPersisted_pzxid v).
Definition set_StatPersisted_ephemeralOwner (x : Z) (v : StatPersisted) : StatPersisted :=
  mk_StatPersisted (StatPersisted_czxid v) (StatPersisted_mzxid v) (StatPersisted_ctime v) (StatPersisted_mtime v) (StatPersisted_version v) (StatPersisted_cversion v) (StatPersisted_aversion v) x (StatPersisted_pzxid v).
Definition set_StatPersisted_pzxid (x : Z) (v : StatPersisted) : StatPersisted :=
  mk_StatPersisted (StatPersisted_czxid v) (StatPersisted_mzxid v) (StatPersisted_ctime v) (StatPersisted_mtime v) (StatPersisted_version v) (StatPersisted_cversion v) (StatPersisted_aversion v) (StatPersisted_ephemeralOwner v) x.

Record ConnectRequest := mk_ConnectRequest {
  ConnectRequest_protocolVersion : Z;
  ConnectRequest_lastZxidSeen : Z;
  ConnectRequest_timeOut : Z;
  ConnectRequest_sessionId : Z;
  ConnectRequest_passwd : buffer;
}.
Definition zero_ConnectRequest : ConnectRequest := mk_ConnectRequest 0 0 0 0 (mk_buffer 0 None).
Definition set_ConnectRequest_protocolVersion (x : Z) (v : ConnectRequest) : ConnectRequest :=
  mk_ConnectRequest x (ConnectRequest_lastZxidSeen v) (ConnectRequest_timeOut v) (ConnectRequest_sessionId v) (ConnectRequest_passwd v).
Definition set_ConnectRequest_lastZxidSeen (x : Z) (v : ConnectRequest) : ConnectRequest :=
  mk_ConnectRequest (ConnectRequest_protocolVersion v) x (ConnectRequest_timeOut v) (ConnectRequest_sessionId v) (ConnectRequest_passwd v).
Definition set_ConnectRequest_timeOut (x : Z) (v : ConnectRequest) : ConnectRequest :=
  mk_ConnectRequest (ConnectRequest_protocolVersion v) (ConnectRequest_lastZxidSeen v) x (ConnectRequest_sessionId v) (ConnectRequest_passwd v).
Definition set_ConnectRequest_sessionId (x : Z) (v : ConnectRequest) : ConnectRequest :=
  mk_ConnectRequest (ConnectRequest_protocolVersion v) (ConnectRequest_lastZxidSeen v) (ConnectRequest_timeOut v) x (ConnectRequest_passwd v).
Definition set_ConnectRequest_passwd (x : buffer) (v : ConnectRequest) : ConnectRequest :=
  mk_ConnectRequest (ConnectRequest_protocolVersion v) (ConnectRequest_lastZxidSeen v) (ConnectRequest_timeOut v) (ConnectRequest_sessionId v) x.

Record ConnectResponse := mk_ConnectResponse {
  ConnectResponse_protocolVersion : Z;
  ConnectResponse_timeOut : Z;
  ConnectResponse_sessionId : Z;
  ConnectResponse_passwd : buffer;
}.
Definition zero_ConnectResponse : ConnectResponse := mk_ConnectResponse 0 0 0 (mk_buffer 0 None).
Definition set_ConnectResponse_protocolVersion (x : Z) (v : ConnectResponse) : ConnectResponse :=
  mk_ConnectResponse x (ConnectResponse_timeOut v) (ConnectResponse_sessionId v) (ConnectResponse_passwd v).
Definition set_ConnectResponse_timeOut (x : Z) (v : ConnectResponse) : ConnectResponse :=
  mk_ConnectResponse (ConnectResponse_protocolVersion v) x (ConnectResponse_sessionId v) (ConnectResponse_passwd v).
Definition set_ConnectResponse_sessionId (x : Z) (v : ConnectResponse) : ConnectResponse :=
  mk_ConnectResponse (ConnectResponse_protocolVersion v) (ConnectResponse_timeOut v) x (ConnectResponse_passwd v).
Definition set_ConnectResponse_passwd (x : buffer) (v : ConnectResponse) : ConnectResponse :=
  mk_ConnectResponse (ConnectResponse_protocolVersion v) (ConnectResponse_timeOut v) (ConnectResponse_sessionId v) x.

Record SetWatches := mk_SetWatches {
  SetWatches_relativeZxid : Z;
  SetWatches_dataWatches : vector (option cstring);
  SetWatches_existWatches : vector (option cstring);
  SetWatches_childWatches : vector (option cstring);
}.
Definition zero_SetWatches : SetWatches := mk_SetWatches 0 zero_String_vector zero_String_vector zero_String_vector.
Definition set_SetWatches_relativeZxid (x : Z) (v : SetWatches) : SetWatches :=
  mk_SetWatches x (SetWatches_dataWatches v) (SetWatches_existWatches v) (SetWatches_childWatches v).
Definition set_SetWatches_dataWatches (x : vector (option cstring)) (v : SetWatches) : SetWatches :=
  mk_SetWatches (SetWatches_relativeZxid v) x (SetWatches_existWatches v) (SetWatches_childWatches v).
Definition set_SetWatches_existWatches (x : vector (option cstring)) (v : SetWatches) : SetWatches :=
  mk_SetWatches (SetWatches_relativeZxid v) (SetWatches_dataWatches v) x (SetWatches_childWatches v).
Definition set_SetWatches_childWatches (x : vector (option cstring)) (v : SetWatches) : SetWatches :=
  mk_SetWatches (SetWatches_relativeZxid v) (SetWatches_dataWatches v) (SetWatches_existWatches v) x.

Record RequestHeader := mk_RequestHeader {
  RequestHeader_xid : Z;
  RequestHeader_type : Z;
}.
Definition zero_RequestHeader : RequestHeader := mk_RequestHeader 0 0.
Definition set_RequestHeader_xid (x : Z) (v : RequestHeader) : RequestHeader :=
  mk_RequestHeader x (RequestHeader_type v).
Definition set_RequestHeader_type (x : Z) (v : RequestHeader) : RequestHeader :=
  mk_RequestHeader (RequestHeader_xid v) x.

Record MultiHeader := mk_MultiHeader {
  MultiHeader_type : Z;
  MultiHeader_done : Z;
  MultiHeader_err : Z;
}.
Definition zero_MultiHeader : MultiHeader := mk_MultiHeader 0 0 0.
Definition set_MultiHeader_type (x : Z) (v : MultiHeader) : MultiHeader :=
  mk_MultiHeader x (MultiHeader_done v) (MultiHeader_err v).
Definition set_MultiHeader_done (x : Z) (v : MultiHeader) : MultiHeader :=
  mk_MultiHeader (MultiHeader_type v) x (MultiHeader_err v).
Definition set_MultiHeader_err (x : Z) (v : MultiHeader) : MultiHeader :=
  mk_MultiHeader (MultiHeader_type v) (MultiHeader_done v) x.

Record AuthPacket := mk_AuthPacket {
  AuthPacket_type : Z;
  AuthPacket_scheme : option cstring;
  AuthPacket_auth : buffer;
}.
Definition zero_AuthPacket : AuthPacket := mk_AuthPacket 0 None (mk_buffer 0 None).
Definition set_AuthPacket_type (x : Z) (v : AuthPacket) : AuthPacket :=
  mk_AuthPacket x (AuthPacket_scheme v) (AuthPacket_auth v).
Definition set_AuthPacket_scheme (x : option cstring) (v : AuthPacket) : AuthPacket :=
  mk_AuthPacket (AuthPacket_type v) x (AuthPacket_auth v).
Definition set_AuthPacket_auth (x : buffer) (v : AuthPacket) : AuthPacket :=
  mk_AuthPacket (AuthPacket_type v) (AuthPacket_scheme v) x.

Record ReplyHeader := mk_ReplyHeader {
  ReplyHeader_xid : Z;
  ReplyHeader_zxid : Z;
  ReplyHeader_err : Z;
}.
Definition zero_ReplyHeader : ReplyHeader := mk_ReplyHeader 0 0 0.
Definition set_ReplyHeader_xid (x : Z) (v : ReplyHeader) : ReplyHeader :=
  mk_ReplyHeader x (ReplyHeader_zxid v) (ReplyHeader_err v).
Definition set_ReplyHeader_zxid (x : Z) (v : ReplyHeader) : ReplyHeader :=
  mk_ReplyHeader (ReplyHeader_xid v) x (ReplyHeader_err v).
Definition set_ReplyHeader_err (x : Z) (v : ReplyHeader) : ReplyHeader :=
  mk_ReplyHeader (ReplyHeader_xid v) (ReplyHeader_zxid v) x.

Record GetDataRequest := mk_GetDataRequest {
  GetDataRequest_path : option cstring;
  GetDataRequest_watch : Z;
}.
Definition zero_GetDataRequest : GetDataRequest := mk_GetDataRequest None 0.
Definition set_GetDataRequest_path (x : option cstring) (v : GetDataRequest) : GetDataRequest :=
  mk_GetDataRequest x (GetDataRequest_watch v).
Definition set_GetDataRequest_watch (x : Z) (v : GetDataRequest) : GetDataRequest :=
  mk_GetDataRequest (GetDataRequest_path v) x.

Record SetDataRequest := mk_SetDataRequest {
  SetDataRequest_path : option cstring;
  SetDataRequest_data : buffer;
  SetDataRequest_version : Z;
}.
Definition zero_SetDataRequest : SetDataRequest := mk_SetDataRequest None (mk_buffer 0 None) 0.
Definition set_SetDataRequest_path (x : option cstring) (v : SetDataRequest) : SetDataRequest :=
  mk_SetDataRequest x (SetDataRequest_data v) (SetDataRequest_version v).
Definition set_SetDataRequest_data (x : buffer) (v : SetDataRequest) : SetDataRequest :=
  mk_SetDataRequest (SetDataRequest_path v) x (SetDataRequest_version v).
Definition set_SetDataRequest_version (x : Z) (v : SetDataRequest) : SetDataRequest :=
  mk_SetDataRequest (SetDataRequest_path v) (SetDataRequest_data v) x.

Record ReconfigRequest := mk_ReconfigRequest {
  ReconfigRequest_joiningServers : option cstring;
  ReconfigRequest_leavingServers : option cstring;
  ReconfigRequest_newMembers : option cstring;
  ReconfigRequest_curConfigId : Z;
}.
Definition zero_ReconfigRequest : ReconfigRequest := mk_ReconfigRequest None None None 0.
Definition set_ReconfigRequest_joiningServers (x : option cstring) (v : ReconfigRequest) : ReconfigRequest :=
  mk_ReconfigRequest x (ReconfigRequest_leavingServers v) (ReconfigRequest_newMembers v) (ReconfigRequest_curConfigId v).
Definition set_ReconfigRequest_leavingServers (x : option cstring) (v : ReconfigRequest) : ReconfigRequest :=
  mk_ReconfigRequest (ReconfigRequest_joiningServers v) x (ReconfigRequest_newMembers v) (ReconfigRequest_curConfigId v).
Definition set_ReconfigRequest_newMembers (x : option cstring) (v : ReconfigRequest) : ReconfigRequest :=
  mk_ReconfigRequest (ReconfigRequest_joiningServers v) (ReconfigRequest_leavingServers v) x (ReconfigRequest_curConfigId v).
Definition set_ReconfigRequest_curConfigId (x : Z) (v : ReconfigRequest) : ReconfigRequest :=
  mk_ReconfigRequest (ReconfigRequest_joiningServers v) (ReconfigRequest_leavingServers v) (ReconfigRequest_newMembers v) x.

Record SetDataResponse := mk_SetDataResponse {
  SetDataResponse_stat : Stat;
}.
Definition zero_SetDataResponse : SetDataResponse := mk_SetDataResponse zero_Stat.
Definition set_SetDataResponse_stat (x : Stat) (v : SetDataResponse) : SetDataResponse :=
  mk_SetDataResponse x.

Record GetSASLRequest := mk_GetSASLRequest {
  GetSASLRequest_token : buffer;
}.
Definition zero_GetSASLRequest : GetSASLRequest := mk_GetSASLRequest (mk_buffer 0 None).
Definition set_GetSASLRequest_token (x : buffer) (v : GetSASLRequest) : GetSASLRequest :=
  mk_GetSASLRequest x.

Record SetSASLRequest := mk_SetSASLRequest {
  SetSASLRequest_token : buffer;
}.
Definition zero_SetSASLRequest : SetSASLRequest := mk_SetSASLRequest (mk_buffer 0 None).
Definition set_SetSASLRequest_token (x : buffer) (v : SetSASLRequest) : SetSASLRequest :=
  mk_SetSASLRequest x.

Record SetSASLResponse := mk_SetSASLResponse {
  SetSASLResponse_token : buffer;
}.
Definition zero_SetSASLResponse : SetSASLResponse := mk_SetSASLResponse (mk_buffer 0 None).
Definition set_SetSASLResponse_token (x : buffer) (v : SetSASLResponse) : SetSASLResponse :=
  mk_SetSASLResponse x.

Record CreateRequest := mk_CreateRequest {
  CreateRequest_path : option cstring;
  CreateRequest_data : buffer;
  CreateRequest_acl : vector ACL;
  CreateRequest_flags : Z;
}.
Definition zero_CreateRequest : CreateRequest := mk_CreateRequest None (mk_buffer 0 None) zero_ACL_vector 0.
Definition set_CreateRequest_path (x : option cstring) (v : CreateRequest) : CreateRequest :=
  mk_CreateRequest x (CreateRequest_data v) (CreateRequest_acl v) (CreateRequest_flags v).
Definition set_CreateRequest_data (x : buffer) (v : CreateRequest) : CreateRequest :=
  mk_CreateRequest (CreateRequest_path v) x (CreateRequest_acl v) (CreateRequest_flags v).
Definition set_CreateRequest_acl (x : vector ACL) (v : CreateRequest) : CreateRequest :=
  mk_CreateRequest (CreateRequest_path v) (CreateRequest_data v) x (CreateRequest_flags v).
Definition set_CreateRequest_flags (x : Z) (v : CreateRequest) : CreateRequest :=
  mk_CreateRequest (CreateRequest_path v) (CreateRequest_data v) (CreateRequest_acl v) x.

Record CreateTTLRequest := mk_CreateTTLRequest {
  CreateTTLRequest_path : option cstring;
  CreateTTLRequest_data : buffer;
  CreateTTLRequest_acl : vector ACL;
  CreateTTLRequest_flags : Z;
  CreateTTLRequest_ttl : Z;
}.
Definition zero_CreateTTLRequest : CreateTTLRequest := mk_CreateTTLRequest None (mk_buffer 0 None) zero_ACL_vector 0 0.
Definition set_CreateTTLRequest_path (x : option cstring) (v : CreateTTLRequest) : CreateTTLRequest :=
  mk_CreateTTLRequest x (CreateTTLRequest_data v) (CreateTTLRequest_acl v) (CreateTTLRequest_flags v) (CreateTTLRequest_ttl v).
Definition set_CreateTTLRequest_data (x : buffer) (v : CreateTTLRequest) : CreateTTLRequest :=
  mk_CreateTTLRequest (CreateTTLRequest_path v) x (CreateTTLRequest_acl v) (CreateTTLRequest_flags v) (CreateTTLRequest_ttl v).
Definition set_CreateTTLRequest_acl (x : vector ACL) (v : CreateTTLRequest) : CreateTTLRequest :=
  mk_CreateTTLRequest (CreateTTLRequest_path v) (CreateTTLRequest_data v) x (CreateTTLRequest_flags v) (CreateTTLRequest_ttl v).
Definition set_CreateTTLRequest_flags (x : Z) (v : CreateTTLRequest) : CreateTTLRequest :=
  mk_CreateTTLRequest (CreateTTLRequest_path v) (CreateTTLRequest_data v) (CreateTTLRequest_acl v) x (CreateTTLRequest_ttl v).
Definition set_CreateTTLRequest_ttl (x : Z) (v : CreateTTLRequest) : CreateTTLRequest :=
  mk_CreateTTLRequest (CreateTTLRequest_path v) (CreateTTLRequest_data v) (CreateTTLRequest_acl v) (CreateTTLRequest_flags v) x.

Record DeleteRequest := mk_DeleteRequest {
  DeleteRequest_path : option cstring;
  DeleteRequest_version : Z;
}.
Definition zero_DeleteRequest : DeleteRequest := mk_DeleteRequest None 0.
Definition set_DeleteRequest_path (x : option cstring) (v : DeleteRequest) : DeleteRequest :=
  mk_DeleteRequest x (DeleteRequest_version v).
Definition set_DeleteRequest_version (x : Z) (v : DeleteRequest) : DeleteRequest :=
  mk_DeleteRequest (DeleteRequest_path v) x.

Record GetChildrenRequest := mk_GetChildrenRequest {
  GetChildrenRequest_path : option cstring;
  GetChildrenRequest_watch : Z;
}.
Definition zero_GetChildrenRequest : GetChildrenRequest := mk_GetChildrenRequest None 0.
Definition set_GetChildrenRequest_path (x : option cstring) (v : GetChildrenRequest) : GetChildrenRequest :=
  mk_GetChildrenRequest x (GetChildrenRequest_watch v).
Definition set_GetChildrenRequest_watch (x : Z) (v : GetChildrenRequest) : GetChildrenRequest :=
  mk_GetChildrenRequest (GetChildrenRequest_path v) x.

Record GetChildren2Request := mk_GetChildren2Request {
  GetChildren2Request_path : option cstring;
  GetChildren2Request_watch : Z;
}.
Definition zero_GetChildren2Request : GetChildren2Request := mk_GetChildren2Request None 0.
Definition set_GetChildren2Request_path (x : option cstring) (v : GetChildren2Request) : GetChildren2Request :=
  mk_GetChildren2Request x (GetChildren2Request_watch v).
Definition set_GetChildren2Request_watch (x : Z) (v : GetChildren2Request) : GetChildren2Request :=
  mk_GetChildren2Request (GetChildren2Request_path v) x.

Record CheckVersionRequest := mk_CheckVersionRequest {
  CheckVersionRequest_path : option cstring;
  CheckVersionRequest_version : Z;
}.
Definition zero_CheckVersionRequest : CheckVersionRequest := mk_CheckVersionRequest None 0.
Definition set_CheckVersionRequest_path (x : option cstring) (v : CheckVersionRequest) : CheckVersionRequest :=
  mk_CheckVersionRequest x (CheckVersionRequest_version v).
Definition set_CheckVersionRequest_version (x : Z) (v : CheckVersionRequest) : CheckVersionRequest :=
  mk_CheckVersionRequest (CheckVersionRequest_path v) x.

Record GetMaxChildrenRequest := mk_GetMaxChildrenRequest {
  GetMaxChildrenRequest_path : option cstring;
}.
Definition zero_GetMaxChildrenRequest : GetMaxChildrenRequest := mk_GetMaxChildrenRequest None.
Definition set_GetMaxChildrenRequest_path (x : option cstring) (v : GetMaxChildrenRequest) : GetMaxChildrenRequest :=
  mk_GetMaxChildrenRequest x.

Record GetMaxChildrenResponse := mk_GetMaxChildrenResponse {
  GetMaxChildrenResponse_max : Z;
}.
Definition zero_GetMaxChildrenResponse : GetMaxChildrenResponse := mk_GetMaxChildrenResponse 0.
Definition set_GetMaxChildrenResponse_max (x : Z) (v : GetMaxChildrenResponse) : GetMaxChildrenResponse :=
  mk_GetMaxChildrenResponse x.

Record SetMaxChildrenRequest := mk_SetMaxChildrenRequest {
  SetMaxChildrenRequest_path : option cstring;
  SetMaxChildrenRequest_max : Z;
}.
Definition zero_SetMaxChildrenRequest : SetMaxChildrenRequest := mk_SetMaxChildrenRequest None 0.
Definition set_SetMaxChildrenRequest_path (x : option cstring) (v : SetMaxChildrenRequest) : SetMaxChildrenRequest :=
  mk_SetMaxChildrenRequest x (SetMaxChildrenRequest_max v).
Definition set_SetMaxChildrenRequest_max (x : Z) (v : SetMaxChildrenRequest) : SetMaxChildrenRequest :=
  mk_SetMaxChildrenRequest (SetMaxChildrenRequest_path v) x.

Record SyncRequest := mk_SyncRequest {
  SyncRequest_path : option cstring;
}.
Definition zero_SyncRequest : SyncRequest := mk_SyncRequest None.
Definition set_SyncRequest_path (x : option cstring) (v : SyncRequest) : SyncRequest :=
  mk_SyncRequest x.

Record SyncResponse := mk_SyncResponse {
  SyncResponse_path : option cstring;
}.
Definition zero_SyncResponse : SyncResponse := mk_SyncResponse None.
Definition set_SyncResponse_path (x : option cstring) (v : SyncResponse) : SyncResponse :=
  mk_SyncResponse x.

Record GetACLRequest := mk_GetACLRequest {
  GetACLRequest_path : option cstring;
}.
Definition zero_GetACLRequest : GetACLRequest := mk_GetACLRequest None.
Definition set_GetACLRequest_path (x : option cstring) (v : GetACLRequest) : GetACLRequest :=
  mk_GetACLRequest x.

Record SetACLRequest := mk_SetACLRequest {
  SetACLRequest_path : option cstring;
  SetACLRequest_acl : vector ACL;
  SetACLRequest_version : Z;
}.
Definition zero_SetACLRequest : SetACLRequest := mk_SetACLRequest None zero_ACL_vector 0.
Definition set_SetACLRequest_path (x : option cstring) (v : SetACLRequest) : SetACLRequest :=
  mk_SetACLRequest x (SetACLRequest_acl v) (SetACLRequest_version v).
Definition set_SetACLRequest_acl (x : vector ACL) (v : SetACLRequest) : SetACLRequest :=
  mk_SetACLRequest (SetACLRequest_path v) x (SetACLRequest_version v).
Definition set_SetACLRequest_version (x : Z) (v : SetACLRequest) : SetACLRequest :=
  mk_SetACLRequest (SetACLRequest_path v) (SetACLRequest_acl v) x.

Record SetACLResponse := mk_SetACLResponse {
  SetACLResponse_stat : Stat;
}.
Definition zero_SetACLResponse : SetACLResponse := mk_SetACLResponse zero_Stat.
Definition set_SetACLResponse_stat (x : Stat) (v : SetACLResponse) : SetACLResponse :=
  mk_SetACLResponse x.

Record WatcherEvent := mk_WatcherEvent {
  WatcherEvent_type : Z;
  WatcherEvent_state : Z;
  WatcherEvent_path : option cstring;
}.
Definition zero_WatcherEvent : WatcherEvent := mk_WatcherEvent 0 0 None.
Definition set_WatcherEvent_type (x : Z) (v : WatcherEvent) : WatcherEvent :=
  mk_WatcherEvent x (WatcherEvent_state v) (WatcherEvent_path v).
Definition set_WatcherEvent_state (x : Z) (v : WatcherEvent) : WatcherEvent :=
  mk_WatcherEvent (WatcherEvent_type v) x (WatcherEvent_path v).
Definition set_WatcherEvent_path (x : option cstring) (v : WatcherEvent) : WatcherEvent :=
  mk_WatcherEvent (WatcherEvent_type v) (WatcherEvent_state v) x.

Record ErrorResponse := mk_ErrorResponse {
  ErrorResponse_err : Z;
}.
Definition zero_ErrorResponse : ErrorResponse := mk_ErrorResponse 0.
Definition set_ErrorResponse_err (x : Z) (v : ErrorResponse) : ErrorResponse :=
  mk_ErrorResponse x.

Record CreateResponse := mk_CreateResponse {
  CreateResponse_path : option cstring;
}.
Definition zero_CreateResponse : CreateResponse := mk_CreateResponse None.
Definition set_CreateResponse_path (x : option cstring) (v : CreateResponse) : CreateResponse :=
  mk_CreateResponse x.

Record Create2Response := mk_Create2Response {
  Create2Response_path : option cstring;
  Create2Response_stat : Stat;
}.
Definition zero_Create2Response : Create2Response := mk_Create2Response None zero_Stat.
Definition set_Create2Response_path (x : option cstring) (v : Create2Response) : Create2Response :=
  mk_Create2Response x (Create2Response_stat v).
Definition set_Create2Response_stat (x : Stat) (v : Create2Response) : Create2Response :=
  mk_Create2Response (Create2Response_path v) x.

Record ExistsRequest := mk_ExistsRequest {
  ExistsRequest_path : option cstring;
  ExistsRequest_watch : Z;
}.
Definition zero_ExistsRequest : ExistsRequest := mk_ExistsRequest None 0.
Definition set_ExistsRequest_path (x : option cstring) (v : ExistsRequest) : ExistsRequest :=
  mk_ExistsRequest x (ExistsRequest_watch v).
Definition set_ExistsRequest_watch (x : Z) (v : ExistsRequest) : ExistsRequest :=
  mk_ExistsRequest (ExistsRequest_path v) x.

Record ExistsResponse := mk_ExistsResponse {
  ExistsResponse_stat : Stat;
}.
Definition zero_ExistsResponse : ExistsResponse := mk_ExistsResponse zero_Stat.
Definition set_ExistsResponse_stat (x : Stat) (v : ExistsResponse) : ExistsResponse :=
  mk_ExistsResponse x.

Record GetDataResponse := mk_GetDataResponse {
  GetDataResponse_data : buffer;
  GetDataResponse_stat : Stat;
}.
Definition zero_GetDataResponse : GetDataResponse := mk_GetDataResponse (mk_buffer 0 None) zero_Stat.
Definition set_GetDataResponse_data (x : buffer) (v : GetDataResponse) : GetDataResponse :=
  mk_GetDataResponse x (GetDataResponse_stat v).
Definition set_GetDataResponse_stat (x : Stat) (v : GetDataResponse) : GetDataResponse :=
  mk_GetDataResponse (GetDataResponse_data v) x.

Record GetChildrenResponse := mk_GetChildrenResponse {
  GetChildrenResponse_children : vector (option cstring);
}.
Definition zero_GetChildrenResponse : GetChildrenResponse := mk_GetChildrenResponse zero_String_vector.
Definition set_GetChildrenResponse_children (x : vector (option cstring)) (v : GetChildrenResponse) : GetChildrenResponse :=
  mk_GetChildrenResponse x.

Record GetChildren2Response := mk_GetChildren2Response {
  GetChildren2Response_children : vector (option cstring);
  GetChildren2Response_stat : Stat;
}.
Definition zero_GetChildren2Response : GetChildren2Response := mk_GetChildren2Response zero_String_vector zero_Stat.
Definition set_GetChildren2Response_children (x : vector (option cstring)) (v : GetChildren2Response) : GetChildren2Response :=
  mk_GetChildren2Response x (GetChildren2Response_stat v).
Definition set_GetChildren2Response_stat (x : Stat) (v : GetChildren2Response) : GetChildren2Response :=
  mk_GetChildren2Response (GetChildren2Response_children v) x.

Record GetACLResponse := mk_GetACLResponse {
  GetACLResponse_acl : vector ACL;
  GetACLResponse_stat : Stat;
}.
Definition zero_GetACLResponse : GetACLResponse := mk_GetACLResponse zero_ACL_vector zero_Stat.
Definition set_GetACLResponse_acl (x : vector ACL) (v : GetACLResponse) : GetACLResponse :=
  mk_GetACLResponse x (GetACLResponse_stat v).
Definition set_GetACLResponse_stat (x : Stat) (v : GetACLResponse) : GetACLResponse :=
  mk_GetACLResponse (GetACLResponse_acl v) x.

Record CheckWatchesRequest := mk_CheckWatchesRequest {
  CheckWatchesRequest_path : option cstring;
  CheckWatchesRequest_type : Z;
}.
Definition zero_CheckWatchesRequest : CheckWatchesRequest := mk_CheckWatchesRequest None 0.
Definition set_CheckWatchesRequest_path (x : option cstring) (v : CheckWatchesRequest) : CheckWatchesRequest :=
  mk_CheckWatchesRequest x (CheckWatchesRequest_type v).
Definition set_CheckWatchesRequest_type (x : Z) (v : CheckWatchesRequest) : CheckWatchesRequest :=
  mk_CheckWatchesRequest (CheckWatchesRequest_path v) x.

Record RemoveWatchesRequest := mk_RemoveWatchesRequest {
  RemoveWatchesRequest_path : option cstring;
  RemoveWatchesRequest_type : Z;
}.
Definition zero_RemoveWatchesRequest : RemoveWatchesRequest := mk_RemoveWatchesRequest None 0.
Definition set_RemoveWatchesRequest_path (x : option cstring) (v : RemoveWatchesRequest) : RemoveWatchesRequest :=
  mk_RemoveWatchesRequest x (RemoveWatchesRequest_type v).
Definition set_RemoveWatchesRequest_type (x : Z) (v : RemoveWatchesRequest) : RemoveWatchesRequest :=
  mk_RemoveWatchesRequest (RemoveWatchesRequest_path v) x.

Record LearnerInfo := mk_LearnerInfo {
  LearnerInfo_serverid : Z;
  LearnerInfo_protocolVersion : Z;
  LearnerInfo_configVersion : Z;
}.
Definition zero_LearnerInfo : LearnerInfo := mk_LearnerInfo 0 0 0.
Definition set_LearnerInfo_serverid (x : Z) (v : LearnerInfo) : LearnerInfo :=
  mk_LearnerInfo x (LearnerInfo_protocolVersion v) (LearnerInfo_configVersion v).
Definition set_LearnerInfo_protocolVersion (x : Z) (v : LearnerInfo) : LearnerInfo :=
  mk_LearnerInfo (LearnerInfo_serverid v) x (LearnerInfo_configVersion v).
Definition set_LearnerInfo_configVersion (x : Z) (v : LearnerInfo) : LearnerInfo :=
  mk_LearnerInfo (LearnerInfo_serverid v) (LearnerInfo_protocolVersion v) x.

Record QuorumPacket := mk_QuorumPacket {
  QuorumPacket_type : Z;
  QuorumPacket_zxid : Z;
  QuorumPacket_data : buffer;
  QuorumPacket_authinfo : vector Id;
}.
Definition zero_QuorumPacket : QuorumPacket := mk_QuorumPacket 0 0 (mk_buffer 0 None) zero_Id_vector.
Definition set_QuorumPacket_type (x : Z) (v : QuorumPacket) : QuorumPacket :=
  mk_QuorumPacket x (QuorumPacket_zxid v) (QuorumPacket_data v) (QuorumPacket_authinfo v).
Definition set_QuorumPacket_zxid (x : Z) (v : QuorumPacket) : QuorumPacket :=
  mk_QuorumPacket (QuorumPacket_type v) x (QuorumPacket_data v) (QuorumPacket_authinfo v).
Definition set_QuorumPacket_data (x : buffer) (v : QuorumPacket) : QuorumPacket :=
  mk_QuorumPacket (QuorumPacket_type v) (QuorumPacket_zxid v) x (QuorumPacket_authinfo v).
Definition set_QuorumPacket_authinfo (x : vector Id) (v : QuorumPacket) : QuorumPacket :=
  mk_QuorumPacket (QuorumPacket_type v) (QuorumPacket_zxid v) (QuorumPacket_data v) x.

Record QuorumAuthPacket := mk_QuorumAuthPacket {
  QuorumAuthPacket_magic : Z;
  QuorumAuthPacket_status : Z;
  QuorumAuthPacket_token : buffer;
}.
Definition zero_QuorumAuthPacket : QuorumAuthPacket := mk_QuorumAuthPacket 0 0 (mk_buffer 0 None).
Definition set_QuorumAuthPacket_magic (x : Z) (v : QuorumAuthPacket) : QuorumAuthPacket :=
  mk_QuorumAuthPacket x (QuorumAuthPacket_status v) (QuorumAuthPacket_token v).
Definition set_QuorumAuthPacket_status (x : Z) (v : QuorumAuthPacket) : QuorumAuthPacket :=
  mk_QuorumAuthPacket (QuorumAuthPacket_magic v) x (QuorumAuthPacket_token v).
Definition set_QuorumAuthPacket_token (x : buffer) (v : QuorumAuthPacket) : QuorumAuthPacket :=
  mk_QuorumAuthPacket (QuorumAuthPacket_magic v) (QuorumAuthPacket_status v) x.

Record FileHeader := mk_FileHeader {
  FileHeader_magic : Z;
  FileHeader_version : Z;
  FileHeader_dbid : Z;
}.
Definition zero_FileHeader : FileHeader := mk_FileHeader 0 0 0.
Definition set_FileHeader_magic (x : Z) (v : FileHeader) : FileHeader :=
  mk_FileHeader x (FileHeader_version v) (FileHeader_dbid v).
Definition set_FileHeader_version (x : Z) (v : FileHeader) : FileHeader :=
  mk_FileHeader (FileHeader_magic v) x (FileHeader_dbid v).
Definition set_FileHeader_dbid (x : Z) (v : FileHeader) : FileHeader :=
  mk_FileHeader (FileHeader_magic v) (FileHeader_version v) x.

Record TxnHeader := mk_TxnHeader {
  TxnHeader_clientId : Z;
  TxnHeader_cxid : Z;
  TxnHeader_zxid : Z;
  TxnHeader_time : Z;
  TxnHeader_type : Z;
}.
Definition zero_TxnHeader : TxnHeader := mk_TxnHeader 0 0 0 0 0.
Definition set_TxnHeader_clientId (x : Z) (v : TxnHeader) : TxnHeader :=
  mk_TxnHeader x (TxnHeader_cxid v) (TxnHeader_zxid v) (TxnHeader_time v) (TxnHeader_type v).
Definition set_TxnHeader_cxid (x : Z) (v : TxnHeader) : TxnHeader :=
  mk_TxnHeader (TxnHeader_clientId v) x (TxnHeader_zxid v) (TxnHeader_time v) (TxnHeader_type v).
Definition set_TxnHeader_zxid (x : Z) (v : TxnHeader) : TxnHeader :=
  mk_TxnHeader (TxnHeader_clientId v) (TxnHeader_cxid v) x (TxnHeader_time v) (TxnHeader_type v).
Definition set_TxnHeader_time (x : Z) (v : TxnHeader) : TxnHeader :=
  mk_TxnHeader (TxnHeader_clientId v) (TxnHeader_cxid v) (TxnHeader_zxid v) x (TxnHeader_type v).
Definition set_TxnHeader_type (x : Z) (v : TxnHeader) : TxnHeader :=
  mk_TxnHeader (TxnHeader_clientId v) (TxnHeader_cxid v) (TxnHeader_zxid v) (TxnHeader_time v) x.

Record CreateTxnV0 := mk_CreateTxnV0 {
  CreateTxnV0_path : option cstring;
  CreateTxnV0_data : buffer;
  CreateTxnV0_acl : vector ACL;
  CreateTxnV0_ephemeral : Z;
}.
Definition zero_CreateTxnV0 : CreateTxnV0 := mk_CreateTxnV0 None (mk_buffer 0 None) zero_ACL_vector 0.
Definition set_CreateTxnV0_path (x : option cstring) (v : CreateTxnV0) : CreateTxnV0 :=
  mk_CreateTxnV0 x (CreateTxnV0_data v) (CreateTxnV0_acl v) (CreateTxnV0_ephemeral v).
Definition set_CreateTxnV0_data (x : buffer) (v : CreateTxnV0) : CreateTxnV0 :=
  mk_CreateTxnV0 (CreateTxnV0_path v) x (CreateTxnV0_acl v) (CreateTxnV0_ephemeral v).
Definition set_CreateTxnV0_acl (x : vector ACL) (v : CreateTxnV0) : CreateTxnV0 :=
  mk_CreateTxnV0 (CreateTxnV0_path v) (CreateTxnV0_data v) x (CreateTxnV0_ephemeral v).
Definition set_CreateTxnV0_ephemeral (x : Z) (v : CreateTxnV0) : CreateTxnV0 :=
  mk_CreateTxnV0 (CreateTxnV0_path v) (CreateTxnV0_data v) (CreateTxnV0_acl v) x.

Record CreateTxn := mk_CreateTxn {
  CreateTxn_path : option cstring;
  CreateTxn_data : buffer;
  CreateTxn_acl : vector ACL;
  CreateTxn_ephemeral : Z;
  CreateTxn_parentCVersion : Z;
}.
Definition zero_CreateTxn : CreateTxn := mk_CreateTxn None (mk_buffer 0 None) zero_ACL_vector 0 0.
Definition set_CreateTxn_path (x : option cstring) (v : CreateTxn) : CreateTxn :=
  mk_CreateTxn x (CreateTxn_data v) (CreateTxn_acl v) (CreateTxn_ephemeral v) (CreateTxn_parentCVersion v).
Definition set_CreateTxn_data (x : buffer) (v : CreateTxn) : CreateTxn :=
  mk_CreateTxn (CreateTxn_path v) x (CreateTxn_acl v) (CreateTxn_ephemeral v) (CreateTxn_parentCVersion v).
Definition set_CreateTxn_acl (x : vector ACL) (v : CreateTxn) : CreateTxn :=
  mk_CreateTxn (CreateTxn_path v) (CreateTxn_data v) x (CreateTxn_ephemeral v) (CreateTxn_parentCVersion v).
Definition set_CreateTxn_ephemeral (x : Z) (v : CreateTxn) : CreateTxn :=
  mk_CreateTxn (CreateTxn_path v) (CreateTxn_data v) (CreateTxn_acl v) x (CreateTxn_parentCVersion v).
Definition set_CreateTxn_parentCVersion (x : Z) (v : CreateTxn) : CreateTxn :=
  mk_CreateTxn (CreateTxn_path v) (CreateTxn_data v) (CreateTxn_acl v) (CreateTxn_ephemeral v) x.

Record CreateTTLTxn := mk_CreateTTLTxn {
  CreateTTLTxn_path : option cstring;
  CreateTTLTxn_data : buffer;
  CreateTTLTxn_acl : vector ACL;
  CreateTTLTxn_parentCVersion : Z;
  CreateTTLTxn_ttl : Z;
}.
Definition zero_CreateTTLTxn : CreateTTLTxn := mk_CreateTTLTxn None (mk_buffer 0 None) zero_ACL_vector 0 0.
Definition set_CreateTTLTxn_path (x : option cstring) (v : CreateTTLTxn) : CreateTTLTxn :=
  mk_CreateTTLTxn x (CreateTTLTxn_data v) (CreateTTLTxn_acl v) (CreateTTLTxn_parentCVersion v) (CreateTTLTxn_ttl v).
Definition set_CreateTTLTxn_data (x : buffer) (v : CreateTTLTxn) : CreateTTLTxn :=
  mk_CreateTTLTxn (CreateTTLTxn_path v) x (CreateTTLTxn_acl v) (CreateTTLTxn_parentCVersion v) (CreateTTLTxn_ttl v).
Definition set_CreateTTLTxn_acl (x : vector ACL) (v : CreateTTLTxn) : CreateTTLTxn :=
  mk_CreateTTLTxn (CreateTTLTxn_path v) (CreateTTLTxn_data v) x (CreateTTLTxn_parentCVersion v) (CreateTTLTxn_ttl v).
Definition set_CreateTTLTxn_parentCVersion (x : Z) (v : CreateTTLTxn) : CreateTTLTxn :=
  mk_CreateTTLTxn (CreateTTLTxn_path v) (CreateTTLTxn_data v) (CreateTTLTxn_acl v) x (CreateTTLTxn_ttl v).
Definition set_CreateTTLTxn_ttl (x : Z) (v : CreateTTLTxn) : CreateTTLTxn :=
  mk_CreateTTLTxn (CreateTTLTxn_path v) (CreateTTLTxn_data v) (CreateTTLTxn_acl v) (CreateTTLTxn_parentCVersion v) x.

Record CreateContainerTxn := mk_CreateContainerTxn {
  CreateContainerTxn_path : option cstring;
  CreateContainerTxn_data : buffer;
  CreateContainerTxn_acl : vector ACL;
  CreateContainerTxn_parentCVersion : Z;
}.
Definition zero_CreateContainerTxn : CreateContainerTxn := mk_CreateContainerTxn None (mk_buffer 0 None) zero_ACL_vector 0.
Definition set_CreateContainerTxn_path (x : option cstring) (v : CreateContainerTxn) : CreateContainerTxn :=
  mk_CreateContainerTxn x (CreateContainerTxn_data v) (CreateContainerTxn_acl v) (CreateContainerTxn_parentCVersion v).
Definition set_CreateContainerTxn_data (x : buffer) (v : CreateContainerTxn) : CreateContainerTxn :=
  mk_CreateContainerTxn (CreateContainerTxn_path v) x (CreateContainerTxn_acl v) (CreateContainerTxn_parentCVersion v).
Definition set_CreateContainerTxn_acl (x : vector ACL) (v : CreateContainerTxn) : CreateContainerTxn :=
  mk_CreateContainerTxn (CreateContainerTxn_path v) (CreateContainerTxn_data v) x (CreateContainerTxn_parentCVersion v).
Definition set_CreateContainerTxn_parentCVersion (x : Z) (v : CreateContainerTxn) : CreateContainerTxn :=
  mk_CreateContainerTxn (CreateContainerTxn_path v) (CreateContainerTxn_data v) (CreateContainerTxn_acl v) x.

Record DeleteTxn := mk_DeleteTxn {
  DeleteTxn_path : option cstring;
}.
Definition zero_DeleteTxn : DeleteTxn := mk_DeleteTxn None.
Definition set_DeleteTxn_path (x : option cstring) (v : DeleteTxn) : DeleteTxn :=
  mk_DeleteTxn x.

Record SetDataTxn := mk_SetDataTxn {
  SetDataTxn_path : option cstring;
  SetDataTxn_data : buffer;
  SetDataTxn_version : Z;
}.
Definition zero_SetDataTxn : SetDataTxn := mk_SetDataTxn None (mk_buffer 0 None) 0.
Definition set_SetDataTxn_path (x : option cstring) (v : SetDataTxn) : SetDataTxn :=
  mk_SetDataTxn x (SetDataTxn_data v) (SetDataTxn_version v).
Definition set_SetDataTxn_data (x : buffer) (v : SetDataTxn) : SetDataTxn :=
  mk_SetDataTxn (SetDataTxn_path v) x (SetDataTxn_version v).
Definition set_SetDataTxn_version (x : Z) (v : SetDataTxn) : SetDataTxn :=
  mk_SetDataTxn (SetDataTxn_path v) (SetDataTxn_data v) x.

Record CheckVersionTxn := mk_CheckVersionTxn {
  CheckVersionTxn_path : option cstring;
  CheckVersionTxn_version : Z;
}.
Definition zero_CheckVersionTxn : CheckVersionTxn := mk_CheckVersionTxn None 0.
Definition set_CheckVersionTxn_path (x : option cstring) (v : CheckVersionTxn) : CheckVersionTxn :=
  mk_CheckVersionTxn x (CheckVersionTxn_version v).
Definition set_CheckVersionTxn_version (x : Z) (v : CheckVersionTxn) : CheckVersionTxn :=
  mk_CheckVersionTxn (CheckVersionTxn_path v) x.

Record SetACLTxn := mk_SetACLTxn {
  SetACLTxn_path : option cstring;
  SetACLTxn_acl : vector ACL;
  SetACLTxn_version : Z;
}.
Definition zero_SetACLTxn : SetACLTxn := mk_SetACLTxn None zero_ACL_vector 0.
Definition set_SetACLTxn_path (x : option cstring) (v : SetACLTxn) : SetACLTxn :=
  mk_SetACLTxn x (SetACLTxn_acl v) (SetACLTxn_version v).
Definition set_SetACLTxn_acl (x : vector ACL) (v : SetACLTxn) : SetACLTxn :=
  mk_SetACLTxn (SetACLTxn_path v) x (SetACLTxn_version v).
Definition set_SetACLTxn_version (x : Z) (v : SetACLTxn) : SetACLTxn :=
  mk_SetACLTxn (SetACLTxn_path v) (SetACLTxn_acl v) x.

Record SetMaxChildrenTxn := mk_SetMaxChildrenTxn {
  SetMaxChildrenTxn_path : option cstring;
  SetMaxChildrenTxn_max : Z;
}.
Definition zero_SetMaxChildrenTxn : SetMaxChildrenTxn := mk_SetMaxChildrenTxn None 0.
Definition set_SetMaxChildrenTxn_path (x : option cstring) (v : SetMaxChildrenTxn) : SetMaxChildrenTxn :=
  mk_SetMaxChildrenTxn x (SetMaxChildrenTxn_max v).
Definition set_SetMaxChildrenTxn_max (x : Z) (v : SetMaxChildrenTxn) : SetMaxChildrenTxn :=
  mk_SetMaxChildrenTxn (SetMaxChildrenTxn_path v) x.

Record CreateSessionTxn := mk_CreateSessionTxn {
  CreateSessionTxn_timeOut : Z;
}.
Definition zero_CreateSessionTxn : CreateSessionTxn := mk_CreateSessionTxn 0.
Definition set_CreateSessionTxn_timeOut (x : Z) (v : CreateSessionTxn) : CreateSessionTxn :=
  mk_CreateSessionTxn x.

Record ErrorTxn := mk_ErrorTxn {
  ErrorTxn_err : Z;
}.
Definition zero_ErrorTxn : ErrorTxn := mk_ErrorTxn 0.
Definition set_ErrorTxn_err (x : Z) (v : ErrorTxn) : ErrorTxn :=
  mk_ErrorTxn x.

Record Txn := mk_Txn {
  Txn_type : Z;
  Txn_data : buffer;
}.
Definition zero_Txn : Txn := mk_Txn 0 (mk_buffer 0 None).
Definition set_Txn_type (x : Z) (v : Txn) : Txn :=
  mk_Txn x (Txn_data v).
Definition set_Txn_data (x : buffer) (v : Txn) : Txn :=
  mk_Txn (Txn_type v) x.

Record MultiTxn := mk_MultiTxn {
  MultiTxn_txns : vector Txn;
}.
Definition zero_MultiTxn : MultiTxn := mk_MultiTxn zero_Txn_vector.
Definition set_MultiTxn_txns (x : vector Txn) (v : MultiTxn) : MultiTxn :=
  mk_MultiTxn x.

(** ** Serialization *)
Section serialize.
Context {S : Type} `{OArchive S}.

Definition serialize_Id (v : Id) : S → outcome (Z * S) :=
  (oa_start_record_fn ;?
   serialize_String (Id_scheme v) ;?
   serialize_String (Id_id v) ;?
   oa_end_record_fn)%rec.

Definition serialize_ACL (v : ACL) : S → outcome (Z * S) :=
  (oa_start_record_fn ;?
   serialize_Int (ACL_perms v) ;?
   serialize_Id (ACL_id v) ;?
   oa_end_record_fn)%rec.

Definition serialize_Stat (v : Stat) : S → outcome (Z * S) :=
  (oa_start_record_fn ;?
   serialize_Long (Stat_czxid v) ;?
   serialize_Long (Stat_mzxid v) ;?
   serialize_Long (Stat_ctime v) ;?
   serialize_Long (Stat_mtime v) ;?
   serialize_Int (Stat_version v) ;?
   serialize_Int (Stat_cversion v) ;?
   serialize_Int (Stat_aversion v) ;?
   serialize_Long (Stat_ephemeralOwner v) ;?
   serialize_Int (Stat_dataLength v) ;?
   serialize_Int (Stat_numChildren v) ;?
   serialize_Long (Stat_pzxid v) ;?
   oa_end_record_fn)%rec.

Definition serialize_StatPersisted (v : StatPersisted) : S → outcome (Z * S) :=
  (oa_start_record_fn ;?
   serialize_Long (StatPersisted_czxid v) ;?
   serialize_Long (StatPersisted_mzxid v) ;?
   serialize_Long (StatPersisted_ctime v) ;?
   serialize_Long (StatPersisted_mtime v) ;?
   serialize_Int (StatPersisted_version v) ;?
   serialize_Int (StatPersisted_cversion v) ;?
   serialize_Int (StatPersisted_aversion v) ;?
   serialize_Long (StatPersisted_ephemeralOwner v) ;?
   serialize_Long (StatPersisted_pzxid v) ;?
   oa_end_record_fn)%rec.

Definition serialize_ConnectRequest (v : ConnectRequest) : S → outcome (Z * S) :=
  (oa_start_record_fn ;?
   serialize_Int (ConnectRequest_protocolVersion v) ;?
   serialize_Long (ConnectRequest_lastZxidSeen v) ;?
   serialize_Int (ConnectRequest_timeOut v) ;?
   serialize_Long (ConnectRequest_sessionId v) ;?
   serialize_Buffer (Some (ConnectRequest_passwd v)) ;?
   oa_end_record_fn)%rec.

Definition serialize_ConnectResponse (v : ConnectResponse) : S → outcome (Z * S) :=
  (oa_start_record_fn ;?
   serialize_Int (ConnectResponse_protocolVersion v) ;?
   serialize_Int (ConnectResponse_timeOut v) ;?
   serialize_Long (ConnectResponse_sessionId v) ;?
   serialize_Buffer (Some (ConnectResponse_passwd v)) ;?
   oa_end_record_fn)%rec.

Definition serialize_String_vector (v : vector (option cstring)) : S → outcome (Z * S) :=
  serialize_vector serialize_String v.

Definition serialize_SetWatches (v : SetWatches) : S → outcome (Z * S) :=
  (oa_start_record_fn ;?
   serialize_Long (SetWatches_relativeZxid v) ;?
   serialize_String_vector (SetWatches_dataWatches v) ;?
   serialize_String_vector (SetWatches_existWatches v) ;?
   serialize_String_vector (SetWatches_childWatches v) ;?
   oa_end_record_fn)%rec.

Definition serialize_RequestHeader (v : RequestHeader) : S → outcome (Z * S) :=
  (oa_start_record_fn ;?
   serialize_Int (RequestHeader_xid v) ;?
   serialize_Int (RequestHeader_type v) ;?
   oa_end_record_fn)%rec.

Definition serialize_MultiHeader (v : MultiHeader) : S → outcome (Z * S) :=
  (oa_start_record_fn ;?
   serialize_Int (MultiHeader_type v) ;?
   serialize_Bool (MultiHeader_done v) ;?
   serialize_Int (MultiHeader_err v) ;?
   oa_end_record_fn)%rec.

Definition serialize_AuthPacket (v : AuthPacket) : S → outcome (Z * S) :=
  (oa_start_record_fn ;?
   serialize_Int (AuthPacket_type v) ;?
   serialize_String (AuthPacket_scheme v) ;?
   serialize_Buffer (Some (AuthPacket_auth v)) ;?
   oa_end_record_fn)%rec.

Definition serialize_ReplyHeader (v : ReplyHeader) : S → outcome (Z * S) :=
  (oa_start_record_fn ;?
   serialize_Int (ReplyHeader_xid v) ;?
   serialize_Long (ReplyHeader_zxid v) ;?
   serialize_Int (ReplyHeader_err v) ;?
   oa_end_record_fn)%rec.

Definition serialize_GetDataRequest (v : GetDataRequest) : S → outcome (Z * S) :=
  (oa_start_record_fn ;?
   serialize_String (GetDataRequest_path v) ;?
   serialize_Bool (GetDataRequest_watch v) ;?
   oa_end_record_fn)%rec.

Definition serialize_SetDataRequest (v : SetDataRequest) : S → outcome (Z * S) :=
  (oa_start_record_fn ;?
   serialize_String (SetDataRequest_path v) ;?
   serialize_Buffer (Some (SetDataRequest_data v)) ;?
   serialize_Int (SetDataRequest_version v) ;?
   oa_end_record_fn)%rec.

Definition serialize_ReconfigRequest (v : ReconfigRequest) : S → outcome (Z * S) :=
  (oa_start_record_fn ;?
   serialize_String (ReconfigRequest_joiningServers v) ;?
   serialize_String (ReconfigRequest_leavingServers v) ;?
   serialize_String (ReconfigRequest_newMembers v) ;?
   serialize_Long (ReconfigRequest_curConfigId v) ;?
   oa_end_record_fn)%rec.

Definition serialize_SetDataResponse (v : SetDataResponse) : S → outcome (Z * S) :=
  (oa_start_record_fn ;?
   serialize_Stat (SetDataResponse_stat v) ;?
   oa_end_record_fn)%rec.

Definition serialize_GetSASLRequest (v : GetSASLRequest) : S → outcome (Z * S) :=
  (oa_start_record_fn ;?
   serialize_Buffer (Some (GetSASLRequest_token v)) ;?
   oa_end_record_fn)%rec.

Definition serialize_SetSASLRequest (v : SetSASLRequest) : S → outcome (Z * S) :=
  (oa_start_record_fn ;?
   serialize_Buffer (Some (SetSASLRequest_token v)) ;?
   oa_end_record_fn)%rec.

Definition serialize_SetSASLResponse (v : SetSASLResponse) : S → outcome (Z * S) :=
  (oa_start_record_fn ;?
   serialize_Buffer (Some (SetSASLResponse_token v)) ;?
   oa_end_record_fn)%rec.

Definition serialize_ACL_vector (v : vector ACL) : S → outcome (Z * S) :=
  serialize_vector serialize_ACL v.

Definition serialize_CreateRequest (v : CreateRequest) : S → outcome (Z * S) :=
  (oa_start_record_fn ;?
   serialize_String (CreateRequest_path v) ;?
   serialize_Buffer (Some (CreateRequest_data v)) ;?
   serialize_ACL_vector (CreateRequest_acl v) ;?
   serialize_Int (CreateRequest_flags v) ;?
   oa_end_record_fn)%rec.

Definition serialize_CreateTTLRequest (v : CreateTTLRequest) : S → outcome (Z * S) :=
  (oa_start_record_fn ;?
   serialize_String (CreateTTLRequest_path v) ;?
   serialize_Buffer (Some (CreateTTLRequest_data v)) ;?
   serialize_ACL_vector (CreateTTLRequest_acl v) ;?
   serialize_Int (CreateTTLRequest_flags v) ;?
   serialize_Long (CreateTTLRequest_ttl v) ;?
   oa_end_record_fn)%rec.

Definition serialize_DeleteRequest (v : DeleteRequest) : S → outcome (Z * S) :=
  (oa_start_record_fn ;?
   serialize_String (DeleteRequest_path v) ;?
   serialize_Int (DeleteRequest_version v) ;?
   oa_end_record_fn)%rec.

Definition serialize_GetChildrenRequest (v : GetChildrenRequest) : S → outcome (Z * S) :=
  (oa_start_record_fn ;?
   serialize_String (GetChildrenRequest_path v) ;?
   serialize_Bool (GetChildrenRequest_watch v) ;?
   oa_end_record_fn)%rec.

Definition serialize_GetChildren2Request (v : GetChildren2Request) : S → outcome (Z * S) :=
  (oa_start_record_fn ;?
   serialize_String (GetChildren2Request_path v) ;?
   serialize_Bool (GetChildren2Request_watch v) ;?
   oa_end_record_fn)%rec.

Definition serialize_CheckVersionRequest (v : CheckVersionRequest) : S → outcome (Z * S) :=
  (oa_start_record_fn ;?
   serialize_String (CheckVersionRequest_path v) ;?
   serialize_Int (CheckVersionRequest_version v) ;?
   oa_end_record_fn)%rec.

Definition serialize_GetMaxChildrenRequest (v : GetMaxChildrenRequest) : S → outcome (Z * S) :=
  (oa_start_record_fn ;?
   serialize_String (GetMaxChildrenRequest_path v) ;?
   oa_end_record_fn)%rec.

Definition serialize_GetMaxChildrenResponse (v : GetMaxChildrenResponse) : S → outcome (Z * S) :=
  (oa_start_record_fn ;?
   serialize_Int (GetMaxChildrenResponse_max v) ;?
   oa_end_record_fn)%rec.

Definition serialize_SetMaxChildrenRequest (v : SetMaxChildrenRequest) : S → outcome (Z * S) :=
  (oa_start_record_fn ;?
   serialize_String (SetMaxChildrenRequest_path v) ;?
   serialize_Int (SetMaxChildrenRequest_max v) ;?
   oa_end_record_fn)%rec.

Definition serialize_SyncRequest (v : SyncRequest) : S → outcome (Z * S) :=
  (oa_start_record_fn ;?
   serialize_String (SyncRequest_path v) ;?
   oa_end_record_fn)%rec.

Definition serialize_SyncResponse (v : SyncResponse) : S → outcome (Z * S) :=
  (oa_start_record_fn ;?
   serialize_String (SyncResponse_path v) ;?
   oa_end_record_fn)%rec.

Definition serialize_GetACLRequest (v : GetACLRequest) : S → outcome (Z * S) :=
  (oa_start_record_fn ;?
   serialize_String (GetACLRequest_path v) ;?
   oa_end_record_fn)%rec.

Definition serialize_SetACLRequest (v : SetACLRequest) : S → outcome (Z * S) :=
  (oa_start_record_fn ;?
   serialize_String (SetACLRequest_path v) ;?
   serialize_ACL_vector (SetACLRequest_acl v) ;?
   serialize_Int (SetACLRequest_version v) ;?
   oa_end_record_fn)%rec.

Definition serialize_SetACLResponse (v : SetACLResponse) : S → outcome (Z * S) :=
  (oa_start_record_fn ;?
   serialize_Stat (SetACLResponse_stat v) ;?
   oa_end_record_fn)%rec.

Definition serialize_WatcherEvent (v : WatcherEvent) : S → outcome (Z * S) :=
  (oa_start_record_fn ;?
   serialize_Int (WatcherEvent_type v) ;?
   serialize_Int (WatcherEvent_state v) ;?
   serialize_String (WatcherEvent_path v) ;?
   oa_end_record_fn)%rec.

Definition serialize_ErrorResponse (v : ErrorResponse) : S → outcome (Z * S) :=
  (oa_start_record_fn ;?
   serialize_Int (ErrorResponse_err v) ;?
   oa_end_record_fn)%rec.

Definition serialize_CreateResponse (v : CreateResponse) : S → outcome (Z * S) :=
  (oa_start_record_fn ;?
   serialize_String (CreateResponse_path v) ;?
   oa_end_record_fn)%rec.

Definition serialize_Create2Response (v : Create2Response) : S → outcome (Z * S) :=
  (oa_start_record_fn ;?
   serialize_String (Create2Response_path v) ;?
   serialize_Stat (Create2Response_stat v) ;?
   oa_end_record_fn)%rec.

Definition serialize_ExistsRequest (v : ExistsRequest) : S → outcome (Z * S) :=
  (oa_start_record_fn ;?
   serialize_String (ExistsRequest_path v) ;?
   serialize_Bool (ExistsRequest_watch v) ;?
   oa_end_record_fn)%rec.

Definition serialize_ExistsResponse (v : ExistsResponse) : S → outcome (Z * S) :=
  (oa_start_record_fn ;?
   serialize_Stat (ExistsResponse_stat v) ;?
   oa_end_record_fn)%rec.

Definition serialize_GetDataResponse (v : GetDataResponse) : S → outcome (Z * S) :=
  (oa_start_record_fn ;?
   serialize_Buffer (Some (GetDataResponse_data v)) ;?
   serialize_Stat (GetDataResponse_stat v) ;?
   oa_end_record_fn)%rec.

Definition serialize_GetChildrenResponse (v : GetChildrenResponse) : S → outcome (Z * S) :=
  (oa_start_record_fn ;?
   serialize_String_vector (GetChildrenResponse_children v) ;?
   oa_end_record_fn)%rec.

Definition serialize_GetChildren2Response (v : GetChildren2Response) : S → outcome (Z * S) :=
  (oa_start_record_fn ;?
   serialize_String_vector (GetChildren2Response_children v) ;?
   serialize_Stat (GetChildren2Response_stat v) ;?
   oa_end_record_fn)%rec.

Definition serialize_GetACLResponse (v : GetACLResponse) : S → outcome (Z * S) :=
  (oa_start_record_fn ;?
   serialize_ACL_vector (GetACLResponse_acl v) ;?
   serialize_Stat (GetACLResponse_stat v) ;?
   oa_end_record_fn)%rec.

Definition serialize_CheckWatchesRequest (v : CheckWatchesRequest) : S → outcome (Z * S) :=
  (oa_start_record_fn ;?
   serialize_String (CheckWatchesRequest_path v) ;?
   serialize_Int (CheckWatchesRequest_type v) ;?
   oa_end_record_fn)%rec.

Definition serialize_RemoveWatchesRequest (v : RemoveWatchesRequest) : S → outcome (Z * S) :=
  (oa_start_record_fn ;?
   serialize_String (RemoveWatchesRequest_path v) ;?
   serialize_Int (RemoveWatchesRequest_type v) ;?
   oa_end_record_fn)%rec.

Definition serialize_LearnerInfo (v : LearnerInfo) : S → outcome (Z * S) :=
  (oa_start_record_fn ;?
   serialize_Long (LearnerInfo_serverid v) ;?
   serialize_Int (LearnerInfo_protocolVersion v) ;?
   serialize_Long (LearnerInfo_configVersion v) ;?
   oa_end_record_fn)%rec.

Definition serialize_Id_vector (v : vector Id) : S → outcome (Z * S) :=
  serialize_vector serialize_Id v.

Definition serialize_QuorumPacket (v : QuorumPacket) : S → outcome (Z * S) :=
  (oa_start_record_fn ;?
   serialize_Int (QuorumPacket_type v) ;?
   serialize_Long (QuorumPacket_zxid v) ;?
   serialize_Buffer (Some (QuorumPacket_data v)) ;?
   serialize_Id_vector (QuorumPacket_authinfo v) ;?
   oa_end_record_fn)%rec.

Definition serialize_QuorumAuthPacket (v : QuorumAuthPacket) : S → outcome (Z * S) :=
  (oa_start_record_fn ;?
   serialize_Long (QuorumAuthPacket_magic v) ;?
   serialize_Int (QuorumAuthPacket_status v) ;?
   serialize_Buffer (Some (QuorumAuthPacket_token v)) ;?
   oa_end_record_fn)%rec.

Definition serialize_FileHeader (v : FileHeader) : S → outcome (Z * S) :=
  (oa_start_record_fn ;?
   serialize_Int (FileHeader_magic v) ;?
   serialize_Int (FileHeader_version v) ;?
   serialize_Long (FileHeader_dbid v) ;?
   oa_end_record_fn)%rec.

Definition serialize_TxnHeader (v : TxnHeader) : S → outcome (Z * S) :=
  (oa_start_record_fn ;?
   serialize_Long (TxnHeader_clientId v) ;?
   serialize_Int (TxnHeader_cxid v) ;?
   serialize_Long (TxnHeader_zxid v) ;?
   serialize_Long (TxnHeader_time v) ;?
   serialize_Int (TxnHeader_type v) ;?
   oa_end_record_fn)%rec.

Definition serialize_CreateTxnV0 (v : CreateTxnV0) : S → outcome (Z * S) :=
  (oa_start_record_fn ;?
   serialize_String (CreateTxnV0_path v) ;?
   serialize_Buffer (Some (CreateTxnV0_data v)) ;?
   serialize_ACL_vector (CreateTxnV0_acl v) ;?
   serialize_Bool (CreateTxnV0_ephemeral v) ;?
   oa_end_record_fn)%rec.

Definition serialize_CreateTxn (v : CreateTxn) : S → outcome (Z * S) :=
  (oa_start_record_fn ;?
   serialize_String (CreateTxn_path v) ;?
   serialize_Buffer (Some (CreateTxn_data v)) ;?
   serialize_ACL_vector (CreateTxn_acl v) ;?
   serialize_Bool (CreateTxn_ephemeral v) ;?
   serialize_Int (CreateTxn_parentCVersion v) ;?
   oa_end_record_fn)%rec.

Definition serialize_CreateTTLTxn (v : CreateTTLTxn) : S → outcome (Z * S) :=
  (oa_start_record_fn ;?
   serialize_String (CreateTTLTxn_path v) ;?
   serialize_Buffer (Some (CreateTTLTxn_data v)) ;?
   serialize_ACL_vector (CreateTTLTxn_acl v) ;?
   serialize_Int (CreateTTLTxn_parentCVersion v) ;?
   serialize_Long (CreateTTLTxn_ttl v) ;?
   oa_end_record_fn)%rec.

Definition serialize_CreateContainerTxn (v : CreateContainerTxn) : S → outcome (Z * S) :=
  (oa_start_record_fn ;?
   serialize_String (CreateContainerTxn_path v) ;?
   serialize_Buffer (Some (CreateContainerTxn_data v)) ;?
   serialize_ACL_vector (CreateContainerTxn_acl v) ;?
   serialize_Int (CreateContainerTxn_parentCVersion v) ;?
   oa_end_record_fn)%rec.

Definition serialize_DeleteTxn (v : DeleteTxn) : S → outcome (Z * S) :=
  (oa_start_record_fn ;?
   serialize_String (DeleteTxn_path v) ;?
   oa_end_record_fn)%rec.

Definition serialize_SetDataTxn (v : SetDataTxn) : S → outcome (Z * S) :=
  (oa_start_record_fn ;?
   serialize_String (SetDataTxn_path v) ;?
   serialize_Buffer (Some (SetDataTxn_data v)) ;?
   serialize_Int (SetDataTxn_version v) ;?
   oa_end_record_fn)%rec.

Definition serialize_CheckVersionTxn (v : CheckVersionTxn) : S → outcome (Z * S) :=
  (oa_start_record_fn ;?
   serialize_String (CheckVersionTxn_path v) ;?
   serialize_Int (CheckVersionTxn_version v) ;?
   oa_end_record_fn)%rec.

Definition serialize_SetACLTxn (v : SetACLTxn) : S → outcome (Z * S) :=
  (oa_start_record_fn ;?
   serialize_String (SetACLTxn_path v) ;?
   serialize_ACL_vector (SetACLTxn_acl v) ;?
   serialize_Int (SetACLTxn_version v) ;?
   oa_end_record_fn)%rec.

Definition serialize_SetMaxChildrenTxn (v : SetMaxChildrenTxn) : S → outcome (Z * S) :=
  (oa_start_record_fn ;?
   serialize_String (SetMaxChildrenTxn_path v) ;?
   serialize_Int (SetMaxChildrenTxn_max v) ;?
   oa_end_record_fn)%rec.

Definition serialize_CreateSessionTxn (v : CreateSessionTxn) : S → outcome (Z * S) :=
  (oa_start_record_fn ;?
   serialize_Int (CreateSessionTxn_timeOut v) ;?
   oa_end_record_fn)%rec.

Definition serialize_ErrorTxn (v : ErrorTxn) : S → outcome (Z * S) :=
  (oa_start_record_fn ;?
   serialize_Int (ErrorTxn_err v) ;?
   oa_end_record_fn)%rec.

Definition serialize_Txn (v : Txn) : S → outcome (Z * S) :=
  (oa_start_record_fn ;?
   serialize_Int (Txn_type v) ;?
   serialize_Buffer (Some (Txn_data v)) ;?
   oa_end_record_fn)%rec.

Definition serialize_Txn_vector (v : vector Txn) : S → outcome (Z * S) :=
  serialize_vector serialize_Txn v.

Definition serialize_MultiTxn (v : MultiTxn) : S → outcome (Z * S) :=
  (oa_start_record_fn ;?
   serialize_Txn_vector (MultiTxn_txns v) ;?
   oa_end_record_fn)%rec.
End serialize.

(** ** Deserialization *)
Section deserialize.
Context {S : Type} `{IArchive S} `{Heap S}.

Definition deserialize_Id : deser S Id :=
  (on_archive ia_start_record_fn ;!
   on_field Id_scheme set_Id_scheme deserialize_String ;!
   on_field Id_id set_Id_id deserialize_String ;!
   on_archive ia_end_record_fn)%rec.

Definition deserialize_ACL : deser S ACL :=
  (on_archive ia_start_record_fn ;!
   on_field ACL_perms set_ACL_perms deserialize_Int ;!
   on_field ACL_id set_ACL_id deserialize_Id ;!
   on_archive ia_end_record_fn)%rec.

Definition deserialize_Stat : deser S Stat :=
  (on_archive ia_start_record_fn ;!
   on_field Stat_czxid set_Stat_czxid deserialize_Long ;!
   on_field Stat_mzxid set_Stat_mzxid deserialize_Long ;!
   on_field Stat_ctime set_Stat_ctime deserialize_Long ;!
   on_field Stat_mtime set_Stat_mtime deserialize_Long ;!
   on_field Stat_version set_Stat_version deserialize_Int ;!
   on_field Stat_cversion set_Stat_cversion deserialize_Int ;!
   on_field Stat_aversion set_Stat_aversion deserialize_Int ;!
   on_field Stat_ephemeralOwner set_Stat_ephemeralOwner deserialize_Long ;!
   on_field Stat_dataLength set_Stat_dataLength deserialize_Int ;!
   on_field Stat_numChildren set_Stat_numChildren deserialize_Int ;!
   on_field Stat_pzxid set_Stat_pzxid deserialize_Long ;!
   on_archive ia_end_record_fn)%rec.

Definition deserialize_StatPersisted : deser S StatPersisted :=
  (on_archive ia_start_record_fn ;!
   on_field StatPersisted_czxid set_StatPersisted_czxid deserialize_Long ;!
   on_field StatPersisted_mzxid set_StatPersisted_mzxid deserialize_Long ;!
   on_field StatPersisted_ctime set_StatPersisted_ctime deserialize_Long ;!
   on_field StatPersisted_mtime set_StatPersisted_mtime deserialize_Long ;!
   on_field StatPersisted_version set_StatPersisted_version deserialize_Int ;!
   on_field StatPersisted_cversion set_StatPersisted_cversion deserialize_Int ;!
   on_field StatPersisted_aversion set_StatPersisted_aversion deserialize_Int ;!
   on_field StatPersisted_ephemeralOwner set_StatPersisted_ephemeralOwner deserialize_Long ;!
   on_field StatPersisted_pzxid set_StatPersisted_pzxid deserialize_Long ;!
   on_archive ia_end_record_fn)%rec.

Definition deserialize_ConnectRequest : deser S ConnectRequest :=
  (on_archive ia_start_record_fn ;!
   on_field ConnectRequest_protocolVersion set_ConnectRequest_protocolVersion deserialize_Int ;!
   on_field ConnectRequest_lastZxidSeen set_ConnectRequest_lastZxidSeen deserialize_Long ;!
   on_field ConnectRequest_timeOut set_ConnectRequest_timeOut deserialize_Int ;!
   on_field ConnectRequest_sessionId set_ConnectRequest_sessionId deserialize_Long ;!
   on_field ConnectRequest_passwd set_ConnectRequest_passwd deserialize_Buffer ;!
   on_archive ia_end_record_fn)%rec.

Definition deserialize_ConnectResponse : deser S ConnectResponse :=
  (on_archive ia_start_record_fn ;!
   on_field ConnectResponse_protocolVersion set_ConnectResponse_protocolVersion deserialize_Int ;!
   on_field ConnectResponse_timeOut set_ConnectResponse_timeOut deserialize_Int ;!
   on_field ConnectResponse_sessionId set_ConnectResponse_sessionId deserialize_Long ;!
   on_field ConnectResponse_passwd set_ConnectResponse_passwd deserialize_Buffer ;!
   on_archive ia_end_record_fn)%rec.

Definition deserialize_String_vector : deser S (vector (option cstring)) :=
  deserialize_vector 8 None deserialize_String.

Definition deserialize_SetWatches : deser S SetWatches :=
  (on_archive ia_start_record_fn ;!
   on_field SetWatches_relativeZxid set_SetWatches_relativeZxid deserialize_Long ;!
   on_field SetWatches_dataWatches set_SetWatches_dataWatches deserialize_String_vector ;!
   on_field SetWatches_existWatches set_SetWatches_existWatches deserialize_String_vector ;!
   on_field SetWatches_childWatches set_SetWatches_childWatches deserialize_String_vector ;!
   on_archive ia_end_record_fn)%rec.

Definition deserialize_RequestHeader : deser S RequestHeader :=
  (on_archive ia_start_record_fn ;!
   on_field RequestHeader_xid set_RequestHeader_xid deserialize_Int ;!
   on_field RequestHeader_type set_RequestHeader_type deserialize_Int ;!
   on_archive ia_end_record_fn)%rec.

Definition deserialize_MultiHeader : deser S MultiHeader :=
  (on_archive ia_start_record_fn ;!
   on_field MultiHeader_type set_MultiHeader_type deserialize_Int ;!
   on_field MultiHeader_done set_MultiHeader_done deserialize_Bool ;!
   on_field MultiHeader_err set_MultiHeader_err deserialize_Int ;!
   on_archive ia_end_record_fn)%rec.

Definition deserialize_AuthPacket : deser S AuthPacket :=
  (on_archive ia_start_record_fn ;!
   on_field AuthPacket_type set_AuthPacket_type deserialize_Int ;!
   on_field AuthPacket_scheme set_AuthPacket_scheme deserialize_String ;!
   on_field AuthPacket_auth set_AuthPacket_auth deserialize_Buffer ;!
   on_archive ia_end_record_fn)%rec.

Definition deserialize_ReplyHeader : deser S ReplyHeader :=
  (on_archive ia_start_record_fn ;!
   on_field ReplyHeader_xid set_ReplyHeader_xid deserialize_Int ;!
   on_field ReplyHeader_zxid set_ReplyHeader_zxid deserialize_Long ;!
   on_field ReplyHeader_err set_ReplyHeader_err deserialize_Int ;!
   on_archive ia_end_record_fn)%rec.

Definition deserialize_GetDataRequest : deser S GetDataRequest :=
  (on_archive ia_start_record_fn ;!
   on_field GetDataRequest_path set_GetDataRequest_path deserialize_String ;!
   on_field GetDataRequest_watch set_GetDataRequest_watch deserialize_Bool ;!
   on_archive ia_end_record_fn)%rec.

Definition deserialize_SetDataRequest : deser S SetDataRequest :=
  (on_archive ia_start_record_fn ;!
   on_field SetDataRequest_path set_SetDataRequest_path deserialize_String ;!
   on_field SetDataRequest_data set_SetDataRequest_data deserialize_Buffer ;!
   on_field SetDataRequest_version set_SetDataRequest_version deserialize_Int ;!
   on_archive ia_end_record_fn)%rec.

Definition deserialize_ReconfigRequest : deser S ReconfigRequest :=
  (on_archive ia_start_record_fn ;!
   on_field ReconfigRequest_joiningServers set_ReconfigRequest_joiningServers deserialize_String ;!
   on_field ReconfigRequest_leavingServers set_ReconfigRequest_leavingServers deserialize_String ;!
   on_field ReconfigRequest_newMembers set_ReconfigRequest_newMembers deserialize_String ;!
   on_field ReconfigRequest_curConfigId set_ReconfigRequest_curConfigId deserialize_Long ;!
   on_archive ia_end_record_fn)%rec.

Definition deserialize_SetDataResponse : deser S SetDataResponse :=
  (on_archive ia_start_record_fn ;!
   on_field SetDataResponse_stat set_SetDataResponse_stat deserialize_Stat ;!
   on_archive ia_end_record_fn)%rec.

Definition deserialize_GetSASLRequest : deser S GetSASLRequest :=
  (on_archive ia_start_record_fn ;!
   on_field GetSASLRequest_token set_GetSASLRequest_token deserialize_Buffer ;!
   on_archive ia_end_record_fn)%rec.

Definition deserialize_SetSASLRequest : deser S SetSASLRequest :=
  (on_archive ia_start_record_fn ;!
   on_field SetSASLRequest_token set_SetSASLRequest_token deserialize_Buffer ;!
   on_archive ia_end_record_fn)%rec.

Definition deserialize_SetSASLResponse : deser S SetSASLResponse :=
  (on_archive ia_start_record_fn ;!
   on_field SetSASLResponse_token set_SetSASLResponse_token deserialize_Buffer ;!
   on_archive ia_end_record_fn)%rec.

Definition deserialize_ACL_vector : deser S (vector ACL) :=
  deserialize_vector 24 zero_ACL deserialize_ACL.

Definition deserialize_CreateRequest : deser S CreateRequest :=
  (on_archive ia_start_record_fn ;!
   on_field CreateRequest_path set_CreateRequest_path deserialize_String ;!
   on_field CreateRequest_data set_CreateRequest_data deserialize_Buffer ;!
   on_field CreateRequest_acl set_CreateRequest_acl deserialize_ACL_vector ;!
   on_field CreateRequest_flags set_CreateRequest_flags deserialize_Int ;!
   on_archive ia_end_record_fn)%rec.

Definition deserialize_CreateTTLRequest : deser S CreateTTLRequest :=
  (on_archive ia_start_record_fn ;!
   on_field CreateTTLRequest_path set_CreateTTLRequest_path deserialize_String ;!
   on_field CreateTTLRequest_data set_CreateTTLRequest_data deserialize_Buffer ;!
   on_field CreateTTLRequest_acl set_CreateTTLRequest_acl deserialize_ACL_vector ;!
   on_field CreateTTLRequest_flags set_CreateTTLRequest_flags deserialize_Int ;!
   on_field CreateTTLRequest_ttl set_CreateTTLRequest_ttl deserialize_Long ;!
   on_archive ia_end_record_fn)%rec.

Definition deserialize_DeleteRequest : deser S DeleteRequest :=
  (on_archive ia_start_record_fn ;!
   on_field DeleteRequest_path set_DeleteRequest_path deserialize_String ;!
   on_field DeleteRequest_version set_DeleteRequest_version deserialize_Int ;!
   on_archive ia_end_record_fn)%rec.

Definition deserialize_GetChildrenRequest : deser S GetChildrenRequest :=
  (on_archive ia_start_record_fn ;!
   on_field GetChildrenRequest_path set_GetChildrenRequest_path deserialize_String ;!
   on_field GetChildrenRequest_watch set_GetChildrenRequest_watch deserialize_Bool ;!
   on_archive ia_end_record_fn)%rec.

Definition deserialize_GetChildren2Request : deser S GetChildren2Request :=
  (on_archive ia_start_record_fn ;!
   on_field GetChildren2Request_path set_GetChildren2Request_path deserialize_String ;!
   on_field GetChildren2Request_watch set_GetChildren2Request_watch deserialize_Bool ;!
   on_archive ia_end_record_fn)%rec.

Definition deserialize_CheckVersionRequest : deser S CheckVersionRequest :=
  (on_archive ia_start_record_fn ;!
   on_field CheckVersionRequest_path set_CheckVersionRequest_path deserialize_String ;!
   on_field CheckVersionRequest_version set_CheckVersionRequest_version deserialize_Int ;!
   on_archive ia_end_record_fn)%rec.

Definition deserialize_GetMaxChildrenRequest : deser S GetMaxChildrenRequest :=
  (on_archive ia_start_record_fn ;!
   on_field GetMaxChildrenRequest_path set_GetMaxChildrenRequest_path deserialize_String ;!
   on_archive ia_end_record_fn)%rec.

Definition deserialize_GetMaxChildrenResponse : deser S GetMaxChildrenResponse :=
  (on_archive ia_start_record_fn ;!
   on_field GetMaxChildrenResponse_max set_GetMaxChildrenResponse_max deserialize_Int ;!
   on_archive ia_end_record_fn)%rec.

Definition deserialize_SetMaxChildrenRequest : deser S SetMaxChildrenRequest :=
  (on_archive ia_start_record_fn ;!
   on_field SetMaxChildrenRequest_path set_SetMaxChildrenRequest_path deserialize_String ;!
   on_field SetMaxChildrenRequest_max set_SetMaxChildrenRequest_max deserialize_Int ;!
   on_archive ia_end_record_fn)%rec.

Definition deserialize_SyncRequest : deser S SyncRequest :=
  (on_archive ia_start_record_fn ;!
   on_field SyncRequest_path set_SyncRequest_path deserialize_String ;!
   on_archive ia_end_record_fn)%rec.

Definition deserialize_SyncResponse : deser S SyncResponse :=
  (on_archive ia_start_record_fn ;!
   on_field SyncResponse_path set_SyncResponse_path deserialize_String ;!
   on_archive ia_end_record_fn)%rec.

Definition deserialize_GetACLRequest : deser S GetACLRequest :=
  (on_archive ia_start_record_fn ;!
   on_field GetACLRequest_path set_GetACLRequest_path deserialize_String ;!
   on_archive ia_end_record_fn)%rec.

Definition deserialize_SetACLRequest : deser S SetACLRequest :=
  (on_archive ia_start_record_fn ;!
   on_field SetACLRequest_path set_SetACLRequest_path deserialize_String ;!
   on_field SetACLRequest_acl set_SetACLRequest_acl deserialize_ACL_vector ;!
   on_field SetACLRequest_version set_SetACLRequest_version deserialize_Int ;!
   on_archive ia_end_record_fn)%rec.

Definition deserialize_SetACLResponse : deser S SetACLResponse :=
  (on_archive ia_start_record_fn ;!
   on_field SetACLResponse_stat set_SetACLResponse_stat deserialize_Stat ;!
   on_archive ia_end_record_fn)%rec.

Definition deserialize_WatcherEvent : deser S WatcherEvent :=
  (on_archive ia_start_record_fn ;!
   on_field WatcherEvent_type set_WatcherEvent_type deserialize_Int ;!
   on_field WatcherEvent_state set_WatcherEvent_state deserialize_Int ;!
   on_field WatcherEvent_path set_WatcherEvent_path deserialize_String ;!
   on_archive ia_end_record_fn)%rec.

Definition deserialize_ErrorResponse : deser S ErrorResponse :=
  (on_archive ia_start_record_fn ;!
   on_field ErrorResponse_err set_ErrorResponse_err deserialize_Int ;!
   on_archive ia_end_record_fn)%rec.

Definition deserialize_CreateResponse : deser S CreateResponse :=
  (on_archive ia_start_record_fn ;!
   on_field CreateResponse_path set_CreateResponse_path deserialize_String ;!
   on_archive ia_end_record_fn)%rec.

Definition deserialize_Create2Response : deser S Create2Response :=
  (on_archive ia_start_record_fn ;!
   on_field Create2Response_path set_Create2Response_path deserialize_String ;!
   on_field Create2Response_stat set_Create2Response_stat deserialize_Stat ;!
   on_archive ia_end_record_fn)%rec.

Definition deserialize_ExistsRequest : deser S ExistsRequest :=
  (on_archive ia_start_record_fn ;!
   on_field ExistsRequest_path set_ExistsRequest_path deserialize_String ;!
   on_field ExistsRequest_watch set_ExistsRequest_watch deserialize_Bool ;!
   on_archive ia_end_record_fn)%rec.

Definition deserialize_ExistsResponse : deser S ExistsResponse :=
  (on_archive ia_start_record_fn ;!
   on_field ExistsResponse_stat set_ExistsResponse_stat deserialize_Stat ;!
   on_archive ia_end_record_fn)%rec.

Definition deserialize_GetDataResponse : deser S GetDataResponse :=
  (on_archive ia_start_record_fn ;!
   on_field GetDataResponse_data set_GetDataResponse_data deserialize_Buffer ;!
   on_field GetDataResponse_stat set_GetDataResponse_stat deserialize_Stat ;!
   on_archive ia_end_record_fn)%rec.

Definition deserialize_GetChildrenResponse : deser S GetChildrenResponse :=
  (on_archive ia_start_record_fn ;!
   on_field GetChildrenResponse_children set_GetChildrenResponse_children deserialize_String_vector ;!
   on_archive ia_end_record_fn)%rec.

Definition deserialize_GetChildren2Response : deser S GetChildren2Response :=
  (on_archive ia_start_record_fn ;!
   on_field GetChildren2Response_children set_GetChildren2Response_children deserialize_String_vector ;!
   on_field GetChildren2Response_stat set_GetChildren2Response_stat deserialize_Stat ;!
   on_archive ia_end_record_fn)%rec.

Definition deserialize_GetACLResponse : deser S GetACLResponse :=
  (on_archive ia_start_record_fn ;!
   on_field GetACLResponse_acl set_GetACLResponse_acl deserialize_ACL_vector ;!
   on_field GetACLResponse_stat set_GetACLResponse_stat deserialize_Stat ;!
   on_archive ia_end_record_fn)%rec.

Definition deserialize_CheckWatchesRequest : deser S CheckWatchesRequest :=
  (on_archive ia_start_record_fn ;!
   on_field CheckWatchesRequest_path set_CheckWatchesRequest_path deserialize_String ;!
   on_field CheckWatchesRequest_type set_CheckWatchesRequest_type deserialize_Int ;!
   on_archive ia_end_record_fn)%rec.

Definition deserialize_RemoveWatchesRequest : deser S RemoveWatchesRequest :=
  (on_archive ia_start_record_fn ;!
   on_field RemoveWatchesRequest_path set_RemoveWatchesRequest_path deserialize_String ;!
   on_field RemoveWatchesRequest_type set_RemoveWatchesRequest_type deserialize_Int ;!
   on_archive ia_end_record_fn)%rec.

Definition deserialize_LearnerInfo : deser S LearnerInfo :=
  (on_archive ia_start_record_fn ;!
   on_field LearnerInfo_serverid set_LearnerInfo_serverid deserialize_Long ;!
   on_field LearnerInfo_protocolVersion set_LearnerInfo_protocolVersion deserialize_Int ;!
   on_field LearnerInfo_configVersion set_LearnerInfo_configVersion deserialize_Long ;!
   on_archive ia_end_record_fn)%rec.

Definition deserialize_Id_vector : deser S (vector Id) :=
  deserialize_vector 16 zero_Id deserialize_Id.

Definition deserialize_QuorumPacket : deser S QuorumPacket :=
  (on_archive ia_start_record_fn ;!
   on_field QuorumPacket_type set_QuorumPacket_type deserialize_Int ;!
   on_field QuorumPacket_zxid set_QuorumPacket_zxid deserialize_Long ;!
   on_field QuorumPacket_data set_QuorumPacket_data deserialize_Buffer ;!
   on_field QuorumPacket_authinfo set_QuorumPacket_authinfo deserialize_Id_vector ;!
   on_archive ia_end_record_fn)%rec.

Definition deserialize_QuorumAuthPacket : deser S QuorumAuthPacket :=
  (on_archive ia_start_record_fn ;!
   on_field QuorumAuthPacket_magic set_QuorumAuthPacket_magic deserialize_Long ;!
   on_field QuorumAuthPacket_status set_QuorumAuthPacket_status deserialize_Int ;!
   on_field QuorumAuthPacket_token set_QuorumAuthPacket_token deserialize_Buffer ;!
   on_archive ia_end_record_fn)%rec.

Definition deserialize_FileHeader : deser S FileHeader :=
  (on_archive ia_start_record_fn ;!
   on_field FileHeader_magic set_FileHeader_magic deserialize_Int ;!
   on_field FileHeader_version set_FileHeader_version deserialize_Int ;!
   on_field FileHeader_dbid set_FileHeader_dbid deserialize_Long ;!
   on_archive ia_end_record_fn)%rec.

Definition deserialize_TxnHeader : deser S TxnHeader :=
  (on_archive ia_start_record_fn ;!
   on_field TxnHeader_clientId set_TxnHeader_clientId deserialize_Long ;!
   on_field TxnHeader_cxid set_TxnHeader_cxid deserialize_Int ;!
   on_field TxnHeader_zxid set_TxnHeader_zxid deserialize_Long ;!
   on_field TxnHeader_time set_TxnHeader_time deserialize_Long ;!
   on_field TxnHeader_type set_TxnHeader_type deserialize_Int ;!
   on_archive ia_end_record_fn)%rec.

Definition deserialize_CreateTxnV0 : deser S CreateTxnV0 :=
  (on_archive ia_start_record_fn ;!
   on_field CreateTxnV0_path set_CreateTxnV0_path deserialize_String ;!
   on_field CreateTxnV0_data set_CreateTxnV0_data deserialize_Buffer ;!
   on_field CreateTxnV0_acl set_CreateTxnV0_acl deserialize_ACL_vector ;!
   on_field CreateTxnV0_ephemeral set_CreateTxnV0_ephemeral deserialize_Bool ;!
   on_archive ia_end_record_fn)%rec.

Definition deserialize_CreateTxn : deser S CreateTxn :=
  (on_archive ia_start_record_fn ;!
   on_field CreateTxn_path set_CreateTxn_path deserialize_String ;!
   on_field CreateTxn_data set_CreateTxn_data deserialize_Buffer ;!
   on_field CreateTxn_acl set_CreateTxn_acl deserialize_ACL_vector ;!
   on_field CreateTxn_ephemeral set_CreateTxn_ephemeral deserialize_Bool ;!
   on_field CreateTxn_parentCVersion set_CreateTxn_parentCVersion deserialize_Int ;!
   on_archive ia_end_record_fn)%rec.

Definition deserialize_CreateTTLTxn : deser S CreateTTLTxn :=
  (on_archive ia_start_record_fn ;!
   on_field CreateTTLTxn_path set_CreateTTLTxn_path deserialize_String ;!
   on_field CreateTTLTxn_data set_CreateTTLTxn_data deserialize_Buffer ;!
   on_field CreateTTLTxn_acl set_CreateTTLTxn_acl deserialize_ACL_vector ;!
   on_field CreateTTLTxn_parentCVersion set_CreateTTLTxn_parentCVersion deserialize_Int ;!
   on_field CreateTTLTxn_ttl set_CreateTTLTxn_ttl deserialize_Long ;!
   on_archive ia_end_record_fn)%rec.

Definition deserialize_CreateContainerTxn : deser S CreateContainerTxn :=
  (on_archive ia_start_record_fn ;!
   on_field CreateContainerTxn_path set_CreateContainerTxn_path deserialize_String ;!
   on_field CreateContainerTxn_data set_CreateContainerTxn_data deserialize_Buffer ;!
   on_field CreateContainerTxn_acl set_CreateContainerTxn_acl deserialize_ACL_vector ;!
   on_field CreateContainerTxn_parentCVersion set_CreateContainerTxn_parentCVersion deserialize_Int ;!
   on_archive ia_end_record_fn)%rec.

Definition deserialize_DeleteTxn : deser S DeleteTxn :=
  (on_archive ia_start_record_fn ;!
   on_field DeleteTxn_path set_DeleteTxn_path deserialize_String ;!
   on_archive ia_end_record_fn)%rec.

Definition deserialize_SetDataTxn : deser S SetDataTxn :=
  (on_archive ia_start_record_fn ;!
   on_field SetDataTxn_path set_SetDataTxn_path deserialize_String ;!
   on_field SetDataTxn_data set_SetDataTxn_data deserialize_Buffer ;!
   on_field SetDataTxn_version set_SetDataTxn_version deserialize_Int ;!
   on_archive ia_end_record_fn)%rec.

Definition deserialize_CheckVersionTxn : deser S CheckVersionTxn :=
  (on_archive ia_start_record_fn ;!
   on_field CheckVersionTxn_path set_CheckVersionTxn_path deserialize_String ;!
   on_field CheckVersionTxn_version set_CheckVersionTxn_version deserialize_Int ;!
   on_archive ia_end_record_fn)%rec.

Definition deserialize_SetACLTxn : deser S SetACLTxn :=
  (on_archive ia_start_record_fn ;!
   on_field SetACLTxn_path set_SetACLTxn_path deserialize_String ;!
   on_field SetACLTxn_acl set_SetACLTxn_acl deserialize_ACL_vector ;!
   on_field SetACLTxn_version set_SetACLTxn_version deserialize_Int ;!
   on_archive ia_end_record_fn)%rec.

Definition deserialize_SetMaxChildrenTxn : deser S SetMaxChildrenTxn :=
  (on_archive ia_start_record_fn ;!
   on_field SetMaxChildrenTxn_path set_SetMaxChildrenTxn_path deserialize_String ;!
   on_field SetMaxChildrenTxn_max set_SetMaxChildrenTxn_max deserialize_Int ;!
   on_archive ia_end_record_fn)%rec.

Definition deserialize_CreateSessionTxn : deser S CreateSessionTxn :=
  (on_archive ia_start_record_fn ;!
   on_field CreateSessionTxn_timeOut set_CreateSessionTxn_timeOut deserialize_Int ;!
   on_archive ia_end_record_fn)%rec.

Definition deserialize_ErrorTxn : deser S ErrorTxn :=
  (on_archive ia_start_record_fn ;!
   on_field ErrorTxn_err set_ErrorTxn_err deserialize_Int ;!
   on_archive ia_end_record_fn)%rec.

Definition deserialize_Txn : deser S Txn :=
  (on_archive ia_start_record_fn ;!
   on_field Txn_type set_Txn_type deserialize_Int ;!
   on_field Txn_data set_Txn_data deserialize_Buffer ;!
   on_archive ia_end_record_fn)%rec.

Definition deserialize_Txn_vector : deser S (vector Txn) :=
  deserialize_vector 24 zero_Txn deserialize_Txn.

Definition deserialize_MultiTxn : deser S MultiTxn :=
  (on_archive ia_start_record_fn ;!
   on_field MultiTxn_txns set_MultiTxn_txns deserialize_Txn_vector ;!
   on_archive ia_end_record_fn)%rec.
End deserialize.

(** ** Deallocation: every pointer freed is reset to NULL *)
Definition deallocate_Id (v : Id) : Id :=
  mk_Id (deallocate_String (Id_scheme v)) (deallocate_String (Id_id v)).

Definition deallocate_ACL (v : ACL) : ACL :=
  mk_ACL (ACL_perms v) (deallocate_Id (ACL_id v)).

Definition deallocate_Stat (v : Stat) : Stat :=
  mk_Stat (Stat_czxid v) (Stat_mzxid v) (Stat_ctime v) (Stat_mtime v) (Stat_version v) (Stat_cversion v) (Stat_aversion v) (Stat_ephemeralOwner v) (Stat_dataLength v) (Stat_numChildren v) (Stat_pzxid v).

Definition deallocate_StatPersisted (v : StatPersisted) : StatPersisted :=
  mk_StatPersisted (StatPersisted_czxid v) (StatPersisted_mzxid v) (StatPersisted_ctime v) (StatPersisted_mtime v) (StatPersisted_version v) (StatPersisted_cversion v) (StatPersisted_aversion v) (StatPersisted_ephemeralOwner v) (StatPersisted_pzxid v).

Definition deallocate_ConnectRequest (v : ConnectRequest) : ConnectRequest :=
  mk_ConnectRequest (ConnectRequest_protocolVersion v) (ConnectRequest_lastZxidSeen v) (ConnectRequest_timeOut v) (ConnectRequest_sessionId v) (deallocate_Buffer (ConnectRequest_passwd v)).

Definition deallocate_ConnectResponse (v : ConnectResponse) : ConnectResponse :=
  mk_ConnectResponse (ConnectResponse_protocolVersion v) (ConnectResponse_timeOut v) (ConnectResponse_sessionId v) (deallocate_Buffer (ConnectResponse_passwd v)).

Definition deallocate_String_vector (v : vector (option cstring)) : vector (option cstring) :=
  deallocate_vector v.

Definition allocate_String_vector (len : Z) (o : allocs) : vector (option cstring) * allocs :=
  allocate_vector 8 None len o.

Definition deallocate_SetWatches (v : SetWatches) : SetWatches :=
  mk_SetWatches (SetWatches_relativeZxid v) (deallocate_String_vector (SetWatches_dataWatches v)) (deallocate_String_vector (SetWatches_existWatches v)) (deallocate_String_vector (SetWatches_childWatches v)).

Definition deallocate_RequestHeader (v : RequestHeader) : RequestHeader :=
  mk_RequestHeader (RequestHeader_xid v) (RequestHeader_type v).

Definition deallocate_MultiHeader (v : MultiHeader) : MultiHeader :=
  mk_MultiHeader (MultiHeader_type v) (MultiHeader_done v) (MultiHeader_err v).

Definition deallocate_AuthPacket (v : AuthPacket) : AuthPacket :=
  mk_AuthPacket (AuthPacket_type v) (deallocate_String (AuthPacket_scheme v)) (deallocate_Buffer (AuthPacket_auth v)).

Definition deallocate_ReplyHeader (v : ReplyHeader) : ReplyHeader :=
  mk_ReplyHeader (ReplyHeader_xid v) (ReplyHeader_zxid v) (ReplyHeader_err v).

Definition deallocate_GetDataRequest (v : GetDataRequest) : GetDataRequest :=
  mk_GetDataRequest (deallocate_String (GetDataRequest_path v)) (GetDataRequest_watch v).

Definition deallocate_SetDataRequest (v : SetDataRequest) : SetDataRequest :=
  mk_SetDataRequest (deallocate_String (SetDataRequest_path v)) (deallocate_Buffer (SetDataRequest_data v)) (SetDataRequest_version v).

Definition deallocate_ReconfigRequest (v : ReconfigRequest) : ReconfigRequest :=
  mk_ReconfigRequest (deallocate_String (ReconfigRequest_joiningServers v)) (deallocate_String (ReconfigRequest_leavingServers v)) (deallocate_String (ReconfigRequest_newMembers v)) (ReconfigRequest_curConfigId v).

Definition deallocate_SetDataResponse (v : SetDataResponse) : SetDataResponse :=
  mk_SetDataResponse (deallocate_Stat (SetDataResponse_stat v)).

Definition deallocate_GetSASLRequest (v : GetSASLRequest) : GetSASLRequest :=
  mk_GetSASLRequest (deallocate_Buffer (GetSASLRequest_token v)).

Definition deallocate_SetSASLRequest (v : SetSASLRequest) : SetSASLRequest :=
  mk_SetSASLRequest (deallocate_Buffer (SetSASLRequest_token v)).

Definition deallocate_SetSASLResponse (v : SetSASLResponse) : SetSASLResponse :=
  mk_SetSASLResponse (deallocate_Buffer (SetSASLResponse_token v)).

Definition deallocate_ACL_vector (v : vector ACL) : vector ACL :=
  deallocate_vector v.

Definition allocate_ACL_vector (len : Z) (o : allocs) : vector ACL * allocs :=
  allocate_vector 24 zero_ACL len o.

Definition deallocate_CreateRequest (v : CreateRequest) : CreateRequest :=
  mk_CreateRequest (deallocate_String (CreateRequest_path v)) (deallocate_Buffer (CreateRequest_data v)) (deallocate_ACL_vector (CreateRequest_acl v)) (CreateRequest_flags v).

Definition deallocate_CreateTTLRequest (v : CreateTTLRequest) : CreateTTLRequest :=
  mk_CreateTTLRequest (deallocate_String (CreateTTLRequest_path v)) (deallocate_Buffer (CreateTTLRequest_data v)) (deallocate_ACL_vector (CreateTTLRequest_acl v)) (CreateTTLRequest_flags v) (CreateTTLRequest_ttl v).

Definition deallocate_DeleteRequest (v : DeleteRequest) : DeleteRequest :=
  mk_DeleteRequest (deallocate_String (DeleteRequest_path v)) (DeleteRequest_version v).

Definition deallocate_GetChildrenRequest (v : GetChildrenRequest) : GetChildrenRequest :=
  mk_GetChildrenRequest (deallocate_String (GetChildrenRequest_path v)) (GetChildrenRequest_watch v).

Definition deallocate_GetChildren2Request (v : GetChildren2Request) : GetChildren2Request :=
  mk_GetChildren2Request (deallocate_String (GetChildren2Request_path v)) (GetChildren2Request_watch v).

Definition deallocate_CheckVersionRequest (v : CheckVersionRequest) : CheckVersionRequest :=
  mk_CheckVersionRequest (deallocate_String (CheckVersionRequest_path v)) (CheckVersionRequest_version v).

Definition deallocate_GetMaxChildrenRequest (v : GetMaxChildrenRequest) : GetMaxChildrenRequest :=
  mk_GetMaxChildrenRequest (deallocate_String (GetMaxChildrenRequest_path v)).

Definition deallocate_GetMaxChildrenResponse (v : GetMaxChildrenResponse) : GetMaxChildrenResponse :=
  mk_GetMaxChildrenResponse (GetMaxChildrenResponse_max v).

Definition deallocate_SetMaxChildrenRequest (v : SetMaxChildrenRequest) : SetMaxChildrenRequest :=
  mk_SetMaxChildrenRequest (deallocate_String (SetMaxChildrenRequest_path v)) (SetMaxChildrenRequest_max v).

Definition deallocate_SyncRequest (v : SyncRequest) : SyncRequest :=
  mk_SyncRequest (deallocate_String (SyncRequest_path v)).

Definition deallocate_SyncResponse (v : SyncResponse) : SyncResponse :=
  mk_SyncResponse (deallocate_String (SyncResponse_path v)).

Definition deallocate_GetACLRequest (v : GetACLRequest) : GetACLRequest :=
  mk_GetACLRequest (deallocate_String (GetACLRequest_path v)).

Definition deallocate_SetACLRequest (v : SetACLRequest) : SetACLRequest :=
  mk_SetACLRequest (deallocate_String (SetACLRequest_path v)) (deallocate_ACL_vector (SetACLRequest_acl v)) (SetACLRequest_version v).

Definition deallocate_SetACLResponse (v : SetACLResponse) : SetACLResponse :=
  mk_SetACLResponse (deallocate_Stat (SetACLResponse_stat v)).

Definition deallocate_WatcherEvent (v : WatcherEvent) : WatcherEvent :=
  mk_WatcherEvent (WatcherEvent_type v) (WatcherEvent_state v) (deallocate_String (WatcherEvent_path v)).

Definition deallocate_ErrorResponse (v : ErrorResponse) : ErrorResponse :=
  mk_ErrorResponse (ErrorResponse_err v).

Definition deallocate_CreateResponse (v : CreateResponse) : CreateResponse :=
  mk_CreateResponse (deallocate_String (CreateResponse_path v)).

Definition deallocate_Create2Response (v : Create2Response) : Create2Response :=
  mk_Create2Response (deallocate_String (Create2Response_path v)) (deallocate_Stat (Create2Response_stat v)).

Definition deallocate_ExistsRequest (v : ExistsRequest) : ExistsRequest :=
  mk_ExistsRequest (deallocate_String (ExistsRequest_path v)) (ExistsRequest_watch v).

Definition deallocate_ExistsResponse (v : ExistsResponse) : ExistsResponse :=
  mk_ExistsResponse (deallocate_Stat (ExistsResponse_stat v)).

Definition deallocate_GetDataResponse (v : GetDataResponse) : GetDataResponse :=
  mk_GetDataResponse (deallocate_Buffer (GetDataResponse_data v)) (deallocate_Stat (GetDataResponse_stat v)).

Definition deallocate_GetChildrenResponse (v : GetChildrenResponse) : GetChildrenResponse :=
  mk_GetChildrenResponse (deallocate_String_vector (GetChildrenResponse_children v)).

Definition deallocate_GetChildren2Response (v : GetChildren2Response) : GetChildren2Response :=
  mk_GetChildren2Response (deallocate_String_vector (GetChildren2Response_children v)) (deallocate_Stat (GetChildren2Response_stat v)).

Definition deallocate_GetACLResponse (v : GetACLResponse) : GetACLResponse :=
  mk_GetACLResponse (deallocate_ACL_vector (GetACLResponse_acl v)) (deallocate_Stat (GetACLResponse_stat v)).

Definition deallocate_CheckWatchesRequest (v : CheckWatchesRequest) : CheckWatchesRequest :=
  mk_CheckWatchesRequest (deallocate_String (CheckWatchesRequest_path v)) (CheckWatchesRequest_type v).

Definition deallocate_RemoveWatchesRequest (v : RemoveWatchesRequest) : RemoveWatchesRequest :=
  mk_RemoveWatchesRequest (deallocate_String (RemoveWatchesRequest_path v)) (RemoveWatchesRequest_type v).

Definition deallocate_LearnerInfo (v : LearnerInfo) : LearnerInfo :=
  mk_LearnerInfo (LearnerInfo_serverid v) (LearnerInfo_protocolVersion v) (LearnerInfo_configVersion v).

Definition deallocate_Id_vector (v : vector Id) : vector Id :=
  deallocate_vector v.

Definition allocate_Id_vector (len : Z) (o : allocs) : vector Id * allocs :=
  allocate_vector 16 zero_Id len o.

Definition deallocate_QuorumPacket (v : QuorumPacket) : QuorumPacket :=
  mk_QuorumPacket (QuorumPacket_type v) (QuorumPacket_zxid v) (deallocate_Buffer (QuorumPacket_data v)) (deallocate_Id_vector (QuorumPacket_authinfo v)).

Definition deallocate_QuorumAuthPacket (v : QuorumAuthPacket) : QuorumAuthPacket :=
  mk_QuorumAuthPacket (QuorumAuthPacket_magic v) (QuorumAuthPacket_status v) (deallocate_Buffer (QuorumAuthPacket_token v)).

Definition deallocate_FileHeader (v : FileHeader) : FileHeader :=
  mk_FileHeader (FileHeader_magic v) (FileHeader_version v) (FileHeader_dbid v).

Definition deallocate_TxnHeader (v : TxnHeader) : TxnHeader :=
  mk_TxnHeader (TxnHeader_clientId v) (TxnHeader_cxid v) (TxnHeader_zxid v) (TxnHeader_time v) (TxnHeader_type v).

Definition deallocate_CreateTxnV0 (v : CreateTxnV0) : CreateTxnV0 :=
  mk_CreateTxnV0 (deallocate_String (CreateTxnV0_path v)) (deallocate_Buffer (CreateTxnV0_data v)) (deallocate_ACL_vector (CreateTxnV0_acl v)) (CreateTxnV0_ephemeral v).

Definition deallocate_CreateTxn (v : CreateTxn) : CreateTxn :=
  mk_CreateTxn (deallocate_String (CreateTxn_path v)) (deallocate_Buffer (CreateTxn_data v)) (deallocate_ACL_vector (CreateTxn_acl v)) (CreateTxn_ephemeral v) (CreateTxn_parentCVersion v).

Definition deallocate_CreateTTLTxn (v : CreateTTLTxn) : CreateTTLTxn :=
  mk_CreateTTLTxn (deallocate_String (CreateTTLTxn_path v)) (deallocate_Buffer (CreateTTLTxn_data v)) (deallocate_ACL_vector (CreateTTLTxn_acl v)) (CreateTTLTxn_parentCVersion v) (CreateTTLTxn_ttl v).

Definition deallocate_CreateContainerTxn (v : CreateContainerTxn) : CreateContainerTxn :=
  mk_CreateContainerTxn (deallocate_String (CreateContainerTxn_path v)) (deallocate_Buffer (CreateContainerTxn_data v)) (deallocate_ACL_vector (CreateContainerTxn_acl v)) (CreateContainerTxn_parentCVersion v).

Definition deallocate_DeleteTxn (v : DeleteTxn) : DeleteTxn :=
  mk_DeleteTxn (deallocate_String (DeleteTxn_path v)).

Definition deallocate_SetDataTxn (v : SetDataTxn) : SetDataTxn :=
  mk_SetDataTxn (deallocate_String (SetDataTxn_path v)) (deallocate_Buffer (SetDataTxn_data v)) (SetDataTxn_version v).

Definition deallocate_CheckVersionTxn (v : CheckVersionTxn) : CheckVersionTxn :=
  mk_CheckVersionTxn (deallocate_String (CheckVersionTxn_path v)) (CheckVersionTxn_version v).

Definition deallocate_SetACLTxn (v : SetACLTxn) : SetACLTxn :=
  mk_SetACLTxn (deallocate_String (SetACLTxn_path v)) (deallocate_ACL_vector (SetACLTxn_acl v)) (SetACLTxn_version v).

Definition deallocate_SetMaxChildrenTxn (v : SetMaxChildrenTxn) : SetMaxChildrenTxn :=
  mk_SetMaxChildrenTxn (deallocate_String (SetMaxChildrenTxn_path v)) (SetMaxChildrenTxn_max v).

Definition deallocate_CreateSessionTxn (v : CreateSessionTxn) : CreateSessionTxn :=
  mk_CreateSessionTxn (CreateSessionTxn_timeOut v).

Definition deallocate_ErrorTxn (v : ErrorTxn) : ErrorTxn :=
  mk_ErrorTxn (ErrorTxn_err v).

Definition deallocate_Txn (v : Txn) : Txn :=
  mk_Txn (Txn_type v) (deallocate_Buffer (Txn_data v)).

Definition deallocate_Txn_vector (v : vector Txn) : vector Txn :=
  deallocate_vector v.

Definition allocate_Txn_vector (len : Z) (o : allocs) : vector Txn * allocs :=
  allocate_vector 24 zero_Txn len o.

Definition deallocate_MultiTxn (v : MultiTxn) : MultiTxn :=
  mk_MultiTxn (deallocate_Txn_vector (MultiTxn_txns v)).
