(* ===== verification/JuteSpec.v ===== *)
(** * The wire format of the protocol records

    [enc_X] is the encoding of a record, field by field, and [wf_X] says which
    values travel unchanged.  Against any archives that keep their promises
    ([OArchiveOK], [IArchiveOK]) every [serialize_X] appends [enc_X] and every
    [deserialize_X] reads it back; on buffer archives every [deserialize_X] is
    memory safe on arbitrary bytes.  The records are collected in the family
    [jute_type], so that each of these facts is one theorem about all of them. *)

From S2P Require Import Prelude RecordIO RecordIOFacts Jute.
Local Open Scope Z_scope.

(** ** Encodings *)
Definition enc_vector {A} (e : A → list byte) (v : vector A) : list byte :=
  enc_int (v_count v) ++ concat (e <$> default [] (v_data v)).
Definition wf_vector {A} (w : A → Prop) (v : vector A) : Prop :=
  match v_data v with
  | None => False
  | Some l => v_count v = Z.of_nat (length l) ∧ v_count v ≤ INT_MAX ∧ Forall w l
  end.

Definition enc_Id (v : Id) : list byte :=
  enc_string (Id_scheme v) ++ enc_string (Id_id v).
Definition wf_Id (v : Id) : Prop :=
  wf_string (Id_scheme v) ∧ wf_string (Id_id v).

Definition enc_ACL (v : ACL) : list byte :=
  enc_int (ACL_perms v) ++ enc_Id (ACL_id v).
Definition wf_ACL (v : ACL) : Prop :=
  wf_int (ACL_perms v) ∧ wf_Id (ACL_id v).

Definition enc_Stat (v : Stat) : list byte :=
  enc_long (Stat_czxid v) ++ enc_long (Stat_mzxid v) ++ enc_long (Stat_ctime v) ++ enc_long (Stat_mtime v) ++ enc_int (Stat_version v) ++ enc_int (Stat_cversion v) ++ enc_int (Stat_aversion v) ++ enc_long (Stat_ephemeralOwner v) ++ enc_int (Stat_dataLength v) ++ enc_int (Stat_numChildren v) ++ enc_long (Stat_pzxid v).
Definition wf_Stat (v : Stat) : Prop :=
  wf_long (Stat_czxid v) ∧ wf_long (Stat_mzxid v) ∧ wf_long (Stat_ctime v) ∧ wf_long (Stat_mtime v) ∧ wf_int (Stat_version v) ∧ wf_int (Stat_cversion v) ∧ wf_int (Stat_aversion v) ∧ wf_long (Stat_ephemeralOwner v) ∧ wf_int (Stat_dataLength v) ∧ wf_int (Stat_numChildren v) ∧ wf_long (Stat_pzxid v).

Definition enc_StatPersisted (v : StatPersisted) : list byte :=
  enc_long (StatPersisted_czxid v) ++ enc_long (StatPersisted_mzxid v) ++ enc_long (StatPersisted_ctime v) ++ enc_long (StatPersisted_mtime v) ++ enc_int (StatPersisted_version v) ++ enc_int (StatPersisted_cversion v) ++ enc_int (StatPersisted_aversion v) ++ enc_long (StatPersisted_ephemeralOwner v) ++ enc_long (StatPersisted_pzxid v).
Definition wf_StatPersisted (v : StatPersisted) : Prop :=
  wf_long (StatPersisted_czxid v) ∧ wf_long (StatPersisted_mzxid v) ∧ wf_long (StatPersisted_ctime v) ∧ wf_long (StatPersisted_mtime v) ∧ wf_int (StatPersisted_version v) ∧ wf_int (StatPersisted_cversion v) ∧ wf_int (StatPersisted_aversion v) ∧ wf_long (StatPersisted_ephemeralOwner v) ∧ wf_long (StatPersisted_pzxid v).

Definition enc_ConnectRequest (v : ConnectRequest) : list byte :=
  enc_int (ConnectRequest_protocolVersion v) ++ enc_long (ConnectRequest_lastZxidSeen v) ++ enc_int (ConnectRequest_timeOut v) ++ enc_long (ConnectRequest_sessionId v) ++ enc_buffer (ConnectRequest_passwd v).
Definition wf_ConnectRequest (v : ConnectRequest) : Prop :=
  wf_int (ConnectRequest_protocolVersion v) ∧ wf_long (ConnectRequest_lastZxidSeen v) ∧ wf_int (ConnectRequest_timeOut v) ∧ wf_long (ConnectRequest_sessionId v) ∧ wf_buffer (ConnectRequest_passwd v).

Definition enc_ConnectResponse (v : ConnectResponse) : list byte :=
  enc_int (ConnectResponse_protocolVersion v) ++ enc_int (ConnectResponse_timeOut v) ++ enc_long (ConnectResponse_sessionId v) ++ enc_buffer (ConnectResponse_passwd v).
Definition wf_ConnectResponse (v : ConnectResponse) : Prop :=
  wf_int (ConnectResponse_protocolVersion v) ∧ wf_int (ConnectResponse_timeOut v) ∧ wf_long (ConnectResponse_sessionId v) ∧ wf_buffer (ConnectResponse_passwd v).

Definition enc_String_vector (v : vector (option cstring)) : list byte := enc_vector enc_string v.
Definition wf_String_vector (v : vector (option cstring)) : Prop := wf_vector wf_string v.

Definition enc_SetWatches (v : SetWatches) : list byte :=
  enc_long (SetWatches_relativeZxid v) ++ enc_String_vector (SetWatches_dataWatches v) ++ enc_String_vector (SetWatches_existWatches v) ++ enc_String_vector (SetWatches_childWatches v).
Definition wf_SetWatches (v : SetWatches) : Prop :=
  wf_long (SetWatches_relativeZxid v) ∧ wf_String_vector (SetWatches_dataWatches v) ∧ wf_String_vector (SetWatches_existWatches v) ∧ wf_String_vector (SetWatches_childWatches v).

Definition enc_RequestHeader (v : RequestHeader) : list byte :=
  enc_int (RequestHeader_xid v) ++ enc_int (RequestHeader_type v).
Definition wf_RequestHeader (v : RequestHeader) : Prop :=
  wf_int (RequestHeader_xid v) ∧ wf_int (RequestHeader_type v).

Definition enc_MultiHeader (v : MultiHeader) : list byte :=
  enc_int (MultiHeader_type v) ++ enc_bool (MultiHeader_done v) ++ enc_int (MultiHeader_err v).
Definition wf_MultiHeader (v : MultiHeader) : Prop :=
  wf_int (MultiHeader_type v) ∧ wf_bool (MultiHeader_done v) ∧ wf_int (MultiHeader_err v).

Definition enc_AuthPacket (v : AuthPacket) : list byte :=
  enc_int (AuthPacket_type v) ++ enc_string (AuthPacket_scheme v) ++ enc_buffer (AuthPacket_auth v).
Definition wf_AuthPacket (v : AuthPacket) : Prop :=
  wf_int (AuthPacket_type v) ∧ wf_string (AuthPacket_scheme v) ∧ wf_buffer (AuthPacket_auth v).

Definition enc_ReplyHeader (v : ReplyHeader) : list byte :=
  enc_int (ReplyHeader_xid v) ++ enc_long (ReplyHeader_zxid v) ++ enc_int (ReplyHeader_err v).
Definition wf_ReplyHeader (v : ReplyHeader) : Prop :=
  wf_int (ReplyHeader_xid v) ∧ wf_long (ReplyHeader_zxid v) ∧ wf_int (ReplyHeader_err v).

Definition enc_GetDataRequest (v : GetDataRequest) : list byte :=
  enc_string (GetDataRequest_path v) ++ enc_bool (GetDataRequest_watch v).
Definition wf_GetDataRequest (v : GetDataRequest) : Prop :=
  wf_string (GetDataRequest_path v) ∧ wf_bool (GetDataRequest_watch v).

Definition enc_SetDataRequest (v : SetDataRequest) : list byte :=
  enc_string (SetDataRequest_path v) ++ enc_buffer (SetDataRequest_data v) ++ enc_int (SetDataRequest_version v).
Definition wf_SetDataRequest (v : SetDataRequest) : Prop :=
  wf_string (SetDataRequest_path v) ∧ wf_buffer (SetDataRequest_data v) ∧ wf_int (SetDataRequest_version v).

Definition enc_ReconfigRequest (v : ReconfigRequest) : list byte :=
  enc_string (ReconfigRequest_joiningServers v) ++ enc_string (ReconfigRequest_leavingServers v) ++ enc_string (ReconfigRequest_newMembers v) ++ enc_long (ReconfigRequest_curConfigId v).
Definition wf_ReconfigRequest (v : ReconfigRequest) : Prop :=
  wf_string (ReconfigRequest_joiningServers v) ∧ wf_string (ReconfigRequest_leavingServers v) ∧ wf_string (ReconfigRequest_newMembers v) ∧ wf_long (ReconfigRequest_curConfigId v).

Definition enc_SetDataResponse (v : SetDataResponse) : list byte :=
  enc_Stat (SetDataResponse_stat v).
Definition wf_SetDataResponse (v : SetDataResponse) : Prop :=
  wf_Stat (SetDataResponse_stat v).

Definition enc_GetSASLRequest (v : GetSASLRequest) : list byte :=
  enc_buffer (GetSASLRequest_token v).
Definition wf_GetSASLRequest (v : GetSASLRequest) : Prop :=
  wf_buffer (GetSASLRequest_token v).

Definition enc_SetSASLRequest (v : SetSASLRequest) : list byte :=
  enc_buffer (SetSASLRequest_token v).
Definition wf_SetSASLRequest (v : SetSASLRequest) : Prop :=
  wf_buffer (SetSASLRequest_token v).

Definition enc_SetSASLResponse (v : SetSASLResponse) : list byte :=
  enc_buffer (SetSASLResponse_token v).
Definition wf_SetSASLResponse (v : SetSASLResponse) : Prop :=
  wf_buffer (SetSASLResponse_token v).

Definition enc_ACL_vector (v : vector ACL) : list byte := enc_vector enc_ACL v.
Definition wf_ACL_vector (v : vector ACL) : Prop := wf_vector wf_ACL v.

Definition enc_CreateRequest (v : CreateRequest) : list byte :=
  enc_string (CreateRequest_path v) ++ enc_buffer (CreateRequest_data v) ++ enc_ACL_vector (CreateRequest_acl v) ++ enc_int (CreateRequest_flags v).
Definition wf_CreateRequest (v : CreateRequest) : Prop :=
  wf_string (CreateRequest_path v) ∧ wf_buffer (CreateRequest_data v) ∧ wf_ACL_vector (CreateRequest_acl v) ∧ wf_int (CreateRequest_flags v).

Definition enc_CreateTTLRequest (v : CreateTTLRequest) : list byte :=
  enc_string (CreateTTLRequest_path v) ++ enc_buffer (CreateTTLRequest_data v) ++ enc_ACL_vector (CreateTTLRequest_acl v) ++ enc_int (CreateTTLRequest_flags v) ++ enc_long (CreateTTLRequest_ttl v).
Definition wf_CreateTTLRequest (v : CreateTTLRequest) : Prop :=
  wf_string (CreateTTLRequest_path v) ∧ wf_buffer (CreateTTLRequest_data v) ∧ wf_ACL_vector (CreateTTLRequest_acl v) ∧ wf_int (CreateTTLRequest_flags v) ∧ wf_long (CreateTTLRequest_ttl v).

Definition enc_DeleteRequest (v : DeleteRequest) : list byte :=
  enc_string (DeleteRequest_path v) ++ enc_int (DeleteRequest_version v).
Definition wf_DeleteRequest (v : DeleteRequest) : Prop :=
  wf_string (DeleteRequest_path v) ∧ wf_int (DeleteRequest_version v).

Definition enc_GetChildrenRequest (v : GetChildrenRequest) : list byte :=
  enc_string (GetChildrenRequest_path v) ++ enc_bool (GetChildrenRequest_watch v).
Definition wf_GetChildrenRequest (v : GetChildrenRequest) : Prop :=
  wf_string (GetChildrenRequest_path v) ∧ wf_bool (GetChildrenRequest_watch v).

Definition enc_GetChildren2Request (v : GetChildren2Request) : list byte :=
  enc_string (GetChildren2Request_path v) ++ enc_bool (GetChildren2Request_watch v).
Definition wf_GetChildren2Request (v : GetChildren2Request) : Prop :=
  wf_string (GetChildren2Request_path v) ∧ wf_bool (GetChildren2Request_watch v).

Definition enc_CheckVersionRequest (v : CheckVersionRequest) : list byte :=
  enc_string (CheckVersionRequest_path v) ++ enc_int (CheckVersionRequest_version v).
Definition wf_CheckVersionRequest (v : CheckVersionRequest) : Prop :=
  wf_string (CheckVersionRequest_path v) ∧ wf_int (CheckVersionRequest_version v).

Definition enc_GetMaxChildrenRequest (v : GetMaxChildrenRequest) : list byte :=
  enc_string (GetMaxChildrenRequest_path v).
Definition wf_GetMaxChildrenRequest (v : GetMaxChildrenRequest) : Prop :=
  wf_string (GetMaxChildrenRequest_path v).

Definition enc_GetMaxChildrenResponse (v : GetMaxChildrenResponse) : list byte :=
  enc_int (GetMaxChildrenResponse_max v).
Definition wf_GetMaxChildrenResponse (v : GetMaxChildrenResponse) : Prop :=
  wf_int (GetMaxChildrenResponse_max v).

Definition enc_SetMaxChildrenRequest (v : SetMaxChildrenRequest) : list byte :=
  enc_string (SetMaxChildrenRequest_path v) ++ enc_int (SetMaxChildrenRequest_max v).
Definition wf_SetMaxChildrenRequest (v : SetMaxChildrenRequest) : Prop :=
  wf_string (SetMaxChildrenRequest_path v) ∧ wf_int (SetMaxChildrenRequest_max v).

Definition enc_SyncRequest (v : SyncRequest) : list byte :=
  enc_string (SyncRequest_path v).
Definition wf_SyncRequest (v : SyncRequest) : Prop :=
  wf_string (SyncRequest_path v).

Definition enc_SyncResponse (v : SyncResponse) : list byte :=
  enc_string (SyncResponse_path v).
Definition wf_SyncResponse (v : SyncResponse) : Prop :=
  wf_string (SyncResponse_path v).

Definition enc_GetACLRequest (v : GetACLRequest) : list byte :=
  enc_string (GetACLRequest_path v).
Definition wf_GetACLRequest (v : GetACLRequest) : Prop :=
  wf_string (GetACLRequest_path v).

Definition enc_SetACLRequest (v : SetACLRequest) : list byte :=
  enc_string (SetACLRequest_path v) ++ enc_ACL_vector (SetACLRequest_acl v) ++ enc_int (SetACLRequest_version v).
Definition wf_SetACLRequest (v : SetACLRequest) : Prop :=
  wf_string (SetACLRequest_path v) ∧ wf_ACL_vector (SetACLRequest_acl v) ∧ wf_int (SetACLRequest_version v).

Definition enc_SetACLResponse (v : SetACLResponse) : list byte :=
  enc_Stat (SetACLResponse_stat v).
Definition wf_SetACLResponse (v : SetACLResponse) : Prop :=
  wf_Stat (SetACLResponse_stat v).

Definition enc_WatcherEvent (v : WatcherEvent) : list byte :=
  enc_int (WatcherEvent_type v) ++ enc_int (WatcherEvent_state v) ++ enc_string (WatcherEvent_path v).
Definition wf_WatcherEvent (v : WatcherEvent) : Prop :=
  wf_int (WatcherEvent_type v) ∧ wf_int (WatcherEvent_state v) ∧ wf_string (WatcherEvent_path v).

Definition enc_ErrorResponse (v : ErrorResponse) : list byte :=
  enc_int (ErrorResponse_err v).
Definition wf_ErrorResponse (v : ErrorResponse) : Prop :=
  wf_int (ErrorResponse_err v).

Definition enc_CreateResponse (v : CreateResponse) : list byte :=
  enc_string (CreateResponse_path v).
Definition wf_CreateResponse (v : CreateResponse) : Prop :=
  wf_string (CreateResponse_path v).

Definition enc_Create2Response (v : Create2Response) : list byte :=
  enc_string (Create2Response_path v) ++ enc_Stat (Create2Response_stat v).
Definition wf_Create2Response (v : Create2Response) : Prop :=
  wf_string (Create2Response_path v) ∧ wf_Stat (Create2Response_stat v).

Definition enc_ExistsRequest (v : ExistsRequest) : list byte :=
  enc_string (ExistsRequest_path v) ++ enc_bool (ExistsRequest_watch v).
Definition wf_ExistsRequest (v : ExistsRequest) : Prop :=
  wf_string (ExistsRequest_path v) ∧ wf_bool (ExistsRequest_watch v).

Definition enc_ExistsResponse (v : ExistsResponse) : list byte :=
  enc_Stat (ExistsResponse_stat v).
Definition wf_ExistsResponse (v : ExistsResponse) : Prop :=
  wf_Stat (ExistsResponse_stat v).

Definition enc_GetDataResponse (v : GetDataResponse) : list byte :=
  enc_buffer (GetDataResponse_data v) ++ enc_Stat (GetDataResponse_stat v).
Definition wf_GetDataResponse (v : GetDataResponse) : Prop :=
  wf_buffer (GetDataResponse_data v) ∧ wf_Stat (GetDataResponse_stat v).

Definition enc_GetChildrenResponse (v : GetChildrenResponse) : list byte :=
  enc_String_vector (GetChildrenResponse_children v).
Definition wf_GetChildrenResponse (v : GetChildrenResponse) : Prop :=
  wf_String_vector (GetChildrenResponse_children v).

Definition enc_GetChildren2Response (v : GetChildren2Response) : list byte :=
  enc_String_vector (GetChildren2Response_children v) ++ enc_Stat (GetChildren2Response_stat v).
Definition wf_GetChildren2Response (v : GetChildren2Response) : Prop :=
  wf_String_vector (GetChildren2Response_children v) ∧ wf_Stat (GetChildren2Response_stat v).

Definition enc_GetACLResponse (v : GetACLResponse) : list byte :=
  enc_ACL_vector (GetACLResponse_acl v) ++ enc_Stat (GetACLResponse_stat v).
Definition wf_GetACLResponse (v : GetACLResponse) : Prop :=
  wf_ACL_vector (GetACLResponse_acl v) ∧ wf_Stat (GetACLResponse_stat v).

Definition enc_CheckWatchesRequest (v : CheckWatchesRequest) : list byte :=
  enc_string (CheckWatchesRequest_path v) ++ enc_int (CheckWatchesRequest_type v).
Definition wf_CheckWatchesRequest (v : CheckWatchesRequest) : Prop :=
  wf_string (CheckWatchesRequest_path v) ∧ wf_int (CheckWatchesRequest_type v).

Definition enc_RemoveWatchesRequest (v : RemoveWatchesRequest) : list byte :=
  enc_string (RemoveWatchesRequest_path v) ++ enc_int (RemoveWatchesRequest_type v).
Definition wf_RemoveWatchesRequest (v : RemoveWatchesRequest) : Prop :=
  wf_string (RemoveWatchesRequest_path v) ∧ wf_int (RemoveWatchesRequest_type v).

Definition enc_LearnerInfo (v : LearnerInfo) : list byte :=
  enc_long (LearnerInfo_serverid v) ++ enc_int (LearnerInfo_protocolVersion v) ++ enc_long (LearnerInfo_configVersion v).
Definition wf_LearnerInfo (v : LearnerInfo) : Prop :=
  wf_long (LearnerInfo_serverid v) ∧ wf_int (LearnerInfo_protocolVersion v) ∧ wf_long (LearnerInfo_configVersion v).

Definition enc_Id_vector (v : vector Id) : list byte := enc_vector enc_Id v.
Definition wf_Id_vector (v : vector Id) : Prop := wf_vector wf_Id v.

Definition enc_QuorumPacket (v : QuorumPacket) : list byte :=
  enc_int (QuorumPacket_type v) ++ enc_long (QuorumPacket_zxid v) ++ enc_buffer (QuorumPacket_data v) ++ enc_Id_vector (QuorumPacket_authinfo v).
Definition wf_QuorumPacket (v : QuorumPacket) : Prop :=
  wf_int (QuorumPacket_type v) ∧ wf_long (QuorumPacket_zxid v) ∧ wf_buffer (QuorumPacket_data v) ∧ wf_Id_vector (QuorumPacket_authinfo v).

Definition enc_QuorumAuthPacket (v : QuorumAuthPacket) : list byte :=
  enc_long (QuorumAuthPacket_magic v) ++ enc_int (QuorumAuthPacket_status v) ++ enc_buffer (QuorumAuthPacket_token v).
Definition wf_QuorumAuthPacket (v : QuorumAuthPacket) : Prop :=
  wf_long (QuorumAuthPacket_magic v) ∧ wf_int (QuorumAuthPacket_status v) ∧ wf_buffer (QuorumAuthPacket_token v).

Definition enc_FileHeader (v : FileHeader) : list byte :=
  enc_int (FileHeader_magic v) ++ enc_int (FileHeader_version v) ++ enc_long (FileHeader_dbid v).
Definition wf_FileHeader (v : FileHeader) : Prop :=
  wf_int (FileHeader_magic v) ∧ wf_int (FileHeader_version v) ∧ wf_long (FileHeader_dbid v).

Definition enc_TxnHeader (v : TxnHeader) : list byte :=
  enc_long (TxnHeader_clientId v) ++ enc_int (TxnHeader_cxid v) ++ enc_long (TxnHeader_zxid v) ++ enc_long (TxnHeader_time v) ++ enc_int (TxnHeader_type v).
Definition wf_TxnHeader (v : TxnHeader) : Prop :=
  wf_long (TxnHeader_clientId v) ∧ wf_int (TxnHeader_cxid v) ∧ wf_long (TxnHeader_zxid v) ∧ wf_long (TxnHeader_time v) ∧ wf_int (TxnHeader_type v).

Definition enc_CreateTxnV0 (v : CreateTxnV0) : list byte :=
  enc_string (CreateTxnV0_path v) ++ enc_buffer (CreateTxnV0_data v) ++ enc_ACL_vector (CreateTxnV0_acl v) ++ enc_bool (CreateTxnV0_ephemeral v).
Definition wf_CreateTxnV0 (v : CreateTxnV0) : Prop :=
  wf_string (CreateTxnV0_path v) ∧ wf_buffer (CreateTxnV0_data v) ∧ wf_ACL_vector (CreateTxnV0_acl v) ∧ wf_bool (CreateTxnV0_ephemeral v).

Definition enc_CreateTxn (v : CreateTxn) : list byte :=
  enc_string (CreateTxn_path v) ++ enc_buffer (CreateTxn_data v) ++ enc_ACL_vector (CreateTxn_acl v) ++ enc_bool (CreateTxn_ephemeral v) ++ enc_int (CreateTxn_parentCVersion v).
Definition wf_CreateTxn (v : CreateTxn) : Prop :=
  wf_string (CreateTxn_path v) ∧ wf_buffer (CreateTxn_data v) ∧ wf_ACL_vector (CreateTxn_acl v) ∧ wf_bool (CreateTxn_ephemeral v) ∧ wf_int (CreateTxn_parentCVersion v).

Definition enc_CreateTTLTxn (v : CreateTTLTxn) : list byte :=
  enc_string (CreateTTLTxn_path v) ++ enc_buffer (CreateTTLTxn_data v) ++ enc_ACL_vector (CreateTTLTxn_acl v) ++ enc_int (CreateTTLTxn_parentCVersion v) ++ enc_long (CreateTTLTxn_ttl v).
Definition wf_CreateTTLTxn (v : CreateTTLTxn) : Prop :=
  wf_string (CreateTTLTxn_path v) ∧ wf_buffer (CreateTTLTxn_data v) ∧ wf_ACL_vector (CreateTTLTxn_acl v) ∧ wf_int (CreateTTLTxn_parentCVersion v) ∧ wf_long (CreateTTLTxn_ttl v).

Definition enc_CreateContainerTxn (v : CreateContainerTxn) : list byte :=
  enc_string (CreateContainerTxn_path v) ++ enc_buffer (CreateContainerTxn_data v) ++ enc_ACL_vector (CreateContainerTxn_acl v) ++ enc_int (CreateContainerTxn_parentCVersion v).
Definition wf_CreateContainerTxn (v : CreateContainerTxn) : Prop :=
  wf_string (CreateContainerTxn_path v) ∧ wf_buffer (CreateContainerTxn_data v) ∧ wf_ACL_vector (CreateContainerTxn_acl v) ∧ wf_int (CreateContainerTxn_parentCVersion v).

Definition enc_DeleteTxn (v : DeleteTxn) : list byte :=
  enc_string (DeleteTxn_path v).
Definition wf_DeleteTxn (v : DeleteTxn) : Prop :=
  wf_string (DeleteTxn_path v).

Definition enc_SetDataTxn (v : SetDataTxn) : list byte :=
  enc_string (SetDataTxn_path v) ++ enc_buffer (SetDataTxn_data v) ++ enc_int (SetDataTxn_version v).
Definition wf_SetDataTxn (v : SetDataTxn) : Prop :=
  wf_string (SetDataTxn_path v) ∧ wf_buffer (SetDataTxn_data v) ∧ wf_int (SetDataTxn_version v).

Definition enc_CheckVersionTxn (v : CheckVersionTxn) : list byte :=
  enc_string (CheckVersionTxn_path v) ++ enc_int (CheckVersionTxn_version v).
Definition wf_CheckVersionTxn (v : CheckVersionTxn) : Prop :=
  wf_string (CheckVersionTxn_path v) ∧ wf_int (CheckVersionTxn_version v).

Definition enc_SetACLTxn (v : SetACLTxn) : list byte :=
  enc_string (SetACLTxn_path v) ++ enc_ACL_vector (SetACLTxn_acl v) ++ enc_int (SetACLTxn_version v).
Definition wf_SetACLTxn (v : SetACLTxn) : Prop :=
  wf_string (SetACLTxn_path v) ∧ wf_ACL_vector (SetACLTxn_acl v) ∧ wf_int (SetACLTxn_version v).

Definition enc_SetMaxChildrenTxn (v : SetMaxChildrenTxn) : list byte :=
  enc_string (SetMaxChildrenTxn_path v) ++ enc_int (SetMaxChildrenTxn_max v).
Definition wf_SetMaxChildrenTxn (v : SetMaxChildrenTxn) : Prop :=
  wf_string (SetMaxChildrenTxn_path v) ∧ wf_int (SetMaxChildrenTxn_max v).

Definition enc_CreateSessionTxn (v : CreateSessionTxn) : list byte :=
  enc_int (CreateSessionTxn_timeOut v).
Definition wf_CreateSessionTxn (v : CreateSessionTxn) : Prop :=
  wf_int (CreateSessionTxn_timeOut v).

Definition enc_ErrorTxn (v : ErrorTxn) : list byte :=
  enc_int (ErrorTxn_err v).
Definition wf_ErrorTxn (v : ErrorTxn) : Prop :=
  wf_int (ErrorTxn_err v).

Definition enc_Txn (v : Txn) : list byte :=
  enc_int (Txn_type v) ++ enc_buffer (Txn_data v).
Definition wf_Txn (v : Txn) : Prop :=
  wf_int (Txn_type v) ∧ wf_buffer (Txn_data v).

Definition enc_Txn_vector (v : vector Txn) : list byte := enc_vector enc_Txn v.
Definition wf_Txn_vector (v : vector Txn) : Prop := wf_vector wf_Txn v.

Definition enc_MultiTxn (v : MultiTxn) : list byte :=
  enc_Txn_vector (MultiTxn_txns v).
Definition wf_MultiTxn (v : MultiTxn) : Prop :=
  wf_Txn_vector (MultiTxn_txns v).

(** ** Composing the promises of archives *)
Class HeapOK (S : Type) `{IArchiveLaws S} `{!Heap S} := {
  calloc_ok n s bs : 0 ≤ n < 2 ^ 63 → pending s bs →
    ∃ s', calloc n s = (true, s') ∧ pending s' bs;
}.

Create HintDb jute.

Section compose_out.
Context {S A : Type} `{OArchiveOK S}.

Lemma appends_seq f g a b : appends f a → appends g b → appends (f ;? g)%rec (a ++ b).
Proof.
  intros Hf Hg s m Hr Hm. rewrite length_app, Nat2Z.inj_add, <-Z.add_assoc in Hr.
  destruct (Hf s _ Hr) as (s1 & E1 & W1 & R1); [lia|].
  destruct (Hg s1 _ R1 Hm) as (s2 & E2 & W2 & R2).
  exists s2. unfold ser_seq. rewrite E1. run. by rewrite W2, W1, <-app_assoc.
Qed.
Lemma appends_start g b : appends g b → appends (oa_start_record_fn ;? g)%rec b.
Proof. apply (appends_seq _ _ []). apply start_record_appends. Qed.
Lemma appends_end f a : appends f a → appends (f ;? oa_end_record_fn)%rec a.
Proof.
  intros Hf. rewrite <-(app_nil_r a). apply appends_seq; [done|]. apply end_record_appends.
Qed.

Lemma serialize_loop_appends (op : A → S → outcome (Z * S)) e (w : A → Prop) l1 l2 :
  (∀ x, w x → appends (op x) (e x)) → Forall w l2 →
  appends (serialize_loop op (Some (l1 ++ l2)) (length l2) (length l1) 0)
    (concat (e <$> l2)).
Proof.
  intros Hop Hl. revert l1. induction Hl as [|x l2 Hx Hl IH]; intros l1 s m Hr Hm.
  - exists s. split_and!; [done|by rewrite app_nil_r|done].
  - simpl length. cbn [serialize_loop fmap list_fmap concat] in *.
    cbn [mbind option_bind]. rewrite list_lookup_middle by done.
    rewrite length_app, Nat2Z.inj_add, <-Z.add_assoc in Hr.
    destruct (Hop x Hx s _ Hr) as (s1 & E1 & W1 & R1); [lia|]. rewrite E1. run.
    destruct (IH (l1 ++ [x]) s1 m R1 Hm) as (s2 & E2 & W2 & R2).
    rewrite length_app, Nat.add_comm, <-app_assoc in E2. simpl in E2.
    exists s2. by rewrite E2, W2, W1, <-app_assoc.
Qed.

Lemma serialize_vector_appends (op : A → S → outcome (Z * S)) e w v :
  (∀ x, w x → appends (op x) (e x)) → wf_vector w v →
  appends (serialize_vector op v) (enc_vector e v).
Proof.
  destruct v as [n [l|]]; [|done]. intros Hop (Hn & Hmax & Hl) s m Hr Hm.
  unfold enc_vector, serialize_vector in *. cbn [v_count v_data from_option id] in *.
  subst n. rewrite length_app, Nat2Z.inj_add, <-Z.add_assoc in Hr.
  assert (wf_int (Z.of_nat (length l))) as Hw by (unfold wf_int, in_s; lia).
  destruct (start_vector_appends _ Hw s _ Hr) as (s1 & -> & W1 & R1); [lia|]. run.
  rewrite Nat2Z.id.
  destruct (serialize_loop_appends op e w [] l Hop Hl s1 m R1 Hm) as (s2 & E2 & W2 & R2).
  simpl app in E2. simpl length in E2. rewrite E2. run.
  destruct (end_vector_appends s2 m R2 Hm) as (s3 & -> & W3 & R3).
  exists s3. by rewrite W3, app_nil_r, W2, W1, <-app_assoc.
Qed.
End compose_out.

(** [reads_to op f bs]: the operation consumes [bs] and applies [f] to [*v]. *)
Definition reads_to {S A} `{IArchiveLaws S} (op : deser S A) (f : A → A) (bs : list byte)
    : Prop :=
  ∀ old s rest, pending s (bs ++ rest) → ∃ s', op old s = Ret (0, f old, s') ∧ pending s' rest.

Section compose_in.
Context {S A : Type} `{IArchiveOK S}.

Lemma reads_to_seq (p q : deser S A) f g a b :
  reads_to p f a → reads_to q g b → reads_to (p ;! q)%rec (g ∘ f) (a ++ b).
Proof.
  intros Hp Hq old s rest Hs. rewrite <-app_assoc in Hs.
  destruct (Hp old s _ Hs) as (s1 & E1 & P1).
  destruct (Hq (f old) s1 _ P1) as (s2 & E2 & P2).
  exists s2. unfold deser_seq. rewrite E1. run. by rewrite E2.
Qed.
Lemma reads_to_start (q : deser S A) g b :
  reads_to q g b → reads_to (on_archive ia_start_record_fn ;! q)%rec g b.
Proof.
  intros Hq old s rest Hs. unfold deser_seq, on_archive. rewrite ia_start_record_ok.
  run. by apply Hq.
Qed.
Lemma reads_to_end (p : deser S A) f a :
  reads_to p f a → reads_to (p ;! on_archive ia_end_record_fn)%rec f a.
Proof.
  intros Hp old s rest Hs. destruct (Hp old s rest Hs) as (s1 & E1 & P1).
  exists s1. unfold deser_seq, on_archive. rewrite E1. run. by rewrite ia_end_record_ok.
Qed.
Lemma reads_field {B} get set (op : deser S B) x bs :
  reads op x bs → reads_to (on_field (A:=A) get set op) (set x) bs.
Proof.
  intros Hop old s rest Hs. destruct (Hop (get old) s rest Hs) as (s1 & E1 & P1).
  exists s1. unfold on_field. by rewrite E1.
Qed.
Lemma reads_to_reads (op : deser S A) f v bs :
  reads_to op f bs → (∀ old, f old = v) → reads op v bs.
Proof. intros Hop Hf old s rest Hs. rewrite <-(Hf old). by apply Hop. Qed.

Lemma deserialize_loop_reads (op : deser S A) e (w : A → Prop) l zs s rest :
  (∀ x, w x → reads op x (e x)) → Forall w l → length zs = length l →
  pending s (concat (e <$> l) ++ rest) →
  ∃ s', deserialize_loop op zs 0 s = Ret (0, l, s') ∧ pending s' rest.
Proof.
  intros Hop Hl. revert zs s. induction Hl as [|x l Hx Hl IH]; intros [|z zs] s Hz Hs;
    try done; [by exists s|].
  cbn [deserialize_loop fmap list_fmap concat] in *. rewrite <-app_assoc in Hs.
  destruct (Hop x Hx z s _ Hs) as (s1 & E1 & P1). rewrite Z.eqb_refl, E1. run.
  destruct (IH zs s1) as (s2 & E2 & P2); [by simpl in Hz; lia|done|].
  rewrite E2. run. by exists s2.
Qed.

Lemma deserialize_vector_reads `{!Heap S} `{!HeapOK S} (op : deser S A) e w v sz zero :
  0 ≤ sz ≤ 1024 → (∀ x, w x → reads op x (e x)) → wf_vector w v →
  reads (deserialize_vector sz zero op) v (enc_vector e v).
Proof.
  destruct v as [n [l|]]; [|done]. intros Hsz Hop (Hn & Hmax & Hl) old s rest Hs.
  unfold enc_vector, deserialize_vector in *. cbn [v_count v_data from_option id] in *.
  subst n. rewrite <-app_assoc in Hs.
  assert (wf_int (Z.of_nat (length l))) as Hw by (unfold wf_int, in_s; lia).
  destruct (start_vector_reads _ Hw (v_count old) s _ Hs) as (s1 & -> & P1). run.
  rewrite wrap_u_id by (unfold in_u; lia).
  destruct (calloc_ok (Z.of_nat (length l) * sz) s1 _ ltac:(nia) P1) as (s2 & -> & P2).
  destruct (deserialize_loop_reads op e w l (replicate (length l) zero) s2 rest)
    as (s3 & E3 & P3); [done|done|by rewrite length_replicate|done|].
  rewrite Nat2Z.id, E3. run. rewrite ia_end_vector_ok. run. by exists s3.
Qed.
End compose_in.

(** ** Writing with an allocator that may fail *)
Section compose_writes.
Context `{Host} {A : Type}.

Lemma writes_seq f g a b : writes f a → writes g b → writes (f ;? g)%rec (a ++ b).
Proof.
  intros Hf Hg s Hi Hl. rewrite length_app in Hl. unfold ser_seq.
  destruct (Hf s Hi ltac:(lia)) as (s1 & [(E1 & I1 & W1 & O1 & A1)|(E1 & B1 & A1)]);
    rewrite E1; run; [|by exists s1; right].
  destruct (Hg s1 I1 ltac:(lia)) as (s2 & [(E2 & I2 & W2 & O2 & A2)|(E2 & B2 & A2)]);
    exists s2; [left|right].
  - split_and!; [done..| |rewrite length_app; lia|auto]. by rewrite W2, W1, <-app_assoc.
  - split_and!; [done..|naive_solver].
Qed.
Lemma writes_skip op : (∀ s, op s = Ret (0, s)) → writes op [].
Proof.
  intros Hop s Hi Hl. exists s. left. rewrite Hop, app_nil_r. split_and!; [done..| |done].
  simpl. lia.
Qed.
Lemma writes_start g b : writes g b → writes (oa_start_record_fn ;? g)%rec b.
Proof. apply (writes_seq _ _ []). by apply writes_skip. Qed.
Lemma writes_end f a : writes f a → writes (f ;? oa_end_record_fn)%rec a.
Proof.
  intros Hf. rewrite <-(app_nil_r a). apply writes_seq; [done|]. by apply writes_skip.
Qed.

Lemma serialize_loop_failed (op : A → buff_struct → outcome (Z * buff_struct)) d n i rc s :
  rc ≠ 0 → serialize_loop op d n i rc s = Ret (rc, s).
Proof.
  intros Hrc. revert i. induction n as [|n IH]; intros i; [done|].
  cbn [serialize_loop]. rewrite (proj2 (Z.eqb_neq _ _)) by done. run. apply IH.
Qed.

Lemma serialize_loop_writes (op : A → buff_struct → outcome (Z * buff_struct)) e
    (w : A → Prop) l1 l2 :
  (∀ x, w x → writes (op x) (e x)) → Forall w l2 →
  writes (serialize_loop op (Some (l1 ++ l2)) (length l2) (length l1) 0)
    (concat (e <$> l2)).
Proof.
  intros Hop Hl. revert l1. induction Hl as [|x l2 Hx Hl IH]; intros l1.
  - by apply writes_skip.
  - intros s Hi Hlim.
    pose proof (writes_seq _ _ _ _ (Hop x Hx) (IH (l1 ++ [x])) s Hi Hlim) as Hw.
    unfold ser_seq in Hw. rewrite length_app, Nat.add_comm, <-app_assoc in Hw.
    simpl length. cbn [serialize_loop mbind option_bind]. rewrite list_lookup_middle by done.
    rewrite Z.eqb_refl. destruct (op x s) as [[rc s1]| | |]; run; try exact Hw.
    destruct (Z.eqb_spec rc 0) as [->|Hrc]; [exact Hw|].
    rewrite serialize_loop_failed by done.
    cbn [mbind outcome_bind] in Hw. by rewrite (proj2 (Z.eqb_neq _ _)) in Hw.
Qed.

Lemma serialize_vector_writes (op : A → buff_struct → outcome (Z * buff_struct)) e w v :
  (∀ x, w x → writes (op x) (e x)) → wf_vector w v →
  writes (serialize_vector op v) (enc_vector e v).
Proof.
  destruct v as [n [l|]]; [|done]. intros Hop (Hn & Hmax & Hl) s Hi Hlim.
  cbn [v_count] in Hn. subst n.
  pose proof (writes_seq _ _ _ _ (oa_serialize_int_writes (Z.of_nat (length l)))
    (serialize_loop_writes op e w [] l Hop Hl) s Hi Hlim) as Hw.
  unfold ser_seq in Hw. unfold serialize_vector. cbn [v_count v_data].
  cbn [oa_start_vector_fn oa_end_vector_fn oa_default]. unfold oa_start_vector.
  rewrite Nat2Z.id. simpl app in Hw. simpl length in Hw.
  destruct (oa_serialize_int _ s) as [[rc s1]| | |]; cbn [mbind outcome_bind] in *;
    try exact Hw.
  destruct (Z.eqb_spec rc 0) as [->|Hrc].
  - destruct (serialize_loop _ _ _ _ _ _) as [[rc2 s2]| | |]; cbn [mbind outcome_bind];
      try exact Hw. destruct (Z.eqb_spec rc2 0) as [->|]; exact Hw.
  - rewrite serialize_loop_failed by done. cbn [mbind outcome_bind].
    rewrite (proj2 (Z.eqb_neq _ _)) by done. exact Hw.
Qed.
End compose_writes.

(** ** The safety of composed readers *)
Section compose_safe.
Context `{Host} {A : Type}.

Lemma safe_seq (p q : deser buff_struct A) : safe p → safe q → safe (p ;! q)%rec.
Proof.
  intros Hp Hq v s Hi. unfold deser_seq. apply safe_bind; [by apply Hp|]. intros rc v1 s1 _ [Hi1 _ _ _ _].
  case_test; [by apply Hq|by apply fail_safe].
Qed.
Lemma safe_field {B} get set (op : deser buff_struct B) :
  safe op → safe (on_field (A:=A) get set op).
Proof.
  intros Hop v s Hi. unfold on_field. apply safe_bind; [by apply Hop|]. intros rc v1 s1 _ [Hi1 _ _ _ _].
  by apply fail_safe.
Qed.
Lemma safe_skip op : (∀ s, op s = Ret (0, s)) → safe (A:=A) (on_archive op).
Proof. intros Hop v s Hi. unfold on_archive. rewrite Hop. run. by apply fail_safe. Qed.

Lemma deserialize_loop_safe (op : deser buff_struct A) :
  safe op → ∀ rc, safe (λ l, deserialize_loop op l rc).
Proof.
  intros Hop rc l. revert rc. induction l as [|x l IH]; intros rc s Hi; cbn [deserialize_loop];
    [by apply fail_safe|].
  apply safe_bind; [case_test; [by apply Hop|by apply fail_safe]|]. intros rc1 x1 s1 _ [Hi1 _ _ _ _].
  apply safe_bind; [by apply IH|]. intros rc2 l2 s2 _ [Hi2 _ _ _ _]. by apply fail_safe.
Qed.

(** The [calloc] of a vector is not tested: if it is refused for a vector that is not
    empty, the first element is written through NULL. *)
Lemma deserialize_vector_safe sz zero (op : deser buff_struct A) :
  0 ≤ sz ≤ 1024 → safe op → safe (deserialize_vector sz zero op).
Proof.
  intros Hsz Hop v s Hi. unfold deserialize_vector.
  cbn [ia_start_vector_fn ia_end_vector_fn ia_default calloc buff_struct_heap].
  apply safe_bind; [by apply ia_deserialize_int_safe|]. intros rc n s1 E1 [Hi1 _ _ _ _].
  destruct (alloc_bytes_cases (size_t n * sz) s1) as (ok & o & -> & Ho & Hok).
  pose proof (further_set_alloc s1 o Hi1 Ho) as Hf. destruct ok.
  - apply (safe_after s1 _ _ Hf). apply safe_bind; [by apply deserialize_loop_safe, Hf|].
    intros rc2 l2 s2 _ [Hi2 _ _ _ _]. by apply fail_safe.
  - destruct Hok as [[? _]|[_ Hok]]; [done|]. case_test; [|exact Hf]. destruct Hok as [Hn|Hr]; [exfalso|exact Hr].
    bool_to_prop. destruct E as [-> Hpos]. apply ia_deserialize_int_range in E1; [|done]. unfold in_s in E1.
    rewrite wrap_u_id in Hn by (unfold in_u; lia). nia.
Qed.
End compose_safe.

#[export] Hint Resolve serialize_Bool_appends serialize_Int_appends serialize_Long_appends
  serialize_Buffer_appends serialize_String_appends : jute.
#[export] Hint Resolve deserialize_Bool_reads deserialize_Int_reads deserialize_Long_reads
  deserialize_Buffer_reads deserialize_String_reads : jute.

Lemma wf_string_weaken s : wf_string s → wf_string_out s.
Proof. destruct s; simpl; [lia|done]. Qed.
#[export] Hint Resolve wf_string_weaken : jute.

(** A record is written, read and read safely field after field. *)
Ltac record_appends :=
  intros ?; destruct_and?; apply appends_start;
  repeat first [apply appends_end; solve [eauto 3 with jute nocore]
               |apply appends_seq; [solve [eauto 3 with jute nocore]|]].
Ltac vector_appends :=
  intros ?; eapply serialize_vector_appends; [|eassumption]; eauto 3 with jute nocore.
Ltac record_reads :=
  intros ?; destruct_and?; eapply reads_to_reads;
  [apply reads_to_start;
   repeat first [apply reads_to_end; eapply reads_field; solve [eauto 2 with jute nocore]
                |eapply reads_to_seq;
                 [eapply reads_field; solve [eauto 2 with jute nocore]|]]
  |intros []; by match goal with |- _ = ?v => destruct v end].
Ltac vector_reads :=
  intros ?; eapply deserialize_vector_reads; [lia| |eassumption]; eauto 2 with jute nocore.
Ltac field_safe :=
  first [exact ia_deserialize_int_safe|exact ia_deserialize_long_safe
        |exact ia_deserialize_bool_safe|exact ia_deserialize_buffer_safe
        |exact ia_deserialize_string_safe|solve [auto 2 with jute nocore]].
Ltac record_safe :=
  repeat (apply safe_seq); first [by apply safe_skip|apply safe_field; field_safe].
Ltac vector_safe := apply deserialize_vector_safe; [lia|field_safe].

Ltac field_writes :=
  match goal with
  | |- writes (serialize_Int ?z) _ => exact (oa_serialize_int_writes z)
  | |- writes (serialize_Long ?z) _ => exact (oa_serialize_long_writes z)
  | |- writes (serialize_Bool ?z) _ => exact (oa_serialize_bool_writes z)
  | |- writes (serialize_Buffer _) _ => apply oa_serialize_buffer_writes; assumption
  | |- writes (serialize_String _) _ => apply oa_string_writes; assumption
  | |- _ => solve [auto 3 with jute nocore]
  end.
Ltac record_writes :=
  intros ?; destruct_and?; apply writes_start;
  repeat first [apply writes_end; field_writes|apply writes_seq; [field_writes|]].
Ltac vector_writes :=
  intros ?; eapply serialize_vector_writes; [|eassumption]; intros; field_writes.

(** ** Every record *)

Section records_append.
Context {S : Type} `{OArchiveOK S}.

Lemma serialize_Id_appends (v : Id) : wf_Id v → appends (serialize_Id v) (enc_Id v).
Proof. unfold serialize_Id, enc_Id, wf_Id. record_appends. Qed.
#[local] Hint Resolve serialize_Id_appends : jute.
Lemma serialize_ACL_appends (v : ACL) : wf_ACL v → appends (serialize_ACL v) (enc_ACL v).
Proof. unfold serialize_ACL, enc_ACL, wf_ACL. record_appends. Qed.
#[local] Hint Resolve serialize_ACL_appends : jute.
Lemma serialize_Stat_appends (v : Stat) : wf_Stat v → appends (serialize_Stat v) (enc_Stat v).
Proof. unfold serialize_Stat, enc_Stat, wf_Stat. record_appends. Qed.
#[local] Hint Resolve serialize_Stat_appends : jute.
Lemma serialize_StatPersisted_appends (v : StatPersisted) : wf_StatPersisted v → appends (serialize_StatPersisted v) (enc_StatPersisted v).
Proof. unfold serialize_StatPersisted, enc_StatPersisted, wf_StatPersisted. record_appends. Qed.
#[local] Hint Resolve serialize_StatPersisted_appends : jute.
Lemma serialize_ConnectRequest_appends (v : ConnectRequest) : wf_ConnectRequest v → appends (serialize_ConnectRequest v) (enc_ConnectRequest v).
Proof. unfold serialize_ConnectRequest, enc_ConnectRequest, wf_ConnectRequest. record_appends. Qed.
#[local] Hint Resolve serialize_ConnectRequest_appends : jute.
Lemma serialize_ConnectResponse_appends (v : ConnectResponse) : wf_ConnectResponse v → appends (serialize_ConnectResponse v) (enc_ConnectResponse v).
Proof. unfold serialize_ConnectResponse, enc_ConnectResponse, wf_ConnectResponse. record_appends. Qed.
#[local] Hint Resolve serialize_ConnectResponse_appends : jute.
Lemma serialize_String_vector_appends (v : vector (option cstring)) : wf_String_vector v → appends (serialize_String_vector v) (enc_String_vector v).
Proof. unfold serialize_String_vector, enc_String_vector, wf_String_vector. vector_appends. Qed.
#[local] Hint Resolve serialize_String_vector_appends : jute.
Lemma serialize_SetWatches_appends (v : SetWatches) : wf_SetWatches v → appends (serialize_SetWatches v) (enc_SetWatches v).
Proof. unfold serialize_SetWatches, enc_SetWatches, wf_SetWatches. record_appends. Qed.
#[local] Hint Resolve serialize_SetWatches_appends : jute.
Lemma serialize_RequestHeader_appends (v : RequestHeader) : wf_RequestHeader v → appends (serialize_RequestHeader v) (enc_RequestHeader v).
Proof. unfold serialize_RequestHeader, enc_RequestHeader, wf_RequestHeader. record_appends. Qed.
#[local] Hint Resolve serialize_RequestHeader_appends : jute.
Lemma serialize_MultiHeader_appends (v : MultiHeader) : wf_MultiHeader v → appends (serialize_MultiHeader v) (enc_MultiHeader v).
Proof. unfold serialize_MultiHeader, enc_MultiHeader, wf_MultiHeader. record_appends. Qed.
#[local] Hint Resolve serialize_MultiHeader_appends : jute.
Lemma serialize_AuthPacket_appends (v : AuthPacket) : wf_AuthPacket v → appends (serialize_AuthPacket v) (enc_AuthPacket v).
Proof. unfold serialize_AuthPacket, enc_AuthPacket, wf_AuthPacket. record_appends. Qed.
#[local] Hint Resolve serialize_AuthPacket_appends : jute.
Lemma serialize_ReplyHeader_appends (v : ReplyHeader) : wf_ReplyHeader v → appends (serialize_ReplyHeader v) (enc_ReplyHeader v).
Proof. unfold serialize_ReplyHeader, enc_ReplyHeader, wf_ReplyHeader. record_appends. Qed.
#[local] Hint Resolve serialize_ReplyHeader_appends : jute.
Lemma serialize_GetDataRequest_appends (v : GetDataRequest) : wf_GetDataRequest v → appends (serialize_GetDataRequest v) (enc_GetDataRequest v).
Proof. unfold serialize_GetDataRequest, enc_GetDataRequest, wf_GetDataRequest. record_appends. Qed.
#[local] Hint Resolve serialize_GetDataRequest_appends : jute.
Lemma serialize_SetDataRequest_appends (v : SetDataRequest) : wf_SetDataRequest v → appends (serialize_SetDataRequest v) (enc_SetDataRequest v).
Proof. unfold serialize_SetDataRequest, enc_SetDataRequest, wf_SetDataRequest. record_appends. Qed.
#[local] Hint Resolve serialize_SetDataRequest_appends : jute.
Lemma serialize_ReconfigRequest_appends (v : ReconfigRequest) : wf_ReconfigRequest v → appends (serialize_ReconfigRequest v) (enc_ReconfigRequest v).
Proof. unfold serialize_ReconfigRequest, enc_ReconfigRequest, wf_ReconfigRequest. record_appends. Qed.
#[local] Hint Resolve serialize_ReconfigRequest_appends : jute.
Lemma serialize_SetDataResponse_appends (v : SetDataResponse) : wf_SetDataResponse v → appends (serialize_SetDataResponse v) (enc_SetDataResponse v).
Proof. unfold serialize_SetDataResponse, enc_SetDataResponse, wf_SetDataResponse. record_appends. Qed.
#[local] Hint Resolve serialize_SetDataResponse_appends : jute.
Lemma serialize_GetSASLRequest_appends (v : GetSASLRequest) : wf_GetSASLRequest v → appends (serialize_GetSASLRequest v) (enc_GetSASLRequest v).
Proof. unfold serialize_GetSASLRequest, enc_GetSASLRequest, wf_GetSASLRequest. record_appends. Qed.
#[local] Hint Resolve serialize_GetSASLRequest_appends : jute.
Lemma serialize_SetSASLRequest_appends (v : SetSASLRequest) : wf_SetSASLRequest v → appends (serialize_SetSASLRequest v) (enc_SetSASLRequest v).
Proof. unfold serialize_SetSASLRequest, enc_SetSASLRequest, wf_SetSASLRequest. record_appends. Qed.
#[local] Hint Resolve serialize_SetSASLRequest_appends : jute.
Lemma serialize_SetSASLResponse_appends (v : SetSASLResponse) : wf_SetSASLResponse v → appends (serialize_SetSASLResponse v) (enc_SetSASLResponse v).
Proof. unfold serialize_SetSASLResponse, enc_SetSASLResponse, wf_SetSASLResponse. record_appends. Qed.
#[local] Hint Resolve serialize_SetSASLResponse_appends : jute.
Lemma serialize_ACL_vector_appends (v : vector ACL) : wf_ACL_vector v → appends (serialize_ACL_vector v) (enc_ACL_vector v).
Proof. unfold serialize_ACL_vector, enc_ACL_vector, wf_ACL_vector. vector_appends. Qed.
#[local] Hint Resolve serialize_ACL_vector_appends : jute.
Lemma serialize_CreateRequest_appends (v : CreateRequest) : wf_CreateRequest v → appends (serialize_CreateRequest v) (enc_CreateRequest v).
Proof. unfold serialize_CreateRequest, enc_CreateRequest, wf_CreateRequest. record_appends. Qed.
#[local] Hint Resolve serialize_CreateRequest_appends : jute.
Lemma serialize_CreateTTLRequest_appends (v : CreateTTLRequest) : wf_CreateTTLRequest v → appends (serialize_CreateTTLRequest v) (enc_CreateTTLRequest v).
Proof. unfold serialize_CreateTTLRequest, enc_CreateTTLRequest, wf_CreateTTLRequest. record_appends. Qed.
#[local] Hint Resolve serialize_CreateTTLRequest_appends : jute.
Lemma serialize_DeleteRequest_appends (v : DeleteRequest) : wf_DeleteRequest v → appends (serialize_DeleteRequest v) (enc_DeleteRequest v).
Proof. unfold serialize_DeleteRequest, enc_DeleteRequest, wf_DeleteRequest. record_appends. Qed.
#[local] Hint Resolve serialize_DeleteRequest_appends : jute.
Lemma serialize_GetChildrenRequest_appends (v : GetChildrenRequest) : wf_GetChildrenRequest v → appends (serialize_GetChildrenRequest v) (enc_GetChildrenRequest v).
Proof. unfold serialize_GetChildrenRequest, enc_GetChildrenRequest, wf_GetChildrenRequest. record_appends. Qed.
#[local] Hint Resolve serialize_GetChildrenRequest_appends : jute.
Lemma serialize_GetChildren2Request_appends (v : GetChildren2Request) : wf_GetChildren2Request v → appends (serialize_GetChildren2Request v) (enc_GetChildren2Request v).
Proof. unfold serialize_GetChildren2Request, enc_GetChildren2Request, wf_GetChildren2Request. record_appends. Qed.
#[local] Hint Resolve serialize_GetChildren2Request_appends : jute.
Lemma serialize_CheckVersionRequest_appends (v : CheckVersionRequest) : wf_CheckVersionRequest v → appends (serialize_CheckVersionRequest v) (enc_CheckVersionRequest v).
Proof. unfold serialize_CheckVersionRequest, enc_CheckVersionRequest, wf_CheckVersionRequest. record_appends. Qed.
#[local] Hint Resolve serialize_CheckVersionRequest_appends : jute.
Lemma serialize_GetMaxChildrenRequest_appends (v : GetMaxChildrenRequest) : wf_GetMaxChildrenRequest v → appends (serialize_GetMaxChildrenRequest v) (enc_GetMaxChildrenRequest v).
Proof. unfold serialize_GetMaxChildrenRequest, enc_GetMaxChildrenRequest, wf_GetMaxChildrenRequest. record_appends. Qed.
#[local] Hint Resolve serialize_GetMaxChildrenRequest_appends : jute.
Lemma serialize_GetMaxChildrenResponse_appends (v : GetMaxChildrenResponse) : wf_GetMaxChildrenResponse v → appends (serialize_GetMaxChildrenResponse v) (enc_GetMaxChildrenResponse v).
Proof. unfold serialize_GetMaxChildrenResponse, enc_GetMaxChildrenResponse, wf_GetMaxChildrenResponse. record_appends. Qed.
#[local] Hint Resolve serialize_GetMaxChildrenResponse_appends : jute.
Lemma serialize_SetMaxChildrenRequest_appends (v : SetMaxChildrenRequest) : wf_SetMaxChildrenRequest v → appends (serialize_SetMaxChildrenRequest v) (enc_SetMaxChildrenRequest v).
Proof. unfold serialize_SetMaxChildrenRequest, enc_SetMaxChildrenRequest, wf_SetMaxChildrenRequest. record_appends. Qed.
#[local] Hint Resolve serialize_SetMaxChildrenRequest_appends : jute.
Lemma serialize_SyncRequest_appends (v : SyncRequest) : wf_SyncRequest v → appends (serialize_SyncRequest v) (enc_SyncRequest v).
Proof. unfold serialize_SyncRequest, enc_SyncRequest, wf_SyncRequest. record_appends. Qed.
#[local] Hint Resolve serialize_SyncRequest_appends : jute.
Lemma serialize_SyncResponse_appends (v : SyncResponse) : wf_SyncResponse v → appends (serialize_SyncResponse v) (enc_SyncResponse v).
Proof. unfold serialize_SyncResponse, enc_SyncResponse, wf_SyncResponse. record_appends. Qed.
#[local] Hint Resolve serialize_SyncResponse_appends : jute.
Lemma serialize_GetACLRequest_appends (v : GetACLRequest) : wf_GetACLRequest v → appends (serialize_GetACLRequest v) (enc_GetACLRequest v).
Proof. unfold serialize_GetACLRequest, enc_GetACLRequest, wf_GetACLRequest. record_appends. Qed.
#[local] Hint Resolve serialize_GetACLRequest_appends : jute.
Lemma serialize_SetACLRequest_appends (v : SetACLRequest) : wf_SetACLRequest v → appends (serialize_SetACLRequest v) (enc_SetACLRequest v).
Proof. unfold serialize_SetACLRequest, enc_SetACLRequest, wf_SetACLRequest. record_appends. Qed.
#[local] Hint Resolve serialize_SetACLRequest_appends : jute.
Lemma serialize_SetACLResponse_appends (v : SetACLResponse) : wf_SetACLResponse v → appends (serialize_SetACLResponse v) (enc_SetACLResponse v).
Proof. unfold serialize_SetACLResponse, enc_SetACLResponse, wf_SetACLResponse. record_appends. Qed.
#[local] Hint Resolve serialize_SetACLResponse_appends : jute.
Lemma serialize_WatcherEvent_appends (v : WatcherEvent) : wf_WatcherEvent v → appends (serialize_WatcherEvent v) (enc_WatcherEvent v).
Proof. unfold serialize_WatcherEvent, enc_WatcherEvent, wf_WatcherEvent. record_appends. Qed.
#[local] Hint Resolve serialize_WatcherEvent_appends : jute.
Lemma serialize_ErrorResponse_appends (v : ErrorResponse) : wf_ErrorResponse v → appends (serialize_ErrorResponse v) (enc_ErrorResponse v).
Proof. unfold serialize_ErrorResponse, enc_ErrorResponse, wf_ErrorResponse. record_appends. Qed.
#[local] Hint Resolve serialize_ErrorResponse_appends : jute.
Lemma serialize_CreateResponse_appends (v : CreateResponse) : wf_CreateResponse v → appends (serialize_CreateResponse v) (enc_CreateResponse v).
Proof. unfold serialize_CreateResponse, enc_CreateResponse, wf_CreateResponse. record_appends. Qed.
#[local] Hint Resolve serialize_CreateResponse_appends : jute.
Lemma serialize_Create2Response_appends (v : Create2Response) : wf_Create2Response v → appends (serialize_Create2Response v) (enc_Create2Response v).
Proof. unfold serialize_Create2Response, enc_Create2Response, wf_Create2Response. record_appends. Qed.
#[local] Hint Resolve serialize_Create2Response_appends : jute.
Lemma serialize_ExistsRequest_appends (v : ExistsRequest) : wf_ExistsRequest v → appends (serialize_ExistsRequest v) (enc_ExistsRequest v).
Proof. unfold serialize_ExistsRequest, enc_ExistsRequest, wf_ExistsRequest. record_appends. Qed.
#[local] Hint Resolve serialize_ExistsRequest_appends : jute.
Lemma serialize_ExistsResponse_appends (v : ExistsResponse) : wf_ExistsResponse v → appends (serialize_ExistsResponse v) (enc_ExistsResponse v).
Proof. unfold serialize_ExistsResponse, enc_ExistsResponse, wf_ExistsResponse. record_appends. Qed.
#[local] Hint Resolve serialize_ExistsResponse_appends : jute.
Lemma serialize_GetDataResponse_appends (v : GetDataResponse) : wf_GetDataResponse v → appends (serialize_GetDataResponse v) (enc_GetDataResponse v).
Proof. unfold serialize_GetDataResponse, enc_GetDataResponse, wf_GetDataResponse. record_appends. Qed.
#[local] Hint Resolve serialize_GetDataResponse_appends : jute.
Lemma serialize_GetChildrenResponse_appends (v : GetChildrenResponse) : wf_GetChildrenResponse v → appends (serialize_GetChildrenResponse v) (enc_GetChildrenResponse v).
Proof. unfold serialize_GetChildrenResponse, enc_GetChildrenResponse, wf_GetChildrenResponse. record_appends. Qed.
#[local] Hint Resolve serialize_GetChildrenResponse_appends : jute.
Lemma serialize_GetChildren2Response_appends (v : GetChildren2Response) : wf_GetChildren2Response v → appends (serialize_GetChildren2Response v) (enc_GetChildren2Response v).
Proof. unfold serialize_GetChildren2Response, enc_GetChildren2Response, wf_GetChildren2Response. record_appends. Qed.
#[local] Hint Resolve serialize_GetChildren2Response_appends : jute.
Lemma serialize_GetACLResponse_appends (v : GetACLResponse) : wf_GetACLResponse v → appends (serialize_GetACLResponse v) (enc_GetACLResponse v).
Proof. unfold serialize_GetACLResponse, enc_GetACLResponse, wf_GetACLResponse. record_appends. Qed.
#[local] Hint Resolve serialize_GetACLResponse_appends : jute.
Lemma serialize_CheckWatchesRequest_appends (v : CheckWatchesRequest) : wf_CheckWatchesRequest v → appends (serialize_CheckWatchesRequest v) (enc_CheckWatchesRequest v).
Proof. unfold serialize_CheckWatchesRequest, enc_CheckWatchesRequest, wf_CheckWatchesRequest. record_appends. Qed.
#[local] Hint Resolve serialize_CheckWatchesRequest_appends : jute.
Lemma serialize_RemoveWatchesRequest_appends (v : RemoveWatchesRequest) : wf_RemoveWatchesRequest v → appends (serialize_RemoveWatchesRequest v) (enc_RemoveWatchesRequest v).
Proof. unfold serialize_RemoveWatchesRequest, enc_RemoveWatchesRequest, wf_RemoveWatchesRequest. record_appends. Qed.
#[local] Hint Resolve serialize_RemoveWatchesRequest_appends : jute.
Lemma serialize_LearnerInfo_appends (v : LearnerInfo) : wf_LearnerInfo v → appends (serialize_LearnerInfo v) (enc_LearnerInfo v).
Proof. unfold serialize_LearnerInfo, enc_LearnerInfo, wf_LearnerInfo. record_appends. Qed.
#[local] Hint Resolve serialize_LearnerInfo_appends : jute.
Lemma serialize_Id_vector_appends (v : vector Id) : wf_Id_vector v → appends (serialize_Id_vector v) (enc_Id_vector v).
Proof. unfold serialize_Id_vector, enc_Id_vector, wf_Id_vector. vector_appends. Qed.
#[local] Hint Resolve serialize_Id_vector_appends : jute.
Lemma serialize_QuorumPacket_appends (v : QuorumPacket) : wf_QuorumPacket v → appends (serialize_QuorumPacket v) (enc_QuorumPacket v).
Proof. unfold serialize_QuorumPacket, enc_QuorumPacket, wf_QuorumPacket. record_appends. Qed.
#[local] Hint Resolve serialize_QuorumPacket_appends : jute.
Lemma serialize_QuorumAuthPacket_appends (v : QuorumAuthPacket) : wf_QuorumAuthPacket v → appends (serialize_QuorumAuthPacket v) (enc_QuorumAuthPacket v).
Proof. unfold serialize_QuorumAuthPacket, enc_QuorumAuthPacket, wf_QuorumAuthPacket. record_appends. Qed.
#[local] Hint Resolve serialize_QuorumAuthPacket_appends : jute.
Lemma serialize_FileHeader_appends (v : FileHeader) : wf_FileHeader v → appends (serialize_FileHeader v) (enc_FileHeader v).
Proof. unfold serialize_FileHeader, enc_FileHeader, wf_FileHeader. record_appends. Qed.
#[local] Hint Resolve serialize_FileHeader_appends : jute.
Lemma serialize_TxnHeader_appends (v : TxnHeader) : wf_TxnHeader v → appends (serialize_TxnHeader v) (enc_TxnHeader v).
Proof. unfold serialize_TxnHeader, enc_TxnHeader, wf_TxnHeader. record_appends. Qed.
#[local] Hint Resolve serialize_TxnHeader_appends : jute.
Lemma serialize_CreateTxnV0_appends (v : CreateTxnV0) : wf_CreateTxnV0 v → appends (serialize_CreateTxnV0 v) (enc_CreateTxnV0 v).
Proof. unfold serialize_CreateTxnV0, enc_CreateTxnV0, wf_CreateTxnV0. record_appends. Qed.
#[local] Hint Resolve serialize_CreateTxnV0_appends : jute.
Lemma serialize_CreateTxn_appends (v : CreateTxn) : wf_CreateTxn v → appends (serialize_CreateTxn v) (enc_CreateTxn v).
Proof. unfold serialize_CreateTxn, enc_CreateTxn, wf_CreateTxn. record_appends. Qed.
#[local] Hint Resolve serialize_CreateTxn_appends : jute.
Lemma serialize_CreateTTLTxn_appends (v : CreateTTLTxn) : wf_CreateTTLTxn v → appends (serialize_CreateTTLTxn v) (enc_CreateTTLTxn v).
Proof. unfold serialize_CreateTTLTxn, enc_CreateTTLTxn, wf_CreateTTLTxn. record_appends. Qed.
#[local] Hint Resolve serialize_CreateTTLTxn_appends : jute.
Lemma serialize_CreateContainerTxn_appends (v : CreateContainerTxn) : wf_CreateContainerTxn v → appends (serialize_CreateContainerTxn v) (enc_CreateContainerTxn v).
Proof. unfold serialize_CreateContainerTxn, enc_CreateContainerTxn, wf_CreateContainerTxn. record_appends. Qed.
#[local] Hint Resolve serialize_CreateContainerTxn_appends : jute.
Lemma serialize_DeleteTxn_appends (v : DeleteTxn) : wf_DeleteTxn v → appends (serialize_DeleteTxn v) (enc_DeleteTxn v).
Proof. unfold serialize_DeleteTxn, enc_DeleteTxn, wf_DeleteTxn. record_appends. Qed.
#[local] Hint Resolve serialize_DeleteTxn_appends : jute.
Lemma serialize_SetDataTxn_appends (v : SetDataTxn) : wf_SetDataTxn v → appends (serialize_SetDataTxn v) (enc_SetDataTxn v).
Proof. unfold serialize_SetDataTxn, enc_SetDataTxn, wf_SetDataTxn. record_appends. Qed.
#[local] Hint Resolve serialize_SetDataTxn_appends : jute.
Lemma serialize_CheckVersionTxn_appends (v : CheckVersionTxn) : wf_CheckVersionTxn v → appends (serialize_CheckVersionTxn v) (enc_CheckVersionTxn v).
Proof. unfold serialize_CheckVersionTxn, enc_CheckVersionTxn, wf_CheckVersionTxn. record_appends. Qed.
#[local] Hint Resolve serialize_CheckVersionTxn_appends : jute.
Lemma serialize_SetACLTxn_appends (v : SetACLTxn) : wf_SetACLTxn v → appends (serialize_SetACLTxn v) (enc_SetACLTxn v).
Proof. unfold serialize_SetACLTxn, enc_SetACLTxn, wf_SetACLTxn. record_appends. Qed.
#[local] Hint Resolve serialize_SetACLTxn_appends : jute.
Lemma serialize_SetMaxChildrenTxn_appends (v : SetMaxChildrenTxn) : wf_SetMaxChildrenTxn v → appends (serialize_SetMaxChildrenTxn v) (enc_SetMaxChildrenTxn v).
Proof. unfold serialize_SetMaxChildrenTxn, enc_SetMaxChildrenTxn, wf_SetMaxChildrenTxn. record_appends. Qed.
#[local] Hint Resolve serialize_SetMaxChildrenTxn_appends : jute.
Lemma serialize_CreateSessionTxn_appends (v : CreateSessionTxn) : wf_CreateSessionTxn v → appends (serialize_CreateSessionTxn v) (enc_CreateSessionTxn v).
Proof. unfold serialize_CreateSessionTxn, enc_CreateSessionTxn, wf_CreateSessionTxn. record_appends. Qed.
#[local] Hint Resolve serialize_CreateSessionTxn_appends : jute.
Lemma serialize_ErrorTxn_appends (v : ErrorTxn) : wf_ErrorTxn v → appends (serialize_ErrorTxn v) (enc_ErrorTxn v).
Proof. unfold serialize_ErrorTxn, enc_ErrorTxn, wf_ErrorTxn. record_appends. Qed.
#[local] Hint Resolve serialize_ErrorTxn_appends : jute.
Lemma serialize_Txn_appends (v : Txn) : wf_Txn v → appends (serialize_Txn v) (enc_Txn v).
Proof. unfold serialize_Txn, enc_Txn, wf_Txn. record_appends. Qed.
#[local] Hint Resolve serialize_Txn_appends : jute.
Lemma serialize_Txn_vector_appends (v : vector Txn) : wf_Txn_vector v → appends (serialize_Txn_vector v) (enc_Txn_vector v).
Proof. unfold serialize_Txn_vector, enc_Txn_vector, wf_Txn_vector. vector_appends. Qed.
#[local] Hint Resolve serialize_Txn_vector_appends : jute.
Lemma serialize_MultiTxn_appends (v : MultiTxn) : wf_MultiTxn v → appends (serialize_MultiTxn v) (enc_MultiTxn v).
Proof. unfold serialize_MultiTxn, enc_MultiTxn, wf_MultiTxn. record_appends. Qed.
#[local] Hint Resolve serialize_MultiTxn_appends : jute.
End records_append.

Section records_read.
Context {S : Type} `{IArchiveOK S} `{!Heap S} `{!HeapOK S}.

Lemma deserialize_Id_reads (v : Id) : wf_Id v → reads deserialize_Id v (enc_Id v).
Proof. unfold deserialize_Id, enc_Id, wf_Id. record_reads. Qed.
#[local] Hint Resolve deserialize_Id_reads : jute.
Lemma deserialize_ACL_reads (v : ACL) : wf_ACL v → reads deserialize_ACL v (enc_ACL v).
Proof. unfold deserialize_ACL, enc_ACL, wf_ACL. record_reads. Qed.
#[local] Hint Resolve deserialize_ACL_reads : jute.
Lemma deserialize_Stat_reads (v : Stat) : wf_Stat v → reads deserialize_Stat v (enc_Stat v).
Proof. unfold deserialize_Stat, enc_Stat, wf_Stat. record_reads. Qed.
#[local] Hint Resolve deserialize_Stat_reads : jute.
Lemma deserialize_StatPersisted_reads (v : StatPersisted) : wf_StatPersisted v → reads deserialize_StatPersisted v (enc_StatPersisted v).
Proof. unfold deserialize_StatPersisted, enc_StatPersisted, wf_StatPersisted. record_reads. Qed.
#[local] Hint Resolve deserialize_StatPersisted_reads : jute.
Lemma deserialize_ConnectRequest_reads (v : ConnectRequest) : wf_ConnectRequest v → reads deserialize_ConnectRequest v (enc_ConnectRequest v).
Proof. unfold deserialize_ConnectRequest, enc_ConnectRequest, wf_ConnectRequest. record_reads. Qed.
#[local] Hint Resolve deserialize_ConnectRequest_reads : jute.
Lemma deserialize_ConnectResponse_reads (v : ConnectResponse) : wf_ConnectResponse v → reads deserialize_ConnectResponse v (enc_ConnectResponse v).
Proof. unfold deserialize_ConnectResponse, enc_ConnectResponse, wf_ConnectResponse. record_reads. Qed.
#[local] Hint Resolve deserialize_ConnectResponse_reads : jute.
Lemma deserialize_String_vector_reads (v : vector (option cstring)) : wf_String_vector v → reads deserialize_String_vector v (enc_String_vector v).
Proof. unfold deserialize_String_vector, enc_String_vector, wf_String_vector. vector_reads. Qed.
#[local] Hint Resolve deserialize_String_vector_reads : jute.
Lemma deserialize_SetWatches_reads (v : SetWatches) : wf_SetWatches v → reads deserialize_SetWatches v (enc_SetWatches v).
Proof. unfold deserialize_SetWatches, enc_SetWatches, wf_SetWatches. record_reads. Qed.
#[local] Hint Resolve deserialize_SetWatches_reads : jute.
Lemma deserialize_RequestHeader_reads (v : RequestHeader) : wf_RequestHeader v → reads deserialize_RequestHeader v (enc_RequestHeader v).
Proof. unfold deserialize_RequestHeader, enc_RequestHeader, wf_RequestHeader. record_reads. Qed.
#[local] Hint Resolve deserialize_RequestHeader_reads : jute.
Lemma deserialize_MultiHeader_reads (v : MultiHeader) : wf_MultiHeader v → reads deserialize_MultiHeader v (enc_MultiHeader v).
Proof. unfold deserialize_MultiHeader, enc_MultiHeader, wf_MultiHeader. record_reads. Qed.
#[local] Hint Resolve deserialize_MultiHeader_reads : jute.
Lemma deserialize_AuthPacket_reads (v : AuthPacket) : wf_AuthPacket v → reads deserialize_AuthPacket v (enc_AuthPacket v).
Proof. unfold deserialize_AuthPacket, enc_AuthPacket, wf_AuthPacket. record_reads. Qed.
#[local] Hint Resolve deserialize_AuthPacket_reads : jute.
Lemma deserialize_ReplyHeader_reads (v : ReplyHeader) : wf_ReplyHeader v → reads deserialize_ReplyHeader v (enc_ReplyHeader v).
Proof. unfold deserialize_ReplyHeader, enc_ReplyHeader, wf_ReplyHeader. record_reads. Qed.
#[local] Hint Resolve deserialize_ReplyHeader_reads : jute.
Lemma deserialize_GetDataRequest_reads (v : GetDataRequest) : wf_GetDataRequest v → reads deserialize_GetDataRequest v (enc_GetDataRequest v).
Proof. unfold deserialize_GetDataRequest, enc_GetDataRequest, wf_GetDataRequest. record_reads. Qed.
#[local] Hint Resolve deserialize_GetDataRequest_reads : jute.
Lemma deserialize_SetDataRequest_reads (v : SetDataRequest) : wf_SetDataRequest v → reads deserialize_SetDataRequest v (enc_SetDataRequest v).
Proof. unfold deserialize_SetDataRequest, enc_SetDataRequest, wf_SetDataRequest. record_reads. Qed.
#[local] Hint Resolve deserialize_SetDataRequest_reads : jute.
Lemma deserialize_ReconfigRequest_reads (v : ReconfigRequest) : wf_ReconfigRequest v → reads deserialize_ReconfigRequest v (enc_ReconfigRequest v).
Proof. unfold deserialize_ReconfigRequest, enc_ReconfigRequest, wf_ReconfigRequest. record_reads. Qed.
#[local] Hint Resolve deserialize_ReconfigRequest_reads : jute.
Lemma deserialize_SetDataResponse_reads (v : SetDataResponse) : wf_SetDataResponse v → reads deserialize_SetDataResponse v (enc_SetDataResponse v).
Proof. unfold deserialize_SetDataResponse, enc_SetDataResponse, wf_SetDataResponse. record_reads. Qed.
#[local] Hint Resolve deserialize_SetDataResponse_reads : jute.
Lemma deserialize_GetSASLRequest_reads (v : GetSASLRequest) : wf_GetSASLRequest v → reads deserialize_GetSASLRequest v (enc_GetSASLRequest v).
Proof. unfold deserialize_GetSASLRequest, enc_GetSASLRequest, wf_GetSASLRequest. record_reads. Qed.
#[local] Hint Resolve deserialize_GetSASLRequest_reads : jute.
Lemma deserialize_SetSASLRequest_reads (v : SetSASLRequest) : wf_SetSASLRequest v → reads deserialize_SetSASLRequest v (enc_SetSASLRequest v).
Proof. unfold deserialize_SetSASLRequest, enc_SetSASLRequest, wf_SetSASLRequest. record_reads. Qed.
#[local] Hint Resolve deserialize_SetSASLRequest_reads : jute.
Lemma deserialize_SetSASLResponse_reads (v : SetSASLResponse) : wf_SetSASLResponse v → reads deserialize_SetSASLResponse v (enc_SetSASLResponse v).
Proof. unfold deserialize_SetSASLResponse, enc_SetSASLResponse, wf_SetSASLResponse. record_reads. Qed.
#[local] Hint Resolve deserialize_SetSASLResponse_reads : jute.
Lemma deserialize_ACL_vector_reads (v : vector ACL) : wf_ACL_vector v → reads deserialize_ACL_vector v (enc_ACL_vector v).
Proof. unfold deserialize_ACL_vector, enc_ACL_vector, wf_ACL_vector. vector_reads. Qed.
#[local] Hint Resolve deserialize_ACL_vector_reads : jute.
Lemma deserialize_CreateRequest_reads (v : CreateRequest) : wf_CreateRequest v → reads deserialize_CreateRequest v (enc_CreateRequest v).
Proof. unfold deserialize_CreateRequest, enc_CreateRequest, wf_CreateRequest. record_reads. Qed.
#[local] Hint Resolve deserialize_CreateRequest_reads : jute.
Lemma deserialize_CreateTTLRequest_reads (v : CreateTTLRequest) : wf_CreateTTLRequest v → reads deserialize_CreateTTLRequest v (enc_CreateTTLRequest v).
Proof. unfold deserialize_CreateTTLRequest, enc_CreateTTLRequest, wf_CreateTTLRequest. record_reads. Qed.
#[local] Hint Resolve deserialize_CreateTTLRequest_reads : jute.
Lemma deserialize_DeleteRequest_reads (v : DeleteRequest) : wf_DeleteRequest v → reads deserialize_DeleteRequest v (enc_DeleteRequest v).
Proof. unfold deserialize_DeleteRequest, enc_DeleteRequest, wf_DeleteRequest. record_reads. Qed.
#[local] Hint Resolve deserialize_DeleteRequest_reads : jute.
Lemma deserialize_GetChildrenRequest_reads (v : GetChildrenRequest) : wf_GetChildrenRequest v → reads deserialize_GetChildrenRequest v (enc_GetChildrenRequest v).
Proof. unfold deserialize_GetChildrenRequest, enc_GetChildrenRequest, wf_GetChildrenRequest. record_reads. Qed.
#[local] Hint Resolve deserialize_GetChildrenRequest_reads : jute.
Lemma deserialize_GetChildren2Request_reads (v : GetChildren2Request) : wf_GetChildren2Request v → reads deserialize_GetChildren2Request v (enc_GetChildren2Request v).
Proof. unfold deserialize_GetChildren2Request, enc_GetChildren2Request, wf_GetChildren2Request. record_reads. Qed.
#[local] Hint Resolve deserialize_GetChildren2Request_reads : jute.
Lemma deserialize_CheckVersionRequest_reads (v : CheckVersionRequest) : wf_CheckVersionRequest v → reads deserialize_CheckVersionRequest v (enc_CheckVersionRequest v).
Proof. unfold deserialize_CheckVersionRequest, enc_CheckVersionRequest, wf_CheckVersionRequest. record_reads. Qed.
#[local] Hint Resolve deserialize_CheckVersionRequest_reads : jute.
Lemma deserialize_GetMaxChildrenRequest_reads (v : GetMaxChildrenRequest) : wf_GetMaxChildrenRequest v → reads deserialize_GetMaxChildrenRequest v (enc_GetMaxChildrenRequest v).
Proof. unfold deserialize_GetMaxChildrenRequest, enc_GetMaxChildrenRequest, wf_GetMaxChildrenRequest. record_reads. Qed.
#[local] Hint Resolve deserialize_GetMaxChildrenRequest_reads : jute.
Lemma deserialize_GetMaxChildrenResponse_reads (v : GetMaxChildrenResponse) : wf_GetMaxChildrenResponse v → reads deserialize_GetMaxChildrenResponse v (enc_GetMaxChildrenResponse v).
Proof. unfold deserialize_GetMaxChildrenResponse, enc_GetMaxChildrenResponse, wf_GetMaxChildrenResponse. record_reads. Qed.
#[local] Hint Resolve deserialize_GetMaxChildrenResponse_reads : jute.
Lemma deserialize_SetMaxChildrenRequest_reads (v : SetMaxChildrenRequest) : wf_SetMaxChildrenRequest v → reads deserialize_SetMaxChildrenRequest v (enc_SetMaxChildrenRequest v).
Proof. unfold deserialize_SetMaxChildrenRequest, enc_SetMaxChildrenRequest, wf_SetMaxChildrenRequest. record_reads. Qed.
#[local] Hint Resolve deserialize_SetMaxChildrenRequest_reads : jute.
Lemma deserialize_SyncRequest_reads (v : SyncRequest) : wf_SyncRequest v → reads deserialize_SyncRequest v (enc_SyncRequest v).
Proof. unfold deserialize_SyncRequest, enc_SyncRequest, wf_SyncRequest. record_reads. Qed.
#[local] Hint Resolve deserialize_SyncRequest_reads : jute.
Lemma deserialize_SyncResponse_reads (v : SyncResponse) : wf_SyncResponse v → reads deserialize_SyncResponse v (enc_SyncResponse v).
Proof. unfold deserialize_SyncResponse, enc_SyncResponse, wf_SyncResponse. record_reads. Qed.
#[local] Hint Resolve deserialize_SyncResponse_reads : jute.
Lemma deserialize_GetACLRequest_reads (v : GetACLRequest) : wf_GetACLRequest v → reads deserialize_GetACLRequest v (enc_GetACLRequest v).
Proof. unfold deserialize_GetACLRequest, enc_GetACLRequest, wf_GetACLRequest. record_reads. Qed.
#[local] Hint Resolve deserialize_GetACLRequest_reads : jute.
Lemma deserialize_SetACLRequest_reads (v : SetACLRequest) : wf_SetACLRequest v → reads deserialize_SetACLRequest v (enc_SetACLRequest v).
Proof. unfold deserialize_SetACLRequest, enc_SetACLRequest, wf_SetACLRequest. record_reads. Qed.
#[local] Hint Resolve deserialize_SetACLRequest_reads : jute.
Lemma deserialize_SetACLResponse_reads (v : SetACLResponse) : wf_SetACLResponse v → reads deserialize_SetACLResponse v (enc_SetACLResponse v).
Proof. unfold deserialize_SetACLResponse, enc_SetACLResponse, wf_SetACLResponse. record_reads. Qed.
#[local] Hint Resolve deserialize_SetACLResponse_reads : jute.
Lemma deserialize_WatcherEvent_reads (v : WatcherEvent) : wf_WatcherEvent v → reads deserialize_WatcherEvent v (enc_WatcherEvent v).
Proof. unfold deserialize_WatcherEvent, enc_WatcherEvent, wf_WatcherEvent. record_reads. Qed.
#[local] Hint Resolve deserialize_WatcherEvent_reads : jute.
Lemma deserialize_ErrorResponse_reads (v : ErrorResponse) : wf_ErrorResponse v → reads deserialize_ErrorResponse v (enc_ErrorResponse v).
Proof. unfold deserialize_ErrorResponse, enc_ErrorResponse, wf_ErrorResponse. record_reads. Qed.
#[local] Hint Resolve deserialize_ErrorResponse_reads : jute.
Lemma deserialize_CreateResponse_reads (v : CreateResponse) : wf_CreateResponse v → reads deserialize_CreateResponse v (enc_CreateResponse v).
Proof. unfold deserialize_CreateResponse, enc_CreateResponse, wf_CreateResponse. record_reads. Qed.
#[local] Hint Resolve deserialize_CreateResponse_reads : jute.
Lemma deserialize_Create2Response_reads (v : Create2Response) : wf_Create2Response v → reads deserialize_Create2Response v (enc_Create2Response v).
Proof. unfold deserialize_Create2Response, enc_Create2Response, wf_Create2Response. record_reads. Qed.
#[local] Hint Resolve deserialize_Create2Response_reads : jute.
Lemma deserialize_ExistsRequest_reads (v : ExistsRequest) : wf_ExistsRequest v → reads deserialize_ExistsRequest v (enc_ExistsRequest v).
Proof. unfold deserialize_ExistsRequest, enc_ExistsRequest, wf_ExistsRequest. record_reads. Qed.
#[local] Hint Resolve deserialize_ExistsRequest_reads : jute.
Lemma deserialize_ExistsResponse_reads (v : ExistsResponse) : wf_ExistsResponse v → reads deserialize_ExistsResponse v (enc_ExistsResponse v).
Proof. unfold deserialize_ExistsResponse, enc_ExistsResponse, wf_ExistsResponse. record_reads. Qed.
#[local] Hint Resolve deserialize_ExistsResponse_reads : jute.
Lemma deserialize_GetDataResponse_reads (v : GetDataResponse) : wf_GetDataResponse v → reads deserialize_GetDataResponse v (enc_GetDataResponse v).
Proof. unfold deserialize_GetDataResponse, enc_GetDataResponse, wf_GetDataResponse. record_reads. Qed.
#[local] Hint Resolve deserialize_GetDataResponse_reads : jute.
Lemma deserialize_GetChildrenResponse_reads (v : GetChildrenResponse) : wf_GetChildrenResponse v → reads deserialize_GetChildrenResponse v (enc_GetChildrenResponse v).
Proof. unfold deserialize_GetChildrenResponse, enc_GetChildrenResponse, wf_GetChildrenResponse. record_reads. Qed.
#[local] Hint Resolve deserialize_GetChildrenResponse_reads : jute.
Lemma deserialize_GetChildren2Response_reads (v : GetChildren2Response) : wf_GetChildren2Response v → reads deserialize_GetChildren2Response v (enc_GetChildren2Response v).
Proof. unfold deserialize_GetChildren2Response, enc_GetChildren2Response, wf_GetChildren2Response. record_reads. Qed.
#[local] Hint Resolve deserialize_GetChildren2Response_reads : jute.
Lemma deserialize_GetACLResponse_reads (v : GetACLResponse) : wf_GetACLResponse v → reads deserialize_GetACLResponse v (enc_GetACLResponse v).
Proof. unfold deserialize_GetACLResponse, enc_GetACLResponse, wf_GetACLResponse. record_reads. Qed.
#[local] Hint Resolve deserialize_GetACLResponse_reads : jute.
Lemma deserialize_CheckWatchesRequest_reads (v : CheckWatchesRequest) : wf_CheckWatchesRequest v → reads deserialize_CheckWatchesRequest v (enc_CheckWatchesRequest v).
Proof. unfold deserialize_CheckWatchesRequest, enc_CheckWatchesRequest, wf_CheckWatchesRequest. record_reads. Qed.
#[local] Hint Resolve deserialize_CheckWatchesRequest_reads : jute.
Lemma deserialize_RemoveWatchesRequest_reads (v : RemoveWatchesRequest) : wf_RemoveWatchesRequest v → reads deserialize_RemoveWatchesRequest v (enc_RemoveWatchesRequest v).
Proof. unfold deserialize_RemoveWatchesRequest, enc_RemoveWatchesRequest, wf_RemoveWatchesRequest. record_reads. Qed.
#[local] Hint Resolve deserialize_RemoveWatchesRequest_reads : jute.
Lemma deserialize_LearnerInfo_reads (v : LearnerInfo) : wf_LearnerInfo v → reads deserialize_LearnerInfo v (enc_LearnerInfo v).
Proof. unfold deserialize_LearnerInfo, enc_LearnerInfo, wf_LearnerInfo. record_reads. Qed.
#[local] Hint Resolve deserialize_LearnerInfo_reads : jute.
Lemma deserialize_Id_vector_reads (v : vector Id) : wf_Id_vector v → reads deserialize_Id_vector v (enc_Id_vector v).
Proof. unfold deserialize_Id_vector, enc_Id_vector, wf_Id_vector. vector_reads. Qed.
#[local] Hint Resolve deserialize_Id_vector_reads : jute.
Lemma deserialize_QuorumPacket_reads (v : QuorumPacket) : wf_QuorumPacket v → reads deserialize_QuorumPacket v (enc_QuorumPacket v).
Proof. unfold deserialize_QuorumPacket, enc_QuorumPacket, wf_QuorumPacket. record_reads. Qed.
#[local] Hint Resolve deserialize_QuorumPacket_reads : jute.
Lemma deserialize_QuorumAuthPacket_reads (v : QuorumAuthPacket) : wf_QuorumAuthPacket v → reads deserialize_QuorumAuthPacket v (enc_QuorumAuthPacket v).
Proof. unfold deserialize_QuorumAuthPacket, enc_QuorumAuthPacket, wf_QuorumAuthPacket. record_reads. Qed.
#[local] Hint Resolve deserialize_QuorumAuthPacket_reads : jute.
Lemma deserialize_FileHeader_reads (v : FileHeader) : wf_FileHeader v → reads deserialize_FileHeader v (enc_FileHeader v).
Proof. unfold deserialize_FileHeader, enc_FileHeader, wf_FileHeader. record_reads. Qed.
#[local] Hint Resolve deserialize_FileHeader_reads : jute.
Lemma deserialize_TxnHeader_reads (v : TxnHeader) : wf_TxnHeader v → reads deserialize_TxnHeader v (enc_TxnHeader v).
Proof. unfold deserialize_TxnHeader, enc_TxnHeader, wf_TxnHeader. record_reads. Qed.
#[local] Hint Resolve deserialize_TxnHeader_reads : jute.
Lemma deserialize_CreateTxnV0_reads (v : CreateTxnV0) : wf_CreateTxnV0 v → reads deserialize_CreateTxnV0 v (enc_CreateTxnV0 v).
Proof. unfold deserialize_CreateTxnV0, enc_CreateTxnV0, wf_CreateTxnV0. record_reads. Qed.
#[local] Hint Resolve deserialize_CreateTxnV0_reads : jute.
Lemma deserialize_CreateTxn_reads (v : CreateTxn) : wf_CreateTxn v → reads deserialize_CreateTxn v (enc_CreateTxn v).
Proof. unfold deserialize_CreateTxn, enc_CreateTxn, wf_CreateTxn. record_reads. Qed.
#[local] Hint Resolve deserialize_CreateTxn_reads : jute.
Lemma deserialize_CreateTTLTxn_reads (v : CreateTTLTxn) : wf_CreateTTLTxn v → reads deserialize_CreateTTLTxn v (enc_CreateTTLTxn v).
Proof. unfold deserialize_CreateTTLTxn, enc_CreateTTLTxn, wf_CreateTTLTxn. record_reads. Qed.
#[local] Hint Resolve deserialize_CreateTTLTxn_reads : jute.
Lemma deserialize_CreateContainerTxn_reads (v : CreateContainerTxn) : wf_CreateContainerTxn v → reads deserialize_CreateContainerTxn v (enc_CreateContainerTxn v).
Proof. unfold deserialize_CreateContainerTxn, enc_CreateContainerTxn, wf_CreateContainerTxn. record_reads. Qed.
#[local] Hint Resolve deserialize_CreateContainerTxn_reads : jute.
Lemma deserialize_DeleteTxn_reads (v : DeleteTxn) : wf_DeleteTxn v → reads deserialize_DeleteTxn v (enc_DeleteTxn v).
Proof. unfold deserialize_DeleteTxn, enc_DeleteTxn, wf_DeleteTxn. record_reads. Qed.
#[local] Hint Resolve deserialize_DeleteTxn_reads : jute.
Lemma deserialize_SetDataTxn_reads (v : SetDataTxn) : wf_SetDataTxn v → reads deserialize_SetDataTxn v (enc_SetDataTxn v).
Proof. unfold deserialize_SetDataTxn, enc_SetDataTxn, wf_SetDataTxn. record_reads. Qed.
#[local] Hint Resolve deserialize_SetDataTxn_reads : jute.
Lemma deserialize_CheckVersionTxn_reads (v : CheckVersionTxn) : wf_CheckVersionTxn v → reads deserialize_CheckVersionTxn v (enc_CheckVersionTxn v).
Proof. unfold deserialize_CheckVersionTxn, enc_CheckVersionTxn, wf_CheckVersionTxn. record_reads. Qed.
#[local] Hint Resolve deserialize_CheckVersionTxn_reads : jute.
Lemma deserialize_SetACLTxn_reads (v : SetACLTxn) : wf_SetACLTxn v → reads deserialize_SetACLTxn v (enc_SetACLTxn v).
Proof. unfold deserialize_SetACLTxn, enc_SetACLTxn, wf_SetACLTxn. record_reads. Qed.
#[local] Hint Resolve deserialize_SetACLTxn_reads : jute.
Lemma deserialize_SetMaxChildrenTxn_reads (v : SetMaxChildrenTxn) : wf_SetMaxChildrenTxn v → reads deserialize_SetMaxChildrenTxn v (enc_SetMaxChildrenTxn v).
Proof. unfold deserialize_SetMaxChildrenTxn, enc_SetMaxChildrenTxn, wf_SetMaxChildrenTxn. record_reads. Qed.
#[local] Hint Resolve deserialize_SetMaxChildrenTxn_reads : jute.
Lemma deserialize_CreateSessionTxn_reads (v : CreateSessionTxn) : wf_CreateSessionTxn v → reads deserialize_CreateSessionTxn v (enc_CreateSessionTxn v).
Proof. unfold deserialize_CreateSessionTxn, enc_CreateSessionTxn, wf_CreateSessionTxn. record_reads. Qed.
#[local] Hint Resolve deserialize_CreateSessionTxn_reads : jute.
Lemma deserialize_ErrorTxn_reads (v : ErrorTxn) : wf_ErrorTxn v → reads deserialize_ErrorTxn v (enc_ErrorTxn v).
Proof. unfold deserialize_ErrorTxn, enc_ErrorTxn, wf_ErrorTxn. record_reads. Qed.
#[local] Hint Resolve deserialize_ErrorTxn_reads : jute.
Lemma deserialize_Txn_reads (v : Txn) : wf_Txn v → reads deserialize_Txn v (enc_Txn v).
Proof. unfold deserialize_Txn, enc_Txn, wf_Txn. record_reads. Qed.
#[local] Hint Resolve deserialize_Txn_reads : jute.
Lemma deserialize_Txn_vector_reads (v : vector Txn) : wf_Txn_vector v → reads deserialize_Txn_vector v (enc_Txn_vector v).
Proof. unfold deserialize_Txn_vector, enc_Txn_vector, wf_Txn_vector. vector_reads. Qed.
#[local] Hint Resolve deserialize_Txn_vector_reads : jute.
Lemma deserialize_MultiTxn_reads (v : MultiTxn) : wf_MultiTxn v → reads deserialize_MultiTxn v (enc_MultiTxn v).
Proof. unfold deserialize_MultiTxn, enc_MultiTxn, wf_MultiTxn. record_reads. Qed.
#[local] Hint Resolve deserialize_MultiTxn_reads : jute.
End records_read.

(** ** The records as one family *)
Inductive jute_type :=
  | T_Id
  | T_ACL
  | T_Stat
  | T_StatPersisted
  | T_ConnectRequest
  | T_ConnectResponse
  | T_String_vector
  | T_SetWatches
  | T_RequestHeader
  | T_MultiHeader
  | T_AuthPacket
  | T_ReplyHeader
  | T_GetDataRequest
  | T_SetDataRequest
  | T_ReconfigRequest
  | T_SetDataResponse
  | T_GetSASLRequest
  | T_SetSASLRequest
  | T_SetSASLResponse
  | T_ACL_vector
  | T_CreateRequest
  | T_CreateTTLRequest
  | T_DeleteRequest
  | T_GetChildrenRequest
  | T_GetChildren2Request
  | T_CheckVersionRequest
  | T_GetMaxChildrenRequest
  | T_GetMaxChildrenResponse
  | T_SetMaxChildrenRequest
  | T_SyncRequest
  | T_SyncResponse
  | T_GetACLRequest
  | T_SetACLRequest
  | T_SetACLResponse
  | T_WatcherEvent
  | T_ErrorResponse
  | T_CreateResponse
  | T_Create2Response
  | T_ExistsRequest
  | T_ExistsResponse
  | T_GetDataResponse
  | T_GetChildrenResponse
  | T_GetChildren2Response
  | T_GetACLResponse
  | T_CheckWatchesRequest
  | T_RemoveWatchesRequest
  | T_LearnerInfo
  | T_Id_vector
  | T_QuorumPacket
  | T_QuorumAuthPacket
  | T_FileHeader
  | T_TxnHeader
  | T_CreateTxnV0
  | T_CreateTxn
  | T_CreateTTLTxn
  | T_CreateContainerTxn
  | T_DeleteTxn
  | T_SetDataTxn
  | T_CheckVersionTxn
  | T_SetACLTxn
  | T_SetMaxChildrenTxn
  | T_CreateSessionTxn
  | T_ErrorTxn
  | T_Txn
  | T_Txn_vector
  | T_MultiTxn.

Definition denote (t : jute_type) : Type :=
  match t with
  | T_Id => Id
  | T_ACL => ACL
  | T_Stat => Stat
  | T_StatPersisted => StatPersisted
  | T_ConnectRequest => ConnectRequest
  | T_ConnectResponse => ConnectResponse
  | T_String_vector => vector (option cstring)
  | T_SetWatches => SetWatches
  | T_RequestHeader => RequestHeader
  | T_MultiHeader => MultiHeader
  | T_AuthPacket => AuthPacket
  | T_ReplyHeader => ReplyHeader
  | T_GetDataRequest => GetDataRequest
  | T_SetDataRequest => SetDataRequest
  | T_ReconfigRequest => ReconfigRequest
  | T_SetDataResponse => SetDataResponse
  | T_GetSASLRequest => GetSASLRequest
  | T_SetSASLRequest => SetSASLRequest
  | T_SetSASLResponse => SetSASLResponse
  | T_ACL_vector => vector ACL
  | T_CreateRequest => CreateRequest
  | T_CreateTTLRequest => CreateTTLRequest
  | T_DeleteRequest => DeleteRequest
  | T_GetChildrenRequest => GetChildrenRequest
  | T_GetChildren2Request => GetChildren2Request
  | T_CheckVersionRequest => CheckVersionRequest
  | T_GetMaxChildrenRequest => GetMaxChildrenRequest
  | T_GetMaxChildrenResponse => GetMaxChildrenResponse
  | T_SetMaxChildrenRequest => SetMaxChildrenRequest
  | T_SyncRequest => SyncRequest
  | T_SyncResponse => SyncResponse
  | T_GetACLRequest => GetACLRequest
  | T_SetACLRequest => SetACLRequest
  | T_SetACLResponse => SetACLResponse
  | T_WatcherEvent => WatcherEvent
  | T_ErrorResponse => ErrorResponse
  | T_CreateResponse => CreateResponse
  | T_Create2Response => Create2Response
  | T_ExistsRequest => ExistsRequest
  | T_ExistsResponse => ExistsResponse
  | T_GetDataResponse => GetDataResponse
  | T_GetChildrenResponse => GetChildrenResponse
  | T_GetChildren2Response => GetChildren2Response
  | T_GetACLResponse => GetACLResponse
  | T_CheckWatchesRequest => CheckWatchesRequest
  | T_RemoveWatchesRequest => RemoveWatchesRequest
  | T_LearnerInfo => LearnerInfo
  | T_Id_vector => vector Id
  | T_QuorumPacket => QuorumPacket
  | T_QuorumAuthPacket => QuorumAuthPacket
  | T_FileHeader => FileHeader
  | T_TxnHeader => TxnHeader
  | T_CreateTxnV0 => CreateTxnV0
  | T_CreateTxn => CreateTxn
  | T_CreateTTLTxn => CreateTTLTxn
  | T_CreateContainerTxn => CreateContainerTxn
  | T_DeleteTxn => DeleteTxn
  | T_SetDataTxn => SetDataTxn
  | T_CheckVersionTxn => CheckVersionTxn
  | T_SetACLTxn => SetACLTxn
  | T_SetMaxChildrenTxn => SetMaxChildrenTxn
  | T_CreateSessionTxn => CreateSessionTxn
  | T_ErrorTxn => ErrorTxn
  | T_Txn => Txn
  | T_Txn_vector => vector Txn
  | T_MultiTxn => MultiTxn
  end.

Definition ser {S} `{OArchive S} (t : jute_type) : denote t → S → outcome (Z * S) :=
  match t with
  | T_Id => serialize_Id
  | T_ACL => serialize_ACL
  | T_Stat => serialize_Stat
  | T_StatPersisted => serialize_StatPersisted
  | T_ConnectRequest => serialize_ConnectRequest
  | T_ConnectResponse => serialize_ConnectResponse
  | T_String_vector => serialize_String_vector
  | T_SetWatches => serialize_SetWatches
  | T_RequestHeader => serialize_RequestHeader
  | T_MultiHeader => serialize_MultiHeader
  | T_AuthPacket => serialize_AuthPacket
  | T_ReplyHeader => serialize_ReplyHeader
  | T_GetDataRequest => serialize_GetDataRequest
  | T_SetDataRequest => serialize_SetDataRequest
  | T_ReconfigRequest => serialize_ReconfigRequest
  | T_SetDataResponse => serialize_SetDataResponse
  | T_GetSASLRequest => serialize_GetSASLRequest
  | T_SetSASLRequest => serialize_SetSASLRequest
  | T_SetSASLResponse => serialize_SetSASLResponse
  | T_ACL_vector => serialize_ACL_vector
  | T_CreateRequest => serialize_CreateRequest
  | T_CreateTTLRequest => serialize_CreateTTLRequest
  | T_DeleteRequest => serialize_DeleteRequest
  | T_GetChildrenRequest => serialize_GetChildrenRequest
  | T_GetChildren2Request => serialize_GetChildren2Request
  | T_CheckVersionRequest => serialize_CheckVersionRequest
  | T_GetMaxChildrenRequest => serialize_GetMaxChildrenRequest
  | T_GetMaxChildrenResponse => serialize_GetMaxChildrenResponse
  | T_SetMaxChildrenRequest => serialize_SetMaxChildrenRequest
  | T_SyncRequest => serialize_SyncRequest
  | T_SyncResponse => serialize_SyncResponse
  | T_GetACLRequest => serialize_GetACLRequest
  | T_SetACLRequest => serialize_SetACLRequest
  | T_SetACLResponse => serialize_SetACLResponse
  | T_WatcherEvent => serialize_WatcherEvent
  | T_ErrorResponse => serialize_ErrorResponse
  | T_CreateResponse => serialize_CreateResponse
  | T_Create2Response => serialize_Create2Response
  | T_ExistsRequest => serialize_ExistsRequest
  | T_ExistsResponse => serialize_ExistsResponse
  | T_GetDataResponse => serialize_GetDataResponse
  | T_GetChildrenResponse => serialize_GetChildrenResponse
  | T_GetChildren2Response => serialize_GetChildren2Response
  | T_GetACLResponse => serialize_GetACLResponse
  | T_CheckWatchesRequest => serialize_CheckWatchesRequest
  | T_RemoveWatchesRequest => serialize_RemoveWatchesRequest
  | T_LearnerInfo => serialize_LearnerInfo
  | T_Id_vector => serialize_Id_vector
  | T_QuorumPacket => serialize_QuorumPacket
  | T_QuorumAuthPacket => serialize_QuorumAuthPacket
  | T_FileHeader => serialize_FileHeader
  | T_TxnHeader => serialize_TxnHeader
  | T_CreateTxnV0 => serialize_CreateTxnV0
  | T_CreateTxn => serialize_CreateTxn
  | T_CreateTTLTxn => serialize_CreateTTLTxn
  | T_CreateContainerTxn => serialize_CreateContainerTxn
  | T_DeleteTxn => serialize_DeleteTxn
  | T_SetDataTxn => serialize_SetDataTxn
  | T_CheckVersionTxn => serialize_CheckVersionTxn
  | T_SetACLTxn => serialize_SetACLTxn
  | T_SetMaxChildrenTxn => serialize_SetMaxChildrenTxn
  | T_CreateSessionTxn => serialize_CreateSessionTxn
  | T_ErrorTxn => serialize_ErrorTxn
  | T_Txn => serialize_Txn
  | T_Txn_vector => serialize_Txn_vector
  | T_MultiTxn => serialize_MultiTxn
  end.

Definition des {S} `{IArchive S} `{Heap S} (t : jute_type) : deser S (denote t) :=
  match t with
  | T_Id => deserialize_Id
  | T_ACL => deserialize_ACL
  | T_Stat => deserialize_Stat
  | T_StatPersisted => deserialize_StatPersisted
  | T_ConnectRequest => deserialize_ConnectRequest
  | T_ConnectResponse => deserialize_ConnectResponse
  | T_String_vector => deserialize_String_vector
  | T_SetWatches => deserialize_SetWatches
  | T_RequestHeader => deserialize_RequestHeader
  | T_MultiHeader => deserialize_MultiHeader
  | T_AuthPacket => deserialize_AuthPacket
  | T_ReplyHeader => deserialize_ReplyHeader
  | T_GetDataRequest => deserialize_GetDataRequest
  | T_SetDataRequest => deserialize_SetDataRequest
  | T_ReconfigRequest => deserialize_ReconfigRequest
  | T_SetDataResponse => deserialize_SetDataResponse
  | T_GetSASLRequest => deserialize_GetSASLRequest
  | T_SetSASLRequest => deserialize_SetSASLRequest
  | T_SetSASLResponse => deserialize_SetSASLResponse
  | T_ACL_vector => deserialize_ACL_vector
  | T_CreateRequest => deserialize_CreateRequest
  | T_CreateTTLRequest => deserialize_CreateTTLRequest
  | T_DeleteRequest => deserialize_DeleteRequest
  | T_GetChildrenRequest => deserialize_GetChildrenRequest
  | T_GetChildren2Request => deserialize_GetChildren2Request
  | T_CheckVersionRequest => deserialize_CheckVersionRequest
  | T_GetMaxChildrenRequest => deserialize_GetMaxChildrenRequest
  | T_GetMaxChildrenResponse => deserialize_GetMaxChildrenResponse
  | T_SetMaxChildrenRequest => deserialize_SetMaxChildrenRequest
  | T_SyncRequest => deserialize_SyncRequest
  | T_SyncResponse => deserialize_SyncResponse
  | T_GetACLRequest => deserialize_GetACLRequest
  | T_SetACLRequest => deserialize_SetACLRequest
  | T_SetACLResponse => deserialize_SetACLResponse
  | T_WatcherEvent => deserialize_WatcherEvent
  | T_ErrorResponse => deserialize_ErrorResponse
  | T_CreateResponse => deserialize_CreateResponse
  | T_Create2Response => deserialize_Create2Response
  | T_ExistsRequest => deserialize_ExistsRequest
  | T_ExistsResponse => deserialize_ExistsResponse
  | T_GetDataResponse => deserialize_GetDataResponse
  | T_GetChildrenResponse => deserialize_GetChildrenResponse
  | T_GetChildren2Response => deserialize_GetChildren2Response
  | T_GetACLResponse => deserialize_GetACLResponse
  | T_CheckWatchesRequest => deserialize_CheckWatchesRequest
  | T_RemoveWatchesRequest => deserialize_RemoveWatchesRequest
  | T_LearnerInfo => deserialize_LearnerInfo
  | T_Id_vector => deserialize_Id_vector
  | T_QuorumPacket => deserialize_QuorumPacket
  | T_QuorumAuthPacket => deserialize_QuorumAuthPacket
  | T_FileHeader => deserialize_FileHeader
  | T_TxnHeader => deserialize_TxnHeader
  | T_CreateTxnV0 => deserialize_CreateTxnV0
  | T_CreateTxn => deserialize_CreateTxn
  | T_CreateTTLTxn => deserialize_CreateTTLTxn
  | T_CreateContainerTxn => deserialize_CreateContainerTxn
  | T_DeleteTxn => deserialize_DeleteTxn
  | T_SetDataTxn => deserialize_SetDataTxn
  | T_CheckVersionTxn => deserialize_CheckVersionTxn
  | T_SetACLTxn => deserialize_SetACLTxn
  | T_SetMaxChildrenTxn => deserialize_SetMaxChildrenTxn
  | T_CreateSessionTxn => deserialize_CreateSessionTxn
  | T_ErrorTxn => deserialize_ErrorTxn
  | T_Txn => deserialize_Txn
  | T_Txn_vector => deserialize_Txn_vector
  | T_MultiTxn => deserialize_MultiTxn
  end.

Definition enc (t : jute_type) : denote t → list byte :=
  match t with
  | T_Id => enc_Id
  | T_ACL => enc_ACL
  | T_Stat => enc_Stat
  | T_StatPersisted => enc_StatPersisted
  | T_ConnectRequest => enc_ConnectRequest
  | T_ConnectResponse => enc_ConnectResponse
  | T_String_vector => enc_String_vector
  | T_SetWatches => enc_SetWatches
  | T_RequestHeader => enc_RequestHeader
  | T_MultiHeader => enc_MultiHeader
  | T_AuthPacket => enc_AuthPacket
  | T_ReplyHeader => enc_ReplyHeader
  | T_GetDataRequest => enc_GetDataRequest
  | T_SetDataRequest => enc_SetDataRequest
  | T_ReconfigRequest => enc_ReconfigRequest
  | T_SetDataResponse => enc_SetDataResponse
  | T_GetSASLRequest => enc_GetSASLRequest
  | T_SetSASLRequest => enc_SetSASLRequest
  | T_SetSASLResponse => enc_SetSASLResponse
  | T_ACL_vector => enc_ACL_vector
  | T_CreateRequest => enc_CreateRequest
  | T_CreateTTLRequest => enc_CreateTTLRequest
  | T_DeleteRequest => enc_DeleteRequest
  | T_GetChildrenRequest => enc_GetChildrenRequest
  | T_GetChildren2Request => enc_GetChildren2Request
  | T_CheckVersionRequest => enc_CheckVersionRequest
  | T_GetMaxChildrenRequest => enc_GetMaxChildrenRequest
  | T_GetMaxChildrenResponse => enc_GetMaxChildrenResponse
  | T_SetMaxChildrenRequest => enc_SetMaxChildrenRequest
  | T_SyncRequest => enc_SyncRequest
  | T_SyncResponse => enc_SyncResponse
  | T_GetACLRequest => enc_GetACLRequest
  | T_SetACLRequest => enc_SetACLRequest
  | T_SetACLResponse => enc_SetACLResponse
  | T_WatcherEvent => enc_WatcherEvent
  | T_ErrorResponse => enc_ErrorResponse
  | T_CreateResponse => enc_CreateResponse
  | T_Create2Response => enc_Create2Response
  | T_ExistsRequest => enc_ExistsRequest
  | T_ExistsResponse => enc_ExistsResponse
  | T_GetDataResponse => enc_GetDataResponse
  | T_GetChildrenResponse => enc_GetChildrenResponse
  | T_GetChildren2Response => enc_GetChildren2Response
  | T_GetACLResponse => enc_GetACLResponse
  | T_CheckWatchesRequest => enc_CheckWatchesRequest
  | T_RemoveWatchesRequest => enc_RemoveWatchesRequest
  | T_LearnerInfo => enc_LearnerInfo
  | T_Id_vector => enc_Id_vector
  | T_QuorumPacket => enc_QuorumPacket
  | T_QuorumAuthPacket => enc_QuorumAuthPacket
  | T_FileHeader => enc_FileHeader
  | T_TxnHeader => enc_TxnHeader
  | T_CreateTxnV0 => enc_CreateTxnV0
  | T_CreateTxn => enc_CreateTxn
  | T_CreateTTLTxn => enc_CreateTTLTxn
  | T_CreateContainerTxn => enc_CreateContainerTxn
  | T_DeleteTxn => enc_DeleteTxn
  | T_SetDataTxn => enc_SetDataTxn
  | T_CheckVersionTxn => enc_CheckVersionTxn
  | T_SetACLTxn => enc_SetACLTxn
  | T_SetMaxChildrenTxn => enc_SetMaxChildrenTxn
  | T_CreateSessionTxn => enc_CreateSessionTxn
  | T_ErrorTxn => enc_ErrorTxn
  | T_Txn => enc_Txn
  | T_Txn_vector => enc_Txn_vector
  | T_MultiTxn => enc_MultiTxn
  end.

Definition wf (t : jute_type) : denote t → Prop :=
  match t with
  | T_Id => wf_Id
  | T_ACL => wf_ACL
  | T_Stat => wf_Stat
  | T_StatPersisted => wf_StatPersisted
  | T_ConnectRequest => wf_ConnectRequest
  | T_ConnectResponse => wf_ConnectResponse
  | T_String_vector => wf_String_vector
  | T_SetWatches => wf_SetWatches
  | T_RequestHeader => wf_RequestHeader
  | T_MultiHeader => wf_MultiHeader
  | T_AuthPacket => wf_AuthPacket
  | T_ReplyHeader => wf_ReplyHeader
  | T_GetDataRequest => wf_GetDataRequest
  | T_SetDataRequest => wf_SetDataRequest
  | T_ReconfigRequest => wf_ReconfigRequest
  | T_SetDataResponse => wf_SetDataResponse
  | T_GetSASLRequest => wf_GetSASLRequest
  | T_SetSASLRequest => wf_SetSASLRequest
  | T_SetSASLResponse => wf_SetSASLResponse
  | T_ACL_vector => wf_ACL_vector
  | T_CreateRequest => wf_CreateRequest
  | T_CreateTTLRequest => wf_CreateTTLRequest
  | T_DeleteRequest => wf_DeleteRequest
  | T_GetChildrenRequest => wf_GetChildrenRequest
  | T_GetChildren2Request => wf_GetChildren2Request
  | T_CheckVersionRequest => wf_CheckVersionRequest
  | T_GetMaxChildrenRequest => wf_GetMaxChildrenRequest
  | T_GetMaxChildrenResponse => wf_GetMaxChildrenResponse
  | T_SetMaxChildrenRequest => wf_SetMaxChildrenRequest
  | T_SyncRequest => wf_SyncRequest
  | T_SyncResponse => wf_SyncResponse
  | T_GetACLRequest => wf_GetACLRequest
  | T_SetACLRequest => wf_SetACLRequest
  | T_SetACLResponse => wf_SetACLResponse
  | T_WatcherEvent => wf_WatcherEvent
  | T_ErrorResponse => wf_ErrorResponse
  | T_CreateResponse => wf_CreateResponse
  | T_Create2Response => wf_Create2Response
  | T_ExistsRequest => wf_ExistsRequest
  | T_ExistsResponse => wf_ExistsResponse
  | T_GetDataResponse => wf_GetDataResponse
  | T_GetChildrenResponse => wf_GetChildrenResponse
  | T_GetChildren2Response => wf_GetChildren2Response
  | T_GetACLResponse => wf_GetACLResponse
  | T_CheckWatchesRequest => wf_CheckWatchesRequest
  | T_RemoveWatchesRequest => wf_RemoveWatchesRequest
  | T_LearnerInfo => wf_LearnerInfo
  | T_Id_vector => wf_Id_vector
  | T_QuorumPacket => wf_QuorumPacket
  | T_QuorumAuthPacket => wf_QuorumAuthPacket
  | T_FileHeader => wf_FileHeader
  | T_TxnHeader => wf_TxnHeader
  | T_CreateTxnV0 => wf_CreateTxnV0
  | T_CreateTxn => wf_CreateTxn
  | T_CreateTTLTxn => wf_CreateTTLTxn
  | T_CreateContainerTxn => wf_CreateContainerTxn
  | T_DeleteTxn => wf_DeleteTxn
  | T_SetDataTxn => wf_SetDataTxn
  | T_CheckVersionTxn => wf_CheckVersionTxn
  | T_SetACLTxn => wf_SetACLTxn
  | T_SetMaxChildrenTxn => wf_SetMaxChildrenTxn
  | T_CreateSessionTxn => wf_CreateSessionTxn
  | T_ErrorTxn => wf_ErrorTxn
  | T_Txn => wf_Txn
  | T_Txn_vector => wf_Txn_vector
  | T_MultiTxn => wf_MultiTxn
  end.

Lemma ser_appends {S} `{OArchiveOK S} (t : jute_type) (v : denote t) :
  wf t v → appends (ser t v) (enc t v).
Proof.
  destruct t; simpl.
  - apply serialize_Id_appends.
  - apply serialize_ACL_appends.
  - apply serialize_Stat_appends.
  - apply serialize_StatPersisted_appends.
  - apply serialize_ConnectRequest_appends.
  - apply serialize_ConnectResponse_appends.
  - apply serialize_String_vector_appends.
  - apply serialize_SetWatches_appends.
  - apply serialize_RequestHeader_appends.
  - apply serialize_MultiHeader_appends.
  - apply serialize_AuthPacket_appends.
  - apply serialize_ReplyHeader_appends.
  - apply serialize_GetDataRequest_appends.
  - apply serialize_SetDataRequest_appends.
  - apply serialize_ReconfigRequest_appends.
  - apply serialize_SetDataResponse_appends.
  - apply serialize_GetSASLRequest_appends.
  - apply serialize_SetSASLRequest_appends.
  - apply serialize_SetSASLResponse_appends.
  - apply serialize_ACL_vector_appends.
  - apply serialize_CreateRequest_appends.
  - apply serialize_CreateTTLRequest_appends.
  - apply serialize_DeleteRequest_appends.
  - apply serialize_GetChildrenRequest_appends.
  - apply serialize_GetChildren2Request_appends.
  - apply serialize_CheckVersionRequest_appends.
  - apply serialize_GetMaxChildrenRequest_appends.
  - apply serialize_GetMaxChildrenResponse_appends.
  - apply serialize_SetMaxChildrenRequest_appends.
  - apply serialize_SyncRequest_appends.
  - apply serialize_SyncResponse_appends.
  - apply serialize_GetACLRequest_appends.
  - apply serialize_SetACLRequest_appends.
  - apply serialize_SetACLResponse_appends.
  - apply serialize_WatcherEvent_appends.
  - apply serialize_ErrorResponse_appends.
  - apply serialize_CreateResponse_appends.
  - apply serialize_Create2Response_appends.
  - apply serialize_ExistsRequest_appends.
  - apply serialize_ExistsResponse_appends.
  - apply serialize_GetDataResponse_appends.
  - apply serialize_GetChildrenResponse_appends.
  - apply serialize_GetChildren2Response_appends.
  - apply serialize_GetACLResponse_appends.
  - apply serialize_CheckWatchesRequest_appends.
  - apply serialize_RemoveWatchesRequest_appends.
  - apply serialize_LearnerInfo_appends.
  - apply serialize_Id_vector_appends.
  - apply serialize_QuorumPacket_appends.
  - apply serialize_QuorumAuthPacket_appends.
  - apply serialize_FileHeader_appends.
  - apply serialize_TxnHeader_appends.
  - apply serialize_CreateTxnV0_appends.
  - apply serialize_CreateTxn_appends.
  - apply serialize_CreateTTLTxn_appends.
  - apply serialize_CreateContainerTxn_appends.
  - apply serialize_DeleteTxn_appends.
  - apply serialize_SetDataTxn_appends.
  - apply serialize_CheckVersionTxn_appends.
  - apply serialize_SetACLTxn_appends.
  - apply serialize_SetMaxChildrenTxn_appends.
  - apply serialize_CreateSessionTxn_appends.
  - apply serialize_ErrorTxn_appends.
  - apply serialize_Txn_appends.
  - apply serialize_Txn_vector_appends.
  - apply serialize_MultiTxn_appends.
Qed.

Lemma des_reads {S} `{IArchiveOK S} `{!Heap S} `{!HeapOK S} (t : jute_type) (v : denote t) :
  wf t v → reads (des t) v (enc t v).
Proof.
  destruct t; simpl.
  - apply deserialize_Id_reads.
  - apply deserialize_ACL_reads.
  - apply deserialize_Stat_reads.
  - apply deserialize_StatPersisted_reads.
  - apply deserialize_ConnectRequest_reads.
  - apply deserialize_ConnectResponse_reads.
  - apply deserialize_String_vector_reads.
  - apply deserialize_SetWatches_reads.
  - apply deserialize_RequestHeader_reads.
  - apply deserialize_MultiHeader_reads.
  - apply deserialize_AuthPacket_reads.
  - apply deserialize_ReplyHeader_reads.
  - apply deserialize_GetDataRequest_reads.
  - apply deserialize_SetDataRequest_reads.
  - apply deserialize_ReconfigRequest_reads.
  - apply deserialize_SetDataResponse_reads.
  - apply deserialize_GetSASLRequest_reads.
  - apply deserialize_SetSASLRequest_reads.
  - apply deserialize_SetSASLResponse_reads.
  - apply deserialize_ACL_vector_reads.
  - apply deserialize_CreateRequest_reads.
  - apply deserialize_CreateTTLRequest_reads.
  - apply deserialize_DeleteRequest_reads.
  - apply deserialize_GetChildrenRequest_reads.
  - apply deserialize_GetChildren2Request_reads.
  - apply deserialize_CheckVersionRequest_reads.
  - apply deserialize_GetMaxChildrenRequest_reads.
  - apply deserialize_GetMaxChildrenResponse_reads.
  - apply deserialize_SetMaxChildrenRequest_reads.
  - apply deserialize_SyncRequest_reads.
  - apply deserialize_SyncResponse_reads.
  - apply deserialize_GetACLRequest_reads.
  - apply deserialize_SetACLRequest_reads.
  - apply deserialize_SetACLResponse_reads.
  - apply deserialize_WatcherEvent_reads.
  - apply deserialize_ErrorResponse_reads.
  - apply deserialize_CreateResponse_reads.
  - apply deserialize_Create2Response_reads.
  - apply deserialize_ExistsRequest_reads.
  - apply deserialize_ExistsResponse_reads.
  - apply deserialize_GetDataResponse_reads.
  - apply deserialize_GetChildrenResponse_reads.
  - apply deserialize_GetChildren2Response_reads.
  - apply deserialize_GetACLResponse_reads.
  - apply deserialize_CheckWatchesRequest_reads.
  - apply deserialize_RemoveWatchesRequest_reads.
  - apply deserialize_LearnerInfo_reads.
  - apply deserialize_Id_vector_reads.
  - apply deserialize_QuorumPacket_reads.
  - apply deserialize_QuorumAuthPacket_reads.
  - apply deserialize_FileHeader_reads.
  - apply deserialize_TxnHeader_reads.
  - apply deserialize_CreateTxnV0_reads.
  - apply deserialize_CreateTxn_reads.
  - apply deserialize_CreateTTLTxn_reads.
  - apply deserialize_CreateContainerTxn_reads.
  - apply deserialize_DeleteTxn_reads.
  - apply deserialize_SetDataTxn_reads.
  - apply deserialize_CheckVersionTxn_reads.
  - apply deserialize_SetACLTxn_reads.
  - apply deserialize_SetMaxChildrenTxn_reads.
  - apply deserialize_CreateSessionTxn_reads.
  - apply deserialize_ErrorTxn_reads.
  - apply deserialize_Txn_reads.
  - apply deserialize_Txn_vector_reads.
  - apply deserialize_MultiTxn_reads.
Qed.

Section records_write.
Context `{Host}.

Lemma serialize_Id_writes (v : Id) : wf_Id v → writes (serialize_Id v) (enc_Id v).
Proof. unfold serialize_Id, enc_Id, wf_Id. record_writes. Qed.
#[local] Hint Resolve serialize_Id_writes : jute.
Lemma serialize_ACL_writes (v : ACL) : wf_ACL v → writes (serialize_ACL v) (enc_ACL v).
Proof. unfold serialize_ACL, enc_ACL, wf_ACL. record_writes. Qed.
#[local] Hint Resolve serialize_ACL_writes : jute.
Lemma serialize_Stat_writes (v : Stat) : wf_Stat v → writes (serialize_Stat v) (enc_Stat v).
Proof. unfold serialize_Stat, enc_Stat, wf_Stat. record_writes. Qed.
#[local] Hint Resolve serialize_Stat_writes : jute.
Lemma serialize_StatPersisted_writes (v : StatPersisted) : wf_StatPersisted v → writes (serialize_StatPersisted v) (enc_StatPersisted v).
Proof. unfold serialize_StatPersisted, enc_StatPersisted, wf_StatPersisted. record_writes. Qed.
#[local] Hint Resolve serialize_StatPersisted_writes : jute.
Lemma serialize_ConnectRequest_writes (v : ConnectRequest) : wf_ConnectRequest v → writes (serialize_ConnectRequest v) (enc_ConnectRequest v).
Proof. unfold serialize_ConnectRequest, enc_ConnectRequest, wf_ConnectRequest. record_writes. Qed.
#[local] Hint Resolve serialize_ConnectRequest_writes : jute.
Lemma serialize_ConnectResponse_writes (v : ConnectResponse) : wf_ConnectResponse v → writes (serialize_ConnectResponse v) (enc_ConnectResponse v).
Proof. unfold serialize_ConnectResponse, enc_ConnectResponse, wf_ConnectResponse. record_writes. Qed.
#[local] Hint Resolve serialize_ConnectResponse_writes : jute.
Lemma serialize_String_vector_writes (v : vector (option cstring)) : wf_String_vector v → writes (serialize_String_vector v) (enc_String_vector v).
Proof. unfold serialize_String_vector, enc_String_vector, wf_String_vector. vector_writes. Qed.
#[local] Hint Resolve serialize_String_vector_writes : jute.
Lemma serialize_SetWatches_writes (v : SetWatches) : wf_SetWatches v → writes (serialize_SetWatches v) (enc_SetWatches v).
Proof. unfold serialize_SetWatches, enc_SetWatches, wf_SetWatches. record_writes. Qed.
#[local] Hint Resolve serialize_SetWatches_writes : jute.
Lemma serialize_RequestHeader_writes (v : RequestHeader) : wf_RequestHeader v → writes (serialize_RequestHeader v) (enc_RequestHeader v).
Proof. unfold serialize_RequestHeader, enc_RequestHeader, wf_RequestHeader. record_writes. Qed.
#[local] Hint Resolve serialize_RequestHeader_writes : jute.
Lemma serialize_MultiHeader_writes (v : MultiHeader) : wf_MultiHeader v → writes (serialize_MultiHeader v) (enc_MultiHeader v).
Proof. unfold serialize_MultiHeader, enc_MultiHeader, wf_MultiHeader. record_writes. Qed.
#[local] Hint Resolve serialize_MultiHeader_writes : jute.
Lemma serialize_AuthPacket_writes (v : AuthPacket) : wf_AuthPacket v → writes (serialize_AuthPacket v) (enc_AuthPacket v).
Proof. unfold serialize_AuthPacket, enc_AuthPacket, wf_AuthPacket. record_writes. Qed.
#[local] Hint Resolve serialize_AuthPacket_writes : jute.
Lemma serialize_ReplyHeader_writes (v : ReplyHeader) : wf_ReplyHeader v → writes (serialize_ReplyHeader v) (enc_ReplyHeader v).
Proof. unfold serialize_ReplyHeader, enc_ReplyHeader, wf_ReplyHeader. record_writes. Qed.
#[local] Hint Resolve serialize_ReplyHeader_writes : jute.
Lemma serialize_GetDataRequest_writes (v : GetDataRequest) : wf_GetDataRequest v → writes (serialize_GetDataRequest v) (enc_GetDataRequest v).
Proof. unfold serialize_GetDataRequest, enc_GetDataRequest, wf_GetDataRequest. record_writes. Qed.
#[local] Hint Resolve serialize_GetDataRequest_writes : jute.
Lemma serialize_SetDataRequest_writes (v : SetDataRequest) : wf_SetDataRequest v → writes (serialize_SetDataRequest v) (enc_SetDataRequest v).
Proof. unfold serialize_SetDataRequest, enc_SetDataRequest, wf_SetDataRequest. record_writes. Qed.
#[local] Hint Resolve serialize_SetDataRequest_writes : jute.
Lemma serialize_ReconfigRequest_writes (v : ReconfigRequest) : wf_ReconfigRequest v → writes (serialize_ReconfigRequest v) (enc_ReconfigRequest v).
Proof. unfold serialize_ReconfigRequest, enc_ReconfigRequest, wf_ReconfigRequest. record_writes. Qed.
#[local] Hint Resolve serialize_ReconfigRequest_writes : jute.
Lemma serialize_SetDataResponse_writes (v : SetDataResponse) : wf_SetDataResponse v → writes (serialize_SetDataResponse v) (enc_SetDataResponse v).
Proof. unfold serialize_SetDataResponse, enc_SetDataResponse, wf_SetDataResponse. record_writes. Qed.
#[local] Hint Resolve serialize_SetDataResponse_writes : jute.
Lemma serialize_GetSASLRequest_writes (v : GetSASLRequest) : wf_GetSASLRequest v → writes (serialize_GetSASLRequest v) (enc_GetSASLRequest v).
Proof. unfold serialize_GetSASLRequest, enc_GetSASLRequest, wf_GetSASLRequest. record_writes. Qed.
#[local] Hint Resolve serialize_GetSASLRequest_writes : jute.
Lemma serialize_SetSASLRequest_writes (v : SetSASLRequest) : wf_SetSASLRequest v → writes (serialize_SetSASLRequest v) (enc_SetSASLRequest v).
Proof. unfold serialize_SetSASLRequest, enc_SetSASLRequest, wf_SetSASLRequest. record_writes. Qed.
#[local] Hint Resolve serialize_SetSASLRequest_writes : jute.
Lemma serialize_SetSASLResponse_writes (v : SetSASLResponse) : wf_SetSASLResponse v → writes (serialize_SetSASLResponse v) (enc_SetSASLResponse v).
Proof. unfold serialize_SetSASLResponse, enc_SetSASLResponse, wf_SetSASLResponse. record_writes. Qed.
#[local] Hint Resolve serialize_SetSASLResponse_writes : jute.
Lemma serialize_ACL_vector_writes (v : vector ACL) : wf_ACL_vector v → writes (serialize_ACL_vector v) (enc_ACL_vector v).
Proof. unfold serialize_ACL_vector, enc_ACL_vector, wf_ACL_vector. vector_writes. Qed.
#[local] Hint Resolve serialize_ACL_vector_writes : jute.
Lemma serialize_CreateRequest_writes (v : CreateRequest) : wf_CreateRequest v → writes (serialize_CreateRequest v) (enc_CreateRequest v).
Proof. unfold serialize_CreateRequest, enc_CreateRequest, wf_CreateRequest. record_writes. Qed.
#[local] Hint Resolve serialize_CreateRequest_writes : jute.
Lemma serialize_CreateTTLRequest_writes (v : CreateTTLRequest) : wf_CreateTTLRequest v → writes (serialize_CreateTTLRequest v) (enc_CreateTTLRequest v).
Proof. unfold serialize_CreateTTLRequest, enc_CreateTTLRequest, wf_CreateTTLRequest. record_writes. Qed.
#[local] Hint Resolve serialize_CreateTTLRequest_writes : jute.
Lemma serialize_DeleteRequest_writes (v : DeleteRequest) : wf_DeleteRequest v → writes (serialize_DeleteRequest v) (enc_DeleteRequest v).
Proof. unfold serialize_DeleteRequest, enc_DeleteRequest, wf_DeleteRequest. record_writes. Qed.
#[local] Hint Resolve serialize_DeleteRequest_writes : jute.
Lemma serialize_GetChildrenRequest_writes (v : GetChildrenRequest) : wf_GetChildrenRequest v → writes (serialize_GetChildrenRequest v) (enc_GetChildrenRequest v).
Proof. unfold serialize_GetChildrenRequest, enc_GetChildrenRequest, wf_GetChildrenRequest. record_writes. Qed.
#[local] Hint Resolve serialize_GetChildrenRequest_writes : jute.
Lemma serialize_GetChildren2Request_writes (v : GetChildren2Request) : wf_GetChildren2Request v → writes (serialize_GetChildren2Request v) (enc_GetChildren2Request v).
Proof. unfold serialize_GetChildren2Request, enc_GetChildren2Request, wf_GetChildren2Request. record_writes. Qed.
#[local] Hint Resolve serialize_GetChildren2Request_writes : jute.
Lemma serialize_CheckVersionRequest_writes (v : CheckVersionRequest) : wf_CheckVersionRequest v → writes (serialize_CheckVersionRequest v) (enc_CheckVersionRequest v).
Proof. unfold serialize_CheckVersionRequest, enc_CheckVersionRequest, wf_CheckVersionRequest. record_writes. Qed.
#[local] Hint Resolve serialize_CheckVersionRequest_writes : jute.
Lemma serialize_GetMaxChildrenRequest_writes (v : GetMaxChildrenRequest) : wf_GetMaxChildrenRequest v → writes (serialize_GetMaxChildrenRequest v) (enc_GetMaxChildrenRequest v).
Proof. unfold serialize_GetMaxChildrenRequest, enc_GetMaxChildrenRequest, wf_GetMaxChildrenRequest. record_writes. Qed.
#[local] Hint Resolve serialize_GetMaxChildrenRequest_writes : jute.
Lemma serialize_GetMaxChildrenResponse_writes (v : GetMaxChildrenResponse) : wf_GetMaxChildrenResponse v → writes (serialize_GetMaxChildrenResponse v) (enc_GetMaxChildrenResponse v).
Proof. unfold serialize_GetMaxChildrenResponse, enc_GetMaxChildrenResponse, wf_GetMaxChildrenResponse. record_writes. Qed.
#[local] Hint Resolve serialize_GetMaxChildrenResponse_writes : jute.
Lemma serialize_SetMaxChildrenRequest_writes (v : SetMaxChildrenRequest) : wf_SetMaxChildrenRequest v → writes (serialize_SetMaxChildrenRequest v) (enc_SetMaxChildrenRequest v).
Proof. unfold serialize_SetMaxChildrenRequest, enc_SetMaxChildrenRequest, wf_SetMaxChildrenRequest. record_writes. Qed.
#[local] Hint Resolve serialize_SetMaxChildrenRequest_writes : jute.
Lemma serialize_SyncRequest_writes (v : SyncRequest) : wf_SyncRequest v → writes (serialize_SyncRequest v) (enc_SyncRequest v).
Proof. unfold serialize_SyncRequest, enc_SyncRequest, wf_SyncRequest. record_writes. Qed.
#[local] Hint Resolve serialize_SyncRequest_writes : jute.
Lemma serialize_SyncResponse_writes (v : SyncResponse) : wf_SyncResponse v → writes (serialize_SyncResponse v) (enc_SyncResponse v).
Proof. unfold serialize_SyncResponse, enc_SyncResponse, wf_SyncResponse. record_writes. Qed.
#[local] Hint Resolve serialize_SyncResponse_writes : jute.
Lemma serialize_GetACLRequest_writes (v : GetACLRequest) : wf_GetACLRequest v → writes (serialize_GetACLRequest v) (enc_GetACLRequest v).
Proof. unfold serialize_GetACLRequest, enc_GetACLRequest, wf_GetACLRequest. record_writes. Qed.
#[local] Hint Resolve serialize_GetACLRequest_writes : jute.
Lemma serialize_SetACLRequest_writes (v : SetACLRequest) : wf_SetACLRequest v → writes (serialize_SetACLRequest v) (enc_SetACLRequest v).
Proof. unfold serialize_SetACLRequest, enc_SetACLRequest, wf_SetACLRequest. record_writes. Qed.
#[local] Hint Resolve serialize_SetACLRequest_writes : jute.
Lemma serialize_SetACLResponse_writes (v : SetACLResponse) : wf_SetACLResponse v → writes (serialize_SetACLResponse v) (enc_SetACLResponse v).
Proof. unfold serialize_SetACLResponse, enc_SetACLResponse, wf_SetACLResponse. record_writes. Qed.
#[local] Hint Resolve serialize_SetACLResponse_writes : jute.
Lemma serialize_WatcherEvent_writes (v : WatcherEvent) : wf_WatcherEvent v → writes (serialize_WatcherEvent v) (enc_WatcherEvent v).
Proof. unfold serialize_WatcherEvent, enc_WatcherEvent, wf_WatcherEvent. record_writes. Qed.
#[local] Hint Resolve serialize_WatcherEvent_writes : jute.
Lemma serialize_ErrorResponse_writes (v : ErrorResponse) : wf_ErrorResponse v → writes (serialize_ErrorResponse v) (enc_ErrorResponse v).
Proof. unfold serialize_ErrorResponse, enc_ErrorResponse, wf_ErrorResponse. record_writes. Qed.
#[local] Hint Resolve serialize_ErrorResponse_writes : jute.
Lemma serialize_CreateResponse_writes (v : CreateResponse) : wf_CreateResponse v → writes (serialize_CreateResponse v) (enc_CreateResponse v).
Proof. unfold serialize_CreateResponse, enc_CreateResponse, wf_CreateResponse. record_writes. Qed.
#[local] Hint Resolve serialize_CreateResponse_writes : jute.
Lemma serialize_Create2Response_writes (v : Create2Response) : wf_Create2Response v → writes (serialize_Create2Response v) (enc_Create2Response v).
Proof. unfold serialize_Create2Response, enc_Create2Response, wf_Create2Response. record_writes. Qed.
#[local] Hint Resolve serialize_Create2Response_writes : jute.
Lemma serialize_ExistsRequest_writes (v : ExistsRequest) : wf_ExistsRequest v → writes (serialize_ExistsRequest v) (enc_ExistsRequest v).
Proof. unfold serialize_ExistsRequest, enc_ExistsRequest, wf_ExistsRequest. record_writes. Qed.
#[local] Hint Resolve serialize_ExistsRequest_writes : jute.
Lemma serialize_ExistsResponse_writes (v : ExistsResponse) : wf_ExistsResponse v → writes (serialize_ExistsResponse v) (enc_ExistsResponse v).
Proof. unfold serialize_ExistsResponse, enc_ExistsResponse, wf_ExistsResponse. record_writes. Qed.
#[local] Hint Resolve serialize_ExistsResponse_writes : jute.
Lemma serialize_GetDataResponse_writes (v : GetDataResponse) : wf_GetDataResponse v → writes (serialize_GetDataResponse v) (enc_GetDataResponse v).
Proof. unfold serialize_GetDataResponse, enc_GetDataResponse, wf_GetDataResponse. record_writes. Qed.
#[local] Hint Resolve serialize_GetDataResponse_writes : jute.
Lemma serialize_GetChildrenResponse_writes (v : GetChildrenResponse) : wf_GetChildrenResponse v → writes (serialize_GetChildrenResponse v) (enc_GetChildrenResponse v).
Proof. unfold serialize_GetChildrenResponse, enc_GetChildrenResponse, wf_GetChildrenResponse. record_writes. Qed.
#[local] Hint Resolve serialize_GetChildrenResponse_writes : jute.
Lemma serialize_GetChildren2Response_writes (v : GetChildren2Response) : wf_GetChildren2Response v → writes (serialize_GetChildren2Response v) (enc_GetChildren2Response v).
Proof. unfold serialize_GetChildren2Response, enc_GetChildren2Response, wf_GetChildren2Response. record_writes. Qed.
#[local] Hint Resolve serialize_GetChildren2Response_writes : jute.
Lemma serialize_GetACLResponse_writes (v : GetACLResponse) : wf_GetACLResponse v → writes (serialize_GetACLResponse v) (enc_GetACLResponse v).
Proof. unfold serialize_GetACLResponse, enc_GetACLResponse, wf_GetACLResponse. record_writes. Qed.
#[local] Hint Resolve serialize_GetACLResponse_writes : jute.
Lemma serialize_CheckWatchesRequest_writes (v : CheckWatchesRequest) : wf_CheckWatchesRequest v → writes (serialize_CheckWatchesRequest v) (enc_CheckWatchesRequest v).
Proof. unfold serialize_CheckWatchesRequest, enc_CheckWatchesRequest, wf_CheckWatchesRequest. record_writes. Qed.
#[local] Hint Resolve serialize_CheckWatchesRequest_writes : jute.
Lemma serialize_RemoveWatchesRequest_writes (v : RemoveWatchesRequest) : wf_RemoveWatchesRequest v → writes (serialize_RemoveWatchesRequest v) (enc_RemoveWatchesRequest v).
Proof. unfold serialize_RemoveWatchesRequest, enc_RemoveWatchesRequest, wf_RemoveWatchesRequest. record_writes. Qed.
#[local] Hint Resolve serialize_RemoveWatchesRequest_writes : jute.
Lemma serialize_LearnerInfo_writes (v : LearnerInfo) : wf_LearnerInfo v → writes (serialize_LearnerInfo v) (enc_LearnerInfo v).
Proof. unfold serialize_LearnerInfo, enc_LearnerInfo, wf_LearnerInfo. record_writes. Qed.
#[local] Hint Resolve serialize_LearnerInfo_writes : jute.
Lemma serialize_Id_vector_writes (v : vector Id) : wf_Id_vector v → writes (serialize_Id_vector v) (enc_Id_vector v).
Proof. unfold serialize_Id_vector, enc_Id_vector, wf_Id_vector. vector_writes. Qed.
#[local] Hint Resolve serialize_Id_vector_writes : jute.
Lemma serialize_QuorumPacket_writes (v : QuorumPacket) : wf_QuorumPacket v → writes (serialize_QuorumPacket v) (enc_QuorumPacket v).
Proof. unfold serialize_QuorumPacket, enc_QuorumPacket, wf_QuorumPacket. record_writes. Qed.
#[local] Hint Resolve serialize_QuorumPacket_writes : jute.
Lemma serialize_QuorumAuthPacket_writes (v : QuorumAuthPacket) : wf_QuorumAuthPacket v → writes (serialize_QuorumAuthPacket v) (enc_QuorumAuthPacket v).
Proof. unfold serialize_QuorumAuthPacket, enc_QuorumAuthPacket, wf_QuorumAuthPacket. record_writes. Qed.
#[local] Hint Resolve serialize_QuorumAuthPacket_writes : jute.
Lemma serialize_FileHeader_writes (v : FileHeader) : wf_FileHeader v → writes (serialize_FileHeader v) (enc_FileHeader v).
Proof. unfold serialize_FileHeader, enc_FileHeader, wf_FileHeader. record_writes. Qed.
#[local] Hint Resolve serialize_FileHeader_writes : jute.
Lemma serialize_TxnHeader_writes (v : TxnHeader) : wf_TxnHeader v → writes (serialize_TxnHeader v) (enc_TxnHeader v).
Proof. unfold serialize_TxnHeader, enc_TxnHeader, wf_TxnHeader. record_writes. Qed.
#[local] Hint Resolve serialize_TxnHeader_writes : jute.
Lemma serialize_CreateTxnV0_writes (v : CreateTxnV0) : wf_CreateTxnV0 v → writes (serialize_CreateTxnV0 v) (enc_CreateTxnV0 v).
Proof. unfold serialize_CreateTxnV0, enc_CreateTxnV0, wf_CreateTxnV0. record_writes. Qed.
#[local] Hint Resolve serialize_CreateTxnV0_writes : jute.
Lemma serialize_CreateTxn_writes (v : CreateTxn) : wf_CreateTxn v → writes (serialize_CreateTxn v) (enc_CreateTxn v).
Proof. unfold serialize_CreateTxn, enc_CreateTxn, wf_CreateTxn. record_writes. Qed.
#[local] Hint Resolve serialize_CreateTxn_writes : jute.
Lemma serialize_CreateTTLTxn_writes (v : CreateTTLTxn) : wf_CreateTTLTxn v → writes (serialize_CreateTTLTxn v) (enc_CreateTTLTxn v).
Proof. unfold serialize_CreateTTLTxn, enc_CreateTTLTxn, wf_CreateTTLTxn. record_writes. Qed.
#[local] Hint Resolve serialize_CreateTTLTxn_writes : jute.
Lemma serialize_CreateContainerTxn_writes (v : CreateContainerTxn) : wf_CreateContainerTxn v → writes (serialize_CreateContainerTxn v) (enc_CreateContainerTxn v).
Proof. unfold serialize_CreateContainerTxn, enc_CreateContainerTxn, wf_CreateContainerTxn. record_writes. Qed.
#[local] Hint Resolve serialize_CreateContainerTxn_writes : jute.
Lemma serialize_DeleteTxn_writes (v : DeleteTxn) : wf_DeleteTxn v → writes (serialize_DeleteTxn v) (enc_DeleteTxn v).
Proof. unfold serialize_DeleteTxn, enc_DeleteTxn, wf_DeleteTxn. record_writes. Qed.
#[local] Hint Resolve serialize_DeleteTxn_writes : jute.
Lemma serialize_SetDataTxn_writes (v : SetDataTxn) : wf_SetDataTxn v → writes (serialize_SetDataTxn v) (enc_SetDataTxn v).
Proof. unfold serialize_SetDataTxn, enc_SetDataTxn, wf_SetDataTxn. record_writes. Qed.
#[local] Hint Resolve serialize_SetDataTxn_writes : jute.
Lemma serialize_CheckVersionTxn_writes (v : CheckVersionTxn) : wf_CheckVersionTxn v → writes (serialize_CheckVersionTxn v) (enc_CheckVersionTxn v).
Proof. unfold serialize_CheckVersionTxn, enc_CheckVersionTxn, wf_CheckVersionTxn. record_writes. Qed.
#[local] Hint Resolve serialize_CheckVersionTxn_writes : jute.
Lemma serialize_SetACLTxn_writes (v : SetACLTxn) : wf_SetACLTxn v → writes (serialize_SetACLTxn v) (enc_SetACLTxn v).
Proof. unfold serialize_SetACLTxn, enc_SetACLTxn, wf_SetACLTxn. record_writes. Qed.
#[local] Hint Resolve serialize_SetACLTxn_writes : jute.
Lemma serialize_SetMaxChildrenTxn_writes (v : SetMaxChildrenTxn) : wf_SetMaxChildrenTxn v → writes (serialize_SetMaxChildrenTxn v) (enc_SetMaxChildrenTxn v).
Proof. unfold serialize_SetMaxChildrenTxn, enc_SetMaxChildrenTxn, wf_SetMaxChildrenTxn. record_writes. Qed.
#[local] Hint Resolve serialize_SetMaxChildrenTxn_writes : jute.
Lemma serialize_CreateSessionTxn_writes (v : CreateSessionTxn) : wf_CreateSessionTxn v → writes (serialize_CreateSessionTxn v) (enc_CreateSessionTxn v).
Proof. unfold serialize_CreateSessionTxn, enc_CreateSessionTxn, wf_CreateSessionTxn. record_writes. Qed.
#[local] Hint Resolve serialize_CreateSessionTxn_writes : jute.
Lemma serialize_ErrorTxn_writes (v : ErrorTxn) : wf_ErrorTxn v → writes (serialize_ErrorTxn v) (enc_ErrorTxn v).
Proof. unfold serialize_ErrorTxn, enc_ErrorTxn, wf_ErrorTxn. record_writes. Qed.
#[local] Hint Resolve serialize_ErrorTxn_writes : jute.
Lemma serialize_Txn_writes (v : Txn) : wf_Txn v → writes (serialize_Txn v) (enc_Txn v).
Proof. unfold serialize_Txn, enc_Txn, wf_Txn. record_writes. Qed.
#[local] Hint Resolve serialize_Txn_writes : jute.
Lemma serialize_Txn_vector_writes (v : vector Txn) : wf_Txn_vector v → writes (serialize_Txn_vector v) (enc_Txn_vector v).
Proof. unfold serialize_Txn_vector, enc_Txn_vector, wf_Txn_vector. vector_writes. Qed.
#[local] Hint Resolve serialize_Txn_vector_writes : jute.
Lemma serialize_MultiTxn_writes (v : MultiTxn) : wf_MultiTxn v → writes (serialize_MultiTxn v) (enc_MultiTxn v).
Proof. unfold serialize_MultiTxn, enc_MultiTxn, wf_MultiTxn. record_writes. Qed.
#[local] Hint Resolve serialize_MultiTxn_writes : jute.

Lemma ser_writes (t : jute_type) (v : denote t) : wf t v → writes (ser t v) (enc t v).
Proof.
  destruct t; simpl.
  - apply serialize_Id_writes.
  - apply serialize_ACL_writes.
  - apply serialize_Stat_writes.
  - apply serialize_StatPersisted_writes.
  - apply serialize_ConnectRequest_writes.
  - apply serialize_ConnectResponse_writes.
  - apply serialize_String_vector_writes.
  - apply serialize_SetWatches_writes.
  - apply serialize_RequestHeader_writes.
  - apply serialize_MultiHeader_writes.
  - apply serialize_AuthPacket_writes.
  - apply serialize_ReplyHeader_writes.
  - apply serialize_GetDataRequest_writes.
  - apply serialize_SetDataRequest_writes.
  - apply serialize_ReconfigRequest_writes.
  - apply serialize_SetDataResponse_writes.
  - apply serialize_GetSASLRequest_writes.
  - apply serialize_SetSASLRequest_writes.
  - apply serialize_SetSASLResponse_writes.
  - apply serialize_ACL_vector_writes.
  - apply serialize_CreateRequest_writes.
  - apply serialize_CreateTTLRequest_writes.
  - apply serialize_DeleteRequest_writes.
  - apply serialize_GetChildrenRequest_writes.
  - apply serialize_GetChildren2Request_writes.
  - apply serialize_CheckVersionRequest_writes.
  - apply serialize_GetMaxChildrenRequest_writes.
  - apply serialize_GetMaxChildrenResponse_writes.
  - apply serialize_SetMaxChildrenRequest_writes.
  - apply serialize_SyncRequest_writes.
  - apply serialize_SyncResponse_writes.
  - apply serialize_GetACLRequest_writes.
  - apply serialize_SetACLRequest_writes.
  - apply serialize_SetACLResponse_writes.
  - apply serialize_WatcherEvent_writes.
  - apply serialize_ErrorResponse_writes.
  - apply serialize_CreateResponse_writes.
  - apply serialize_Create2Response_writes.
  - apply serialize_ExistsRequest_writes.
  - apply serialize_ExistsResponse_writes.
  - apply serialize_GetDataResponse_writes.
  - apply serialize_GetChildrenResponse_writes.
  - apply serialize_GetChildren2Response_writes.
  - apply serialize_GetACLResponse_writes.
  - apply serialize_CheckWatchesRequest_writes.
  - apply serialize_RemoveWatchesRequest_writes.
  - apply serialize_LearnerInfo_writes.
  - apply serialize_Id_vector_writes.
  - apply serialize_QuorumPacket_writes.
  - apply serialize_QuorumAuthPacket_writes.
  - apply serialize_FileHeader_writes.
  - apply serialize_TxnHeader_writes.
  - apply serialize_CreateTxnV0_writes.
  - apply serialize_CreateTxn_writes.
  - apply serialize_CreateTTLTxn_writes.
  - apply serialize_CreateContainerTxn_writes.
  - apply serialize_DeleteTxn_writes.
  - apply serialize_SetDataTxn_writes.
  - apply serialize_CheckVersionTxn_writes.
  - apply serialize_SetACLTxn_writes.
  - apply serialize_SetMaxChildrenTxn_writes.
  - apply serialize_CreateSessionTxn_writes.
  - apply serialize_ErrorTxn_writes.
  - apply serialize_Txn_writes.
  - apply serialize_Txn_vector_writes.
  - apply serialize_MultiTxn_writes.
Qed.
End records_write.

Section records_safe.
Context `{Host}.

Lemma deserialize_Id_safe : safe deserialize_Id.
Proof. unfold deserialize_Id. record_safe. Qed.
#[local] Hint Resolve deserialize_Id_safe : jute.
Lemma deserialize_ACL_safe : safe deserialize_ACL.
Proof. unfold deserialize_ACL. record_safe. Qed.
#[local] Hint Resolve deserialize_ACL_safe : jute.
Lemma deserialize_Stat_safe : safe deserialize_Stat.
Proof. unfold deserialize_Stat. record_safe. Qed.
#[local] Hint Resolve deserialize_Stat_safe : jute.
Lemma deserialize_StatPersisted_safe : safe deserialize_StatPersisted.
Proof. unfold deserialize_StatPersisted. record_safe. Qed.
#[local] Hint Resolve deserialize_StatPersisted_safe : jute.
Lemma deserialize_ConnectRequest_safe : safe deserialize_ConnectRequest.
Proof. unfold deserialize_ConnectRequest. record_safe. Qed.
#[local] Hint Resolve deserialize_ConnectRequest_safe : jute.
Lemma deserialize_ConnectResponse_safe : safe deserialize_ConnectResponse.
Proof. unfold deserialize_ConnectResponse. record_safe. Qed.
#[local] Hint Resolve deserialize_ConnectResponse_safe : jute.
Lemma deserialize_String_vector_safe : safe deserialize_String_vector.
Proof. unfold deserialize_String_vector. vector_safe. Qed.
#[local] Hint Resolve deserialize_String_vector_safe : jute.
Lemma deserialize_SetWatches_safe : safe deserialize_SetWatches.
Proof. unfold deserialize_SetWatches. record_safe. Qed.
#[local] Hint Resolve deserialize_SetWatches_safe : jute.
Lemma deserialize_RequestHeader_safe : safe deserialize_RequestHeader.
Proof. unfold deserialize_RequestHeader. record_safe. Qed.
#[local] Hint Resolve deserialize_RequestHeader_safe : jute.
Lemma deserialize_MultiHeader_safe : safe deserialize_MultiHeader.
Proof. unfold deserialize_MultiHeader. record_safe. Qed.
#[local] Hint Resolve deserialize_MultiHeader_safe : jute.
Lemma deserialize_AuthPacket_safe : safe deserialize_AuthPacket.
Proof. unfold deserialize_AuthPacket. record_safe. Qed.
#[local] Hint Resolve deserialize_AuthPacket_safe : jute.
Lemma deserialize_ReplyHeader_safe : safe deserialize_ReplyHeader.
Proof. unfold deserialize_ReplyHeader. record_safe. Qed.
#[local] Hint Resolve deserialize_ReplyHeader_safe : jute.
Lemma deserialize_GetDataRequest_safe : safe deserialize_GetDataRequest.
Proof. unfold deserialize_GetDataRequest. record_safe. Qed.
#[local] Hint Resolve deserialize_GetDataRequest_safe : jute.
Lemma deserialize_SetDataRequest_safe : safe deserialize_SetDataRequest.
Proof. unfold deserialize_SetDataRequest. record_safe. Qed.
#[local] Hint Resolve deserialize_SetDataRequest_safe : jute.
Lemma deserialize_ReconfigRequest_safe : safe deserialize_ReconfigRequest.
Proof. unfold deserialize_ReconfigRequest. record_safe. Qed.
#[local] Hint Resolve deserialize_ReconfigRequest_safe : jute.
Lemma deserialize_SetDataResponse_safe : safe deserialize_SetDataResponse.
Proof. unfold deserialize_SetDataResponse. record_safe. Qed.
#[local] Hint Resolve deserialize_SetDataResponse_safe : jute.
Lemma deserialize_GetSASLRequest_safe : safe deserialize_GetSASLRequest.
Proof. unfold deserialize_GetSASLRequest. record_safe. Qed.
#[local] Hint Resolve deserialize_GetSASLRequest_safe : jute.
Lemma deserialize_SetSASLRequest_safe : safe deserialize_SetSASLRequest.
Proof. unfold deserialize_SetSASLRequest. record_safe. Qed.
#[local] Hint Resolve deserialize_SetSASLRequest_safe : jute.
Lemma deserialize_SetSASLResponse_safe : safe deserialize_SetSASLResponse.
Proof. unfold deserialize_SetSASLResponse. record_safe. Qed.
#[local] Hint Resolve deserialize_SetSASLResponse_safe : jute.
Lemma deserialize_ACL_vector_safe : safe deserialize_ACL_vector.
Proof. unfold deserialize_ACL_vector. vector_safe. Qed.
#[local] Hint Resolve deserialize_ACL_vector_safe : jute.
Lemma deserialize_CreateRequest_safe : safe deserialize_CreateRequest.
Proof. unfold deserialize_CreateRequest. record_safe. Qed.
#[local] Hint Resolve deserialize_CreateRequest_safe : jute.
Lemma deserialize_CreateTTLRequest_safe : safe deserialize_CreateTTLRequest.
Proof. unfold deserialize_CreateTTLRequest. record_safe. Qed.
#[local] Hint Resolve deserialize_CreateTTLRequest_safe : jute.
Lemma deserialize_DeleteRequest_safe : safe deserialize_DeleteRequest.
Proof. unfold deserialize_DeleteRequest. record_safe. Qed.
#[local] Hint Resolve deserialize_DeleteRequest_safe : jute.
Lemma deserialize_GetChildrenRequest_safe : safe deserialize_GetChildrenRequest.
Proof. unfold deserialize_GetChildrenRequest. record_safe. Qed.
#[local] Hint Resolve deserialize_GetChildrenRequest_safe : jute.
Lemma deserialize_GetChildren2Request_safe : safe deserialize_GetChildren2Request.
Proof. unfold deserialize_GetChildren2Request. record_safe. Qed.
#[local] Hint Resolve deserialize_GetChildren2Request_safe : jute.
Lemma deserialize_CheckVersionRequest_safe : safe deserialize_CheckVersionRequest.
Proof. unfold deserialize_CheckVersionRequest. record_safe. Qed.
#[local] Hint Resolve deserialize_CheckVersionRequest_safe : jute.
Lemma deserialize_GetMaxChildrenRequest_safe : safe deserialize_GetMaxChildrenRequest.
Proof. unfold deserialize_GetMaxChildrenRequest. record_safe. Qed.
#[local] Hint Resolve deserialize_GetMaxChildrenRequest_safe : jute.
Lemma deserialize_GetMaxChildrenResponse_safe : safe deserialize_GetMaxChildrenResponse.
Proof. unfold deserialize_GetMaxChildrenResponse. record_safe. Qed.
#[local] Hint Resolve deserialize_GetMaxChildrenResponse_safe : jute.
Lemma deserialize_SetMaxChildrenRequest_safe : safe deserialize_SetMaxChildrenRequest.
Proof. unfold deserialize_SetMaxChildrenRequest. record_safe. Qed.
#[local] Hint Resolve deserialize_SetMaxChildrenRequest_safe : jute.
Lemma deserialize_SyncRequest_safe : safe deserialize_SyncRequest.
Proof. unfold deserialize_SyncRequest. record_safe. Qed.
#[local] Hint Resolve deserialize_SyncRequest_safe : jute.
Lemma deserialize_SyncResponse_safe : safe deserialize_SyncResponse.
Proof. unfold deserialize_SyncResponse. record_safe. Qed.
#[local] Hint Resolve deserialize_SyncResponse_safe : jute.
Lemma deserialize_GetACLRequest_safe : safe deserialize_GetACLRequest.
Proof. unfold deserialize_GetACLRequest. record_safe. Qed.
#[local] Hint Resolve deserialize_GetACLRequest_safe : jute.
Lemma deserialize_SetACLRequest_safe : safe deserialize_SetACLRequest.
Proof. unfold deserialize_SetACLRequest. record_safe. Qed.
#[local] Hint Resolve deserialize_SetACLRequest_safe : jute.
Lemma deserialize_SetACLResponse_safe : safe deserialize_SetACLResponse.
Proof. unfold deserialize_SetACLResponse. record_safe. Qed.
#[local] Hint Resolve deserialize_SetACLResponse_safe : jute.
Lemma deserialize_WatcherEvent_safe : safe deserialize_WatcherEvent.
Proof. unfold deserialize_WatcherEvent. record_safe. Qed.
#[local] Hint Resolve deserialize_WatcherEvent_safe : jute.
Lemma deserialize_ErrorResponse_safe : safe deserialize_ErrorResponse.
Proof. unfold deserialize_ErrorResponse. record_safe. Qed.
#[local] Hint Resolve deserialize_ErrorResponse_safe : jute.
Lemma deserialize_CreateResponse_safe : safe deserialize_CreateResponse.
Proof. unfold deserialize_CreateResponse. record_safe. Qed.
#[local] Hint Resolve deserialize_CreateResponse_safe : jute.
Lemma deserialize_Create2Response_safe : safe deserialize_Create2Response.
Proof. unfold deserialize_Create2Response. record_safe. Qed.
#[local] Hint Resolve deserialize_Create2Response_safe : jute.
Lemma deserialize_ExistsRequest_safe : safe deserialize_ExistsRequest.
Proof. unfold deserialize_ExistsRequest. record_safe. Qed.
#[local] Hint Resolve deserialize_ExistsRequest_safe : jute.
Lemma deserialize_ExistsResponse_safe : safe deserialize_ExistsResponse.
Proof. unfold deserialize_ExistsResponse. record_safe. Qed.
#[local] Hint Resolve deserialize_ExistsResponse_safe : jute.
Lemma deserialize_GetDataResponse_safe : safe deserialize_GetDataResponse.
Proof. unfold deserialize_GetDataResponse. record_safe. Qed.
#[local] Hint Resolve deserialize_GetDataResponse_safe : jute.
Lemma deserialize_GetChildrenResponse_safe : safe deserialize_GetChildrenResponse.
Proof. unfold deserialize_GetChildrenResponse. record_safe. Qed.
#[local] Hint Resolve deserialize_GetChildrenResponse_safe : jute.
Lemma deserialize_GetChildren2Response_safe : safe deserialize_GetChildren2Response.
Proof. unfold deserialize_GetChildren2Response. record_safe. Qed.
#[local] Hint Resolve deserialize_GetChildren2Response_safe : jute.
Lemma deserialize_GetACLResponse_safe : safe deserialize_GetACLResponse.
Proof. unfold deserialize_GetACLResponse. record_safe. Qed.
#[local] Hint Resolve deserialize_GetACLResponse_safe : jute.
Lemma deserialize_CheckWatchesRequest_safe : safe deserialize_CheckWatchesRequest.
Proof. unfold deserialize_CheckWatchesRequest. record_safe. Qed.
#[local] Hint Resolve deserialize_CheckWatchesRequest_safe : jute.
Lemma deserialize_RemoveWatchesRequest_safe : safe deserialize_RemoveWatchesRequest.
Proof. unfold deserialize_RemoveWatchesRequest. record_safe. Qed.
#[local] Hint Resolve deserialize_RemoveWatchesRequest_safe : jute.
Lemma deserialize_LearnerInfo_safe : safe deserialize_LearnerInfo.
Proof. unfold deserialize_LearnerInfo. record_safe. Qed.
#[local] Hint Resolve deserialize_LearnerInfo_safe : jute.
Lemma deserialize_Id_vector_safe : safe deserialize_Id_vector.
Proof. unfold deserialize_Id_vector. vector_safe. Qed.
#[local] Hint Resolve deserialize_Id_vector_safe : jute.
Lemma deserialize_QuorumPacket_safe : safe deserialize_QuorumPacket.
Proof. unfold deserialize_QuorumPacket. record_safe. Qed.
#[local] Hint Resolve deserialize_QuorumPacket_safe : jute.
Lemma deserialize_QuorumAuthPacket_safe : safe deserialize_QuorumAuthPacket.
Proof. unfold deserialize_QuorumAuthPacket. record_safe. Qed.
#[local] Hint Resolve deserialize_QuorumAuthPacket_safe : jute.
Lemma deserialize_FileHeader_safe : safe deserialize_FileHeader.
Proof. unfold deserialize_FileHeader. record_safe. Qed.
#[local] Hint Resolve deserialize_FileHeader_safe : jute.
Lemma deserialize_TxnHeader_safe : safe deserialize_TxnHeader.
Proof. unfold deserialize_TxnHeader. record_safe. Qed.
#[local] Hint Resolve deserialize_TxnHeader_safe : jute.
Lemma deserialize_CreateTxnV0_safe : safe deserialize_CreateTxnV0.
Proof. unfold deserialize_CreateTxnV0. record_safe. Qed.
#[local] Hint Resolve deserialize_CreateTxnV0_safe : jute.
Lemma deserialize_CreateTxn_safe : safe deserialize_CreateTxn.
Proof. unfold deserialize_CreateTxn. record_safe. Qed.
#[local] Hint Resolve deserialize_CreateTxn_safe : jute.
Lemma deserialize_CreateTTLTxn_safe : safe deserialize_CreateTTLTxn.
Proof. unfold deserialize_CreateTTLTxn. record_safe. Qed.
#[local] Hint Resolve deserialize_CreateTTLTxn_safe : jute.
Lemma deserialize_CreateContainerTxn_safe : safe deserialize_CreateContainerTxn.
Proof. unfold deserialize_CreateContainerTxn. record_safe. Qed.
#[local] Hint Resolve deserialize_CreateContainerTxn_safe : jute.
Lemma deserialize_DeleteTxn_safe : safe deserialize_DeleteTxn.
Proof. unfold deserialize_DeleteTxn. record_safe. Qed.
#[local] Hint Resolve deserialize_DeleteTxn_safe : jute.
Lemma deserialize_SetDataTxn_safe : safe deserialize_SetDataTxn.
Proof. unfold deserialize_SetDataTxn. record_safe. Qed.
#[local] Hint Resolve deserialize_SetDataTxn_safe : jute.
Lemma deserialize_CheckVersionTxn_safe : safe deserialize_CheckVersionTxn.
Proof. unfold deserialize_CheckVersionTxn. record_safe. Qed.
#[local] Hint Resolve deserialize_CheckVersionTxn_safe : jute.
Lemma deserialize_SetACLTxn_safe : safe deserialize_SetACLTxn.
Proof. unfold deserialize_SetACLTxn. record_safe. Qed.
#[local] Hint Resolve deserialize_SetACLTxn_safe : jute.
Lemma deserialize_SetMaxChildrenTxn_safe : safe deserialize_SetMaxChildrenTxn.
Proof. unfold deserialize_SetMaxChildrenTxn. record_safe. Qed.
#[local] Hint Resolve deserialize_SetMaxChildrenTxn_safe : jute.
Lemma deserialize_CreateSessionTxn_safe : safe deserialize_CreateSessionTxn.
Proof. unfold deserialize_CreateSessionTxn. record_safe. Qed.
#[local] Hint Resolve deserialize_CreateSessionTxn_safe : jute.
Lemma deserialize_ErrorTxn_safe : safe deserialize_ErrorTxn.
Proof. unfold deserialize_ErrorTxn. record_safe. Qed.
#[local] Hint Resolve deserialize_ErrorTxn_safe : jute.
Lemma deserialize_Txn_safe : safe deserialize_Txn.
Proof. unfold deserialize_Txn. record_safe. Qed.
#[local] Hint Resolve deserialize_Txn_safe : jute.
Lemma deserialize_Txn_vector_safe : safe deserialize_Txn_vector.
Proof. unfold deserialize_Txn_vector. vector_safe. Qed.
#[local] Hint Resolve deserialize_Txn_vector_safe : jute.
Lemma deserialize_MultiTxn_safe : safe deserialize_MultiTxn.
Proof. unfold deserialize_MultiTxn. record_safe. Qed.
#[local] Hint Resolve deserialize_MultiTxn_safe : jute.

Lemma des_safe (t : jute_type) : safe (des t).
Proof.
  destruct t; simpl.
  - apply deserialize_Id_safe.
  - apply deserialize_ACL_safe.
  - apply deserialize_Stat_safe.
  - apply deserialize_StatPersisted_safe.
  - apply deserialize_ConnectRequest_safe.
  - apply deserialize_ConnectResponse_safe.
  - apply deserialize_String_vector_safe.
  - apply deserialize_SetWatches_safe.
  - apply deserialize_RequestHeader_safe.
  - apply deserialize_MultiHeader_safe.
  - apply deserialize_AuthPacket_safe.
  - apply deserialize_ReplyHeader_safe.
  - apply deserialize_GetDataRequest_safe.
  - apply deserialize_SetDataRequest_safe.
  - apply deserialize_ReconfigRequest_safe.
  - apply deserialize_SetDataResponse_safe.
  - apply deserialize_GetSASLRequest_safe.
  - apply deserialize_SetSASLRequest_safe.
  - apply deserialize_SetSASLResponse_safe.
  - apply deserialize_ACL_vector_safe.
  - apply deserialize_CreateRequest_safe.
  - apply deserialize_CreateTTLRequest_safe.
  - apply deserialize_DeleteRequest_safe.
  - apply deserialize_GetChildrenRequest_safe.
  - apply deserialize_GetChildren2Request_safe.
  - apply deserialize_CheckVersionRequest_safe.
  - apply deserialize_GetMaxChildrenRequest_safe.
  - apply deserialize_GetMaxChildrenResponse_safe.
  - apply deserialize_SetMaxChildrenRequest_safe.
  - apply deserialize_SyncRequest_safe.
  - apply deserialize_SyncResponse_safe.
  - apply deserialize_GetACLRequest_safe.
  - apply deserialize_SetACLRequest_safe.
  - apply deserialize_SetACLResponse_safe.
  - apply deserialize_WatcherEvent_safe.
  - apply deserialize_ErrorResponse_safe.
  - apply deserialize_CreateResponse_safe.
  - apply deserialize_Create2Response_safe.
  - apply deserialize_ExistsRequest_safe.
  - apply deserialize_ExistsResponse_safe.
  - apply deserialize_GetDataResponse_safe.
  - apply deserialize_GetChildrenResponse_safe.
  - apply deserialize_GetChildren2Response_safe.
  - apply deserialize_GetACLResponse_safe.
  - apply deserialize_CheckWatchesRequest_safe.
  - apply deserialize_RemoveWatchesRequest_safe.
  - apply deserialize_LearnerInfo_safe.
  - apply deserialize_Id_vector_safe.
  - apply deserialize_QuorumPacket_safe.
  - apply deserialize_QuorumAuthPacket_safe.
  - apply deserialize_FileHeader_safe.
  - apply deserialize_TxnHeader_safe.
  - apply deserialize_CreateTxnV0_safe.
  - apply deserialize_CreateTxn_safe.
  - apply deserialize_CreateTTLTxn_safe.
  - apply deserialize_CreateContainerTxn_safe.
  - apply deserialize_DeleteTxn_safe.
  - apply deserialize_SetDataTxn_safe.
  - apply deserialize_CheckVersionTxn_safe.
  - apply deserialize_SetACLTxn_safe.
  - apply deserialize_SetMaxChildrenTxn_safe.
  - apply deserialize_CreateSessionTxn_safe.
  - apply deserialize_ErrorTxn_safe.
  - apply deserialize_Txn_safe.
  - apply deserialize_Txn_vector_safe.
  - apply deserialize_MultiTxn_safe.
Qed.
End records_safe.

