(* ===== verification/JuteTheorems.v ===== *)
(** * Theorems about the protocol records

    Round trip, memory safety on arbitrary input, unambiguity of the encoding and
    behaviour under allocation failure, each for every record of [jute_type], with
    the buffer archives of recordio.c underneath. *)

From S2P Require Import Prelude RecordIO RecordIOFacts Jute JuteSpec.
Local Open Scope Z_scope.

(** ** Theorems about every record *)
Global Instance buff_struct_heap_ok `{Host} : HeapOK buff_struct.
Proof.
  split. intros n s bs Hn Hp. exists s. pose proof Hp as (b & _ & _ & _ & _ & _ & Ha).
  split; [|done]. simpl. unfold alloc_bytes.
  rewrite (proj2 (Z.ltb_lt _ _)), Ha by lia. simpl. by rewrite set_bs_alloc_nil.
Qed.

(** A reader on exactly the bytes [bs], and on its first [length bs] bytes. *)
Definition reader (bs : list byte) : buff_struct :=
  mk_buff (Z.of_nat (length bs)) 0 (Some bs) [].

Lemma reader_pending `{Host} bs :
  Z.of_nat (length bs) ≤ INT_MAX → pending (reader bs) bs.
Proof. intros Hl. exists bs. simpl. rewrite drop_0. split_and!; done || lia. Qed.

(** The same with any allocator. *)
Definition reader_with (o : allocs) (bs : list byte) : buff_struct :=
  mk_buff (Z.of_nat (length bs)) 0 (Some bs) o.
Lemma reader_inv o bs : Z.of_nat (length bs) ≤ INT_MAX → ia_inv (reader_with o bs).
Proof. intros Hl. unfold ia_inv; simpl. split_and!; try lia. by exists bs. Qed.

Definition little : Host := {| big_endian := false; char_signed := true |}.
Definition big : Host := {| big_endian := true; char_signed := false |}.

(** C1.  Round trip of every protocol record between any two hosts.  A record of
    any type whose values fit the wire, serialized into a fresh archive on a host
    of either byte order, leaves exactly its encoding in the archive; an input
    archive created on those bytes on another host of either byte order
    deserializes to the same record, whatever the target held before. *)
Theorem jute_roundtrip (H1 H2 : Host) (t : jute_type) (v old : denote t) (s0 : buff_struct) :
  wf t v → Z.of_nat (length (enc t v)) ≤ oa_limit →
  create_buffer_oarchive [] = Some s0 →
  ∃ s1 r0 r1,
    @ser _ (@oa_default H1) t v s0 = Ret (0, s1) ∧
    get_buffer s1 = Some (enc t v) ∧ get_buffer_len s1 = Z.of_nat (length (enc t v)) ∧
    create_buffer_iarchive (get_buffer s1) (get_buffer_len s1) [] = Some r0 ∧
    @des _ (@ia_default H2) _ t old r0 = Ret (0, v, r1) ∧
    bs_off r1 = get_buffer_len s1.
Proof.
  intros Hwf Hlim [= <-]. pose proof (@ser_writes H1 t v Hwf) as Hw.
  destruct (Hw (mk_buff 128 0 (Some []) [])) as (s1 & [(E1 & I1 & W1 & O1 & _)|(_ & _ & Hn)]);
    [by exists [], 7; split_and!; done || lia|done| |done].
  pose proof I1 as (b & k & Hb & Hbl & _). unfold oa_written in W1. rewrite Hb in W1.
  cbn [from_option id bs_buffer app] in W1. subst b.
  assert (pending (reader (enc t v)) (enc t v ++ [])) as Hp.
  { rewrite app_nil_r. apply reader_pending. unfold oa_limit in Hlim. lia. }
  destruct (@des_reads _ _ _ (@ia_default_ok H2) _ (@buff_struct_heap_ok H2) t v Hwf old _ _ Hp)
    as (r1 & E2 & (b & Hb2 & Hpos & Hle & Hd & _ & _)).
  exists s1, (reader (enc t v)), r1. unfold get_buffer, get_buffer_len.
  rewrite Hb, <-Hbl. split_and!; [exact E1|done|done|done|exact E2|].
  pose proof (@des_safe H2 t old (reader (enc t v)) (reader_inv [] (enc t v) ltac:(unfold oa_limit in Hlim; lia))) as Hs.
  rewrite E2 in Hs. destruct Hs as [(_ & Ho & _) B3 L3 _ _]. rewrite Hb2 in B3. injection B3 as ->.
  rewrite L3 in Ho. simpl in Ho.
  apply (f_equal length) in Hd. rewrite length_drop in Hd. simpl in Hd. lia.
Qed.

Lemma jute_roundtrip_witness :
  ∃ s1 r0 r1,
    @ser _ (@oa_default little) T_RequestHeader (mk_RequestHeader 1 4)
      (mk_buff 128 0 (Some []) []) = Ret (0, s1) ∧
    get_buffer s1 = Some (enc T_RequestHeader (mk_RequestHeader 1 4)) ∧
    get_buffer_len s1 = 8 ∧
    create_buffer_iarchive (get_buffer s1) (get_buffer_len s1) [] = Some r0 ∧
    @des _ (@ia_default big) _ T_RequestHeader zero_RequestHeader r0
      = Ret (0, mk_RequestHeader 1 4, r1) ∧
    bs_off r1 = get_buffer_len s1.
Proof.
  apply (jute_roundtrip little big T_RequestHeader (mk_RequestHeader 1 4) zero_RequestHeader);
    [split; split; done|done|reflexivity].
Defined.

(** C32.  Reading any record from arbitrary bytes.  On a block of any contents and with
    any allocator, deserializing any record type on a host of either byte order
    returns, reads only inside the block and leaves the offset between 0 and the
    block's length, from where the reading can go on; or the allocator has refused a
    request, and a vector whose [calloc] is not tested is written through NULL.  If the
    allocator serves every request the reading returns. *)
Theorem jute_parse_safe (H : Host) (o : allocs) (t : jute_type) (v : denote t) (bs : list byte) :
  Z.of_nat (length bs) ≤ INT_MAX →
  ((∃ rc v' s', des t v (reader_with o bs) = Ret (rc, v', s') ∧ bs_buffer s' = Some bs ∧
      0 ≤ bs_off s' ≤ Z.of_nat (length bs)) ∨
   (des t v (reader_with o bs) = UB ∧ false ∈ o)) ∧
  (false ∉ o → ∃ rc v' s', des t v (reader_with o bs) = Ret (rc, v', s')).
Proof.
  intros Hl. pose proof (des_safe t v (reader_with o bs) (reader_inv o bs Hl)) as Hs.
  destruct (des t v (reader_with o bs)) as [[[rc v'] s']| | |]; [|done| |done].
  - destruct Hs as [(_ & Ho & _) B L _ _]. split; [left|intros _; by exists rc, v', s'].
    exists rc, v', s'. rewrite L in Ho. simpl in Ho. split_and!; [done..|lia|lia].
  - split; [by right|]. by intros [].
Qed.

Lemma jute_parse_safe_witness :
  let bs := [Byte.x00; Byte.x00; Byte.x00; Byte.x01; Byte.x00; Byte.x00; Byte.x00; Byte.x01; Byte.x61] in
  (∃ rc v' s', @des _ (@ia_default little) _ T_String_vector zero_String_vector (reader_with [] bs) = Ret (rc, v', s')) ∧
  ((∃ rc v' s', @des _ (@ia_default little) _ T_String_vector zero_String_vector (reader_with [false] bs) = Ret (rc, v', s') ∧
      bs_buffer s' = Some bs ∧ 0 ≤ bs_off s' ≤ 9) ∨
   (@des _ (@ia_default little) _ T_String_vector zero_String_vector (reader_with [false] bs) = UB ∧ false ∈ [false])).
Proof.
  intros bs. split.
  - apply (jute_parse_safe little [] T_String_vector zero_String_vector bs); [by vm_compute|by intros ?%elem_of_nil].
  - apply (jute_parse_safe little [false] T_String_vector zero_String_vector bs). by vm_compute.
Defined.
(** The vector of the last example is undefined. *)
Example vector_calloc_untested :
  @des _ (@ia_default little) _ T_String_vector zero_String_vector
    (reader_with [false] [Byte.x00; Byte.x00; Byte.x00; Byte.x01; Byte.x00; Byte.x00; Byte.x00; Byte.x01; Byte.x61]) = UB.
Proof. vm_compute. reflexivity. Qed.

(** The encoding is unambiguous.  Two byte streams that start with the
    encodings of two records of one type, both within the wire's range, are equal
    only if the records are and the rests are: no encoding is a proper prefix of
    another and different records have different encodings. *)
Theorem enc_unambiguous (t : jute_type) (v1 v2 : denote t) (r1 r2 : list byte) :
  wf t v1 → wf t v2 → Z.of_nat (length (enc t v1 ++ r1)) ≤ INT_MAX →
  enc t v1 ++ r1 = enc t v2 ++ r2 → v1 = v2 ∧ r1 = r2.
Proof.
  intros W1 W2 Hl Heq.
  pose proof (@reader_pending little _ Hl) as P1. pose proof P1 as P2.
  rewrite Heq in P2 at 2.
  destruct (@des_reads _ _ _ (@ia_default_ok little) _ (@buff_struct_heap_ok little)
    t v1 W1 v1 _ _ P1) as (s1 & E1 & (b1 & B1 & _ & _ & D1 & _)).
  destruct (@des_reads _ _ _ (@ia_default_ok little) _ (@buff_struct_heap_ok little)
    t v2 W2 v1 _ _ P2) as (s2 & E2 & (b2 & B2 & _ & _ & D2 & _)).
  rewrite E1 in E2. injection E2 as <- <-. rewrite B1 in B2. injection B2 as <-.
  by rewrite D1 in D2.
Qed.

Lemma enc_unambiguous_witness :
  mk_RequestHeader 1 4 = mk_RequestHeader 1 4 ∧ [Byte.x07] = [Byte.x07].
Proof.
  apply (enc_unambiguous T_RequestHeader); [split; split; done|split; split; done|done|done].
Defined.

(**  Writing any record with any allocator.  Into a fresh archive, whatever the
    allocator answers to each later request, serializing a record either completes
    with exactly its encoding in the buffer or returns [-ENOMEM] with no buffer
    left; it never writes outside the block, and fails only if an allocation did. *)
Theorem jute_serialize_any_allocator (H : Host) (o : allocs) (t : jute_type) (v : denote t) :
  wf t v → Z.of_nat (length (enc t v)) ≤ oa_limit →
  ∃ s', (ser t v (mk_buff 128 0 (Some []) o) = Ret (0, s') ∧
         get_buffer s' = Some (enc t v) ∧
         get_buffer_len s' = Z.of_nat (length (enc t v)) ∧ get_buffer_len s' ≤ bs_len s') ∨
        (ser t v (mk_buff 128 0 (Some []) o) = Ret (- ENOMEM, s') ∧
         get_buffer s' = None ∧ o ≠ []).
Proof.
  intros Hwf Hlim.
  destruct (ser_writes t v Hwf (mk_buff 128 0 (Some []) o))
    as (s1 & [(E1 & I1 & W1 & O1 & _)|Hf]);
    [by exists [], 7; split_and!; done || lia|done| |by exists s1; right].
  exists s1. left. pose proof I1 as (b & k & Hb & Hbl & Ho & _).
  unfold oa_written in W1. rewrite Hb in W1. cbn [from_option id bs_buffer app] in W1. subst b.
  split_and!; done.
Qed.

Lemma jute_serialize_any_allocator_witness :
  let v := mk_GetDataRequest (Some (replicate 200 Byte.x2f)) 0 in
  ∃ s', (@ser _ (@oa_default little) T_GetDataRequest v (mk_buff 128 0 (Some []) [false])
           = Ret (0, s') ∧
         get_buffer s' = Some (enc T_GetDataRequest v) ∧
         get_buffer_len s' = Z.of_nat (length (enc T_GetDataRequest v)) ∧
         get_buffer_len s' ≤ bs_len s') ∨
        (@ser _ (@oa_default little) T_GetDataRequest v (mk_buff 128 0 (Some []) [false])
           = Ret (- ENOMEM, s') ∧
         get_buffer s' = None ∧ [false] ≠ []).
Proof.
  apply (jute_serialize_any_allocator little [false] T_GetDataRequest);
    [|by vm_compute].
  split; [split; [by repeat constructor|done]|left; done].
Defined.

(** Errors inside a vector are lost.  Whatever the block holds, the reader of a
    vector of strings that returns at all returns 0: the code of a failing element,
    or of a missing count, is overwritten by that of [end_vector]. *)
Theorem string_vector_errors_lost (H : Host) v (s : buff_struct) rc v' s' :
  deserialize_String_vector v s = Ret (rc, v', s') → rc = 0.
Proof.
  unfold deserialize_String_vector, deserialize_vector. intros E.
  apply bind_Ret_inv in E as ([[rc0 n] s1] & _ & E).
  destruct (calloc _ _) as [[] s2].
  - apply bind_Ret_inv in E as ([[rc1 data] s3] & _ & [= <- _ _]). done.
  - destruct (_ && _); [done|]. by injection E as <- _ _.
Qed.

Lemma string_vector_errors_lost_witness : ∃ rc v' s',
  @deserialize_String_vector _ (@ia_default little) _ zero_String_vector
    (reader [Byte.x00; Byte.x00; Byte.x00; Byte.x02; Byte.x7f]) = Ret (rc, v', s') ∧ rc = 0.
Proof.
  eexists _, _, _. split; [vm_compute; reflexivity|].
  eapply (string_vector_errors_lost little zero_String_vector
    (reader [Byte.x00; Byte.x00; Byte.x00; Byte.x02; Byte.x7f])).
  vm_compute. reflexivity.
Defined.
