(* ===== verification/Hashtable.v ===== *)
(** * hashtable/: the chained hash table and its iterator

    The table of src/hashtable/hashtable.c: an array of chains whose length is a
    prime of a fixed table, grown when the number of entries passes a load limit
    computed in single precision.  A chain of [struct entry] is the list of its
    entries, head first; a pointer to an entry, as the iterator keeps it, is the
    entry's position in its chain. *)

From Stdlib Require Import Floats.SpecFloat.
From S2P Require Import Prelude.
Local Open Scope Z_scope.

Definition primes : list Z :=
  [53; 97; 193; 389;
   769; 1543; 3079; 6151;
   12289; 24593; 49157; 98317;
   196613; 393241; 786433; 1572869;
   3145739; 6291469; 12582917; 25165843;
   50331653; 100663319; 201326611; 402653189;
   805306457; 1610612741].
Definition prime_table_length : Z := Z.of_nat (length primes).

(** The smallest integer not below a finite float. *)
Definition ceil_float (f : spec_float) : Z :=
  match f with
  | S754_finite s m e =>
      let z := if s then Z.neg m else Z.pos m in
      if 0 <=? e then z * 2 ^ e else - ((- z) / 2 ^ (- e))
  | _ => 0
  end.

(** [const float max_load_factor = 0.65], to the nearest single. *)
Definition max_load_factor : spec_float := S754_finite false 10905190 (-24).

(** [(unsigned int) ceil(size * max_load_factor)]: [size] is converted to float
    and the product is one of floats. *)
Definition load_limit (size : Z) : Z :=
  uint32 (ceil_float (SFmul 24 128 (binary_normalize 24 128 size 0 false) max_load_factor)).

(** [struct entry]; the chain is the list of entries, so [next] is implicit. *)
Record entry (K V : Type) := mk_entry { e_k : K; e_v : V; e_h : Z }.
Global Arguments mk_entry {K V} _ _ _.
Global Arguments e_k {K V} _.
Global Arguments e_v {K V} _.
Global Arguments e_h {K V} _.

(** [struct hashtable] without its two function pointers, which are [HashFns]. *)
Record hashtable (K V : Type) := mk_hashtable {
  tablelength : Z;
  table : list (list (entry K V));
  entrycount : Z;
  loadlimit : Z;
  primeindex : Z;
}.
Global Arguments mk_hashtable {K V} _ _ _ _ _.
Global Arguments tablelength {K V} _.
Global Arguments table {K V} _.
Global Arguments entrycount {K V} _.
Global Arguments loadlimit {K V} _.
Global Arguments primeindex {K V} _.

(** The functions [h->hashfn] and [h->eqfn] the table is created with. *)
Class HashFns (K : Type) := { hashfn : K → Z; eqfn : K → K → bool }.

Definition indexFor (tablelength hashvalue : Z) : Z := hashvalue mod tablelength.

Section hashtable.
Context {K V : Type} `{HashFns K}.
Implicit Types h : hashtable K V.

(** The index of the first prime above [minsize] from [pindex] on. *)
Fixpoint find_prime (ps : list Z) (pindex minsize : Z) : Z * Z :=
  match ps with
  | [] => (pindex, 53)
  | p :: ps => if minsize <? p then (pindex, p) else find_prime ps (pindex + 1) minsize
  end.

Definition create_hashtable (minsize : Z) (o : allocs) : option (hashtable K V) * allocs :=
  if 2 ^ 30 <? minsize then (None, o) else
  let '(pindex, size) := find_prime primes 0 minsize in
  let '(ok, o) := alloc o in
  if negb ok then (None, o) else
  let '(ok, o) := alloc o in
  if negb ok then (None, o) else
  (Some (mk_hashtable size (replicate (Z.to_nat size) []) 0 (load_limit size) pindex), o).

Definition hash (k : K) : Z :=
  let i := uint32 (hashfn k) in
  let i := uint32 (i + uint32 (Z.lnot (uint32 (Z.shiftl i 9)))) in
  let i := Z.lxor i (Z.lor (Z.shiftr i 14) (uint32 (Z.shiftl i 18))) in
  let i := uint32 (i + uint32 (Z.shiftl i 4)) in
  Z.lxor i (Z.lor (Z.shiftr i 10) (uint32 (Z.shiftl i 22))).

(** [e->next = t[index]; t[index] = e]. *)
Definition push (t : list (list (entry K V))) (index : Z) (e : entry K V)
    : list (list (entry K V)) :=
  alter (cons e) (Z.to_nat index) t.

(** The transfer of the entries of [table[i]], head first. *)
Definition move_chain (newsize : Z) (t : list (list (entry K V)))
    (chain : list (entry K V)) : list (list (entry K V)) :=
  foldl (λ t e, push t (indexFor newsize (e_h e)) e) t chain.

(** Growing.  When [malloc] fails and [realloc] succeeds the code passes
    [newtable[h->tablelength]], an uninitialised pointer, to [memset]. *)
Definition hashtable_expand h (o : allocs) : outcome (Z * hashtable K V * allocs) :=
  if primeindex h =? prime_table_length - 1 then Ret (0, h, o) else
  let pi := primeindex h + 1 in
  match primes !! Z.to_nat pi with
  | None => UB
  | Some newsize =>
      let '(ok, o) := alloc o in
      if ok then
        let newtable :=
          foldl (move_chain newsize) (replicate (Z.to_nat newsize) []) (table h) in
        Ret (-1, mk_hashtable newsize newtable (entrycount h) (load_limit newsize) pi, o)
      else
        let '(ok, o) := alloc o in
        if negb ok then Ret (0, h, o) else UB
  end.

Definition hashtable_count h : Z := entrycount h.

Definition set_count (n : Z) h : hashtable K V :=
  mk_hashtable (tablelength h) (table h) n (loadlimit h) (primeindex h).
Definition set_table (t : list (list (entry K V))) h : hashtable K V :=
  mk_hashtable (tablelength h) t (entrycount h) (loadlimit h) (primeindex h).

(** The chain at [index]: outside the array the access is undefined. *)
Definition chain_at h (index : Z) : outcome (list (entry K V)) :=
  match table h !! Z.to_nat index with Some c => Ret c | None => UB end.

Definition hashtable_insert h (k : K) (v : V) (o : allocs)
    : outcome (Z * hashtable K V * allocs) :=
  let h := set_count (uint32 (entrycount h + 1)) h in
  '(_, h, o) ← (if loadlimit h <? entrycount h then hashtable_expand h o
                else Ret (0, h, o));
  let '(ok, o) := alloc o in
  if negb ok then Ret (0, set_count (uint32 (entrycount h - 1)) h, o) else
  let e := mk_entry k v (hash k) in
  let index := indexFor (tablelength h) (e_h e) in
  _ ← chain_at h index;
  Ret (-1, set_table (push (table h) index e) h, o).

(** The loops over a chain: the entry found, as [search] and [remove] see it. *)
Definition matches (k : K) (hashvalue : Z) (e : entry K V) : bool :=
  (hashvalue =? e_h e) && eqfn k (e_k e).

Fixpoint search_chain (k : K) (hashvalue : Z) (c : list (entry K V)) : option V :=
  match c with
  | [] => None
  | e :: c => if matches k hashvalue e then Some (e_v e) else search_chain k hashvalue c
  end.

Definition hashtable_search h (k : K) : outcome (option V) :=
  let hashvalue := hash k in
  let index := indexFor (tablelength h) hashvalue in
  c ← chain_at h index;
  Ret (search_chain k hashvalue c).

(** [*pE = e->next] at the first match: its value and the chain without it. *)
Fixpoint unlink (k : K) (hashvalue : Z) (c : list (entry K V))
    : option (V * list (entry K V)) :=
  match c with
  | [] => None
  | e :: c =>
      if matches k hashvalue e then Some (e_v e, c)
      else '(v, c) ← unlink k hashvalue c; Some (v, e :: c)
  end.

Definition hashtable_remove h (k : K) : outcome (option V * hashtable K V) :=
  let hashvalue := hash k in
  let index := indexFor (tablelength h) hashvalue in
  c ← chain_at h index;
  match unlink k hashvalue c with
  | Some (v, c) =>
      Ret (Some v, set_count (uint32 (entrycount h - 1))
                     (set_table (<[Z.to_nat index := c]> (table h)) h))
  | None => Ret (None, h)
  end.

(** The keys and the values [hashtable_destroy] frees, in order. *)
Definition hashtable_destroy h (free_values : bool) : list K * list V :=
  let es := concat (table h) in
  (e_k <$> es, if free_values then e_v <$> es else []).

(** Assignment through the value pointer that [hashtable_search] returns. *)
Fixpoint assign_chain (k : K) (hashvalue : Z) (v : V) (c : list (entry K V))
    : list (entry K V) :=
  match c with
  | [] => []
  | e :: c => if matches k hashvalue e then mk_entry (e_k e) v (e_h e) :: c
              else e :: assign_chain k hashvalue v c
  end.
Definition assign_found h (k : K) (v : V) : hashtable K V :=
  let index := Z.to_nat (indexFor (tablelength h) (hash k)) in
  match table h !! index with
  | Some c => set_table (<[index := assign_chain k (hash k) v c]> (table h)) h
  | None => h
  end.

(** ** The iterator *)

(** [struct hashtable_itr]: [it_e] and [it_parent] are positions in the chain
    [table[it_index]], or NULL. *)
Record hashtable_itr := mk_itr {
  it_e : option nat;
  it_parent : option nat;
  it_index : Z;
}.

(** The first non-empty chain among [cs], the chains from index [j] on. *)
Fixpoint next_chain (cs : list (list (entry K V))) (j : Z) : option Z :=
  match cs with
  | [] => None
  | c :: cs => match c with [] => next_chain cs (j + 1) | _ :: _ => Some j end
  end.

Definition hashtable_iterator h (o : allocs) : option hashtable_itr * allocs :=
  let '(ok, o) := alloc o in
  if negb ok then (None, o) else
  if entrycount h =? 0 then (Some (mk_itr None None (tablelength h)), o) else
  (Some match next_chain (table h) 0 with
        | Some i => mk_itr (Some 0%nat) None i
        | None => mk_itr None None (tablelength h)
        end, o).

(** The part of [hashtable_iterator_advance] after the end of a chain. *)
Definition advance_chain h (itr : hashtable_itr) : Z * hashtable_itr :=
  let j := it_index itr + 1 in
  if tablelength h <=? j then (0, mk_itr None None j) else
  match next_chain (drop (Z.to_nat j) (table h)) j with
  | None => (0, mk_itr None None (tablelength h))
  | Some j => (-1, mk_itr (Some 0%nat) None j)
  end.

Definition hashtable_iterator_advance h (itr : hashtable_itr)
    : outcome (Z * hashtable_itr) :=
  match it_e itr with
  | None => Ret (0, itr)
  | Some e =>
      c ← chain_at h (it_index itr);
      match c !! S e with
      | Some _ => Ret (-1, mk_itr (Some (S e)) (Some e) (it_index itr))
      | None => Ret (advance_chain h itr)
      end
  end.

Definition entry_at h (itr : hashtable_itr) : outcome (entry K V) :=
  match it_e itr with
  | None => UB
  | Some e => c ← chain_at h (it_index itr);
              match c !! e with Some x => Ret x | None => UB end
  end.
Definition hashtable_iterator_key h (itr : hashtable_itr) : outcome K :=
  e ← entry_at h itr; Ret (e_k e).
Definition hashtable_iterator_value h (itr : hashtable_itr) : outcome V :=
  e ← entry_at h itr; Ret (e_v e).

(** The entry is unlinked through [itr->parent] or the head of the chain.  The
    iterator then moves to the entry that followed it, which has taken its
    position, and keeps its parent; or goes on to the next chain. *)
Definition hashtable_iterator_remove h (itr : hashtable_itr)
    : outcome (Z * hashtable_itr * hashtable K V) :=
  match it_e itr with
  | None => UB
  | Some e =>
      c ← chain_at h (it_index itr);
      let before := match it_parent itr with None => [] | Some p => take (S p) c end in
      let h' := set_count (uint32 (entrycount h - 1))
                  (set_table (<[Z.to_nat (it_index itr) := before ++ drop (S e) c]>
                     (table h)) h) in
      match c !! S e with
      | Some _ =>
          Ret (-1, mk_itr (Some (length before)) (it_parent itr) (it_index itr), h')
      | None => let '(ret, itr) := advance_chain h' itr in Ret (ret, itr, h')
      end
  end.

(** The loop of [hashtable_iterator_search]: the positions of the first match and of the
    entry before it. *)
Fixpoint find_entry (k : K) (hashvalue : Z) (c : list (entry K V)) (e : nat) (parent : option nat)
    : option (nat * option nat) :=
  match c with
  | [] => None
  | x :: c => if matches k hashvalue x then Some (e, parent) else find_entry k hashvalue c (S e) (Some e)
  end.
Definition hashtable_iterator_search h (itr : hashtable_itr) (k : K) : outcome (Z * hashtable_itr) :=
  let hashvalue := hash k in
  let index := indexFor (tablelength h) hashvalue in
  c ← chain_at h index;
  match find_entry k hashvalue c 0 None with
  | Some (e, parent) => Ret (-1, mk_itr (Some e) parent index)
  | None => Ret (0, itr)
  end.
End hashtable.
