(* ===== verification/HashtableFacts.v ===== *)
(** * Facts about the hash table

    The invariant [ht_wf], kept by every operation; the map [to_map] a table with
    distinct keys stands for, and the refinement of the map operations by
    [hashtable_insert], [hashtable_search] and [hashtable_remove] through growth and
    allocation failure; the iterator enumerates the entries, each once. *)

From S2P Require Import Prelude Hashtable.
Local Open Scope Z_scope.

(** What the table relies on: [eqfn] is equality of keys. *)
Class HashFnsOK (K : Type) `{HashFns K} := { eqfn_spec k1 k2 : eqfn k1 k2 = true ↔ k1 = k2 }.

Section invariant.
Context {K V : Type} `{HashFns K}.
Implicit Types h : hashtable K V.

Definition entries h : list (entry K V) := concat (table h).

(** Every chain holds the entries its index calls for. *)
Definition placed (len : Z) (t : list (list (entry K V))) : Prop :=
  ∀ i c, t !! i = Some c →
    Forall (λ e, e_h e = hash (e_k e) ∧ Z.to_nat (indexFor len (e_h e)) = i) c.

Record ht_wf h : Prop := {
  wf_prime : primes !! Z.to_nat (primeindex h) = Some (tablelength h);
  wf_primeindex : 0 ≤ primeindex h < prime_table_length;
  wf_length : length (table h) = Z.to_nat (tablelength h);
  wf_limit : loadlimit h = load_limit (tablelength h);
  wf_count : entrycount h = Z.of_nat (length (entries h));
  wf_small : entrycount h < 2 ^ 32;
  wf_placed : placed (tablelength h) (table h);
}.

Lemma primes_pos i p : primes !! i = Some p → 53 ≤ p.
Proof.
  intros Hp. assert (Forall (λ p, 53 ≤ p) primes) as Hall by (repeat constructor; lia).
  by eapply Forall_lookup in Hall.
Qed.
Lemma wf_pos h : ht_wf h → 53 ≤ tablelength h.
Proof. intros Hwf. eapply primes_pos, wf_prime, Hwf. Qed.

Lemma indexFor_lt len x : 0 < len → (Z.to_nat (indexFor len x) < Z.to_nat len)%nat.
Proof. intros. unfold indexFor. pose proof (Z.mod_pos_bound x len). lia. Qed.

Lemma chain_at_lookup h x :
  ht_wf h → ∃ c, table h !! Z.to_nat (indexFor (tablelength h) x) = Some c ∧
    chain_at h (indexFor (tablelength h) x) = Ret c.
Proof.
  intros Hwf. pose proof (wf_pos _ Hwf).
  destruct (lookup_lt_is_Some_2 (table h) (Z.to_nat (indexFor (tablelength h) x)))
    as [c Hc]; [rewrite (wf_length _ Hwf); apply indexFor_lt; lia|].
  exists c. unfold chain_at. by rewrite Hc.
Qed.

(** ** Chains and the list of all entries *)
Lemma concat_replicate_nil {A} n : concat (replicate n (@nil A)) = [].
Proof. by induction n. Qed.

Lemma concat_alter_cons (t : list (list (entry K V))) i e :
  (i < length t)%nat → concat (alter (cons e) i t) ≡ₚ e :: concat t.
Proof.
  revert i. induction t as [|c t IH]; intros [|i] Hi; csimpl in *; try lia; [done|].
  rewrite (IH i) by lia. by rewrite Permutation_middle.
Qed.

Lemma concat_insert (t : list (list (entry K V))) i c d x :
  t !! i = Some c → c ≡ₚ x ++ d → concat t ≡ₚ x ++ concat (<[i := d]> t).
Proof.
  revert i. induction t as [|c' t IH]; intros [|i] Hi Hc; simpl in *; try done.
  - injection Hi as ->. by rewrite Hc, app_assoc.
  - rewrite (IH i Hi Hc). by rewrite !app_assoc, (Permutation_app_comm c' x).
Qed.

Lemma elem_of_concat_lookup (t : list (list (entry K V))) e :
  e ∈ concat t ↔ ∃ i c, t !! i = Some c ∧ e ∈ c.
Proof.
  rewrite list_elem_of_In, in_concat. setoid_rewrite <-list_elem_of_In. split.
  - intros (c & Hc & He). apply list_elem_of_lookup in Hc as [i Hi]. by exists i, c.
  - intros (i & c & Hi & He). exists c. split; [by eapply list_elem_of_lookup_2|done].
Qed.

(** ** Growing *)
Lemma push_length (t : list (list (entry K V))) i e : length (push t i e) = length t.
Proof. apply length_alter. Qed.

Lemma push_placed len t e :
  0 < len → length t = Z.to_nat len → placed len t → e_h e = hash (e_k e) →
  placed len (push t (indexFor len (e_h e)) e).
Proof.
  intros Hpos Hlen Hp He i c. unfold push.
  destruct (decide (i = Z.to_nat (indexFor len (e_h e)))) as [->|Hne].
  - intros Hc. rewrite list_lookup_alter, decide_True in Hc by done.
    apply fmap_Some in Hc as (c0 & Hc0 & ->). constructor; [done|]. by apply Hp.
  - rewrite list_lookup_alter_ne by done. apply Hp.
Qed.

(** The transfer keeps every entry, in place for the new size. *)
Lemma move_chain_spec len t c :
  0 < len → length t = Z.to_nat len → placed len t →
  Forall (λ e, e_h e = hash (e_k e)) c →
  length (move_chain len t c) = Z.to_nat len ∧ placed len (move_chain len t c) ∧
  concat (move_chain len t c) ≡ₚ c ++ concat t.
Proof.
  intros Hpos Hlen Hp Hc. unfold move_chain. revert t Hlen Hp.
  induction Hc as [|e c He Hc IH]; intros t Hlen Hp; simpl; [done|].
  destruct (IH (push t (indexFor len (e_h e)) e)) as (Hl & Hpl & Hperm);
    [by rewrite push_length|by apply push_placed|].
  split_and!; [done..|]. rewrite Hperm. unfold push.
  rewrite concat_alter_cons by (rewrite Hlen; by apply indexFor_lt).
  by rewrite Permutation_middle.
Qed.

Lemma move_table_spec len t old :
  0 < len → length t = Z.to_nat len → placed len t →
  Forall (λ e, e_h e = hash (e_k e)) (concat old) →
  let t' := foldl (move_chain len) t old in
  length t' = Z.to_nat len ∧ placed len t' ∧ concat t' ≡ₚ concat old ++ concat t.
Proof.
  intros Hpos. revert t. induction old as [|c old IH]; intros t Hlen Hp Hall; simpl in *;
    [done|].
  apply Forall_app in Hall as [Hc Hold].
  destruct (move_chain_spec len t c) as (Hl & Hpl & Hperm); [done..|].
  destruct (IH (move_chain len t c)) as (Hl2 & Hpl2 & Hperm2); [done..|].
  split_and!; [done..|]. rewrite Hperm2, Hperm, !app_assoc.
  by rewrite (Permutation_app_comm (concat old) c).
Qed.

Lemma placed_empty len n : placed len (replicate n []).
Proof. intros i c Hc. by apply lookup_replicate in Hc as [-> _]. Qed.

Lemma wf_hashes h : ht_wf h → Forall (λ e, e_h e = hash (e_k e)) (entries h).
Proof.
  intros Hwf. apply Forall_forall. intros e He.
  apply elem_of_concat_lookup in He as (i & c & Hi & He).
  pose proof (wf_placed _ Hwf i c Hi) as Hall. rewrite Forall_forall in Hall.
  by apply Hall.
Qed.

(** [hashtable_expand] keeps the invariant and the entries, and never fails the
    table; undefined exactly when [malloc] fails and [realloc] does not. *)
Lemma hashtable_expand_spec h o :
  ht_wf h →
  (∃ rc h' o', hashtable_expand h o = Ret (rc, h', o') ∧ ht_wf h' ∧
     entries h' ≡ₚ entries h ∧ entrycount h' = entrycount h ∧ (o = [] → o' = [])) ∨
  (hashtable_expand h o = UB ∧ ∃ o', o = false :: true :: o' ∨ o = [false]).
Proof.
  intros Hwf. unfold hashtable_expand.
  destruct (Z.eqb_spec (primeindex h) (prime_table_length - 1)) as [|Hlast];
    [left; by exists 0, h, o|].
  pose proof (wf_primeindex _ Hwf) as Hpi.
  destruct (lookup_lt_is_Some_2 primes (Z.to_nat (primeindex h + 1))) as [p Hp];
    [unfold prime_table_length in *; lia|].
  rewrite Hp. pose proof (primes_pos _ _ Hp).
  destruct (alloc o) as [[] o1] eqn:Ho.
  - left. destruct (move_table_spec p (replicate (Z.to_nat p) []) (table h))
      as (Hl & Hpl & Hperm); [lia|by rewrite length_replicate|apply placed_empty
                             |by apply wf_hashes|].
    rewrite concat_replicate_nil, app_nil_r in Hperm.
    eexists _, _, _. split; [done|]. split; [|by split_and!; [..|intros ->; injection Ho]].
    split; simpl; [done|lia|done|done| |by apply Hwf|done].
    rewrite (wf_count _ Hwf). unfold entries; simpl. by rewrite Hperm.
  - destruct o as [|[] o]; try done. injection Ho as <-. simpl.
    destruct o as [|[] o]; [right|right|left]; [split; [done|]; by exists []; right
      |split; [done|]; by exists o; left|by exists 0, h, o].
Qed.
End invariant.

(** ** The operations, in terms of the list of entries *)
Section operations.
Context {K V : Type} `{HashFnsOK K}.
Implicit Types h : hashtable K V.

Lemma create_hashtable_spec minsize o h o' :
  create_hashtable (V:=V) minsize o = (Some h, o') → 0 ≤ minsize →
  ht_wf h ∧ entries h = [] ∧ minsize < tablelength h.
Proof.
  unfold create_hashtable. destruct (Z.ltb_spec (2 ^ 30) minsize) as [|Hmin]; [done|].
  assert (∃ i p, find_prime primes 0 minsize = (i, p) ∧ primes !! Z.to_nat i = Some p ∧
    0 ≤ i < prime_table_length ∧ minsize < p) as (i & p & -> & Hp & Hi & Hlt).
  { unfold primes; cbn [find_prime].
    repeat match goal with |- context [if minsize <? ?p then _ else _] =>
      destruct (Z.ltb_spec minsize p); [eexists _, _; do 2 (split; [reflexivity|]);
        change prime_table_length with 26; lia|] end. lia. }
  destruct (alloc o) as [[] o1]; simpl; [|done].
  destruct (alloc o1) as [[] o2]; simpl; [|done]. intros [= <- <-] Hnn.
  unfold entries; simpl. rewrite concat_replicate_nil. split_and!; [|done..].
  split; simpl; [done..|by rewrite length_replicate|done| |lia|apply placed_empty].
  unfold entries; simpl. by rewrite concat_replicate_nil.
Qed.

Lemma set_count_back h n : set_count (entrycount h) (set_count n h) = h.
Proof. by destruct h. Qed.

(** [h] with its counter one ahead, as in the middle of an insertion. *)
Lemma expand_counted h o :
  ht_wf h → entrycount h + 1 < 2 ^ 32 →
  let h1 := set_count (entrycount h + 1) h in
  (∃ rc h' o', hashtable_expand h1 o = Ret (rc, h', o') ∧
     ht_wf (set_count (entrycount h) h') ∧ entries h' ≡ₚ entries h ∧
     entrycount h' = entrycount h + 1 ∧ (o = [] → o' = [])) ∨
  (hashtable_expand h1 o = UB ∧ ∃ o', o = false :: true :: o' ∨ o = [false]).
Proof.
  intros Hwf Hs h1. destruct (hashtable_expand_spec h o Hwf)
    as [(rc & h' & o' & E & Hwf' & Hp & Hc & Ho)|[E Ho]]; unfold hashtable_expand in *;
    cbn [primeindex table set_count h1 entrycount] in *.
  - left. repeat (case_match; try done); simplify_eq/=; eexists _, _, _;
      (split; [done|]); split_and!; try done; unfold h1; by rewrite set_count_back.
  - right. repeat (case_match; try done).
Qed.

(** The invariant and the entries after linking a new entry in. *)
Lemma link_entry h k v :
  ht_wf h → entrycount h + 1 < 2 ^ 32 →
  let e := mk_entry k v (hash k) in
  let h' := set_table (push (table h) (indexFor (tablelength h) (hash k)) e)
              (set_count (entrycount h + 1) h) in
  ht_wf h' ∧ entries h' ≡ₚ e :: entries h.
Proof.
  intros Hwf Hs e h'. pose proof (wf_pos _ Hwf).
  assert (entries h' ≡ₚ e :: entries h) as Hp.
  { apply concat_alter_cons. rewrite (wf_length _ Hwf). apply indexFor_lt. lia. }
  split; [|done]. split; simpl; try apply Hwf; [| |lia|].
  - rewrite push_length. apply Hwf.
  - rewrite Hp. simpl. rewrite (wf_count _ Hwf). lia.
  - apply (push_placed _ _ e); [lia|by apply Hwf|by apply Hwf|done].
Qed.

(** Insertion, on every branch of the allocator. *)
Lemma hashtable_insert_spec h k v o :
  ht_wf h → entrycount h + 1 < 2 ^ 32 →
  (∃ h' o', hashtable_insert h k v o = Ret (-1, h', o') ∧ ht_wf h' ∧
     entries h' ≡ₚ mk_entry k v (hash k) :: entries h ∧ (o = [] → o' = [])) ∨
  (∃ h' o', hashtable_insert h k v o = Ret (0, h', o') ∧ ht_wf h' ∧
     entries h' ≡ₚ entries h ∧ o ≠ []) ∨
  (hashtable_insert h k v o = UB ∧ ∃ o', o = false :: true :: o' ∨ o = [false]).
Proof.
  intros Hwf Hs. unfold hashtable_insert.
  pose proof (wf_count _ Hwf) as Hcnt.
  rewrite (wrap_u_id 32 (entrycount h + 1)) by (unfold in_u; lia).
  set (h1 := set_count (entrycount h + 1) h).
  assert ((∃ rc h2 o2, (if loadlimit h1 <? entrycount h1 then hashtable_expand h1 o
                        else Ret (0, h1, o)) = Ret (rc, h2, o2) ∧
      ht_wf (set_count (entrycount h) h2) ∧ entries h2 ≡ₚ entries h ∧
      entrycount h2 = entrycount h + 1 ∧ (o = [] → o2 = [])) ∨
    ((if loadlimit h1 <? entrycount h1 then hashtable_expand h1 o
      else Ret (0, h1, o)) = UB ∧ ∃ o', o = false :: true :: o' ∨ o = [false]))
    as [(rc & h2 & o2 & -> & Hwf2 & Hp2 & Hc2 & Ho2)|[-> Ho]]; [| |by right; right].
  { destruct (loadlimit h1 <? entrycount h1).
    - destruct (expand_counted h o Hwf Hs) as [(rc & h2 & o2 & ?)|?]; [left|by right].
      by exists rc, h2, o2.
    - left. exists 0, h1, o. split_and!; try done. unfold h1. by rewrite set_count_back. }
  run. destruct (alloc o2) as [[] o3] eqn:Eo; cbn [negb].
  - left. destruct (chain_at_lookup (set_count (entrycount h) h2) (hash k) Hwf2)
      as (c & _ & Hc). cbn [e_h]. unfold chain_at in *. cbn [table tablelength set_count] in Hc.
    rewrite Hc. run. destruct (link_entry _ k v Hwf2) as [Hwf3 Hp3]; [done|].
    eexists _, _. split; [done|]. simpl in Hwf3, Hp3.
    rewrite <-Hc2 in Hwf3, Hp3. split_and!; [by destruct h2| |].
    + etransitivity; [by destruct h2; apply Hp3|]. by constructor.
    + intros ->. rewrite Ho2 in Eo by done. by injection Eo as <-.
  - right; left. rewrite Hc2, (wrap_u_id 32) by (unfold in_u; lia).
    replace (entrycount h + 1 - 1) with (entrycount h) by lia.
    eexists _, _. split; [done|]. split_and!; [done..|]. intros ->.
    by rewrite Ho2 in Eo.
Qed.

(** ** Search and removal in a chain *)
Lemma matches_spec k x (e : entry K V) : e_h e = hash (e_k e) → x = hash k →
  matches k x e = true ↔ e_k e = k.
Proof.
  intros He ->. unfold matches. rewrite andb_true_iff, Z.eqb_eq, He, eqfn_spec.
  split; [by intros [_ <-]|by intros <-].
Qed.

Lemma search_chain_Some k x (c : list (entry K V)) v :
  search_chain k x c = Some v → ∃ e, e ∈ c ∧ matches k x e = true ∧ e_v e = v.
Proof.
  induction c as [|e c IH]; simpl; [done|]. destruct (matches k x e) eqn:E.
  - intros [= <-]. exists e. by split_and!; [left|..].
  - intros Hs. destruct (IH Hs) as (e' & ? & ?). exists e'. by split; [right|].
Qed.
Lemma search_chain_None k x (c : list (entry K V)) :
  search_chain k x c = None → ∀ e, e ∈ c → matches k x e = false.
Proof.
  induction c as [|e c IH]; simpl; [by intros _ e He%elem_of_nil|].
  destruct (matches k x e) eqn:E; [done|]. intros Hs e' [->|He]%elem_of_cons; auto.
Qed.

(** The values stored under a key. *)
Definition bound h k v : Prop := ∃ e, e ∈ entries h ∧ e_k e = k ∧ e_v e = v.

Lemma chain_entry h i c e : ht_wf h → table h !! i = Some c → e ∈ c →
  e_h e = hash (e_k e) ∧ Z.to_nat (indexFor (tablelength h) (hash (e_k e))) = i.
Proof.
  intros Hwf Hi He. pose proof (wf_placed _ Hwf i c Hi) as Hall.
  rewrite Forall_forall in Hall. destruct (Hall e He) as [Hh Hx]. by rewrite Hh in Hx.
Qed.

Lemma entry_chain h k c e : ht_wf h →
  table h !! Z.to_nat (indexFor (tablelength h) (hash k)) = Some c →
  e ∈ entries h → e_k e = k → e ∈ c.
Proof.
  intros Hwf Hc He <-. apply elem_of_concat_lookup in He as (j & d & Hd & He).
  destruct (chain_entry h j d e Hwf Hd He) as [_ Hj]. rewrite Hj in Hc. congruence.
Qed.

Lemma hashtable_search_spec h k : ht_wf h →
  ∃ r, hashtable_search h k = Ret r ∧
    match r with Some v => bound h k v | None => ∀ v, ¬ bound h k v end.
Proof.
  intros Hwf. unfold hashtable_search.
  destruct (chain_at_lookup h (hash k) Hwf) as (c & Hc & ->). run.
  eexists; split; [done|]. destruct (search_chain k (hash k) c) as [v|] eqn:Es.
  - apply search_chain_Some in Es as (e & He & Hm & Hv).
    destruct (chain_entry h _ c e Hwf Hc He) as [Hh _].
    apply matches_spec in Hm; [|done..]. exists e. split_and!; [|done..].
    apply elem_of_concat_lookup. eauto.
  - intros v (e & He & Hk & Hv). pose proof (entry_chain h k c e Hwf Hc He Hk) as Hec.
    pose proof (search_chain_None _ _ _ Es e Hec) as Hm.
    apply not_true_iff_false in Hm. apply Hm, matches_spec; [|done..].
    by apply (chain_entry h _ c e Hwf Hc).
Qed.

Lemma unlink_Some k x (c : list (entry K V)) v d :
  unlink k x c = Some (v, d) →
  ∃ e, e_v e = v ∧ matches k x e = true ∧ c ≡ₚ e :: d ∧ (∀ e', e' ∈ d → e' ∈ c).
Proof.
  revert d. induction c as [|e c IH]; intros d; simpl; [done|].
  destruct (matches k x e) eqn:E.
  - intros [= <- <-]. exists e. split_and!; [done..|]. by intros; right.
  - destruct (unlink k x c) as [[v' c']|] eqn:Eu; [|done]. intros [= -> <-].
    destruct (IH c' eq_refl) as (e' & ? & ? & Hp & Hin). exists e'.
    split_and!; [done..| |].
    + rewrite Hp. apply perm_swap.
    + intros e'' [->|?]%elem_of_cons; [by left|right; auto].
Qed.
Lemma unlink_None k x (c : list (entry K V)) : unlink k x c = None → search_chain k x c = None.
Proof.
  induction c as [|e c IH]; simpl; [done|]. destruct (matches k x e); [done|].
  by destruct (unlink k x c) as [[]|]; [|auto].
Qed.

(** Replacing a chain by a part of it. *)
Lemma shrink_wf h i c d x n :
  ht_wf h → table h !! i = Some c → c ≡ₚ x ++ d →
  n = entrycount h - Z.of_nat (length x) →
  let h' := set_count n (set_table (<[i := d]> (table h)) h) in
  ht_wf h' ∧ entries h ≡ₚ x ++ entries h'.
Proof.
  intros Hwf Hc Hp -> h'.
  assert (entries h ≡ₚ x ++ entries h') as Hpe by (by apply (concat_insert _ i c)).
  split; [|done]. pose proof (wf_count _ Hwf) as Hn. rewrite Hpe, length_app in Hn.
  split; simpl; try apply Hwf; [|lia| |].
  - rewrite length_insert. apply Hwf.
  - pose proof (wf_small _ Hwf). lia.
  - intros j e. destruct (decide (i = j)) as [->|Hne].
    + intros Hj. rewrite list_lookup_insert_eq in Hj by (by eapply lookup_lt_Some).
      injection Hj as <-. pose proof (wf_placed _ Hwf j c Hc) as Hall.
      rewrite Hp, Forall_app in Hall. apply Hall.
    + rewrite list_lookup_insert_ne by done. apply Hwf.
Qed.

Lemma wf_count_pos h i c e : ht_wf h → table h !! i = Some c → e ∈ c → 1 ≤ entrycount h.
Proof.
  intros Hwf Hc He. rewrite (wf_count _ Hwf).
  assert (e ∈ entries h) as Hin by (apply elem_of_concat_lookup; eauto).
  destruct (entries h); [by apply elem_of_nil in Hin|]. simpl. lia.
Qed.

Lemma hashtable_remove_spec h k : ht_wf h →
  (∃ v h' e, hashtable_remove h k = Ret (Some v, h') ∧ ht_wf h' ∧
     entries h ≡ₚ e :: entries h' ∧ e_k e = k ∧ e_v e = v) ∨
  (hashtable_remove h k = Ret (None, h) ∧ ∀ v, ¬ bound h k v).
Proof.
  intros Hwf. unfold hashtable_remove.
  destruct (chain_at_lookup h (hash k) Hwf) as (c & Hc & Hca). rewrite Hca. run.
  destruct (unlink k (hash k) c) as [[v d]|] eqn:Eu.
  - left. apply unlink_Some in Eu as (e & Hv & Hm & Hp & Hin).
    assert (e ∈ c) as He by (rewrite Hp; left).
    apply matches_spec in Hm; [|by apply (chain_entry h _ c e Hwf Hc)|done].
    pose proof (wf_count_pos h _ c e Hwf Hc He). pose proof (wf_small _ Hwf).
    rewrite (wrap_u_id 32) by (unfold in_u; lia).
    destruct (shrink_wf h _ c d [e] (entrycount h - 1) Hwf Hc Hp ltac:(done)) as [Hwf' Hpe].
    eexists v, _, e. by split_and!.
  - right. split; [done|]. apply unlink_None in Eu.
    destruct (hashtable_search_spec h k Hwf) as (r & Hr & Hspec).
    unfold hashtable_search in Hr. rewrite Hca in Hr. injection Hr as <-.
    by rewrite Eu in Hspec.
Qed.
End operations.

(** ** The finite map a table stands for *)
Section refinement.
Context {K V : Type} `{HashFnsOK K} `{Countable K}.
Implicit Types h : hashtable K V.
Implicit Types m : gmap K V.

Definition binding (e : entry K V) : K * V := (e_k e, e_v e).
Definition to_map h : gmap K V := list_to_map (binding <$> entries h).

(** [h] represents [m]: the invariant holds, no key occurs twice. *)
Record ht_repr h m : Prop := {
  repr_wf : ht_wf h;
  repr_distinct : NoDup (e_k <$> entries h);
  repr_map : to_map h = m;
}.

Lemma binding_keys (es : list (entry K V)) : (binding <$> es).*1 = e_k <$> es.
Proof. rewrite <-list_fmap_compose. done. Qed.

Lemma to_map_lookup h k v :
  NoDup (e_k <$> entries h) → to_map h !! k = Some v ↔ bound h k v.
Proof.
  intros Hnd. unfold to_map. rewrite <-elem_of_list_to_map by (by rewrite binding_keys).
  rewrite list_elem_of_fmap. unfold bound, binding. split.
  - intros (e & [= -> ->] & He). by exists e.
  - intros (e & He & <- & <-). by exists e.
Qed.

Lemma to_map_cons h h' e :
  entries h' ≡ₚ e :: entries h → NoDup (e_k <$> entries h') →
  to_map h' = <[e_k e := e_v e]> (to_map h).
Proof.
  intros Hp Hnd. unfold to_map.
  rewrite (list_to_map_proper (binding <$> entries h') (binding <$> (e :: entries h)));
    [done|by rewrite binding_keys|by rewrite Hp].
Qed.

Lemma repr_create minsize o h o' :
  create_hashtable minsize o = (Some h, o') → 0 ≤ minsize → ht_repr h ∅.
Proof.
  intros Hc Hm. destruct (create_hashtable_spec minsize o h o' Hc Hm) as (Hwf & He & _).
  split; [done|rewrite He; constructor|]. unfold to_map. by rewrite He.
Qed.

Lemma repr_count h m : ht_repr h m → hashtable_count h = Z.of_nat (size m).
Proof.
  intros [Hwf Hnd <-]. unfold hashtable_count, to_map. rewrite (wf_count _ Hwf).
  rewrite map_size_list_to_map by (by rewrite binding_keys). by rewrite length_fmap.
Qed.

Lemma repr_search h m k : ht_repr h m → hashtable_search h k = Ret (m !! k).
Proof.
  intros [Hwf Hnd <-]. destruct (hashtable_search_spec h k Hwf) as (r & -> & Hr).
  f_equal. destruct r as [v|]; symmetry; [by apply to_map_lookup|].
  destruct (to_map h !! k) as [v|] eqn:E; [|done].
  apply to_map_lookup in E; [|done]. by destruct (Hr v).
Qed.

Lemma repr_insert h m k v o :
  ht_repr h m → m !! k = None → Z.of_nat (size m) + 1 < 2 ^ 32 →
  (∃ h' o', hashtable_insert h k v o = Ret (-1, h', o') ∧ ht_repr h' (<[k := v]> m) ∧
     (o = [] → o' = [])) ∨
  (∃ h' o', hashtable_insert h k v o = Ret (0, h', o') ∧ ht_repr h' m ∧ o ≠ []) ∨
  (hashtable_insert h k v o = UB ∧ ∃ o', o = false :: true :: o' ∨ o = [false]).
Proof.
  intros Hr Hk Hs. rewrite <-(repr_count h m Hr) in Hs. destruct Hr as [Hwf Hnd <-].
  destruct (hashtable_insert_spec h k v o Hwf Hs)
    as [(h' & o' & E & Hwf' & Hp & Ho)|[(h' & o' & E & Hwf' & Hp & Ho)|HUB]].
  - left. exists h', o'. split; [done|]. split; [|done].
    assert (NoDup (e_k <$> entries h')) as Hnd'.
    { rewrite Hp. constructor; [|done]. intros (e & He & Hin)%list_elem_of_fmap.
      assert (to_map h !! k = Some (e_v e)) by (apply to_map_lookup; [done|by exists e]).
      congruence. }
    split; [done..|]. by apply (to_map_cons h h' (mk_entry k v (hash k))).
  - right; left. exists h', o'. split_and!; [done| |done]. split; [done|by rewrite Hp|].
    apply list_to_map_proper; [rewrite binding_keys|]; by rewrite Hp.
  - by right; right.
Qed.

Lemma repr_remove h m k :
  ht_repr h m → ∃ h', hashtable_remove h k = Ret (m !! k, h') ∧ ht_repr h' (delete k m).
Proof.
  intros [Hwf Hnd <-]. destruct (hashtable_remove_spec h k Hwf)
    as [(v & h' & e & E & Hwf' & Hp & Hk & Hv)|[E Hb]].
  - rewrite E. exists h'. pose proof (to_map_cons h' h e Hp Hnd) as Hm.
    rewrite Hp in Hnd. apply NoDup_cons in Hnd as [Hnin Hnd']. subst k v.
    assert (to_map h' !! e_k e = None) as Hnone.
    { destruct (to_map h' !! e_k e) as [v|] eqn:Ev; [|done].
      apply to_map_lookup in Ev as (e' & He' & Hk' & _); [|done].
      destruct Hnin. rewrite <-Hk'. by apply list_elem_of_fmap_2. }
    rewrite Hm, lookup_insert_eq. split; [done|]. split; [done..|].
    by rewrite delete_insert_id.
  - rewrite E. exists h. assert (to_map h !! k = None) as Hn.
    { destruct (to_map h !! k) as [v|] eqn:Ev; [|done].
      apply to_map_lookup in Ev; [|done]. by destruct (Hb v). }
    rewrite Hn, delete_id by done. done.
Qed.

(** ** Assignment through the value pointer found *)
Lemma assign_chain_spec k x v0 v (c : list (entry K V)) :
  search_chain k x c = Some v0 →
  ∃ e d, matches k x e = true ∧ e_v e = v0 ∧ c ≡ₚ e :: d ∧
    assign_chain k x v c ≡ₚ mk_entry (e_k e) v (e_h e) :: d.
Proof.
  induction c as [|e c IH]; simpl; [done|]. destruct (matches k x e) eqn:E.
  - intros [= <-]. by exists e, c.
  - intros Hs. destruct (IH Hs) as (e' & d & ? & ? & Hp & Hp').
    exists e', (e :: d). split_and!; [done..| |]; rewrite ?Hp, ?Hp'; apply perm_swap.
Qed.

Lemma repr_assign h m k v0 v :
  ht_repr h m → m !! k = Some v0 → ht_repr (assign_found h k v) (<[k := v]> m).
Proof.
  intros Hr Hk. pose proof (repr_search h m k Hr) as Hs. destruct Hr as [Hwf Hnd <-].
  unfold hashtable_search in Hs. unfold assign_found.
  destruct (chain_at_lookup h (hash k) Hwf) as (c & Hc & Hca).
  rewrite Hca in Hs. rewrite Hc. injection Hs as Hs. rewrite Hk in Hs.
  set (i := Z.to_nat (indexFor (tablelength h) (hash k))) in *.
  destruct (assign_chain_spec k _ v0 v c Hs) as (e & d & Hm & Hv & Hp & Hp').
  assert (e ∈ c) as He by (rewrite Hp; left).
  destruct (chain_entry h i c e Hwf Hc He) as [Hh Hi].
  apply matches_spec in Hm; [|done..].
  set (c' := assign_chain k (hash k) v c) in *. set (e' := mk_entry (e_k e) v (e_h e)) in *.
  set (h' := set_table (<[i := c']> (table h)) h).
  set (hr := set_table (<[i := d]> (table h)) h).
  assert (entries h ≡ₚ e :: entries hr) as Hph by (by apply (concat_insert _ i c d [e])).
  assert (entries h' ≡ₚ e' :: entries hr) as Hph'.
  { pose proof (concat_insert (<[i := c']> (table h)) i c' d [e']) as Hci.
    rewrite list_insert_insert_eq in Hci. apply Hci; [|done].
    apply list_lookup_insert_eq. by eapply lookup_lt_Some. }
  assert (NoDup (e_k <$> entries h')) as Hnd' by (by rewrite Hph', Hph in *).
  split; [|done|].
  - split; simpl; try apply Hwf; [by rewrite length_insert; apply Hwf| |].
    + rewrite (wf_count _ Hwf). by rewrite Hph', Hph.
    + intros j cj. destruct (decide (i = j)) as [<-|Hne].
      * intros Hj. rewrite list_lookup_insert_eq in Hj by (by eapply lookup_lt_Some).
        injection Hj as <-. pose proof (wf_placed _ Hwf i c Hc) as Hall.
        rewrite Hp in Hall. rewrite Hp'. inversion Hall; subst. by constructor.
      * rewrite list_lookup_insert_ne by done. apply Hwf.
  - rewrite (to_map_cons hr h' e' Hph' Hnd'), (to_map_cons hr h e Hph Hnd). simpl.
    rewrite Hm. by rewrite insert_insert_eq.
Qed.
End refinement.

(** ** Iteration *)
Section iteration.
Context {K V : Type} `{HashFns K}.
Implicit Types h : hashtable K V.

(** [do { ... hashtable_iterator_value(it) ... } while
    (hashtable_iterator_advance(it))]: the entries such a loop sees. *)
Fixpoint visit (fuel : nat) h (itr : hashtable_itr) : outcome (list (entry K V)) :=
  match fuel with
  | O => Loop
  | S fuel =>
      e ← entry_at h itr;
      '(more, itr) ← hashtable_iterator_advance h itr;
      if more =? 0 then Ret [e] else es ← visit fuel h itr; Ret (e :: es)
  end.

(** The iterator is on entry [j] of chain [i]; what lies before and after. *)
Record at_entry h (itr : hashtable_itr) (pre : list (entry K V)) (e : entry K V)
    (post : list (entry K V)) : Prop := {
  at_split : ∃ i c1 c2,
    it_index itr = Z.of_nat i ∧ it_e itr = Some (length c1) ∧
    it_parent itr = match c1 with [] => None | _ :: c => Some (length c) end ∧
    table h !! i = Some (c1 ++ e :: c2) ∧
    pre = concat (take i (table h)) ++ c1 ∧
    post = c2 ++ concat (drop (S i) (table h));
}.

Lemma next_chain_spec (cs : list (list (entry K V))) j :
  match next_chain cs j with
  | None => concat cs = []
  | Some j' => ∃ n e c cs', j' = j + Z.of_nat n ∧ cs !! n = Some (e :: c) ∧
      concat (take n cs) = [] ∧ drop (S n) cs = cs'
  end.
Proof.
  revert j. induction cs as [|c cs IH]; intros j; simpl; [done|].
  destruct c as [|e c]; [|exists 0%nat, e, c, cs; by split_and!; [lia|..]].
  specialize (IH (j + 1)). destruct (next_chain cs (j + 1)) as [j'|]; [|done].
  destruct IH as (n & e & c & cs' & -> & Hn & Ht & Hd). exists (S n), e, c, cs'.
  split_and!; [lia|done..].
Qed.

Lemma at_entry_entries h itr pre e post :
  at_entry h itr pre e post → entries h = pre ++ e :: post.
Proof.
  intros [(i & c1 & c2 & _ & _ & _ & Ht & -> & ->)]. unfold entries.
  rewrite <-(take_drop_middle _ _ _ Ht) at 1. rewrite concat_app. simpl.
  by rewrite <-!app_assoc.
Qed.

Lemma at_entry_chain h itr pre e post :
  at_entry h itr pre e post → ∃ c1 c2, it_e itr = Some (length c1) ∧
    chain_at h (it_index itr) = Ret (c1 ++ e :: c2).
Proof.
  intros [(i & c1 & c2 & Hi & He & _ & Ht & _)]. exists c1, c2. split; [done|].
  unfold chain_at. by rewrite Hi, Nat2Z.id, Ht.
Qed.

Lemma entry_at_spec h itr pre e post : at_entry h itr pre e post → entry_at h itr = Ret e.
Proof.
  intros (c1 & c2 & He & Hc)%at_entry_chain. unfold entry_at. rewrite He, Hc. run.
  by rewrite list_lookup_middle.
Qed.

(** Moving to the first entry of the chains from [k] on. *)
Lemma next_chain_at h k :
  (k ≤ length (table h))%nat →
  match next_chain (drop k (table h)) (Z.of_nat k) with
  | None => concat (drop k (table h)) = []
  | Some j => ∃ e post, concat (drop k (table h)) = e :: post ∧
      at_entry h (mk_itr (Some 0%nat) None j) (concat (take k (table h))) e post
  end.
Proof.
  intros Hk. pose proof (next_chain_spec (drop k (table h)) (Z.of_nat k)) as Hn.
  destruct (next_chain _ _) as [j|]; [|done].
  destruct Hn as (n & e & c & cs' & -> & Hl & Ht & _).
  pose proof Hl as Hl'. rewrite lookup_drop in Hl'.
  exists e, (c ++ concat (drop (S (k + n)) (table h))). split.
  - rewrite <-(take_drop_middle _ _ _ Hl), concat_app, Ht. simpl.
    by rewrite drop_drop, Nat.add_succ_r.
  - split. exists (k + n)%nat, [], c. cbn [it_index it_e it_parent app length].
    split_and!; [lia|done|done|done| |done].
    rewrite app_nil_r, <-(take_drop k (take (k + n) (table h))), concat_app.
    rewrite take_take, Nat.min_l by lia.
    rewrite skipn_firstn_comm. replace (k + n - k)%nat with n by lia.
    by rewrite Ht, app_nil_r.
Qed.

Lemma advance_chain_spec h itr i :
  it_index itr = Z.of_nat i → (i < length (table h))%nat →
  tablelength h = Z.of_nat (length (table h)) →
  (concat (drop (S i) (table h)) = [] ∧
     ∃ itr', advance_chain h itr = (0, itr') ∧ it_e itr' = None) ∨
  (∃ itr' e post, advance_chain h itr = (-1, itr') ∧
     concat (drop (S i) (table h)) = e :: post ∧
     at_entry h itr' (concat (take (S i) (table h))) e post).
Proof.
  intros Hi Hlt Hlen. unfold advance_chain. rewrite Hi, Hlen.
  replace (Z.of_nat i + 1) with (Z.of_nat (S i)) by lia. rewrite Nat2Z.id.
  destruct (Z.leb_spec (Z.of_nat (length (table h))) (Z.of_nat (S i))).
  - left. rewrite drop_ge by lia. split; [done|]. by eexists.
  - pose proof (next_chain_at h (S i) ltac:(lia)) as Hn.
    destruct (next_chain _ _) as [j|]; [right|left; split; [done|by eexists]].
    destruct Hn as (e & post & ? & ?). by eexists _, e, post.
Qed.

Definition sized h : Prop := tablelength h = Z.of_nat (length (table h)).
Lemma wf_sized h : ht_wf h → sized h.
Proof. intros Hwf. unfold sized. rewrite (wf_length _ Hwf). pose proof (wf_pos _ Hwf). lia. Qed.

Lemma hashtable_iterator_spec h o :
  ht_wf h → fst (alloc o) = true → ∃ itr o', hashtable_iterator h o = (Some itr, o') ∧
    match entries h with
    | [] => it_e itr = None
    | e :: post => at_entry h itr [] e post
    end.
Proof.
  intros Hwf Ho. unfold hashtable_iterator. destruct (alloc o) as [b o']. simpl in Ho.
  subst b. cbn [negb]. pose proof (wf_count _ Hwf) as Hc.
  destruct (Z.eqb_spec (entrycount h) 0) as [Hz|Hz].
  - eexists _, _. split; [done|]. destruct (entries h); [done|]. simpl in Hc. lia.
  - pose proof (next_chain_at h 0 ltac:(lia)) as Hn. rewrite drop_0 in Hn.
    unfold entries in *.
    destruct (next_chain (table h) (Z.of_nat 0)) as [j|] eqn:E.
    + destruct Hn as (e & post & Heq & Hat). rewrite Heq. change 0 with (Z.of_nat 0). rewrite E.
      by eexists _, _.
    + exfalso. rewrite Hn in Hc. simpl in Hc. lia.
Qed.

Lemma hashtable_iterator_allocs h itr o' :
  hashtable_iterator h [] = (itr, o') → o' = [].
Proof. unfold hashtable_iterator. simpl. by destruct (_ =? _); intros [= _ <-]. Qed.

(** Advancing goes to the next entry of the enumeration, and says whether there
    is one. *)
Lemma hashtable_iterator_advance_spec h itr pre e post :
  sized h → at_entry h itr pre e post →
  match post with
  | [] => ∃ itr', hashtable_iterator_advance h itr = Ret (0, itr')
  | e' :: post' => ∃ itr', hashtable_iterator_advance h itr = Ret (-1, itr') ∧
      at_entry h itr' (pre ++ [e]) e' post'
  end.
Proof.
  intros Hs [(i & c1 & c2 & Hi & He & Hp & Ht & -> & ->)].
  unfold hashtable_iterator_advance, chain_at. rewrite He, Hi, Nat2Z.id, Ht. run.
  rewrite lookup_app_r, Nat.sub_succ_l, Nat.sub_diag by lia. simpl.
  destruct c2 as [|e' c2]; simpl.
  - destruct (advance_chain_spec h itr i Hi) as [[-> (itr' & -> & _)]|(itr' & e' & post' & -> & -> & Hat)];
      [by eapply lookup_lt_Some|done|by exists itr'|].
    exists itr'. split; [done|]. rewrite (take_S_r _ _ _ Ht), concat_app in Hat.
    simpl in Hat. by rewrite app_nil_r, app_assoc in Hat.
  - eexists. split; [done|]. split. exists i, (c1 ++ [e]), c2. simpl.
    rewrite length_app, <-!app_assoc. simpl. split_and!; try done; [f_equal; lia|].
    destruct c1; simpl; [done|]. rewrite length_app; simpl. f_equal. lia.
Qed.

Lemma visit_at h itr pre e post fuel :
  sized h → at_entry h itr pre e post → (length post < fuel)%nat →
  visit fuel h itr = Ret (e :: post).
Proof.
  intros Hs. revert itr pre e post. induction fuel as [|fuel IH]; intros itr pre e post Hat Hf;
    [lia|]. cbn [visit]. rewrite (entry_at_spec _ _ _ _ _ Hat). run.
  pose proof (hashtable_iterator_advance_spec h itr pre e post Hs Hat) as Ha.
  destruct post as [|e' post].
  - by destruct Ha as (itr' & ->).
  - destruct Ha as (itr' & -> & Hat'). run. simpl in Hf.
    rewrite (IH itr' _ e' post Hat') by lia. done.
Qed.

(** Removal under the iterator: the entry leaves the enumeration and the iterator
    goes to the one after it, if there is one. *)
Lemma hashtable_iterator_remove_spec h itr pre e post :
  ht_wf h → at_entry h itr pre e post →
  ∃ ret itr' h', hashtable_iterator_remove h itr = Ret (ret, itr', h') ∧ ht_wf h' ∧
    entries h' = pre ++ post ∧
    match post with
    | [] => ret = 0
    | e' :: post' => ret = -1 ∧ at_entry h' itr' pre e' post'
    end.
Proof.
  intros Hwf Hat. pose proof (at_entry_entries _ _ _ _ _ Hat) as Hall.
  destruct Hat as [(i & c1 & c2 & Hi & He & Hp & Ht & -> & ->)].
  unfold hashtable_iterator_remove, chain_at. rewrite He, Hi, Nat2Z.id, Ht. run.
  set (before := match it_parent itr with None => [] | Some p => _ end).
  assert (before = c1) as ->.
  { unfold before. rewrite Hp. destruct c1 as [|x c1]; [done|].
    rewrite take_app_length'; [done|]. done. }
  assert (drop (S (length c1)) (c1 ++ e :: c2) = c2) as ->.
  { rewrite <-Nat.add_1_r, <-drop_drop, drop_app_length. done. }
  assert (1 ≤ entrycount h < 2 ^ 32) as Hcnt.
  { split; [|apply Hwf]. apply (wf_count_pos h i _ e Hwf Ht). set_solver. }
  rewrite (wrap_u_id 32) by (unfold in_u; lia).
  destruct (shrink_wf h i _ (c1 ++ c2) [e] (entrycount h - 1) Hwf Ht) as [Hwf' Hpe];
    [by rewrite <-Permutation_middle|done|].
  set (h' := set_count _ _) in *.
  assert (table h' !! i = Some (c1 ++ c2)) as Ht'.
  { apply list_lookup_insert_eq. by eapply lookup_lt_Some. }
  assert (take i (table h') = take i (table h)) as Htake by (by apply take_insert_ge).
  assert (drop (S i) (table h') = drop (S i) (table h)) as Hdrop
    by (apply drop_insert_lt; lia).
  assert (entries h' = (concat (take i (table h)) ++ c1) ++ c2 ++ concat (drop (S i) (table h)))
    as Hent.
  { unfold entries. rewrite <-(take_drop_middle _ _ _ Ht'), concat_app. cbn [concat].
    by rewrite Htake, Hdrop, <-!app_assoc. }
  rewrite lookup_app_r, Nat.sub_succ_l, Nat.sub_diag by lia.
  destruct c2 as [|e' c2]; cbn [lookup list_lookup].
  - destruct (advance_chain_spec h' itr i Hi) as [[Hd (itr' & E & _)]|(itr' & e' & post' & E & Hd & Hat)];
      [by eapply lookup_lt_Some|by apply wf_sized|..]; rewrite E; rewrite Hdrop in Hd.
    + eexists _, _, h'. split_and!; [done..|]. by rewrite Hd.
    + eexists _, _, h'. split_and!; [done..|]. rewrite Hd. split; [done|].
      rewrite (take_S_r _ _ _ Ht'), concat_app, Htake in Hat. simpl in Hat.
      by rewrite !app_nil_r in Hat.
  - eexists _, _, h'. split_and!; [done..|]. split; [done|]. split.
    exists i, c1, c2. cbn [it_index it_e it_parent]. by rewrite Htake, Hdrop.
Qed.

(** [do { ... } while (hashtable_iterator_remove(it))]. *)
Fixpoint drain (fuel : nat) h (itr : hashtable_itr) : outcome (hashtable K V) :=
  match fuel with
  | O => Loop
  | S fuel =>
      '(more, itr, h) ← hashtable_iterator_remove h itr;
      if more =? 0 then Ret h else drain fuel h itr
  end.

Lemma drain_at h itr e post fuel :
  ht_wf h → at_entry h itr [] e post → (length post < fuel)%nat →
  ∃ h', drain fuel h itr = Ret h' ∧ ht_wf h' ∧ entries h' = [].
Proof.
  revert h itr e post. induction fuel as [|fuel IH]; intros h itr e post Hwf Hat Hf; [lia|].
  destruct (hashtable_iterator_remove_spec h itr [] e post Hwf Hat)
    as (ret & itr' & h' & E & Hwf' & Hent & Hpost).
  cbn [drain]. rewrite E. run. destruct post as [|e' post].
  - subst ret. by exists h'.
  - destruct Hpost as [-> Hat']. run. simpl in Hf.
    apply (IH h' itr' e' post Hwf' Hat'). lia.
Qed.
End iteration.
