(* ===== verification/HashtableTheorems.v ===== *)
(** * Theorems about the hash table

    The table refines a bag of bindings, and a finite map where keys are not repeated, over
    any sequence of operations; it behaves as
    documented when memory runs out (with one exception, the [realloc] path),
    respects its load limit, and its iterator enumerates it completely. *)

From S2P Require Import Prelude Hashtable HashtableFacts.
Local Open Scope Z_scope.

Section trace.
Context {K V : Type} `{HashFnsOK K} `{Countable K}.
Implicit Types h : hashtable K V.

(** The calls a client makes and what it sees of each; [o] are the answers of the
    allocator. *)
Inductive ht_op := Insert (k : K) (v : V) | Search (k : K) | Remove (k : K) | Count.
Inductive ht_result := RInsert (rc : Z) | RValue (v : option V) | RCount (n : Z).

Definition ht_step h (op : ht_op) (o : allocs) : outcome (ht_result * hashtable K V * allocs) :=
  match op with
  | Insert k v => '(rc, h, o) ← hashtable_insert h k v o; Ret (RInsert rc, h, o)
  | Search k => r ← hashtable_search h k; Ret (RValue r, h, o)
  | Remove k => '(r, h) ← hashtable_remove h k; Ret (RValue r, h, o)
  | Count => Ret (RCount (hashtable_count h), h, o)
  end.
Fixpoint ht_run h (ops : list ht_op) (o : allocs) : outcome (list ht_result * hashtable K V * allocs) :=
  match ops with
  | [] => Ret ([], h, o)
  | op :: ops => '(r, h, o) ← ht_step h op o; '(rs, h, o) ← ht_run h ops o; Ret (r :: rs, h, o)
  end.

(** *** A bag of bindings

    What the calls mean when a key may be inserted more than once: a search finds one of
    its values, a removal takes one of them out, an insertion that is refused changes
    nothing. *)
Inductive bag_step (l : list (K * V)) : ht_op → ht_result → list (K * V) → Prop :=
  | bag_inserted k v : bag_step l (Insert k v) (RInsert (-1)) ((k, v) :: l)
  | bag_refused k v : bag_step l (Insert k v) (RInsert 0) l
  | bag_found k v : (k, v) ∈ l → bag_step l (Search k) (RValue (Some v)) l
  | bag_missing k : k ∉ l.*1 → bag_step l (Search k) (RValue None) l
  | bag_removed k v l' : l ≡ₚ (k, v) :: l' → bag_step l (Remove k) (RValue (Some v)) l'
  | bag_absent k : k ∉ l.*1 → bag_step l (Remove k) (RValue None) l
  | bag_count : bag_step l Count (RCount (Z.of_nat (length l))) l.
Inductive bag_run : list (K * V) → list ht_op → list ht_result → list (K * V) → Prop :=
  | bag_done l : bag_run l [] [] l
  | bag_next l op ops r rs l1 l2 : bag_step l op r l1 → bag_run l1 ops rs l2 → bag_run l (op :: ops) (r :: rs) l2.
(** What a table holds. *)
Definition holds h (l : list (K * V)) : Prop := ht_wf h ∧ binding <$> entries h ≡ₚ l.

Lemma holds_bound h l k v : holds h l → bound h k v ↔ (k, v) ∈ l.
Proof.
  intros [_ Hl]. rewrite <-Hl, list_elem_of_fmap. unfold bound, binding. split.
  - intros (e & He & <- & <-). by exists e.
  - intros (e & [= -> ->] & He). by exists e.
Qed.
Lemma holds_missing h l k : holds h l → (∀ v, ¬ bound h k v) → k ∉ l.*1.
Proof.
  intros Hl Hb ([k' v] & -> & Hin)%list_elem_of_fmap. eapply Hb. by apply (holds_bound h l).
Qed.
Lemma holds_count h l : holds h l → hashtable_count h = Z.of_nat (length l).
Proof. intros [Hwf <-]. rewrite length_fmap. apply (wf_count _ Hwf). Qed.

(** An allocator that refuses nothing grants every insertion. *)
Lemma alloc_served o : false ∉ o → ∃ o', alloc o = (true, o') ∧ false ∉ o'.
Proof.
  intros Ho. destruct o as [|[] o]; [by exists []|exists o; split; [done|set_solver]|]. destruct Ho. left.
Qed.
Lemma insert_served h k v o rc h' o' :
  hashtable_insert h k v o = Ret (rc, h', o') → false ∉ o → rc = -1 ∧ false ∉ o'.
Proof.
  intros E Ho. revert E. unfold hashtable_insert.
  assert (∀ (h : hashtable K V) o, false ∉ o →
    ('(ok, o) ← Ret (alloc o);
     if negb ok then Ret (0, set_count (uint32 (entrycount h - 1)) h, o) else
     _ ← chain_at h (indexFor (tablelength h) (hash k));
     Ret (-1, set_table (push (table h) (indexFor (tablelength h) (hash k)) (mk_entry k v (hash k))) h, o)) =
    Ret (rc, h', o') → rc = -1 ∧ false ∉ o') as Hlast.
  { intros h1 o1 Ho1. destruct (alloc_served o1 Ho1) as (o2 & -> & Ho2). run.
    destruct (chain_at _ _); try done. run. by intros [= <- _ <-]. }
  set (h1 := set_count _ h). destruct (_ <? _); [|by apply Hlast].
  unfold hashtable_expand. destruct (_ =? _); [by apply Hlast|]. destruct (primes !! _); [|done].
  destruct (alloc_served o Ho) as (o1 & -> & Ho1). by apply Hlast.
Qed.

Lemma ht_step_bag h l op o : holds h l → Z.of_nat (length l) + 1 < 2 ^ 32 →
  (∃ r h' o' l', ht_step h op o = Ret (r, h', o') ∧ bag_step l op r l' ∧ holds h' l' ∧ (length l' ≤ S (length l))%nat ∧
     (false ∉ o → r ≠ RInsert 0 ∧ false ∉ o')) ∨
  (ht_step h op o = UB ∧ false ∈ o).
Proof.
  intros Hl Hs. rewrite <-(holds_count _ _ Hl) in Hs. pose proof Hl as [Hwf Hp]. unfold hashtable_count in Hs.
  destruct op as [k v|k|k|]; cbn [ht_step].
  - destruct (hashtable_insert_spec h k v o Hwf Hs)
      as [(h' & o' & E & Hwf' & Hp' & _)|[(h' & o' & E & Hwf' & Hp' & _)|(E & o' & Ho)]];
      [left|left|right; rewrite E; split; [done|destruct Ho as [-> | ->]; left]];
      pose proof (insert_served _ _ _ _ _ _ _ E) as Hsv; rewrite E; run; eexists _, h', o', _.
    + split; [done|]. split; [by apply bag_inserted|]. split; [split; [done|by rewrite Hp', <-Hp]|]. split; [done|].
      intros Ho. by split; [|apply Hsv].
    + split; [done|]. split; [by apply bag_refused|]. split; [split; [done|by rewrite Hp', <-Hp]|]. split; [lia|].
      intros Ho. by destruct (Hsv Ho).
  - left. destruct (hashtable_search_spec h k Hwf) as (r & -> & Hr). run. eexists _, h, o, l.
    split; [done|]. split; [|by split_and!; [done|lia|done..]].
    destruct r as [v|]; [by apply bag_found, (holds_bound h)|]. by apply bag_missing, (holds_missing h).
  - left. destruct (hashtable_remove_spec h k Hwf) as [(v & h' & e & -> & Hwf' & He & Hk & Hv)|[-> Hn]]; run.
    + assert (l ≡ₚ (k, v) :: (binding <$> entries h')) as Hrest by (rewrite <-Hp, He; cbn; unfold binding at 1; by rewrite Hk, Hv).
      eexists _, h', o, (binding <$> entries h'). split; [done|]. split; [by apply bag_removed|]. split; [by split|].
      split; [|done]. rewrite Hrest. simpl. lia.
    + eexists _, h, o, l. split; [done|]. split; [by apply bag_absent, (holds_missing h)|]. by split_and!; [done|lia|done..].
  - left. rewrite (holds_count _ _ Hl). eexists _, h, o, l. split; [done|]. split; [by apply bag_count|].
    by split_and!; [done|lia|done..].
Qed.
Lemma ht_run_bag ops : ∀ h l o, holds h l → Z.of_nat (length l + length ops) < 2 ^ 32 - 1 →
  (∃ rs h' o' l', ht_run h ops o = Ret (rs, h', o') ∧ bag_run l ops rs l' ∧ holds h' l' ∧
     (false ∉ o → RInsert 0 ∉ rs)) ∨
  (ht_run h ops o = UB ∧ false ∈ o).
Proof.
  induction ops as [|op ops IH]; intros h l o Hl Hs; cbn [ht_run length] in *.
  { left. exists [], h, o, l. split_and!; [done|constructor|done|]. intros _. by intros ?%elem_of_nil. }
  destruct (ht_step_bag h l op o Hl ltac:(lia)) as [(r & h1 & o1 & l1 & E & Hb & Hl1 & Hn & Hsv)|[-> Hf]]; [|by right].
  rewrite E. run. destruct (IH h1 l1 o1 Hl1 ltac:(lia)) as [(rs & h2 & o2 & l2 & -> & Hbs & Hl2 & Hss)|[-> Hf]]; run.
  - left. exists (r :: rs), h2, o2, l2. split_and!; [done|by econstructor|done|]. intros Ho.
    destruct (Hsv Ho) as [Hr Ho1]. intros [Hin|Hin]%elem_of_cons; [done|by apply Hss].
  - right. split; [done|]. apply dec_stable. intros Ho. by destruct (Hsv Ho).
Qed.

(** *** A finite map

    The same calls on a finite map, for runs that insert no key that is present. *)
Definition map_step (m : gmap K V) (op : ht_op) : option (ht_result * gmap K V) :=
  match op with
  | Insert k v => match m !! k with
                  | Some _ => None
                  | None => Some (RInsert (-1), <[k := v]> m)
                  end
  | Search k => Some (RValue (m !! k), m)
  | Remove k => Some (RValue (m !! k), delete k m)
  | Count => Some (RCount (Z.of_nat (size m)), m)
  end.
Fixpoint map_run (m : gmap K V) (ops : list ht_op) : option (list ht_result * gmap K V) :=
  match ops with
  | [] => Some ([], m)
  | op :: ops => '(r, m) ← map_step m op; '(rs, m) ← map_run m ops; Some (r :: rs, m)
  end.

Lemma ht_step_refines h m op o r m' :
  ht_repr h m → Z.of_nat (size m) + 1 < 2 ^ 32 → false ∉ o → map_step m op = Some (r, m') →
  ∃ h' o', ht_step h op o = Ret (r, h', o') ∧ ht_repr h' m' ∧ false ∉ o'.
Proof.
  intros Hr Hs Ho. destruct op as [k v|k|k|]; simpl.
  - destruct (m !! k) eqn:Ek; [done|]. intros [= <- <-].
    destruct (repr_insert h m k v o Hr Ek Hs)
      as [(h' & o' & E & ? & _)|[(h' & o' & E & _ & Hn)|[_ [o' [-> | ->]]]]]; [| |set_solver..].
    + rewrite E. exists h', o'. split_and!; [done..|]. by apply (insert_served _ _ _ _ _ _ _ E).
    + by destruct (insert_served _ _ _ _ _ _ _ E Ho).
  - intros [= <- <-]. rewrite (repr_search h m k Hr). by exists h, o.
  - intros [= <- <-]. destruct (repr_remove h m k Hr) as (h' & -> & ?). by exists h', o.
  - intros [= <- <-]. rewrite (repr_count h m Hr). by exists h, o.
Qed.

Lemma map_step_size m op r m' :
  map_step m op = Some (r, m') → (size m' ≤ S (size m))%nat.
Proof.
  destruct op as [k v|k|k|]; simpl; [destruct (m !! k) eqn:Ek; [done|]|..];
    intros [= <- <-]; [|lia| |lia].
  - rewrite map_size_insert_None by done. lia.
  - rewrite map_size_delete. destruct (m !! k); simpl; lia.
Qed.

Lemma ht_run_refines ops : ∀ h m o rs m', ht_repr h m → Z.of_nat (size m + length ops) < 2 ^ 32 - 1 → false ∉ o →
  map_run m ops = Some (rs, m') →
  ∃ h' o', ht_run h ops o = Ret (rs, h', o') ∧ ht_repr h' m'.
Proof.
  induction ops as [|op ops IH]; intros h m o rs m' Hr Hs Ho; simpl.
  - intros [= <- <-]. by exists h, o.
  - destruct (map_step m op) as [[r m1]|] eqn:E1; [|done]. simpl.
    destruct (map_run m1 ops) as [[rs1 m2]|] eqn:E2; [|done]. simpl. intros [= <- <-].
    simpl in Hs. pose proof (map_step_size _ _ _ _ E1).
    destruct (ht_step_refines h m op o r m1 Hr ltac:(lia) Ho E1) as (h1 & o1 & -> & Hr1 & Ho1). run.
    destruct (IH h1 m1 o1 rs1 m2 Hr1 ltac:(lia) Ho1 E2) as (h2 & o2 & -> & Hr2). run. by exists h2, o2.
Qed.
End trace.

(** Strings hashed by their length, for concrete runs. *)
Local Instance length_fns : HashFns cstring :=
  {| hashfn s := Z.of_nat (length s); eqfn := λ a b, bool_decide (a = b) |}.
Local Instance length_fns_ok : HashFnsOK cstring.
Proof. split. intros. apply bool_decide_eq_true. Qed.

(** C18.  The hash table refines a bag of bindings, and a finite map where keys are not
    repeated.  From a created table, any sequence of insertions, searches, removals and
    counts with any allocator returns what a bag of bindings returns, whether a key is
    inserted once or several times: growth and collisions are invisible.  The one
    exception is undefined and needs an allocator that has refused a request.  If the
    allocator refuses none no insertion is refused; and if in addition no key is inserted
    while it is present, the results are exactly those of a finite map. *)
Theorem hashtable_trace_refines {K V} `{HashFnsOK K} `{Countable K}
    (minsize : Z) (o o' : allocs) (h : hashtable K V) (ops : list ht_op) :
  create_hashtable minsize o = (Some h, o') → 0 ≤ minsize →
  Z.of_nat (length ops) < 2 ^ 32 - 1 →
  ((∃ rs h' o'' l, ht_run h ops o' = Ret (rs, h', o'') ∧ bag_run [] ops rs l ∧ ht_wf h' ∧
      binding <$> entries h' ≡ₚ l ∧ hashtable_count h' = Z.of_nat (length l) ∧
      (false ∉ o' → RInsert 0 ∉ rs)) ∨
   (ht_run h ops o' = UB ∧ false ∈ o')) ∧
  (∀ rs m, false ∉ o' → map_run ∅ ops = Some (rs, m) →
    ∃ h' o'', ht_run h ops o' = Ret (rs, h', o'') ∧ ht_wf h' ∧ to_map h' = m ∧
      hashtable_count h' = Z.of_nat (size m)).
Proof.
  intros Hc Hm Hl. pose proof (repr_create minsize o h o' Hc Hm) as Hr. split.
  - destruct (create_hashtable_spec minsize o h o' Hc Hm) as (Hwf & He & _).
    destruct (ht_run_bag ops h [] o') as [(rs & h' & o'' & l & E & Hb & Hh & Hsv)|?];
      [split; [done|by rewrite He]|done|left|by right].
    exists rs, h', o'', l. pose proof (holds_count _ _ Hh). by destruct Hh.
  - intros rs m Ho Hrun.
    destruct (ht_run_refines ops h ∅ o' rs m Hr) as (h' & o'' & E & Hr'); [by rewrite map_size_empty|done..|].
    exists h', o''. pose proof (repr_count _ _ Hr'). by destruct Hr'.
Qed.

(** A key inserted twice is found twice. *)
Lemma hashtable_trace_refines_witness :
  let ops := [Insert (lit "a") 1; Insert (lit "a") 2; Search (lit "a"); Remove (lit "a"); Remove (lit "a"); Count] in
  let h := mk_hashtable 53 (replicate 53 []) 0 35 0 in
  ((∃ rs h' o'' l, ht_run h ops [] = Ret (rs, h', o'') ∧ bag_run [] ops rs l ∧ ht_wf h' ∧
      binding <$> entries h' ≡ₚ l ∧ hashtable_count h' = Z.of_nat (length l) ∧
      (false ∉ [] → RInsert 0 ∉ rs)) ∨
   (ht_run h ops [] = UB ∧ false ∈ [])) ∧
  ∃ h' : hashtable cstring Z, ∃ o'',
    ht_run h [Insert (lit "a") 1; Insert (lit "b") 2; Search (lit "b"); Remove (lit "a"); Count] []
    = Ret ([RInsert (-1); RInsert (-1); RValue (Some 2); RValue (Some 1); RCount 1], h', o'') ∧
    ht_wf h' ∧ to_map h' = {[lit "b" := 2]} ∧
    hashtable_count h' = Z.of_nat (size ({[lit "b" := 2]} : gmap cstring Z)).
Proof.
  intros ops h. split.
  - apply (hashtable_trace_refines 32 [] [] h ops); [vm_compute; reflexivity|lia|simpl; lia].
  - apply (hashtable_trace_refines 32 [] [] h
      [Insert (lit "a") 1; Insert (lit "b") 2; Search (lit "b"); Remove (lit "a"); Count]);
      [vm_compute; reflexivity|lia|simpl; lia|by intros ?%elem_of_nil|vm_compute; reflexivity].
Defined.

(**  Insertion when memory runs out.  Whatever the allocator answers, inserting a
    fresh key either succeeds with the key bound; or returns 0 with the same map, the
    count restored; or, when [malloc] refuses the larger array and [realloc] then
    grants it, is undefined: the second plan clears memory through an uninitialised
    pointer.  No other outcome is possible. *)
Theorem hashtable_insert_oom {K V} `{HashFnsOK K} `{Countable K}
    (h : hashtable K V) (m : gmap K V) (k : K) (v : V) (o : allocs) :
  ht_repr h m → m !! k = None → Z.of_nat (size m) + 1 < 2 ^ 32 →
  (∃ h' o', hashtable_insert h k v o = Ret (-1, h', o') ∧ ht_repr h' (<[k := v]> m)) ∨
  (∃ h' o', hashtable_insert h k v o = Ret (0, h', o') ∧ ht_repr h' m ∧ false ∈ o) ∨
  (hashtable_insert h k v o = UB ∧ loadlimit h < entrycount h + 1 ∧
     ∃ o', o = false :: true :: o' ∨ o = [false]).
Proof.
  intros Hr Hk Hs. pose proof (repr_count _ _ Hr) as Hcnt. unfold hashtable_count in Hcnt.
  destruct (repr_insert h m k v o Hr Hk Hs) as [(h' & o' & E & Hr' & _)|[(h' & o' & E & Hr' & _)|[E Ho]]].
  - left. by exists h', o'.
  - right; left. exists h', o'. split_and!; [done..|].
    apply dec_stable. intros Hno. by destruct (insert_served _ _ _ _ _ _ _ E Hno).
  - right; right. split_and!; [done| |done].
    apply Z.nle_gt. intros Hle. revert E. unfold hashtable_insert.
    rewrite (wrap_u_id 32 (entrycount h + 1)) by (unfold in_u; lia).
    cbn [loadlimit set_count entrycount]. rewrite (proj2 (Z.ltb_ge _ _)) by lia. run.
    destruct (alloc o) as [[] o1]; cbn [negb]; [|done].
    destruct (chain_at_lookup h (hash k) (repr_wf _ _ Hr)) as (c & Hc & _).
    unfold chain_at. cbn [table set_count tablelength e_h]. by rewrite Hc.
Qed.

Lemma hashtable_insert_oom_witness :
  let h := mk_hashtable (K:=cstring) (V:=Z) 53 (replicate 53 []) 0 35 0 in
  (∃ h' o', hashtable_insert h (lit "a") 1 [false] = Ret (-1, h', o') ∧
     ht_repr h' (<[lit "a" := 1]> ∅)) ∨
  (∃ h' o', hashtable_insert h (lit "a") 1 [false] = Ret (0, h', o') ∧ ht_repr h' ∅ ∧
     false ∈ [false]) ∨
  (hashtable_insert h (lit "a") 1 [false] = UB ∧ loadlimit h < entrycount h + 1 ∧
     ∃ o', [false] = false :: true :: o' ∨ [false] = [false]).
Proof.
  apply (hashtable_insert_oom _ ∅ (lit "a") 1 [false]);
    [apply (repr_create 32 [] _ []); [vm_compute; reflexivity|lia]|done|].
  rewrite map_size_empty. lia.
Defined.

(** The limits of consecutive primes leave room for one more entry. *)
Lemma load_limit_grows i p q :
  primes !! i = Some p → primes !! S i = Some q → load_limit p + 1 ≤ load_limit q.
Proof.
  intros Hp Hq.
  assert (Forall2 (λ a b, load_limit a + 1 ≤ load_limit b) (take 25 primes) (drop 1 primes))
    as Hall by (repeat constructor; vm_compute; discriminate).
  apply (Forall2_lookup_lr _ _ _ i p q) in Hall; [done| |by rewrite lookup_drop].
  rewrite lookup_take_lt; [done|]. apply lookup_lt_Some in Hq. simpl in Hq. lia.
Qed.

(** The load limit is respected.  With an allocator that serves every request,
    inserting into a table that holds at most [loadlimit] entries leaves one that
    does, unless the table already has the largest size; the table never shrinks. *)
Theorem hashtable_load_respected {K V} `{HashFns K}
    (h : hashtable K V) (k : K) (v : V) :
  ht_wf h → entrycount h ≤ loadlimit h → entrycount h + 1 < 2 ^ 32 →
  ∃ h', hashtable_insert h k v [] = Ret (-1, h', []) ∧ primeindex h ≤ primeindex h' ∧
    (entrycount h' ≤ loadlimit h' ∨ primeindex h' = prime_table_length - 1).
Proof.
  intros Hwf Hle Hs. pose proof (wf_pos _ Hwf). pose proof (wf_count _ Hwf) as Hcnt.
  pose proof (wf_primeindex _ Hwf) as Hpi.
  unfold hashtable_insert. rewrite (wrap_u_id 32 (entrycount h + 1)) by (unfold in_u; lia).
  cbn [loadlimit set_count entrycount].
  destruct (chain_at_lookup h (hash k) Hwf) as (c & Hc & _).
  destruct (Z.ltb_spec (loadlimit h) (entrycount h + 1)) as [Hlt|Hge].
  - unfold hashtable_expand. cbn [primeindex set_count table entrycount].
    destruct (Z.eqb_spec (primeindex h) (prime_table_length - 1)) as [Hlast|Hlast].
    + run. unfold chain_at. cbn [alloc negb table set_count tablelength e_h]. rewrite Hc. run.
      eexists. split; [done|]. simpl. split; [lia|]. by right.
    + destruct (lookup_lt_is_Some_2 primes (Z.to_nat (primeindex h + 1))) as [p Hp];
        [unfold prime_table_length in *; lia|].
      rewrite Hp. pose proof (primes_pos _ _ Hp). cbn [alloc]. run. cbn [alloc negb].
      destruct (move_table_spec p (replicate (Z.to_nat p) []) (table h))
        as (Hl & _); [lia|by rewrite length_replicate|apply placed_empty|by apply wf_hashes|].
      unfold chain_at. cbn [table tablelength e_h].
      destruct (lookup_lt_is_Some_2 (foldl (move_chain p) (replicate (Z.to_nat p) []) (table h))
        (Z.to_nat (indexFor p (hash k)))) as [d Hd]; [rewrite Hl; apply indexFor_lt; lia|].
      rewrite Hd. run. eexists. split; [done|]. simpl. split; [lia|]. left.
      pose proof (load_limit_grows (Z.to_nat (primeindex h)) _ p (wf_prime _ Hwf)) as Hg.
      rewrite <-(wf_limit _ Hwf) in Hg. rewrite Z2Nat.inj_add, Nat.add_1_r in Hp by lia.
      specialize (Hg Hp). lia.
  - run. unfold chain_at. cbn [alloc negb table set_count tablelength e_h]. rewrite Hc. run.
    eexists. split; [done|]. simpl. split; [lia|]. left. lia.
Qed.

Lemma hashtable_load_respected_witness :
  let h := mk_hashtable (K:=cstring) (V:=Z) 53 (replicate 53 []) 0 35 0 in
  ∃ h', hashtable_insert h (lit "a") 1 [] = Ret (-1, h', []) ∧ primeindex h ≤ primeindex h' ∧
    (entrycount h' ≤ loadlimit h' ∨ primeindex h' = prime_table_length - 1).
Proof.
  apply hashtable_load_respected; [|vm_compute; discriminate|done].
  eapply repr_wf, (repr_create 32 [] _ []); [vm_compute; reflexivity|lia].
Defined.

(**  Iteration is complete.  On a table that is not empty, a loop that takes the
    current entry and advances until [hashtable_iterator_advance] returns 0 visits
    every entry exactly once, so each binding of the map once; and a loop that
    removes instead of advancing ends with the empty table. *)
Theorem hashtable_iteration_complete {K V} `{HashFns K} `{Countable K}
    (h : hashtable K V) (m : gmap K V) :
  ht_repr h m → m ≠ ∅ →
  ∃ itr, hashtable_iterator h [] = (Some itr, []) ∧
    (∃ es, visit (size m) h itr = Ret es ∧ NoDup (e_k <$> es) ∧
       ∀ k v, m !! k = Some v ↔ ∃ e, e ∈ es ∧ e_k e = k ∧ e_v e = v) ∧
    (∃ h', drain (size m) h itr = Ret h' ∧ ht_wf h' ∧ entries h' = [] ∧
       hashtable_count h' = 0).
Proof.
  intros Hr Hne. pose proof (repr_count _ _ Hr) as Hcnt. destruct Hr as [Hwf Hnd <-].
  unfold hashtable_count in Hcnt. rewrite (wf_count _ Hwf) in Hcnt.
  destruct (hashtable_iterator_spec h [] Hwf eq_refl) as (itr & o' & E & Hat).
  destruct (entries h) as [|e post] eqn:Ee.
  { destruct Hne. unfold to_map. by rewrite Ee. }
  pose proof (hashtable_iterator_allocs _ _ _ E) as ->.
  simpl in Hcnt. exists itr. split; [done|]. split.
  - exists (e :: post). rewrite (visit_at h itr [] e post) by (by apply wf_sized || lia || done).
    split_and!; [done..|]. intros k v. rewrite <-Ee.
    apply (to_map_lookup h k v). by rewrite Ee.
  - destruct (drain_at h itr e post (size (to_map h)) Hwf Hat) as (h' & ? & Hwf' & He'); [lia|].
    exists h'. split_and!; [done..|]. unfold hashtable_count.
    by rewrite (wf_count _ Hwf'), He'.
Qed.

(** A table with one binding, as [hashtable_insert] leaves it. *)
Definition sample_table : hashtable cstring Z :=
  match hashtable_insert (mk_hashtable 53 (replicate 53 []) 0 35 0) (lit "a") 1 [] with
  | Ret (_, h, _) => h
  | _ => mk_hashtable 0 [] 0 0 0
  end.
Lemma sample_table_repr : ht_repr sample_table {[lit "a" := 1]}.
Proof.
  assert (ht_repr (K:=cstring) (V:=Z) (mk_hashtable 53 (replicate 53 []) 0 35 0) ∅) as Hr
    by (apply (repr_create 32 [] _ []); [vm_compute; reflexivity|lia]).
  destruct (repr_insert _ ∅ (lit "a") 1 [] Hr) as [(h' & o' & E & Hr' & _)|[(? & ? & _ & _ & ?)|[_ [? [?|?]]]]];
    try done.
  unfold sample_table. by rewrite E.
Qed.

Lemma hashtable_iteration_complete_witness :
  ∃ itr, hashtable_iterator sample_table [] = (Some itr, []) ∧
    (∃ es, visit 1 sample_table itr = Ret es ∧ NoDup (e_k <$> es) ∧
       ∀ k v, ({[lit "a" := 1]} : gmap cstring Z) !! k = Some v ↔
         ∃ e, e ∈ es ∧ e_k e = k ∧ e_v e = v) ∧
    (∃ h', drain 1 sample_table itr = Ret h' ∧ ht_wf h' ∧ entries h' = [] ∧
       hashtable_count h' = 0).
Proof.
  rewrite <-(map_size_singleton (M := gmap cstring) (lit "a") 1).
  apply (hashtable_iteration_complete sample_table {[lit "a" := 1]} sample_table_repr).
  by vm_compute.
Defined.

(** ** Searching with the iterator *)
Section iterator_search.
Context {K V : Type} `{HashFns K}.
Implicit Types h : hashtable K V.
(** The positions found, in terms of the chain that [hashtable_remove] leaves. *)
Lemma find_entry_unlink k x (c : list (entry K V)) : ∀ n parent,
  match find_entry k x c n parent with
  | None => unlink k x c = None
  | Some (e, par) => ∃ pre y post, c = pre ++ y :: post ∧ e = (n + length pre)%nat ∧
      par = (match pre with [] => parent | _ => Some (e - 1)%nat end) ∧
      unlink k x c = Some (e_v y, pre ++ post)
  end.
Proof.
  induction c as [|y c IH]; intros n parent; cbn [find_entry unlink]; [done|]. destruct (matches k x y).
  - exists [], y, c. split_and!; [done|simpl; lia|done|done].
  - specialize (IH (S n) (Some n)). destruct (find_entry k x c (S n) (Some n)) as [[e par]|]; [|by rewrite IH].
    destruct IH as (pre & z & post & -> & -> & -> & ->). exists (y :: pre), z, post. cbn [length app].
    split_and!; [done|lia| |done]. destruct pre as [|w pre]; cbn [length]; f_equal; lia.
Qed.

(** Looking up a key with [hashtable_iterator_search] and removing what it finds with
    [hashtable_iterator_remove] is [hashtable_remove]: the same entry is found, its value
    is the one the iterator shows, and the table is the same afterwards; a key that is not
    there leaves the iterator alone. *)
Theorem iterator_search_removes h itr k rc itr' :
  hashtable_iterator_search h itr k = Ret (rc, itr') →
  (rc = 0 ∧ itr' = itr ∧ hashtable_remove h k = Ret (None, h)) ∨
  (rc = -1 ∧ ∃ v r itr'' h', hashtable_iterator_value h itr' = Ret v ∧
     hashtable_iterator_remove h itr' = Ret (r, itr'', h') ∧ hashtable_remove h k = Ret (Some v, h')).
Proof.
  unfold hashtable_iterator_search, hashtable_remove, hashtable_iterator_value, entry_at, hashtable_iterator_remove.
  set (i := indexFor (tablelength h) (hash k)). destruct (chain_at h i) as [c| | |] eqn:Hc; try done. cbn [mbind outcome_bind].
  pose proof (find_entry_unlink k (hash k) c 0 None) as Hf.
  destruct (find_entry k (hash k) c 0 None) as [[e par]|]; intros [= <- <-]; [right|left; by rewrite Hf].
  destruct Hf as (pre & y & post & -> & He & Hp & ->). split; [done|]. cbn [it_e it_index it_parent]. rewrite Hc.
  cbn [mbind outcome_bind]. simpl in He. subst e. rewrite list_lookup_middle by done.
  assert (match par with None => [] | Some p => take (S p) (pre ++ y :: post) end = pre) as ->.
  { subst par. destruct pre as [|w pre]; [done|]. replace (S (length (w :: pre) - 1)) with (length (w :: pre)) by (simpl; lia).
    apply take_app_length. }
  assert (drop (S (length pre)) (pre ++ y :: post) = post) as ->.
  { change (y :: post) with ([y] ++ post). rewrite app_assoc. apply drop_app_length'. rewrite length_app. simpl. lia. }
  exists (e_v y). set (h' := set_count _ _). destruct ((pre ++ y :: post) !! S (length pre)).
  - do 3 eexists. by split_and!.
  - destruct (advance_chain h' _) as [r itr'']. do 3 eexists. by split_and!.
Qed.
End iterator_search.

