(* ===== verification/Path.v ===== *)
(** * Paths: validity, chroot, create modes, host lists

    The path functions of src/zookeeper.c: [isValidPath] with a specification by
    path components, [prepend_string] and [sub_string] (the chroot), the create
    modes and [count_hosts]. *)

From S2P Require Import Prelude.
Local Open Scope Z_scope.

(** ** Create modes *)
Abbreviation ZOO_PERSISTENT := 0.
Abbreviation ZOO_EPHEMERAL := 1.
Abbreviation ZOO_PERSISTENT_SEQUENTIAL := 2.
Abbreviation ZOO_EPHEMERAL_SEQUENTIAL := 3.
Abbreviation ZOO_CONTAINER := 4.
Abbreviation ZOO_PERSISTENT_WITH_TTL := 5.
Abbreviation ZOO_PERSISTENT_SEQUENTIAL_WITH_TTL := 6.

Definition ZOOKEEPER_IS_SEQUENCE (mode : Z) : bool :=
  (mode =? ZOO_PERSISTENT_SEQUENTIAL) || (mode =? ZOO_EPHEMERAL_SEQUENTIAL) ||
  (mode =? ZOO_PERSISTENT_SEQUENTIAL_WITH_TTL).
Definition ZOOKEEPER_IS_TTL (mode : Z) : bool :=
  (mode =? ZOO_PERSISTENT_WITH_TTL) || (mode =? ZOO_PERSISTENT_SEQUENTIAL_WITH_TTL).

Abbreviation ZOO_CREATE_CONTAINER_OP := 19.
Abbreviation ZOO_CREATE_TTL_OP := 21.

Definition get_create_op_type (mode default_op : Z) : Z :=
  if mode =? ZOO_CONTAINER then ZOO_CREATE_CONTAINER_OP
  else if ZOOKEEPER_IS_TTL mode then ZOO_CREATE_TTL_OP
  else default_op.

(** ** [isValidPath] *)
Abbreviation slash := Byte.x2f.
Abbreviation dot := Byte.x2e.
Definition isc (a b : byte) : bool := bool_decide (a = b).

(** [path[i]], the terminator included. *)
Definition char_at (path : cstring) (i : nat) : byte := default Byte.x00 (path !! i).

(** [c > 0x00 && c < 0x1f]: the same for signed and unsigned [char]. *)
Definition control (c : byte) : bool :=
  (0 <? byte.unsigned c) && (byte.unsigned c <? 31).

(** The loop of [isValidPath] from index [i] on, with [n] iterations to go. *)
Fixpoint valid_loop (path : cstring) (seq : bool) (n i : nat) (lastc : byte) : bool :=
  match n with
  | O => true
  | S n =>
      let len := length path in
      let c := char_at path i in
      if isc c Byte.x00 then false
      else if isc c slash && isc lastc slash then false
      else if isc c dot && isc lastc dot then
        if isc (char_at path (i - 2)) slash &&
           (((i + 1 =? len)%nat && negb seq) || isc (char_at path (i + 1)) slash)
        then false else valid_loop path seq n (S i) c
      else if isc c dot then
        if isc (char_at path (i - 1)) slash &&
           (((i + 1 =? len)%nat && negb seq) || isc (char_at path (i + 1)) slash)
        then false else valid_loop path seq n (S i) c
      else if control c then false
      else valid_loop path seq n (S i) c
  end.

Definition isValidPath (path : option cstring) (mode : Z) : bool :=
  match path with
  | None => false
  | Some path =>
      let len := length path in
      if (len =? 0)%nat then false
      else if negb (isc (char_at path 0) slash) then false
      else if (len =? 1)%nat then true
      else if isc (char_at path (len - 1)) slash && negb (ZOOKEEPER_IS_SEQUENCE mode) then false
      else valid_loop path (ZOOKEEPER_IS_SEQUENCE mode) (len - 1) 1 slash
  end.

(** ** The chroot *)

(** [strdup]: NULL when the allocation fails. *)
Definition strdup (s : cstring) (o : allocs) : option cstring * allocs :=
  let '(ok, o) := alloc o in (if ok : bool then Some s else None, o).

(** [prepend_string] for a handle with this [chroot] ([None] also for a NULL
    handle).  The result of [malloc] is not checked before [strcpy]. *)
Definition prepend_string (chroot : option cstring) (client_path : option cstring)
    (o : allocs) : outcome (option cstring * allocs) :=
  match chroot with
  | None => Ret (client_path, o)
  | Some chroot =>
      match client_path with
      | None => UB
      | Some p =>
          if (length p =? 1)%nat then Ret (strdup chroot o)
          else let '(ok, o) := alloc o in
               if ok : bool then Ret (Some (chroot ++ p), o) else UB
      end
  end.

(** [strncmp(a, b, strlen(b)) == 0]. *)
Fixpoint starts_with (a b : cstring) {struct b} : bool :=
  match b, a with
  | [], _ => true
  | y :: b, x :: a => isc x y && starts_with a b
  | _ :: _, [] => false
  end.

Definition sub_string (chroot : option cstring) (server_path : cstring) (o : allocs)
    : option cstring * allocs :=
  match chroot with
  | None => (Some server_path, o)
  | Some chroot =>
      if negb (starts_with server_path chroot) then (Some server_path, o)
      else if (length server_path =? length chroot)%nat then strdup (lit "/") o
      else strdup (drop (length chroot) server_path) o
  end.

(** ** Host lists *)

(** The loop over [strchr(loc, ',')]: [None] when there is no comma left. *)
Fixpoint strchr (s : cstring) (c : byte) : option cstring :=
  match s with
  | [] => None
  | x :: s' => if isc x c then Some s else strchr s' c
  end.
Fixpoint count_commas (fuel : nat) (loc : cstring) (count : Z) : outcome Z :=
  match strchr loc Byte.x2c with
  | None => Ret count
  | Some loc =>
      match fuel with
      | O => Loop
      | S fuel => count_commas fuel (drop 1 loc) (uint32 (count + 1))
      end
  end.
Definition count_hosts (hosts : option cstring) : outcome Z :=
  match hosts with
  | None => Ret 0
  | Some hosts =>
      if (length hosts =? 0)%nat then Ret 0
      else count ← count_commas (length hosts) hosts 0; Ret (int32 (count + 1))
  end.

(** ** Path components *)

(** The components of [cur ++ rest], where [cur] has no slash. *)
Fixpoint split_path (cur rest : cstring) : list cstring :=
  match rest with
  | [] => [cur]
  | c :: rest => if isc c slash then cur :: split_path [] rest
                 else split_path (cur ++ [c]) rest
  end.

Definition printable (s : cstring) : bool :=
  forallb (λ c, negb (isc c Byte.x00) && negb (control c)) s.

(** A component that names a node. *)
Definition node_name (s : cstring) : bool :=
  printable s && negb (bool_decide (s = [])) &&
  negb (bool_decide (s = [dot])) && negb (bool_decide (s = [dot; dot])).

(** For a sequential node the server appends a number to the last component, so
    that one may be empty, [.] or [..]. *)
Fixpoint names_ok (seq : bool) (cs : list cstring) : bool :=
  match cs with
  | [] => true
  | [c] => if seq then printable c else node_name c
  | c :: cs => node_name c && names_ok seq cs
  end.

(** What a path should be: the root, or a slash and valid components. *)
Definition valid_path_spec (path : cstring) (seq : bool) : bool :=
  match path with
  | [] => false
  | [c] => isc c slash
  | c :: rest => isc c slash && names_ok seq (split_path [] rest)
  end.
