(* ===== verification/PathFacts.v ===== *)
(** * Facts about paths

    [isValidPath] accepts exactly the paths whose components are valid node names;
    stripping the chroot undoes prepending it; [count_hosts] counts commas. *)

From S2P Require Import Prelude Path.
Local Open Scope Z_scope.

Lemma isc_true a b : isc a b = true ↔ a = b.
Proof. apply bool_decide_eq_true. Qed.
Lemma isc_false a b : isc a b = false ↔ a ≠ b.
Proof. apply bool_decide_eq_false. Qed.
Lemma isc_refl a : isc a a = true.
Proof. by apply isc_true. Qed.

(** ** [isValidPath] as a scan of the rest of the path *)

(** The loop in terms of the two characters before and those to come. *)
Fixpoint scan (seq : bool) (p2 p1 : byte) (rest : cstring) : bool :=
  match rest with
  | [] => true
  | c :: rest =>
      let ends := match rest with [] => negb seq | d :: _ => isc d slash end in
      if isc c Byte.x00 then false
      else if isc c slash && isc p1 slash then false
      else if isc c dot && isc p1 dot then
        if isc p2 slash && ends then false else scan seq p1 c rest
      else if isc c dot then
        if isc p1 slash && ends then false else scan seq p1 c rest
      else if control c then false
      else scan seq p1 c rest
  end.

Lemma ends_spec path seq i c rest :
  drop i path = c :: rest →
  ((i + 1 =? length path)%nat && negb seq) || isc (char_at path (i + 1)) slash =
  match rest with [] => negb seq | d :: _ => isc d slash end.
Proof.
  intros Hd. assert (length path = i + S (length rest))%nat as Hl.
  { apply (f_equal length) in Hd. rewrite length_drop in Hd. simpl in Hd. lia. }
  assert (path !! (i + 1)%nat = rest !! 0%nat) as Hn.
  { rewrite <-(lookup_drop path i 1), Hd. done. }
  unfold char_at. rewrite Hn. destruct rest as [|d rest]; simpl in *.
  - rewrite (proj2 (Nat.eqb_eq _ _)) by lia. simpl. by rewrite orb_false_r.
  - by rewrite (proj2 (Nat.eqb_neq _ _)) by lia.
Qed.

Lemma valid_loop_scan path seq rest i :
  drop i path = rest → (1 ≤ i)%nat →
  valid_loop path seq (length rest) i (char_at path (i - 1)) =
  scan seq (char_at path (i - 2)) (char_at path (i - 1)) rest.
Proof.
  revert i. induction rest as [|c rest IH]; intros i Hd Hi; [done|].
  assert (char_at path i = c) as Hc.
  { unfold char_at. rewrite <-(Nat.add_0_r i), <-lookup_drop, Hd. done. }
  assert (drop (S i) path = rest) as Hd' by (by rewrite <-Nat.add_1_r, <-drop_drop, Hd).
  specialize (IH (S i) Hd' ltac:(lia)).
  replace (S i - 1)%nat with i in IH by lia.
  replace (S i - 2)%nat with (i - 1)%nat in IH by lia. rewrite Hc in IH.
  cbn [length valid_loop scan]. rewrite Hc, (ends_spec path seq i c rest Hd), IH.
  done.
Qed.

(** ** The scan accepts exactly valid components *)

(** [cur] is the part of the component read so far, before the characters [p2], [p1]. *)
Definition linked (cur : cstring) (p2 p1 : byte) : Prop :=
  (cur = [] ∧ p1 = slash) ∨
  (cur = [p1] ∧ p1 ≠ slash ∧ p2 = slash) ∨
  (∃ cur', cur = cur' ++ [p2; p1] ∧ p1 ≠ slash ∧ p2 ≠ slash).

(** What the look-ahead has established about [cur] and the rest. *)
Definition goes_on (seq : bool) (rest : cstring) : Prop :=
  match rest with [] => seq = true | d :: _ => d ≠ slash end.
Definition ahead_ok (seq : bool) (cur rest : cstring) : Prop :=
  cur = [dot] ∨ cur = [dot; dot] → goes_on seq rest.

Global Instance goes_on_dec seq rest : Decision (goes_on seq rest).
Proof. unfold goes_on. destruct rest; apply _. Defined.
Global Instance ahead_ok_dec seq cur rest : Decision (ahead_ok seq cur rest).
Proof. unfold ahead_ok. apply _. Defined.

Definition last_char (s : cstring) : byte := default slash (last s).

Lemma linked_snoc cur p2 p1 c :
  linked cur p2 p1 → c ≠ slash → linked (cur ++ [c]) p1 c.
Proof.
  intros [[-> ->]|[(-> & ? & ->)|(cur' & -> & ? & ?)]] Hc; [right; left; done|right; right..].
  - by exists [].
  - exists (cur' ++ [p2]). by rewrite <-!app_assoc.
Qed.

Lemma split_path_cons cur rest : ∃ c cs, split_path cur rest = c :: cs.
Proof.
  revert cur. induction rest as [|c rest IH]; intros cur; simpl; [eauto|].
  destruct (isc c slash); eauto.
Qed.

Lemma names_ok_cons seq c cur rest :
  names_ok seq (c :: split_path cur rest) = node_name c && names_ok seq (split_path cur rest).
Proof. by destruct (split_path_cons cur rest) as (d & cs & ->). Qed.

Lemma printable_app a b : printable (a ++ b) = printable a && printable b.
Proof. apply forallb_app. Qed.

Lemma names_ok_unprintable seq cur rest :
  printable cur = false → names_ok seq (split_path cur rest) = false.
Proof.
  revert cur. induction rest as [|c rest IH]; intros cur Hp; simpl.
  - unfold node_name. rewrite Hp. by destruct seq.
  - destruct (isc c slash); [|apply IH; by rewrite printable_app, Hp].
    rewrite names_ok_cons. unfold node_name. by rewrite Hp.
Qed.

Lemma names_ok_dots seq cur rest :
  ¬ ahead_ok seq cur rest → names_ok seq (split_path cur rest) = false.
Proof.
  unfold ahead_ok, goes_on. intros Hn.
  assert (cur = [dot] ∨ cur = [dot; dot]) as Hcur.
  { destruct (decide (cur = [dot])); [by left|].
    destruct (decide (cur = [dot; dot])); [by right|]. tauto. }
  assert (node_name cur = false) as Hname by (by destruct Hcur as [-> | ->]).
  destruct rest as [|d rest]; simpl.
  - destruct seq; [tauto|done].
  - destruct (isc d slash) eqn:E; [by rewrite names_ok_cons, Hname|].
    apply isc_false in E. tauto.
Qed.

Lemma linked_name seq cur p2 p1 rest :
  linked cur p2 p1 → printable cur = true → ahead_ok seq cur rest → cur ≠ [] →
  (rest = [] → seq = false) → (∀ d r, rest = d :: r → d = slash) → node_name cur = true.
Proof.
  intros Hl Hp Ha Hne Hs Hr. unfold node_name, ahead_ok, goes_on in *. rewrite Hp.
  assert (cur ≠ [dot] ∧ cur ≠ [dot; dot]) as [Hd Hdd].
  { destruct rest as [|d rest]; [rewrite Hs in Ha by done|rewrite (Hr d rest) in Ha by done];
      split; intros ->; naive_solver. }
  by rewrite !bool_decide_eq_false_2.
Qed.

Lemma last_char_app_cons (a : cstring) c b : last_char (a ++ c :: b) = default c (last b).
Proof. unfold last_char. rewrite last_app, last_cons. by destruct (last b). Qed.

(** The conditions of the loop on a dot are those of [ahead_ok]. *)
Lemma scan_dot seq cur p2 p1 rest :
  linked cur p2 p1 →
  let ends := match rest with [] => negb seq | d :: _ => isc d slash end in
  (if isc p1 dot then isc p2 slash && ends else isc p1 slash && ends) =
  negb (bool_decide (ahead_ok seq (cur ++ [dot]) rest)).
Proof.
  intros Hl ends. unfold ahead_ok.
  assert (ends = negb (bool_decide (goes_on seq rest))) as He.
  { unfold ends. destruct rest as [|d r]; simpl; [by destruct seq|].
    unfold isc. by do 2 case_bool_decide. }
  destruct Hl as [[-> ->]|[(-> & Hp1 & ->)|(cur' & -> & Hp1 & Hp2)]].
  - change (isc slash dot) with false. rewrite isc_refl, He. cbn [andb app].
    f_equal. apply bool_decide_ext. naive_solver.
  - rewrite isc_refl, (proj2 (isc_false p1 slash)) by done. cbn [andb app].
    destruct (isc p1 dot) eqn:E1.
    + apply isc_true in E1 as ->. rewrite He. f_equal. apply bool_decide_ext. naive_solver.
    + apply isc_false in E1. by rewrite bool_decide_eq_true_2 by (intros [|]; simplify_eq).
  - rewrite !(proj2 (isc_false _ slash)) by done. cbn [andb].
    rewrite bool_decide_eq_true_2; [by destruct (isc p1 dot)|].
    rewrite <-app_assoc. intros [Heq|Heq]; apply (f_equal length) in Heq;
      rewrite length_app in Heq; simpl in Heq; lia.
Qed.

Lemma printable_one c : printable [c] = negb (isc c Byte.x00) && negb (control c).
Proof. unfold printable. simpl. by rewrite andb_true_r. Qed.

Lemma scan_spec seq rest cur p2 p1 :
  linked cur p2 p1 → printable cur = true → ahead_ok seq cur rest →
  scan seq p2 p1 rest && (seq || negb (isc (last_char (cur ++ rest)) slash)) =
  names_ok seq (split_path cur rest).
Proof.
  revert cur p2 p1. induction rest as [|c rest IH]; intros cur p2 p1 Hl Hp Ha.
  - rewrite app_nil_r. cbn [scan split_path names_ok andb]. destruct seq; [done|].
    destruct (decide (cur = [])) as [->|Hne]; [done|].
    rewrite (linked_name false cur p2 p1 []) by done. cbn [orb].
    destruct Hl as [[? _]|[(-> & Hp1 & _)|(cur' & -> & Hp1 & _)]]; [done|..];
      unfold last_char; rewrite ?last_app; simpl; by rewrite (proj2 (isc_false _ _)).
  - cbn [scan split_path]. destruct (isc c slash) eqn:Ec.
    + apply isc_true in Ec as ->. rewrite names_ok_cons.
      change (isc slash Byte.x00) with false. change (isc slash dot) with false.
      change (control slash) with false. cbn [andb].
      rewrite last_char_app_cons. fold (last_char rest).
      specialize (IH [] p1 slash). rewrite app_nil_l in IH.
      destruct (decide (cur = [])) as [->|Hne].
      { destruct Hl as [[_ ->]|[(? & _)|(cur' & Hnil & _)]]; [done|done|].
        by destruct cur'. }
      rewrite (linked_name seq cur p2 p1 (slash :: rest)) by (done || naive_solver).
      assert (isc p1 slash = false) as ->.
      { apply isc_false. destruct Hl as [[? _]|[(_ & ? & _)|(? & _ & ? & _)]]; done. }
      apply IH; [by left|done|]. intros [?|?]; done.
    + apply isc_false in Ec. specialize (IH (cur ++ [c]) p1 c (linked_snoc _ _ _ _ Hl Ec)).
      rewrite printable_app, Hp, printable_one in IH.
      rewrite <-app_assoc in IH. cbn [app] in IH. cbn [andb].
      destruct (isc c Byte.x00) eqn:E0.
      { rewrite names_ok_unprintable; [done|]. by rewrite printable_app, printable_one, E0, andb_false_r. }
      destruct (isc c dot) eqn:Ed; cbn [andb].
      * apply isc_true in Ed as ->.
        pose proof (scan_dot seq cur p2 p1 rest Hl) as Hdot. cbv zeta in Hdot.
        set (ends := match rest with [] => _ | _ => _ end) in *.
        case_bool_decide as Hok; cbn [negb] in Hdot.
        -- rewrite <-IH by done. by destruct (isc p1 dot); rewrite Hdot.
        -- rewrite names_ok_dots by done. by destruct (isc p1 dot); rewrite Hdot.
      * destruct (control c) eqn:Ectl.
        { rewrite names_ok_unprintable; [done|].
          by rewrite printable_app, printable_one, Ectl, !andb_false_r. }
        apply IH; [done|]. apply isc_false in Ed. intros [Heq|Heq];
          [apply (f_equal last) in Heq|apply (f_equal last) in Heq];
          rewrite last_snoc in Heq; simplify_eq/=.
Qed.

Lemma isValidPath_scan path mode :
  isValidPath (Some path) mode = valid_path_spec path (ZOOKEEPER_IS_SEQUENCE mode).
Proof.
  unfold isValidPath, valid_path_spec. set (seq := ZOOKEEPER_IS_SEQUENCE mode).
  destruct path as [|c [|d rest]]; [done| |].
  - cbn. by destruct (isc c slash).
  - cbn [length Nat.eqb]. change (char_at (c :: d :: rest) 0) with c.
    destruct (isc c slash) eqn:Ec; cbn [negb andb]; [|done]. apply isc_true in Ec as ->.
    set (r := d :: rest).
    assert (char_at (slash :: r) (S (S (length rest)) - 1) = last_char ([] ++ r)) as ->.
    { unfold char_at, last_char. cbn [app]. rewrite last_lookup.
      replace (S (S (length rest)) - 1)%nat with (S (length rest)) by lia.
      destruct (lookup_lt_is_Some_2 r (length rest)) as [x Hx]; [simpl; lia|].
      rewrite lookup_cons_ne_0 by done. cbn [Nat.pred].
      change (pred (length r)) with (length rest). by rewrite Hx. }
    rewrite <-(scan_spec seq r [] slash slash); [|by left|done|by intros [?|?]].
    pose proof (valid_loop_scan (slash :: r) seq r 1 eq_refl ltac:(lia)) as Hv.
    change (char_at (slash :: r) (1 - 1)) with slash in Hv.
    change (char_at (slash :: r) (1 - 2)) with slash in Hv.
    replace (S (S (length rest)) - 1)%nat with (length r) by (simpl; lia). rewrite Hv.
    destruct (isc _ slash), seq, (scan _ _ _ _); done.
Qed.

(** ** Components of a concatenation *)
Lemma split_path_app cur a b :
  split_path cur (a ++ slash :: b) = split_path cur a ++ split_path [] b.
Proof.
  revert cur. induction a as [|c a IH]; intros cur; simpl.
  - done.
  - destruct (isc c slash); simpl; by rewrite IH.
Qed.

Lemma names_ok_app seq a b :
  b ≠ [] → names_ok seq (a ++ b) = forallb node_name a && names_ok seq b.
Proof.
  intros Hb. induction a as [|c a IH]; [done|]. cbn [app forallb].
  rewrite <-andb_assoc, <-IH. by destruct a, b.
Qed.

Lemma names_ok_false cs : names_ok false cs = forallb node_name cs.
Proof.
  induction cs as [|c [|d cs] IH]; [done|simpl; by rewrite andb_true_r|].
  cbn [names_ok forallb]. f_equal. apply IH.
Qed.

(** The rules of a sequential node are weaker. *)
Lemma names_ok_seq seq cs : names_ok false cs = true → names_ok seq cs = true.
Proof.
  destruct seq; [|done]. induction cs as [|c [|d cs] IH]; [done| |].
  - cbn [names_ok]. unfold node_name. rewrite !andb_true_iff. tauto.
  - cbn [names_ok] in *. rewrite !andb_true_iff. intros [? ?]. auto.
Qed.

(** ** The chroot *)
Lemma valid_path_slash x p seq : valid_path_spec (x :: p) seq = true → x = slash.
Proof.
  unfold valid_path_spec. destruct p; [|rewrite andb_true_iff; intros [? _]]; by apply isc_true.
Qed.
Lemma starts_with_app a b : starts_with (a ++ b) a = true.
Proof. induction a as [|x a IH]; simpl; [done|]. by rewrite isc_refl, IH. Qed.

(** The number of commas. *)
Lemma count_commas_spec s fuel n :
  (length s ≤ fuel)%nat → 0 ≤ n → n + Z.of_nat (length s) < 2 ^ 32 →
  count_commas fuel s n = Ret (n + Z.of_nat (length (filter (λ c, c = Byte.x2c) s))).
Proof.
  revert fuel n. induction s as [|c s IH]; intros fuel n Hf Hn Hs; simpl in *.
  - destruct fuel; simpl; f_equal; lia.
  - destruct (isc c Byte.x2c) eqn:Ec.
    + destruct fuel as [|fuel]; [lia|]. cbn [count_commas strchr]. rewrite Ec. cbn [drop].
      apply isc_true in Ec as ->. rewrite filter_cons_True by done.
      rewrite (wrap_u_id 32) by (unfold in_u; lia). rewrite IH by lia.
      cbn [length]. f_equal. lia.
    + pose proof Ec as Ec'. apply isc_false in Ec'. rewrite filter_cons_False by done.
      rewrite <-(IH fuel n) by lia. destruct fuel; cbn [count_commas strchr]; by rewrite Ec.
Qed.

(** ** Theorems *)

(** C30.  [isValidPath] accepts exactly the well-formed paths.  For every string and
    create mode the character loop with its look-behind and look-ahead agrees with
    the definition by components: the root, or a leading slash followed by
    slash-separated names, none empty, [.] or [..] and none with a control character
    below 0x1f; in a sequential mode the last name is only checked for control
    characters.  A NULL path is refused. *)
Theorem isValidPath_correct (path : cstring) (mode : Z) :
  isValidPath (Some path) mode = valid_path_spec path (ZOOKEEPER_IS_SEQUENCE mode) ∧
  isValidPath None mode = false.
Proof. split; [apply isValidPath_scan|done]. Qed.

(** Stripping the chroot undoes prepending it. *)
Lemma chroot_inverse (c p : cstring) (mode : Z) :
  isValidPath (Some c) 0 = true → c ≠ lit "/" → isValidPath (Some p) mode = true →
  ∃ sp, prepend_string (Some c) (Some p) [] = Ret (Some sp, []) ∧
    sub_string (Some c) sp [] = (Some p, []).
Proof.
  rewrite !isValidPath_scan. intros Hc Hroot Hp.
  destruct c as [|x c]; [done|]. destruct p as [|y p]; [done|].
  pose proof (valid_path_slash _ _ _ Hc) as ->. pose proof (valid_path_slash _ _ _ Hp) as ->.
  destruct c as [|x c]; [done|]. unfold prepend_string, sub_string.
  destruct p as [|y p].
  - exists (slash :: x :: c). cbn [length Nat.eqb].
    pose proof (starts_with_app (slash :: x :: c) []) as Hs. rewrite app_nil_r in Hs.
    rewrite Hs. cbn [negb]. rewrite Nat.eqb_refl. by split_and!.
  - exists ((slash :: x :: c) ++ slash :: y :: p). split; [done|].
    rewrite starts_with_app, length_app. cbn [negb].
    rewrite (proj2 (Nat.eqb_neq _ _)) by (simpl; lia). by rewrite drop_app_length.
Qed.

(** The components of the server's path are those of the chroot, then the client's. *)
Lemma chroot_valid (c p : cstring) (mode : Z) :
  isValidPath (Some c) 0 = true → c ≠ lit "/" → (2 ≤ length p)%nat →
  isValidPath (Some (c ++ p)) mode = isValidPath (Some p) mode ∨ head p ≠ Some slash.
Proof.
  rewrite !isValidPath_scan. intros Hc Hroot Hl.
  destruct c as [|x [|x' c]]; [done|by pose proof (valid_path_slash _ _ _ Hc) as ->|].
  destruct p as [|y [|y' p]]; simpl in Hl; [lia..|].
  destruct (decide (y = slash)) as [->|Hy]; [left|right; naive_solver].
  pose proof (valid_path_slash _ _ _ Hc) as ->. cbn -[isc names_ok split_path] in Hc |- *.
  rewrite isc_refl in *. cbn [andb] in *.
  change (x' :: c ++ slash :: y' :: p) with ((x' :: c) ++ slash :: (y' :: p)).
  rewrite split_path_app, names_ok_app
    by (by destruct (split_path_cons [] (y' :: p)) as (? & ? & ->)).
  change (ZOOKEEPER_IS_SEQUENCE 0) with false in Hc. rewrite names_ok_false in Hc.
  by rewrite Hc.
Qed.

(** C37.  Prepending the chroot and stripping it again is the identity on valid
    paths, and the path sent to the server is itself valid: for every valid chroot
    other than the root and every valid path of the client. *)
Theorem chroot_roundtrip (c p : cstring) (mode : Z) :
  isValidPath (Some c) 0 = true → c ≠ lit "/" → isValidPath (Some p) mode = true →
  ∃ sp, prepend_string (Some c) (Some p) [] = Ret (Some sp, []) ∧
    sub_string (Some c) sp [] = (Some p, []) ∧
    isValidPath (Some sp) mode = true.
Proof.
  intros Hc Hroot Hp. destruct (chroot_inverse c p mode Hc Hroot Hp) as (sp & E1 & E2).
  exists sp. split_and!; [done..|]. unfold prepend_string in E1.
  destruct (Nat.eqb_spec (length p) 1) as [Hl|Hl].
  - injection E1 as <-. rewrite isValidPath_scan in *.
    destruct c as [|x [|y c]]; [done..|]. cbn -[isc names_ok split_path] in Hc |- *.
    apply andb_true_iff in Hc as [-> Hn]. cbn [andb].
    by apply names_ok_seq.
  - injection E1 as <-. rewrite isValidPath_scan in Hp.
    destruct p as [|y [|y' p]]; [done..|].
    destruct (chroot_valid c (y :: y' :: p) mode Hc Hroot) as [->|Hh]; [simpl; lia| |].
    + by rewrite isValidPath_scan.
    + pose proof (valid_path_slash _ _ _ Hp) as ->. done.
Qed.

Lemma chroot_roundtrip_witness :
  ∃ sp, prepend_string (Some (lit "/app/one")) (Some (lit "/locks/a")) []
      = Ret (Some sp, []) ∧
    sub_string (Some (lit "/app/one")) sp [] = (Some (lit "/locks/a"), []) ∧
    isValidPath (Some sp) 0 = true.
Proof. apply (chroot_roundtrip (lit "/app/one") (lit "/locks/a") 0); by vm_compute. Defined.

(** [count_hosts] returns one more than the number of commas of a non-empty
    connection string (shorter than 2^31 bytes), and 0 for an empty or NULL one; its
    loop terminates. *)
Theorem count_hosts_correct (hosts : cstring) :
  Z.of_nat (length hosts) < INT_MAX →
  count_hosts (Some hosts) =
    Ret (if decide (hosts = []) then 0
         else 1 + Z.of_nat (length (filter (λ c, c = Byte.x2c) hosts))) ∧
  count_hosts None = Ret 0.
Proof.
  intros Hl. split; [|done]. unfold count_hosts. case_decide as Hh; [by subst|].
  rewrite (proj2 (Nat.eqb_neq _ _)) by (by destruct hosts).
  rewrite count_commas_spec by lia. run. f_equal.
  pose proof (length_filter (λ c, c = Byte.x2c) hosts).
  rewrite wrap_s_id; [lia..|]. unfold in_s. lia.
Qed.

Lemma count_hosts_correct_witness :
  count_hosts (Some (lit "a:1,b:2,c:3")) = Ret 3 ∧ count_hosts None = Ret 0.
Proof. apply (count_hosts_correct (lit "a:1,b:2,c:3")). by vm_compute. Defined.
