(* ===== verification/Watchers.v ===== *)
(** * zk_hashtable.c: registered watchers

    The three watcher tables of a handle, from registration to delivery.  A watcher
    function and its context are pointers, compared by identity: integers, 0 being
    NULL.  A [watcher_object_list] is the list of its objects, head first; a list
    stored in a table is changed in place through [assign_found].  Allocations that
    the code asserts or leaves unchecked lead to [Abort] or [UB]. *)

From S2P Require Import Prelude Hashtable Path.
Local Open Scope Z_scope.

Abbreviation CREATED_EVENT_DEF := 1.
Abbreviation DELETED_EVENT_DEF := 2.
Abbreviation CHANGED_EVENT_DEF := 3.
Abbreviation CHILD_EVENT_DEF := 4.
Abbreviation ZOO_SESSION_EVENT := (-1).
Abbreviation ZOK := 0.
Abbreviation ZNONODE := (-101).

(** [ZooWatcherType] is an [int] at the interface. *)
Abbreviation ZWATCHTYPE_CHILD := 1.
Abbreviation ZWATCHTYPE_DATA := 2.
Abbreviation ZWATCHTYPE_ANY := 3.

Record watcher_object := mk_wo { wo_watcher : Z; wo_context : Z }.
Global Instance watcher_object_eq_dec : EqDecision watcher_object.
Proof. solve_decision. Defined.

Abbreviation watcher_list := (list watcher_object).
Abbreviation zk_hashtable := (hashtable cstring watcher_list).

(** The watchers of a [zhandle_t]: its tables and its default watcher. *)
Record watches := mk_watches {
  active_node_watchers : zk_hashtable;
  active_exist_watchers : zk_hashtable;
  active_child_watchers : zk_hashtable;
  zh_watcher : Z;
  zh_context : Z;
}.
Definition set_node (h : zk_hashtable) (w : watches) : watches :=
  mk_watches h (active_exist_watchers w) (active_child_watchers w) (zh_watcher w) (zh_context w).
Definition set_exist (h : zk_hashtable) (w : watches) : watches :=
  mk_watches (active_node_watchers w) h (active_child_watchers w) (zh_watcher w) (zh_context w).
Definition set_child (h : zk_hashtable) (w : watches) : watches :=
  mk_watches (active_node_watchers w) (active_exist_watchers w) h (zh_watcher w) (zh_context w).

(** [result_checker_fn]: the three functions a registration can carry. *)
Inductive result_checker :=
  | exists_result_checker | data_result_checker | child_result_checker.
Inductive which_table := NodeTable | ExistTable | ChildTable.

(** The table a checker answers for a result code, or NULL. *)
Definition run_checker (c : result_checker) (rc : Z) : option which_table :=
  match c with
  | exists_result_checker =>
      if rc =? ZOK then Some NodeTable else if rc =? ZNONODE then Some ExistTable else None
  | data_result_checker => if rc =? ZOK then Some NodeTable else None
  | child_result_checker => if rc =? ZOK then Some ChildTable else None
  end.

Record watcher_registration := mk_reg {
  reg_watcher : Z; reg_context : Z; reg_checker : result_checker; reg_path : cstring;
}.
Record watcher_deregistration := mk_dereg {
  dereg_watcher : Z; dereg_context : Z; dereg_type : Z; dereg_path : cstring;
}.

Definition get_table (t : which_table) (w : watches) : zk_hashtable :=
  match t with
  | NodeTable => active_node_watchers w
  | ExistTable => active_exist_watchers w
  | ChildTable => active_child_watchers w
  end.
Definition put_table (t : which_table) (h : zk_hashtable) (w : watches) : watches :=
  match t with
  | NodeTable => set_node h w
  | ExistTable => set_exist h w
  | ChildTable => set_child h w
  end.

(** [assert(p)] on the result of an allocation. *)
Definition assert_alloc (o : allocs) : outcome allocs :=
  let '(ok, o) := alloc o in if ok : bool then Ret o else Abort.

Definition clone_watcher_object (wo : watcher_object) (o : allocs)
    : outcome (watcher_object * allocs) :=
  o ← assert_alloc o; Ret (mk_wo (wo_watcher wo) (wo_context wo), o).
Definition create_watcher_object (watcher ctx : Z) (o : allocs)
    : outcome (watcher_object * allocs) :=
  o ← assert_alloc o; Ret (mk_wo watcher ctx, o).
Definition create_watcher_object_list (head : watcher_list) (o : allocs)
    : outcome (watcher_list * allocs) :=
  o ← assert_alloc o; Ret (head, o).

(** The walk [while (wobj != 0)]: is there an object with this function and context? *)
Fixpoint search_watcher (wl : watcher_list) (wo : watcher_object) : bool :=
  match wl with
  | [] => false
  | wobj :: wl =>
      if (wo_watcher wobj =? wo_watcher wo) && (wo_context wobj =? wo_context wo)
      then true else search_watcher wl wo
  end.

Definition add_to_list (wl : watcher_list) (wo : watcher_object) (clone : bool) (o : allocs)
    : outcome (Z * watcher_list * allocs) :=
  if negb (search_watcher wl wo) then
    '(cloned, o) ← (if clone then clone_watcher_object wo o else Ret (wo, o));
    Ret (1, cloned :: wl, o)
  else Ret (0, wl, o).

Fixpoint copy_watchers (from to : watcher_list) (clone : bool) (o : allocs)
    : outcome (watcher_list * allocs) :=
  match from with
  | [] => Ret (to, o)
  | wo :: from =>
      '(_, to, o) ← add_to_list to wo clone o;
      copy_watchers from to clone o
  end.

(** The first match behind the head is unlinked. *)
Fixpoint unlink_next (wl : watcher_list) (watcher ctx : Z) : watcher_list :=
  match wl with
  | [] => []
  | e :: rest =>
      match rest with
      | [] => [e]
      | n :: rest' =>
          if (wo_watcher n =? watcher) && (wo_context n =? ctx) then e :: rest'
          else e :: unlink_next rest watcher ctx
      end
  end.
Definition removeWatcherFromList (wl : watcher_list) (watcher ctx : Z) : watcher_list :=
  match unlink_next wl watcher ctx with
  | [] => []
  | h :: rest =>
      if (wo_watcher h =? watcher) && (wo_context h =? ctx) then rest else h :: rest
  end.

Section tables.
Context `{Host}.

(** [while ((c = *cstr++)) hash = ((hash << 5) + hash) + c]. *)
Definition string_hash_djb2 (str : cstring) : Z :=
  foldl (λ hash b, uint32 (uint32 (uint32 (Z.shiftl hash 5) + hash) + char_val b)) 5381 str.
(** [strcmp(key1, key2) == 0]. *)
Definition string_equal (key1 key2 : cstring) : bool := bool_decide (key1 = key2).

Global Instance string_fns : HashFns cstring :=
  {| hashfn := string_hash_djb2; eqfn := string_equal |}.

Definition create_zk_hashtable (o : allocs) : outcome (option zk_hashtable * allocs) :=
  o ← assert_alloc o; Ret (create_hashtable 32 o).

(** The loop of [do_clean_hashtable]: every list is destroyed with its entry. *)
Fixpoint clean_loop (fuel : nat) (ht : zk_hashtable) (it : hashtable_itr)
    : outcome zk_hashtable :=
  match fuel with
  | O => Loop
  | S fuel =>
      _ ← hashtable_iterator_value ht it;
      '(hasMore, it, ht) ← hashtable_iterator_remove ht it;
      if hasMore =? 0 then Ret ht else clean_loop fuel ht it
  end.
Definition do_clean_hashtable (ht : zk_hashtable) (o : allocs)
    : outcome (zk_hashtable * allocs) :=
  if hashtable_count ht =? 0 then Ret (ht, o) else
  match hashtable_iterator ht o with
  | (None, _) => UB
  | (Some it, o) =>
      ht ← clean_loop (Z.to_nat (hashtable_count ht)) ht it; Ret (ht, o)
  end.

Definition do_insert_watcher_object (ht : zk_hashtable) (path : cstring)
    (wo : watcher_object) (o : allocs) : outcome (Z * zk_hashtable * allocs) :=
  wl ← hashtable_search ht path;
  match wl with
  | None =>
      let '(key, o) := strdup path o in
      '(wl, o) ← create_watcher_object_list [wo] o;
      match key with
      | None => UB
      | Some key =>
          '(res, ht, o) ← hashtable_insert ht key wl o;
          if res =? 0 then Abort else Ret (1, ht, o)
      end
  | Some wl =>
      '(res, wl, o) ← add_to_list wl wo false o;
      Ret (res, assign_found ht path wl, o)
  end.
Definition insert_watcher_object := do_insert_watcher_object.

(** [collect_keys]: the copies of the keys; [None] where [strdup] failed. *)
Fixpoint keys_loop (n : nat) (ht : zk_hashtable) (it : hashtable_itr) (o : allocs)
    : outcome (list (option cstring) * allocs) :=
  match n with
  | O => Ret ([], o)
  | S n =>
      k ← hashtable_iterator_key ht it;
      let '(k, o) := strdup k o in
      '(_, it) ← hashtable_iterator_advance ht it;
      '(ks, o) ← keys_loop n ht it o;
      Ret (k :: ks, o)
  end.
Definition collect_keys (ht : zk_hashtable) (o : allocs)
    : outcome (Z * list (option cstring) * allocs) :=
  let count := int32 (hashtable_count ht) in
  let '(ok, o) := alloc o in
  let '(it, o) := hashtable_iterator ht o in
  if count <=? 0 then Ret (count, [], o) else
  match it with
  | None => UB
  | Some it =>
      if negb ok then UB else
      '(ks, o) ← keys_loop (Z.to_nat count) ht it o; Ret (count, ks, o)
  end.

Fixpoint copy_table_loop (fuel : nat) (from : zk_hashtable) (it : hashtable_itr)
    (to : watcher_list) (o : allocs) : outcome (watcher_list * allocs) :=
  match fuel with
  | O => Loop
  | S fuel =>
      w ← hashtable_iterator_value from it;
      '(to, o) ← copy_watchers w to true o;
      '(hasMore, it) ← hashtable_iterator_advance from it;
      if hasMore =? 0 then Ret (to, o) else copy_table_loop fuel from it to o
  end.
Definition copy_table (from : zk_hashtable) (to : watcher_list) (o : allocs)
    : outcome (watcher_list * allocs) :=
  if hashtable_count from =? 0 then Ret (to, o) else
  match hashtable_iterator from o with
  | (None, _) => UB
  | (Some it, o) => copy_table_loop (Z.to_nat (hashtable_count from)) from it to o
  end.

Definition collect_session_watchers (zh : watches) (list : watcher_list) (o : allocs)
    : outcome (watcher_list * allocs) :=
  '(list, o) ← copy_table (active_node_watchers zh) list o;
  '(list, o) ← copy_table (active_exist_watchers zh) list o;
  copy_table (active_child_watchers zh) list o.

Definition add_for_event (ht : zk_hashtable) (path : cstring) (list : watcher_list)
    (o : allocs) : outcome (zk_hashtable * watcher_list * allocs) :=
  '(wl, ht) ← hashtable_remove ht path;
  match wl with
  | Some wl => '(list, o) ← copy_watchers wl list false o; Ret (ht, list, o)
  | None => Ret (ht, list, o)
  end.

Definition add_for_table (t : which_table) (path : cstring)
    (st : watches * watcher_list * allocs) : outcome (watches * watcher_list * allocs) :=
  let '(zh, list, o) := st in
  '(ht, list, o) ← add_for_event (get_table t zh) path list o;
  Ret (put_table t ht zh, list, o).

Definition collectWatchers (zh : watches) (type : Z) (path : cstring) (o : allocs)
    : outcome (watches * watcher_list * allocs) :=
  '(list, o) ← create_watcher_object_list [] o;
  if type =? ZOO_SESSION_EVENT then
    '(_, list, o) ← add_to_list list (mk_wo (zh_watcher zh) (zh_context zh)) true o;
    '(list, o) ← collect_session_watchers zh list o;
    Ret (zh, list, o)
  else if (type =? CREATED_EVENT_DEF) || (type =? CHANGED_EVENT_DEF) then
    st ← add_for_table NodeTable path (zh, list, o);
    add_for_table ExistTable path st
  else if type =? CHILD_EVENT_DEF then
    add_for_table ChildTable path (zh, list, o)
  else if type =? DELETED_EVENT_DEF then
    st ← add_for_table NodeTable path (zh, list, o);
    st ← add_for_table ExistTable path st;
    add_for_table ChildTable path st
  else Ret (zh, list, o).

(** A call of a watcher: the function, its arguments [type], [state], the path as
    the client sees it, and its context. *)
Record callback := mk_callback {
  cb_watcher : Z; cb_type : Z; cb_state : Z; cb_path : option cstring; cb_context : Z;
}.
(** A NULL watcher is called like any other: undefined. *)
Fixpoint call_watchers (wl : watcher_list) (type state : Z) (path : option cstring)
    : outcome (list callback) :=
  match wl with
  | [] => Ret []
  | wo :: wl =>
      if wo_watcher wo =? 0 then UB else
      cbs ← call_watchers wl type state path;
      Ret (mk_callback (wo_watcher wo) type state path (wo_context wo) :: cbs)
  end.
Definition do_foreach_watcher (wl : watcher_list) (chroot : option cstring)
    (path : cstring) (type state : Z) (o : allocs) : outcome (list callback * allocs) :=
  let '(client_path, o) :=
    if negb (type =? ZOO_SESSION_EVENT) then sub_string chroot path o else (Some path, o) in
  cbs ← call_watchers wl type state client_path; Ret (cbs, o).
(** The list is destroyed and [*list] set to NULL after the calls. *)
Definition deliverWatchers (chroot : option cstring) (type state : Z) (path : cstring)
    (lst : option watcher_list) (o : allocs)
    : outcome (list callback * option watcher_list * allocs) :=
  match lst with
  | None => Ret ([], None, o)
  | Some l => '(cbs, o) ← do_foreach_watcher l chroot path type state o; Ret (cbs, None, o)
  end.

Definition activateWatcher (zh : watches) (reg : option watcher_registration) (rc : Z)
    (o : allocs) : outcome (watches * allocs) :=
  match reg with
  | None => Ret (zh, o)
  | Some reg =>
      match run_checker (reg_checker reg) rc with
      | None => Ret (zh, o)
      | Some t =>
          '(wo, o) ← create_watcher_object (reg_watcher reg) (reg_context reg) o;
          '(_, ht, o) ← insert_watcher_object (get_table t zh) (reg_path reg) wo o;
          Ret (put_table t ht zh, o)
      end
  end.

Definition containsWatcher (watchers : zk_hashtable) (path : cstring) (watcher ctx : Z)
    : outcome bool :=
  if watcher =? 0 then Ret true else
  wl ← hashtable_search watchers path;
  match wl with
  | None => Ret false
  | Some wl => Ret (search_watcher wl (mk_wo watcher ctx))
  end.

Definition removeWatcher (watchers : zk_hashtable) (path : cstring) (watcher ctx : Z)
    : outcome zk_hashtable :=
  wl ← hashtable_search watchers path;
  match wl with
  | None => Ret watchers
  | Some wl =>
      if watcher =? 0 then '(_, watchers) ← hashtable_remove watchers path; Ret watchers
      else
        let wl := removeWatcherFromList wl watcher ctx in
        let watchers := assign_found watchers path wl in
        match wl with
        | [] => '(_, watchers) ← hashtable_remove watchers path; Ret watchers
        | _ :: _ => Ret watchers
        end
  end.

Definition remove_from (t : which_table) (path : cstring) (watcher ctx : Z) (zh : watches)
    : outcome watches :=
  ht ← removeWatcher (get_table t zh) path watcher ctx; Ret (put_table t ht zh).
Definition removeWatchers (zh : watches) (path : cstring) (type : Z)
    (watcher ctx : Z) : outcome watches :=
  if type =? ZWATCHTYPE_CHILD then remove_from ChildTable path watcher ctx zh
  else if type =? ZWATCHTYPE_DATA then
    zh ← remove_from NodeTable path watcher ctx zh;
    remove_from ExistTable path watcher ctx zh
  else if type =? ZWATCHTYPE_ANY then
    zh ← remove_from ChildTable path watcher ctx zh;
    zh ← remove_from NodeTable path watcher ctx zh;
    remove_from ExistTable path watcher ctx zh
  else Ret zh.
Definition deactivateWatcher (zh : watches) (dereg : option watcher_deregistration)
    (rc : Z) : outcome watches :=
  if negb (rc =? ZOK) then Ret zh else
  match dereg with
  | None => Ret zh
  | Some d => removeWatchers zh (dereg_path d) (dereg_type d) (dereg_watcher d)
                (dereg_context d)
  end.

Definition pathHasWatcher (zh : watches) (path : cstring) (wtype : Z)
    (watcher ctx : Z) : outcome bool :=
  if wtype =? ZWATCHTYPE_CHILD then
    containsWatcher (active_child_watchers zh) path watcher ctx
  else if wtype =? ZWATCHTYPE_DATA then
    found ← containsWatcher (active_node_watchers zh) path watcher ctx;
    if found : bool then Ret true
    else containsWatcher (active_exist_watchers zh) path watcher ctx
  else if wtype =? ZWATCHTYPE_ANY then
    found ← containsWatcher (active_child_watchers zh) path watcher ctx;
    found ← (if found : bool then Ret true
             else containsWatcher (active_node_watchers zh) path watcher ctx);
    if found : bool then Ret true
    else containsWatcher (active_exist_watchers zh) path watcher ctx
  else Ret false.
End tables.
