(* ===== verification/WatchersFacts.v ===== *)
(** * Facts about watchers

    A watcher table stands for a finite map from paths to non-empty lists of
    distinct watchers.  Each operation of zk_hashtable.c refines an operation on
    that map; delivery calls every watcher due exactly once. *)

From S2P Require Import Prelude Hashtable HashtableFacts Path PathFacts Watchers.
Local Open Scope Z_scope.

Implicit Types wo : watcher_object.
Implicit Types l : watcher_list.
Implicit Types m : gmap cstring watcher_list.

(** ** Lists of watchers *)
Lemma same_watcher wo w c :
  (wo_watcher wo =? w) && (wo_context wo =? c) = bool_decide (wo = mk_wo w c).
Proof.
  destruct wo as [w' c']; simpl. destruct (Z.eqb_spec w' w), (Z.eqb_spec c' c);
    case_bool_decide; simplify_eq/=; done.
Qed.

Lemma search_watcher_spec l wo : search_watcher l wo = bool_decide (wo ∈ l).
Proof.
  induction l as [|x l IH]; simpl; [done|]. destruct wo as [w c]. simpl.
  rewrite same_watcher, IH. repeat case_bool_decide; set_solver.
Qed.

Definition add l wo : watcher_list := if decide (wo ∈ l) then l else wo :: l.

Lemma add_to_list_spec l wo clone :
  ∃ rc, add_to_list l wo clone [] = Ret (rc, add l wo, []).
Proof.
  unfold add_to_list, add. rewrite search_watcher_spec.
  case_bool_decide as Hin; cbn [negb].
  - rewrite decide_True by done. eauto.
  - rewrite decide_False by done. destruct clone; run; destruct wo; eauto.
Qed.

Lemma add_elem l wo x : x ∈ add l wo ↔ x ∈ l ∨ x = wo.
Proof. unfold add. case_decide; set_solver. Qed.
Lemma add_NoDup l wo : NoDup l → NoDup (add l wo).
Proof. unfold add. case_decide; [done|]. by constructor. Qed.

Definition merge_list (to from : watcher_list) : watcher_list := foldl add to from.

Lemma copy_watchers_spec from to clone :
  copy_watchers from to clone [] = Ret (merge_list to from, []).
Proof.
  revert to. induction from as [|wo from IH]; intros to; simpl; [done|].
  destruct (add_to_list_spec to wo clone) as [rc ->]. run. apply IH.
Qed.
Lemma merge_elem to from x : x ∈ merge_list to from ↔ x ∈ to ∨ x ∈ from.
Proof.
  unfold merge_list. revert to. induction from as [|wo from IH]; intros to; simpl; [set_solver|].
  rewrite IH, add_elem. set_solver.
Qed.
Lemma merge_NoDup to from : NoDup to → NoDup (merge_list to from).
Proof.
  unfold merge_list. revert to. induction from as [|wo from IH]; intros to Hto; simpl; [done|].
  by apply IH, add_NoDup.
Qed.

(** Removal takes out the one occurrence there can be. *)
Lemma unlink_next_spec x l w c :
  NoDup l → unlink_next (x :: l) w c = x :: filter (λ y, y ≠ mk_wo w c) l.
Proof.
  revert x. induction l as [|n l IH]; intros x Hnd; [done|].
  apply NoDup_cons in Hnd as [Hn Hnd].
  change (unlink_next (x :: n :: l) w c) with
    (if (wo_watcher n =? w) && (wo_context n =? c) then x :: l
     else x :: unlink_next (n :: l) w c).
  rewrite same_watcher. case_bool_decide as Heq.
  - subst n. rewrite filter_cons_False by (intros Hn'; by apply Hn').
    f_equal. symmetry. apply filter_all. by intros y Hy ->.
  - rewrite filter_cons_True by done. by rewrite (IH n Hnd).
Qed.

Lemma removeWatcherFromList_spec l w c :
  NoDup l → removeWatcherFromList l w c = filter (λ y, y ≠ mk_wo w c) l.
Proof.
  destruct l as [|x l]; intros Hnd; [done|]. apply NoDup_cons in Hnd as [Hx Hnd].
  unfold removeWatcherFromList. rewrite unlink_next_spec, same_watcher by done.
  case_bool_decide as Heq.
  - subst x. by rewrite filter_cons_False by (intros Hn; by apply Hn).
  - by rewrite filter_cons_True.
Qed.

(** ** Tables *)
Global Instance string_fns_ok `{Host} : HashFnsOK cstring.
Proof. split. intros. apply bool_decide_eq_true. Qed.

Section tables.
Context `{Host}.
Implicit Types h : zk_hashtable.

Definition lists_ok m : Prop := map_Forall (λ _ l, NoDup l ∧ l ≠ []) m.
Definition tbl_repr h m : Prop := ht_repr h m ∧ lists_ok m.

(** Registration of a watcher under a path. *)
Definition register (path : cstring) wo m : gmap cstring watcher_list :=
  <[path := add (default [] (m !! path)) wo]> m.
(** Removal of a watcher, or of all when the function is NULL. *)
Definition unregister (path : cstring) (w c : Z) m : gmap cstring watcher_list :=
  match m !! path with
  | None => m
  | Some l =>
      if w =? 0 then delete path m else
      match filter (λ y, y ≠ mk_wo w c) l with
      | [] => delete path m
      | l => <[path := l]> m
      end
  end.

Definition room m : Prop := Z.of_nat (size m) + 1 < 2 ^ 31.

Lemma add_ne l wo : add l wo ≠ [].
Proof. unfold add. case_decide as Hin; [|done]. intros ->. by apply elem_of_nil in Hin. Qed.

Lemma register_lists_ok path wo m : lists_ok m → lists_ok (register path wo m).
Proof.
  intros Hok. apply map_Forall_insert_2; [|done]. split; [|apply add_ne].
  apply add_NoDup. destruct (m !! path) as [l|] eqn:E; simpl; [|constructor].
  by apply (Hok path l E).
Qed.

Lemma insert_watcher_object_spec h m path wo :
  tbl_repr h m → room m →
  ∃ rc h', insert_watcher_object h path wo [] = Ret (rc, h', []) ∧
    tbl_repr h' (register path wo m).
Proof.
  intros [Hr Hok] Hroom. unfold insert_watcher_object, do_insert_watcher_object.
  rewrite (repr_search h m path Hr). run. pose proof (register_lists_ok path wo m Hok) as Hok'.
  unfold register in *. destruct (m !! path) as [l|] eqn:E; cbn [from_option id] in *.
  - destruct (add_to_list_spec l wo false) as [rc ->]. run. eexists _, _. split; [done|].
    split; [|done]. by apply (repr_assign h m path l).
  - unfold strdup; simpl.
    destruct (repr_insert h m path [wo] [] Hr E ltac:(unfold room in Hroom; lia))
      as [(h' & o' & Ei & Hr' & Ho)|[(h' & o' & _ & _ & ?)|[_ [o' [?|?]]]]]; [|done..].
    rewrite Ei. run. rewrite Ho by done. by eexists _, _.
Qed.

Lemma delete_lists_ok path m : lists_ok m → lists_ok (delete path m).
Proof. apply map_Forall_delete. Qed.

Lemma add_for_event_spec h m path l :
  tbl_repr h m →
  ∃ h', add_for_event h path l [] = Ret (h', merge_list l (default [] (m !! path)), []) ∧
    tbl_repr h' (delete path m).
Proof.
  intros [Hr Hok]. unfold add_for_event.
  destruct (repr_remove h m path Hr) as (h' & -> & Hr'). run. exists h'.
  split; [|split; [done|by apply delete_lists_ok]].
  destruct (m !! path) as [wl|]; [|done]. by rewrite copy_watchers_spec.
Qed.

Lemma containsWatcher_spec h m path w c :
  tbl_repr h m →
  containsWatcher h path w c =
    Ret ((w =? 0) || bool_decide (mk_wo w c ∈ default [] (m !! path))).
Proof.
  intros [Hr Hok]. unfold containsWatcher. destruct (w =? 0); [done|].
  rewrite (repr_search h m path Hr). run.
  destruct (m !! path) as [l|]; simpl; [by rewrite search_watcher_spec|done].
Qed.

Lemma removeWatcher_spec h m path w c :
  tbl_repr h m → ∃ h', removeWatcher h path w c = Ret h' ∧ tbl_repr h' (unregister path w c m).
Proof.
  intros [Hr Hok]. unfold removeWatcher, unregister. rewrite (repr_search h m path Hr). run.
  destruct (m !! path) as [l|] eqn:E; [|by exists h].
  destruct (w =? 0).
  - destruct (repr_remove h m path Hr) as (h' & -> & Hr'). run. exists h'.
    split; [done|]. split; [done|by apply delete_lists_ok].
  - destruct (Hok path l E) as [Hnd Hne]. rewrite removeWatcherFromList_spec by done.
    pose proof (NoDup_filter (λ y, y ≠ mk_wo w c) l Hnd) as Hnd'.
    set (l' := filter _ l) in *.
    pose proof (repr_assign h m path l l' Hr E) as Hr1. destruct l' as [|x l'].
    + destruct (repr_remove _ _ path Hr1) as (h' & -> & Hr'). run. exists h'.
      split; [done|]. rewrite delete_insert_eq in Hr'.
      split; [done|by apply delete_lists_ok].
    + eexists. split; [done|]. split; [done|]. by apply map_Forall_insert_2.
Qed.

(** ** Loops over a table *)
Lemma copy_table_loop_at h itr pre e post fuel to :
  sized h → at_entry h itr pre e post → (length post < fuel)%nat →
  copy_table_loop fuel h itr to [] =
    Ret (foldl (λ to e, merge_list to (e_v e)) to (e :: post), []).
Proof.
  intros Hs. revert itr pre e post to.
  induction fuel as [|fuel IH]; intros itr pre e post to Hat Hf; [lia|].
  cbn [copy_table_loop]. unfold hashtable_iterator_value.
  rewrite (entry_at_spec _ _ _ _ _ Hat). run. rewrite copy_watchers_spec. run.
  pose proof (hashtable_iterator_advance_spec h itr pre e post Hs Hat) as Ha.
  destruct post as [|e' post].
  - by destruct Ha as (itr' & ->).
  - destruct Ha as (itr' & -> & Hat'). run. simpl in Hf.
    by rewrite (IH itr' _ e' post) by (done || lia).
Qed.

Lemma fold_merge_elem (es : list (entry cstring watcher_list)) to x :
  x ∈ foldl (λ to e, merge_list to (e_v e)) to es ↔ x ∈ to ∨ ∃ e, e ∈ es ∧ x ∈ e_v e.
Proof.
  revert to. induction es as [|e es IH]; intros to; simpl; [set_solver|].
  rewrite IH, merge_elem. set_solver.
Qed.
Lemma fold_merge_NoDup (es : list (entry cstring watcher_list)) to :
  NoDup to → NoDup (foldl (λ to e, merge_list to (e_v e)) to es).
Proof. revert to. induction es; intros to Hto; simpl; auto using merge_NoDup. Qed.

Lemma repr_entries_elem h m x :
  ht_repr h m → (∃ e, e ∈ entries h ∧ x ∈ e_v e) ↔ ∃ path l, m !! path = Some l ∧ x ∈ l.
Proof.
  intros [Hwf Hnd <-]. split.
  - intros (e & He & Hx). exists (e_k e), (e_v e). split; [|done].
    apply to_map_lookup; [done|]. by exists e.
  - intros (path & l & Hl & Hx). apply to_map_lookup in Hl as (e & He & _ & <-); [|done].
    by exists e.
Qed.

Lemma copy_table_spec h m to :
  tbl_repr h m → NoDup to → room m →
  ∃ to', copy_table h to [] = Ret (to', []) ∧ NoDup to' ∧
    ∀ x, x ∈ to' ↔ x ∈ to ∨ ∃ path l, m !! path = Some l ∧ x ∈ l.
Proof.
  intros [Hr Hok] Hto Hroom. pose proof (repr_wf _ _ Hr) as Hwf.
  unfold copy_table, hashtable_count. rewrite (wf_count _ Hwf).
  setoid_rewrite <-(repr_entries_elem h m _ Hr).
  destruct (hashtable_iterator_spec h [] Hwf eq_refl) as (itr & o' & Ei & Hat).
  destruct (entries h) as [|e post] eqn:Ee; cbn [length].
  - exists to. split_and!; [done..|]. set_solver.
  - rewrite (proj2 (Z.eqb_neq _ _)) by lia. rewrite Ei.
    rewrite (hashtable_iterator_allocs _ _ _ Ei).
    rewrite (copy_table_loop_at h itr [] e post) by (by apply wf_sized || done || lia).
    eexists. split_and!; [done|by apply fold_merge_NoDup|]. intros x. apply fold_merge_elem.
Qed.

Lemma keys_loop_at h itr pre e post n :
  sized h → at_entry h itr pre e post → n = S (length post) →
  keys_loop n h itr [] = Ret (Some ∘ e_k <$> (e :: post), []).
Proof.
  intros Hs. revert itr pre e post. induction n as [|n IH]; intros itr pre e post Hat Hn; [lia|].
  cbn [keys_loop]. unfold hashtable_iterator_key.
  rewrite (entry_at_spec _ _ _ _ _ Hat). run. unfold strdup; cbn [alloc].
  pose proof (hashtable_iterator_advance_spec h itr pre e post Hs Hat) as Ha.
  destruct post as [|e' post].
  - destruct Ha as (itr' & ->). run. simpl in Hn. by replace n with 0%nat by lia.
  - destruct Ha as (itr' & -> & Hat'). run. simpl in Hn.
    by rewrite (IH itr' _ e' post) by (done || lia).
Qed.

Lemma collect_keys_spec h m :
  tbl_repr h m → room m →
  ∃ ks, collect_keys h [] = Ret (Z.of_nat (size m), Some <$> ks, []) ∧ NoDup ks ∧
    ∀ k, k ∈ ks ↔ is_Some (m !! k).
Proof.
  intros [Hr Hok] Hroom. pose proof (repr_wf _ _ Hr) as Hwf.
  pose proof (repr_count _ _ Hr) as Hc. unfold collect_keys. rewrite Hc.
  rewrite (wrap_s_id 32) by (unfold in_s, room in *; lia). cbn [alloc].
  destruct (hashtable_iterator_spec h [] Hwf eq_refl) as (itr & o' & Ei & Hat).
  rewrite Ei, (hashtable_iterator_allocs _ _ _ Ei).
  unfold hashtable_count in Hc. rewrite (wf_count _ Hwf) in Hc.
  exists (e_k <$> entries h). destruct Hr as [_ Hnd <-].
  split; [|split; [done|]].
  - destruct (entries h) as [|e post] eqn:Ee; cbn [length] in Hc; rewrite <-Hc.
    + done.
    + rewrite (proj2 (Z.leb_gt _ _)), Nat2Z.id by lia. cbn [negb].
      rewrite (keys_loop_at h itr [] e post) by (by apply wf_sized || done). run.
      by rewrite list_fmap_compose.
  - intros k. rewrite list_elem_of_fmap. split.
    + intros (e & -> & He). exists (e_v e). apply to_map_lookup; [done|]. by exists e.
    + intros [v Hv]. apply to_map_lookup in Hv as (e & He & <- & _); [|done]. by exists e.
Qed.

Lemma clean_loop_at h itr e post fuel :
  ht_wf h → at_entry h itr [] e post → (length post < fuel)%nat →
  ∃ h', clean_loop fuel h itr = Ret h' ∧ ht_wf h' ∧ entries h' = [].
Proof.
  revert h itr e post. induction fuel as [|fuel IH]; intros h itr e post Hwf Hat Hf; [lia|].
  destruct (hashtable_iterator_remove_spec h itr [] e post Hwf Hat)
    as (ret & itr' & h' & E & Hwf' & Hent & Hpost).
  cbn [clean_loop]. unfold hashtable_iterator_value.
  rewrite (entry_at_spec _ _ _ _ _ Hat), E. run. destruct post as [|e' post].
  - subst ret. by exists h'.
  - destruct Hpost as [-> Hat']. run. simpl in Hf.
    apply (IH h' itr' e' post Hwf' Hat'). lia.
Qed.

Lemma do_clean_spec h m :
  ht_repr h m → ∃ h', do_clean_hashtable h [] = Ret (h', []) ∧ ht_wf h' ∧ entries h' = [].
Proof.
  intros Hr. pose proof (repr_wf _ _ Hr) as Hwf.
  unfold do_clean_hashtable, hashtable_count. rewrite (wf_count _ Hwf).
  destruct (hashtable_iterator_spec h [] Hwf eq_refl) as (itr & o' & Ei & Hat).
  destruct (entries h) as [|e post] eqn:Ee; cbn [length]; [by exists h|].
  rewrite (proj2 (Z.eqb_neq _ _)) by lia. rewrite Ei, (hashtable_iterator_allocs _ _ _ Ei).
  rewrite Nat2Z.id. destruct (clean_loop_at h itr e post (S (length post)) Hwf Hat)
    as (h' & -> & ?); [lia|]. run. by exists h'.
Qed.
End tables.
