(* ===== verification/WatchersTheorems.v ===== *)
(** * Theorems about watchers

    Registration, one-shot delivery, session events, removal and the collection of
    paths for [setWatches], over the three tables of a handle together. *)

From S2P Require Import Prelude Hashtable HashtableFacts Path PathFacts Watchers WatchersFacts.
Local Open Scope Z_scope.

Implicit Types wo : watcher_object.

Global Instance which_table_eq_dec : EqDecision which_table.
Proof. solve_decision. Defined.

(** The abstract state: for each table, the watchers registered under each path. *)
Definition registry := which_table → gmap cstring watcher_list.
Definition watching (A : registry) (t : which_table) (path : cstring) : watcher_list :=
  default [] (A t !! path).
Definition upd (t : which_table) (m : gmap cstring watcher_list) (A : registry) : registry :=
  λ t', if decide (t' = t) then m else A t'.

Section theorems.
Context `{Host}.

(** The tables of [zh] stand for [A], with room for more paths. *)
Definition watches_repr (zh : watches) (A : registry) : Prop :=
  ∀ t, tbl_repr (get_table t zh) (A t) ∧ room (A t).

Lemma put_get zh t h t' :
  get_table t' (put_table t h zh) = if decide (t' = t) then h else get_table t' zh.
Proof. by destruct t, t'. Qed.

Lemma watches_repr_put zh A t h m :
  watches_repr zh A → tbl_repr h m → room m →
  watches_repr (put_table t h zh) (upd t m A).
Proof.
  intros HA Hh Hm t'. rewrite put_get. unfold upd. case_decide; [done|apply HA].
Qed.

Lemma room_delete path m : room m → room (delete path m).
Proof. unfold room. rewrite map_size_delete. destruct (m !! path); simpl; lia. Qed.
Lemma room_unregister path w c m : room m → room (unregister path w c m).
Proof.
  intros Hm. unfold unregister. destruct (m !! path) as [l|] eqn:E; [|done].
  destruct (w =? 0); [by apply room_delete|].
  destruct (filter _ l); [by apply room_delete|].
  unfold room. by rewrite map_size_insert_Some by eauto.
Qed.

(** One table of [collectWatchers]. *)
Lemma add_for_table_spec zh A t path l :
  watches_repr zh A →
  ∃ zh', add_for_table t path (zh, l, []) = Ret (zh', merge_list l (watching A t path), []) ∧
    watches_repr zh' (upd t (delete path (A t)) A) ∧
    zh_watcher zh' = zh_watcher zh ∧ zh_context zh' = zh_context zh.
Proof.
  intros HA. unfold add_for_table. destruct (HA t) as [Ht Hroom].
  destruct (add_for_event_spec _ _ path l Ht) as (h' & E & Hr). rewrite E. run.
  eexists. split; [done|]. split; [|by destruct t].
  apply watches_repr_put; [done..|by apply room_delete].
Qed.

Lemma remove_from_spec zh A t path w c :
  watches_repr zh A →
  ∃ zh', remove_from t path w c zh = Ret zh' ∧
    watches_repr zh' (upd t (unregister path w c (A t)) A).
Proof.
  intros HA. unfold remove_from. destruct (HA t) as [Ht Hroom].
  destruct (removeWatcher_spec _ _ path w c Ht) as (h' & E & Hr). rewrite E. run.
  eexists. split; [done|]. apply watches_repr_put; [done..|by apply room_unregister].
Qed.

(** The tables an event of each type takes its watchers from. *)
Definition event_tables (type : Z) : list which_table :=
  if (type =? CREATED_EVENT_DEF) || (type =? CHANGED_EVENT_DEF) then [NodeTable; ExistTable]
  else if type =? CHILD_EVENT_DEF then [ChildTable]
  else if type =? DELETED_EVENT_DEF then [NodeTable; ExistTable; ChildTable]
  else [].
(** The tables a watcher type stands for. *)
Definition type_tables (type : Z) : list which_table :=
  if type =? ZWATCHTYPE_CHILD then [ChildTable]
  else if type =? ZWATCHTYPE_DATA then [NodeTable; ExistTable]
  else if type =? ZWATCHTYPE_ANY then [ChildTable; NodeTable; ExistTable]
  else [].

(** The watchers of a path in several tables, as [collectWatchers] accumulates them. *)
Lemma upd_ne t t' m A : t' ≠ t → upd t m A t' = A t'.
Proof. unfold upd. intros. by rewrite decide_False. Qed.
Lemma upd_eq t m A : upd t m A t = m.
Proof. unfold upd. by rewrite decide_True. Qed.
End theorems.

(** The handle of the witnesses: one watcher on "/a" for data, one for children. *)
Definition sample_host : Host := {| big_endian := false; char_signed := true |}.
Definition sample_watches : watches :=
  let e : zk_hashtable := mk_hashtable 53 (replicate 53 []) 0 35 0 in
  match (@insert_watcher_object sample_host e (lit "/a") (mk_wo 7 70) []),
        (@insert_watcher_object sample_host e (lit "/a") (mk_wo 8 80) []) with
  | Ret (_, hn, _), Ret (_, hc, _) => mk_watches hn e hc 5 50
  | _, _ => mk_watches e e e 5 50
  end.
Definition sample_registry : registry := λ t,
  match t with
  | NodeTable => {[lit "/a" := [mk_wo 7 70]]}
  | ExistTable => ∅
  | ChildTable => {[lit "/a" := [mk_wo 8 80]]}
  end.

Lemma sample_empty : @tbl_repr sample_host (mk_hashtable 53 (replicate 53 []) 0 35 0) ∅.
Proof.
  split; [|apply map_Forall_empty].
  apply (repr_create 32 [] _ []); [vm_compute; reflexivity|lia].
Qed.
Lemma sample_one wo :
  ∃ rc h, @insert_watcher_object sample_host (mk_hashtable 53 (replicate 53 []) 0 35 0)
            (lit "/a") wo [] = Ret (rc, h, []) ∧ @tbl_repr sample_host h {[lit "/a" := [wo]]}.
Proof.
  destruct (insert_watcher_object_spec _ ∅ (lit "/a") wo sample_empty) as (rc & h & E & Hr);
    [unfold room; rewrite map_size_empty; lia|].
  exists rc, h. split; [done|]. exact Hr.
Qed.
Lemma sample_watches_repr : @watches_repr sample_host sample_watches sample_registry.
Proof.
  unfold sample_watches.
  destruct (sample_one (mk_wo 7 70)) as (rc1 & h1 & -> & H1).
  destruct (sample_one (mk_wo 8 80)) as (rc2 & h2 & -> & H2).
  intros []; simpl; (split; [done || apply sample_empty|]);
    unfold room; rewrite ?map_size_singleton, ?map_size_empty; lia.
Qed.

(** What [activateWatcher] does to the tables. *)
Lemma activateWatcher_spec (H : Host) (zh : watches) (A : registry)
    (reg : option watcher_registration) (rc : Z) :
  watches_repr zh A →
  ∃ zh', activateWatcher zh reg rc [] = Ret (zh', []) ∧
    match reg ≫= λ r, pair r <$> run_checker (reg_checker r) rc with
    | None => zh' = zh
    | Some (r, t) =>
        let m := register (reg_path r) (mk_wo (reg_watcher r) (reg_context r)) (A t) in
        (∀ t', tbl_repr (get_table t' zh') (upd t m A t')) ∧
        mk_wo (reg_watcher r) (reg_context r) ∈ watching (upd t m A) t (reg_path r) ∧
        NoDup (watching (upd t m A) t (reg_path r))
    end.
Proof.
  intros HA. unfold activateWatcher. destruct reg as [r|]; [|by exists zh].
  cbn [mbind option_bind]. destruct (run_checker (reg_checker r) rc) as [t|]; [|by exists zh].
  cbn [fmap option_fmap option_map]. destruct (HA t) as [Ht Hroom].
  unfold create_watcher_object. cbn [assert_alloc alloc]. run.
  set (wo := mk_wo (reg_watcher r) (reg_context r)).
  destruct (insert_watcher_object_spec _ _ (reg_path r) wo Ht Hroom) as (rc' & h' & -> & Hr').
  run. eexists. split; [done|]. cbv zeta. split_and!.
  - intros t'. rewrite put_get. unfold upd. case_decide; [done|apply HA].
  - unfold watching. rewrite upd_eq. unfold register. rewrite lookup_insert_eq. simpl.
    apply add_elem. by right.
  - unfold watching. rewrite upd_eq. unfold register. rewrite lookup_insert_eq. simpl.
    apply add_NoDup. destruct (A t !! reg_path r) as [l|] eqn:E; simpl; [|constructor].
    by apply (proj2 Ht _ l E).
Qed.

(**  Registration.  When the response to a request that set a watch arrives,
    [activateWatcher] puts the watcher under its path in the table its checker
    selects for the result code (data and exists watches of existing nodes in the
    node table, exists watches of missing nodes in the exist table, child watches in
    the child table), once however often it is registered, and changes nothing
    else; with no registration or an unexpected code it changes nothing at all. *)
Theorem activateWatcher_correct (H : Host) (zh : watches) (A : registry)
    (reg : option watcher_registration) (rc : Z) :
  watches_repr zh A →
  ∃ zh', activateWatcher zh reg rc [] = Ret (zh', []) ∧
    match reg ≫= λ r, pair r <$> run_checker (reg_checker r) rc with
    | None => zh' = zh
    | Some (r, t) =>
        let m := register (reg_path r) (mk_wo (reg_watcher r) (reg_context r)) (A t) in
        (∀ t', tbl_repr (get_table t' zh') (upd t m A t')) ∧
        mk_wo (reg_watcher r) (reg_context r) ∈ watching (upd t m A) t (reg_path r) ∧
        NoDup (watching (upd t m A) t (reg_path r))
    end.
Proof. apply activateWatcher_spec. Qed.

Lemma activateWatcher_correct_witness :
  let reg := Some (mk_reg 9 90 exists_result_checker (lit "/b")) in
  ∃ zh', @activateWatcher sample_host sample_watches reg ZNONODE [] = Ret (zh', []) ∧
    match reg ≫= λ r, pair r <$> run_checker (reg_checker r) ZNONODE with
    | None => zh' = sample_watches
    | Some (r, t) =>
        let m := register (reg_path r) (mk_wo (reg_watcher r) (reg_context r))
                   (sample_registry t) in
        (∀ t', @tbl_repr sample_host (get_table t' zh') (upd t m sample_registry t')) ∧
        mk_wo (reg_watcher r) (reg_context r) ∈ watching (upd t m sample_registry) t (reg_path r) ∧
        NoDup (watching (upd t m sample_registry) t (reg_path r))
    end.
Proof. apply (activateWatcher_correct sample_host). exact sample_watches_repr. Defined.

(** The watchers of a node event. *)
Lemma collect_event_spec (H : Host) (zh : watches) (A : registry) (type : Z)
    (path : cstring) :
  watches_repr zh A → type ≠ ZOO_SESSION_EVENT →
  ∃ zh' l, collectWatchers zh type path [] = Ret (zh', l, []) ∧ NoDup l ∧
    (∀ wo, wo ∈ l ↔ ∃ t, t ∈ event_tables type ∧ wo ∈ watching A t path) ∧
    watches_repr zh' (λ t, if decide (t ∈ event_tables type) then delete path (A t) else A t).
Proof.
  intros HA Hty. unfold collectWatchers, create_watcher_object_list. cbn [assert_alloc alloc].
  run. rewrite (proj2 (Z.eqb_neq _ _)) by done. unfold event_tables.
  destruct (_ || _); [|destruct (type =? CHILD_EVENT_DEF);
    [|destruct (type =? DELETED_EVENT_DEF)]].
  - destruct (add_for_table_spec zh A NodeTable path [] HA) as (zh1 & -> & H1 & _). run.
    destruct (add_for_table_spec zh1 _ ExistTable path
      (merge_list [] (watching A NodeTable path)) H1) as (zh2 & -> & H2 & _).
    eexists _, _. split_and!; [done|repeat apply merge_NoDup; constructor| |].
    + intros wo. rewrite !merge_elem. unfold watching. rewrite upd_ne by done. set_solver.
    + intros t. specialize (H2 t). by destruct t.
  - destruct (add_for_table_spec zh A ChildTable path [] HA) as (zh1 & -> & H1 & _).
    eexists _, _. split_and!; [done|repeat apply merge_NoDup; constructor| |].
    + intros wo. rewrite !merge_elem. set_solver.
    + intros t. specialize (H1 t). by destruct t.
  - destruct (add_for_table_spec zh A NodeTable path [] HA) as (zh1 & -> & H1 & _). run.
    destruct (add_for_table_spec zh1 _ ExistTable path
      (merge_list [] (watching A NodeTable path)) H1) as (zh2 & -> & H2 & _). run.
    destruct (add_for_table_spec zh2 _ ChildTable path (merge_list
      (merge_list [] (watching A NodeTable path))
      (watching (upd NodeTable (delete path (A NodeTable)) A) ExistTable path)) H2) as (zh3 & -> & H3 & _).
    eexists _, _. split_and!; [done|repeat apply merge_NoDup; constructor| |].
    + intros wo. rewrite !merge_elem. unfold watching. rewrite !upd_ne by done. set_solver.
    + intros t. specialize (H3 t). by destruct t.
  - eexists _, _. split_and!; [done|constructor|set_solver|]. intros t. by destruct t.
Qed.

(**  Delivery is complete, duplicate-free and one-shot.  For an event other than a
    session event, [collectWatchers] returns each watcher registered under the path in
    one of the tables the event concerns exactly once, and no other; those
    registrations are removed, and every other path and table is left alone. *)
Theorem collectWatchers_one_shot (H : Host) (zh : watches) (A : registry) (type : Z)
    (path : cstring) :
  watches_repr zh A → type ≠ ZOO_SESSION_EVENT →
  ∃ zh' l, collectWatchers zh type path [] = Ret (zh', l, []) ∧ NoDup l ∧
    (∀ wo, wo ∈ l ↔ ∃ t, t ∈ event_tables type ∧ wo ∈ watching A t path) ∧
    watches_repr zh' (λ t, if decide (t ∈ event_tables type) then delete path (A t) else A t).
Proof. apply collect_event_spec. Qed.

Lemma collectWatchers_one_shot_witness :
  ∃ zh' l, @collectWatchers sample_host sample_watches DELETED_EVENT_DEF (lit "/a") []
      = Ret (zh', l, []) ∧ NoDup l ∧
    (∀ wo, wo ∈ l ↔ ∃ t, t ∈ event_tables DELETED_EVENT_DEF ∧
       wo ∈ watching sample_registry t (lit "/a")) ∧
    @watches_repr sample_host zh' (λ t, if decide (t ∈ event_tables DELETED_EVENT_DEF)
      then delete (lit "/a") (sample_registry t) else sample_registry t).
Proof.
  apply (collectWatchers_one_shot sample_host); [exact sample_watches_repr|done].
Defined.

(** All watchers, for a session event. *)
Lemma collect_session_spec (H : Host) (zh : watches) (A : registry) (path : cstring) :
  watches_repr zh A →
  ∃ l, collectWatchers zh ZOO_SESSION_EVENT path [] = Ret (zh, l, []) ∧ NoDup l ∧
    ∀ wo, wo ∈ l ↔ wo = mk_wo (zh_watcher zh) (zh_context zh) ∨
      ∃ t p, wo ∈ watching A t p.
Proof.
  intros HA. unfold collectWatchers, create_watcher_object_list. cbn [assert_alloc alloc]. run.
  destruct (add_to_list_spec [] (mk_wo (zh_watcher zh) (zh_context zh)) true) as [rc E].
  rewrite E. run. unfold collect_session_watchers.
  set (l0 := add [] _). assert (NoDup l0) as Hl0 by apply add_NoDup, NoDup_nil_2.
  destruct (HA NodeTable) as [Hn Rn], (HA ExistTable) as [He Re], (HA ChildTable) as [Hc Rc].
  destruct (copy_table_spec _ _ l0 Hn Hl0 Rn) as (l1 & E1 & Hl1 & M1).
  destruct (copy_table_spec _ _ l1 He Hl1 Re) as (l2 & E2 & Hl2 & M2).
  destruct (copy_table_spec _ _ l2 Hc Hl2 Rc) as (l3 & E3 & Hl3 & M3).
  simpl in E1, E2, E3. rewrite E1. run. rewrite E2. run. rewrite E3. run.
  exists l3. split_and!; [done..|]. intros wo. rewrite M3, M2, M1. unfold l0.
  rewrite add_elem. unfold watching. split.
  - intros [[[[?%elem_of_nil|?]|(p & l & Hl & ?)]|(p & l & Hl & ?)]|(p & l & Hl & ?)];
      [done|by left|right..];
      [exists NodeTable, p|exists ExistTable, p|exists ChildTable, p]; by rewrite Hl.
  - intros [->|(t & p & Hin)]; [by left; left; left; right|].
    destruct (A t !! p) as [l|] eqn:El; simpl in Hin; [|by apply elem_of_nil in Hin].
    destruct t; [left; left; right|left; right|right]; by exists p, l.
Qed.

(** Session events reach everyone.  For a session event [collectWatchers] returns
    the default watcher of the handle and every watcher registered anywhere, each
    exactly once, and leaves all registrations in place. *)
Theorem collectWatchers_session (H : Host) (zh : watches) (A : registry) (path : cstring) :
  watches_repr zh A →
  ∃ l, collectWatchers zh ZOO_SESSION_EVENT path [] = Ret (zh, l, []) ∧ NoDup l ∧
    ∀ wo, wo ∈ l ↔ wo = mk_wo (zh_watcher zh) (zh_context zh) ∨
      ∃ t p, wo ∈ watching A t p.
Proof. apply collect_session_spec. Qed.

Lemma collectWatchers_session_witness :
  ∃ l, @collectWatchers sample_host sample_watches ZOO_SESSION_EVENT [] []
      = Ret (sample_watches, l, []) ∧ NoDup l ∧
    ∀ wo, wo ∈ l ↔ wo = mk_wo (zh_watcher sample_watches) (zh_context sample_watches) ∨
      ∃ t p, wo ∈ watching sample_registry t p.
Proof. apply (collectWatchers_session sample_host). exact sample_watches_repr. Defined.

Lemma unregister_watching (path : cstring) (w c : Z) (m : gmap cstring watcher_list)
    (p : cstring) wo :
  lists_ok m →
  wo ∈ default [] (unregister path w c m !! p) ↔
  wo ∈ default [] (m !! p) ∧ ¬ (p = path ∧ (w = 0 ∨ wo = mk_wo w c)).
Proof.
  intros Hok. unfold unregister. destruct (m !! path) as [l|] eqn:E.
  2: { split; [|tauto]. intros Hin. split; [done|]. intros [-> _]. rewrite E in Hin.
       by apply elem_of_nil in Hin. }
  destruct (decide (p = path)) as [->|Hp].
  - rewrite E. simpl. destruct (Z.eqb_spec w 0) as [->|Hw].
    { rewrite lookup_delete_eq. simpl. rewrite elem_of_nil. tauto. }
    assert (default [] (match filter (λ y, y ≠ mk_wo w c) l with
      | [] => delete path m | _ :: _ => <[path := filter (λ y, y ≠ mk_wo w c) l]> m end !! path)
      = filter (λ y, y ≠ mk_wo w c) l) as Hf.
    { destruct (filter _ l); [by rewrite lookup_delete_eq|by rewrite lookup_insert_eq]. }
    destruct (filter (λ y, y ≠ mk_wo w c) l) eqn:Ef; rewrite Hf, <-Ef, list_elem_of_filter;
      tauto.
  - assert (∀ x, match x with [] => delete path m | _ :: _ => <[path := x]> m end !! p = m !! p)
      as Hx by (intros []; [by rewrite lookup_delete_ne|by rewrite lookup_insert_ne]).
    destruct (w =? 0); [rewrite lookup_delete_ne by done; tauto|].
    specialize (Hx (filter (λ y, y ≠ mk_wo w c) l)).
    destruct (filter _ l); rewrite Hx; tauto.
Qed.

Lemma removeWatchers_spec `{Host} zh A path type w c :
  watches_repr zh A →
  ∃ zh', removeWatchers zh path type w c = Ret zh' ∧
    watches_repr zh' (λ t, if decide (t ∈ type_tables type)
      then unregister path w c (A t) else A t).
Proof.
  intros HA. unfold removeWatchers, type_tables.
  destruct (type =? ZWATCHTYPE_CHILD); [|destruct (type =? ZWATCHTYPE_DATA);
    [|destruct (type =? ZWATCHTYPE_ANY)]].
  - destruct (remove_from_spec zh A ChildTable path w c HA) as (zh1 & -> & H1).
    exists zh1. split; [done|]. intros t. specialize (H1 t). by destruct t.
  - destruct (remove_from_spec zh A NodeTable path w c HA) as (zh1 & -> & H1). run.
    destruct (remove_from_spec zh1 _ ExistTable path w c H1) as (zh2 & -> & H2).
    exists zh2. split; [done|]. intros t. specialize (H2 t). by destruct t.
  - destruct (remove_from_spec zh A ChildTable path w c HA) as (zh1 & -> & H1). run.
    destruct (remove_from_spec zh1 _ NodeTable path w c H1) as (zh2 & -> & H2). run.
    destruct (remove_from_spec zh2 _ ExistTable path w c H2) as (zh3 & -> & H3).
    exists zh3. split; [done|]. intros t. specialize (H3 t). by destruct t.
  - exists zh. split; [done|]. intros t. by destruct t.
Qed.

Lemma pathHasWatcher_spec `{Host} zh A path type w c :
  watches_repr zh A → w ≠ 0 →
  pathHasWatcher zh path type w c =
    Ret (existsb (λ t, bool_decide (mk_wo w c ∈ watching A t path)) (type_tables type)).
Proof.
  intros HA Hw. unfold pathHasWatcher, type_tables.
  assert (∀ t, containsWatcher (get_table t zh) path w c =
    Ret (bool_decide (mk_wo w c ∈ watching A t path))) as Hc.
  { intros t. rewrite (containsWatcher_spec _ _ path w c (proj1 (HA t))).
    by rewrite (proj2 (Z.eqb_neq w 0)). }
  pose proof (Hc NodeTable) as Hn. pose proof (Hc ExistTable) as He.
  pose proof (Hc ChildTable) as Hch. simpl in Hn, He, Hch.
  destruct (type =? ZWATCHTYPE_CHILD); [|destruct (type =? ZWATCHTYPE_DATA);
    [|destruct (type =? ZWATCHTYPE_ANY)]]; rewrite ?Hn, ?He, ?Hch; run;
    unfold existsb; repeat (case_bool_decide; run); try done; by rewrite ?He, ?Hn.
Qed.

(**  Removal is exact.  [removeWatchers] with a watcher function removes that
    (function, context) pair from the path in the tables of the type, with a NULL one
    all watchers of the path there; no other registration changes.  Afterwards
    [pathHasWatcher] no longer finds the pair, and finds any other pair exactly when
    it was registered. *)
Theorem removeWatchers_exact (H : Host) (zh : watches) (A : registry) (path : cstring)
    (type w c : Z) :
  watches_repr zh A →
  ∃ zh' A', removeWatchers zh path type w c = Ret zh' ∧ watches_repr zh' A' ∧
    (∀ t p wo, wo ∈ watching A' t p ↔
       wo ∈ watching A t p ∧
       ¬ (t ∈ type_tables type ∧ p = path ∧ (w = 0 ∨ wo = mk_wo w c))) ∧
    ∀ w' c', w' ≠ 0 →
      pathHasWatcher zh' path type w' c' =
        Ret (bool_decide (w ≠ 0 ∧ (w', c') ≠ (w, c)) &&
             existsb (λ t, bool_decide (mk_wo w' c' ∈ watching A t path)) (type_tables type)).
Proof.
  intros HA. destruct (removeWatchers_spec zh A path type w c HA) as (zh' & E & HA').
  eexists zh', _. split; [done|]. split; [exact HA'|].
  assert (∀ t p wo, wo ∈ watching (λ t, if decide (t ∈ type_tables type)
      then unregister path w c (A t) else A t) t p ↔
    wo ∈ watching A t p ∧
    ¬ (t ∈ type_tables type ∧ p = path ∧ (w = 0 ∨ wo = mk_wo w c))) as Hw.
  { intros t p wo. unfold watching. case_decide; [|tauto].
    rewrite unregister_watching by apply HA. tauto. }
  split; [exact Hw|]. intros w' c' Hw'. rewrite (pathHasWatcher_spec zh' _ path type w' c' HA' Hw').
  f_equal. apply eq_bool_prop_intro. rewrite andb_True, !existb_True, !bool_decide_spec.
  rewrite !Exists_exists. setoid_rewrite bool_decide_spec. setoid_rewrite Hw. split.
  - intros (t & Ht & Hin & Hn). split; [|by exists t]. split; [intros ->; tauto|].
    intros [= -> ->]. tauto.
  - intros ([Hw0 Hne] & t & Ht & Hin). exists t. split; [done|]. split; [done|].
    intros (_ & _ & [?|[= -> ->]]); done.
Qed.

Lemma removeWatchers_exact_witness :
  ∃ zh' A', @removeWatchers sample_host sample_watches (lit "/a") ZWATCHTYPE_DATA 7 70 = Ret zh' ∧
    @watches_repr sample_host zh' A' ∧
    (∀ t p wo, wo ∈ watching A' t p ↔
       wo ∈ watching sample_registry t p ∧
       ¬ (t ∈ type_tables ZWATCHTYPE_DATA ∧ p = lit "/a" ∧ (7 = 0 ∨ wo = mk_wo 7 70))) ∧
    ∀ w' c', w' ≠ 0 →
      @pathHasWatcher sample_host zh' (lit "/a") ZWATCHTYPE_DATA w' c' =
        Ret (bool_decide (7 ≠ 0 ∧ (w', c') ≠ (7, 70)) &&
             existsb (λ t, bool_decide (mk_wo w' c' ∈ watching sample_registry t (lit "/a")))
               (type_tables ZWATCHTYPE_DATA)).
Proof. apply (removeWatchers_exact sample_host). exact sample_watches_repr. Defined.

Lemma call_watchers_spec l type state path :
  Forall (λ wo, wo_watcher wo ≠ 0) l →
  call_watchers l type state path =
    Ret ((λ wo, mk_callback (wo_watcher wo) type state path (wo_context wo)) <$> l).
Proof.
  induction 1 as [|wo l Hwo Hl IH]; simpl; [done|].
  rewrite (proj2 (Z.eqb_neq _ _)) by done. by rewrite IH.
Qed.

(** What a watcher sees.  [deliverWatchers] calls each watcher of the list once,
    in order, with its own context and the type and state of the event; for a node
    under the chroot the path is the client's own path, with the chroot stripped; a
    session event keeps its (empty) path.  The list is consumed: a second delivery
    calls nobody. *)
Theorem deliverWatchers_correct (chroot client_path : cstring) (type state mode : Z)
    (l : watcher_list) :
  Forall (λ wo, wo_watcher wo ≠ 0) l →
  isValidPath (Some chroot) 0 = true → chroot ≠ lit "/" →
  isValidPath (Some client_path) mode = true → type ≠ ZOO_SESSION_EVENT →
  ∃ server_path,
    prepend_string (Some chroot) (Some client_path) [] = Ret (Some server_path, []) ∧
    deliverWatchers (Some chroot) type state server_path (Some l) [] =
      Ret ((λ wo, mk_callback (wo_watcher wo) type state (Some client_path) (wo_context wo)) <$> l,
           None, []) ∧
    deliverWatchers (Some chroot) type state server_path None [] = Ret ([], None, []).
Proof.
  intros Hl Hc Hcr Hp Hty.
  destruct (chroot_inverse chroot client_path mode Hc Hcr Hp) as (sp & E1 & E2).
  exists sp. split; [done|]. split; [|done]. unfold deliverWatchers, do_foreach_watcher.
  rewrite (proj2 (Z.eqb_neq _ _)) by done. cbn [negb]. rewrite E2.
  by rewrite call_watchers_spec.
Qed.

Lemma deliverWatchers_correct_witness :
  ∃ server_path,
    prepend_string (Some (lit "/app")) (Some (lit "/a")) [] = Ret (Some server_path, []) ∧
    deliverWatchers (Some (lit "/app")) CHANGED_EVENT_DEF 3 server_path (Some [mk_wo 7 70]) [] =
      Ret ([mk_callback 7 CHANGED_EVENT_DEF 3 (Some (lit "/a")) 70], None, []) ∧
    deliverWatchers (Some (lit "/app")) CHANGED_EVENT_DEF 3 server_path None [] = Ret ([], None, []).
Proof.
  apply (deliverWatchers_correct (lit "/app") (lit "/a") CHANGED_EVENT_DEF 3 0 [mk_wo 7 70]);
    [by repeat constructor|by vm_compute..].
Defined.

(** Tables are enumerated completely.  [collect_keys] returns the number of
    watched paths and a copy of each exactly once, which is what [setWatches] sends
    when a session is resumed; [do_clean_hashtable] removes every entry. *)
Theorem collect_keys_correct (H : Host) (ht : zk_hashtable) (m : gmap cstring watcher_list) :
  tbl_repr ht m → room m →
  (∃ ks, collect_keys ht [] = Ret (Z.of_nat (size m), Some <$> ks, []) ∧ NoDup ks ∧
     ∀ k, k ∈ ks ↔ is_Some (m !! k)) ∧
  (∃ ht', do_clean_hashtable ht [] = Ret (ht', []) ∧ ht_repr ht' ∅).
Proof.
  intros Hr Hroom. split; [by apply collect_keys_spec|].
  destruct Hr as [Hr Hok]. destruct (do_clean_spec ht m Hr) as (ht' & E & Hwf & He).
  exists ht'. split; [done|]. split; [done|by rewrite He; constructor|].
  unfold to_map. by rewrite He.
Qed.

Lemma collect_keys_correct_witness :
  (∃ ks, collect_keys (active_node_watchers sample_watches) []
       = Ret (Z.of_nat (size (sample_registry NodeTable)), Some <$> ks, []) ∧ NoDup ks ∧
     ∀ k, k ∈ ks ↔ is_Some (sample_registry NodeTable !! k)) ∧
  (∃ ht', do_clean_hashtable (active_node_watchers sample_watches) []
       = Ret (ht', []) ∧ @ht_repr _ _ (@string_fns sample_host) _ _ ht' ∅).
Proof.
  apply (collect_keys_correct sample_host); apply (sample_watches_repr NodeTable).
Defined.
