(* ===== verification/Addrvec.v ===== *)
(** * addrvec.c and the choice of a server

    Vectors of server addresses (src/addrvec.c) and what src/zookeeper.c does with
    them: [update_addrs] splits a newly resolved server list into old and new servers
    and decides whether to move; [zoo_cycle_next_server] picks the next server to try.
    Probabilities are doubles, so they are binary64 values of [SpecFloat].  The
    resolver, [random] and [drand48] are arguments: the result of [resolve_hosts],
    the numbers drawn. *)

From Stdlib Require Import Floats.SpecFloat.
From S2P Require Import Prelude.
Local Open Scope Z_scope.

Abbreviation AF_INET := 2.
Abbreviation AF_INET6 := 10.
Abbreviation ZBADARGUMENTS := (-8).
Abbreviation ZSYSTEMERROR := (-1).
Abbreviation ZOO_NOTCONNECTED_STATE := 999.

(** [struct sockaddr_storage]: the family, the bytes of [sin_addr] or [sin6_addr], and
    the rest (port, flow and scope). *)
Record sockaddr := mk_sockaddr { ss_family : Z; sa_addr : list byte; sa_rest : list byte }.
Definition zero_sockaddr : sockaddr := mk_sockaddr 0 [] [].
Global Instance sockaddr_eq_dec : EqDecision sockaddr.
Proof. solve_decision. Defined.

(** [addrvec_t]: [av_data] holds the elements below [count] of the block. *)
Record addrvec := mk_addrvec {
  av_next : Z;
  av_count : Z;
  av_capacity : Z;
  av_data : option (list sockaddr);
}.

Definition ADDRVEC_DEFAULT_GROW_AMOUNT : Z := 16.

Definition addrvec_init : addrvec := mk_addrvec 0 0 0 None.
Definition addrvec_free (avec : option addrvec) : option addrvec :=
  match avec with None => None | Some _ => Some (mk_addrvec 0 0 0 None) end.

(** [sizeof(struct sockaddr_storage)]. *)
Definition sizeof_sockaddr : Z := 128.

Definition addrvec_grow (avec : addrvec) (grow_amount : Z) (o : allocs)
    : Z * addrvec * allocs :=
  if grow_amount =? 0 then (0, avec, o) else
  let capacity := uint32 (av_capacity avec + grow_amount) in
  let '(ok, o) := alloc_bytes (sizeof_sockaddr * capacity) o in
  if ok : bool then
    (0, mk_addrvec (av_next avec) (av_count avec) capacity
          (Some (default [] (av_data avec))), o)
  else (1, avec, o).
Definition addrvec_grow_default (avec : addrvec) (o : allocs) : Z * addrvec * allocs :=
  addrvec_grow avec ADDRVEC_DEFAULT_GROW_AMOUNT o.
Definition addrvec_alloc (o : allocs) : Z * addrvec * allocs :=
  addrvec_grow_default addrvec_init o.
Definition addrvec_alloc_capacity (capacity : Z) (o : allocs) : Z * addrvec * allocs :=
  addrvec_grow addrvec_init capacity o.

Definition addrvec_grow_if_full (avec : addrvec) (o : allocs) : Z * addrvec * allocs :=
  if av_count avec =? av_capacity avec then addrvec_grow_default avec o else (0, avec, o).

(** [avec->data[i]]. *)
Definition data_at (avec : addrvec) (i : Z) : outcome sockaddr :=
  match av_data avec ≫= λ d, d !! Z.to_nat i with
  | Some a => if 0 <=? i then Ret a else UB
  | None => UB
  end.

(** The comparison in the loop of [addrvec_contains]: family and address, not port. *)
Definition same_address (a b : sockaddr) : bool :=
  (ss_family a =? ss_family b) &&
  ((ss_family b =? AF_INET) || (ss_family b =? AF_INET6)) &&
  bool_decide (sa_addr a = sa_addr b).

Fixpoint contains_loop (avec : addrvec) (addr : sockaddr) (n : nat) (i : Z) : outcome bool :=
  match n with
  | O => Ret false
  | S n => d ← data_at avec i;
           if same_address d addr then Ret true else contains_loop avec addr n (i + 1)
  end.
Definition addrvec_contains (avec : option addrvec) (addr : option sockaddr) : outcome bool :=
  match avec, addr with
  | Some avec, Some addr => contains_loop avec addr (Z.to_nat (av_count avec)) 0
  | _, _ => Ret false
  end.

(** [memcpy] of one element to [avec->data + avec->count]. *)
Definition append_at (avec : addrvec) (addr : sockaddr) : outcome addrvec :=
  match av_data avec with
  | Some d =>
      if (0 <=? av_count avec) && (av_count avec <? av_capacity avec)
      then Ret (mk_addrvec (av_next avec) (uint32 (av_count avec + 1)) (av_capacity avec)
                  (Some (take (Z.to_nat (av_count avec)) d ++ [addr])))
      else UB
  | None => UB
  end.
Definition addrvec_append (avec : addrvec) (addr : sockaddr) (o : allocs)
    : outcome (Z * addrvec * allocs) :=
  let '(rc, avec, o) := addrvec_grow_if_full avec o in
  if negb (rc =? 0) then Ret (rc, avec, o) else
  avec ← append_at avec addr;
  Ret (0, avec, o).
(** [addrvec_append_addrinfo]: [addrinfo->ai_addr] is the address appended. *)
Definition addrvec_append_addrinfo := addrvec_append.

(** The loop of [addrvec_shuffle], downwards from [i]; [rnd] are the numbers that
    [random] returns, one per iteration. *)
Definition swap (d : list sockaddr) (i j : nat) : list sockaddr :=
  match d !! i, d !! j with
  | Some x, Some y => <[j := x]> (<[i := y]> d)
  | _, _ => d
  end.
Fixpoint shuffle_loop (d : list sockaddr) (i : nat) (rnd : list Z) : list sockaddr :=
  match i with
  | O => d
  | S i' =>
      let r := default 0 (head rnd) in
      let j := r mod (Z.of_nat i + 1) in
      let d := if negb (Z.of_nat i =? j) then swap d i (Z.to_nat j) else d in
      shuffle_loop d i' (tail rnd)
  end.
Definition addrvec_shuffle (avec : addrvec) (rnd : list Z) : addrvec :=
  mk_addrvec (av_next avec) (av_count avec) (av_capacity avec)
    ((λ d, shuffle_loop d (Z.to_nat (int32 (av_count avec - 1))) rnd) <$> av_data avec).

Definition addrvec_hasnext (avec : addrvec) : bool :=
  (0 <? av_count avec) && (av_next avec <? av_count avec).
Definition addrvec_atend (avec : addrvec) : bool :=
  (0 <? av_count avec) && (av_count avec <=? av_next avec).

Definition set_next (n : Z) (avec : addrvec) : addrvec :=
  mk_addrvec n (av_count avec) (av_capacity avec) (av_data avec).

(** The address stored through [next], which the callers pass non-NULL. *)
Definition addrvec_next (avec : addrvec) : outcome (sockaddr * addrvec) :=
  let avec := if addrvec_atend avec then set_next 0 avec else avec in
  if negb (addrvec_hasnext avec) then Ret (zero_sockaddr, avec) else
  let index := av_next avec in
  let avec := set_next (uint32 (av_next avec + 1)) avec in
  a ← data_at avec index;
  Ret (a, avec).

Definition addrvec_peek (avec : addrvec) : outcome sockaddr :=
  let index := av_next avec in
  if av_count avec =? 0 then Ret zero_sockaddr else
  let index := if addrvec_atend avec then 0 else index in
  data_at avec index.

Fixpoint eq_loop (a1 a2 : addrvec) (n : nat) (i : Z) : outcome bool :=
  match n with
  | O => Ret true
  | S n => d ← data_at a1 i;
           found ← addrvec_contains (Some a2) (Some d);
           if found : bool then eq_loop a1 a2 n (i + 1) else Ret false
  end.
Definition addrvec_eq (a1 a2 : addrvec) : outcome bool :=
  if negb (av_count a1 =? av_count a2) then Ret false
  else eq_loop a1 a2 (Z.to_nat (av_count a1)) 0.

(** ** The servers of a handle *)

(** The fields of [zhandle_t] that [lock_reconfig] guards, with [fd] and [state]. *)
Record servers := mk_servers {
  sv_hostname : option cstring;
  sv_addrs : addrvec;
  sv_addrs_old : addrvec;
  sv_addrs_new : addrvec;
  sv_addr_cur : sockaddr;
  sv_reconfig : Z;
  sv_pOld : spec_float;
  sv_pNew : spec_float;
  sv_fd : Z;
  sv_state : Z;
}.

Definition double_of_Z (z : Z) : spec_float := binary_normalize 53 1024 z 0 false.
Definition dsub : spec_float → spec_float → spec_float := SFsub 53 1024.
Definition ddiv : spec_float → spec_float → spec_float := SFdiv 53 1024.
Definition double_one : spec_float := double_of_Z 1.

Definition with_lists (old new : addrvec) (sv : servers) : servers :=
  mk_servers (sv_hostname sv) (sv_addrs sv) old new (sv_addr_cur sv) (sv_reconfig sv)
    (sv_pOld sv) (sv_pNew sv) (sv_fd sv) (sv_state sv).
Definition with_reconfig (r : Z) (sv : servers) : servers :=
  mk_servers (sv_hostname sv) (sv_addrs sv) (sv_addrs_old sv) (sv_addrs_new sv)
    (sv_addr_cur sv) r (sv_pOld sv) (sv_pNew sv) (sv_fd sv) (sv_state sv).
Definition with_probabilities (pOld pNew : spec_float) (sv : servers) : servers :=
  mk_servers (sv_hostname sv) (sv_addrs sv) (sv_addrs_old sv) (sv_addrs_new sv)
    (sv_addr_cur sv) (sv_reconfig sv) pOld pNew (sv_fd sv) (sv_state sv).
Definition with_addrs (a : addrvec) (sv : servers) : servers :=
  mk_servers (sv_hostname sv) a (sv_addrs_old sv) (sv_addrs_new sv) (sv_addr_cur sv)
    (sv_reconfig sv) (sv_pOld sv) (sv_pNew sv) (sv_fd sv) (sv_state sv).
Definition with_cur (a : sockaddr) (sv : servers) : servers :=
  mk_servers (sv_hostname sv) (sv_addrs sv) (sv_addrs_old sv) (sv_addrs_new sv) a
    (sv_reconfig sv) (sv_pOld sv) (sv_pNew sv) (sv_fd sv) (sv_state sv).
Definition with_hostname (hn : option cstring) (sv : servers) : servers :=
  mk_servers hn (sv_addrs sv) (sv_addrs_old sv) (sv_addrs_new sv) (sv_addr_cur sv)
    (sv_reconfig sv) (sv_pOld sv) (sv_pNew sv) (sv_fd sv) (sv_state sv).
Definition disconnected (sv : servers) : servers :=
  mk_servers (sv_hostname sv) (sv_addrs sv) (sv_addrs_old sv) (sv_addrs_new sv)
    (sv_addr_cur sv) (sv_reconfig sv) (sv_pOld sv) (sv_pNew sv) (-1) ZOO_NOTCONNECTED_STATE.

(** The loop that divides the resolved servers; stops at the first failing append. *)
Fixpoint divide_loop (addrs : addrvec) (resolved : list sockaddr) (old new : addrvec)
    (o : allocs) : outcome (Z * addrvec * addrvec * allocs) :=
  match resolved with
  | [] => Ret (0, old, new, o)
  | a :: resolved =>
      known ← addrvec_contains (Some addrs) (Some a);
      if known : bool then
        '(rc, old, o) ← addrvec_append old a o;
        if negb (rc =? 0) then Ret (rc, old, new, o)
        else divide_loop addrs resolved old new o
      else
        '(rc, new, o) ← addrvec_append new a o;
        if negb (rc =? 0) then Ret (rc, old, new, o)
        else divide_loop addrs resolved old new o
  end.

(** Whether to move, and with which probabilities. *)
Definition decide_move (sv : servers) (found_current : bool) (num_old num_new : Z)
    (drand : spec_float) : servers :=
  let total := uint32 (num_old + num_new) in
  let count := av_count (sv_addrs sv) in
  if count <? total then
    if found_current then
      if SFleb drand (dsub double_one (ddiv (double_of_Z count) (double_of_Z total)))
      then with_probabilities (double_of_Z 0) double_one sv
      else with_reconfig 0 sv
    else with_probabilities (double_of_Z 0) double_one sv
  else
    if found_current then with_reconfig 0 sv
    else
      let pOld := ddiv (double_of_Z (uint32 (num_old * uint32 (count - total))))
                       (double_of_Z (uint32 (total * uint32 (count - num_old)))) in
      with_probabilities pOld (dsub double_one pOld) sv.

(** [resolve_hosts(zh, hosts, &resolved)], as its callers use it (Hosts.v). *)
Abbreviation resolver := (cstring → allocs → outcome (Z * addrvec * allocs)).

(** [update_addrs], given the [resolver]. *)
Definition update_addrs (zh : option servers) (resolve : resolver)
    (drand : spec_float) (o : allocs) : outcome (Z * option servers * allocs) :=
  match zh with
  | None => Ret (ZBADARGUMENTS, None, o)
  | Some sv =>
      match sv_hostname sv with
      | None => Ret (ZSYSTEMERROR, Some sv, o)
      | Some hostname =>
          let '(ok, o) := alloc o in
          if negb ok then Ret (ZSYSTEMERROR, Some sv, o) else
          '(rc, resolved, o) ← resolve hostname o;
          if negb (rc =? 0) then Ret (rc, Some sv, o) else
          same ← addrvec_eq (sv_addrs sv) resolved;
          if same : bool then Ret (rc, Some sv, o) else
          found_current ← addrvec_contains (Some resolved) (Some (sv_addr_cur sv));
          let sv := with_reconfig 1 sv in
          '(rc, old, new, o) ←
            divide_loop (sv_addrs sv) (take (Z.to_nat (av_count resolved))
              (default [] (av_data resolved))) addrvec_init addrvec_init o;
          let sv := with_lists old new sv in
          if negb (rc =? 0) then Ret (rc, Some sv, o) else
          let sv := decide_move sv found_current (av_count old) (av_count new) drand in
          let sv := with_addrs resolved sv in
          let sv := if (sv_reconfig sv =? 1) && negb (sv_fd sv =? -1)
                    then disconnected sv else sv in
          Ret (rc, Some sv, o)
      end
  end.

Definition zoo_set_servers (zh : servers) (hosts : option cstring)
    (resolve : resolver) (drand : spec_float) (o : allocs)
    : outcome (Z * option servers * allocs) :=
  match hosts with
  | None => Ret (ZBADARGUMENTS, Some zh, o)
  | Some hosts =>
      let '(ok, o) := alloc o in
      update_addrs (Some (with_hostname (if ok : bool then Some hosts else None) zh))
        resolve drand o
  end.

Definition get_next_server_in_reconfig (sv : servers) (drand : spec_float)
    : outcome (Z * servers) :=
  let take_new := SFleb drand (sv_pNew sv) in
  if addrvec_hasnext (sv_addrs_new sv) &&
     (take_new || negb (addrvec_hasnext (sv_addrs_old sv)))
  then '(a, new) ← addrvec_next (sv_addrs_new sv);
       Ret (0, with_cur a (with_lists (sv_addrs_old sv) new sv))
  else if addrvec_hasnext (sv_addrs_old sv) then
    '(a, old) ← addrvec_next (sv_addrs_old sv);
    Ret (0, with_cur a (with_lists old (sv_addrs_new sv) sv))
  else Ret (1, with_cur zero_sockaddr sv).

Definition zoo_cycle_next_server (sv : servers) (drand : spec_float) : outcome servers :=
  let sv := with_cur zero_sockaddr sv in
  '(found, sv) ← (if negb (sv_reconfig sv =? 0) then
                    '(rc, sv) ← get_next_server_in_reconfig sv drand;
                    if rc =? 0 then Ret (true, sv) else Ret (false, with_reconfig 0 sv)
                  else Ret (false, sv));
  if found : bool then Ret sv else
  '(a, addrs) ← addrvec_next (sv_addrs sv);
  Ret (with_cur a (with_addrs addrs sv)).
