(* ===== verification/AddrvecFacts.v ===== *)
(** * Facts about server lists

    The invariant of address vectors; shuffling permutes, [addrvec_next] goes round;
    [update_addrs] partitions the resolved servers and [zoo_cycle_next_server] tries
    each of them. *)

From Stdlib Require Import Floats.SpecFloat.
From S2P Require Import Prelude Addrvec.
Local Open Scope Z_scope.

Implicit Types a : addrvec.

Definition elems a : list sockaddr := default [] (av_data a).

(** The invariant: [count] elements, within the capacity; [next] does not overrun. *)
Record av_wf a : Prop := {
  av_count_ok : av_count a = Z.of_nat (length (elems a));
  av_capacity_ok : av_count a ≤ av_capacity a < 2 ^ 32;
  av_next_ok : 0 ≤ av_next a ≤ av_count a;
  av_data_ok : av_data a = None → av_capacity a = 0;
}.

Lemma addrvec_init_wf : av_wf addrvec_init.
Proof. by split; simpl. Qed.

Lemma data_at_lookup a i x :
  elems a !! i = Some x → data_at a (Z.of_nat i) = Ret x.
Proof.
  unfold data_at, elems. intros Hx. rewrite Nat2Z.id. destruct (av_data a) as [d|]; [|done].
  simpl in *. rewrite Hx. by rewrite (proj2 (Z.leb_le _ _)) by lia.
Qed.

(** ** Membership *)
Lemma contains_loop_spec a addr n i :
  (i + n)%nat = length (elems a) →
  contains_loop a addr n (Z.of_nat i) = Ret (existsb (λ d, same_address d addr) (drop i (elems a))).
Proof.
  revert i. induction n as [|n IH]; intros i Hi; simpl.
  - by rewrite drop_ge by lia.
  - destruct (lookup_lt_is_Some_2 (elems a) i) as [x Hx]; [lia|].
    rewrite (data_at_lookup a i x Hx). run. rewrite (drop_S _ _ _ Hx). simpl.
    destruct (same_address x addr); [done|].
    replace (Z.of_nat i + 1) with (Z.of_nat (S i)) by lia. apply IH. lia.
Qed.

Definition known (a : addrvec) (x : sockaddr) : bool :=
  existsb (λ d, same_address d x) (elems a).

Lemma addrvec_contains_spec a x :
  av_wf a → addrvec_contains (Some a) (Some x) = Ret (known a x).
Proof.
  intros Hwf. unfold addrvec_contains. rewrite (av_count_ok _ Hwf), Nat2Z.id.
  by apply (contains_loop_spec a x (length (elems a)) 0).
Qed.

Lemma eq_loop_spec a1 a2 n i :
  av_wf a2 → (i + n)%nat = length (elems a1) →
  eq_loop a1 a2 n (Z.of_nat i) = Ret (forallb (known a2) (drop i (elems a1))).
Proof.
  intros Hwf. revert i. induction n as [|n IH]; intros i Hi; cbn [eq_loop].
  - by rewrite drop_ge by lia.
  - destruct (lookup_lt_is_Some_2 (elems a1) i) as [x Hx]; [lia|].
    rewrite (data_at_lookup a1 i x Hx). run. rewrite addrvec_contains_spec by done. run.
    rewrite (drop_S _ _ _ Hx). cbn [forallb]. destruct (known a2 x); [|done].
    replace (Z.of_nat i + 1) with (Z.of_nat (S i)) by lia. apply IH. lia.
Qed.

Lemma addrvec_eq_spec a1 a2 :
  av_wf a1 → av_wf a2 →
  addrvec_eq a1 a2 =
    Ret ((length (elems a1) =? length (elems a2))%nat && forallb (known a2) (elems a1)).
Proof.
  intros H1 H2. unfold addrvec_eq. rewrite (av_count_ok _ H1), (av_count_ok _ H2).
  destruct (Nat.eqb_spec (length (elems a1)) (length (elems a2))) as [E|E].
  - rewrite E, Z.eqb_refl, <-E, Nat2Z.id. cbn [negb].
    apply (eq_loop_spec a1 a2 (length (elems a1)) 0 H2 eq_refl).
  - by rewrite (proj2 (Z.eqb_neq _ _)) by lia.
Qed.

(** ** Appending *)
Lemma addrvec_append_spec a x o :
  av_wf a → av_count a < 2 ^ 31 →
  (∃ a' o', addrvec_append a x o = Ret (0, a', o') ∧ av_wf a' ∧
     elems a' = elems a ++ [x] ∧ av_next a' = av_next a ∧ (o = [] → o' = [])) ∨
  (∃ o', addrvec_append a x o = Ret (1, a, o') ∧ o ≠ []).
Proof.
  intros Hwf Hsmall. pose proof Hwf as [Hc Hcap Hn Hd].
  unfold addrvec_append, addrvec_grow_if_full, addrvec_grow_default, addrvec_grow.
  destruct (Z.eqb_spec (av_count a) (av_capacity a)) as [Hfull|Hroom].
  - change (ADDRVEC_DEFAULT_GROW_AMOUNT =? 0) with false. cbv iota.
    unfold ADDRVEC_DEFAULT_GROW_AMOUNT, sizeof_sockaddr, alloc_bytes.
    rewrite (wrap_u_id 32 (av_capacity a + 16)) by (unfold in_u; lia).
    rewrite (proj2 (Z.ltb_lt _ _)) by lia.
    destruct (alloc o) as [[] o'] eqn:Eo.
    + left. cbn [Z.eqb negb]. unfold append_at. cbn [av_data av_count av_capacity av_next].
      rewrite (proj2 (Z.leb_le _ _)), (proj2 (Z.ltb_lt _ _)) by lia. cbn [andb]. run.
      fold (elems a). rewrite (wrap_u_id 32) by (unfold in_u; lia).
      rewrite take_ge by lia. eexists _, _. split; [done|].
      split_and!; [|done|done|by intros ->; injection Eo].
      split; cbn [elems av_data av_count av_capacity av_next from_option id];
        rewrite ?length_app; simpl; (done || lia).
    + right. exists o'. split; [done|]. by intros ->.
  - left. cbn [Z.eqb negb]. unfold append_at. destruct (av_data a) as [d|] eqn:Ed.
    2: { specialize (Hd eq_refl). unfold elems in Hc. rewrite Ed in Hc. simpl in Hc. lia. }
    unfold elems in *. rewrite Ed in *. cbn [from_option id] in *.
    rewrite (proj2 (Z.leb_le _ _)), (proj2 (Z.ltb_lt _ _)) by lia. cbn [andb]. run.
    rewrite (wrap_u_id 32) by (unfold in_u; lia). rewrite take_ge by lia.
    eexists _, _. split; [done|]. split_and!; [|done..].
    split; unfold elems; cbn [av_data av_count av_capacity av_next from_option id];
      rewrite ?length_app; simpl; (done || lia).
Qed.

(** ** Shuffling *)
Lemma swap_perm d i j : swap d i j ≡ₚ d.
Proof.
  unfold swap. destruct (d !! i) as [x|] eqn:Hi; [|done].
  destruct (d !! j) as [y|] eqn:Hj; [|done]. by apply Permutation_insert_swap.
Qed.

Lemma shuffle_loop_perm d i rnd : shuffle_loop d i rnd ≡ₚ d.
Proof.
  revert d rnd. induction i as [|i IH]; intros d rnd; [done|]. cbn [shuffle_loop].
  rewrite IH. destruct (negb _); [apply swap_perm|done].
Qed.

Lemma addrvec_shuffle_spec a rnd :
  av_wf a → av_wf (addrvec_shuffle a rnd) ∧ elems (addrvec_shuffle a rnd) ≡ₚ elems a.
Proof.
  intros [Hc Hcap Hn Hd].
  assert (elems (addrvec_shuffle a rnd) ≡ₚ elems a) as Hp.
  { unfold elems, addrvec_shuffle; cbn [av_data]. destruct (av_data a); simpl; [|done].
    apply shuffle_loop_perm. }
  split; [|done]. split; [by rewrite Hp|done..|].
  unfold addrvec_shuffle; cbn [av_data av_capacity]. by destruct (av_data a).
Qed.

(** ** Round robin *)

(** Where [addrvec_next] reads. *)
Definition cursor a : nat :=
  if decide (av_next a = av_count a) then 0 else Z.to_nat (av_next a).

Lemma addrvec_next_spec a :
  av_wf a → elems a ≠ [] →
  ∃ x a', addrvec_next a = Ret (x, a') ∧ elems a !! cursor a = Some x ∧ av_wf a' ∧
    elems a' = elems a ∧ av_next a' = Z.of_nat (cursor a) + 1.
Proof.
  intros Hwf Hne. pose proof Hwf as [Hc Hcap Hn Hd].
  assert (0 < length (elems a))%nat as Hlen by (destruct (elems a); [done|simpl; lia]).
  set (a1 := if addrvec_atend a then set_next 0 a else a).
  assert (av_next a1 = Z.of_nat (cursor a) ∧ elems a1 = elems a ∧ av_count a1 = av_count a ∧
    av_capacity a1 = av_capacity a ∧ av_data a1 = av_data a) as (Hn1 & He1 & Hc1 & Hcap1 & Hd1).
  { unfold a1, addrvec_atend, cursor. rewrite (proj2 (Z.ltb_lt _ _)) by lia. cbn [andb].
    destruct (Z.leb_spec (av_count a) (av_next a)); case_decide; simpl; split_and!; done || lia. }
  assert (cursor a < length (elems a))%nat as Hcur by (unfold cursor; case_decide; lia).
  destruct (lookup_lt_is_Some_2 (elems a) (cursor a) Hcur) as [x Hx].
  unfold addrvec_next. fold a1. unfold addrvec_hasnext. rewrite Hc1, Hn1.
  rewrite (proj2 (Z.ltb_lt _ _)), (proj2 (Z.ltb_lt _ _)) by lia. cbn [andb negb].
  rewrite (wrap_u_id 32) by (unfold in_u; lia).
  rewrite (data_at_lookup (set_next _ a1) (cursor a) x)
    by (unfold elems, set_next; cbn [av_data]; by rewrite Hd1).
  run. eexists x, _. split; [done|]. split; [done|].
  assert (∀ n, elems (set_next n a1) = elems a) as Hes
    by (intros n; unfold elems, set_next; cbn [av_data]; by rewrite Hd1).
  split_and!; [|by rewrite Hes|done]. split; cbn [set_next av_count av_capacity av_next av_data].
  - rewrite Hc1. etransitivity; [exact Hc|]. by rewrite Hes.
  - by rewrite Hc1, Hcap1.
  - lia.
  - by rewrite Hd1, Hcap1.
Qed.

Lemma cursor_mod a :
  av_wf a → elems a ≠ [] → Z.of_nat (cursor a) = av_next a mod av_count a.
Proof.
  intros [Hc Hcap Hn Hd] Hne. unfold cursor.
  assert (0 < length (elems a))%nat by (destruct (elems a); [done|simpl; lia]).
  case_decide as E; [rewrite E, Z.mod_same; lia|].
  rewrite Z.mod_small; lia.
Qed.

(** The addresses [n] calls of [addrvec_next] return. *)
Fixpoint take_next (n : nat) a : outcome (list sockaddr * addrvec) :=
  match n with
  | O => Ret ([], a)
  | S n => '(x, a) ← addrvec_next a; '(xs, a) ← take_next n a; Ret (x :: xs, a)
  end.

Lemma take_next_spec n a :
  av_wf a → elems a ≠ [] →
  ∃ xs a', take_next n a = Ret (xs, a') ∧ av_wf a' ∧ elems a' = elems a ∧ length xs = n ∧
    ∀ k : nat, (k < n)%nat →
      xs !! k = elems a !! Z.to_nat ((av_next a + Z.of_nat k) mod av_count a).
Proof.
  revert a. induction n as [|n IH]; intros a Hwf Hne; cbn [take_next].
  - exists [], a. split_and!; done || lia.
  - destruct (addrvec_next_spec a Hwf Hne) as (x & a1 & -> & Hx & Hwf1 & He1 & Hn1). run.
    destruct (IH a1 Hwf1) as (xs & a2 & -> & Hwf2 & He2 & Hl & Hxs); [by rewrite He1|]. run.
    exists (x :: xs), a2. split_and!; [done..|by rewrite He2, He1|simpl; lia|].
    pose proof (cursor_mod a Hwf Hne) as Hcm.
    assert (av_count a1 = av_count a) as Hcc.
    { by rewrite (av_count_ok _ Hwf1), (av_count_ok _ Hwf), He1. }
    assert (av_count a ≠ 0) as Hnz.
    { rewrite (av_count_ok _ Hwf). destruct (elems a); [done|simpl; lia]. }
    intros [|k] Hk.
    + by rewrite Z.add_0_r, <-Hcm, Nat2Z.id.
    + cbn [lookup list_lookup]. rewrite Hxs, He1, Hn1, Hcc, Hcm by lia. f_equal. f_equal.
      rewrite <-Z.add_assoc, Z.add_mod_idemp_l by done. f_equal. lia.
Qed.

(** ** Dividing the resolved servers *)
Lemma divide_loop_spec addrs r old new :
  av_wf addrs → av_wf old → av_wf new →
  Z.of_nat (length (elems old) + length (elems new) + length r) < 2 ^ 31 →
  ∃ old' new', divide_loop addrs r old new [] = Ret (0, old', new', []) ∧
    av_wf old' ∧ av_wf new' ∧
    elems old' = elems old ++ filter (λ x, known addrs x = true) r ∧
    elems new' = elems new ++ filter (λ x, known addrs x ≠ true) r ∧
    av_next old' = av_next old ∧ av_next new' = av_next new.
Proof.
  intros Ha. revert old new. induction r as [|x r IH]; intros old new Ho Hn Hs; cbn [divide_loop].
  - exists old, new. rewrite !app_nil_r. done.
  - rewrite addrvec_contains_spec by done. run. simpl in Hs.
    pose proof (av_count_ok _ Ho). pose proof (av_count_ok _ Hn).
    destruct (known addrs x) eqn:Ek.
    + destruct (addrvec_append_spec old x [] Ho) as [(o1 & al & -> & Hw & He & Hx & Hal)|(? & _ & ?)];
        [lia| |done]. rewrite (Hal eq_refl). run.
      destruct (IH o1 new) as (o2 & n2 & -> & ? & ? & Heo & Hen & ? & ?); [done..| |].
      { rewrite He, length_app. simpl. lia. }
      exists o2, n2. rewrite filter_cons_True, filter_cons_False by (done || congruence).
      rewrite He, <-app_assoc in Heo. split_and!; try done. congruence.
    + destruct (addrvec_append_spec new x [] Hn) as [(n1 & al & -> & Hw & He & Hx & Hal)|(? & _ & ?)];
        [lia| |done]. rewrite (Hal eq_refl). run.
      destruct (IH old n1) as (o2 & n2 & -> & ? & ? & Heo & Hen & ? & ?); [done..| |].
      { rewrite He, length_app. simpl. lia. }
      exists o2, n2. rewrite filter_cons_False, filter_cons_True by (done || congruence).
      rewrite He, <-app_assoc in Hen. split_and!; try done. congruence.
Qed.

(** ** Picking servers in reconfig mode *)
Definition untried a : list sockaddr := drop (Z.to_nat (av_next a)) (elems a).

Lemma hasnext_untried a : av_wf a → addrvec_hasnext a = negb (bool_decide (untried a = [])).
Proof.
  intros [Hc Hcap Hn Hd]. unfold addrvec_hasnext, untried.
  assert (drop (Z.to_nat (av_next a)) (elems a) = [] ↔ av_count a ≤ av_next a) as He.
  { rewrite <-length_zero_iff_nil, length_drop. lia. }
  case_bool_decide as E; simpl.
  - apply He in E. by rewrite (proj2 (Z.ltb_ge (av_next a) _)), andb_false_r.
  - assert (¬ av_count a ≤ av_next a) by (by rewrite <-He).
    by rewrite (proj2 (Z.ltb_lt (av_next a) _)), (proj2 (Z.ltb_lt 0 _)) by lia.
Qed.

(** Taking a server that has not been tried. *)
Lemma next_untried a x rest :
  av_wf a → untried a = x :: rest →
  ∃ a', addrvec_next a = Ret (x, a') ∧ av_wf a' ∧ elems a' = elems a ∧ untried a' = rest.
Proof.
  intros Hwf Hu. pose proof Hwf as [Hc Hcap Hn Hd]. unfold untried in Hu.
  assert (elems a ≠ []) as Hne by (intros E; by rewrite E, drop_nil in Hu).
  destruct (addrvec_next_spec a Hwf Hne) as (y & a' & -> & Hy & Hwf' & He & Hn').
  assert (av_next a ≠ av_count a) as Hlt.
  { intros E. apply (f_equal length) in Hu. rewrite length_drop in Hu. simpl in Hu. lia. }
  unfold cursor in Hy, Hn'. rewrite decide_False in Hy, Hn' by done.
  assert (elems a !! Z.to_nat (av_next a) = Some x) as Hx.
  { rewrite <-(Nat.add_0_r (Z.to_nat _)), <-lookup_drop, Hu. done. }
  exists a'. split_and!; [congruence|done..|]. unfold untried.
  rewrite He, Hn'. replace (Z.to_nat (Z.of_nat (Z.to_nat (av_next a)) + 1))
    with (Z.to_nat (av_next a) + 1)%nat by lia.
  by rewrite <-drop_drop, Hu.
Qed.

Record lists_wf (sv : servers) : Prop := {
  lw_addrs : av_wf (sv_addrs sv);
  lw_old : av_wf (sv_addrs_old sv);
  lw_new : av_wf (sv_addrs_new sv);
}.

(** One step while some server is untried: it is one of them, whatever the number
    drawn, and reconfig mode goes on. *)
Lemma cycle_reconfig_step sv drand :
  lists_wf sv → sv_reconfig sv = 1 →
  untried (sv_addrs_old sv) ++ untried (sv_addrs_new sv) ≠ [] →
  ∃ sv', zoo_cycle_next_server sv drand = Ret sv' ∧ lists_wf sv' ∧ sv_reconfig sv' = 1 ∧
    sv_addrs sv' = sv_addrs sv ∧ sv_pNew sv' = sv_pNew sv ∧
    untried (sv_addrs_old sv) ++ untried (sv_addrs_new sv) ≡ₚ
      sv_addr_cur sv' :: untried (sv_addrs_old sv') ++ untried (sv_addrs_new sv').
Proof.
  intros [Ha Ho Hn] Hr Hne. unfold zoo_cycle_next_server.
  cbn [sv_reconfig with_cur]. rewrite Hr. cbn [Z.eqb negb].
  unfold get_next_server_in_reconfig. cbn [sv_pNew sv_addrs_new sv_addrs_old with_cur].
  rewrite !hasnext_untried by done.
  destruct (untried (sv_addrs_new sv)) as [|n ns] eqn:En.
  - rewrite (bool_decide_eq_true_2 ([] = [])) by done. cbn [negb andb].
    destruct (untried (sv_addrs_old sv)) as [|x xs] eqn:Eo; [done|]. cbn [bool_decide].
    rewrite bool_decide_eq_false_2 by done. cbn [negb].
    destruct (next_untried _ _ _ Ho Eo) as (o' & -> & Ho' & _ & Eu). run.
    eexists. split; [done|]. split_and!; try done. cbn. by rewrite Eu, En.
  - rewrite (bool_decide_eq_false_2 (n :: ns = [])) by done. cbn [negb andb].
    destruct (SFleb drand (sv_pNew sv) || _) eqn:Et.
    + destruct (next_untried _ _ _ Hn En) as (n' & -> & Hn' & _ & Eu). run.
      eexists. split; [done|]. split_and!; try done. cbn. rewrite Eu.
      by rewrite Permutation_middle.
    + apply orb_false_iff in Et as [_ Et]. case_bool_decide as Eo; [done|]. cbn [negb].
      destruct (untried (sv_addrs_old sv)) as [|x xs] eqn:Eou; [done|].
      destruct (next_untried _ _ _ Ho Eou) as (o' & -> & Ho' & _ & Eu). run.
      eexists. split; [done|]. split_and!; try done. cbn. by rewrite Eu, En.
Qed.

(** The choice of a server leaves the connection alone. *)
Lemma cycle_frame sv drand sv' :
  zoo_cycle_next_server sv drand = Ret sv' →
  sv_fd sv' = sv_fd sv ∧ sv_state sv' = sv_state sv ∧ sv_hostname sv' = sv_hostname sv.
Proof.
  assert (∀ sv rc sv', get_next_server_in_reconfig sv drand = Ret (rc, sv') →
    sv_fd sv' = sv_fd sv ∧ sv_state sv' = sv_state sv ∧ sv_hostname sv' = sv_hostname sv) as Hg.
  { clear. intros sv rc sv'. unfold get_next_server_in_reconfig.
    destruct (_ && _); [|destruct (addrvec_hasnext _); [|by intros [= _ <-]]];
      intros E; apply bind_Ret_inv in E as ([a l] & _ & [= _ <-]); done. }
  unfold zoo_cycle_next_server. intros E. apply bind_Ret_inv in E as ([found sv1] & E1 & E).
  assert (sv_fd sv1 = sv_fd sv ∧ sv_state sv1 = sv_state sv ∧ sv_hostname sv1 = sv_hostname sv) as H1.
  { destruct (negb _); [|by injection E1 as <- <-].
    apply bind_Ret_inv in E1 as ([rc sv2] & E2 & E1). apply Hg in E2.
    destruct (rc =? 0); injection E1 as <- <-; done. }
  destruct found; [by injection E as <-|].
  apply bind_Ret_inv in E as ([a l] & _ & [= <-]). done.
Qed.

(** The server that is chosen: one that is untried in reconfig mode, otherwise the one
    under the cursor. *)
Definition chosen (sv : servers) (x : sockaddr) : Prop :=
  let left_ := untried (sv_addrs_old sv) ++ untried (sv_addrs_new sv) in
  if decide (sv_reconfig sv = 1 ∧ left_ ≠ []) then x ∈ left_
  else elems (sv_addrs sv) !! cursor (sv_addrs sv) = Some x.

Lemma cycle_chooses sv drand :
  lists_wf sv → elems (sv_addrs sv) ≠ [] → sv_reconfig sv = 0 ∨ sv_reconfig sv = 1 →
  ∃ sv', zoo_cycle_next_server sv drand = Ret sv' ∧ lists_wf sv' ∧ chosen sv (sv_addr_cur sv') ∧
    elems (sv_addrs sv') = elems (sv_addrs sv).
Proof.
  intros Hwf Hne Hr. unfold chosen. case_decide as Hd.
  - destruct Hd as [Hr1 Hu]. destruct (cycle_reconfig_step sv drand Hwf Hr1 Hu)
      as (sv' & E & Hwf' & _ & Ha & _ & Hp).
    exists sv'. split_and!; [done..|rewrite Hp; by left|by rewrite Ha].
  - destruct Hwf as [Ha Ho Hn].
    destruct (addrvec_next_spec (sv_addrs sv) Ha Hne) as (x & a' & En & Hx & Ha' & He & _).
    exists (with_cur x (with_addrs a' (with_cur zero_sockaddr (with_reconfig 0 sv)))).
    split_and!; [|by split|done|done].
    unfold zoo_cycle_next_server. cbn [sv_reconfig with_cur]. destruct Hr as [Hr|Hr].
    + rewrite Hr. cbn [Z.eqb negb]. run. cbn [sv_addrs with_cur]. rewrite En. run.
      unfold with_cur, with_addrs, with_reconfig. cbn. by rewrite <-Hr.
    + rewrite Hr. cbn [Z.eqb negb]. unfold get_next_server_in_reconfig.
      cbn [sv_pNew sv_addrs_new sv_addrs_old with_cur]. rewrite !hasnext_untried by done.
      assert (untried (sv_addrs_old sv) = [] ∧ untried (sv_addrs_new sv) = []) as [-> ->].
      { destruct (untried (sv_addrs_old sv)), (untried (sv_addrs_new sv));
          (done || (exfalso; apply Hd; by split)). }
      rewrite !(bool_decide_eq_true_2 ([] = [])) by done. cbn [negb andb]. run.
      cbn [sv_addrs with_reconfig with_cur]. rewrite En. done.
Qed.

(** The servers that [length drands] calls of [zoo_cycle_next_server] select. *)
Fixpoint tries (sv : servers) (drands : list spec_float) : outcome (list sockaddr * servers) :=
  match drands with
  | [] => Ret ([], sv)
  | r :: drands =>
      sv ← zoo_cycle_next_server sv r;
      '(xs, sv') ← tries sv drands;
      Ret (sv_addr_cur sv :: xs, sv')
  end.

Lemma tries_spec drands sv :
  lists_wf sv → sv_reconfig sv = 1 →
  (length drands ≤ length (untried (sv_addrs_old sv) ++ untried (sv_addrs_new sv)))%nat →
  ∃ xs sv', tries sv drands = Ret (xs, sv') ∧ lists_wf sv' ∧ sv_reconfig sv' = 1 ∧
    sv_addrs sv' = sv_addrs sv ∧
    untried (sv_addrs_old sv) ++ untried (sv_addrs_new sv) ≡ₚ
      xs ++ untried (sv_addrs_old sv') ++ untried (sv_addrs_new sv').
Proof.
  revert sv. induction drands as [|r drands IH]; intros sv Hwf Hr Hl; cbn [tries].
  - by exists [], sv.
  - destruct (cycle_reconfig_step sv r Hwf Hr) as (sv1 & -> & Hwf1 & Hr1 & Ha1 & _ & Hp1).
    { intros E. rewrite E in Hl. simpl in Hl. lia. }
    run. destruct (IH sv1 Hwf1 Hr1) as (xs & sv2 & -> & Hwf2 & Hr2 & Ha2 & Hp2).
    { rewrite Hp1 in Hl. simpl in Hl. lia. }
    run. eexists _, sv2. split; [done|]. split_and!; [done..|congruence|].
    rewrite Hp1, Hp2. done.
Qed.

Lemma tries_length drands sv xs sv' : tries sv drands = Ret (xs, sv') → length xs = length drands.
Proof.
  revert sv xs. induction drands as [|r drands IH]; intros sv xs; cbn [tries].
  - by intros [= <- _].
  - intros E. apply bind_Ret_inv in E as (sv1 & _ & E).
    apply bind_Ret_inv in E as ([xs1 sv2] & E1 & [= <- <-]). simpl. f_equal. by eapply IH.
Qed.

(** ** Theorems *)

(** Address vectors.  Appending keeps the invariant and adds the address at the
    end, or fails with 1 and leaves the vector as it was, only when an allocation
    fails; shuffling with any random numbers permutes the addresses; and from any
    position the next [n] calls of [addrvec_next] return the addresses in cyclic
    order, so every server comes up once in each round. *)
Theorem addrvec_correct (a : addrvec) (x : sockaddr) (o : allocs) (rnd : list Z) (n : nat) :
  av_wf a → av_count a < 2 ^ 31 →
  ((∃ a' o', addrvec_append a x o = Ret (0, a', o') ∧ av_wf a' ∧ elems a' = elems a ++ [x]) ∨
   (∃ o', addrvec_append a x o = Ret (1, a, o') ∧ o ≠ [])) ∧
  (av_wf (addrvec_shuffle a rnd) ∧ elems (addrvec_shuffle a rnd) ≡ₚ elems a) ∧
  (elems a ≠ [] →
   ∃ xs a', take_next n a = Ret (xs, a') ∧ av_wf a' ∧ length xs = n ∧
     ∀ k : nat, (k < n)%nat →
       xs !! k = elems a !! Z.to_nat ((av_next a + Z.of_nat k) mod av_count a)).
Proof.
  intros Hwf Hs. split; [|split; [by apply addrvec_shuffle_spec|]].
  - destruct (addrvec_append_spec a x o Hwf Hs) as [(a' & o' & ? & ? & ? & _)|?]; [left|by right].
    by exists a', o'.
  - intros Hne. destruct (take_next_spec n a Hwf Hne) as (xs & a' & ? & ? & _ & ? & ?).
    by exists xs, a'.
Qed.

Definition server (n : Z) (port : Z) : sockaddr :=
  mk_sockaddr AF_INET (be_split 4 n) (be_split 2 port).
Definition vec (l : list sockaddr) : addrvec :=
  mk_addrvec 0 (Z.of_nat (length l)) 16 (Some l).
Lemma vec_wf l : (length l ≤ 16)%nat → av_wf (vec l).
Proof. intros Hl. split; unfold elems, vec; simpl; done || lia. Qed.

Lemma addrvec_correct_witness :
  let a := vec [server 1 2181; server 2 2181] in
  ((∃ a' o', addrvec_append a (server 3 2181) [false] = Ret (0, a', o') ∧ av_wf a' ∧
      elems a' = elems a ++ [server 3 2181]) ∨
   (∃ o', addrvec_append a (server 3 2181) [false] = Ret (1, a, o') ∧ [false] ≠ [])) ∧
  (av_wf (addrvec_shuffle a [5; 6]) ∧ elems (addrvec_shuffle a [5; 6]) ≡ₚ elems a) ∧
  (elems a ≠ [] →
   ∃ xs a', take_next 3 a = Ret (xs, a') ∧ av_wf a' ∧ length xs = 3%nat ∧
     ∀ k : nat, (k < 3)%nat →
       xs !! k = elems a !! Z.to_nat ((av_next a + Z.of_nat k) mod av_count a)).
Proof. apply addrvec_correct; [apply vec_wf; simpl; lia|done]. Defined.

(**  Reconfiguration divides the servers.  When the host string resolves to a list
    that differs from the current one, [update_addrs] succeeds; the resolved servers
    become the server list, those known before the old list and the others the new
    list, both untried.  If the current server is gone the client will move; if it is
    still there and the number of servers has not grown, it stays.  A client that
    will move drops its connection, one that stays keeps it. *)
Theorem update_addrs_correct (sv : servers) (resolve : resolver)
    (drand : spec_float) (host : cstring) (resolved : addrvec) :
  av_wf (sv_addrs sv) → av_wf resolved → Z.of_nat (length (elems resolved)) < 2 ^ 31 →
  sv_hostname sv = Some host → resolve host [] = Ret (0, resolved, []) →
  addrvec_eq (sv_addrs sv) resolved = Ret false →
  ∃ sv', update_addrs (Some sv) resolve drand [] = Ret (0, Some sv', []) ∧
    sv_addrs sv' = resolved ∧ lists_wf sv' ∧
    untried (sv_addrs_old sv') = filter (λ x, known (sv_addrs sv) x = true) (elems resolved) ∧
    untried (sv_addrs_new sv') = filter (λ x, known (sv_addrs sv) x ≠ true) (elems resolved) ∧
    (known resolved (sv_addr_cur sv) = false → sv_reconfig sv' = 1) ∧
    (known resolved (sv_addr_cur sv) = true → av_count resolved ≤ av_count (sv_addrs sv) →
       sv_reconfig sv' = 0) ∧
    (sv_reconfig sv' = 1 → sv_fd sv' = -1 ∧ (sv_fd sv ≠ -1 → sv_state sv' = ZOO_NOTCONNECTED_STATE)) ∧
    (sv_reconfig sv' = 0 → sv_fd sv' = sv_fd sv ∧ sv_state sv' = sv_state sv).
Proof.
  intros Ha Hres Hsz Hh Hr Hneq. unfold update_addrs. rewrite Hh. cbn [alloc negb].
  rewrite Hr. run. rewrite Hneq. run.
  rewrite addrvec_contains_spec by done. run.
  assert (take (Z.to_nat (av_count resolved)) (default [] (av_data resolved)) = elems resolved)
    as ->.
  { fold (elems resolved). rewrite (av_count_ok _ Hres), Nat2Z.id. by apply take_ge. }
  change (sv_addrs (with_reconfig 1 sv)) with (sv_addrs sv).
  destruct (divide_loop_spec (sv_addrs sv) (elems resolved) addrvec_init addrvec_init)
    as (old & new & -> & Ho & Hn & Eo & En & No & Nn); [done|apply addrvec_init_wf..|done|]. run.
  cbn [elems addrvec_init av_data from_option app av_next] in Eo, En, No, Nn.
  set (sv1 := with_lists old new (with_reconfig 1 sv)).
  assert (uint32 (av_count old + av_count new) = av_count resolved) as Htot.
  { rewrite (av_count_ok _ Ho), (av_count_ok _ Hn), Eo, En, (av_count_ok _ Hres).
    rewrite <-Nat2Z.inj_add, <-length_app, (filter_split_perm _ (elems resolved)).
    apply wrap_u_id. unfold in_u. lia. }
  set (sv2 := decide_move sv1 _ _ _ _).
  assert (sv_addrs_old sv2 = old ∧ sv_addrs_new sv2 = new ∧ sv_fd sv2 = sv_fd sv ∧
    sv_state sv2 = sv_state sv ∧ (sv_reconfig sv2 = 0 ∨ sv_reconfig sv2 = 1) ∧
    (known resolved (sv_addr_cur sv) = false → sv_reconfig sv2 = 1) ∧
    (known resolved (sv_addr_cur sv) = true → av_count resolved ≤ av_count (sv_addrs sv) →
       sv_reconfig sv2 = 0)) as (D1 & D2 & D3 & D4 & D5 & D6 & D7).
  { unfold sv2, decide_move. rewrite Htot. change (sv_addrs sv1) with (sv_addrs sv).
    destruct (Z.ltb_spec (av_count (sv_addrs sv)) (av_count resolved));
      destruct (known resolved (sv_addr_cur sv)); [destruct (SFleb _ _)| | |];
      simpl; split_and!; auto; try done; lia. }
  eexists. split; [done|].
  destruct D5 as [D5|D5]; cbn [sv_reconfig with_addrs sv_fd]; rewrite D5, D3;
    [change (0 =? 1) with false|change (1 =? 1) with true]; cbn [andb].
  - cbn [with_addrs sv_addrs sv_addrs_old sv_addrs_new sv_reconfig sv_fd sv_state].
    unfold untried. rewrite D1, D2, D3, D4, D5, No, Nn, !drop_0.
    split_and!; try done; [by split; cbn; rewrite ?D1, ?D2|auto].
    intros ?. rewrite <-D5. auto.
  - destruct (Z.eqb_spec (sv_fd sv) (-1)) as [Hfd|Hfd];
      cbn [negb with_addrs disconnected sv_addrs sv_addrs_old sv_addrs_new sv_reconfig sv_fd sv_state];
      unfold untried; rewrite ?D1, ?D2, ?D3, ?D5, No, Nn, !drop_0;
      (split_and!; try done; [by split; cbn; rewrite ?D1, ?D2|..]);
      intros; rewrite <-?D5; auto; try lia.
Qed.

Definition sample_servers : servers :=
  mk_servers (Some (lit "h")) (vec [server 1 2181; server 2 2181]) addrvec_init addrvec_init
    (server 1 2181) 0 (double_of_Z 0) (double_of_Z 0) 5 3.

Lemma update_addrs_correct_witness :
  let resolved := vec [server 2 2181; server 3 2181] in
  ∃ sv', update_addrs (Some sample_servers) (λ _ o, Ret (0, resolved, o)) (double_of_Z 0) []
      = Ret (0, Some sv', []) ∧
    sv_addrs sv' = resolved ∧ lists_wf sv' ∧
    untried (sv_addrs_old sv') =
      filter (λ x, known (sv_addrs sample_servers) x = true) (elems resolved) ∧
    untried (sv_addrs_new sv') =
      filter (λ x, known (sv_addrs sample_servers) x ≠ true) (elems resolved) ∧
    (known resolved (sv_addr_cur sample_servers) = false → sv_reconfig sv' = 1) ∧
    (known resolved (sv_addr_cur sample_servers) = true →
       av_count resolved ≤ av_count (sv_addrs sample_servers) → sv_reconfig sv' = 0) ∧
    (sv_reconfig sv' = 1 → sv_fd sv' = -1 ∧
       (sv_fd sample_servers ≠ -1 → sv_state sv' = ZOO_NOTCONNECTED_STATE)) ∧
    (sv_reconfig sv' = 0 → sv_fd sv' = sv_fd sample_servers ∧
       sv_state sv' = sv_state sample_servers).
Proof.
  apply (update_addrs_correct sample_servers (λ _ o, Ret (0, vec [server 2 2181; server 3 2181], o))
    (double_of_Z 0) (lit "h")); [apply vec_wf; simpl; lia|apply vec_wf; simpl; lia|done..| |];
    [done|vm_compute; reflexivity].
Defined.

(** C33.  Every server is tried before giving up.  In reconfig mode, as many calls of
    [zoo_cycle_next_server] as there are untried old and new servers select each of
    them exactly once, whatever random numbers are drawn and whatever the
    probabilities are; the call after that leaves reconfig mode and goes round the
    server list. *)
Theorem reconfig_tries_all (sv : servers) (drands : list spec_float) (drand : spec_float) :
  lists_wf sv → sv_reconfig sv = 1 → elems (sv_addrs sv) ≠ [] →
  length drands = length (untried (sv_addrs_old sv) ++ untried (sv_addrs_new sv)) →
  ∃ xs sv' sv'', tries sv drands = Ret (xs, sv') ∧
    xs ≡ₚ untried (sv_addrs_old sv) ++ untried (sv_addrs_new sv) ∧
    zoo_cycle_next_server sv' drand = Ret sv'' ∧ sv_reconfig sv'' = 0 ∧
    elems (sv_addrs sv) !! cursor (sv_addrs sv) = Some (sv_addr_cur sv'').
Proof.
  intros Hwf Hr Hne Hl.
  destruct (tries_spec drands sv Hwf Hr) as (xs & sv' & E & Hwf' & Hr' & Ha' & Hp); [lia|].
  assert (length xs = length drands) as Hxs by (by eapply tries_length).
  assert (untried (sv_addrs_old sv') ++ untried (sv_addrs_new sv') = []) as Hdone.
  { rewrite Hp, length_app in Hl. apply nil_length_inv. lia. }
  rewrite Hdone, app_nil_r in Hp.
  apply app_eq_nil in Hdone as [Hdo Hdn]. destruct Hwf' as [Ha Ho Hn].
  destruct (addrvec_next_spec (sv_addrs sv')) as (x & a' & En & Hx & _); [done|by rewrite Ha'|].
  eexists xs, sv', _. split; [done|]. split; [by rewrite Hp|].
  unfold zoo_cycle_next_server. cbn [sv_reconfig with_cur]. rewrite Hr'. cbn [Z.eqb negb].
  unfold get_next_server_in_reconfig. cbn [sv_pNew sv_addrs_new sv_addrs_old with_cur].
  rewrite !hasnext_untried, Hdo, Hdn by done. cbn [negb andb].
  rewrite !bool_decide_eq_true_2 by done. cbn [negb andb]. run.
  cbn [sv_addrs with_reconfig with_cur]. rewrite En. run. split_and!; [done..|].
  by rewrite <-Ha'.
Qed.

Definition moving_servers : servers :=
  mk_servers (Some (lit "h")) (vec [server 2 2181; server 3 2181]) (vec [server 2 2181])
    (vec [server 3 2181]) (server 1 2181) 1 (double_of_Z 0) (double_of_Z 1) (-1) 999.

Lemma reconfig_tries_all_witness :
  ∃ xs sv' sv'', tries moving_servers [double_of_Z 0; double_of_Z 0] = Ret (xs, sv') ∧
    xs ≡ₚ untried (sv_addrs_old moving_servers) ++ untried (sv_addrs_new moving_servers) ∧
    zoo_cycle_next_server sv' (double_of_Z 0) = Ret sv'' ∧ sv_reconfig sv'' = 0 ∧
    elems (sv_addrs moving_servers) !! cursor (sv_addrs moving_servers) =
      Some (sv_addr_cur sv'').
Proof.
  apply (reconfig_tries_all moving_servers [double_of_Z 0; double_of_Z 0] (double_of_Z 0));
    [split; apply vec_wf; simpl; lia|done..].
Defined.

(** Ports are not compared.  Two server lists whose addresses agree position by
    position are the same to [addrvec_eq] whatever their ports, so moving the servers
    to other ports of the same hosts changes nothing: [update_addrs] keeps the old
    list and the old connection. *)
Theorem update_addrs_ignores_ports (sv : servers) (resolve : resolver)
    (drand : spec_float) (host : cstring) (resolved : addrvec) :
  av_wf (sv_addrs sv) → av_wf resolved →
  sv_hostname sv = Some host → resolve host [] = Ret (0, resolved, []) →
  Forall2 (λ x y, ss_family x = ss_family y ∧ sa_addr x = sa_addr y ∧
             (ss_family y = AF_INET ∨ ss_family y = AF_INET6))
    (elems (sv_addrs sv)) (elems resolved) →
  update_addrs (Some sv) resolve drand [] = Ret (0, Some sv, []).
Proof.
  intros Ha Hr Hh Hres Hall. unfold update_addrs. rewrite Hh. cbn [alloc negb].
  rewrite Hres. run.
  rewrite addrvec_eq_spec, (Forall2_length _ _ _ Hall), Nat.eqb_refl by done. cbn [andb].
  assert (forallb (known resolved) (elems (sv_addrs sv)) = true) as ->; [|done].
  apply forallb_forall. intros x Hx. apply list_elem_of_In, list_elem_of_lookup in Hx as [i Hi].
  destruct (Forall2_lookup_l _ _ _ _ _ Hall Hi) as (y & Hy & Hf & Haddr & Hfam).
  unfold known. apply existsb_exists. exists y.
  split; [by apply list_elem_of_In; eapply list_elem_of_lookup_2|].
  unfold same_address. rewrite Hf, Haddr, Z.eqb_refl, bool_decide_eq_true_2 by done.
  by destruct Hfam as [-> | ->].
Qed.

Lemma update_addrs_ignores_ports_witness :
  update_addrs (Some sample_servers) (λ _ o, Ret (0, vec [server 1 2182; server 2 2182], o))
    (double_of_Z 0) [] = Ret (0, Some sample_servers, []).
Proof.
  apply (update_addrs_ignores_ports sample_servers _ _ (lit "h")
    (vec [server 1 2182; server 2 2182]));
    [apply vec_wf; simpl; lia|apply vec_wf; simpl; lia|done|done|].
  repeat constructor; simpl; auto.
Defined.
