(* ===== verification/Hosts.v ===== *)
(** * Resolving the connection string

    [resolve_hosts] of src/zookeeper.c: the string is cut at its commas, each entry at
    its last colon, the port is checked with [strtol] and the name is given to
    [getaddrinfo]; the addresses found are shuffled.  The resolver, the random device
    and the numbers drawn are arguments, the record [resolving]. *)

From S2P Require Import Prelude Path PathFacts Addrvec AddrvecFacts.
Local Open Scope Z_scope.

Abbreviation ZOK := 0.
Abbreviation EAI_BADFLAGS := (-1).
Abbreviation EAI_ADDRFAMILY := (-9).
Abbreviation LONG_MAX := 9223372036854775807.
Abbreviation LONG_MIN := (-9223372036854775808).

(** ** The string functions *)
Definition comma : byte := Byte.x2c.
Definition colon : byte := Byte.x3a.

(** The tokens [strtok_r(hosts, ",", &last)] returns: the non-empty runs between
    commas; [cur] is the run read so far. *)
Fixpoint tokens (cur s : cstring) : list cstring :=
  match s with
  | [] => match cur with [] => [] | _ => [cur] end
  | c :: s =>
      if isc c comma then match cur with [] => tokens [] s | _ => cur :: tokens [] s end
      else tokens (cur ++ [c]) s
  end.
Definition strtok (s : cstring) : list cstring := tokens [] s.

(** [strrchr(host, c)] with the string cut there: what is before and after. *)
Fixpoint strrchr (s : cstring) (c : byte) : option (cstring * cstring) :=
  match s with
  | [] => None
  | x :: s =>
      match strrchr s c with
      | Some (a, b) => Some (x :: a, b)
      | None => if isc x c then Some ([], s) else None
      end
  end.

(** [isspace] in the C locale. *)
Definition isspace (c : byte) : bool :=
  let n := byte.unsigned c in (n =? 32) || ((9 <=? n) && (n <=? 13)).
Fixpoint skip_space (s : cstring) : cstring :=
  match s with
  | [] => []
  | c :: s' => if isspace c then skip_space s' else s
  end.

(** [strtol(s, &end, 0)]: the value, limited to a [long], and what [end] points to. *)
Definition digit (base : Z) (c : byte) : option Z :=
  let n := byte.unsigned c in
  let d := if (48 <=? n) && (n <=? 57) then n - 48
           else if (97 <=? n) && (n <=? 122) then n - 87
           else if (65 <=? n) && (n <=? 90) then n - 55 else 36 in
  if d <? base then Some d else None.
Fixpoint digits (base : Z) (s : cstring) (acc : Z) : Z * cstring :=
  match s with
  | [] => (acc, [])
  | c :: s' =>
      match digit base c with
      | Some d => digits base s' (base * acc + d)
      | None => (acc, s)
      end
  end.
Definition sign (s : cstring) : bool * cstring :=
  match s with
  | c :: s' => if isc c Byte.x2d then (true, s') else if isc c Byte.x2b then (false, s') else (false, s)
  | [] => (false, s)
  end.
Definition base_of (s : cstring) : Z * cstring :=
  match s with
  | z :: x :: d :: s' =>
      if isc z Byte.x30 then
        if (isc x Byte.x78 || isc x Byte.x58) && bool_decide (is_Some (digit 16 d))
        then (16, d :: s') else (8, s)
      else (10, s)
  | z :: _ => if isc z Byte.x30 then (8, s) else (10, s)
  | [] => (10, s)
  end.
Definition strtol (s : cstring) : Z * cstring :=
  let '(negative, s') := sign (skip_space s) in
  let '(base, s') := base_of s' in
  match s' with
  | c :: _ =>
      if bool_decide (is_Some (digit base c)) then
        let '(n, end_) := digits base s' 0 in
        (Z.max LONG_MIN (Z.min LONG_MAX (if negative then - n else n)), end_)
      else (0, s)
  | [] => (0, s)
  end.

(** ** The arguments *)
Record addrinfo := mk_addrinfo { ai_family : Z; ai_addr : sockaddr }.

(** A [read] of the random device: some bytes, interrupted, or failed. *)
Inductive seed_read := SeedBytes (n : Z) | SeedInterrupted | SeedFailed.

(** [getaddrinfo(host, port, hints, &res0)], [true] for [AI_ADDRCONFIG]; the reads of
    /dev/urandom ([None] if it cannot be opened; after the list a [read] fills what it is
    asked for); the numbers of [random]; the static [disable_conn_permute]. *)
Record resolving := mk_resolving {
  getaddrinfo : bool → cstring → cstring → Z * list addrinfo;
  urandom : option (list seed_read);
  rnd : list Z;
  disable_conn_permute : bool;
}.

(** ** The functions *)

(** The loop that fills [seed], an [int]: the destination [&seed + seed_len] is
    [seed_len] objects further. *)
Fixpoint seed_loop (reads : list seed_read) (seed_len : Z) : outcome () :=
  if 4 <=? seed_len then Ret () else
  match reads with
  | [] => if seed_len =? 0 then Ret () else UB
  | SeedBytes n :: reads =>
      let rc := Z.max 1 (Z.min n (4 - seed_len)) in
      if 4 * seed_len + rc <=? 4 then seed_loop reads (seed_len + rc) else UB
  | SeedInterrupted :: reads => seed_loop reads seed_len
  | SeedFailed :: _ => Abort
  end.
Definition setup_random (r : resolving) : outcome () :=
  match urandom r with
  | None => Ret ()
  | Some reads => seed_loop reads 0
  end.

(** [for (res = res0; res; res = res->ai_next)]; [false] when memory runs out. *)
Fixpoint append_all (res : list addrinfo) (avec : addrvec) (o : allocs)
    : outcome (bool * addrvec * allocs) :=
  match res with
  | [] => Ret (true, avec, o)
  | ai :: res =>
      let '(rc, avec, o) := addrvec_grow_if_full avec o in
      if negb (rc =? 0) then Ret (false, avec, o) else
      '(avec, o) ← (if (ai_family ai =? AF_INET) || (ai_family ai =? AF_INET6)
                    then '(_, avec, o) ← addrvec_append_addrinfo avec (ai_addr ai) o; Ret (avec, o)
                    else Ret (avec, o));
      append_all res avec o
  end.

(** The addresses of one entry, [None] if the resolver fails; a resolver that rejects
    [AI_ADDRCONFIG] is asked again without it. *)
Definition lookup_host (r : resolving) (host port_spec : cstring) : option (list addrinfo) :=
  let '(rc, res0) := getaddrinfo r true host port_spec in
  let '(rc, res0) := if (rc =? EAI_BADFLAGS) || (rc =? EAI_ADDRFAMILY)
                     then getaddrinfo r false host port_spec else (rc, res0) in
  if negb (rc =? 0) then None else Some res0.

(** An entry of the list cut into host and port, [None] if it has none or it is bad. *)
Definition parse_host (host : cstring) : option (cstring * cstring) :=
  match strrchr host colon with
  | None => None
  | Some (host, port_spec) =>
      let '(port, end_port_spec) := strtol port_spec in
      if bool_decide (port_spec = []) || negb (bool_decide (end_port_spec = [])) ||
         (int32 port =? 0)
      then None else Some (skip_space host, port_spec)
  end.

(** [while(host)]; the result is [Some rc] for [goto fail]. *)
Fixpoint hosts_loop (r : resolving) (hosts : list cstring) (avec : addrvec) (o : allocs)
    : outcome (option Z * addrvec * allocs) :=
  match hosts with
  | [] => Ret (None, avec, o)
  | host :: hosts =>
      match parse_host host with
      | None => Ret (Some ZBADARGUMENTS, avec, o)
      | Some (host, port_spec) =>
          match lookup_host r host port_spec with
          | None => hosts_loop r hosts avec o
          | Some res0 =>
              '(ok, avec, o) ← append_all res0 avec o;
              if ok : bool then hosts_loop r hosts avec o else Ret (Some ZSYSTEMERROR, avec, o)
          end
      end
  end.

Definition resolve_hosts (r : resolving) (hosts_in : cstring) (o : allocs)
    : outcome (Z * addrvec * allocs) :=
  let '(ok, o) := alloc o in
  if negb ok then Ret (ZSYSTEMERROR, addrvec_init, o) else
  num_hosts ← count_hosts (Some hosts_in);
  if num_hosts =? 0 then Ret (ZOK, addrvec_init, o) else
  let '(rc, avec, o) := addrvec_alloc_capacity (uint32 num_hosts) o in
  if negb (rc =? 0) then Ret (ZSYSTEMERROR, addrvec_init, o) else
  '(failed, avec, o) ← hosts_loop r (strtok hosts_in) avec o;
  match failed with
  | Some rc => Ret (rc, addrvec_init, o)
  | None =>
      if av_count avec =? 0 then Ret (ZSYSTEMERROR, addrvec_init, o) else
      if disable_conn_permute r then Ret (ZOK, avec, o) else
      _ ← setup_random r;
      Ret (ZOK, addrvec_shuffle avec (rnd r), o)
  end.
