(* ===== verification/HostsTheorems.v ===== *)
(** * Theorems about resolving the connection string

    [resolve_hosts] against a direct definition of what a connection string means: the
    addresses of its entries, or an error. *)

From S2P Require Import Prelude Path PathFacts Addrvec AddrvecFacts Hosts.
Local Open Scope Z_scope.

(** ** Reference definition

    A definition that computes, with the parser of the code; [HostsSpec] has a grammar that
    does not use it, and proves them the same. *)

(** The addresses an entry contributes. *)
Definition host_addrs (r : resolving) (host port_spec : cstring) : list sockaddr :=
  ai_addr <$> filter (λ ai, ai_family ai = AF_INET ∨ ai_family ai = AF_INET6)
                (default [] (lookup_host r host port_spec)).
Definition entry_addrs (r : resolving) (entry : cstring) : list sockaddr :=
  match parse_host entry with Some (host, port) => host_addrs r host port | None => [] end.
Definition all_addrs (r : resolving) (hosts : cstring) : list sockaddr :=
  concat (entry_addrs r <$> strtok hosts).

(** What a connection string means: an error, or the servers in the order of the string. *)
Definition meaning (r : resolving) (hosts : cstring) : Z * list sockaddr :=
  if bool_decide (hosts = []) then (ZOK, [])
  else if existsb (λ e, bool_decide (parse_host e = None)) (strtok hosts) then (ZBADARGUMENTS, [])
  else if bool_decide (all_addrs r hosts = []) then (ZSYSTEMERROR, [])
  else (ZOK, all_addrs r hosts).

(** ** The vector *)
Lemma addrvec_grow_if_full_spec a :
  av_wf a → av_count a < 2 ^ 31 →
  ∃ a', addrvec_grow_if_full a [] = (0, a', []) ∧ av_wf a' ∧ elems a' = elems a ∧
    av_next a' = av_next a ∧ av_count a' = av_count a.
Proof.
  intros Hwf Hsmall. pose proof Hwf as [Hc Hcap Hn Hd].
  unfold addrvec_grow_if_full, addrvec_grow_default, addrvec_grow.
  destruct (Z.eqb_spec (av_count a) (av_capacity a)) as [Hfull|]; [|by exists a].
  unfold ADDRVEC_DEFAULT_GROW_AMOUNT, sizeof_sockaddr, alloc_bytes. cbn [Z.eqb].
  rewrite (wrap_u_id 32) by (unfold in_u; lia). rewrite (proj2 (Z.ltb_lt _ _)) by lia.
  cbn [alloc]. eexists. split; [done|]. split_and!; [|done..].
  split; cbn [elems av_data av_count av_capacity av_next from_option id]; try done; lia.
Qed.

Definition inet (ai : addrinfo) : Prop := ai_family ai = AF_INET ∨ ai_family ai = AF_INET6.
Lemma inet_test ai :
  (ai_family ai =? AF_INET) || (ai_family ai =? AF_INET6) = bool_decide (inet ai).
Proof.
  unfold inet. destruct (Z.eqb_spec (ai_family ai) AF_INET), (Z.eqb_spec (ai_family ai) AF_INET6);
    simpl; symmetry; first [apply bool_decide_eq_true_2; tauto|apply bool_decide_eq_false_2; tauto].
Qed.

(** [a'] is [a] with [l] appended. *)
Definition extends (a a' : addrvec) (l : list sockaddr) : Prop :=
  av_wf a' ∧ elems a' = elems a ++ l ∧ av_next a' = av_next a.

Lemma append_all_spec res a :
  av_wf a → av_count a + Z.of_nat (length res) < 2 ^ 31 →
  ∃ a', append_all res a [] = Ret (true, a', []) ∧ extends a a' (ai_addr <$> filter inet res).
Proof.
  revert a. induction res as [|ai res IH]; intros a Hwf Hsz.
  { exists a. split; [done|]. split_and!; [done|by rewrite app_nil_r|done]. }
  cbn [append_all length] in *.
  destruct (addrvec_grow_if_full_spec a Hwf) as (a1 & -> & Hwf1 & He1 & Hn1 & Hc1); [lia|].
  cbn [Z.eqb negb]. rewrite inet_test. case_bool_decide as Hi.
  - destruct (addrvec_append_spec a1 (ai_addr ai) [] Hwf1)
      as [(a2 & o' & E & Hwf2 & He2 & Hn2 & Ho)|(o' & _ & ?)]; [lia| |done].
    unfold addrvec_append_addrinfo. rewrite E, (Ho eq_refl). run.
    assert (av_count a2 = av_count a + 1) as Hc2.
    { rewrite (av_count_ok _ Hwf2), He2, He1, length_app, (av_count_ok _ Hwf). simpl. lia. }
    destruct (IH a2 Hwf2) as (a3 & E3 & Hwf3 & He3 & Hn3); [lia|].
    exists a3. split; [done|]. split_and!; [done| |lia].
    rewrite He3, He2, He1, filter_cons_True, <-app_assoc by done. done.
  - run. destruct (IH a1 Hwf1) as (a3 & E3 & Hwf3 & He3 & Hn3); [lia|].
    exists a3. split; [done|]. split_and!; [done| |lia].
    by rewrite He3, He1, filter_cons_False by done.
Qed.

(** A bound on what the resolver returns for the entries. *)
Definition answers_size (r : resolving) (entry : cstring) : nat :=
  match parse_host entry with
  | Some (host, port) => length (default [] (lookup_host r host port))
  | None => 0
  end.
Definition total_size (r : resolving) (hosts : list cstring) : nat :=
  sum_list (answers_size r <$> hosts).

Lemma length_entry_addrs r e : (length (entry_addrs r e) ≤ answers_size r e)%nat.
Proof.
  unfold entry_addrs, answers_size. destruct (parse_host e) as [[h p]|]; [|done].
  unfold host_addrs. rewrite length_fmap. apply length_filter.
Qed.

Lemma hosts_loop_spec r hosts a :
  av_wf a → av_count a + Z.of_nat (total_size r hosts) < 2 ^ 31 →
  if existsb (λ e, bool_decide (parse_host e = None)) hosts
  then ∃ a', hosts_loop r hosts a [] = Ret (Some ZBADARGUMENTS, a', [])
  else ∃ a', hosts_loop r hosts a [] = Ret (None, a', []) ∧
         extends a a' (concat (entry_addrs r <$> hosts)).
Proof.
  revert a. induction hosts as [|e hosts IH]; intros a Hwf Hsz.
  { exists a. split; [done|]. split_and!; [done|by rewrite app_nil_r|done]. }
  unfold total_size in *. cbn [existsb hosts_loop fmap list_fmap sum_list concat] in *.
  unfold answers_size at 1 in Hsz. unfold entry_addrs at 1.
  destruct (parse_host e) as [[h p]|] eqn:Ep; cbn [orb].
  2: by rewrite bool_decide_eq_true_2 by done; exists a.
  rewrite bool_decide_eq_false_2 by done. cbn [orb]. unfold host_addrs.
  destruct (lookup_host r h p) as [res|]; cbn [default from_option id] in *.
  - destruct (append_all_spec res a Hwf) as (a1 & -> & Hwf1 & He1 & Hn1); [lia|]. run.
    assert (av_count a1 ≤ av_count a + Z.of_nat (length res)) as Hc1.
    { rewrite (av_count_ok _ Hwf1), He1, length_app, (av_count_ok _ Hwf), length_fmap.
      pose proof (length_filter inet res). lia. }
    specialize (IH a1 Hwf1 ltac:(lia)).
    destruct (existsb _ hosts); [done|]. destruct IH as (a2 & E2 & Hwf2 & He2 & Hn2).
    exists a2. split; [done|]. split_and!; [done| |lia].
    by rewrite He2, He1, <-app_assoc.
  - specialize (IH a Hwf ltac:(lia)). done.
Qed.

Lemma addrvec_alloc_capacity_spec n :
  0 < n < 2 ^ 31 →
  ∃ a, addrvec_alloc_capacity n [] = (0, a, []) ∧ av_wf a ∧ elems a = [] ∧ av_next a = 0 ∧
    av_count a = 0.
Proof.
  intros Hn. unfold addrvec_alloc_capacity, addrvec_grow, alloc_bytes, sizeof_sockaddr.
  rewrite (proj2 (Z.eqb_neq _ _)) by lia. cbn [addrvec_init av_capacity].
  rewrite Z.add_0_l, (wrap_u_id 32) by (unfold in_u; lia).
  rewrite (proj2 (Z.ltb_lt _ _)) by lia. cbn [alloc]. eexists. split; [done|].
  split_and!; [|done..]. split; cbn; try done; lia.
Qed.

Lemma count_hosts_positive hosts :
  hosts ≠ [] → Z.of_nat (length hosts) < INT_MAX →
  ∃ n, count_hosts (Some hosts) = Ret n ∧ 0 < n < 2 ^ 31.
Proof.
  intros Hne Hl. unfold count_hosts.
  rewrite (proj2 (Nat.eqb_neq _ _)) by (by destruct hosts).
  rewrite count_commas_spec by lia. run. eexists. split; [done|].
  pose proof (length_filter (λ c, c = Byte.x2c) hosts).
  rewrite wrap_s_id; unfold in_s; lia.
Qed.

(** The random device is read only to permute servers that were found. *)
Definition seeding (r : resolving) (servers : list sockaddr) : outcome () :=
  if bool_decide (servers = []) || disable_conn_permute r then Ret () else setup_random r.
(** [resolve_hosts] against its meaning. *)
Lemma resolve_hosts_seeded (r : resolving) (hosts : cstring) :
  Z.of_nat (length hosts) < INT_MAX → Z.of_nat (total_size r (strtok hosts)) < 2 ^ 31 →
  ∃ avec, resolve_hosts r hosts [] = (seeding r (snd (meaning r hosts));; Ret (fst (meaning r hosts), avec, [])) ∧
    av_wf avec ∧ av_next avec = 0 ∧ elems avec ≡ₚ snd (meaning r hosts) ∧
    (disable_conn_permute r = true → elems avec = snd (meaning r hosts)).
Proof.
  intros Hl Hsz. unfold resolve_hosts, meaning. cbn [alloc negb].
  assert (∀ rc : Z, ∃ avec, Ret (rc, addrvec_init, [] : allocs) = (seeding r [];; Ret (rc, avec, [])) ∧ av_wf avec ∧
    av_next avec = 0 ∧ elems avec ≡ₚ [] ∧ (disable_conn_permute r = true → elems avec = []))
    as Hempty by (intros rc; exists addrvec_init; split_and!; [done|apply addrvec_init_wf|done..]).
  case_bool_decide as Hne; [subst; apply Hempty|].
  destruct (count_hosts_positive hosts Hne Hl) as (n & -> & Hn). run.
  rewrite (proj2 (Z.eqb_neq n 0)) by lia. rewrite (wrap_u_id 32) by (unfold in_u; lia).
  destruct (addrvec_alloc_capacity_spec n Hn) as (a & -> & Hwf & He & Hnx & Hc). cbn [Z.eqb negb].
  pose proof (hosts_loop_spec r (strtok hosts) a Hwf ltac:(lia)) as Hloop.
  destruct (existsb _ _); [destruct Hloop as (a' & ->); apply Hempty|].
  destruct Hloop as (a' & -> & Hwf' & He' & Hn'). run. fold (all_addrs r hosts) in He'.
  rewrite He in He'. cbn [app] in He'. rewrite (av_count_ok _ Hwf'), He'.
  case_bool_decide as Hall; [rewrite Hall; apply Hempty|].
  rewrite (proj2 (Z.eqb_neq _ 0)) by (destruct (all_addrs r hosts); [done|simpl; lia]).
  unfold seeding. rewrite (bool_decide_eq_false_2 ((ZOK, all_addrs r hosts).2 = [])) by done.
  destruct (disable_conn_permute r); cbn [orb fst snd].
  { exists a'. split_and!; [done|done|lia|by rewrite He'|done]. }
  destruct (addrvec_shuffle_spec a' (rnd r) Hwf') as [Hws Hp].
  eexists. split; [done|]. split_and!; [done|by simpl; lia|by rewrite Hp, He'|done].
Qed.
Lemma resolve_hosts_meaning (r : resolving) (hosts : cstring) :
  Z.of_nat (length hosts) < INT_MAX → Z.of_nat (total_size r (strtok hosts)) < 2 ^ 31 →
  setup_random r = Ret () →
  ∃ avec, resolve_hosts r hosts [] = Ret (fst (meaning r hosts), avec, []) ∧
    av_wf avec ∧ av_next avec = 0 ∧ elems avec ≡ₚ snd (meaning r hosts) ∧
    (disable_conn_permute r = true → elems avec = snd (meaning r hosts)).
Proof.
  intros Hl Hsz Hseed. destruct (resolve_hosts_seeded r hosts Hl Hsz) as (avec & E & Hrest). exists avec.
  split; [|done]. rewrite E. unfold seeding. rewrite Hseed. by destruct (_ || _).
Qed.

(** A resolver that knows two names. *)
Definition sample_resolving : resolving :=
  mk_resolving (λ _ host port,
      if bool_decide (host = lit "a") then (0, [mk_addrinfo AF_INET (server 1 2181)])
      else if bool_decide (host = lit "b")
        then (0, [mk_addrinfo AF_INET (server 2 2181); mk_addrinfo 1 (mk_sockaddr 1 [] [])])
      else (-2, []))
    (Some []) [3; 1; 4] false.

Example meaning_sample :
  meaning sample_resolving (lit "a:2181, b:0x885,,nobody:1") = (ZOK, [server 1 2181; server 2 2181]) ∧
  fst (meaning sample_resolving (lit "a:2181,b")) = ZBADARGUMENTS ∧
  fst (meaning sample_resolving (lit "a:2181,b:0")) = ZBADARGUMENTS ∧
  fst (meaning sample_resolving (lit "nobody:1")) = ZSYSTEMERROR.
Proof. vm_compute. done. Qed.

(** ** Reading ports and entries *)

(** The entries of a list joined by commas are found again. *)
Definition plain_entry (e : cstring) : Prop := e ≠ [] ∧ Forall (λ c, c ≠ comma) e.
Fixpoint join (es : list cstring) : cstring :=
  match es with [] => [] | [e] => e | e :: es => e ++ comma :: join es end.

Lemma isc_spec x y : isc x y = bool_decide (x = y).
Proof. unfold isc. by repeat case_bool_decide. Qed.

Lemma tokens_app cur e s :
  Forall (λ c, c ≠ comma) e → tokens cur (e ++ s) = tokens (cur ++ e) s.
Proof.
  intros He. revert cur. induction He as [|c e Hc He IH]; intros cur; simpl; [by rewrite app_nil_r|].
  rewrite isc_spec, bool_decide_eq_false_2 by done. rewrite IH. by rewrite <-app_assoc.
Qed.
Lemma strtok_join es : Forall plain_entry es → strtok (join es) = es.
Proof.
  unfold strtok. induction 1 as [|e es [Hne He] Hes IH]; [done|].
  destruct es as [|e' es].
  - cbn [join]. rewrite <-(app_nil_r e) at 1. rewrite tokens_app by done. simpl. by destruct e.
  - change (join (e :: e' :: es)) with (e ++ comma :: join (e' :: es)).
    rewrite tokens_app by done. cbn [app tokens]. rewrite isc_spec, bool_decide_eq_true_2 by done.
    rewrite IH. by destruct e.
Qed.

(** The last colon. *)
Lemma strrchr_none s c : Forall (λ x, x ≠ c) s → strrchr s c = None.
Proof.
  induction 1 as [|x s Hx Hs IH]; [done|]. simpl. rewrite IH, isc_spec.
  by rewrite bool_decide_eq_false_2.
Qed.
Lemma strrchr_last a b c : Forall (λ x, x ≠ c) b → strrchr (a ++ c :: b) c = Some (a, b).
Proof.
  intros Hb. induction a as [|x a IH]; simpl; [|by rewrite IH].
  rewrite strrchr_none by done. by rewrite isc_spec, bool_decide_eq_true_2.
Qed.

(** A number in decimal, at most [fuel] digits. *)
Definition digit_char (d : Z) : byte := byte.of_Z (48 + d).
Fixpoint decimal_to (fuel : nat) (n : Z) (rest : cstring) : cstring :=
  match fuel with
  | O => rest
  | S fuel =>
      let rest := digit_char (n mod 10) :: rest in
      if n <? 10 then rest else decimal_to fuel (n / 10) rest
  end.
Definition decimal (n : Z) : cstring := decimal_to 10 n [].

Lemma digit_char_spec d : 0 ≤ d < 10 → byte.unsigned (digit_char d) = 48 + d.
Proof. intros Hd. unfold digit_char. rewrite byte.unsigned_of_Z. unfold byte.wrap. rewrite Z.mod_small; lia. Qed.
Lemma digit_digit_char d : 0 ≤ d < 10 → digit 10 (digit_char d) = Some d.
Proof.
  intros Hd. unfold digit. rewrite digit_char_spec by done.
  rewrite (proj2 (Z.leb_le 48 _)), (proj2 (Z.leb_le _ 57)) by lia. cbn [andb].
  rewrite (proj2 (Z.ltb_lt _ _)) by lia. f_equal. lia.
Qed.

Lemma digits_decimal_to fuel n rest :
  0 ≤ n < 10 ^ Z.of_nat fuel → digits 10 (decimal_to fuel n rest) 0 = digits 10 rest n.
Proof.
  revert n rest. induction fuel as [|fuel IH]; intros n rest Hn.
  { change (10 ^ Z.of_nat 0) with 1 in Hn. simpl. f_equal. lia. }
  rewrite Nat2Z.inj_succ, Z.pow_succ_r in Hn by lia.
  pose proof (Z.mod_pos_bound n 10). pose proof (Z.div_mod n 10).
  cbn [decimal_to]. destruct (Z.ltb_spec n 10).
  - cbn [digits]. rewrite digit_digit_char by lia. f_equal. rewrite Z.mod_small; lia.
  - rewrite IH by (split; [apply Z.div_pos; lia|apply Z.div_lt_upper_bound; lia]).
    cbn [digits]. rewrite digit_digit_char by lia. f_equal. lia.
Qed.

(** The first digit is not a zero, and all of them are digits. *)
Definition is_digit (c : byte) : Prop := ∃ d, 0 ≤ d < 10 ∧ c = digit_char d.
Lemma decimal_to_head fuel n rest :
  0 < n < 10 ^ Z.of_nat fuel →
  ∃ d s, 0 < d < 10 ∧ decimal_to fuel n rest = digit_char d :: s.
Proof.
  revert n rest. induction fuel as [|fuel IH]; intros n rest Hn.
  { change (10 ^ Z.of_nat 0) with 1 in Hn. lia. }
  rewrite Nat2Z.inj_succ, Z.pow_succ_r in Hn by lia. cbn [decimal_to].
  destruct (Z.ltb_spec n 10).
  - rewrite Z.mod_small by lia. eexists _, _. split; [|done]. lia.
  - apply IH. split; [apply Z.div_str_pos; lia|apply Z.div_lt_upper_bound; lia].
Qed.
Lemma decimal_to_digits fuel n rest :
  Forall is_digit rest → Forall is_digit (decimal_to fuel n rest).
Proof.
  revert n rest. induction fuel as [|fuel IH]; intros n rest Hr; [done|]. cbn [decimal_to].
  assert (is_digit (digit_char (n mod 10))) by (eexists; split; [by apply Z.mod_pos_bound|done]).
  destruct (n <? 10); [by constructor|]. apply IH. by constructor.
Qed.
Lemma is_digit_ne c x :
  is_digit c → byte.unsigned x < 48 ∨ 58 ≤ byte.unsigned x → c ≠ x.
Proof. intros (d & Hd & ->) Hx <-. rewrite digit_char_spec in Hx by done. lia. Qed.

Lemma strtol_decimal n : 0 < n ≤ INT_MAX → strtol (decimal n) = (n, []).
Proof.
  intros Hn. unfold decimal.
  assert (0 < n < 10 ^ Z.of_nat 10) as Hb by (change (10 ^ Z.of_nat 10) with 10000000000; lia).
  destruct (decimal_to_head 10 n [] Hb) as (d & s & Hd & E).
  pose proof (digits_decimal_to 10 n [] ltac:(lia)) as Hdig. rewrite E in *.
  assert (is_digit (digit_char d)) as Hdd by (exists d; split; [lia|done]).
  assert (∀ x, byte.unsigned x < 48 ∨ 58 ≤ byte.unsigned x → isc (digit_char d) x = false) as Hx.
  { intros x Hx. rewrite isc_spec. apply bool_decide_eq_false_2. by apply is_digit_ne. }
  unfold strtol. cbn [skip_space]. unfold isspace. rewrite digit_char_spec by lia.
  rewrite (proj2 (Z.eqb_neq _ 32)), (proj2 (Z.leb_gt _ 13)) by lia.
  rewrite andb_false_r. cbn [orb sign]. rewrite !Hx by (vm_compute; intuition congruence).
  assert (base_of (digit_char d :: s) = (10, digit_char d :: s)) as ->.
  { assert (isc (digit_char d) Byte.x30 = false) as H0.
    { rewrite isc_spec. apply bool_decide_eq_false_2. intros Heq.
      apply (f_equal byte.unsigned) in Heq. rewrite digit_char_spec in Heq by lia.
      change (byte.unsigned Byte.x30) with 48 in Heq. lia. }
    unfold base_of. destruct s as [|x [|y s]]; by rewrite H0. }
  rewrite bool_decide_eq_true_2 by (rewrite digit_digit_char by lia; eauto).
  rewrite Hdig. cbn [digits]. f_equal. lia.
Qed.

(** An entry of the string. *)
Definition endpoint (hp : cstring * Z) : cstring := hp.1 ++ colon :: decimal hp.2.
Definition good_endpoint (hp : cstring * Z) : Prop :=
  Forall (λ c, c ≠ comma) hp.1 ∧ 0 < hp.2 ≤ INT_MAX.

Lemma decimal_plain n x : byte.unsigned x < 48 ∨ 58 ≤ byte.unsigned x → Forall (λ c, c ≠ x) (decimal n).
Proof.
  intros Hx. eapply Forall_impl; [apply (decimal_to_digits 10 n []); constructor|].
  intros c Hc. by apply is_digit_ne.
Qed.
Lemma parse_endpoint hp :
  good_endpoint hp → parse_host (endpoint hp) = Some (skip_space hp.1, decimal hp.2).
Proof.
  destruct hp as [h n]. intros [_ Hn]. unfold parse_host, endpoint. cbn [fst snd] in *.
  rewrite strrchr_last by (apply decimal_plain; vm_compute; intuition congruence).
  rewrite strtol_decimal by done.
  assert (decimal n ≠ []) as Hne.
  { destruct (decimal_to_head 10 n []) as (d & s & _ & E);
      [change (10 ^ Z.of_nat 10) with 10000000000; lia|]. unfold decimal. by rewrite E. }
  rewrite bool_decide_eq_false_2, (bool_decide_eq_true_2 ([] = [])) by done. cbn [negb orb].
  rewrite wrap_s_id, (proj2 (Z.eqb_neq _ _)); unfold in_s; done || lia.
Qed.

(** What the printed string means. *)
Lemma meaning_endpoints (r : resolving) (hps : list (cstring * Z)) :
  hps ≠ [] → Forall good_endpoint hps →
  let found := concat ((λ hp, host_addrs r (skip_space hp.1) (decimal hp.2)) <$> hps) in
  meaning r (join (endpoint <$> hps)) =
    (if bool_decide (found = []) then ZSYSTEMERROR else ZOK, found).
Proof.
  intros Hne Hall found.
  assert (Forall plain_entry (endpoint <$> hps)) as Hplain.
  { apply Forall_fmap. eapply Forall_impl; [exact Hall|]. intros [h n] [Hh Hn].
    split; [by destruct h|]. unfold endpoint. apply Forall_app. split; [done|].
    constructor; [by intros ?%(f_equal byte.unsigned)|].
    apply decimal_plain. vm_compute; intuition congruence. }
  assert (all_addrs r (join (endpoint <$> hps)) = found) as Haddrs.
  { unfold all_addrs, found. rewrite strtok_join by done. f_equal. rewrite <-list_fmap_compose.
    apply list_fmap_ext. intros i hp Hi. simpl. unfold entry_addrs.
    by rewrite parse_endpoint by (by eapply Forall_lookup_1). }
  unfold meaning. rewrite bool_decide_eq_false_2.
  2: { destruct hps as [|[[|c h] n] [|]]; done. }
  rewrite strtok_join, Haddrs by done.
  assert (existsb (λ e, bool_decide (parse_host e = None)) (endpoint <$> hps) = false) as ->.
  { apply not_true_is_false. intros (e & Hin & He)%existsb_exists.
    apply list_elem_of_In, list_elem_of_fmap in Hin as (hp & -> & Hin).
    rewrite parse_endpoint in He by (by eapply Forall_forall). done. }
  case_bool_decide as Hf; [by rewrite Hf|done].
Qed.

(**  Printing and parsing a connection string.  A list of endpoints printed as
    [host:port,host:port,...] with decimal ports is read back: [resolve_hosts] accepts
    every entry and collects exactly the addresses the resolver gives for each host (less
    leading white space) and port, in the order of the string if permutation is disabled;
    it fails only if the resolver knows none of them. *)
Theorem connection_string_roundtrip (r : resolving) (hps : list (cstring * Z)) :
  hps ≠ [] → Forall good_endpoint hps → setup_random r = Ret () →
  let hosts := join (endpoint <$> hps) in
  let found := concat ((λ hp, host_addrs r (skip_space hp.1) (decimal hp.2)) <$> hps) in
  Z.of_nat (length hosts) < INT_MAX → Z.of_nat (total_size r (strtok hosts)) < 2 ^ 31 →
  ∃ avec, resolve_hosts r hosts [] =
      Ret (if bool_decide (found = []) then ZSYSTEMERROR else ZOK, avec, []) ∧
    av_wf avec ∧ av_next avec = 0 ∧ elems avec ≡ₚ found ∧
    (disable_conn_permute r = true → elems avec = found).
Proof.
  intros Hne Hall Hseed hosts found Hl Ht.
  pose proof (resolve_hosts_meaning r hosts Hl Ht Hseed) as Hm.
  unfold hosts in Hm at 2 3 4. by rewrite (meaning_endpoints r hps Hne Hall) in Hm.
Qed.

Lemma connection_string_roundtrip_witness :
  let hps := [(lit "a", 2181); (lit " b", 2182)] in
  ∃ avec, resolve_hosts sample_resolving (lit "a:2181, b:2182") [] = Ret (ZOK, avec, []) ∧
    elems avec ≡ₚ [server 1 2181; server 2 2181].
Proof.
  intros hps.
  destruct (connection_string_roundtrip sample_resolving hps) as (avec & E & _ & _ & Hp & _);
    [done| |done|done|done|eauto].
  repeat constructor; simpl; done || lia.
Defined.

(** A short read of the random device. *)
Lemma short_seed_overrun n reads r :
  0 < n < 4 → urandom r = Some (SeedBytes n :: SeedBytes (4 - n) :: reads) →
  setup_random r = UB.
Proof.
  intros Hn E. unfold setup_random. rewrite E. cbn [seed_loop Z.leb Z.compare].
  rewrite (Z.min_l n), (Z.max_r 1 n) by lia. rewrite (proj2 (Z.leb_le _ 4)) by lia.
  rewrite (proj2 (Z.leb_gt 4 _)) by lia. rewrite (proj2 (Z.leb_gt _ 4)) by lia. done.
Qed.
