(* ===== verification/HostsSpec.v ===== *)
(** * The syntax of connection strings

    What a connection string means, said without the parser of the code: a grammar of
    entries, hosts and port numbers, and the answers of the resolver; and that
    [resolve_hosts] does what the grammar says. *)

From S2P Require Import Prelude Path PathFacts Addrvec AddrvecFacts Hosts HostsTheorems.
Local Open Scope Z_scope.

(** ** Numbers, as [strtol] reads them with base 0 *)
Definition blank (c : byte) : Prop :=
  c ∈ [Byte.x20; Byte.x09; Byte.x0a; Byte.x0b; Byte.x0c; Byte.x0d].
(** [c] is the digit of value [d]. *)
Definition digit_of (c : byte) (d : Z) : Prop :=
  0 ≤ d ∧ (lit "0123456789abcdef" !! Z.to_nat d = Some c ∨ lit "0123456789ABCDEF" !! Z.to_nat d = Some c).
Definition digit_in (base : Z) (c : byte) (d : Z) : Prop := digit_of c d ∧ d < base.
Definition value (base : Z) (ds : list Z) : Z := foldl (λ n d, base * n + d) 0 ds.
(** Hexadecimal behind 0x, octal behind 0, decimal. *)
Inductive magnitude : cstring → Z → Prop :=
  | mag_hex x s ds : x ∈ [Byte.x78; Byte.x58] → s ≠ [] → Forall2 (digit_in 16) s ds →
      magnitude (Byte.x30 :: x :: s) (value 16 ds)
  | mag_octal s ds : Forall2 (digit_in 8) s ds → magnitude (Byte.x30 :: s) (value 8 ds)
  | mag_decimal c s ds : c ≠ Byte.x30 → Forall2 (digit_in 10) (c :: s) ds → magnitude (c :: s) (value 10 ds).
(** White space and a sign before it. *)
Inductive numeral : cstring → Z → Prop :=
  | num_plain w m n : Forall blank w → magnitude m n → numeral (w ++ m) n
  | num_plus w m n : Forall blank w → magnitude m n → numeral (w ++ Byte.x2b :: m) n
  | num_minus w m n : Forall blank w → magnitude m n → numeral (w ++ Byte.x2d :: m) (- n).
(** A number too large for a [long] is the largest or the smallest one; the port is what
    fits an [int] of it, and must not be 0. *)
Definition port_number (p : cstring) : Prop :=
  ∃ n, numeral p n ∧ Z.max LONG_MIN (Z.min LONG_MAX n) mod 2 ^ 32 ≠ 0.

(** ** Entries *)

(** The host is what is before the last colon, less leading white space. *)
Definition entry_of (e host port : cstring) : Prop :=
  ∃ w, Forall blank w ∧ e = w ++ host ++ colon :: port ∧ (∀ c h, host = c :: h → ¬ blank c) ∧ (colon ∉ port) ∧
    port_number port.
Definition good_entry (e : cstring) : Prop := ∃ host port, entry_of e host port.
(** The entries are what is between commas, if it is not empty. *)
Definition entries_of (s : cstring) (es : list cstring) : Prop :=
  ∃ parts, parts ≠ [] ∧ Forall (λ p, comma ∉ p) parts ∧ s = HostsTheorems.join parts ∧ es = filter (λ p, p ≠ []) parts.

(** ** Answers *)

(** What the resolver says of a host and a port: it is asked again without a flag it does
    not know, and fails for any other error. *)
Inductive asked (r : resolving) (host port : cstring) : list addrinfo → Prop :=
  | asked_ok l : getaddrinfo r true host port = (0, l) → asked r host port l
  | asked_error rc l : getaddrinfo r true host port = (rc, l) → rc ≠ 0 → rc ∉ [EAI_BADFLAGS; EAI_ADDRFAMILY] →
      asked r host port []
  | asked_again_ok rc l l' : getaddrinfo r true host port = (rc, l) → rc ∈ [EAI_BADFLAGS; EAI_ADDRFAMILY] →
      getaddrinfo r false host port = (0, l') → asked r host port l'
  | asked_again_error rc l rc' l' : getaddrinfo r true host port = (rc, l) → rc ∈ [EAI_BADFLAGS; EAI_ADDRFAMILY] →
      getaddrinfo r false host port = (rc', l') → rc' ≠ 0 → asked r host port [].
Inductive answers (r : resolving) (e : cstring) : list addrinfo → Prop :=
  | answers_bad : ¬ good_entry e → answers r e []
  | answers_good host port l : entry_of e host port → asked r host port l → answers r e l.
Definition servers_in (ls : list (list addrinfo)) : list sockaddr :=
  ai_addr <$> filter (λ ai, ai_family ai = AF_INET ∨ ai_family ai = AF_INET6) (concat ls).

(** ** What is to happen *)
Inductive verdict (hosts : cstring) (es : list cstring) (found : list sockaddr) : Z → list sockaddr → Prop :=
  | verdict_empty : hosts = [] → verdict hosts es found ZOK []
  | verdict_bad : hosts ≠ [] → Exists (λ e, ¬ good_entry e) es → verdict hosts es found ZBADARGUMENTS []
  | verdict_none : hosts ≠ [] → Forall good_entry es → found = [] → verdict hosts es found ZSYSTEMERROR []
  | verdict_found : hosts ≠ [] → Forall good_entry es → found ≠ [] → verdict hosts es found ZOK found.

(** ** The grammar and the parser *)

(** *** Digits *)
Lemma digit_16 c d : digit 16 c = Some d ↔ digit_in 16 c d.
Proof.
  split.
  - destruct c; intros E; vm_compute in E; try discriminate; injection E as <-;
      (split; [split; [lia|first [left; reflexivity|right; reflexivity]]|lia]).
  - intros [[H0 Hc] H16].
    assert (d ∈ [0; 1; 2; 3; 4; 5; 6; 7; 8; 9; 10; 11; 12; 13; 14; 15]) as Hd by (rewrite !elem_of_cons; lia).
    rewrite !elem_of_cons, elem_of_nil in Hd.
    destruct_or! Hd; subst d; destruct Hc as [Hc|Hc]; vm_compute in Hc; try injection Hc as <-; done.
Qed.
Lemma digit_spec base c d : base ≤ 16 → digit base c = Some d ↔ digit_in base c d.
Proof.
  intros Hb. assert (digit base c = Some d ↔ digit 16 c = Some d ∧ d < base) as ->.
  { unfold digit. match goal with |- context [?k <? base] => generalize k end. intros k.
    destruct (Z.ltb_spec k base), (Z.ltb_spec k 16); (split; [|intros [Hk ?]]); naive_solver lia. }
  rewrite digit_16. unfold digit_in. split; [tauto|]. intros [? ?]. split; [split; [done|lia]|done].
Qed.
Lemma digits_spec base s : base ≤ 16 → ∀ acc n,
  digits base s acc = (n, []) ↔ ∃ ds, Forall2 (digit_in base) s ds ∧ n = foldl (λ n d, base * n + d) acc ds.
Proof.
  intros Hb. induction s as [|c s IH]; intros acc n; cbn [digits].
  - split; [intros [= <-]; exists []; by split; [constructor|]|]. intros (ds & Hds & ->). by apply Forall2_nil_inv_l in Hds as ->.
  - destruct (digit base c) as [d|] eqn:E.
    + rewrite IH. apply digit_spec in E; [|done]. split.
      * intros (ds & Hds & ->). exists (d :: ds). by split; [constructor|].
      * intros (ds' & Hds & ->). apply Forall2_cons_inv_l in Hds as (d' & ds & Hd' & Hds & ->).
        apply (digit_spec _ _ _ Hb) in E. apply (digit_spec _ _ _ Hb) in Hd'. rewrite E in Hd'. injection Hd' as <-. by exists ds.
    + split; [done|]. intros (ds' & Hds & ->). apply Forall2_cons_inv_l in Hds as (d' & ds & Hd' & Hds & ->).
      apply (digit_spec _ _ _ Hb) in Hd'. congruence.
Qed.

(** *** Numbers *)
Lemma isspace_blank c : isspace c = true ↔ blank c.
Proof.
  unfold blank. split; [|set_unfold; by intros ?; destruct_or?; subst c].
  destruct c; intros E; vm_compute in E; try discriminate; set_solver.
Qed.
Lemma skip_space_spec s :
  ∃ w, Forall blank w ∧ s = w ++ skip_space s ∧ ∀ c h, skip_space s = c :: h → ¬ blank c.
Proof.
  induction s as [|c s (w & Hw & E & Hh)]; cbn [skip_space]; [by exists []|].
  destruct (isspace c) eqn:Ec.
  - exists (c :: w). split_and!; [by constructor; [apply isspace_blank|]|simpl; by f_equal|done].
  - exists []. split_and!; [constructor|done|]. intros c' h [= <- _] Hb%isspace_blank. congruence.
Qed.
Lemma skip_space_app w s :
  Forall blank w → (∀ c h, s = c :: h → ¬ blank c) → skip_space (w ++ s) = s.
Proof.
  intros Hw Hs. induction Hw as [|c w Hc _ IH]; cbn [app skip_space].
  - destruct s as [|c s]; [done|]. cbn [skip_space]. destruct (isspace c) eqn:E; [|done].
    apply isspace_blank in E. by destruct (Hs c s eq_refl).
  - by rewrite (proj2 (isspace_blank c) Hc).
Qed.
(** A digit is no white space and no sign. *)
Lemma digit_no_prefix c d : digit 16 c = Some d → isspace c = false ∧ isc c Byte.x2d = false ∧ isc c Byte.x2b = false.
Proof. destruct c; intros E; vm_compute in E; try discriminate; done. Qed.
Lemma octal_no_x c d : digit_in 8 c d → isc c Byte.x78 || isc c Byte.x58 = false.
Proof. rewrite <-digit_spec by lia. destruct c; intros E; vm_compute in E; try discriminate; done. Qed.
Lemma magnitude_head m n : magnitude m n → ∃ c s d, m = c :: s ∧ digit 16 c = Some d.
Proof.
  intros [x s ds Hx Hs Hds|s ds Hds|c s ds Hc Hds]; [by eexists _, _, 0..|].
  apply Forall2_cons_inv_l in Hds as (d & ds' & [Hd H10] & _ & ->). exists c, s, d. split; [done|].
  apply digit_16. split; [done|lia].
Qed.
Lemma digit_zero base d : digit base Byte.x30 = Some d → d = 0.
Proof.
  change (digit base Byte.x30) with (if 0 <? base then Some 0 else None). destruct (0 <? base); [by intros [= <-]|done].
Qed.
Lemma base_of_octal s ds : Forall2 (digit_in 8) s ds → base_of (Byte.x30 :: s) = (8, Byte.x30 :: s).
Proof.
  intros Hds. destruct s as [|x [|d s]]; [done|done|]. cbn [base_of].
  apply Forall2_cons_inv_l in Hds as (y & ds' & Hx & _ & ->). by rewrite (octal_no_x x y Hx).
Qed.
Lemma base_of_decimal c s : c ≠ Byte.x30 → base_of (c :: s) = (10, c :: s).
Proof.
  intros Hc. unfold base_of. destruct s as [|x [|d s]]; rewrite isc_spec, bool_decide_eq_false_2 by done; done.
Qed.
Lemma magnitude_spec m n :
  magnitude m n ↔ (base_of m).2 ≠ [] ∧ digits (base_of m).1 (base_of m).2 0 = (n, []).
Proof.
  split.
  - intros [x s ds Hx Hs Hds|s ds Hds|c s ds Hc Hds].
    + destruct s as [|d s]; [done|]. pose proof Hds as (y & ds' & Hy & _ & _)%Forall2_cons_inv_l.
      apply digit_spec in Hy; [|lia].
      assert (base_of (Byte.x30 :: x :: d :: s) = (16, d :: s)) as ->.
      { cbn [base_of]. rewrite (bool_decide_eq_true_2 (is_Some _)) by by exists y.
        set_unfold. by destruct Hx as [->|[->|[]]]. }
      cbn [fst snd]. split; [done|]. apply digits_spec; [lia|]. by exists ds.
    + rewrite (base_of_octal s ds Hds). cbn [fst snd]. split; [done|]. apply digits_spec; [lia|].
      exists (0 :: ds). split; [|done]. constructor; [|done]. by apply digit_spec.
    + rewrite base_of_decimal by done. cbn [fst snd]. split; [done|]. apply digits_spec; [lia|]. by exists ds.
  - destruct m as [|z rest]; [by intros [[] _]|]. destruct (decide (z = Byte.x30)) as [->|Hz].
    + assert ((∃ x d s, rest = x :: d :: s ∧ x ∈ [Byte.x78; Byte.x58] ∧ base_of (Byte.x30 :: rest) = (16, d :: s)) ∨
        base_of (Byte.x30 :: rest) = (8, Byte.x30 :: rest)) as [(x & d & s & -> & Hx & ->)| ->].
      { destruct rest as [|x [|d s]]; [by right..|]. cbn [base_of]. rewrite isc_spec, bool_decide_eq_true_2 by done.
        destruct (_ && _) eqn:E; [left; exists x, d, s|by right]. apply andb_prop in E as [E _].
        rewrite !isc_spec in E. split_and!; [done| |done]. apply orb_prop in E as [E|E]; apply bool_decide_eq_true in E; set_solver. }
      * cbn [fst snd]. intros [_ (ds & Hds & ->)%digits_spec]; [|lia]. by apply mag_hex.
      * cbn [fst snd]. intros [_ (ds' & Hds & ->)%digits_spec]; [|lia].
        apply Forall2_cons_inv_l in Hds as (d & ds & Hd & Hds & ->).
        apply digit_spec, digit_zero in Hd as ->; [|lia]. by apply mag_octal.
    + rewrite base_of_decimal by done. cbn [fst snd]. intros [_ (ds & Hds & ->)%digits_spec]; [|lia]. by apply mag_decimal.
Qed.

(** The value of a string that is a number from its start to its end. *)
Definition clamp (n : Z) : Z := Z.max LONG_MIN (Z.min LONG_MAX n).
Lemma strtol_magnitude neg m n s : magnitude m n → skip_space s = s → sign s = (neg, m) →
  ∀ w, Forall blank w → strtol (w ++ s) = (clamp (if neg then - n else n), []).
Proof.
  intros Hm Hk Hs w Hw. pose proof (skip_space_spec s) as (w' & _ & _ & Hh). rewrite Hk in Hh.
  unfold strtol. rewrite skip_space_app, Hs by done. apply magnitude_spec in Hm as [Hne Hd].
  destruct (base_of m) as [base s']. cbn [fst snd] in *. destruct s' as [|c s']; [done|].
  assert (is_Some (digit base c)) as Hc by (cbn [digits] in Hd; by destruct (digit base c)).
  rewrite bool_decide_eq_true_2, Hd by done. done.
Qed.
Lemma strtol_numeral p n : numeral p n → strtol p = (clamp n, []).
Proof.
  assert (∀ m k, magnitude m k → skip_space m = m ∧ sign m = (false, m)) as Hplain.
  { intros m k (c & s & d & -> & (H1 & H2 & H3)%digit_no_prefix)%magnitude_head. cbn [skip_space sign].
    by rewrite H1, H2, H3. }
  intros [w m k Hw Hm|w m k Hw Hm|w m k Hw Hm].
  - destruct (Hplain m k Hm). by apply (strtol_magnitude false m k).
  - by apply (strtol_magnitude false m k).
  - by apply (strtol_magnitude true m k).
Qed.
Lemma strtol_complete p v : strtol p = (v, []) → p ≠ [] → ∃ n, numeral p n ∧ v = clamp n.
Proof.
  destruct (skip_space_spec p) as (w & Hw & Ep & _). unfold strtol. intros E Hne.
  destruct (sign (skip_space p)) as [neg m] eqn:Es. destruct (base_of m) as [base s'] eqn:Eb.
  destruct s' as [|c s']; [by injection E as _ ->|]. case_bool_decide; [|by injection E as _ ->].
  destruct (digits base (c :: s') 0) as [n e] eqn:Ed. injection E as <- ->.
  assert (magnitude m n) as Hm by (apply magnitude_spec; rewrite Eb; done).
  exists (if neg then - n else n). split; [|done]. rewrite Ep. revert Es. unfold sign.
  destruct (skip_space p) as [|x rest]; [intros [= <- <-]; by apply num_plain|].
  rewrite !isc_spec. case_bool_decide as Hx; [intros [= <- <-]; subst x; by apply num_minus|].
  case_bool_decide as Hx'; intros [= <- <-]; [subst x; by apply num_plus|by apply num_plain].
Qed.
Lemma int_of_port v : int32 v = 0 ↔ v mod 2 ^ 32 = 0.
Proof.
  unfold wrap_s. change (2 ^ (32 - 1)) with 2147483648. change (2 ^ 32) with 4294967296. split; intros E;
    Z.to_euclidean_division_equations; lia.
Qed.
Lemma numeral_not_nil p n : numeral p n → p ≠ [].
Proof.
  intros [w m k Hw (c & s & d & -> & _)%magnitude_head|w m k Hw Hm|w m k Hw Hm] E; by apply app_nil in E as [_ E].
Qed.

(** *** Entries *)
Lemma strrchr_split s c a b : strrchr s c = Some (a, b) → s = a ++ c :: b ∧ c ∉ b.
Proof.
  revert a b. induction s as [|x s IH]; intros a b; cbn [strrchr]; [done|].
  destruct (strrchr s c) as [[a' b']|] eqn:E.
  - intros [= <- <-]. destruct (IH a' b' eq_refl) as [-> Hb]. done.
  - rewrite isc_spec. case_bool_decide as Hx; [|done]. intros [= <- <-]. subst x. split; [done|].
    intros Hin. clear IH. induction s as [|y s IH]; [by apply elem_of_nil in Hin|]. cbn [strrchr] in E.
    destruct (strrchr s c) as [[]|] eqn:E'; [done|]. rewrite isc_spec in E. case_bool_decide as Hy; [done|].
    apply elem_of_cons in Hin as [<-|Hin]; [done|]. by apply IH.
Qed.
Lemma parse_host_spec e host port : parse_host e = Some (host, port) ↔ entry_of e host port.
Proof.
  unfold parse_host. split.
  - destruct (strrchr e colon) as [[h p]|] eqn:E; [|done]. apply strrchr_split in E as [-> Hp].
    destruct (strtol p) as [v end_] eqn:Et. destruct (_ || _) eqn:Eg; [done|]. intros [= <- <-].
    rewrite !orb_false_iff, negb_false_iff, bool_decide_eq_false, bool_decide_eq_true, Z.eqb_neq in Eg.
    destruct Eg as [[Hne ->] Hv]. destruct (strtol_complete p v Et Hne) as (n & Hn & ->).
    destruct (skip_space_spec h) as (w & Hw & Eh & Hh). exists w. split_and!; [done| |done|done|].
    + rewrite Eh at 1. by rewrite <-app_assoc.
    + exists n. split; [done|]. by rewrite <-int_of_port.
  - intros (w & Hw & -> & Hh & Hp & n & Hn & Hz). rewrite app_assoc, strrchr_last by (by apply Forall_forall; intros x Hx ->).
    rewrite (strtol_numeral port n Hn). pose proof (numeral_not_nil port n Hn) as Hne.
    rewrite (bool_decide_eq_false_2 (port = [])), (bool_decide_eq_true_2 ([] = [])) by done. cbn [negb orb].
    rewrite (proj2 (Z.eqb_neq _ 0)) by (by rewrite int_of_port). by rewrite skip_space_app.
Qed.
Lemma parse_host_none e : parse_host e = None ↔ ¬ good_entry e.
Proof.
  split.
  - intros E (h & p & Hp%parse_host_spec). congruence.
  - intros Hn. destruct (parse_host e) as [[h p]|] eqn:E; [|done]. destruct Hn. exists h, p. by apply parse_host_spec.
Qed.
Lemma join_cons p parts : parts ≠ [] → HostsTheorems.join (p :: parts) = p ++ comma :: HostsTheorems.join parts.
Proof. by destruct parts. Qed.
Lemma entries_of_strtok s es : entries_of s es ↔ es = strtok s.
Proof.
  assert (∀ parts, parts ≠ [] → Forall (λ p, comma ∉ p) parts → strtok (HostsTheorems.join parts) = filter (λ p, p ≠ []) parts) as Hjoin.
  { intros parts Hne Hall. unfold strtok. induction Hall as [|p parts Hp Hparts IH]; [done|].
    assert (Forall (λ c, c ≠ comma) p) as Hp' by (apply Forall_forall; by intros x Hx ->).
    rewrite filter_cons. destruct parts as [|q parts].
    - cbn [HostsTheorems.join]. rewrite <-(app_nil_r p) at 1. rewrite tokens_app by done. destruct p; [done|]. by rewrite decide_True.
    - rewrite join_cons, tokens_app by done. cbn [app tokens]. rewrite isc_spec, bool_decide_eq_true_2 by done.
      rewrite IH by done. destruct p; [by rewrite decide_False by tauto|by rewrite decide_True]. }
  split; [intros (parts & Hne & Hall & -> & ->); symmetry; by apply Hjoin|].
  assert (∃ parts, parts ≠ [] ∧ Forall (λ p, comma ∉ p) parts ∧ s = HostsTheorems.join parts) as (parts & Hne & Hall & ->).
  { induction s as [|c s (parts & Hne & Hall & ->)].
    - exists [[]]. split_and!; [done|repeat constructor; set_solver|done].
    - destruct (decide (c = comma)) as [->|Hc].
      + exists ([] :: parts). split_and!; [done|constructor; [set_solver|done]|by rewrite join_cons].
      + destruct parts as [|p parts]; [done|]. apply Forall_cons in Hall as [Hp Hall].
        exists ((c :: p) :: parts). split_and!; [done|constructor; [set_solver|done]|by destruct parts]. }
  intros ->. exists parts. split_and!; [done..|]. by apply Hjoin.
Qed.

(** *** Answers *)
Lemma asked_lookup r host port l : asked r host port l ↔ l = default [] (lookup_host r host port).
Proof.
  unfold lookup_host. destruct (getaddrinfo r true host port) as [rc l1] eqn:E1.
  destruct (getaddrinfo r false host port) as [rc' l2] eqn:E2. split.
  - intros Ha. destruct Ha as [l0 E|rc0 l0 E Hrc Hn|rc0 l0 l0' E Hin E'|rc0 l0 rc1 l0' E Hin E' Hrc];
      rewrite E1 in E; injection E as -> ->; try (rewrite E2 in E'; injection E' as -> ->).
    + done.
    + rewrite (proj2 (Z.eqb_neq rc0 EAI_BADFLAGS)), (proj2 (Z.eqb_neq rc0 EAI_ADDRFAMILY)) by set_solver. cbn [orb].
      by rewrite (proj2 (Z.eqb_neq rc0 0)).
    + set_unfold. by destruct Hin as [->|[->|[]]].
    + set_unfold. destruct Hin as [->|[->|[]]]; cbn; by rewrite (proj2 (Z.eqb_neq rc1 0)).
  - destruct (decide (rc ∈ [EAI_BADFLAGS; EAI_ADDRFAMILY])) as [Hin|Hin].
    + assert ((rc =? EAI_BADFLAGS) || (rc =? EAI_ADDRFAMILY) = true) as -> by (set_unfold; by destruct Hin as [->|[->|[]]]).
      destruct (Z.eqb_spec rc' 0) as [->|Hrc]; cbn; intros ->; [by eapply asked_again_ok|by eapply asked_again_error].
    + rewrite (proj2 (Z.eqb_neq rc EAI_BADFLAGS)), (proj2 (Z.eqb_neq rc EAI_ADDRFAMILY)) by set_solver. cbn [orb].
      destruct (Z.eqb_spec rc 0) as [->|Hrc]; cbn; intros ->; [by apply asked_ok|by eapply asked_error].
Qed.
Definition answer_list (r : resolving) (e : cstring) : list addrinfo :=
  match parse_host e with Some (host, port) => default [] (lookup_host r host port) | None => [] end.
Lemma answers_spec r e l : answers r e l ↔ l = answer_list r e.
Proof.
  unfold answer_list. split.
  - intros [Hn|host port l' He Ha]; [by rewrite (proj2 (parse_host_none e))|].
    apply parse_host_spec in He as ->. by apply asked_lookup.
  - intros ->. destruct (parse_host e) as [[host port]|] eqn:E.
    + eapply answers_good; [by apply parse_host_spec|by apply asked_lookup].
    + apply answers_bad. by apply parse_host_none.
Qed.
Lemma answers_all r es ls : Forall2 (answers r) es ls ↔ ls = answer_list r <$> es.
Proof.
  split.
  - induction 1 as [|e l es ls Hl _ IH]; [done|]. apply answers_spec in Hl as ->. by rewrite IH.
  - intros ->. apply Forall2_fmap_r, Forall_Forall2_diag, Forall_forall. intros e _. by apply answers_spec.
Qed.
Lemma servers_in_addrs r es : servers_in (answer_list r <$> es) = concat (entry_addrs r <$> es).
Proof.
  unfold servers_in. induction es as [|e es IH]; [done|]. cbn [fmap list_fmap concat].
  rewrite filter_app, fmap_app. f_equal; [|exact IH]. unfold entry_addrs, answer_list, host_addrs.
  by destruct (parse_host e) as [[h p]|].
Qed.
Lemma answers_total r es : length (concat (answer_list r <$> es)) = total_size r es.
Proof.
  unfold total_size. induction es as [|e es IH]; [done|]. cbn [fmap list_fmap concat sum_list].
  rewrite length_app, IH. f_equal. unfold answer_list, answers_size. by destruct (parse_host e) as [[h p]|].
Qed.
Lemma meaning_verdict r hosts :
  verdict hosts (strtok hosts) (all_addrs r hosts) (fst (meaning r hosts)) (snd (meaning r hosts)).
Proof.
  unfold meaning. case_bool_decide as Hne; [by apply verdict_empty|].
  destruct (existsb _ _) eqn:E.
  - apply verdict_bad; [done|]. apply existsb_exists in E as (e & Hin & He%bool_decide_eq_true).
    apply Exists_exists. exists e. by rewrite list_elem_of_In, <-parse_host_none.
  - assert (Forall good_entry (strtok hosts)) as Hall.
    { apply Forall_forall. intros e Hin. destruct (parse_host e) as [[h p]|] eqn:Hn;
        [exists h, p; by apply parse_host_spec|exfalso].
      apply not_true_iff_false in E. apply E, existsb_exists. exists e. rewrite <-list_elem_of_In.
      split; [done|by apply bool_decide_eq_true]. }
    case_bool_decide as Hf; [by apply verdict_none|by apply verdict_found].
Qed.

(** C26.  The connection string means its entries.  With memory for every allocation,
    [resolve_hosts] does what the grammar of connection strings says, for every string
    and every resolver: [ZOK] and nothing for the empty string, [ZBADARGUMENTS] if an
    entry has no colon or not a port number other than 0 behind its last colon,
    [ZSYSTEMERROR] if no entry resolves, and otherwise [ZOK] with the addresses of all
    entries, each as often as the resolver returned it, in a well-formed vector whose
    next server is the first; in the order of the string if permutation is disabled.
    The random device is read only if servers have been found and are to be permuted;
    it is the only thing that can go wrong.  Every string has entries, and every entry
    answers. *)
Theorem resolve_hosts_correct (r : resolving) (hosts : cstring) :
  Z.of_nat (length hosts) < INT_MAX →
  (∃ es ls, entries_of hosts es ∧ Forall2 (answers r) es ls) ∧
  ∀ es ls, entries_of hosts es → Forall2 (answers r) es ls → Z.of_nat (length (concat ls)) < 2 ^ 31 →
    ∃ rc servers avec, verdict hosts es (servers_in ls) rc servers ∧
      resolve_hosts r hosts [] =
        ((if bool_decide (servers = []) || disable_conn_permute r then Ret () else setup_random r);;
         Ret (rc, avec, [])) ∧
      av_wf avec ∧ av_next avec = 0 ∧ elems avec ≡ₚ servers ∧
      (disable_conn_permute r = true → elems avec = servers).
Proof.
  intros Hl. split.
  - exists (strtok hosts), (answer_list r <$> strtok hosts). split; [by apply entries_of_strtok|by apply answers_all].
  - intros es ls ->%entries_of_strtok ->%answers_all Hsz. rewrite answers_total in Hsz.
    rewrite servers_in_addrs. fold (all_addrs r hosts).
    destruct (resolve_hosts_seeded r hosts Hl Hsz) as (avec & E & Hrest).
    exists (fst (meaning r hosts)), (snd (meaning r hosts)), avec. split; [apply meaning_verdict|]. by split.
Qed.
(** An entry in hexadecimal, an empty one, one that nobody knows. *)
Lemma resolve_hosts_correct_witness :
  let hosts := lit "a:2181, b:0x885,,nobody:1" in
  ∃ rc servers avec, verdict hosts [lit "a:2181"; lit " b:0x885"; lit "nobody:1"] [server 1 2181; server 2 2181] rc servers ∧
    resolve_hosts sample_resolving hosts [] =
      ((if bool_decide (servers = []) || false then Ret () else setup_random sample_resolving);; Ret (rc, avec, [])) ∧
    elems avec ≡ₚ servers.
Proof.
  intros hosts. destruct (resolve_hosts_correct sample_resolving hosts) as [_ T]; [reflexivity|].
  destruct (T [lit "a:2181"; lit " b:0x885"; lit "nobody:1"] (answer_list sample_resolving <$> [lit "a:2181"; lit " b:0x885"; lit "nobody:1"]))
    as (rc & servers & avec & Hv & E & _ & _ & Hp & _);
    [apply entries_of_strtok; vm_compute; reflexivity|by apply answers_all|vm_compute; reflexivity|].
  exists rc, servers, avec. split; [|split; [exact E|exact Hp]].
  replace [server 1 2181; server 2 2181] with (servers_in (answer_list sample_resolving <$>
    [lit "a:2181"; lit " b:0x885"; lit "nobody:1"])) by (vm_compute; reflexivity).
  exact Hv.
Defined.
