(* ===== verification/Handshake.v ===== *)
(** * The connection handshake and time arithmetic

    The hand-written (de)serialization of the connect packets in src/zookeeper.c,
    which has no archive: it copies each field to its offset in a fixed buffer.  It
    agrees with the generated record format of [ConnectRequest] and [ConnectResponse]
    followed by the read-only flag.  Then the two conversions between milliseconds and
    [struct timeval]. *)

From S2P Require Import Prelude RecordIO RecordIOFacts Jute JuteSpec.
Local Open Scope Z_scope.

(** [struct connect_req] and [struct prime_struct]; a [char] field is its byte. *)
Record connect_req := mk_connect_req {
  cr_protocolVersion : Z;
  cr_lastZxidSeen : Z;
  cr_timeOut : Z;
  cr_sessionId : Z;
  cr_passwd_len : Z;
  cr_passwd : list byte;
  cr_readOnly : byte;
}.
Record prime_struct := mk_prime {
  ps_len : Z;
  ps_protocolVersion : Z;
  ps_timeOut : Z;
  ps_sessionId : Z;
  ps_passwd_len : Z;
  ps_passwd : list byte;
  ps_readOnly : byte;
}.

Definition HANDSHAKE_REQ_SIZE : Z := 45.

(** [memcpy(buffer + offset, src, n)] into a block; [memcpy(dst, buffer + offset, n)]. *)
Definition copy_to (buffer : list byte) (offset : Z) (src : list byte) : outcome (list byte) :=
  if (0 <=? offset) && (offset + Z.of_nat (length src) <=? Z.of_nat (length buffer))
  then Ret (take (Z.to_nat offset) buffer ++ src ++
            drop (Z.to_nat offset + length src) buffer)
  else UB.
Definition copy_from (buffer : list byte) (offset : Z) (n : Z) : outcome (list byte) :=
  if (0 <=? offset) && (offset + n <=? Z.of_nat (length buffer))
  then Ret (take (Z.to_nat n) (drop (Z.to_nat offset) buffer)) else UB.

Section handshake.
Context `{Host}.

(** The request is byte-swapped in place on the way. *)
Definition serialize_prime_connect (req : connect_req) (buffer : list byte)
    : outcome (Z * connect_req * list byte) :=
  let offset := 0 in
  let protocolVersion := htonl (cr_protocolVersion req) in
  buffer ← copy_to buffer offset (mem_of_int 4 protocolVersion);
  let offset := offset + 4 in
  let lastZxidSeen := zoo_htonll (cr_lastZxidSeen req) in
  buffer ← copy_to buffer offset (mem_of_int 8 lastZxidSeen);
  let offset := offset + 8 in
  let timeOut := htonl (cr_timeOut req) in
  buffer ← copy_to buffer offset (mem_of_int 4 timeOut);
  let offset := offset + 4 in
  let sessionId := zoo_htonll (cr_sessionId req) in
  buffer ← copy_to buffer offset (mem_of_int 8 sessionId);
  let offset := offset + 8 in
  let passwd_len := htonl (cr_passwd_len req) in
  buffer ← copy_to buffer offset (mem_of_int 4 passwd_len);
  let offset := offset + 4 in
  buffer ← copy_to buffer offset (cr_passwd req);
  let offset := offset + 16 in
  buffer ← copy_to buffer offset [cr_readOnly req];
  Ret (0, mk_connect_req protocolVersion lastZxidSeen timeOut sessionId passwd_len
            (cr_passwd req) (cr_readOnly req), buffer).

Definition deserialize_prime_response (buffer : list byte) : outcome (Z * prime_struct) :=
  let offset := 0 in
  len ← copy_from buffer offset 4;
  let offset := offset + 4 in
  let len := ntohl (int_of_mem len) in
  protocolVersion ← copy_from buffer offset 4;
  let offset := offset + 4 in
  let protocolVersion := ntohl (int_of_mem protocolVersion) in
  timeOut ← copy_from buffer offset 4;
  let offset := offset + 4 in
  let timeOut := ntohl (int_of_mem timeOut) in
  sessionId ← copy_from buffer offset 8;
  let offset := offset + 8 in
  let sessionId := zoo_htonll (int_of_mem sessionId) in
  passwd_len ← copy_from buffer offset 4;
  let offset := offset + 4 in
  let passwd_len := ntohl (int_of_mem passwd_len) in
  passwd ← copy_from buffer offset 16;
  let offset := offset + 16 in
  readOnly ← copy_from buffer offset 1;
  Ret (0, mk_prime len protocolVersion timeOut sessionId passwd_len passwd
            (default Byte.x00 (head readOnly))).
End handshake.

(** ** Time *)
Record timeval := mk_timeval { tv_sec : Z; tv_usec : Z }.

(** The subtraction of [long]s and the conversion to [int]. *)
Definition calculate_interval (start end_ : timeval) : Z :=
  let sec := int64 (tv_sec end_ - tv_sec start) in
  let usec := int64 (tv_usec end_ - tv_usec start) in
  int32 (int64 (sec * 1000 + Z.quot usec 1000)).

Definition get_timeval (interval : Z) : timeval :=
  let interval := if interval <? 0 then 0 else interval in
  mk_timeval (Z.quot interval 1000) (Z.rem interval 1000 * 1000).

(** ** Facts *)
Lemma copy_to_next (done_ rest : list byte) off src :
  off = Z.of_nat (length done_) → (length src ≤ length rest)%nat →
  copy_to (done_ ++ rest) off src = Ret ((done_ ++ src) ++ drop (length src) rest).
Proof.
  intros -> Hl. unfold copy_to. rewrite length_app.
  rewrite (proj2 (Z.leb_le _ _)), (proj2 (Z.leb_le _ _)) by lia. cbn [andb].
  rewrite Nat2Z.id, take_app_length, drop_app_add, <-app_assoc. done.
Qed.

Lemma copy_from_next (done_ x rest : list byte) off n :
  off = Z.of_nat (length done_) → n = Z.of_nat (length x) →
  copy_from (done_ ++ x ++ rest) off n = Ret x.
Proof.
  intros -> ->. unfold copy_from. rewrite !length_app.
  rewrite (proj2 (Z.leb_le _ _)), (proj2 (Z.leb_le _ _)) by lia. cbn [andb].
  by rewrite !Nat2Z.id, drop_app_length, take_app_length.
Qed.

(** The record the request stands for. *)
Definition to_ConnectRequest (req : connect_req) : ConnectRequest :=
  mk_ConnectRequest (cr_protocolVersion req) (cr_lastZxidSeen req) (cr_timeOut req)
    (cr_sessionId req) (mk_buffer (cr_passwd_len req) (Some (cr_passwd req))).
Definition to_ConnectResponse (p : prime_struct) : ConnectResponse :=
  mk_ConnectResponse (ps_protocolVersion p) (ps_timeOut p) (ps_sessionId p)
    (mk_buffer (ps_passwd_len p) (Some (ps_passwd p))).

(** The request is the record. *)
Lemma prime_connect_writes (H : Host) (req : connect_req) (buffer : list byte) :
  length (cr_passwd req) = 16%nat → Z.of_nat (length buffer) = HANDSHAKE_REQ_SIZE →
  ∃ req', serialize_prime_connect req buffer =
    Ret (0, req', enc_ConnectRequest (to_ConnectRequest req) ++ [cr_readOnly req]).
Proof.
  intros Hp Hb. unfold HANDSHAKE_REQ_SIZE in Hb. unfold serialize_prime_connect.
  rewrite !mem_htonl, !mem_zoo_htonll.
  pose proof (length_be_split 4) as L4. pose proof (length_be_split 8) as L8.
  rewrite <-(app_nil_l buffer).
  rewrite (copy_to_next [] buffer) by (done || rewrite L4; lia). rewrite app_nil_l. run.
  do 6 (rewrite copy_to_next by (rewrite ?length_app, ?length_drop, ?L4, ?L8, ?Hp; simpl; lia);
    run).
  eexists. f_equal. f_equal. rewrite (drop_ge _ (length [_]))
    by (rewrite !length_drop, !L4, !L8, Hp; simpl; lia).
  unfold enc_ConnectRequest, enc_buffer, enc_int, enc_long, to_ConnectRequest.
  cbn [ConnectRequest_protocolVersion ConnectRequest_lastZxidSeen ConnectRequest_timeOut
    ConnectRequest_sessionId ConnectRequest_passwd b_len b_buff from_option id].
  by rewrite app_nil_r, <-!app_assoc.
Qed.

(** The connect request is the generated record.  On a host of either byte order,
    for a request with its 16-byte password, [serialize_prime_connect] fills the whole
    45-byte buffer, and nothing else, with the encoding of [ConnectRequest] followed by
    the read-only flag. *)
Theorem serialize_prime_connect_correct (H : Host) (req : connect_req) (buffer : list byte) :
  length (cr_passwd req) = 16%nat → Z.of_nat (length buffer) = HANDSHAKE_REQ_SIZE →
  ∃ req', serialize_prime_connect req buffer =
    Ret (0, req', enc_ConnectRequest (to_ConnectRequest req) ++ [cr_readOnly req]).
Proof. apply prime_connect_writes. Qed.

Lemma serialize_prime_connect_correct_witness :
  let req := mk_connect_req 0 7 30000 0 16 (replicate 16 Byte.x2a) Byte.x01 in
  ∃ req', @serialize_prime_connect {| big_endian := false; char_signed := true |} req
      (replicate 45 Byte.xff) =
    Ret (0, req', enc_ConnectRequest (to_ConnectRequest req) ++ [cr_readOnly req]).
Proof. apply serialize_prime_connect_correct; reflexivity. Defined.

(** The response is read back. *)
Lemma prime_response_reads (H : Host) (p : prime_struct) :
  in_s 32 (ps_len p) → wf_ConnectResponse (to_ConnectResponse p) →
  length (ps_passwd p) = 16%nat →
  deserialize_prime_response
    (enc_int (ps_len p) ++ enc_ConnectResponse (to_ConnectResponse p) ++ [ps_readOnly p]) =
  Ret (0, p).
Proof.
  intros Hlen (Hv & Ht & Hs & [Hpl _]) Hp. unfold to_ConnectResponse in *.
  unfold enc_ConnectResponse, enc_buffer. cbn [ConnectResponse_protocolVersion
    ConnectResponse_timeOut ConnectResponse_sessionId ConnectResponse_passwd b_len b_buff
    from_option id] in *.
  unfold deserialize_prime_response, enc_int, enc_long. rewrite <-!app_assoc.
  set (a := be_split 4 (ps_len p)). set (b := be_split 4 (ps_protocolVersion p)).
  set (c := be_split 4 (ps_timeOut p)). set (d := be_split 8 (ps_sessionId p)).
  set (e := be_split 4 (ps_passwd_len p)).
  assert (length a = 4%nat ∧ length b = 4%nat ∧ length c = 4%nat ∧ length d = 8%nat ∧
    length e = 4%nat) as (La & Lb & Lc & Ld & Le) by (unfold a, b, c, d, e; by rewrite !length_be_split).
  set (buf := a ++ _).
  assert (∀ done_ x rest off n, buf = done_ ++ x ++ rest → off = Z.of_nat (length done_) →
    n = Z.of_nat (length x) → copy_from buf off n = Ret x) as Hc
    by (intros ????? ->; apply copy_from_next).
  rewrite (Hc [] a (b ++ c ++ d ++ e ++ ps_passwd p ++ [ps_readOnly p]) 0 4) by (done || lia). run.
  rewrite (Hc a b (c ++ d ++ e ++ ps_passwd p ++ [ps_readOnly p]) (0 + 4) 4) by (done || lia). run.
  rewrite (Hc (a ++ b) c (d ++ e ++ ps_passwd p ++ [ps_readOnly p]) (0 + 4 + 4) 4)
    by (rewrite ?length_app, <-?app_assoc; lia || done). run.
  rewrite (Hc (a ++ b ++ c) d (e ++ ps_passwd p ++ [ps_readOnly p]) (0 + 4 + 4 + 4) 8)
    by (rewrite ?length_app, <-?app_assoc; lia || done). run.
  rewrite (Hc (a ++ b ++ c ++ d) e (ps_passwd p ++ [ps_readOnly p]) (0 + 4 + 4 + 4 + 8) 4)
    by (rewrite ?length_app, <-?app_assoc; lia || done). run.
  rewrite (Hc (a ++ b ++ c ++ d ++ e) (ps_passwd p) [ps_readOnly p] (0 + 4 + 4 + 4 + 8 + 4) 16)
    by (rewrite ?length_app, <-?app_assoc; lia || done). run.
  rewrite (Hc (a ++ b ++ c ++ d ++ e ++ ps_passwd p) [ps_readOnly p] []
    (0 + 4 + 4 + 4 + 8 + 4 + 16) 1)
    by (rewrite ?length_app, <-?app_assoc, ?app_nil_r; (cbn [length]; lia) || done). run.
  rewrite !ntohl_mem, zoo_htonll_mem by done. unfold a, b, c, d, e.
  rewrite !be_combine_split by (exact Hlen || exact Hv || exact Ht || exact Hs || lia ||
    (rewrite Hpl, Hp; done)). by destruct p.
Qed.

(** The connect response is the generated record.  From a 41-byte buffer that
    holds a length, the encoding of a [ConnectResponse] with a 16-byte password and the
    read-only flag, [deserialize_prime_response] reads back exactly these values on a
    host of either byte order. *)
Theorem deserialize_prime_response_correct (H : Host) (p : prime_struct) :
  in_s 32 (ps_len p) → wf_ConnectResponse (to_ConnectResponse p) →
  length (ps_passwd p) = 16%nat →
  deserialize_prime_response
    (enc_int (ps_len p) ++ enc_ConnectResponse (to_ConnectResponse p) ++ [ps_readOnly p]) =
  Ret (0, p).
Proof. apply prime_response_reads. Qed.

Lemma deserialize_prime_response_correct_witness :
  let p := mk_prime 37 0 30000 81 16 (replicate 16 Byte.x2a) Byte.x00 in
  @deserialize_prime_response {| big_endian := false; char_signed := true |}
    (enc_int (ps_len p) ++ enc_ConnectResponse (to_ConnectResponse p) ++ [ps_readOnly p]) =
  Ret (0, p).
Proof.
  apply deserialize_prime_response_correct; [done| |done].
  split_and!; simpl; done.
Defined.

(** Time arithmetic.  For two clock readings less than about 24 days apart, with
    microseconds in range, [calculate_interval] is the elapsed time in milliseconds to
    within less than one millisecond; [get_timeval] of an [int] is a normalised
    [timeval] of exactly that many milliseconds, or zero for a negative interval. *)
Theorem time_arithmetic (start end_ : timeval) (interval : Z) :
  0 ≤ tv_usec start < 1000000 → 0 ≤ tv_usec end_ < 1000000 →
  Z.abs (tv_sec end_ - tv_sec start) ≤ 2147482 → in_s 32 interval →
  Z.abs (calculate_interval start end_ * 1000 -
         ((tv_sec end_ * 1000000 + tv_usec end_) -
          (tv_sec start * 1000000 + tv_usec start))) < 1000 ∧
  0 ≤ tv_usec (get_timeval interval) < 1000000 ∧
  tv_sec (get_timeval interval) * 1000000 + tv_usec (get_timeval interval) =
    Z.max 0 interval * 1000.
Proof.
  intros Hs He Hd Hi. unfold in_s in Hi. split.
  - unfold calculate_interval. set (ds := tv_sec end_ - tv_sec start) in *.
    set (du := tv_usec end_ - tv_usec start).
    rewrite (wrap_s_id 64 ds), (wrap_s_id 64 du) by (unfold in_s; lia).
    assert (Z.abs (Z.quot du 1000) ≤ 1000) by (unfold du; Z.to_euclidean_division_equations; lia).
    rewrite (wrap_s_id 64), (wrap_s_id 32) by (unfold in_s; lia).
    replace (tv_sec end_ * 1000000 + tv_usec end_ - (tv_sec start * 1000000 + tv_usec start))
      with (ds * 1000000 + du) by (unfold ds, du; lia).
    Z.to_euclidean_division_equations. lia.
  - unfold get_timeval. destruct (Z.ltb_spec interval 0); simpl;
      Z.to_euclidean_division_equations; lia.
Qed.

Lemma time_arithmetic_witness :
  let s := mk_timeval 10 999000 in let e := mk_timeval 12 1000 in
  Z.abs (calculate_interval s e * 1000 -
         ((tv_sec e * 1000000 + tv_usec e) - (tv_sec s * 1000000 + tv_usec s))) < 1000 ∧
  0 ≤ tv_usec (get_timeval 1500) < 1000000 ∧
  tv_sec (get_timeval 1500) * 1000000 + tv_usec (get_timeval 1500) = Z.max 0 1500 * 1000.
Proof. apply time_arithmetic; simpl; done || lia. Defined.
