(* ===== verification/Queues.v ===== *)
(** * The linked queues of buffers and completions

    [buffer_head_t] and [completion_head_t] of src/zk_adaptor.h with the operations of
    src/zookeeper.c on them, at the level of pointers: a heap maps locations to nodes,
    a queue is a pair of pointers.  Both kinds of queue have nodes with a [next] field
    and some payload, the parameter [P].  The theorem is that they implement double-ended
    lists; the rest of the development uses lists. *)

From S2P Require Import Prelude.
Local Open Scope Z_scope.

Abbreviation loc := positive.

(** [struct _buffer_list] or [struct _completion_list]: the payload and [next]. *)
Record node (P : Type) := mk_node { n_payload : P; n_next : option loc }.
Global Arguments mk_node {P} _ _.
Global Arguments n_payload {P} _.
Global Arguments n_next {P} _.

(** [buffer_head_t] and [completion_head_t]. *)
Record head_t := mk_head { q_head : option loc; q_last : option loc }.

Section queue.
Context {P : Type}.
Abbreviation heap := (gmap loc (node P)).

(** [p->next] and [p->next = v]; a dangling pointer is undefined behaviour. *)
Definition load_next (m : heap) (p : loc) : outcome (option loc) :=
  match m !! p with Some n => Ret (n_next n) | None => UB end.
Definition store_next (m : heap) (p : loc) (v : option loc) : outcome heap :=
  match m !! p with
  | Some n => Ret (<[p := mk_node (n_payload n) v]> m)
  | None => UB
  end.

Definition dequeue_buffer (m : heap) (q : head_t) : outcome (option loc * head_t) :=
  match q_head q with
  | None => Ret (None, q)
  | Some b =>
      next ← load_next m b;
      match next with
      | Some _ => Ret (Some b, mk_head next (q_last q))
      | None =>
          if decide (q_last q = Some b) then Ret (Some b, mk_head None None) else Abort
      end
  end.

Definition queue_buffer (m : heap) (q : head_t) (b : loc) (add_to_front : bool)
    : outcome (heap * head_t) :=
  m ← store_next m b None;
  match q_head q with
  | Some h =>
      match q_last q with
      | None => Abort
      | Some last =>
          if add_to_front then
            m ← store_next m b (Some h);
            Ret (m, mk_head (Some b) (q_last q))
          else
            m ← store_next m last (Some b);
            Ret (m, mk_head (q_head q) (Some b))
      end
  | None => Ret (m, mk_head (Some b) (Some b))
  end.

(** The same for completions, which test [last] instead of [head]. *)
Definition dequeue_completion := dequeue_buffer.
Definition queue_completion_nolock (m : heap) (q : head_t) (c : loc) (add_to_front : bool)
    : outcome (heap * head_t) :=
  m ← store_next m c None;
  match q_last q with
  | Some last =>
      match q_head q with
      | None => Abort
      | Some h =>
          if negb add_to_front then
            m ← store_next m last (Some c);
            Ret (m, mk_head (q_head q) (Some c))
          else
            m ← store_next m c (Some h);
            Ret (m, mk_head (Some c) (q_last q))
      end
  | None =>
      match q_head q with
      | Some _ => Abort
      | None => Ret (m, mk_head (Some c) (Some c))
      end
  end.

(** [for (i=0; ptr!=0; ptr=ptr->next, i++);] on a list of at most [fuel] nodes; [i] is an
    [int]. *)
Fixpoint queue_len_loop (fuel : nat) (m : heap) (ptr : option loc) (i : Z) : outcome Z :=
  match ptr with
  | None => Ret i
  | Some p =>
      match fuel with
      | O => Loop
      | S fuel => next ← load_next m p; if i =? INT_MAX then UB else queue_len_loop fuel m next (i + 1)
      end
  end.
Definition get_queue_len (fuel : nat) (m : heap) (q : head_t) : outcome Z :=
  queue_len_loop fuel m (q_head q) 0.

(** [remove_buffer]: the node taken off is freed. *)
Definition remove_buffer (m : heap) (q : head_t) : outcome (Z * heap * head_t) :=
  '(b, q) ← dequeue_buffer m q;
  match b with
  | None => Ret (0, m, q)
  | Some b => Ret (1, delete b m, q)
  end.

(** [while (remove_buffer(list));] *)
Fixpoint free_buffers (fuel : nat) (m : heap) (q : head_t) : outcome (heap * head_t) :=
  match fuel with
  | O => Loop
  | S fuel =>
      '(more, m, q) ← remove_buffer m q;
      if more =? 0 then Ret (m, q) else free_buffers fuel m q
  end.

(** ** The list a queue represents *)

(** The nodes from [p] to [stop] are those at [ls], with payloads [xs]. *)
Fixpoint chain (m : heap) (p : option loc) (ls : list loc) (xs : list P) : Prop :=
  match ls, xs with
  | [], [] => p = None
  | l :: ls, x :: xs =>
      p = Some l ∧ ∃ n, m !! l = Some n ∧ n_payload n = x ∧ chain m (n_next n) ls xs
  | _, _ => False
  end.

(** Queue [q] holds the payloads [xs], in nodes at the distinct locations [ls]. *)
Record is_queue (m : heap) (q : head_t) (ls : list loc) (xs : list P) : Prop := {
  iq_chain : chain m (q_head q) ls xs;
  iq_last : q_last q = last ls;
  iq_distinct : NoDup ls;
}.

Lemma chain_frame m p ls xs l n :
  l ∉ ls → chain m p ls xs → chain (<[l := n]> m) p ls xs.
Proof.
  revert p xs. induction ls as [|l' ls IH]; intros p [|x xs] Hl; simpl; try done.
  intros (-> & n' & Hn & Hx & Hc). split; [done|]. exists n'.
  rewrite lookup_insert_ne by set_solver. split_and!; [done..|]. apply IH; set_solver.
Qed.
Lemma chain_frame_delete m p ls xs l :
  l ∉ ls → chain m p ls xs → chain (delete l m) p ls xs.
Proof.
  revert p xs. induction ls as [|l' ls IH]; intros p [|x xs] Hl; simpl; try done.
  intros (-> & n' & Hn & Hx & Hc). split; [done|]. exists n'.
  rewrite lookup_delete_ne by set_solver. split_and!; [done..|]. apply IH; set_solver.
Qed.
Lemma chain_length m p ls xs : chain m p ls xs → length ls = length xs.
Proof.
  revert p xs. induction ls as [|l ls IH]; intros p [|x xs]; simpl; try done.
  intros (_ & n & _ & _ & Hc). f_equal. by eapply IH.
Qed.

(** Appending a node: the last [next] pointer is redirected. *)
Lemma chain_snoc m p ls xs z b x :
  chain m p (ls ++ [z]) xs → NoDup (ls ++ [z]) → b ∉ ls ++ [z] →
  m !! b = Some (mk_node x None) →
  ∃ n, m !! z = Some n ∧
    chain (<[z := mk_node (n_payload n) (Some b)]> m) p (ls ++ [z; b]) (xs ++ [x]).
Proof.
  revert p xs. induction ls as [|l ls IH]; intros p [|y xs]; simpl; try done.
  - intros (-> & n & Hn & Hy & Hc) _ Hb Hx. exists n. split; [done|].
    destruct xs; [|done]. split; [done|]. eexists. split; [apply lookup_insert_eq|].
    split; [done|]. split; [done|]. exists (mk_node x None).
    rewrite lookup_insert_ne by set_solver. done.
  - intros (-> & n & Hn & Hy & Hc) [Hnl Hnd]%NoDup_cons Hb Hx.
    destruct (IH _ _ Hc Hnd) as (n' & Hn' & Hc'); [set_solver|done|].
    exists n'. split; [done|]. split; [done|]. exists n.
    rewrite lookup_insert_ne by set_solver. done.
Qed.

Lemma is_queue_nil m q : is_queue m q [] [] ↔ q = mk_head None None.
Proof.
  split; [|by intros ->; split; [..|constructor]].
  intros [Hc Hl _]. simpl in Hc, Hl. destruct q; simpl in *. congruence.
Qed.

(** Taking the first element off. *)
Lemma dequeue_spec m q ls xs :
  is_queue m q ls xs →
  match ls, xs with
  | b :: ls, x :: xs => ∃ q', dequeue_buffer m q = Ret (Some b, q') ∧ is_queue m q' ls xs
  | _, _ => dequeue_buffer m q = Ret (None, q) ∧ ls = [] ∧ xs = []
  end.
Proof.
  intros [Hc Hl Hnd]. unfold dequeue_buffer.
  destruct ls as [|b ls], xs as [|x xs]; simpl in Hc; try done; [by rewrite Hc|].
  destruct Hc as (-> & n & Hn & Hx & Hc). unfold load_next. rewrite Hn. run.
  apply NoDup_cons in Hnd as [Hb Hnd].
  destruct ls as [|b' ls], xs as [|x' xs]; simpl in Hc; try done.
  - rewrite Hc, decide_True by done. eexists. split; [done|]. by apply is_queue_nil.
  - destruct Hc as (Hnx & Hc). rewrite Hnx. eexists. split; [done|].
    split; [by split|by rewrite Hl, last_cons_cons|done].
Qed.

(** Linking a node in, at either end; [b] is a node of its own. *)
Lemma queue_spec m q ls xs b x nx front :
  is_queue m q ls xs → m !! b = Some (mk_node x nx) → b ∉ ls →
  ∃ m' q', queue_buffer m q b front = Ret (m', q') ∧
    queue_completion_nolock m q b front = Ret (m', q') ∧
    (if front then is_queue m' q' (b :: ls) (x :: xs)
     else is_queue m' q' (ls ++ [b]) (xs ++ [x])) ∧
    (∀ l, l ∉ ls → l ≠ b → m' !! l = m !! l).
Proof.
  intros [Hc Hl Hnd] Hb Hnin. unfold queue_buffer, queue_completion_nolock, store_next.
  rewrite Hb. run. cbn [n_payload]. set (m1 := <[b := mk_node x None]> m).
  assert (m1 !! b = Some (mk_node x None)) as Hb1 by apply lookup_insert_eq.
  pose proof (chain_frame m _ ls xs b (mk_node x None) Hnin Hc) as Hc1. fold m1 in Hc1.
  destruct ls as [|l ls'] using rev_ind.
  - simpl in Hl. destruct xs; [|by simpl in Hc]. simpl in Hc. rewrite Hc, Hl.
    eexists m1, _. split_and!; [done..| |].
    + assert (is_queue m1 (mk_head (Some b) (Some b)) [b] [x]).
      { split; simpl; [split; [done|]; by eexists|done|apply NoDup_singleton]. }
      by destruct front.
    + intros l _ Hne. by apply lookup_insert_ne.
  - clear IHls'. rewrite last_snoc in Hl. rewrite Hl.
    assert (∃ h, q_head q = Some h) as [h Hh].
    { destruct ls', xs; simpl in Hc; naive_solver. }
    rewrite Hh. destruct front; cbn [negb].
    + rewrite Hb1. run. eexists _, _. split_and!; [done..| |].
      * split; simpl; [|by rewrite last_cons, last_snoc|by constructor].
        split; [done|]. eexists. rewrite lookup_insert_eq. split_and!; [done..|].
        simpl. rewrite <-Hh. by apply chain_frame.
      * intros k _ Hne. rewrite lookup_insert_ne by done. by apply lookup_insert_ne.
    + destruct (chain_snoc m1 _ ls' xs l b x Hc1 Hnd Hnin Hb1) as (n & Hn & Hc2).
      rewrite Hn. run. eexists _, _. split_and!; [done..| |].
      * assert (NoDup ((ls' ++ [l]) ++ [b])) as Hnd2.
        { apply NoDup_app. split_and!; [done|set_solver|apply NoDup_singleton]. }
        split; simpl; [|by rewrite last_snoc|done].
        rewrite <-Hh, <-app_assoc. done.
      * intros k Hk Hne. rewrite lookup_insert_ne by set_solver. by apply lookup_insert_ne.
Qed.

Lemma queue_len_spec m p ls xs fuel i :
  chain m p ls xs → (length xs ≤ fuel)%nat → i ≤ INT_MAX →
  queue_len_loop fuel m p i =
    let n := i + Z.of_nat (length xs) in if n <=? INT_MAX then Ret n else UB.
Proof.
  revert p xs fuel i. induction ls as [|l ls IH]; intros p [|x xs] fuel i; simpl; try done.
  - intros -> _ Hi. rewrite Z.add_0_r. rewrite (proj2 (Z.leb_le _ _)) by done. by destruct fuel.
  - intros (-> & n & Hn & Hx & Hc) Hf Hi. destruct fuel as [|fuel]; [lia|]. simpl.
    unfold load_next. rewrite Hn. run. destruct (Z.eqb_spec i INT_MAX) as [->|Hne].
    + by rewrite (proj2 (Z.leb_gt _ _)) by lia.
    + rewrite (IH _ xs) by (done || lia). by replace (i + 1 + Z.of_nat (length xs)) with (i + Z.of_nat (S (length xs))) by lia.
Qed.

Lemma free_buffers_spec m q ls xs fuel :
  is_queue m q ls xs → (length xs < fuel)%nat →
  ∃ m', free_buffers fuel m q = Ret (m', mk_head None None) ∧
    (∀ l, l ∈ ls → m' !! l = None) ∧ (∀ l, l ∉ ls → m' !! l = m !! l).
Proof.
  revert m q ls xs. induction fuel as [|fuel IH]; intros m q ls xs Hq Hf; [lia|].
  cbn [free_buffers]. unfold remove_buffer. pose proof (dequeue_spec m q ls xs Hq) as Hd.
  destruct ls as [|b ls], xs as [|x xs].
  - destruct Hd as [-> _]. run. apply is_queue_nil in Hq as ->.
    exists m. split_and!; [done|set_solver|done].
  - by destruct Hd as (_ & _ & ?).
  - by destruct Hd as (_ & ? & _).
  - destruct Hd as (q' & -> & Hq'). run.
    pose proof (iq_distinct _ _ _ _ Hq) as [Hb Hnd]%NoDup_cons.
    assert (is_queue (delete b m) q' ls xs) as Hq2.
    { destruct Hq' as [Hc Hl _]. split; [by apply chain_frame_delete|done..]. }
    destruct (IH _ _ _ _ Hq2) as (m' & -> & Hin & Hout); [simpl in Hf; lia|].
    exists m'. split; [done|]. split.
    + intros l [->|Hl]%elem_of_cons; [|by apply Hin].
      rewrite Hout by done. by rewrite lookup_delete_eq.
    + intros l Hl. rewrite Hout by set_solver. rewrite lookup_delete_ne by set_solver. done.
Qed.
End queue.

(** C31.  The pointer queues implement lists.  On a queue that holds a list, whatever
    else is in the heap: enqueuing a node puts it at the front or at the back as asked
    (for both kinds of queue), dequeuing returns the first node and leaves the rest,
    or NULL when the list is empty, the length is counted right as far as an [int] goes
    and overflows beyond, and freeing empties
    the queue and releases exactly its nodes.  No assertion fails, no dangling pointer
    is followed and nodes outside the queue are untouched. *)
Theorem queues_implement_lists {P} (m : gmap loc (node P)) (q : head_t) (ls : list loc)
    (xs : list P) (b : loc) (x : P) (nx : option loc) (front : bool) :
  is_queue m q ls xs → m !! b = Some (mk_node x nx) → b ∉ ls →
  (∃ m' q', queue_buffer m q b front = Ret (m', q') ∧
     queue_completion_nolock m q b front = Ret (m', q') ∧
     (if front then is_queue m' q' (b :: ls) (x :: xs)
      else is_queue m' q' (ls ++ [b]) (xs ++ [x])) ∧
     (∀ l, l ∉ ls → l ≠ b → m' !! l = m !! l)) ∧
  (∃ q', dequeue_buffer m q = Ret (head ls, q') ∧ is_queue m q' (tail ls) (tail xs)) ∧
  get_queue_len (length xs) m q =
    (if Z.of_nat (length xs) <=? INT_MAX then Ret (Z.of_nat (length xs)) else UB) ∧
  (∃ m', free_buffers (S (length xs)) m q = Ret (m', mk_head None None) ∧
     (∀ l, l ∈ ls → m' !! l = None) ∧ (∀ l, l ∉ ls → m' !! l = m !! l)).
Proof.
  intros Hq Hb Hnin. split; [by eapply queue_spec|]. split; [|split].
  - pose proof (dequeue_spec m q ls xs Hq) as Hd.
    destruct ls, xs; [exists q; naive_solver|naive_solver..|]. done.
  - unfold get_queue_len. rewrite (queue_len_spec m _ ls xs) by (apply Hq || lia). done.
  - apply (free_buffers_spec m q ls xs); [done|lia].
Qed.

Lemma queues_implement_lists_witness :
  let m : gmap loc (node Z) := {[1%positive := mk_node 10 None; 2%positive := mk_node 20 None]} in
  let q := mk_head (Some 1%positive) (Some 1%positive) in
  (∃ m' q', queue_buffer m q 2 false = Ret (m', q') ∧
     queue_completion_nolock m q 2 false = Ret (m', q') ∧
     is_queue m' q' [1%positive; 2%positive] [10; 20] ∧
     (∀ l, l ∉ [1%positive] → l ≠ 2%positive → m' !! l = m !! l)) ∧
  (∃ q', dequeue_buffer m q = Ret (Some 1%positive, q') ∧ is_queue m q' [] []) ∧
  get_queue_len 1 m q = Ret 1 ∧
  (∃ m', free_buffers 2 m q = Ret (m', mk_head None None) ∧
     (∀ l, l ∈ [1%positive] → m' !! l = None) ∧ (∀ l, l ∉ [1%positive] → m' !! l = m !! l)).
Proof.
  apply (queues_implement_lists _ _ [1%positive] [10] 2%positive 20 None false); [|done|set_solver].
  split; simpl; [split; [done|]; by eexists|done|apply NoDup_singleton].
Defined.
