(* ===== verification/Transport.v ===== *)
(** * Sending and receiving packets

    [send_buffer], [recv_buffer] and [flush_send_queue] of src/zookeeper.c over a
    non-blocking socket.  The socket decides how much each call transfers: an [io] per
    call, would-block once the script is used up.  A packet on the wire is its length,
    four bytes in network order, and its contents. *)

From S2P Require Import Prelude RecordIO Handshake.
Local Open Scope Z_scope.

Abbreviation ZOK := 0.
Abbreviation ZSYSTEMERROR := (-1).
Abbreviation ZCONNECTIONLOSS := (-4).
Abbreviation ZOPERATIONTIMEOUT := (-7).

(** [buffer_list_t] without its link. *)
Record buffer_list := mk_bl {
  bl_buffer : option (list byte);
  bl_len : Z;
  bl_curr_offset : Z;
}.

(** [sizeof(buffer_list_t)], the length given to a buffer created for input. *)
Definition sizeof_buffer_list : Z := 32.

Definition allocate_buffer (buff : option (list byte)) (len : Z) (o : allocs)
    : option buffer_list * allocs :=
  let '(ok, o) := alloc o in
  if negb ok then (None, o)
  else (Some (mk_bl buff (if len =? 0 then sizeof_buffer_list else len) 0), o).

(** What one [send] or [recv] does: transfer up to [n] bytes, block, fail, or (for
    [recv]) find the connection closed. *)
Inductive io := IoOk (n : nat) | IoAgain | IoError | IoClosed.

(** [zookeeper_send(fd, data, length data)]: result, whether [errno] is [EAGAIN], the
    bytes sent. *)
Definition zookeeper_send (data : list byte) (script : list io)
    : Z * bool * list byte * list io :=
  match script with
  | [] => (-1, true, [], [])
  | IoOk n :: script =>
      let sent := take n data in (Z.of_nat (length sent), false, sent, script)
  | IoAgain :: script => (-1, true, [], script)
  | _ :: script => (-1, false, [], script)
  end.

Definition add_offset (rc : Z) (b : buffer_list) : buffer_list :=
  mk_bl (bl_buffer b) (bl_len b) (bl_curr_offset b + rc).

(** The end of both functions: [curr_offset == len + sizeof(len)], compared as
    [size_t]. *)
Definition complete (b : buffer_list) : bool :=
  size_t (bl_curr_offset b) =? size_t (size_t (bl_len b) + 4).

Section transport.
Context `{Host}.

(** The second half of [send_buffer]: the contents from [off] on. *)
Definition send_contents (b : buffer_list) (off : Z) (script : list io)
    : outcome (Z * buffer_list * list byte * list io) :=
  let off := off - 4 in
  match bl_buffer b with
  | None => UB
  | Some d =>
      if negb ((0 <=? off) && (off <=? bl_len b) && (bl_len b <=? Z.of_nat (length d)))
      then UB else
      let data := take (Z.to_nat (bl_len b - off)) (drop (Z.to_nat off) d) in
      let '(rc, again, sent, script) := zookeeper_send data script in
      if rc =? -1 then
        if negb again then Ret (-1, b, sent, script)
        else Ret (if complete b then 1 else 0, b, sent, script)
      else
        let b := add_offset rc b in
        Ret (if complete b then 1 else 0, b, sent, script)
  end.

Definition send_buffer (b : buffer_list) (script : list io)
    : outcome (Z * buffer_list * list byte * list io) :=
  let len := bl_len b in
  let off := bl_curr_offset b in
  if off <? 4 then
    if off <? 0 then UB else
    let nlen := mem_of_int 4 (htonl len) in
    let '(rc, again, sent, script) := zookeeper_send (drop (Z.to_nat off) nlen) script in
    if rc =? -1 then Ret (if again : bool then 0 else -1, b, sent, script)
    else
      let b := add_offset rc b in
      let off := bl_curr_offset b in
      if 4 <=? off then
        '(rc, b, sent', script) ← send_contents b off script;
        Ret (rc, b, sent ++ sent', script)
      else Ret (if complete b then 1 else 0, b, sent, script)
  else send_contents b off script.

(** ** [flush_send_queue] *)

(** What the clock and [poll] say in one round when a timeout is given. *)
Record poll_step := mk_poll { p_elapsed : Z; p_rc : Z }.

(** The loop over the queue, with the bytes sent so far; [polls] has one element per
    round when [timeout] is not 0, time is up when it is used up.  [stamp] says whether
    [last_send] has been set. *)
Fixpoint flush_loop (fuel : nat) (connected : bool) (timeout : Z) (queue : list buffer_list)
    (polls : list poll_step) (script : list io) (wire : list byte) (stamp : bool)
    : outcome (Z * list buffer_list * list byte * list io * bool) :=
  match queue with
  | [] => Ret (ZOK, queue, wire, script, stamp)
  | b :: rest =>
      if negb connected then Ret (ZOK, queue, wire, script, stamp) else
      let '(expired, polled, polls) :=
        if timeout =? 0 then (false, 1, polls)
        else match polls with
             | [] => (true, 0, [])
             | p :: polls => (timeout <? p_elapsed p, p_rc p, polls)
             end in
      if expired then Ret (ZOPERATIONTIMEOUT, queue, wire, script, stamp) else
      if polled <=? 0 then
        Ret (if polled =? 0 then ZOPERATIONTIMEOUT else ZSYSTEMERROR, queue, wire, script, stamp)
      else
      '(rc, b, sent, script) ← send_buffer b script;
      let wire := wire ++ sent in
      if (rc =? 0) && (timeout =? 0) then Ret (ZOK, b :: rest, wire, script, stamp) else
      if rc <? 0 then Ret (ZCONNECTIONLOSS, b :: rest, wire, script, stamp) else
      match fuel with
      | O => Loop
      | S fuel =>
          flush_loop fuel connected timeout (if 0 <? rc then rest else b :: rest)
            polls script wire true
      end
  end.
Definition flush_send_queue (connected : bool) (timeout : Z) (queue : list buffer_list)
    (polls : list poll_step) (script : list io)
    : outcome (Z * list buffer_list * list byte * list io * bool) :=
  flush_loop (length queue + length polls) connected timeout queue polls script [] false.

(** ** [recv_buffer] *)

(** [recv(fd, p, want, 0)] with [inp] on its way: result, whether [errno] is [EAGAIN],
    the bytes received, what is left.  A request of no bytes returns 0. *)
Definition recv (want : Z) (inp : list byte) (script : list io)
    : Z * bool * list byte * list byte * list io :=
  match script with
  | [] => (-1, true, [], inp, [])
  | IoOk n :: script =>
      if want =? 0 then (0, false, [], inp, script)
      else match inp, n with
           | [], _ | _, O => (-1, true, [], inp, script)
           | _, _ =>
               let k := Nat.min n (Z.to_nat want) in
               let got := take k inp in
               (Z.of_nat (length got), false, got, drop k inp, script)
           end
  | IoAgain :: script => (-1, true, [], inp, script)
  | IoError :: script => (-1, false, [], inp, script)
  | IoClosed :: script => (0, false, [], inp, script)
  end.

(** [calloc(1, len)] for the [int] length read from the wire. *)
Definition calloc_block (len : Z) (o : allocs) : option (list byte) * allocs :=
  let '(ok, o) := alloc_bytes (size_t len) o in
  (if ok : bool then Some (replicate (Z.to_nat len) Byte.x00) else None, o).

(** The second half, when there is a block: [primer] says whether [buff] is
    [&zh->primer_buffer]. *)
Definition recv_contents (primer : bool) (b : buffer_list) (off : Z) (inp : list byte)
    (script : list io) : outcome (Z * buffer_list * list byte * list io) :=
  match bl_buffer b with
  | None => Ret (if complete b then 1 else 0, b, inp, script)
  | Some d =>
      let off := off - 4 in
      let '(rc, again, got, inp, script) := recv (bl_len b - off) inp script in
      d ← copy_to d off got;
      let b := mk_bl (Some d) (bl_len b) (bl_curr_offset b) in
      let rc := if primer && (rc =? bl_len b - 1) then rc + 1 else rc in
      if (rc =? 0) || (rc =? -1) then
        if again then Ret (if complete b then 1 else 0, b, inp, script)
        else Ret (-1, b, inp, script)
      else
        let b := add_offset rc b in
        Ret (if complete b then 1 else 0, b, inp, script)
  end.

Definition recv_buffer (primer : bool) (b : buffer_list) (inp : list byte)
    (script : list io) (o : allocs)
    : outcome (Z * buffer_list * list byte * list io * allocs) :=
  let off := bl_curr_offset b in
  if off <? 4 then
    let '(rc, again, got, inp, script) := recv (4 - off) inp script in
    len ← copy_to (mem_of_int 4 (bl_len b)) off got;
    let b := mk_bl (bl_buffer b) (int_of_mem len) (bl_curr_offset b) in
    if (rc =? 0) || (rc =? -1) then
      Ret (if again : bool then 0 else -1, b, inp, script, o)
    else
      let b := add_offset rc b in
      let off := bl_curr_offset b in
      let '(b, o) :=
        if off =? 4 then
          let len := ntohl (bl_len b) in
          let '(d, o) := calloc_block len o in (mk_bl d len off, o)
        else (b, o) in
      '(rc, b, inp, script) ← recv_contents primer b off inp script;
      Ret (rc, b, inp, script, o)
  else
    '(rc, b, inp, script) ← recv_contents primer b off inp script;
    Ret (rc, b, inp, script, o).
End transport.
