(* ===== verification/TransportFacts.v ===== *)
(** * Facts about sending and receiving packets

    Whatever the socket transfers per call, the bytes sent are the packets of the
    queue in order, and the packets received are those of the input stream. *)

From S2P Require Import Prelude RecordIO RecordIOFacts Handshake Transport.
Local Open Scope Z_scope.

(** A packet as it travels. *)
Definition frame (d : list byte) : list byte := be_split 4 (Z.of_nat (length d)) ++ d.

Lemma length_frame d : length (frame d) = (4 + length d)%nat.
Proof. unfold frame. by rewrite length_app, length_be_split. Qed.

(** ** Sending *)

(** [b] is a packet with contents [d], partly sent. *)
Record sending (b : buffer_list) (d : list byte) : Prop := {
  snd_buffer : bl_buffer b = Some d;
  snd_len : bl_len b = Z.of_nat (length d);
  snd_off : 0 ≤ bl_curr_offset b ≤ bl_len b + 4;
  snd_max : bl_len b + 4 ≤ INT_MAX;
}.
Definition unsent (b : buffer_list) (d : list byte) : list byte :=
  drop (Z.to_nat (bl_curr_offset b)) (frame d).

Lemma zookeeper_send_spec data script :
  ∃ rc again k script', zookeeper_send data script = (rc, again, take k data, script') ∧
    (rc = -1 ∧ k = 0%nat ∨ rc = Z.of_nat k ∧ (k ≤ length data)%nat).
Proof.
  destruct script as [|[n| | |] script]; simpl.
  - by eexists _, _, 0%nat, _; split; [|left].
  - exists (Z.of_nat (length (take n data))), false, (length (take n data)), script.
    rewrite length_take. split; [|right; lia]. f_equal. f_equal.
    destruct (decide (n ≤ length data)%nat); [by rewrite Nat.min_l|].
    by rewrite Nat.min_r, !take_ge by lia.
  - by eexists _, _, 0%nat, _; split; [|left].
  - by eexists _, _, 0%nat, _; split; [|left].
  - by eexists _, _, 0%nat, _; split; [|left].
Qed.

Lemma sending_add b d k :
  sending b d → (k ≤ length (unsent b d))%nat →
  sending (add_offset (Z.of_nat k) b) d ∧
  unsent b d = take k (unsent b d) ++ unsent (add_offset (Z.of_nat k) b) d.
Proof.
  intros [Hb Hl Ho Hm] Hk. unfold unsent in *. rewrite length_drop, length_frame in Hk.
  split; [split; simpl; done || lia|]. cbn [add_offset bl_curr_offset].
  rewrite <-(take_drop k (drop _ (frame d))) at 1. f_equal.
  rewrite drop_drop. f_equal. lia.
Qed.

Lemma complete_spec b d :
  sending b d → complete b = bool_decide (unsent b d = []).
Proof.
  intros [Hb Hl Ho Hm]. unfold complete, unsent.
  rewrite (wrap_u_id 64 (bl_len b)), !wrap_u_id by (unfold in_u; lia).
  assert (drop (Z.to_nat (bl_curr_offset b)) (frame d) = [] ↔ bl_curr_offset b = bl_len b + 4) as He.
  { rewrite <-length_zero_iff_nil, length_drop, length_frame. lia. }
  case_bool_decide as E; [by apply Z.eqb_eq, He|]. apply Z.eqb_neq. by rewrite <-He.
Qed.

(** The result code says whether everything has been sent. *)
Definition sent_code (rc : Z) (b : buffer_list) (d : list byte) : Prop :=
  (rc = 1 ∧ unsent b d = []) ∨ (rc = 0 ∧ unsent b d ≠ []) ∨ rc = -1.

Lemma complete_code b d :
  sending b d → sent_code (if complete b then 1 else 0) b d.
Proof.
  intros Hs. rewrite (complete_spec b d Hs). unfold sent_code. case_bool_decide; auto.
Qed.

Section host.
Context `{Host}.

Lemma send_contents_spec b d script :
  sending b d → 4 ≤ bl_curr_offset b →
  ∃ rc b' sent script', send_contents b (bl_curr_offset b) script = Ret (rc, b', sent, script') ∧
    sending b' d ∧ unsent b d = sent ++ unsent b' d ∧ sent_code rc b' d.
Proof.
  intros Hs Ho. pose proof Hs as [Hb Hl Hoff Hm]. unfold send_contents. rewrite Hb.
  rewrite !(proj2 (Z.leb_le _ _)) by lia. cbn [andb negb].
  assert (take (Z.to_nat (bl_len b - (bl_curr_offset b - 4)))
            (drop (Z.to_nat (bl_curr_offset b - 4)) d) = unsent b d) as ->.
  { rewrite take_ge by (rewrite length_drop; lia). unfold unsent, frame.
    rewrite drop_app_ge by (rewrite length_be_split; lia).
    rewrite length_be_split. f_equal. lia. }
  destruct (zookeeper_send_spec (unsent b d) script)
    as (rc & again & k & script' & -> & [[-> ->]|[-> Hk]]).
  - cbn [Z.eqb Pos.eqb]. destruct again; cbn [negb]; eexists _, b, _, _;
      (split; [done|]); (split; [done|]); (split; [done|]); [by apply complete_code|].
    right. by right.
  - rewrite (proj2 (Z.eqb_neq _ _)) by lia. destruct (sending_add b d k Hs Hk) as [Hs' Hu].
    eexists _, _, _, _. split; [done|]. split_and!; [done..|]. by apply complete_code.
Qed.

Lemma send_buffer_spec b d script :
  sending b d →
  ∃ rc b' sent script', send_buffer b script = Ret (rc, b', sent, script') ∧
    sending b' d ∧ unsent b d = sent ++ unsent b' d ∧ sent_code rc b' d.
Proof.
  intros Hs. pose proof Hs as [Hb Hl Ho Hm]. unfold send_buffer.
  destruct (Z.ltb_spec (bl_curr_offset b) 4) as [Hlt|Hge]; [|by apply send_contents_spec].
  rewrite (proj2 (Z.ltb_ge _ _)) by lia. rewrite mem_htonl.
  set (off := Z.to_nat (bl_curr_offset b)).
  assert (unsent b d = drop off (be_split 4 (bl_len b)) ++ d) as Hu.
  { unfold unsent, frame. rewrite Hl. apply drop_app_le. rewrite length_be_split. lia. }
  destruct (zookeeper_send_spec (drop off (be_split 4 (bl_len b))) script)
    as (rc & again & k & script' & -> & [[-> ->]|[-> Hk]]).
  - cbn [Z.eqb Pos.eqb]. eexists _, b, _, _. split; [done|]. split_and!; [done..|].
    destruct again; [right; left|by right; right]. split; [done|].
    rewrite Hu. intros E. apply (f_equal length) in E.
    rewrite length_app, length_drop, length_be_split in E. simpl in E. lia.
  - rewrite (proj2 (Z.eqb_neq _ _)) by lia.
    assert (k ≤ length (unsent b d))%nat as Hk' by (rewrite Hu, length_app; lia).
    destruct (sending_add b d k Hs Hk') as [Hs' Hu'].
    assert (take k (drop off (be_split 4 (bl_len b))) = take k (unsent b d)) as ->.
    { rewrite Hu. symmetry. by apply take_app_le. }
    destruct (Z.leb_spec 4 (bl_curr_offset (add_offset (Z.of_nat k) b))) as [H4|H4].
    + destruct (send_contents_spec _ d script' Hs' H4) as (rc & b' & sent & sc' & -> & Hs2 & Hu2 & Hc).
      run. eexists _, _, _, _. split; [done|]. split_and!; [done| |done].
      by rewrite <-app_assoc, <-Hu2.
    + eexists _, _, _, _. split; [done|]. split_and!; [done..|]. by apply complete_code.
Qed.

(** What is left to send of a queue. *)
Fixpoint to_send (queue : list buffer_list) (ds : list (list byte)) : list byte :=
  match queue, ds with
  | b :: queue, d :: ds => unsent b d ++ to_send queue ds
  | _, _ => []
  end.

Lemma flush_loop_spec fuel connected timeout queue ds polls script wire stamp :
  Forall2 sending queue ds → (length queue + length polls ≤ fuel)%nat →
  ∃ rc queue' sent script' stamp' k,
    flush_loop fuel connected timeout queue polls script wire stamp =
      Ret (rc, queue', wire ++ sent, script', stamp') ∧
    Forall2 sending queue' (drop k ds) ∧ to_send queue ds = sent ++ to_send queue' (drop k ds) ∧
    (rc = ZOK → connected = true → timeout ≠ 0 → queue' = []) ∧
    (rc = ZOK ∨ rc = ZOPERATIONTIMEOUT ∨ rc = ZSYSTEMERROR ∨ rc = ZCONNECTIONLOSS).
Proof.
  revert queue ds polls script wire stamp. induction fuel as [|fuel IH];
    intros queue ds polls script wire stamp Hq Hf.
  { destruct Hq; simpl in Hf; [|lia]. eexists ZOK, [], [], script, _, 0%nat.
    rewrite app_nil_r. split_and!; auto. }
  destruct Hq as [|b d queue ds Hb Hq].
  { eexists ZOK, [], [], script, _, 0%nat. rewrite app_nil_r. split_and!; auto. }
  cbn [flush_loop]. destruct connected; cbn [negb];
    [|eexists ZOK, _, [], script, _, 0%nat; rewrite app_nil_r;
     split_and!; [done|by constructor|done|done|by auto]].
  set (round := if timeout =? 0 then _ else _).
  assert (∃ expired polled polls', round = (expired, polled, polls') ∧
    (timeout = 0 → expired = false ∧ polled = 1) ∧
    (expired = false → timeout ≠ 0 → (length polls' < length polls)%nat) ∧
    (length polls' ≤ length polls)%nat) as (expired & polled & polls' & Er & Hr0 & Hr1 & Hr2).
  { unfold round. destruct (Z.eqb_spec timeout 0); [by eexists _, _, _; split_and!|].
    destruct polls as [|p polls]; eexists _, _, _; (split; [done|]); split_and!; simpl;
      try done; lia. }
  rewrite Er. clearbody round. destruct expired.
  { eexists _, (b :: queue), [], script, _, 0%nat. rewrite app_nil_r.
    split_and!; [done|by constructor|done|done|by auto]. }
  destruct (Z.leb_spec polled 0).
  { eexists _, (b :: queue), [], script, _, 0%nat. rewrite app_nil_r.
    split_and!; [done|by constructor|done| |]; destruct (polled =? 0); auto; done. }
  destruct (send_buffer_spec b d script Hb) as (rc & b' & sent & script' & -> & Hb' & Hu & Hc).
  run. destruct ((rc =? 0) && (timeout =? 0)) eqn:E1.
  { eexists _, (b' :: queue), sent, script', _, 0%nat. bool_to_prop. destruct E1 as [_ ->].
    split_and!; [done|by constructor|simpl; by rewrite Hu, app_assoc|done|by auto]. }
  destruct Hc as [[-> Hnil]|[[-> Hne]| ->]]; run.
  - destruct (IH queue ds polls' script' (wire ++ sent) true Hq) as (rc & q' & s' & sc' & st' & k & -> & Hq' & Hs' & H4 & H5).
    { simpl in Hf. destruct (decide (timeout = 0)); lia. }
    eexists rc, q', (sent ++ s'), sc', st', (S k). rewrite <-app_assoc. split_and!; auto.
    simpl. by rewrite Hu, Hnil, app_nil_r, Hs', app_assoc.
  - destruct (IH (b' :: queue) (d :: ds) polls' script' (wire ++ sent) true)
      as (rc & q' & s' & sc' & st' & k & -> & Hq' & Hs' & H4 & H5); [by constructor| |].
    { bool_to_prop. destruct E1 as [?|Ht]; [done|]. specialize (Hr1 eq_refl Ht).
      simpl in Hf |- *. lia. }
    eexists rc, q', (sent ++ s'), sc', st', k. rewrite <-app_assoc. split_and!; auto.
    simpl in Hs' |- *. by rewrite Hu, <-!app_assoc, Hs'.
  - eexists _, (b' :: queue), sent, script', _, 0%nat.
    split_and!; [done|by constructor|simpl; by rewrite Hu, app_assoc|done|by auto].
Qed.
End host.

(** ** Receiving *)
Section receive.
Context `{Host}.

Lemma mem_of_int_of_mem (bs : list byte) :
  length bs = 4%nat → mem_of_int 4 (int_of_mem bs) = bs.
Proof.
  intros Hl. unfold mem_of_int, int_of_mem. rewrite Hl.
  change (8 * Z.of_nat 4) with (8 * Z.of_nat 4). rewrite le_split_wrap_s.
  destruct big_endian; rewrite split_le_combine' by (by rewrite ?length_rev).
  - apply rev_involutive.
  - done.
Qed.

(** [b] has received exactly the bytes [got] of a packet.  The length field of a fresh
    buffer is overwritten byte by byte. *)
Definition receiving (b : buffer_list) (got : list byte) : Prop :=
  bl_curr_offset b = Z.of_nat (length got) ∧
  if (length got <? 4)%nat then
    bl_buffer b = None ∧ in_s 32 (bl_len b) ∧
    mem_of_int 4 (bl_len b) =
      got ++ drop (length got) (mem_of_int 4 sizeof_buffer_list)
  else
    ∃ n : nat, take 4 got = be_split 4 (Z.of_nat n) ∧ bl_len b = Z.of_nat n ∧
      Z.of_nat n + 4 ≤ INT_MAX ∧ (length got ≤ n + 4)%nat ∧
      bl_buffer b = Some (drop 4 got ++ replicate (n + 4 - length got) Byte.x00).

Lemma receiving_fresh b o : allocate_buffer None 0 [] = (Some b, o) → receiving b [].
Proof. intros [= <- _]. split; [done|]. split_and!; done. Qed.

(** While the length is incomplete the packet never looks complete. *)
Lemma header_incomplete b got :
  receiving b got → (0 < length got < 4)%nat → complete b = false.
Proof.
  intros (Ho & Hr) Hl. rewrite (proj2 (Nat.ltb_lt _ _)) in Hr by lia.
  destruct Hr as (_ & Hlen & Hm). unfold complete. rewrite Ho.
  apply Z.eqb_neq. intros E.
  assert (bl_len b = Z.of_nat (length got) - 4) as Hneg.
  { unfold in_s in Hlen. revert E. destruct (decide (0 ≤ bl_len b)).
    - rewrite (wrap_u_id 64 (bl_len b)), !wrap_u_id by (unfold in_u; lia). lia.
    - rewrite (size_t_neg (bl_len b)) by lia.
      rewrite (wrap_u_id 64 (Z.of_nat (length got))) by (unfold in_u; lia).
      intros E. destruct (decide (bl_len b + 4 < 0)).
      + rewrite wrap_u_id in E by (unfold in_u; lia). lia.
      + unfold wrap_u in E. rewrite <-(Z_mod_plus_full _ (-1)), Z.mod_small in E by lia. lia. }
  rewrite Hneg in Hm. unfold mem_of_int, sizeof_buffer_list in Hm.
  destruct got as [|b0 [|b1 [|b2 [|b3 got]]]]; simpl in Hl; try lia;
    destruct big_endian; vm_compute in Hm; congruence.
Qed.

(** The socket has data to give whenever it is asked. *)
Definition ready (script : list io) : Prop := Forall (λ x, ∃ n, x = IoOk (S n)) script.
Lemma ready_drop j script : ready script → ready (drop j script).
Proof. apply Forall_drop. Qed.

Definition progress (script : list io) (inp : list byte) (k : nat) (failed : Prop) : Prop :=
  ready script → ¬ failed ∧ (script ≠ [] → inp ≠ [] → (0 < k)%nat).

Lemma recv_spec want inp script :
  ∃ rc again k, recv want inp script = (rc, again, take k inp, drop k inp, drop 1 script) ∧
    ((rc = -1 ∨ rc = 0) ∧ k = 0%nat ∨
     rc = Z.of_nat k ∧ (0 < k ≤ length inp)%nat ∧ Z.of_nat k ≤ want) ∧
    (0 < want → progress script inp k (k = 0%nat ∧ again = false)).
Proof.
  assert (∀ (rc : Z) (again : bool) (s : list io), rc = -1 ∨ rc = 0 → s = drop 1 script →
    (0 < want → progress script inp 0 (again = false)) →
    ∃ rc' again' k, (rc, again, [], inp, s) = (rc', again', take k inp, drop k inp, drop 1 script) ∧
    ((rc' = -1 ∨ rc' = 0) ∧ k = 0%nat ∨
     rc' = Z.of_nat k ∧ (0 < k ≤ length inp)%nat ∧ Z.of_nat k ≤ want) ∧
    (0 < want → progress script inp k (k = 0%nat ∧ again' = false))) as Hz.
  { intros rc again s Hrc -> Hp. exists rc, again, 0%nat. rewrite take_0, drop_0.
    split; [done|]. split; [auto|]. intros Hw Hr. destruct (Hp Hw Hr). naive_solver. }
  unfold recv, progress, ready in *. destruct script as [|[n| | |] script];
    try (apply Hz; [auto..|]; intros _ Hr; inversion_clear Hr; naive_solver).
  destruct (Z.eqb_spec want 0); [apply Hz; [auto..|lia]|].
  destruct inp as [|x inp]; [apply Hz; [auto..|naive_solver]|].
  destruct n as [|n]; [apply Hz; [auto..|]; intros _ Hr; inversion_clear Hr; naive_solver|].
  destruct (decide (want < 0)) as [Hneg|Hpos].
  { replace (Z.to_nat want) with 0%nat by lia. rewrite Nat.min_0_r. apply Hz; [auto..|lia]. }
  assert (0 < Nat.min (S n) (Z.to_nat want))%nat as Hk0 by lia.
  assert (Z.of_nat (Nat.min (S n) (Z.to_nat want)) ≤ want) as Hkw by lia.
  generalize dependent (Nat.min (S n) (Z.to_nat want)). intros k Hk0 Hkw.
  set (l := x :: inp). assert (0 < length l)%nat by (unfold l; simpl; lia).
  clearbody l. clear Hz. destruct (decide (k ≤ length l)%nat) as [Hk|Hk].
  - eexists _, _, k. split; [done|]. rewrite length_take. split; [right; lia|].
    intros _ _. split; [lia|done].
  - eexists _, _, (length l). rewrite !take_ge, !drop_ge by lia. split; [done|].
    split; [right; lia|]. intros _ _. split; [lia|done].
Qed.

(** The contents: [got] has its length and is not all of the packet. *)
Lemma recv_contents_spec b got inp script :
  receiving b got → (4 ≤ length got < Z.to_nat (bl_len b) + 4)%nat →
  ∃ rc b' k,
    recv_contents false b (bl_curr_offset b) inp script = Ret (rc, b', drop k inp, drop 1 script) ∧
    receiving b' (got ++ take k inp) ∧ (k ≤ length inp)%nat ∧
    (length got + k ≤ Z.to_nat (bl_len b) + 4)%nat ∧
    (rc = (if (length got + k =? Z.to_nat (bl_len b) + 4)%nat then 1 else 0) ∨ rc = -1 ∧ k = 0%nat) ∧
    progress script inp k (rc = -1).
Proof.
  intros Hr Hl. pose proof Hr as (Ho & Hr'). rewrite (proj2 (Nat.ltb_ge _ _)) in Hr' by lia.
  destruct Hr' as (n & H4 & Hlen & Hmax & Hn & Hb).
  assert (Z.to_nat (bl_len b) = n) as Hbn by lia. rewrite Hbn in Hl |- *.
  unfold recv_contents. rewrite Hb.
  destruct (recv_spec (bl_len b - (bl_curr_offset b - 4)) inp script)
    as (rc & again & k & -> & Hk & Hp). specialize (Hp ltac:(lia)).
  assert (length (drop 4 got) = length got - 4)%nat as Hd4 by apply length_drop.
  assert (k ≤ length inp ∧ length got + k ≤ n + 4)%nat as [Hki Hkn] by lia.
  rewrite copy_to_next by (rewrite ?length_take, ?length_replicate; lia). run.
  rewrite length_take, Nat.min_l, drop_replicate by lia.
  assert (∀ b' : buffer_list, bl_curr_offset b' = Z.of_nat (length got + k) → bl_len b' = bl_len b →
    complete b' = (length got + k =? n + 4)%nat) as Hcomp.
  { intros b' Hc Hl'. unfold complete. rewrite Hc, Hl', (wrap_u_id 64 (bl_len b)), !wrap_u_id
      by (unfold in_u; lia).
    destruct (Nat.eqb_spec (length got + k) (n + 4)); [apply Z.eqb_eq|apply Z.eqb_neq]; lia. }
  assert (∀ b' : buffer_list, bl_curr_offset b' = Z.of_nat (length got + k) → bl_len b' = bl_len b →
    bl_buffer b' = Some ((drop 4 got ++ take k inp) ++ replicate (n + 4 - length got - k) Byte.x00) →
    receiving b' (got ++ take k inp)) as Hrec.
  { intros b' Hc Hl' Hb'. split; [by rewrite Hc, length_app, length_take, Nat.min_l by lia|].
    rewrite length_app, length_take, Nat.min_l, (proj2 (Nat.ltb_ge _ _)) by lia.
    exists n. rewrite take_app_le, drop_app_le by lia. split_and!; [done|congruence|lia|lia|].
    rewrite Hb'. do 3 f_equal. lia. }
  destruct Hk as [[Hrc ->]|(-> & Hk & Hw)].
  - replace ((rc =? 0) || (rc =? -1)) with true by (destruct Hrc as [-> | ->]; done).
    set (b' := mk_bl _ _ _). assert (receiving b' (got ++ take 0 inp)) as Hr'
      by (apply Hrec; simpl; [rewrite Nat.add_0_r| |]; done).
    destruct again; eexists _, b', 0%nat; rewrite drop_0; (split; [done|]); (split; [done|]); (split; [lia|]); (split; [lia|]).
    + rewrite (Hcomp b') by (simpl; rewrite ?Nat.add_0_r; done). split; [by left|].
      intros Hrd. destruct (Hp Hrd) as [_ Hp']. split; [by destruct (_ =? _)%nat|done].
    + split; [by right|]. intros Hrd. by destruct (Hp Hrd) as [[] _].
  - rewrite (proj2 (Z.eqb_neq (Z.of_nat k) 0)), (proj2 (Z.eqb_neq (Z.of_nat k) (-1))) by lia.
    cbn [orb]. set (b' := add_offset _ _).
    assert (bl_curr_offset b' = Z.of_nat (length got + k)) as Hc by (simpl; lia).
    eexists _, b', k. split; [done|]. split; [by apply Hrec|].
    rewrite (Hcomp b') by done. split_and!; [lia|lia|by left|].
    intros _. split; [by destruct (_ =? _)%nat|lia].
Qed.

Lemma be_split_inj4 m n :
  Z.of_nat m ≤ INT_MAX → Z.of_nat n ≤ INT_MAX →
  be_split 4 (Z.of_nat m) = be_split 4 (Z.of_nat n) → m = n.
Proof.
  intros Hm Hn E. apply (f_equal be_combine) in E.
  rewrite !be_combine_split in E by (unfold in_s; lia). lia.
Qed.

(** The length field of a packet that is a prefix of [frame d]. *)
Lemma receiving_len b got inp d rest :
  receiving b got → got ++ inp = frame d ++ rest → Z.of_nat (length d) + 4 ≤ INT_MAX →
  (4 ≤ length got)%nat → bl_len b = Z.of_nat (length d).
Proof.
  intros (_ & Hr) E Hmax Hl. rewrite (proj2 (Nat.ltb_ge _ _)) in Hr by lia.
  destruct Hr as (n & H4 & -> & Hn & _). f_equal. apply be_split_inj4; [lia..|].
  rewrite <-H4. apply (f_equal (take 4)) in E. rewrite take_app_le in E by lia.
  rewrite E. unfold frame. rewrite <-app_assoc, take_app_length'; [done|].
  by rewrite length_be_split.
Qed.

(** The last byte of the length arrives: the block is allocated. *)
Lemma receiving_header b got (d : list byte) off :
  got = be_split 4 (Z.of_nat (length d)) → Z.of_nat (length d) + 4 ≤ INT_MAX →
  bl_len b = int_of_mem got → off = 4 →
  ∃ blk, calloc_block (ntohl (bl_len b)) [] = (Some blk, []) ∧
    receiving (mk_bl (Some blk) (ntohl (bl_len b)) off) got ∧
    ntohl (bl_len b) = Z.of_nat (length d).
Proof.
  intros Hg Hmax Hlen ->. assert (length got = 4%nat) as Hgl by (by rewrite Hg, length_be_split).
  assert (ntohl (bl_len b) = Z.of_nat (length d)) as Hn.
  { rewrite Hlen, ntohl_mem, Hg by done. apply be_combine_split; unfold in_s; lia. }
  rewrite Hn. unfold calloc_block, alloc_bytes. rewrite wrap_u_id by (unfold in_u; lia).
  rewrite (proj2 (Z.ltb_lt _ _)) by lia. simpl alloc. eexists. split; [done|]. split; [|done].
  split; [cbn [bl_curr_offset]; lia|]. rewrite Hgl. cbn [Nat.ltb Nat.leb].
  exists (length d). cbn [bl_len bl_buffer]. split_and!; [|done|lia|lia|].
  - by rewrite take_ge by lia.
  - rewrite drop_ge by lia. rewrite Nat2Z.id. simpl. do 2 f_equal. lia.
Qed.

(** More bytes of the length arrive, but not all. *)
Lemma receiving_partial b got more len :
  len = (got ++ more) ++ drop (length got + length more) (mem_of_int 4 sizeof_buffer_list) →
  bl_buffer b = None → bl_len b = int_of_mem len →
  bl_curr_offset b = Z.of_nat (length got + length more) → (length got + length more < 4)%nat →
  receiving b (got ++ more).
Proof.
  intros -> Hb Hl Ho Hlt. unfold receiving. rewrite length_app.
  rewrite (proj2 (Nat.ltb_lt _ _)) by lia.
  set (len := (got ++ more) ++ _) in Hl |- *. assert (length len = 4%nat) as Hlen4.
  { unfold len. rewrite !length_app, length_drop, length_mem_of_int. lia. }
  split; [done|]. split; [done|]. rewrite Hl, mem_of_int_of_mem by done. split; [|done].
  pose proof (wrap_s_range 32 (le_combine (if big_endian then rev len else len))) as Hw.
  unfold int_of_mem. rewrite Hlen4. by apply Hw.
Qed.

(** What one call does to a packet of contents [d] of which [got] has arrived. *)
Definition received (d got inp : list byte) (script : list io)
    (r : outcome (Z * buffer_list * list byte * list io * allocs)) : Prop :=
  ∃ rc b' k j, r = Ret (rc, b', drop k inp, drop j script, []) ∧ (j ≤ 2)%nat ∧
    receiving b' (got ++ take k inp) ∧ (k ≤ length inp)%nat ∧
    (length got + k ≤ length (frame d))%nat ∧
    (rc = (if (length got + k =? length (frame d))%nat then 1 else 0) ∨
     rc = -1 ∧ (length got + k < length (frame d))%nat) ∧
    progress script inp k (rc = -1).

(** The contents, when the length and [k0] bytes in all have just arrived. *)
Lemma recv_contents_received b got inp later script j d rest k0 :
  receiving b (got ++ take k0 inp) → got ++ inp ++ later = frame d ++ rest →
  Z.of_nat (length d) + 4 ≤ INT_MAX → (k0 ≤ length inp)%nat →
  (4 ≤ length got + k0 < length (frame d))%nat → (j ≤ 1)%nat → (j = 0 ∨ 0 < k0)%nat →
  received d got inp script
    ('(rc, b, inp, script) ← recv_contents false b (bl_curr_offset b) (drop k0 inp) (drop j script);
     Ret (rc, b, inp, script, [])).
Proof.
  intros Hr E Hmax Hk0 Hl Hj Hj0. rewrite length_frame in Hl.
  assert (length (got ++ take k0 inp) = length got + k0)%nat as Hgl
    by (rewrite length_app, length_take; lia).
  assert (bl_len b = Z.of_nat (length d)) as Hlen.
  { apply (receiving_len b _ (drop k0 inp ++ later) d rest Hr); [|done|lia].
    by rewrite <-app_assoc, (app_assoc (take _ _)), take_drop. }
  destruct (recv_contents_spec b _ (drop k0 inp) (drop j script) Hr ltac:(lia))
    as (rc & b' & k & -> & Hr2 & Hk & Hk2 & Hrc & Hp). run.
  rewrite Hlen, Nat2Z.id, Hgl in Hrc, Hk2. rewrite length_drop in Hk.
  unfold received. rewrite length_frame, !drop_drop.
  eexists _, _, (k0 + k)%nat, _. split; [done|]. split_and!; [lia| |lia|lia| |].
  - by rewrite <-take_take_drop, app_assoc.
  - rewrite Nat.add_assoc, (Nat.add_comm 4).
    destruct Hrc as [->|[-> ->]]; [by left|right; split; [done|lia]].
  - intros Hrd. destruct (Hp (ready_drop _ _ Hrd)) as [Hrc' Hp']. split; [done|].
    intros Hs Hi. destruct (decide (0 < k0)%nat) as [|Hk00]; [lia|].
    destruct Hj0 as [->|]; [|lia]. replace k0 with 0%nat in Hp' |- * by lia. by apply Hp'.
Qed.

(** One call: it receives the next bytes of the packet, and says 1 exactly when the
    packet is complete; [inp] may end before the packet does. *)
Lemma recv_buffer_spec b got inp later script d rest :
  receiving b got → got ++ inp ++ later = frame d ++ rest → d ≠ [] →
  Z.of_nat (length d) + 4 ≤ INT_MAX → (length got < length (frame d))%nat →
  received d got inp script (recv_buffer false b inp script []).
Proof.
  intros Hr E Hd Hmax Hl. pose proof (length_frame d) as Hfl.
  assert (0 < length d)%nat by (destruct d; simpl; [done|lia]).
  pose proof Hr as (Ho & Hr'). unfold recv_buffer.
  destruct (Z.ltb_spec (bl_curr_offset b) 4) as [Hlt|Hge].
  2: { apply (recv_contents_received b got inp later script 0 d rest 0); rewrite ?take_0, ?app_nil_r;
         done || lia. }
  rewrite (proj2 (Nat.ltb_lt _ _)) in Hr' by lia. destruct Hr' as (Hnone & Hlen & Hm).
  destruct (recv_spec (4 - bl_curr_offset b) inp script) as (rc & again & k & -> & Hk & Hp).
  specialize (Hp ltac:(lia)).
  assert (k ≤ length inp ∧ length got + k ≤ 4)%nat as [Hki Hkn] by lia.
  assert (length (take k inp) = k) as Hlt' by (rewrite length_take; lia).
  rewrite Hm, copy_to_next by (rewrite ?Hlt', ?length_drop, ?length_mem_of_int; lia). run.
  rewrite drop_drop. set (len := (got ++ take k inp) ++ _).
  destruct Hk as [[Hrc ->]|(-> & Hk & Hw)].
  { replace ((rc =? 0) || (rc =? -1)) with true by (destruct Hrc as [-> | ->]; done).
    eexists _, _, 0%nat, 1%nat. rewrite drop_0. split; [done|]. split; [lia|].
    split; [apply (receiving_partial _ _ _ len); rewrite ?Hlt'; [done..| |]; simpl; lia|].
    split_and!; [lia..| |].
    - destruct again; [left|by right; split; [done|lia]].
      by rewrite (proj2 (Nat.eqb_neq _ _)) by lia.
    - intros Hrd. destruct (Hp Hrd) as [Hf Hp']. split; [|done]. destruct again; naive_solver. }
  rewrite (proj2 (Z.eqb_neq (Z.of_nat k) 0)), (proj2 (Z.eqb_neq (Z.of_nat k) (-1))) by lia.
  cbn [orb add_offset bl_curr_offset bl_len bl_buffer].
  destruct (Z.eqb_spec (bl_curr_offset b + Z.of_nat k) 4) as [H4|H4].
  - assert (got ++ take k inp = be_split 4 (Z.of_nat (length d))) as Hg.
    { transitivity (take 4 (got ++ inp ++ later)).
      - rewrite take_app_ge, take_app_le by lia. f_equal. f_equal. lia.
      - rewrite E. unfold frame. rewrite <-app_assoc. apply take_app_length'.
        by rewrite length_be_split. }
    assert (len = got ++ take k inp) as ->.
    { unfold len. rewrite drop_ge, app_nil_r by (rewrite length_mem_of_int; lia). done. }
    destruct (receiving_header (mk_bl None (int_of_mem (got ++ take k inp)) 0) _ d _ Hg Hmax eq_refl H4)
      as (blk & Hc & Hr2 & Hn). cbn [bl_len] in Hc, Hr2. rewrite Hc.
    by apply (recv_contents_received _ got inp later script 1 d rest k Hr2); [..|lia|lia|lia].
  - match goal with |- context [recv_contents false ?b0] => set (b2 := b0) end.
    assert (receiving b2 (got ++ take k inp)) as Hr2.
    { apply (receiving_partial _ _ _ len); [unfold len|..]; rewrite ?Hlt'; [done..| |lia].
      unfold b2. cbn [add_offset bl_curr_offset]. lia. }
    unfold recv_contents. unfold b2 at 1. cbn [add_offset bl_buffer]. rewrite Hnone. run.
    rewrite (header_incomplete b2 _ Hr2) by (rewrite length_app, length_take; lia).
    eexists _, _, k, 1%nat. split; [done|].
    split_and!; [lia|done|lia|lia|left|intros _; split; [done|lia]].
    by rewrite (proj2 (Nat.eqb_neq _ _)) by lia.
Qed.
End receive.

(** ** Whole streams *)
Section streams.
Context `{Host}.

(** [n] calls of [recv_buffer], a fresh buffer after each complete packet, as
    [check_events] makes them: the packets received, the buffer in use, what is left
    of the input; a failed call ends the run. *)
Fixpoint recv_calls (n : nat) (b : buffer_list) (inp : list byte) (script : list io)
    : outcome (list (list byte) * buffer_list * list byte) :=
  match n with
  | O => Ret ([], b, inp)
  | S n =>
      '(rc, b, inp, script, _) ← recv_buffer false b inp script [];
      if rc <? 0 then Ret ([], b, inp)
      else if rc =? 0 then recv_calls n b inp script
      else match bl_buffer b, allocate_buffer None 0 [] with
           | Some d, (Some fresh, _) =>
               '(ds, b, inp) ← recv_calls n fresh inp script; Ret (d :: ds, b, inp)
           | _, _ => UB
           end
  end.

Definition stream (ds : list (list byte)) : list byte := concat (map frame ds).
Definition sendable (d : list byte) : Prop := d ≠ [] ∧ Z.of_nat (length d) + 4 ≤ INT_MAX.

(** All of a packet has been received: the block holds its contents. *)
Lemma receiving_complete b d :
  receiving b (frame d) → Z.of_nat (length d) + 4 ≤ INT_MAX → bl_buffer b = Some d.
Proof.
  intros (_ & Hr) Hmax. pose proof (length_frame d) as Hl.
  rewrite (proj2 (Nat.ltb_ge _ _)) in Hr by lia.
  destruct Hr as (n & H4 & _ & Hn & _ & ->). unfold frame in H4 |- *.
  rewrite take_app_length' in H4 by (by rewrite length_be_split).
  apply be_split_inj4 in H4 as <-; [|lia..]. change (be_split 4 _ ++ d) with (frame d).
  rewrite length_frame, Nat.add_comm, Nat.sub_diag, app_nil_r.
  unfold frame. by rewrite drop_app_length' by (by rewrite length_be_split).
Qed.

(** The outcome of [recv_calls]: the first [m] packets, and the rest is in the buffer
    or still to come. *)
Definition reassembled (ds : list (list byte)) (later : list byte) (enough : Prop)
    (r : outcome (list (list byte) * buffer_list * list byte)) : Prop :=
  ∃ m b' got inp', r = Ret (take m ds, b', inp') ∧ receiving b' got ∧
    stream (drop m ds) = got ++ inp' ++ later ∧ (enough → take m ds = ds).

(** The buffer holds less than the next packet. *)
Definition within (got : list byte) (ds : list (list byte)) : Prop :=
  match ds with [] => True | d :: _ => (length got < length (frame d))%nat end.

Lemma recv_calls_spec n b got inp later script ds :
  receiving b got → got ++ inp ++ later = stream ds → Forall sendable ds → within got ds →
  reassembled ds later (later = [] ∧ ready script ∧ (length inp ≤ n)%nat ∧ (2 * n ≤ length script)%nat)
    (recv_calls n b inp script).
Proof.
  revert b got inp script ds. induction n as [|n IH]; intros b got inp script ds Hr E Hds Hlt.
  { exists 0%nat, b, got, inp. rewrite take_0, drop_0. split_and!; [done..|].
    intros (-> & _ & Hn & _). destruct inp; [|simpl in Hn; lia]. destruct ds as [|d ds]; [done|].
    simpl in Hlt. apply (f_equal length) in E.
    rewrite !app_nil_r in E. unfold stream in E. simpl in E. rewrite length_app in E. lia. }
  destruct ds as [|d ds].
  - apply app_eq_nil in E as [-> [-> ->]%app_eq_nil].
    destruct (recv_buffer_spec b [] [] (frame [Byte.x00]) script [Byte.x00] [] Hr)
      as (rc & b' & k & j & Hrun & _ & Hr' & Hk & _ & Hrc & _);
      [by rewrite app_nil_r|done|simpl; lia|rewrite length_frame; simpl; lia|].
    simpl in Hk. replace k with 0%nat in * by lia. rewrite drop_nil in Hrun.
    cbn [recv_calls]. rewrite Hrun. run.
    rewrite length_frame in Hrc. destruct Hrc as [-> | [-> _]]; cbn [Nat.eqb Nat.add length]; run.
    + destruct (IH b' [] [] (drop j script) [] Hr' eq_refl Hds I) as (m & b2 & g & i2 & -> & H1 & H2 & _).
      exists m, b2, g, i2. rewrite take_nil. auto.
    + exists 0%nat, b', [], []. auto.
  - inversion_clear Hds as [|?? [Hd Hmax] Hds']. simpl in Hlt.
    destruct (recv_buffer_spec b got inp later script d (stream ds) Hr E Hd Hmax Hlt)
      as (rc & b' & k & j & Hrun & Hj & Hr' & Hk & Hkl & Hrc & Hp).
    cbn [recv_calls]. rewrite Hrun. run.
    assert (stream (d :: ds) = (got ++ take k inp) ++ drop k inp ++ later) as E'.
    { by rewrite <-E, <-app_assoc, (app_assoc (take _ _)), take_drop. }
    assert (∀ P : Prop, (later = [] → ready (drop j script) → length (drop k inp) ≤ n →
        2 * n ≤ length (drop j script) → P)%nat →
      later = [] ∧ ready script ∧ (length inp ≤ S n ∧ 2 * S n ≤ length script)%nat → P) as Henough.
    { intros P HP (-> & Hrd & Hn & Hs). destruct (Hp Hrd) as [_ Hk0].
      apply HP; [done|by apply ready_drop| |rewrite length_drop; lia].
      rewrite length_drop. destruct inp as [|y inp]; [simpl; lia|].
      assert (0 < k)%nat by (apply Hk0; [by destruct script; [simpl in Hs; lia|]|done]). simpl in *. lia. }
    destruct Hrc as [-> | [-> Hlt']].
    + destruct (Nat.eqb_spec (length got + k) (length (frame d))) as [Hc|Hc]; run.
      * assert (length (frame d) = length (got ++ take k inp)) as Hl
          by (rewrite length_app, length_take; lia).
        destruct (app_inj_1 _ _ _ _ Hl E') as [Hg Hrest]. rewrite <-Hg in Hr'.
        rewrite (receiving_complete b' d Hr' Hmax). cbn [allocate_buffer alloc negb].
        change (if 0 =? 0 then _ else _) with sizeof_buffer_list.
        destruct (IH (mk_bl None sizeof_buffer_list 0) [] (drop k inp) (drop j script) ds
          (receiving_fresh _ [] eq_refl)
          (eq_sym Hrest) Hds') as (m & b2 & g & i2 & -> & H1 & H2 & H3).
        { destruct ds; [done|]. unfold within. rewrite length_frame. simpl. lia. }
        exists (S m), b2, g, i2. simpl. split_and!; [done..|].
        apply Henough. intros. f_equal. auto.
      * destruct (IH b' (got ++ take k inp) (drop k inp) (drop j script) (d :: ds) Hr'
          (eq_sym E')) as (m & b2 & g & i2 & -> & H1 & H2 & H3); [by constructor| |].
        { unfold within. rewrite length_app, length_take. lia. }
        exists m, b2, g, i2. split_and!; [done..|]. apply Henough. auto.
    + exists 0%nat, b', (got ++ take k inp), (drop k inp). split_and!; [done|done|done|].
      intros (_ & Hrd & _). by destruct (Hp Hrd) as [[] _].
Qed.

(** A packet just queued, by [queue_buffer_bytes]. *)
Definition queued (d : list byte) : buffer_list := mk_bl (Some d) (Z.of_nat (length d)) 0.

Lemma queued_sending d : sendable d → sending (queued d) d.
Proof. intros [Hd Hmax]. split; simpl; done || lia. Qed.
Lemma to_send_queued ds : to_send (map queued ds) ds = stream ds.
Proof. induction ds as [|d ds IH]; [done|]. unfold stream in *. simpl. by rewrite IH. Qed.

(** C21. Sending: however much each [send] transfers and however often it blocks or
    fails, [flush_send_queue] puts a prefix of the packets' bytes on the wire, in
    order, nothing lost or repeated: what it leaves in the queue is exactly the rest.
    With a timeout, [ZOK] on a connected handle means that everything is sent. *)
Theorem flush_send_queue_stream connected timeout queue ds polls script :
  Forall2 sending queue ds →
  ∃ rc queue' sent script' stamp k,
    flush_send_queue connected timeout queue polls script = Ret (rc, queue', sent, script', stamp) ∧
    Forall2 sending queue' (drop k ds) ∧
    to_send queue ds = sent ++ to_send queue' (drop k ds) ∧
    (rc = ZOK → connected = true → timeout ≠ 0 → queue' = []) ∧
    (rc = ZOK ∨ rc = ZOPERATIONTIMEOUT ∨ rc = ZSYSTEMERROR ∨ rc = ZCONNECTIONLOSS).
Proof.
  intros Hq. unfold flush_send_queue.
  destruct (flush_loop_spec _ connected timeout queue ds polls script [] false Hq (le_n _))
    as (rc & q' & sent & s' & st & k & -> & Hrest).
  by exists rc, q', sent, s', st, k.
Qed.

(** C20. Receiving: the packets of a stream come out of [recv_buffer] in order and
    unchanged, wherever the socket cuts the stream, inside a length included; what has
    not come out is in the input buffer or still to be read.  If the socket always has
    data and is read often enough, all packets of a complete stream come out. *)
Theorem recv_buffer_stream n b o ds inp later script :
  allocate_buffer None 0 [] = (Some b, o) → Forall sendable ds → inp ++ later = stream ds →
  ∃ m b' got inp', recv_calls n b inp script = Ret (take m ds, b', inp') ∧
    receiving b' got ∧ stream (drop m ds) = got ++ inp' ++ later ∧
    (later = [] → ready script → (length inp ≤ n)%nat → (2 * n ≤ length script)%nat →
     take m ds = ds).
Proof.
  intros Hb Hds E. destruct (recv_calls_spec n b [] inp later script ds (receiving_fresh b o Hb) E Hds)
    as (m & b' & got & inp' & Hrun & Hr & Hs & He).
  { destruct ds; [done|]. unfold within. rewrite length_frame. simpl. lia. }
  exists m, b', got, inp'. split_and!; [done..|]. intros. by apply He.
Qed.

(** C22. End to end: packets queued on one side and flushed with success are what the
    other side receives. *)
Theorem packets_cross_the_wire timeout ds polls script queue' wire script' stamp rscript n b o :
  Forall sendable ds → timeout ≠ 0 →
  flush_send_queue true timeout (map queued ds) polls script = Ret (ZOK, queue', wire, script', stamp) →
  allocate_buffer None 0 [] = (Some b, o) → ready rscript →
  (length wire ≤ n)%nat → (2 * n ≤ length rscript)%nat →
  ∃ b', recv_calls n b wire rscript = Ret (ds, b', []).
Proof.
  intros Hds Ht Hrun Hb Hr Hn Hs.
  assert (Forall2 sending (map queued ds) ds) as Hq.
  { clear -Hds. induction Hds; constructor; [by apply queued_sending|done]. }
  unfold flush_send_queue in Hrun.
  destruct (flush_loop_spec _ true timeout _ ds polls script [] false Hq (le_n _))
    as (rc & q' & sent & s' & st & k & Hrun' & _ & Hw & Hempty & _).
  rewrite Hrun' in Hrun. injection Hrun as -> <- <- <- <-. simpl in Hn |- *.
  rewrite (Hempty eq_refl eq_refl Ht), app_nil_r, to_send_queued in Hw.
  destruct (recv_calls_spec n b [] sent [] rscript ds (receiving_fresh b o Hb)) as
    (m & b' & got & inp' & Hrec & _ & Hrest & He); [by rewrite app_nil_r|done| |].
  { destruct ds; [done|]. unfold within. rewrite length_frame. simpl. lia. }
  rewrite He in Hrec by done. specialize (He ltac:(done)).
  assert (drop m ds = []) as Hm.
  { apply length_zero_iff_nil. apply (f_equal length) in He.
    rewrite length_take in He. rewrite length_drop. lia. }
  rewrite Hm, app_nil_r in Hrest. symmetry in Hrest. apply app_eq_nil in Hrest as [_ ->].
  by exists b'.
Qed.
End streams.

(** ** Witnesses: two packets, sent in pieces of 3 bytes and received in pieces of 2. *)
Definition example_host : Host := {| big_endian := false; char_signed := true |}.
Definition two_packets : list (list byte) := [lit "ping"; lit "x"].

Lemma two_packets_sendable : Forall sendable two_packets.
Proof. repeat constructor; simpl; done || lia. Defined.
Lemma ready_replicate n : ready (replicate n (IoOk 2)).
Proof. apply Forall_replicate. by exists 1%nat. Qed.

Lemma flush_send_queue_stream_witness :
  ∃ queue' sent, @flush_send_queue example_host true 0 (map queued two_packets) [] [IoOk 4; IoOk 3]
    = Ret (ZOK, queue', sent, [], false) ∧
  to_send (map queued two_packets) two_packets = sent ++ to_send queue' (drop 0 two_packets).
Proof.
  destruct (@flush_send_queue_stream example_host true 0 (map queued two_packets) two_packets []
    [IoOk 4; IoOk 3]) as (rc & q' & sent & s' & st & k & E & _).
  - repeat constructor; simpl; done || lia.
  - vm_compute in E. injection E as <- <- <- <- <-. eexists _, _. split; vm_compute; reflexivity.
Defined.
Lemma recv_buffer_stream_witness :
  ∃ b', @recv_calls example_host 13 (mk_bl None sizeof_buffer_list 0) (stream two_packets)
    (replicate 26 (IoOk 2)) = Ret (two_packets, b', []).
Proof.
  destruct (@recv_buffer_stream example_host 13 (mk_bl None sizeof_buffer_list 0) [] two_packets
    (stream two_packets) [] (replicate 26 (IoOk 2))) as (m & b' & got & inp' & E & _ & _ & Ht).
  - reflexivity.
  - apply two_packets_sendable.
  - apply app_nil_r.
  - specialize (Ht eq_refl (ready_replicate 26)).
    assert (take m two_packets = two_packets) as Hm by (apply Ht; vm_compute; lia).
    exists b'. rewrite E, Hm. clear -E. vm_compute in E. congruence.
Defined.
Lemma packets_cross_the_wire_witness :
  ∃ b', @recv_calls example_host 13 (mk_bl None sizeof_buffer_list 0) (stream two_packets)
    (replicate 26 (IoOk 2)) = Ret (two_packets, b', []).
Proof.
  apply (@packets_cross_the_wire example_host 100 two_packets (replicate 6 (mk_poll 1 1))
    (replicate 8 (IoOk 3)) [] (stream two_packets) (drop 7 (replicate 8 (IoOk 3))) true
    (replicate 26 (IoOk 2)) 13 (mk_bl None sizeof_buffer_list 0) []).
  - apply two_packets_sendable.
  - lia.
  - vm_compute. reflexivity.
  - reflexivity.
  - apply ready_replicate.
  - vm_compute. lia.
  - vm_compute. lia.
Defined.
