(* ===== verification/Handle.v ===== *)
(** * The handle: completions, authentication and the state of a session

    [zhandle_t] of src/zk_adaptor.h and the operations of src/zookeeper.c on its
    completion queues and its list of authentications.  What differs between the builds
    with and without threads is the class [Adaptor] at the end, with its instance for
    src/st_adaptor.c, where the locks do nothing.  A function of the library is a
    computation in the monad [M]: it acts on the handle and on the [world], that is the
    allocator, the clock, the socket and the record of the calls made to the user's
    functions.  Queues are lists, which Queues.v justifies.  Function pointers and user
    data are integers, 0 being NULL; a call of a user function is recorded in the world
    and is assumed not to call the library back. *)

From S2P Require Import Prelude RecordIO Jute Path Watchers Addrvec Handshake Transport.
Local Open Scope Z_scope.
#[local] Set Warnings "-register-all".

Abbreviation ZRUNTIMEINCONSISTENCY := (-2).
Abbreviation ZMARSHALLINGERROR := (-5).
Abbreviation ZBADARGUMENTS := (-8).
Abbreviation ZINVALIDSTATE := (-9).
Abbreviation ZSESSIONEXPIRED := (-112).
Abbreviation ZAUTHFAILED := (-115).
Abbreviation ZNOTHING := (-117).

Abbreviation ZOO_EXPIRED_SESSION_STATE := (-112).
Abbreviation ZOO_AUTH_FAILED_STATE := (-113).
Abbreviation ZOO_CONNECTING_STATE := 1.
Abbreviation ZOO_ASSOCIATING_STATE := 2.
Abbreviation ZOO_CONNECTED_STATE := 3.
Abbreviation ZOO_READONLY_STATE := 5.

Abbreviation WATCHER_EVENT_XID := (-1).
Abbreviation PING_XID := (-2).
Abbreviation AUTH_XID := (-4).
Abbreviation SET_WATCHES_XID := (-8).

Abbreviation COMPLETION_WATCH := (-1).
Abbreviation COMPLETION_VOID := 0.
Abbreviation COMPLETION_STAT := 1.
Abbreviation COMPLETION_DATA := 2.
Abbreviation COMPLETION_STRINGLIST := 3.
Abbreviation COMPLETION_STRINGLIST_STAT := 4.
Abbreviation COMPLETION_ACLLIST := 5.
Abbreviation COMPLETION_STRING := 6.
Abbreviation COMPLETION_MULTI := 7.
Abbreviation COMPLETION_STRING_STAT := 8.

(** [SYNCHRONOUS_MARKER], the address of a variable: no function has it. *)
Definition SYNCHRONOUS_MARKER : Z := -1.

(** ** Data *)

(** [completion_list_t] with its [completion_t], without the link: the function is a
    member of a union, which for a watcher event holds the list of watchers instead. *)
Inductive completion_list := mk_completion {
  c_xid : Z;
  c_type : Z;
  c_result : Z;
  c_watcher_result : option watcher_list;
  c_clist : list completion_list;
  c_data : Z;
  c_buffer : option buffer_list;
  c_watcher : option watcher_registration;
  c_deregistration : option watcher_deregistration;
}.
Definition set_c_buffer (b : option buffer_list) (c : completion_list) : completion_list :=
  mk_completion (c_xid c) (c_type c) (c_result c) (c_watcher_result c) (c_clist c) (c_data c) b
    (c_watcher c) (c_deregistration c).
Definition set_c_watcher_result (l : option watcher_list) (c : completion_list)
    : completion_list :=
  mk_completion (c_xid c) (c_type c) (c_result c) l (c_clist c) (c_data c) (c_buffer c)
    (c_watcher c) (c_deregistration c).

(** [auth_info] without the link. *)
Record auth_info := mk_auth {
  ai_state : Z;
  ai_scheme : option cstring;
  ai_auth : buffer;
  ai_completion : Z;
  ai_data : Z;
}.

(** A call of one of the user's functions, with its arguments. *)
Inductive ucall :=
  | CallWatcher (c : callback)
  | CallAuth (fn rc data : Z)
  | CallVoid (fn rc data : Z)
  | CallStat (fn rc : Z) (stat : option Stat) (data : Z)
  | CallData (fn rc : Z) (value : option (list byte)) (len : Z) (stat : option Stat) (data : Z)
  | CallStrings (fn rc : Z) (strings : option (vector (option cstring))) (data : Z)
  | CallStringsStat (fn rc : Z) (strings : option (vector (option cstring)))
      (stat : option Stat) (data : Z)
  | CallString (fn rc : Z) (value : option cstring) (data : Z)
  | CallStringStat (fn rc : Z) (value : option cstring) (stat : option Stat) (data : Z)
  | CallAcl (fn rc : Z) (acl : option (vector ACL)) (stat : option Stat) (data : Z).

(** [struct sync_completion], what a thread that makes a synchronous call waits for.  The
    union [u] has the member that was assigned last ([UNone]: the zeros of [calloc]);
    [sc_mem] is the caller's memory that [u.str.str] or [u.data.buffer] points to ([None]
    for NULL), [own] says that [u.data.buffer] still does. *)
Inductive sync_union :=
  | UNone
  | UStr (str_len : Z)
  | UStat (stat : Stat)
  | UData (own : bool) (buff_len : Z) (stat : Stat)
  | UAcl (acl : vector ACL) (stat : Stat)
  | UStrs (strs2 : vector (option cstring))
  | UStrsStat (strs2 : vector (option cstring)) (stat2 : Stat).
Record sync_completion := mk_sync {
  sc_rc : Z;
  sc_u : sync_union;
  sc_mem : option (list byte);
  sc_complete : Z;
}.
Definition set_sc_rc (rc : Z) (sc : sync_completion) : sync_completion :=
  mk_sync rc (sc_u sc) (sc_mem sc) (sc_complete sc).
Definition set_sc_u (u : sync_union) (sc : sync_completion) : sync_completion :=
  mk_sync (sc_rc sc) u (sc_mem sc) (sc_complete sc).
Definition set_sc_mem (mem : option (list byte)) (sc : sync_completion) : sync_completion :=
  mk_sync (sc_rc sc) (sc_u sc) mem (sc_complete sc).
Definition set_sc_complete (c : Z) (sc : sync_completion) : sync_completion :=
  mk_sync (sc_rc sc) (sc_u sc) (sc_mem sc) c.

(** [zh->input_buffer]: NULL, [&zh->primer_buffer] or a buffer of its own. *)
Inductive input_ptr := NoInput | PrimerInput | InputBuffer (b : buffer_list).

(** The fields of [struct _zhandle] that the session uses; [zh_servers] holds those of
    Addrvec.v (the descriptor and the state among them), [zh_watches] those of
    Watchers.v, [zh_freed] says that the handle has been freed; [set_zh_f] assigns one
    field. *)
Record zhandle := mk_zhandle {
  zh_servers : servers;
  zh_delay : Z;
  zh_watches : watches;
  zh_chroot : option cstring;
  zh_recv_timeout : Z;
  zh_input_buffer : input_ptr;
  zh_primer_buffer : buffer_list;
  zh_to_process : list buffer_list;
  zh_to_send : list buffer_list;
  zh_sent_requests : list completion_list;
  zh_completions_to_process : list completion_list;
  zh_outstanding_sync : Z;
  zh_client_id : Z;
  zh_passwd : list byte;
  zh_last_zxid : Z;
  zh_auth_h : list auth_info;
  zh_primer_storage : prime_struct;
  zh_ref_counter : Z;
  zh_close_requested : Z;
  zh_allow_read_only : byte;
  zh_seen_rw_server_before : Z;
  zh_last_recv : timeval;
  zh_last_send : timeval;
  zh_last_ping : timeval;
  zh_freed : bool;
}.
Definition set_zh_servers (x : servers) (r : zhandle) : zhandle :=
  mk_zhandle x (zh_delay r) (zh_watches r) (zh_chroot r) (zh_recv_timeout r) (zh_input_buffer r)
    (zh_primer_buffer r) (zh_to_process r) (zh_to_send r) (zh_sent_requests r)
    (zh_completions_to_process r) (zh_outstanding_sync r) (zh_client_id r) (zh_passwd r)
    (zh_last_zxid r) (zh_auth_h r) (zh_primer_storage r) (zh_ref_counter r) (zh_close_requested r)
    (zh_allow_read_only r) (zh_seen_rw_server_before r) (zh_last_recv r) (zh_last_send r)
    (zh_last_ping r) (zh_freed r).
Definition set_zh_delay (x : Z) (r : zhandle) : zhandle :=
  mk_zhandle (zh_servers r) x (zh_watches r) (zh_chroot r) (zh_recv_timeout r) (zh_input_buffer r)
    (zh_primer_buffer r) (zh_to_process r) (zh_to_send r) (zh_sent_requests r)
    (zh_completions_to_process r) (zh_outstanding_sync r) (zh_client_id r) (zh_passwd r)
    (zh_last_zxid r) (zh_auth_h r) (zh_primer_storage r) (zh_ref_counter r) (zh_close_requested r)
    (zh_allow_read_only r) (zh_seen_rw_server_before r) (zh_last_recv r) (zh_last_send r)
    (zh_last_ping r) (zh_freed r).
Definition set_zh_watches (x : watches) (r : zhandle) : zhandle :=
  mk_zhandle (zh_servers r) (zh_delay r) x (zh_chroot r) (zh_recv_timeout r) (zh_input_buffer r)
    (zh_primer_buffer r) (zh_to_process r) (zh_to_send r) (zh_sent_requests r)
    (zh_completions_to_process r) (zh_outstanding_sync r) (zh_client_id r) (zh_passwd r)
    (zh_last_zxid r) (zh_auth_h r) (zh_primer_storage r) (zh_ref_counter r) (zh_close_requested r)
    (zh_allow_read_only r) (zh_seen_rw_server_before r) (zh_last_recv r) (zh_last_send r)
    (zh_last_ping r) (zh_freed r).
Definition set_zh_chroot (x : option cstring) (r : zhandle) : zhandle :=
  mk_zhandle (zh_servers r) (zh_delay r) (zh_watches r) x (zh_recv_timeout r) (zh_input_buffer r)
    (zh_primer_buffer r) (zh_to_process r) (zh_to_send r) (zh_sent_requests r)
    (zh_completions_to_process r) (zh_outstanding_sync r) (zh_client_id r) (zh_passwd r)
    (zh_last_zxid r) (zh_auth_h r) (zh_primer_storage r) (zh_ref_counter r) (zh_close_requested r)
    (zh_allow_read_only r) (zh_seen_rw_server_before r) (zh_last_recv r) (zh_last_send r)
    (zh_last_ping r) (zh_freed r).
Definition set_zh_recv_timeout (x : Z) (r : zhandle) : zhandle :=
  mk_zhandle (zh_servers r) (zh_delay r) (zh_watches r) (zh_chroot r) x (zh_input_buffer r)
    (zh_primer_buffer r) (zh_to_process r) (zh_to_send r) (zh_sent_requests r)
    (zh_completions_to_process r) (zh_outstanding_sync r) (zh_client_id r) (zh_passwd r)
    (zh_last_zxid r) (zh_auth_h r) (zh_primer_storage r) (zh_ref_counter r) (zh_close_requested r)
    (zh_allow_read_only r) (zh_seen_rw_server_before r) (zh_last_recv r) (zh_last_send r)
    (zh_last_ping r) (zh_freed r).
Definition set_zh_input_buffer (x : input_ptr) (r : zhandle) : zhandle :=
  mk_zhandle (zh_servers r) (zh_delay r) (zh_watches r) (zh_chroot r) (zh_recv_timeout r) x
    (zh_primer_buffer r) (zh_to_process r) (zh_to_send r) (zh_sent_requests r)
    (zh_completions_to_process r) (zh_outstanding_sync r) (zh_client_id r) (zh_passwd r)
    (zh_last_zxid r) (zh_auth_h r) (zh_primer_storage r) (zh_ref_counter r) (zh_close_requested r)
    (zh_allow_read_only r) (zh_seen_rw_server_before r) (zh_last_recv r) (zh_last_send r)
    (zh_last_ping r) (zh_freed r).
Definition set_zh_primer_buffer (x : buffer_list) (r : zhandle) : zhandle :=
  mk_zhandle (zh_servers r) (zh_delay r) (zh_watches r) (zh_chroot r) (zh_recv_timeout r)
    (zh_input_buffer r) x (zh_to_process r) (zh_to_send r) (zh_sent_requests r)
    (zh_completions_to_process r) (zh_outstanding_sync r) (zh_client_id r) (zh_passwd r)
    (zh_last_zxid r) (zh_auth_h r) (zh_primer_storage r) (zh_ref_counter r) (zh_close_requested r)
    (zh_allow_read_only r) (zh_seen_rw_server_before r) (zh_last_recv r) (zh_last_send r)
    (zh_last_ping r) (zh_freed r).
Definition set_zh_to_process (x : list buffer_list) (r : zhandle) : zhandle :=
  mk_zhandle (zh_servers r) (zh_delay r) (zh_watches r) (zh_chroot r) (zh_recv_timeout r)
    (zh_input_buffer r) (zh_primer_buffer r) x (zh_to_send r) (zh_sent_requests r)
    (zh_completions_to_process r) (zh_outstanding_sync r) (zh_client_id r) (zh_passwd r)
    (zh_last_zxid r) (zh_auth_h r) (zh_primer_storage r) (zh_ref_counter r) (zh_close_requested r)
    (zh_allow_read_only r) (zh_seen_rw_server_before r) (zh_last_recv r) (zh_last_send r)
    (zh_last_ping r) (zh_freed r).
Definition set_zh_to_send (x : list buffer_list) (r : zhandle) : zhandle :=
  mk_zhandle (zh_servers r) (zh_delay r) (zh_watches r) (zh_chroot r) (zh_recv_timeout r)
    (zh_input_buffer r) (zh_primer_buffer r) (zh_to_process r) x (zh_sent_requests r)
    (zh_completions_to_process r) (zh_outstanding_sync r) (zh_client_id r) (zh_passwd r)
    (zh_last_zxid r) (zh_auth_h r) (zh_primer_storage r) (zh_ref_counter r) (zh_close_requested r)
    (zh_allow_read_only r) (zh_seen_rw_server_before r) (zh_last_recv r) (zh_last_send r)
    (zh_last_ping r) (zh_freed r).
Definition set_zh_sent_requests (x : list completion_list) (r : zhandle) : zhandle :=
  mk_zhandle (zh_servers r) (zh_delay r) (zh_watches r) (zh_chroot r) (zh_recv_timeout r)
    (zh_input_buffer r) (zh_primer_buffer r) (zh_to_process r) (zh_to_send r) x
    (zh_completions_to_process r) (zh_outstanding_sync r) (zh_client_id r) (zh_passwd r)
    (zh_last_zxid r) (zh_auth_h r) (zh_primer_storage r) (zh_ref_counter r) (zh_close_requested r)
    (zh_allow_read_only r) (zh_seen_rw_server_before r) (zh_last_recv r) (zh_last_send r)
    (zh_last_ping r) (zh_freed r).
Definition set_zh_completions_to_process (x : list completion_list) (r : zhandle) : zhandle :=
  mk_zhandle (zh_servers r) (zh_delay r) (zh_watches r) (zh_chroot r) (zh_recv_timeout r)
    (zh_input_buffer r) (zh_primer_buffer r) (zh_to_process r) (zh_to_send r) (zh_sent_requests r)
    x (zh_outstanding_sync r) (zh_client_id r) (zh_passwd r) (zh_last_zxid r) (zh_auth_h r)
    (zh_primer_storage r) (zh_ref_counter r) (zh_close_requested r) (zh_allow_read_only r)
    (zh_seen_rw_server_before r) (zh_last_recv r) (zh_last_send r) (zh_last_ping r) (zh_freed r).
Definition set_zh_outstanding_sync (x : Z) (r : zhandle) : zhandle :=
  mk_zhandle (zh_servers r) (zh_delay r) (zh_watches r) (zh_chroot r) (zh_recv_timeout r)
    (zh_input_buffer r) (zh_primer_buffer r) (zh_to_process r) (zh_to_send r) (zh_sent_requests r)
    (zh_completions_to_process r) x (zh_client_id r) (zh_passwd r) (zh_last_zxid r) (zh_auth_h r)
    (zh_primer_storage r) (zh_ref_counter r) (zh_close_requested r) (zh_allow_read_only r)
    (zh_seen_rw_server_before r) (zh_last_recv r) (zh_last_send r) (zh_last_ping r) (zh_freed r).
Definition set_zh_client_id (x : Z) (r : zhandle) : zhandle :=
  mk_zhandle (zh_servers r) (zh_delay r) (zh_watches r) (zh_chroot r) (zh_recv_timeout r)
    (zh_input_buffer r) (zh_primer_buffer r) (zh_to_process r) (zh_to_send r) (zh_sent_requests r)
    (zh_completions_to_process r) (zh_outstanding_sync r) x (zh_passwd r) (zh_last_zxid r)
    (zh_auth_h r) (zh_primer_storage r) (zh_ref_counter r) (zh_close_requested r)
    (zh_allow_read_only r) (zh_seen_rw_server_before r) (zh_last_recv r) (zh_last_send r)
    (zh_last_ping r) (zh_freed r).
Definition set_zh_passwd (x : list byte) (r : zhandle) : zhandle :=
  mk_zhandle (zh_servers r) (zh_delay r) (zh_watches r) (zh_chroot r) (zh_recv_timeout r)
    (zh_input_buffer r) (zh_primer_buffer r) (zh_to_process r) (zh_to_send r) (zh_sent_requests r)
    (zh_completions_to_process r) (zh_outstanding_sync r) (zh_client_id r) x (zh_last_zxid r)
    (zh_auth_h r) (zh_primer_storage r) (zh_ref_counter r) (zh_close_requested r)
    (zh_allow_read_only r) (zh_seen_rw_server_before r) (zh_last_recv r) (zh_last_send r)
    (zh_last_ping r) (zh_freed r).
Definition set_zh_last_zxid (x : Z) (r : zhandle) : zhandle :=
  mk_zhandle (zh_servers r) (zh_delay r) (zh_watches r) (zh_chroot r) (zh_recv_timeout r)
    (zh_input_buffer r) (zh_primer_buffer r) (zh_to_process r) (zh_to_send r) (zh_sent_requests r)
    (zh_completions_to_process r) (zh_outstanding_sync r) (zh_client_id r) (zh_passwd r) x
    (zh_auth_h r) (zh_primer_storage r) (zh_ref_counter r) (zh_close_requested r)
    (zh_allow_read_only r) (zh_seen_rw_server_before r) (zh_last_recv r) (zh_last_send r)
    (zh_last_ping r) (zh_freed r).
Definition set_zh_auth_h (x : list auth_info) (r : zhandle) : zhandle :=
  mk_zhandle (zh_servers r) (zh_delay r) (zh_watches r) (zh_chroot r) (zh_recv_timeout r)
    (zh_input_buffer r) (zh_primer_buffer r) (zh_to_process r) (zh_to_send r) (zh_sent_requests r)
    (zh_completions_to_process r) (zh_outstanding_sync r) (zh_client_id r) (zh_passwd r)
    (zh_last_zxid r) x (zh_primer_storage r) (zh_ref_counter r) (zh_close_requested r)
    (zh_allow_read_only r) (zh_seen_rw_server_before r) (zh_last_recv r) (zh_last_send r)
    (zh_last_ping r) (zh_freed r).
Definition set_zh_primer_storage (x : prime_struct) (r : zhandle) : zhandle :=
  mk_zhandle (zh_servers r) (zh_delay r) (zh_watches r) (zh_chroot r) (zh_recv_timeout r)
    (zh_input_buffer r) (zh_primer_buffer r) (zh_to_process r) (zh_to_send r) (zh_sent_requests r)
    (zh_completions_to_process r) (zh_outstanding_sync r) (zh_client_id r) (zh_passwd r)
    (zh_last_zxid r) (zh_auth_h r) x (zh_ref_counter r) (zh_close_requested r)
    (zh_allow_read_only r) (zh_seen_rw_server_before r) (zh_last_recv r) (zh_last_send r)
    (zh_last_ping r) (zh_freed r).
Definition set_zh_ref_counter (x : Z) (r : zhandle) : zhandle :=
  mk_zhandle (zh_servers r) (zh_delay r) (zh_watches r) (zh_chroot r) (zh_recv_timeout r)
    (zh_input_buffer r) (zh_primer_buffer r) (zh_to_process r) (zh_to_send r) (zh_sent_requests r)
    (zh_completions_to_process r) (zh_outstanding_sync r) (zh_client_id r) (zh_passwd r)
    (zh_last_zxid r) (zh_auth_h r) (zh_primer_storage r) x (zh_close_requested r)
    (zh_allow_read_only r) (zh_seen_rw_server_before r) (zh_last_recv r) (zh_last_send r)
    (zh_last_ping r) (zh_freed r).
Definition set_zh_close_requested (x : Z) (r : zhandle) : zhandle :=
  mk_zhandle (zh_servers r) (zh_delay r) (zh_watches r) (zh_chroot r) (zh_recv_timeout r)
    (zh_input_buffer r) (zh_primer_buffer r) (zh_to_process r) (zh_to_send r) (zh_sent_requests r)
    (zh_completions_to_process r) (zh_outstanding_sync r) (zh_client_id r) (zh_passwd r)
    (zh_last_zxid r) (zh_auth_h r) (zh_primer_storage r) (zh_ref_counter r) x
    (zh_allow_read_only r) (zh_seen_rw_server_before r) (zh_last_recv r) (zh_last_send r)
    (zh_last_ping r) (zh_freed r).
Definition set_zh_allow_read_only (x : byte) (r : zhandle) : zhandle :=
  mk_zhandle (zh_servers r) (zh_delay r) (zh_watches r) (zh_chroot r) (zh_recv_timeout r)
    (zh_input_buffer r) (zh_primer_buffer r) (zh_to_process r) (zh_to_send r) (zh_sent_requests r)
    (zh_completions_to_process r) (zh_outstanding_sync r) (zh_client_id r) (zh_passwd r)
    (zh_last_zxid r) (zh_auth_h r) (zh_primer_storage r) (zh_ref_counter r) (zh_close_requested r)
    x (zh_seen_rw_server_before r) (zh_last_recv r) (zh_last_send r) (zh_last_ping r) (zh_freed r).
Definition set_zh_seen_rw_server_before (x : Z) (r : zhandle) : zhandle :=
  mk_zhandle (zh_servers r) (zh_delay r) (zh_watches r) (zh_chroot r) (zh_recv_timeout r)
    (zh_input_buffer r) (zh_primer_buffer r) (zh_to_process r) (zh_to_send r) (zh_sent_requests r)
    (zh_completions_to_process r) (zh_outstanding_sync r) (zh_client_id r) (zh_passwd r)
    (zh_last_zxid r) (zh_auth_h r) (zh_primer_storage r) (zh_ref_counter r) (zh_close_requested r)
    (zh_allow_read_only r) x (zh_last_recv r) (zh_last_send r) (zh_last_ping r) (zh_freed r).
Definition set_zh_last_recv (x : timeval) (r : zhandle) : zhandle :=
  mk_zhandle (zh_servers r) (zh_delay r) (zh_watches r) (zh_chroot r) (zh_recv_timeout r)
    (zh_input_buffer r) (zh_primer_buffer r) (zh_to_process r) (zh_to_send r) (zh_sent_requests r)
    (zh_completions_to_process r) (zh_outstanding_sync r) (zh_client_id r) (zh_passwd r)
    (zh_last_zxid r) (zh_auth_h r) (zh_primer_storage r) (zh_ref_counter r) (zh_close_requested r)
    (zh_allow_read_only r) (zh_seen_rw_server_before r) x (zh_last_send r) (zh_last_ping r)
    (zh_freed r).
Definition set_zh_last_send (x : timeval) (r : zhandle) : zhandle :=
  mk_zhandle (zh_servers r) (zh_delay r) (zh_watches r) (zh_chroot r) (zh_recv_timeout r)
    (zh_input_buffer r) (zh_primer_buffer r) (zh_to_process r) (zh_to_send r) (zh_sent_requests r)
    (zh_completions_to_process r) (zh_outstanding_sync r) (zh_client_id r) (zh_passwd r)
    (zh_last_zxid r) (zh_auth_h r) (zh_primer_storage r) (zh_ref_counter r) (zh_close_requested r)
    (zh_allow_read_only r) (zh_seen_rw_server_before r) (zh_last_recv r) x (zh_last_ping r)
    (zh_freed r).
Definition set_zh_last_ping (x : timeval) (r : zhandle) : zhandle :=
  mk_zhandle (zh_servers r) (zh_delay r) (zh_watches r) (zh_chroot r) (zh_recv_timeout r)
    (zh_input_buffer r) (zh_primer_buffer r) (zh_to_process r) (zh_to_send r) (zh_sent_requests r)
    (zh_completions_to_process r) (zh_outstanding_sync r) (zh_client_id r) (zh_passwd r)
    (zh_last_zxid r) (zh_auth_h r) (zh_primer_storage r) (zh_ref_counter r) (zh_close_requested r)
    (zh_allow_read_only r) (zh_seen_rw_server_before r) (zh_last_recv r) (zh_last_send r) x
    (zh_freed r).
Definition set_zh_freed (x : bool) (r : zhandle) : zhandle :=
  mk_zhandle (zh_servers r) (zh_delay r) (zh_watches r) (zh_chroot r) (zh_recv_timeout r)
    (zh_input_buffer r) (zh_primer_buffer r) (zh_to_process r) (zh_to_send r) (zh_sent_requests r)
    (zh_completions_to_process r) (zh_outstanding_sync r) (zh_client_id r) (zh_passwd r)
    (zh_last_zxid r) (zh_auth_h r) (zh_primer_storage r) (zh_ref_counter r) (zh_close_requested r)
    (zh_allow_read_only r) (zh_seen_rw_server_before r) (zh_last_recv r) (zh_last_send r)
    (zh_last_ping r) x.

(** What the library finds outside: the allocator's answers, the readings of the clock,
    the bytes on their way in, the script of the socket and those of [poll] (one per
    flush with a timeout), the bytes sent, the
    [SO_ERROR] of the socket, the static variable of [get_xid], the calls of user
    functions made so far; and, for the build with threads, the synchronous completions
    in memory by their addresses, the bytes in the pipe that wakes up the thread for I/O
    and the answers of [write] on it (the empty list: every write succeeds). *)
Record world := mk_world {
  w_alloc : allocs;
  w_clock : list timeval;
  w_in : list byte;
  w_io : list io;
  w_polls : list (list poll_step);
  w_wire : list byte;
  w_so_error : bool;
  w_xid : Z;
  w_calls : list ucall;
  w_sync : gmap Z sync_completion;
  w_pipe : Z;
  w_writes : list bool;
}.
Definition set_w_alloc (x : allocs) (r : world) : world :=
  mk_world x (w_clock r) (w_in r) (w_io r) (w_polls r) (w_wire r) (w_so_error r) (w_xid r)
    (w_calls r) (w_sync r) (w_pipe r) (w_writes r).
Definition set_w_clock (x : list timeval) (r : world) : world :=
  mk_world (w_alloc r) x (w_in r) (w_io r) (w_polls r) (w_wire r) (w_so_error r) (w_xid r)
    (w_calls r) (w_sync r) (w_pipe r) (w_writes r).
Definition set_w_in (x : list byte) (r : world) : world :=
  mk_world (w_alloc r) (w_clock r) x (w_io r) (w_polls r) (w_wire r) (w_so_error r) (w_xid r)
    (w_calls r) (w_sync r) (w_pipe r) (w_writes r).
Definition set_w_io (x : list io) (r : world) : world :=
  mk_world (w_alloc r) (w_clock r) (w_in r) x (w_polls r) (w_wire r) (w_so_error r) (w_xid r)
    (w_calls r) (w_sync r) (w_pipe r) (w_writes r).
Definition set_w_polls (x : list (list poll_step)) (r : world) : world :=
  mk_world (w_alloc r) (w_clock r) (w_in r) (w_io r) x (w_wire r) (w_so_error r) (w_xid r)
    (w_calls r) (w_sync r) (w_pipe r) (w_writes r).
Definition set_w_wire (x : list byte) (r : world) : world :=
  mk_world (w_alloc r) (w_clock r) (w_in r) (w_io r) (w_polls r) x (w_so_error r) (w_xid r)
    (w_calls r) (w_sync r) (w_pipe r) (w_writes r).
Definition set_w_so_error (x : bool) (r : world) : world :=
  mk_world (w_alloc r) (w_clock r) (w_in r) (w_io r) (w_polls r) (w_wire r) x (w_xid r)
    (w_calls r) (w_sync r) (w_pipe r) (w_writes r).
Definition set_w_xid (x : Z) (r : world) : world :=
  mk_world (w_alloc r) (w_clock r) (w_in r) (w_io r) (w_polls r) (w_wire r) (w_so_error r) x
    (w_calls r) (w_sync r) (w_pipe r) (w_writes r).
Definition set_w_calls (x : list ucall) (r : world) : world :=
  mk_world (w_alloc r) (w_clock r) (w_in r) (w_io r) (w_polls r) (w_wire r) (w_so_error r)
    (w_xid r) x (w_sync r) (w_pipe r) (w_writes r).
Definition set_w_sync (x : gmap Z sync_completion) (r : world) : world :=
  mk_world (w_alloc r) (w_clock r) (w_in r) (w_io r) (w_polls r) (w_wire r) (w_so_error r)
    (w_xid r) (w_calls r) x (w_pipe r) (w_writes r).
Definition set_w_pipe (x : Z) (r : world) : world :=
  mk_world (w_alloc r) (w_clock r) (w_in r) (w_io r) (w_polls r) (w_wire r) (w_so_error r)
    (w_xid r) (w_calls r) (w_sync r) x (w_writes r).
Definition set_w_writes (x : list bool) (r : world) : world :=
  mk_world (w_alloc r) (w_clock r) (w_in r) (w_io r) (w_polls r) (w_wire r) (w_so_error r)
    (w_xid r) (w_calls r) (w_sync r) (w_pipe r) x.

(** ** The monad *)
Record sys := mk_sys { s_zh : zhandle; s_world : world }.
Definition M (A : Type) : Type := sys → outcome (A * sys).
Global Instance M_ret : MRet M := λ A a s, Ret (a, s).
Global Instance M_bind : MBind M := λ A B f m s, '(a, s) ← m s; f a s.

Definition get {A} (f : zhandle → A) : M A := λ s, Ret (f (s_zh s), s).
Definition modify (f : zhandle → zhandle) : M () :=
  λ s, Ret ((), mk_sys (f (s_zh s)) (s_world s)).
Definition askw {A} (f : world → A) : M A := λ s, Ret (f (s_world s), s).
Definition modifyw (f : world → world) : M () :=
  λ s, Ret ((), mk_sys (s_zh s) (f (s_world s))).
Definition lift {A} (m : outcome A) : M A := λ s, a ← m; Ret (a, s).
Definition raise {A} (m : outcome A) : M A := lift m.

(** A computation with the allocator. *)
Definition allocating {A} (f : allocs → outcome (A * allocs)) : M A := λ s,
  '(a, o) ← f (w_alloc (s_world s));
  Ret (a, mk_sys (s_zh s) (set_w_alloc o (s_world s))).
(** [get_system_time] and [gettimeofday]. *)
Definition get_system_time : M timeval := λ s,
  match w_clock (s_world s) with
  | [] => Ret (mk_timeval 0 0, s)
  | t :: c => Ret (t, mk_sys (s_zh s) (set_w_clock c (s_world s)))
  end.
(** A call of the user's function [fn]. *)
Definition call (fn : Z) (c : ucall) : M () :=
  if fn =? 0 then raise UB else modifyw (λ w, set_w_calls (w_calls w ++ [c]) w).

(** An assignment to a field of the handle. *)
Notation "f :=! x" := (modify (λ zh, f x zh)) (at level 80, x at level 79, no associativity).

Definition zh_fd (zh : zhandle) : Z := sv_fd (zh_servers zh).
Definition zh_state (zh : zhandle) : Z := sv_state (zh_servers zh).
Definition on_servers (f : servers → servers) (zh : zhandle) : zhandle :=
  set_zh_servers (f (zh_servers zh)) zh.
Definition sv_set_fd (fd : Z) (sv : servers) : servers :=
  mk_servers (sv_hostname sv) (sv_addrs sv) (sv_addrs_old sv) (sv_addrs_new sv)
    (sv_addr_cur sv) (sv_reconfig sv) (sv_pOld sv) (sv_pNew sv) fd (sv_state sv).
Definition sv_set_state (st : Z) (sv : servers) : servers :=
  mk_servers (sv_hostname sv) (sv_addrs sv) (sv_addrs_old sv) (sv_addrs_new sv)
    (sv_addr_cur sv) (sv_reconfig sv) (sv_pOld sv) (sv_pNew sv) (sv_fd sv) st.
Definition set_state (st : Z) : M () := modify (on_servers (sv_set_state st)).
Definition set_fd (fd : Z) : M () := modify (on_servers (sv_set_fd fd)).

(** [is_unrecoverable] as the condition its users test. *)
Definition is_unrecoverable (zh : zhandle) : bool := zh_state zh <? 0.
Definition is_connected (zh : zhandle) : bool :=
  (zh_state zh =? ZOO_CONNECTED_STATE) || (zh_state zh =? ZOO_READONLY_STATE).

(** ** Reference counts and transaction numbers *)
Definition inc_ref_counter (i : Z) : M Z :=
  modify (λ zh, set_zh_ref_counter
    (zh_ref_counter zh + (if i <? 0 then -1 else if 0 <? i then 1 else 0)) zh);;
  get zh_ref_counter.
(** [get_xid] of src/st_adaptor.c, where the increment of the largest number is
    undefined. *)
Definition st_get_xid : M Z :=
  xid ← askw w_xid;
  xid ← (if xid =? -1 then t ← get_system_time; mret (int32 (tv_sec t)) else mret xid);
  if xid =? INT_MAX then raise UB else
  modifyw (set_w_xid (xid + 1));; mret xid.

(** ** Authentications *)
Definition get_last_auth (auth_list : list auth_info) : option auth_info := last auth_list.
Definition add_last_auth (auth_list : list auth_info) (add_el : auth_info) : list auth_info :=
  auth_list ++ [add_el].
(** An [auth_completion_list_t] whose first element is on the stack and holds NULL when
    the list is empty; the [malloc] of the others is not checked. *)
Definition add_auth_completion (a_list : list (Z * Z)) (completion data : Z) (o : allocs)
    : outcome (list (Z * Z) * allocs) :=
  match a_list with
  | [] => Ret ([(completion, data)], o)
  | _ =>
      let '(ok, o) := alloc o in
      if ok : bool then Ret (a_list ++ [(completion, data)], o) else UB
  end.
Definition clear_completion (a : auth_info) : auth_info :=
  mk_auth (ai_state a) (ai_scheme a) (ai_auth a) 0 (ai_data a).
Fixpoint get_auth_completions (auth_list : list auth_info) (a_list : list (Z * Z)) (o : allocs)
    : outcome (list auth_info * list (Z * Z) * allocs) :=
  match auth_list with
  | [] => Ret ([], a_list, o)
  | element :: rest =>
      '(a_list, o) ← (if ai_completion element =? 0 then Ret (a_list, o)
                      else add_auth_completion a_list (ai_completion element) (ai_data element) o);
      '(rest, a_list, o) ← get_auth_completions rest a_list o;
      Ret (clear_completion element :: rest, a_list, o)
  end.
Definition mark_active_auth (auth_list : list auth_info) : list auth_info :=
  map (λ a, mk_auth 1 (ai_scheme a) (ai_auth a) (ai_completion a) (ai_data a)) auth_list.
Definition free_auth_info (auth_list : list auth_info) : list auth_info := [].

(** [while (a_tmp->completion != NULL)]: the calls in the order of the list. *)
Fixpoint call_auth_completions (a_list : list (Z * Z)) (rc : Z) : M () :=
  match a_list with
  | [] => mret ()
  | (completion, auth_data) :: a_list =>
      if completion =? 0 then mret () else
      call completion (CallAuth completion rc auth_data);;
      call_auth_completions a_list rc
  end.
(** The common part of [auth_completion_func] and [free_completions]: take the
    completions off the list and call them. *)
Definition notify_auth (rc : Z) : M () :=
  auths ← get zh_auth_h;
  '(auths, a_list) ← allocating (λ o,
    '(auths, a_list, o) ← get_auth_completions auths [] o; Ret (auths, a_list, o));
  set_zh_auth_h :=! auths;;
  call_auth_completions a_list rc.
(** The log message of the function, on by default, reads [zh->auth_h.auth->scheme]. *)
Definition auth_completion_func (rc : Z) : M () :=
  (if negb (rc =? 0) then set_state ZOO_AUTH_FAILED_STATE
   else modify (λ zh, set_zh_auth_h (mark_active_auth (zh_auth_h zh)) zh));;
  auths ← get zh_auth_h;
  match auths with
  | [] => raise UB
  | _ => notify_auth rc
  end.

(** ** Completions *)
Definition do_create_completion_entry (xid completion_type dc data : Z)
    (wo : option watcher_registration) (clist : option (list completion_list))
    (wdo : option watcher_deregistration) : M (option completion_list) :=
  ok ← allocating (λ o, Ret (alloc o));
  if negb ok then mret None else
  let known := bool_decide (completion_type ∈ [COMPLETION_VOID; COMPLETION_STRING;
    COMPLETION_DATA; COMPLETION_STAT; COMPLETION_STRINGLIST; COMPLETION_STRINGLIST_STAT;
    COMPLETION_STRING_STAT; COMPLETION_ACLLIST; COMPLETION_MULTI]) in
  let entry l := Some (mk_completion xid completion_type (if known then dc else 0) None l data
                         None wo wdo) in
  if completion_type =? COMPLETION_MULTI then
    match clist with None => raise Abort | Some l => mret (entry l) end
  else mret (entry []).
Definition create_completion_entry (xid completion_type dc data : Z)
    (wo : option watcher_registration) (clist : option (list completion_list))
    : M (option completion_list) :=
  do_create_completion_entry xid completion_type dc data wo clist None.
Definition create_completion_entry_deregistration (xid completion_type dc data : Z)
    (wdo : option watcher_deregistration) (clist : option (list completion_list))
    : M (option completion_list) :=
  do_create_completion_entry xid completion_type dc data None clist wdo.

(** [queue_completion] and [queue_buffer] on lists. *)
Definition queue_at {A} (add_to_front : bool) (x : A) (l : list A) : list A :=
  if add_to_front then x :: l else l ++ [x].

Definition do_add_completion (dc : Z) (c : option completion_list) (add_to_front : bool) : M Z :=
  match c with
  | None => mret ZSYSTEMERROR
  | Some c =>
      closing ← get zh_close_requested;
      if negb (closing =? 1) then
        modify (λ zh, set_zh_sent_requests (queue_at add_to_front c (zh_sent_requests zh)) zh);;
        (if dc =? SYNCHRONOUS_MARKER
         then modify (λ zh, set_zh_outstanding_sync (zh_outstanding_sync zh + 1) zh)
         else mret ());;
        mret ZOK
      else mret ZINVALIDSTATE
  end.
Definition add_completion (xid completion_type dc data : Z) (add_to_front : bool)
    (wo : option watcher_registration) (clist : option (list completion_list)) : M Z :=
  c ← create_completion_entry xid completion_type dc data wo clist;
  do_add_completion dc c add_to_front.
Definition add_completion_deregistration (xid completion_type dc data : Z) (add_to_front : bool)
    (wdo : option watcher_deregistration) (clist : option (list completion_list)) : M Z :=
  c ← create_completion_entry_deregistration xid completion_type dc data wdo clist;
  do_add_completion dc c add_to_front.

Definition add_data_completion (xid dc data : Z) (wo : option watcher_registration) : M Z :=
  add_completion xid COMPLETION_DATA dc data false wo None.
Definition add_stat_completion (xid dc data : Z) (wo : option watcher_registration) : M Z :=
  add_completion xid COMPLETION_STAT dc data false wo None.
Definition add_strings_completion (xid dc data : Z) (wo : option watcher_registration) : M Z :=
  add_completion xid COMPLETION_STRINGLIST dc data false wo None.
Definition add_strings_stat_completion (xid dc data : Z) (wo : option watcher_registration) : M Z :=
  add_completion xid COMPLETION_STRINGLIST_STAT dc data false wo None.
Definition add_acl_completion (xid dc data : Z) : M Z :=
  add_completion xid COMPLETION_ACLLIST dc data false None None.
Definition add_void_completion (xid dc data : Z) : M Z :=
  add_completion xid COMPLETION_VOID dc data false None None.
Definition add_string_completion (xid dc data : Z) : M Z :=
  add_completion xid COMPLETION_STRING dc data false None None.
Definition add_string_stat_completion (xid dc data : Z) : M Z :=
  add_completion xid COMPLETION_STRING_STAT dc data false None None.
Definition add_multi_completion (xid dc data : Z) (clist : list completion_list) : M Z :=
  add_completion xid COMPLETION_MULTI dc data false None (Some clist).

(** ** Packets to send *)
Definition queue_bytes (add_to_front : bool) (buff : option (list byte)) (len : Z) : M Z :=
  b ← allocating (λ o, Ret (allocate_buffer buff len o));
  match b with
  | None => mret ZSYSTEMERROR
  | Some b =>
      modify (λ zh, set_zh_to_send (queue_at add_to_front b (zh_to_send zh)) zh);; mret ZOK
  end.
Definition queue_buffer_bytes := queue_bytes false.
Definition queue_front_buffer_bytes := queue_bytes true.

Section send.
Context `{Host}.

(** [flush_send_queue(zh, timeout)] on the queue of the handle. *)
Definition zh_flush_send_queue (timeout : Z) : M Z :=
  connected ← get is_connected;
  queue ← get zh_to_send;
  script ← askw w_io;
  polls ← (if timeout =? 0 then mret [] else
           ps ← askw w_polls; modifyw (set_w_polls (tail ps));; mret (from_option id [] (head ps)));
  '(rc, queue, sent, script, stamp) ← lift (flush_send_queue connected timeout queue polls script);
  set_zh_to_send :=! queue;;
  modifyw (λ w, set_w_io script (set_w_wire (w_wire w ++ sent) w));;
  (if stamp : bool then t ← get_system_time; set_zh_last_send :=! t else mret ());;
  mret rc.

(** The archive of a request: created, filled by [ser] (records one after the other)
    and taken over by the packet; a NULL archive is used like any other. *)
Definition marshal (ser : buff_struct → outcome (Z * buff_struct)) : M (Z * buff_struct) :=
  allocating (λ o,
    match create_buffer_oarchive o with
    | None => UB
    | Some oa => '(rc, oa) ← ser oa; Ret (rc, set_bs_alloc [] oa, bs_alloc oa)
    end).
(** [rc = rc < 0 ? rc : ...] between two records. *)
Definition ser_then (f g : buff_struct → outcome (Z * buff_struct)) (oa : buff_struct)
    : outcome (Z * buff_struct) :=
  '(rc, oa) ← f oa; if rc <? 0 then Ret (rc, oa) else g oa.
(** [rc = rc < 0 ? rc : m]. *)
Definition unless_failed (rc : Z) (m : M Z) : M Z := if rc <? 0 then mret rc else m.
End send.

(** ** The adaptor

    src/zookeeper.c is compiled twice, with src/st_adaptor.c or, with the macro [THREADED],
    with src/mt_adaptor.c.  What differs: the functions of the adaptor, and three places
    in the code, namely what becomes of a synchronous request that is failed
    ([free_completions]) or answered ([zookeeper_process], given the result and the archive
    after the header), and a notification in [aremove_watches]. *)
Class Adaptor := {
  process_async : Z → bool;
  get_xid : M Z;
  adaptor_send_queue : Z → M Z;
  fail_synchronous : completion_list → Z → M ();
  answer_synchronous : completion_list → Z → buff_struct → M ();
  notify_local : Z → M ();
}.

(** src/st_adaptor.c.  A synchronous request is a mistake of the caller:
    [abort_singlethreaded]. *)
Definition st_process_async (outstanding_sync : Z) : bool := outstanding_sync =? 0.
Definition st_adaptor_send_queue `{Host} (timeout : Z) : M Z := zh_flush_send_queue timeout.
Definition abort_singlethreaded : M () := raise Abort.
Global Instance st_adaptor `{Host} : Adaptor := {|
  process_async := st_process_async;
  get_xid := st_get_xid;
  adaptor_send_queue := st_adaptor_send_queue;
  fail_synchronous _ _ := abort_singlethreaded;
  answer_synchronous _ _ _ := abort_singlethreaded;
  notify_local _ := mret ();
|}.

(** Replaces the operations of the adaptor by those of the single-threaded build. *)
Ltac single_threaded :=
  cbn [process_async get_xid adaptor_send_queue fail_synchronous answer_synchronous notify_local
       st_adaptor];
  unfold st_process_async, st_get_xid, st_adaptor_send_queue, zh_flush_send_queue,
    abort_singlethreaded.
