(* ===== verification/Session.v ===== *)
(** * The session engine

    The event loop of src/zookeeper.c, for either adaptor: [zookeeper_process]
    with [check_events], the matching of responses to requests, the calls of the user's
    completions and watchers, and what happens when the connection is lost.  Local
    variables that the code leaves uninitialised have arbitrary contents, the class
    [Locals]. *)

From S2P Require Import Prelude RecordIO Jute Path Watchers Addrvec Handshake Transport Handle.
Local Open Scope Z_scope.

(** The contents of uninitialised locals, and of the stack in general. *)
Class Locals := {
  junk_ReplyHeader : ReplyHeader;
  junk_WatcherEvent : WatcherEvent;
  junk_ErrorResponse : ErrorResponse;
  junk_GetDataResponse : GetDataResponse;
  junk_SetDataResponse : SetDataResponse;
  junk_GetChildrenResponse : GetChildrenResponse;
  junk_GetChildren2Response : GetChildren2Response;
  junk_CreateResponse : CreateResponse;
  junk_Create2Response : Create2Response;
  junk_GetACLResponse : GetACLResponse;
  junk_Stat : Stat;
}.

Section session.
Context `{Host, Locals, Adaptor}.

(** An operation on an archive, with the allocator of the world. *)
Definition reading {A} (op : deser buff_struct A) (v : A) (ia : buff_struct)
    : M (Z * A * buff_struct) :=
  allocating (λ o,
    '(rc, v, ia) ← op v (set_bs_alloc o ia);
    Ret (rc, v, set_bs_alloc [] ia, bs_alloc ia)).
(** [deserialize_X(ia, tag, &x)] into an uninitialised [x], the result ignored: after a
    failure the code goes on with indeterminate values, which is undefined. *)
Definition parse {A} (op : deser buff_struct A) (junk : A) (ia : buff_struct)
    : M (A * buff_struct) :=
  '(rc, v, ia) ← reading op junk ia;
  if rc =? 0 then mret (v, ia) else raise UB.

(** [client_path = sub_string(zh, server_path)]. *)
Definition client_path (server_path : option cstring) : M (option cstring) :=
  chroot ← get zh_chroot;
  match server_path, chroot with
  | Some p, _ => allocating (λ o, Ret (sub_string chroot p o))
  | None, None => mret None
  | None, Some _ => raise UB
  end.

(** ** Completions *)

(** An archive to read from; [None] is the NULL passed for a failed multi. *)
Definition need (ia : option buff_struct) : M buff_struct :=
  match ia with Some ia => mret ia | None => raise UB end.

(** [deserialize_response] with [cleanup_failed_multi] and [deserialize_multi], the
    three of which call each other: [fail_all] and [multi_loop] are their loops. *)
Fixpoint deserialize_response (type xid : Z) (failed : bool) (rc : Z) (cptr : completion_list)
    (ia : option buff_struct) {struct cptr} : M (option buff_struct) :=
  let fail_all :=
    fix fail_all (clist : list completion_list) : M () :=
      match clist with
      | [] => mret ()
      | entry :: clist =>
          deserialize_response (c_type entry) xid true rc entry None;; fail_all clist
      end in
  let multi_loop :=
    fix multi_loop (clist : list completion_list) (rc : Z) (mhdr : MultiHeader)
        (ia : buff_struct) {struct clist} : M (Z * buff_struct) :=
      if negb (MultiHeader_done mhdr =? 0) then mret (rc, ia) else
      match clist with
      | [] => raise Abort
      | entry :: clist =>
          '(rc, err, ia) ←
            (if MultiHeader_type mhdr =? -1 then
               '(er, ia) ← parse deserialize_ErrorResponse junk_ErrorResponse ia;
               let e := ErrorResponse_err er in
               mret (if (rc =? 0) && negb (e =? 0) && negb (e =? ZRUNTIMEINCONSISTENCY)
                     then e else rc, e, ia)
             else mret (rc, MultiHeader_err mhdr, ia));
          ia ← deserialize_response (c_type entry) xid (MultiHeader_type mhdr =? -1) err entry (Some ia);
          ia ← need ia;
          '(_, mhdr, ia) ← reading deserialize_MultiHeader (set_MultiHeader_err err mhdr) ia;
          multi_loop clist rc mhdr ia
      end in
  let fn := c_result cptr in
  let data := c_data cptr in
  if type =? COMPLETION_DATA then
    if failed then call fn (CallData fn rc None 0 None data);; mret ia else
    ia ← need ia; '(res, ia) ← parse deserialize_GetDataResponse junk_GetDataResponse ia;
    call fn (CallData fn rc (b_buff (GetDataResponse_data res)) (b_len (GetDataResponse_data res))
               (Some (GetDataResponse_stat res)) data);;
    mret (Some ia)
  else if type =? COMPLETION_STAT then
    if failed then call fn (CallStat fn rc None data);; mret ia else
    ia ← need ia; '(res, ia) ← parse deserialize_SetDataResponse junk_SetDataResponse ia;
    call fn (CallStat fn rc (Some (SetDataResponse_stat res)) data);; mret (Some ia)
  else if type =? COMPLETION_STRINGLIST then
    if failed then call fn (CallStrings fn rc None data);; mret ia else
    ia ← need ia; '(res, ia) ← parse deserialize_GetChildrenResponse junk_GetChildrenResponse ia;
    call fn (CallStrings fn rc (Some (GetChildrenResponse_children res)) data);; mret (Some ia)
  else if type =? COMPLETION_STRINGLIST_STAT then
    if failed then call fn (CallStringsStat fn rc None None data);; mret ia else
    ia ← need ia; '(res, ia) ← parse deserialize_GetChildren2Response junk_GetChildren2Response ia;
    call fn (CallStringsStat fn rc (Some (GetChildren2Response_children res))
               (Some (GetChildren2Response_stat res)) data);; mret (Some ia)
  else if type =? COMPLETION_STRING then
    if failed then call fn (CallString fn rc None data);; mret ia else
    ia ← need ia;
    '(_, res, ia) ← reading deserialize_CreateResponse zero_CreateResponse ia;
    path ← client_path (CreateResponse_path res);
    call fn (CallString fn rc path data);; mret (Some ia)
  else if type =? COMPLETION_STRING_STAT then
    if failed then call fn (CallStringStat fn rc None None data);; mret ia else
    ia ← need ia; '(res, ia) ← parse deserialize_Create2Response junk_Create2Response ia;
    path ← client_path (Create2Response_path res);
    call fn (CallStringStat fn rc path (Some (Create2Response_stat res)) data);; mret (Some ia)
  else if type =? COMPLETION_ACLLIST then
    if failed then call fn (CallAcl fn rc None None data);; mret ia else
    ia ← need ia; '(res, ia) ← parse deserialize_GetACLResponse junk_GetACLResponse ia;
    call fn (CallAcl fn rc (Some (GetACLResponse_acl res)) (Some (GetACLResponse_stat res)) data);;
    mret (Some ia)
  else if type =? COMPLETION_VOID then
    if fn =? 0 then raise Abort else call fn (CallVoid fn rc data);; mret ia
  else if type =? COMPLETION_MULTI then
    if fn =? 0 then raise Abort else
    if failed then fail_all (c_clist cptr);; call fn (CallVoid fn rc data);; mret ia else
    ia ← need ia;
    '(_, mhdr, ia) ← reading deserialize_MultiHeader (mk_MultiHeader 0 0 0) ia;
    '(rc, ia) ← multi_loop (c_clist cptr) 0 mhdr ia;
    call fn (CallVoid fn rc data);; mret (Some ia)
  else mret ia.

(** [create_buffer_iarchive] on a packet: NULL is used like any other archive. *)
Definition open_archive (b : buffer_list) (len : Z) : M buff_struct :=
  allocating (λ o,
    match create_buffer_iarchive (bl_buffer b) len o with
    | None => UB
    | Some ia => Ret (set_bs_alloc [] ia, bs_alloc ia)
    end).

(** The body of the loop of [process_completions]. *)
Definition process_completion (cptr : completion_list) : M () :=
  match c_buffer cptr with
  | None => raise UB
  | Some bptr =>
      ia ← open_archive bptr (bl_len bptr);
      '(hdr, ia) ← parse deserialize_ReplyHeader junk_ReplyHeader ia;
      if ReplyHeader_xid hdr =? WATCHER_EVENT_XID then
        '(evt, ia) ← parse deserialize_WatcherEvent junk_WatcherEvent ia;
        match WatcherEvent_path evt with
        | None => raise UB
        | Some path =>
            chroot ← get zh_chroot;
            cbs ← allocating (λ o,
              '(cbs, _, o) ← deliverWatchers chroot (WatcherEvent_type evt)
                (WatcherEvent_state evt) path (c_watcher_result cptr) o; Ret (cbs, o));
            modifyw (λ w, set_w_calls (w_calls w ++ map CallWatcher cbs) w)
        end
      else
        deserialize_response (c_type cptr) (ReplyHeader_xid hdr)
          (negb (ReplyHeader_err hdr =? 0)) (ReplyHeader_err hdr) cptr (Some ia);;
        mret ()
  end.
Fixpoint completions_loop (queue : list completion_list) : M () :=
  match queue with
  | [] => mret ()
  | cptr :: queue =>
      set_zh_completions_to_process :=! queue;;
      process_completion cptr;;
      completions_loop queue
  end.
Definition process_completions : M () :=
  queue ← get zh_completions_to_process; completions_loop queue.
Definition process_completions_if_async : M () :=
  n ← get zh_outstanding_sync;
  if process_async n then process_completions else mret ().

Definition queue_completion (c : completion_list) : M () :=
  modify (λ zh, set_zh_completions_to_process (zh_completions_to_process zh ++ [c]) zh).

Definition zh_collectWatchers (type : Z) (path : cstring) : M watcher_list :=
  w ← get zh_watches;
  '(w, l) ← allocating (λ o, '(w, l, o) ← collectWatchers w type path o; Ret ((w, l), o));
  set_zh_watches :=! w;; mret l.

(** What is left of the allocator when [create_buffer_oarchive] fails. *)
Definition after_failure (o : allocs) : allocs :=
  match o with false :: o => o | _ :: _ :: o => o | _ => [] end.

(** [cptr] and its buffer are dereferenced before the test. *)
Definition queue_session_event (state : Z) : M Z :=
  let evt := mk_WatcherEvent ZOO_SESSION_EVENT state (Some []) in
  let hdr := mk_ReplyHeader WATCHER_EVENT_XID 0 0 in
  oa ← allocating (λ o,
    match create_buffer_oarchive o with
    | None => Ret (None, after_failure o)
    | Some oa =>
        '(rc, oa) ← ser_then (serialize_ReplyHeader hdr) (serialize_WatcherEvent evt) oa;
        Ret (if rc <? 0 then None else Some oa, bs_alloc oa)
    end);
  match oa with
  | None => mret ZSYSTEMERROR
  | Some oa =>
      cptr ← create_completion_entry WATCHER_EVENT_XID COMPLETION_WATCH 0 0 None None;
      buffer ← allocating (λ o, Ret (allocate_buffer (get_buffer oa) (get_buffer_len oa) o));
      match cptr, buffer with
      | Some cptr, Some b =>
          let b := mk_bl (bl_buffer b) (bl_len b) (get_buffer_len oa) in
          l ← zh_collectWatchers ZOO_SESSION_EVENT [];
          queue_completion (set_c_watcher_result (Some l) (set_c_buffer (Some b) cptr));;
          process_completions_if_async;;
          mret ZOK
      | _, _ => raise UB
      end
  end.

(** ** Losing the connection *)

(** The loop over the requests sent: each gets a faked response. *)
Fixpoint fake_responses (tmp_list : list completion_list) (callCompletion : bool) (reason : Z)
    : M () :=
  match tmp_list with
  | [] => mret ()
  | cptr :: tmp_list =>
      (if c_result cptr =? SYNCHRONOUS_MARKER then fail_synchronous cptr reason
       else if callCompletion then
         let h := mk_ReplyHeader (c_xid cptr) (-1) reason in
         '(_, oa) ← marshal (serialize_ReplyHeader h);
         ok ← allocating (λ o, Ret (alloc o));
         if negb ok then raise Abort else
         let bptr := mk_bl (get_buffer oa) (get_buffer_len oa) 0 in
         queue_completion (set_c_buffer (Some bptr) cptr)
       else mret ());;
      fake_responses tmp_list callCompletion reason
  end.
Definition free_completions (callCompletion : bool) (reason : Z) : M () :=
  tmp_list ← get zh_sent_requests;
  set_zh_sent_requests :=! [];;
  fake_responses tmp_list callCompletion reason;;
  notify_auth reason.

Definition cleanup_bufs (callCompletion : bool) (rc : Z) : M () :=
  set_zh_to_send :=! [];;
  set_zh_to_process :=! [];;
  free_completions callCompletion rc;;
  input ← get zh_input_buffer;
  match input with
  | InputBuffer _ => set_zh_input_buffer :=! NoInput
  | _ => mret ()
  end.

Definition cleanup (rc : Z) : M () :=
  unrecoverable ← get is_unrecoverable;
  connected ← get is_connected;
  state ← get zh_state;
  (if unrecoverable : bool then queue_session_event state;; mret ()
   else if connected : bool then queue_session_event ZOO_CONNECTING_STATE;; mret ()
   else mret ());;
  cleanup_bufs true rc;;
  set_fd (-1);;
  unrecoverable ← get is_unrecoverable;
  (if unrecoverable : bool then mret () else set_state 0);;
  process_completions_if_async.

Definition handle_error (rc : Z) : M () :=
  cleanup rc;;
  addrs ← get (λ zh, sv_addrs (zh_servers zh));
  set_zh_delay :=! (if addrvec_atend addrs then 1 else 0);;
  '(cur, addrs) ← lift (addrvec_next addrs);
  modify (on_servers (λ sv, with_cur cur (with_addrs addrs sv))).
Definition handle_socket_error_msg (rc : Z) : M Z := handle_error rc;; mret rc.

(** ** Packets of the session itself *)
Definition send_info_packet (auth : auth_info) : M Z :=
  let h := mk_RequestHeader AUTH_XID 100 in
  let req := mk_AuthPacket 0 (ai_scheme auth) (ai_auth auth) in
  '(rc, oa) ← marshal (ser_then (serialize_RequestHeader h) (serialize_AuthPacket req));
  unless_failed rc (queue_front_buffer_bytes (get_buffer oa) (get_buffer_len oa)).
(** The loop over all authentications; only the last result counts. *)
Fixpoint send_infos (auths : list auth_info) (rc : Z) : M Z :=
  match auths with
  | [] => mret rc
  | auth :: auths => rc ← send_info_packet auth; send_infos auths rc
  end.
Definition send_auth_info : M Z :=
  auths ← get zh_auth_h;
  match auths with
  | [] => mret ZOK
  | _ => rc ← send_infos auths 0; mret (if rc <? 0 then ZMARSHALLINGERROR else ZOK)
  end.
Definition send_last_auth_info : M Z :=
  auths ← get zh_auth_h;
  match get_last_auth auths with
  | None => mret ZOK
  | Some auth => rc ← send_info_packet auth; mret (if rc <? 0 then ZMARSHALLINGERROR else ZOK)
  end.

(** [collect_keys] as the [struct String_vector] it fills in. *)
Definition watched (t : which_table) : M (vector (option cstring)) :=
  w ← get zh_watches;
  '(count, keys) ← allocating (λ o,
    '(count, keys, o) ← collect_keys (get_table t w) o; Ret (count, keys, o));
  mret (mk_vector count (Some keys)).
Definition send_set_watches : M Z :=
  let h := mk_RequestHeader SET_WATCHES_XID 101 in
  zxid ← get zh_last_zxid;
  dataWatches ← watched NodeTable;
  existWatches ← watched ExistTable;
  childWatches ← watched ChildTable;
  if (v_count dataWatches =? 0) && (v_count existWatches =? 0) && (v_count childWatches =? 0)
  then mret ZOK else
  let req := mk_SetWatches zxid dataWatches existWatches childWatches in
  '(rc, oa) ← marshal (ser_then (serialize_RequestHeader h) (serialize_SetWatches req));
  rc ← unless_failed rc (queue_front_buffer_bytes (get_buffer oa) (get_buffer_len oa));
  mret (if rc <? 0 then ZMARSHALLINGERROR else ZOK).

Definition send_ping : M Z :=
  let h := mk_RequestHeader PING_XID 11 in
  '(rc, oa) ← marshal (serialize_RequestHeader h);
  t ← get_system_time;
  set_zh_last_ping :=! t;;
  rc ← unless_failed rc (queue_buffer_bytes (get_buffer oa) (get_buffer_len oa));
  if rc <? 0 then mret rc else adaptor_send_queue 0.

(** [zookeeper_send(zh->fd, data, length data)]: partial sends are not noticed. *)
Definition send (data : list byte) : M Z :=
  script ← askw w_io;
  let '(rc, _, sent, script) := zookeeper_send data script in
  modifyw (λ w, set_w_io script (set_w_wire (w_wire w ++ sent) w));; mret rc.

Definition prime_connection : M Z :=
  seen ← get zh_seen_rw_server_before;
  client_id ← get zh_client_id;
  passwd ← get zh_passwd;
  recv_timeout ← get zh_recv_timeout;
  last_zxid ← get zh_last_zxid;
  readOnly ← get zh_allow_read_only;
  let req := mk_connect_req 0 last_zxid recv_timeout (if seen =? 0 then 0 else client_id)
               16 passwd readOnly in
  let hlen := htonl HANDSHAKE_REQ_SIZE in
  rc ← send (mem_of_int 4 hlen);
  '(_, _, buffer_req) ← lift (serialize_prime_connect req
                                (replicate (Z.to_nat HANDSHAKE_REQ_SIZE) Byte.x00));
  rc ← (if rc <? 0 then mret rc else send buffer_req);
  if rc <? 0 then handle_socket_error_msg ZCONNECTIONLOSS else
  set_state ZOO_ASSOCIATING_STATE;;
  set_zh_input_buffer :=! PrimerInput;;
  modify (λ zh, set_zh_primer_buffer
    (mk_bl (Some (replicate (Z.to_nat (bl_len (zh_primer_buffer zh))) Byte.x00))
       (bl_len (zh_primer_buffer zh)) 4) zh);;
  mret ZOK.

(** ** Events of the socket *)
Definition ZOOKEEPER_WRITE : Z := 1.
Definition ZOOKEEPER_READ : Z := 2.
Definition event (events flag : Z) : bool := negb (Z.land events flag =? 0).

(** [recv_buffer(zh, zh->input_buffer)]. *)
Definition recv_input : M Z :=
  input ← get zh_input_buffer;
  '(primer, b) ← match input with
    | NoInput => raise UB
    | PrimerInput => b ← get zh_primer_buffer; mret (true, b)
    | InputBuffer b => mret (false, b)
    end;
  inp ← askw w_in;
  script ← askw w_io;
  '(rc, b, inp, script) ← allocating (λ o,
    '(rc, b, inp, script, o) ← recv_buffer primer b inp script o; Ret (rc, b, inp, script, o));
  modifyw (λ w, set_w_io script (set_w_in inp w));;
  (if primer : bool then set_zh_primer_buffer :=! b
   else set_zh_input_buffer :=! (InputBuffer b));;
  mret rc.

(** The end of the handshake: the primer buffer is complete. *)
Definition finish_handshake : M Z :=
  b ← get zh_primer_buffer;
  match bl_buffer b with
  | None => raise UB
  | Some bytes =>
      '(_, p) ← lift (deserialize_prime_response bytes);
      set_zh_primer_storage :=! p;;
      seen ← get zh_seen_rw_server_before;
      client_id ← get zh_client_id;
      let readOnly := negb (bool_decide (ps_readOnly p = Byte.x00)) in
      let oldid := if seen =? 0 then 0 else client_id in
      set_zh_seen_rw_server_before :=! (Z.lor seen (if readOnly then 0 else 1));;
      let newid := ps_sessionId p in
      if negb (oldid =? 0) && negb (oldid =? newid) then
        set_state ZOO_EXPIRED_SESSION_STATE;;
        handle_socket_error_msg ZSESSIONEXPIRED
      else
        set_zh_recv_timeout :=! ps_timeOut p;;
        set_zh_client_id :=! newid;;
        set_zh_passwd :=! ps_passwd p;;
        set_state (if readOnly then ZOO_READONLY_STATE else ZOO_CONNECTED_STATE);;
        modify (on_servers (with_reconfig 0));;
        send_set_watches;;
        send_auth_info;;
        set_zh_input_buffer :=! NoInput;;
        state ← get zh_state;
        queue_session_event state;;
        set_zh_input_buffer :=! NoInput;;
        mret ZOK
  end.

Definition read_event : M Z :=
  input ← get zh_input_buffer;
  match input with
  | NoInput =>
      b ← allocating (λ o, Ret (allocate_buffer None 0 o));
      match b with
      | None => raise UB
      | Some b => set_zh_input_buffer :=! (InputBuffer b)
      end
  | _ => mret ()
  end;;
  rc ← recv_input;
  if rc <? 0 then handle_socket_error_msg ZCONNECTIONLOSS
  else if 0 <? rc then
    t ← get_system_time;
    set_zh_last_recv :=! t;;
    input ← get zh_input_buffer;
    match input with
    | PrimerInput => finish_handshake
    | InputBuffer b =>
        modify (λ zh, set_zh_to_process (zh_to_process zh ++ [b]) zh);;
        set_zh_input_buffer :=! NoInput;;
        mret ZOK
    | NoInput => raise UB
    end
  else mret ZNOTHING.

Definition check_events (events : Z) : M Z :=
  fd ← get zh_fd;
  if fd =? -1 then mret ZINVALIDSTATE else
  state ← get zh_state;
  if event events ZOOKEEPER_WRITE && (state =? ZOO_CONNECTING_STATE) then
    error ← askw w_so_error;
    if error : bool then handle_socket_error_msg ZCONNECTIONLOSS
    else prime_connection
  else
  to_send ← get zh_to_send;
  rc ← (if negb (bool_decide (to_send = [])) && event events ZOOKEEPER_WRITE
        then zh_flush_send_queue 0 else mret ZOK);
  if rc <? 0 then handle_socket_error_msg ZCONNECTIONLOSS else
  if event events ZOOKEEPER_READ then read_event else mret ZOK.

(** ** Closing *)
Definition ZCLOSING : Z := -116.

(** [destroy] and the [free(zh)] after it. *)
Definition destroy : M () :=
  cleanup_bufs true ZCLOSING;;
  process_completions_if_async;;
  fd ← get zh_fd;
  (if negb (fd =? -1)
   then set_fd (-1);; modify (on_servers (with_cur zero_sockaddr));; set_state 0
   else mret ());;
  modify (on_servers (λ sv, with_lists addrvec_init addrvec_init
                              (with_addrs addrvec_init (with_hostname None sv))));;
  set_zh_chroot :=! None;;
  modify (λ zh, set_zh_auth_h (free_auth_info (zh_auth_h zh)) zh);;
  set_zh_freed :=! true.

(** The part of [zookeeper_close] that sends the request and frees the handle; the
    result of [wait_for_session_to_be_closed] is [ZOK] whatever [poll] says. *)
Definition close_session : M Z :=
  connected ← get is_connected;
  rc ← (if connected : bool then
          xid ← get_xid;
          '(rc, oa) ← marshal (serialize_RequestHeader (mk_RequestHeader xid (-11)));
          rc ← unless_failed rc (queue_buffer_bytes (get_buffer oa) (get_buffer_len oa));
          if rc <? 0 then mret ZMARSHALLINGERROR else
          rc ← adaptor_send_queue 3000;
          mret (if rc <? 0 then rc else ZOK)
        else mret ZOK);
  destroy;;
  mret rc.

Definition api_prolog : M () := inc_ref_counter 1;; mret ().
(** The close that was put off while the handle was in use: the counter is 0, so
    [zookeeper_close] takes its second branch. *)
Definition api_epilog (rc : Z) : M Z :=
  n ← inc_ref_counter (-1);
  closing ← get zh_close_requested;
  (if (n =? 0) && negb (closing =? 0)
   then set_zh_close_requested :=! 1;; inc_ref_counter 1;; close_session;; mret ()
   else mret ());;
  mret rc.
Definition zookeeper_close : M Z :=
  set_zh_close_requested :=! 1;;
  n ← inc_ref_counter 1;
  if 1 <? n then free_completions true ZCLOSING;; api_epilog 0;; mret ZOK
  else close_session.

(** ** Responses *)

(** What a packet does to the loop of [zookeeper_process]: go on, or leave with a
    result. *)
Inductive step := Continue | Leave (rc : Z).

Definition process_watcher_event (bptr : buffer_list) (ia : buff_struct) : M step :=
  '(evt, ia) ← parse deserialize_WatcherEvent junk_WatcherEvent ia;
  c ← create_completion_entry WATCHER_EVENT_XID COMPLETION_WATCH 0 0 None None;
  match c, WatcherEvent_path evt with
  | Some c, Some path =>
      l ← zh_collectWatchers (WatcherEvent_type evt) path;
      queue_completion (set_c_watcher_result (Some l) (set_c_buffer (Some bptr) c));;
      mret Continue
  | _, _ => raise UB
  end.

Definition process_auth (err : Z) : M step :=
  auth_completion_func err;;
  unrecoverable ← get is_unrecoverable;
  if unrecoverable : bool
  then handle_error ZAUTHFAILED;; mret (Leave ZAUTHFAILED) else mret Continue.

Definition process_response (hdr : ReplyHeader) (bptr : buffer_list) (ia : buff_struct)
    : M step :=
  let rc := ReplyHeader_err hdr in
  requests ← get zh_sent_requests;
  closing ← get zh_close_requested;
  match requests with
  | [] => if closing =? 1 then mret (Leave ZINVALIDSTATE) else raise Abort
  | cptr :: requests =>
      set_zh_sent_requests :=! requests;;
      if negb (c_xid cptr =? ReplyHeader_xid hdr) then
        modify (λ zh, set_zh_sent_requests (cptr :: zh_sent_requests zh) zh);;
        rc ← handle_socket_error_msg ZRUNTIMEINCONSISTENCY; mret (Leave rc)
      else
      (if 0 <? ReplyHeader_zxid hdr then set_zh_last_zxid :=! ReplyHeader_zxid hdr else mret ());;
      w ← get zh_watches;
      w ← allocating (activateWatcher w (c_watcher cptr) rc);
      w ← lift (deactivateWatcher w (c_deregistration cptr) rc);
      set_zh_watches :=! w;;
      if negb (c_result cptr =? SYNCHRONOUS_MARKER) then
        queue_completion (set_c_buffer (Some bptr) cptr);; mret Continue
      else answer_synchronous cptr rc ia;; mret Continue
  end.

(** One round of the loop.  The archive is given [curr_offset] as its length. *)
Definition process_packet (bptr : buffer_list) : M step :=
  ia ← open_archive bptr (bl_curr_offset bptr);
  '(hdr, ia) ← parse deserialize_ReplyHeader junk_ReplyHeader ia;
  if ReplyHeader_xid hdr =? PING_XID then get_system_time;; mret Continue
  else if ReplyHeader_xid hdr =? WATCHER_EVENT_XID then process_watcher_event bptr ia
  else if ReplyHeader_xid hdr =? SET_WATCHES_XID then mret Continue
  else if ReplyHeader_xid hdr =? AUTH_XID then process_auth (ReplyHeader_err hdr)
  else process_response hdr bptr ia.

Fixpoint packets_loop (queue : list buffer_list) : M step :=
  match queue with
  | [] => mret Continue
  | bptr :: queue =>
      set_zh_to_process :=! queue;;
      st ← process_packet bptr;
      match st with
      | Leave rc => mret (Leave rc)
      | Continue => packets_loop queue
      end
  end.

Definition zookeeper_process (events : Z) : M Z :=
  unrecoverable ← get is_unrecoverable;
  if unrecoverable : bool then mret ZINVALIDSTATE else
  api_prolog;;
  rc ← check_events events;
  if negb (rc =? ZOK) then api_epilog rc else
  queue ← get zh_to_process;
  st ← packets_loop queue;
  match st with
  | Leave rc => api_epilog rc
  | Continue => process_completions_if_async;; api_epilog ZOK
  end.
End session.
