(* ===== verification/Requests.v ===== *)
(** * The asynchronous API

    The [zoo_a...] functions of src/zookeeper.c: each checks its arguments, marshals a
    request header and a record, queues a completion for the response and the packet to
    send, and tries to send at once.  The handle is not NULL. *)

From S2P Require Import Prelude RecordIO Jute Path Watchers Addrvec Handshake Transport Handle.
From S2P Require Import Session.
Local Open Scope Z_scope.

Abbreviation ZUNIMPLEMENTED := (-6).
Abbreviation ZNOWATCHER := (-121).

Abbreviation ZOO_CREATE_OP := 1.
Abbreviation ZOO_DELETE_OP := 2.
Abbreviation ZOO_EXISTS_OP := 3.
Abbreviation ZOO_GETDATA_OP := 4.
Abbreviation ZOO_SETDATA_OP := 5.
Abbreviation ZOO_GETACL_OP := 6.
Abbreviation ZOO_SETACL_OP := 7.
Abbreviation ZOO_GETCHILDREN_OP := 8.
Abbreviation ZOO_SYNC_OP := 9.
Abbreviation ZOO_GETCHILDREN2_OP := 12.
Abbreviation ZOO_CHECK_OP := 13.
Abbreviation ZOO_MULTI_OP := 14.
Abbreviation ZOO_CREATE2_OP := 15.
Abbreviation ZOO_RECONFIG_OP := 16.
Abbreviation ZOO_CHECK_WATCHES := 17.
Abbreviation ZOO_REMOVE_WATCHES := 18.
Definition ZOO_MAX_TTL : Z := 1099511627775.
Definition ZOO_CONFIG_NODE : cstring := lit "/zookeeper/config".

Section requests.
Context `{Host, Adaptor}.

(** ** Arguments *)
Definition zh_prepend_string (path : option cstring) : M (option cstring) :=
  chroot ← get zh_chroot; allocating (prepend_string chroot path).

(** The two checks every request starts with. *)
Definition check_path (mode : Z) (server_path : option cstring) : M Z :=
  if negb (isValidPath server_path mode) then mret ZBADARGUMENTS else
  unrecoverable ← get is_unrecoverable;
  mret (if unrecoverable : bool then ZINVALIDSTATE else ZOK).
Definition Request_path_init (mode : Z) (path : option cstring) : M (Z * option cstring) :=
  path_out ← zh_prepend_string path;
  rc ← check_path mode path_out;
  mret (rc, path_out).
Definition Request_path_watch_init (mode : Z) (path : option cstring) (watch : bool)
    : M (Z * option cstring * Z) :=
  '(rc, path_out) ← Request_path_init mode path;
  mret (rc, path_out, if watch then 1 else 0).

(** The allocations are not checked: a NULL registration, or one without a path, is
    dereferenced. *)
Definition create_watcher_registration (path : option cstring) (checker : result_checker)
    (watcher ctx : Z) : M (option watcher_registration) :=
  if watcher =? 0 then mret None else
  match path with
  | None => raise UB
  | Some path =>
      p ← allocating (λ o, let '(ok, o) := alloc o in
                           if ok : bool then Ret (strdup path o) else UB);
      match p with
      | None => raise UB
      | Some p => mret (Some (mk_reg watcher ctx checker p))
      end
  end.
Definition create_watcher_deregistration (path : option cstring) (watcher ctx wtype : Z)
    : M (option watcher_deregistration) :=
  ok ← allocating (λ o, Ret (alloc o));
  if negb ok then mret None else
  match path with
  | None => raise UB
  | Some path =>
      p ← allocating (λ o, Ret (strdup path o));
      match p with
      | None => raise UB
      | Some p => mret (Some (mk_dereg watcher ctx wtype p))
      end
  end.

(** ** The common end of every request *)
Definition submit (ser : buff_struct → outcome (Z * buff_struct)) (add : M Z) : M Z :=
  '(rc, oa) ← marshal ser;
  rc ← unless_failed rc add;
  rc ← unless_failed rc (queue_buffer_bytes (get_buffer oa) (get_buffer_len oa));
  adaptor_send_queue 0;;
  mret (if rc <? 0 then ZMARSHALLINGERROR else ZOK).
Definition header (xid type : Z) : buff_struct → outcome (Z * buff_struct) :=
  serialize_RequestHeader (mk_RequestHeader xid type).

(** ** The operations *)
Definition zoo_awget (path : option cstring) (watcher watcherCtx dc data : Z) : M Z :=
  server_path ← zh_prepend_string path;
  xid ← get_xid;
  rc ← check_path 0 server_path;
  if negb (rc =? ZOK) then mret rc else
  let req := mk_GetDataRequest server_path (if watcher =? 0 then 0 else 1) in
  submit (ser_then (header xid ZOO_GETDATA_OP) (serialize_GetDataRequest req))
    (wo ← create_watcher_registration server_path data_result_checker watcher watcherCtx;
     add_data_completion xid dc data wo).
(** [watch ? zh->watcher : 0] and [zh->context]. *)
Definition default_watcher (watch : Z) : M (Z * Z) :=
  w ← get zh_watches;
  mret (if watch =? 0 then 0 else zh_watcher w, zh_context w).
Definition zoo_aget (path : option cstring) (watch dc data : Z) : M Z :=
  '(w, ctx) ← default_watcher watch; zoo_awget path w ctx dc data.

Definition zoo_awgetconfig (watcher watcherCtx dc data : Z) : M Z :=
  let server_path := Some ZOO_CONFIG_NODE in
  xid ← get_xid;
  rc ← check_path 0 server_path;
  if negb (rc =? ZOK) then mret rc else
  let req := mk_GetDataRequest server_path (if watcher =? 0 then 0 else 1) in
  submit (ser_then (header xid ZOO_GETDATA_OP) (serialize_GetDataRequest req))
    (wo ← create_watcher_registration server_path data_result_checker watcher watcherCtx;
     add_data_completion xid dc data wo).
Definition zoo_agetconfig (watch dc data : Z) : M Z :=
  '(w, ctx) ← default_watcher watch; zoo_awgetconfig w ctx dc data.

Definition zoo_areconfig (joining leaving members : option cstring) (version dc data : Z) : M Z :=
  xid ← get_xid;
  unrecoverable ← get is_unrecoverable;
  if unrecoverable : bool then mret ZINVALIDSTATE else
  let req := mk_ReconfigRequest joining leaving members version in
  submit (ser_then (header xid ZOO_RECONFIG_OP) (serialize_ReconfigRequest req))
    (add_data_completion xid dc data None).

Definition SetDataRequest_init (path : option cstring) (value : option (list byte))
    (buflen version : Z) : M (Z * SetDataRequest) :=
  '(rc, p) ← Request_path_init 0 path;
  mret (rc, mk_SetDataRequest p (mk_buffer buflen value) version).
Definition zoo_aset (path : option cstring) (value : option (list byte)) (buflen version : Z)
    (dc data : Z) : M Z :=
  xid ← get_xid;
  '(rc, req) ← SetDataRequest_init path value buflen version;
  if negb (rc =? ZOK) then mret rc else
  submit (ser_then (header xid ZOO_SETDATA_OP) (serialize_SetDataRequest req))
    (add_stat_completion xid dc data None).

(** [acl_entries]: NULL stands for no entries. *)
Definition acl_of (acl_entries : option (vector ACL)) : vector ACL :=
  default (mk_vector 0 None) acl_entries.
Definition CreateRequest_init (path : option cstring) (value : option (list byte))
    (valuelen : Z) (acl_entries : option (vector ACL)) (mode : Z) : M (Z * CreateRequest) :=
  '(rc, p) ← Request_path_init mode path;
  mret (rc, mk_CreateRequest p (mk_buffer valuelen value) (acl_of acl_entries) mode).
Definition CreateTTLRequest_init (path : option cstring) (value : option (list byte))
    (valuelen : Z) (acl_entries : option (vector ACL)) (mode ttl : Z)
    : M (Z * CreateTTLRequest) :=
  '(rc, p) ← Request_path_init mode path;
  mret (rc, mk_CreateTTLRequest p (mk_buffer valuelen value) (acl_of acl_entries) mode ttl).

(** [zoo_acreate_ttl] and [zoo_acreate2_ttl], which differ in the operation and in the
    kind of completion, [add]. *)
Definition create_with (default_op : Z) (add : Z → M Z) (path : option cstring)
    (value : option (list byte)) (valuelen : Z) (acl_entries : option (vector ACL))
    (mode ttl : Z) : M Z :=
  xid ← get_xid;
  let h := header xid (get_create_op_type mode default_op) in
  if ZOOKEEPER_IS_TTL mode then
    if (ttl <=? 0) || (ZOO_MAX_TTL <? ttl) then mret ZBADARGUMENTS else
    '(rc, req) ← CreateTTLRequest_init path value valuelen acl_entries mode ttl;
    if negb (rc =? ZOK) then mret rc else
    submit (ser_then h (serialize_CreateTTLRequest req)) (add xid)
  else
    if 0 <=? ttl then mret ZBADARGUMENTS else
    '(rc, req) ← CreateRequest_init path value valuelen acl_entries mode;
    if negb (rc =? ZOK) then mret rc else
    submit (ser_then h (serialize_CreateRequest req)) (add xid).
Definition zoo_acreate_ttl (path : option cstring) (value : option (list byte)) (valuelen : Z)
    (acl_entries : option (vector ACL)) (mode ttl completion data : Z) : M Z :=
  create_with ZOO_CREATE_OP (λ xid, add_string_completion xid completion data)
    path value valuelen acl_entries mode ttl.
Definition zoo_acreate2_ttl (path : option cstring) (value : option (list byte)) (valuelen : Z)
    (acl_entries : option (vector ACL)) (mode ttl completion data : Z) : M Z :=
  create_with ZOO_CREATE2_OP (λ xid, add_string_stat_completion xid completion data)
    path value valuelen acl_entries mode ttl.
Definition zoo_acreate (path : option cstring) (value : option (list byte)) (valuelen : Z)
    (acl_entries : option (vector ACL)) (mode completion data : Z) : M Z :=
  zoo_acreate_ttl path value valuelen acl_entries mode (-1) completion data.
Definition zoo_acreate2 (path : option cstring) (value : option (list byte)) (valuelen : Z)
    (acl_entries : option (vector ACL)) (mode completion data : Z) : M Z :=
  zoo_acreate2_ttl path value valuelen acl_entries mode (-1) completion data.

Definition DeleteRequest_init (path : option cstring) (version : Z) : M (Z * DeleteRequest) :=
  '(rc, p) ← Request_path_init 0 path; mret (rc, mk_DeleteRequest p version).
Definition zoo_adelete (path : option cstring) (version completion data : Z) : M Z :=
  xid ← get_xid;
  '(rc, req) ← DeleteRequest_init path version;
  if negb (rc =? ZOK) then mret rc else
  submit (ser_then (header xid ZOO_DELETE_OP) (serialize_DeleteRequest req))
    (add_void_completion xid completion data).

Definition zoo_awexists (path : option cstring) (watcher watcherCtx completion data : Z) : M Z :=
  xid ← get_xid;
  '(rc, p, watch) ← Request_path_watch_init 0 path (negb (watcher =? 0));
  if negb (rc =? ZOK) then mret rc else
  submit (ser_then (header xid ZOO_EXISTS_OP) (serialize_ExistsRequest (mk_ExistsRequest p watch)))
    (wo ← create_watcher_registration p exists_result_checker watcher watcherCtx;
     add_stat_completion xid completion data wo).
Definition zoo_aexists (path : option cstring) (watch sc data : Z) : M Z :=
  '(w, ctx) ← default_watcher watch; zoo_awexists path w ctx sc data.

Definition zoo_awget_children_ (path : option cstring) (watcher watcherCtx sc data : Z) : M Z :=
  xid ← get_xid;
  '(rc, p, watch) ← Request_path_watch_init 0 path (negb (watcher =? 0));
  if negb (rc =? ZOK) then mret rc else
  submit (ser_then (header xid ZOO_GETCHILDREN_OP)
            (serialize_GetChildrenRequest (mk_GetChildrenRequest p watch)))
    (wo ← create_watcher_registration p child_result_checker watcher watcherCtx;
     add_strings_completion xid sc data wo).
Definition zoo_aget_children (path : option cstring) (watch dc data : Z) : M Z :=
  '(w, ctx) ← default_watcher watch; zoo_awget_children_ path w ctx dc data.
Definition zoo_awget_children (path : option cstring) (watcher watcherCtx dc data : Z) : M Z :=
  zoo_awget_children_ path watcher watcherCtx dc data.

Definition zoo_awget_children2_ (path : option cstring) (watcher watcherCtx ssc data : Z) : M Z :=
  xid ← get_xid;
  '(rc, p, watch) ← Request_path_watch_init 0 path (negb (watcher =? 0));
  if negb (rc =? ZOK) then mret rc else
  submit (ser_then (header xid ZOO_GETCHILDREN2_OP)
            (serialize_GetChildren2Request (mk_GetChildren2Request p watch)))
    (wo ← create_watcher_registration p child_result_checker watcher watcherCtx;
     add_strings_stat_completion xid ssc data wo).
Definition zoo_aget_children2 (path : option cstring) (watch dc data : Z) : M Z :=
  '(w, ctx) ← default_watcher watch; zoo_awget_children2_ path w ctx dc data.
Definition zoo_awget_children2 (path : option cstring) (watcher watcherCtx dc data : Z) : M Z :=
  zoo_awget_children2_ path watcher watcherCtx dc data.

Definition zoo_async (path : option cstring) (completion data : Z) : M Z :=
  xid ← get_xid;
  '(rc, p) ← Request_path_init 0 path;
  if negb (rc =? ZOK) then mret rc else
  submit (ser_then (header xid ZOO_SYNC_OP) (serialize_SyncRequest (mk_SyncRequest p)))
    (add_string_completion xid completion data).

Definition zoo_aget_acl (path : option cstring) (completion data : Z) : M Z :=
  xid ← get_xid;
  '(rc, p) ← Request_path_init 0 path;
  if negb (rc =? ZOK) then mret rc else
  submit (ser_then (header xid ZOO_GETACL_OP) (serialize_GetACLRequest (mk_GetACLRequest p)))
    (add_acl_completion xid completion data).
(** [req.acl = *acl]: NULL is dereferenced. *)
Definition zoo_aset_acl (path : option cstring) (version : Z) (acl : option (vector ACL))
    (completion data : Z) : M Z :=
  xid ← get_xid;
  '(rc, p) ← Request_path_init 0 path;
  if negb (rc =? ZOK) then mret rc else
  match acl with
  | None => raise UB
  | Some acl =>
      submit (ser_then (header xid ZOO_SETACL_OP)
                (serialize_SetACLRequest (mk_SetACLRequest p acl version)))
        (add_void_completion xid completion data)
  end.

(** ** Transactions *)

(** [zoo_op_t]: the members of the union the library reads; [type] is independent of
    the member that is set. *)
Record create_op := mk_create_op {
  co_path : option cstring; co_data : option (list byte); co_datalen : Z;
  co_buf : Z; co_buflen : Z; co_acl : option (vector ACL); co_flags : Z; co_ttl : Z;
}.
Inductive op_union :=
  | UCreate (c : create_op)
  | UDelete (path : option cstring) (version : Z)
  | USet (path : option cstring) (value : option (list byte)) (datalen version stat : Z)
  | UCheck (path : option cstring) (version : Z).
Record zoo_op := mk_zoo_op { op_type : Z; op_args : op_union }.

(** [ttl] is what the structure held before in [zoo_create2_op_init]. *)
Definition zoo_create_op_init (path : option cstring) (value : option (list byte)) (valuelen : Z)
    (acl : option (vector ACL)) (mode buf buflen : Z) : zoo_op :=
  mk_zoo_op (get_create_op_type mode ZOO_CREATE_OP)
    (UCreate (mk_create_op path value valuelen buf buflen acl mode 0)).
Definition zoo_create2_op_init (old_ttl : Z) (path : option cstring)
    (value : option (list byte)) (valuelen : Z) (acl : option (vector ACL))
    (mode buf buflen : Z) : zoo_op :=
  mk_zoo_op (get_create_op_type mode ZOO_CREATE2_OP)
    (UCreate (mk_create_op path value valuelen buf buflen acl mode old_ttl)).
Definition zoo_delete_op_init (path : option cstring) (version : Z) : zoo_op :=
  mk_zoo_op ZOO_DELETE_OP (UDelete path version).
Definition zoo_set_op_init (path : option cstring) (value : option (list byte))
    (buflen version stat : Z) : zoo_op :=
  mk_zoo_op ZOO_SETDATA_OP (USet path value buflen version stat).
Definition zoo_check_op_init (path : option cstring) (version : Z) : zoo_op :=
  mk_zoo_op ZOO_CHECK_OP (UCheck path version).

(** [zoo_op_result_t]: the caller's buffer for a name, and for a [Stat]. *)
Record zoo_op_result := mk_result {
  r_err : Z; r_value : option (list byte); r_valuelen : Z; r_stat : option Stat;
}.
Definition op_result_string_completion (err : Z) (value : option cstring) (r : zoo_op_result)
    : outcome zoo_op_result :=
  match r_value r, value with
  | Some buf, Some value =>
      let len := Z.of_nat (length value) + 1 in
      let len := if r_valuelen r <? len then r_valuelen r else len in
      buf ← (if 0 <? len then
               buf ← copy_to buf 0 (take (Z.to_nat (len - 1)) value);
               copy_to buf (len - 1) [Byte.x00]
             else Ret buf);
      Ret (mk_result err (Some buf) (r_valuelen r) (r_stat r))
  | _, _ => Ret (mk_result err None (r_valuelen r) (r_stat r))
  end.
Definition op_result_void_completion (err : Z) (r : zoo_op_result) : zoo_op_result :=
  mk_result err (r_value r) (r_valuelen r) (r_stat r).
Definition op_result_stat_completion (err : Z) (stat : option Stat) (r : zoo_op_result)
    : zoo_op_result :=
  mk_result err (r_value r) (r_valuelen r)
    (match r_stat r with
     | Some _ => if err =? 0 then stat else None
     | None => None
     end).
(** The addresses of these functions in a completion entry. *)
Definition op_result_string_fn : Z := -2.
Definition op_result_void_fn : Z := -3.
Definition op_result_stat_fn : Z := -4.

Definition CheckVersionRequest_init (path : option cstring) (version : Z)
    : M (Z * CheckVersionRequest) :=
  '(rc, p) ← Request_path_init 0 path; mret (rc, mk_CheckVersionRequest p version).

(** An operation on an output archive, with the allocator of the world. *)
Definition writing (op : buff_struct → outcome (Z * buff_struct)) (oa : buff_struct)
    : M (Z * buff_struct) :=
  allocating (λ o, '(rc, oa) ← op (set_bs_alloc o oa); Ret (rc, set_bs_alloc [] oa, bs_alloc oa)).
(** One sub-request: [rc = rc < 0 ? rc : X_init(...)], [rc = rc < 0 ? rc :
    serialize_X(...)], and the [free_duplicate_path(req.path, path)] after them.  If an
    earlier step failed [req.path] is indeterminate; if the initialisation itself
    failed and there is a chroot, its copy of the path has already been freed. *)
Definition sub_request {R} (init : M (Z * R)) (ser : R → buff_struct → outcome (Z * buff_struct))
    (rc : Z) (oa : buff_struct) : M (Z * buff_struct) :=
  if rc <? 0 then raise UB else
  '(rc, req) ← init;
  if rc <? 0 then
    chroot ← get zh_chroot;
    match chroot with Some _ => raise UB | None => mret (rc, oa) end
  else writing (ser req) oa.

(** What the loop writes to the caller's result of a sub-request: its buffer for a name,
    or for a [Stat]. *)
Inductive result_slot := SlotName (buf buflen : Z) | SlotStat (stat : Z) | SlotKept.

(** The [switch] on the type: [None] for a type it does not know, otherwise the archive,
    the completion entry and the result.  A type that does not go with the member of
    the union that is set makes it read the wrong member. *)
Definition sub_op (xid : Z) (op : zoo_op) (result rc : Z) (oa : buff_struct)
    : M (option (Z * buff_struct * option completion_list * result_slot)) :=
  let type := op_type op in
  if (type =? ZOO_CREATE_CONTAINER_OP) || (type =? ZOO_CREATE_OP) then
    match op_args op with
    | UCreate c =>
        '(rc, oa) ← sub_request
          (CreateRequest_init (co_path c) (co_data c) (co_datalen c) (co_acl c) (co_flags c))
          serialize_CreateRequest rc oa;
        e ← create_completion_entry xid COMPLETION_STRING op_result_string_fn result None None;
        mret (Some (rc, oa, e, SlotName (co_buf c) (co_buflen c)))
    | _ => raise UB
    end
  else if type =? ZOO_DELETE_OP then
    match op_args op with
    | UDelete path version =>
        '(rc, oa) ← sub_request (DeleteRequest_init path version) serialize_DeleteRequest rc oa;
        e ← create_completion_entry xid COMPLETION_VOID op_result_void_fn result None None;
        mret (Some (rc, oa, e, SlotKept))
    | _ => raise UB
    end
  else if type =? ZOO_SETDATA_OP then
    match op_args op with
    | USet path value datalen version stat =>
        '(rc, oa) ← sub_request (SetDataRequest_init path value datalen version)
          serialize_SetDataRequest rc oa;
        e ← create_completion_entry xid COMPLETION_STAT op_result_stat_fn result None None;
        mret (Some (rc, oa, e, SlotStat stat))
    | _ => raise UB
    end
  else if type =? ZOO_CHECK_OP then
    match op_args op with
    | UCheck path version =>
        '(rc, oa) ← sub_request (CheckVersionRequest_init path version)
          serialize_CheckVersionRequest rc oa;
        e ← create_completion_entry xid COMPLETION_VOID op_result_void_fn result None None;
        mret (Some (rc, oa, e, SlotKept))
    | _ => raise UB
    end
  else mret None.

(** The loop; [result] is the address of the next result, [slots] what has been written
    to the results before it.  A NULL entry is queued, so dereferenced. *)
Fixpoint sub_ops (xid : Z) (ops : list zoo_op) (result rc : Z) (oa : buff_struct)
    (clist : list completion_list) (slots : list result_slot)
    : M (option (Z * buff_struct * list completion_list) * list result_slot) :=
  match ops with
  | [] => mret (Some (rc, oa, clist), slots)
  | op :: ops =>
      '(rc, oa) ← (if rc <? 0 then mret (rc, oa)
                   else writing (serialize_MultiHeader (mk_MultiHeader (op_type op) 0 (-1))) oa);
      r ← sub_op xid op result rc oa;
      match r with
      | None => mret (None, slots)
      | Some (_, _, None, _) => raise UB
      | Some (rc, oa, Some entry, slot) =>
          sub_ops xid ops (result + 1) rc oa (clist ++ [entry]) (slots ++ [slot])
      end
  end.
(** The result, and what has been written to the first of the caller's [results]. *)
Definition zoo_amulti (ops : list zoo_op) (results completion data : Z)
    : M (Z * list result_slot) :=
  xid ← get_xid;
  '(rc, oa) ← marshal (header xid ZOO_MULTI_OP);
  '(r, slots) ← sub_ops xid ops results rc oa [] [];
  match r with
  | None => mret (ZUNIMPLEMENTED, slots)
  | Some (rc, oa, clist) =>
      '(rc, oa) ← (if rc <? 0 then mret (rc, oa)
                   else writing (serialize_MultiHeader (mk_MultiHeader (-1) 1 (-1))) oa);
      rc ← unless_failed rc (add_multi_completion xid completion data clist);
      rc ← unless_failed rc (queue_buffer_bytes (get_buffer oa) (get_buffer_len oa));
      adaptor_send_queue 0;;
      mret (if rc <? 0 then ZMARSHALLINGERROR else ZOK, slots)
  end.

(** ** Removing watches *)
Definition aremove_watches (path : option cstring) (wtype watcher watcherCtx : Z) (local : bool)
    (completion data : Z) (all : bool) : M Z :=
  server_path ← zh_prepend_string path;
  xid ← get_xid;
  if negb (isValidPath server_path 0) then mret ZBADARGUMENTS else
  unrecoverable ← get is_unrecoverable;
  if negb local && unrecoverable then mret ZINVALIDSTATE else
  match server_path with
  | None => raise UB
  | Some sp =>
      w ← get zh_watches;
      found ← lift (pathHasWatcher w sp wtype watcher watcherCtx);
      if negb found then mret ZNOWATCHER else
      if local then
        w ← lift (removeWatchers w sp wtype watcher watcherCtx);
        set_zh_watches :=! w;; notify_local data;; mret ZOK
      else
      '(rc, oa) ← marshal (ser_then
        (header xid (if all then ZOO_REMOVE_WATCHES else ZOO_CHECK_WATCHES))
        (if all then serialize_RemoveWatchesRequest (mk_RemoveWatchesRequest server_path wtype)
         else serialize_CheckWatchesRequest (mk_CheckWatchesRequest server_path wtype)));
      if rc <? 0 then mret rc else
      wdo ← create_watcher_deregistration server_path watcher watcherCtx wtype;
      match wdo with
      | None => mret ZSYSTEMERROR
      | Some wdo =>
          rc ← add_completion_deregistration xid COMPLETION_VOID completion data false
                 (Some wdo) None;
          rc ← unless_failed rc (queue_buffer_bytes (get_buffer oa) (get_buffer_len oa));
          adaptor_send_queue 0;;
          mret (if rc <? 0 then ZMARSHALLINGERROR else ZOK)
      end
  end.
Definition zoo_aremove_watches (path : option cstring) (wtype watcher watcherCtx : Z)
    (local : bool) (completion data : Z) : M Z :=
  aremove_watches path wtype watcher watcherCtx local completion data false.
Definition zoo_aremove_all_watches (path : option cstring) (wtype : Z) (local : bool)
    (completion data : Z) : M Z :=
  aremove_watches path wtype 0 0 local completion data true.

(** ** Authentication *)

(** The [state] of the new entry is left as [malloc] returns it; the allocations of the
    entry and of its scheme are not checked. *)
Definition zoo_add_auth (old_state : Z) (scheme : option cstring) (cert : option (list byte))
    (certLen completion data : Z) : M Z :=
  match scheme with
  | None => mret ZBADARGUMENTS
  | Some scheme =>
      unrecoverable ← get is_unrecoverable;
      if unrecoverable : bool then mret ZINVALIDSTATE else
      state ← get zh_state;
      if state =? 0 then mret ZINVALIDSTATE else
      auth ← match cert with
        | Some cert =>
            if certLen =? 0 then mret (Some (mk_buffer 0 None)) else
            ok ← allocating (λ o, Ret (alloc_bytes (size_t certLen) o));
            if negb ok then mret None else
            bytes ← lift (copy_from cert 0 certLen);
            mret (Some (mk_buffer certLen (Some bytes)))
        | None => mret (Some (mk_buffer 0 None))
        end;
      match auth with
      | None => mret ZSYSTEMERROR
      | Some auth =>
          scheme ← allocating (λ o, let '(ok, o) := alloc o in
                                    if ok : bool then Ret (strdup scheme o) else UB);
          modify (λ zh, set_zh_auth_h (add_last_auth (zh_auth_h zh)
            (mk_auth old_state scheme auth completion data)) zh);;
          connected ← get is_connected;
          state ← get zh_state;
          if connected || (state =? ZOO_ASSOCIATING_STATE) then send_last_auth_info
          else mret ZOK
      end
  end.

(** ** Requests *)
Inductive request :=
  | Get (path : option cstring) (watch : Z)
  | WGet (path : option cstring) (watcher ctx : Z)
  | GetConfig (watch : Z)
  | WGetConfig (watcher ctx : Z)
  | Reconfig (joining leaving members : option cstring) (version : Z)
  | SetData (path : option cstring) (value : option (list byte)) (buflen version : Z)
  | Create (path : option cstring) (value : option (list byte)) (valuelen : Z)
      (acl : option (vector ACL)) (mode : Z)
  | CreateTTL (path : option cstring) (value : option (list byte)) (valuelen : Z)
      (acl : option (vector ACL)) (mode ttl : Z)
  | Create2 (path : option cstring) (value : option (list byte)) (valuelen : Z)
      (acl : option (vector ACL)) (mode : Z)
  | Create2TTL (path : option cstring) (value : option (list byte)) (valuelen : Z)
      (acl : option (vector ACL)) (mode ttl : Z)
  | Delete (path : option cstring) (version : Z)
  | Exists (path : option cstring) (watch : Z)
  | WExists (path : option cstring) (watcher ctx : Z)
  | GetChildren (path : option cstring) (watch : Z)
  | WGetChildren (path : option cstring) (watcher ctx : Z)
  | GetChildren2 (path : option cstring) (watch : Z)
  | WGetChildren2 (path : option cstring) (watcher ctx : Z)
  | Sync (path : option cstring)
  | GetAcl (path : option cstring)
  | SetAcl (path : option cstring) (version : Z) (acl : option (vector ACL))
  | Multi (ops : list zoo_op) (results : Z)
  | RemoveWatches (path : option cstring) (wtype watcher ctx : Z) (local : bool)
  | RemoveAllWatches (path : option cstring) (wtype : Z) (local : bool)
  | AddAuth (old_state : Z) (scheme : option cstring) (cert : option (list byte)) (certLen : Z).

(** A request with the function and the data of its completion. *)
Definition run_request (r : request) (fn data : Z) : M Z :=
  match r with
  | Get path watch => zoo_aget path watch fn data
  | WGet path watcher ctx => zoo_awget path watcher ctx fn data
  | GetConfig watch => zoo_agetconfig watch fn data
  | WGetConfig watcher ctx => zoo_awgetconfig watcher ctx fn data
  | Reconfig joining leaving members version =>
      zoo_areconfig joining leaving members version fn data
  | SetData path value buflen version => zoo_aset path value buflen version fn data
  | Create path value len acl mode => zoo_acreate path value len acl mode fn data
  | CreateTTL path value len acl mode ttl => zoo_acreate_ttl path value len acl mode ttl fn data
  | Create2 path value len acl mode => zoo_acreate2 path value len acl mode fn data
  | Create2TTL path value len acl mode ttl => zoo_acreate2_ttl path value len acl mode ttl fn data
  | Delete path version => zoo_adelete path version fn data
  | Exists path watch => zoo_aexists path watch fn data
  | WExists path watcher ctx => zoo_awexists path watcher ctx fn data
  | GetChildren path watch => zoo_aget_children path watch fn data
  | WGetChildren path watcher ctx => zoo_awget_children path watcher ctx fn data
  | GetChildren2 path watch => zoo_aget_children2 path watch fn data
  | WGetChildren2 path watcher ctx => zoo_awget_children2 path watcher ctx fn data
  | Sync path => zoo_async path fn data
  | GetAcl path => zoo_aget_acl path fn data
  | SetAcl path version acl => zoo_aset_acl path version acl fn data
  | Multi ops results => '(rc, _) ← zoo_amulti ops results fn data; mret rc
  | RemoveWatches path wtype watcher ctx local =>
      zoo_aremove_watches path wtype watcher ctx local fn data
  | RemoveAllWatches path wtype local => zoo_aremove_all_watches path wtype local fn data
  | AddAuth old scheme cert certLen => zoo_add_auth old scheme cert certLen fn data
  end.
End requests.
