(* ===== verification/SessionFacts.v ===== *)
(** * Facts about the session engine

    What one completion does when it is processed, what happens to the queues when the
    connection is lost, and how responses are matched to requests, for an allocator
    that serves every request. *)

From S2P Require Import Prelude RecordIO RecordIOFacts Jute JuteSpec JuteTheorems Path.
From S2P Require Import Watchers Addrvec Handshake Transport Handle Session.
Local Open Scope Z_scope.
#[local] Set Warnings "-register-all".

(** ** The monad *)
Lemma M_bind_eq {A B} (m : M A) (f : A → M B) s :
  (m ≫= f) s = '(a, s') ← m s; f a s'.
Proof. done. Qed.

Lemma M_ret_eq {A} (a : A) s : (mret a : M A) s = Ret (a, s).
Proof. done. Qed.
Lemma get_eq {A} (f : zhandle → A) s : get f s = Ret (f (s_zh s), s).
Proof. done. Qed.
Lemma modify_eq f s : modify f s = Ret ((), mk_sys (f (s_zh s)) (s_world s)).
Proof. done. Qed.
Lemma askw_eq {A} (f : world → A) s : askw f s = Ret (f (s_world s), s).
Proof. done. Qed.
Lemma modifyw_eq f s : modifyw f s = Ret ((), mk_sys (s_zh s) (f (s_world s))).
Proof. done. Qed.
(** One step of the monad. *)
Ltac mstep := rewrite ?M_bind_eq, ?M_ret_eq, ?get_eq, ?modify_eq, ?askw_eq, ?modifyw_eq; run.
Ltac msteps := repeat (progress mstep).

(** The calls [cs] are added to the record. *)
Definition record_calls (cs : list ucall) (s : sys) : sys :=
  mk_sys (s_zh s) (set_w_calls (w_calls (s_world s) ++ cs) (s_world s)).

(** The allocator serves every request. *)
Definition ample (s : sys) : Prop := w_alloc (s_world s) = [].

Lemma set_w_alloc_nil w : w_alloc w = [] → set_w_alloc [] w = w.
Proof. intros Ha. destruct w. simpl in *. by subst. Qed.
Lemma ample_same s : ample s → mk_sys (s_zh s) (set_w_alloc [] (s_world s)) = s.
Proof. intros Ha. rewrite set_w_alloc_nil by done. by destruct s. Qed.
Lemma record_nil s : record_calls [] s = s.
Proof. unfold record_calls. destruct s as [zh w], w. simpl. by rewrite app_nil_r. Qed.
Lemma record_app cs cs' s :
  record_calls cs' (record_calls cs s) = record_calls (cs ++ cs') s.
Proof. unfold record_calls, set_w_calls. simpl. by rewrite app_assoc. Qed.

Lemma allocating_ok {A} (f : allocs → outcome (A * allocs)) a s :
  ample s → f [] = Ret (a, []) → allocating f s = Ret (a, s).
Proof.
  intros Ha Hf. unfold allocating. unfold ample in Ha. rewrite Ha, Hf. run.
  by rewrite ample_same.
Qed.

Section facts.
Context `{Host}.

Lemma call_ok fn c s : fn ≠ 0 → call fn c s = Ret ((), record_calls [c] s).
Proof. intros Hf. unfold call. by rewrite (proj2 (Z.eqb_neq _ _)) by done. Qed.

(** ** Completion entries *)
Definition completion_types : list Z :=
  [COMPLETION_VOID; COMPLETION_STRING; COMPLETION_DATA; COMPLETION_STAT; COMPLETION_STRINGLIST;
   COMPLETION_STRINGLIST_STAT; COMPLETION_STRING_STAT; COMPLETION_ACLLIST; COMPLETION_MULTI].
Lemma do_create_ok xid type dc data wo clist wdo s :
  ample s → (type = COMPLETION_MULTI → is_Some clist) →
  do_create_completion_entry xid type dc data wo clist wdo s =
    Ret (Some (mk_completion xid type (if bool_decide (type ∈ completion_types) then dc else 0)
                 None (if type =? COMPLETION_MULTI then default [] clist else []) data None wo wdo), s).
Proof.
  intros Ha Hm. unfold do_create_completion_entry. rewrite M_bind_eq.
  rewrite (allocating_ok _ true) by done. run. fold completion_types.
  destruct (Z.eqb_spec type COMPLETION_MULTI) as [->|]; [|done].
  destruct (Hm eq_refl) as [l ->]. done.
Qed.

(** ** Archives *)
Lemma reading_ok {A} (op : deser buff_struct A) v bs old ia rest s :
  reads op v bs → pending ia (bs ++ rest) → ample s →
  ∃ ia', reading op old ia s = Ret (0, v, ia', s) ∧ pending ia' rest.
Proof.
  intros Hr Hp Ha. pose proof Hp as (b & _ & _ & _ & _ & _ & Hia).
  destruct (Hr old ia rest Hp) as (ia' & E & Hp'). exists ia'. split; [|done].
  pose proof Hp' as (b' & _ & _ & _ & _ & _ & Hia'). unfold reading.
  apply allocating_ok; [done|]. rewrite set_bs_alloc_nil, E by done. run.
  by rewrite Hia', set_bs_alloc_nil.
Qed.
Lemma parse_ok {A} (op : deser buff_struct A) v bs junk ia rest s :
  reads op v bs → pending ia (bs ++ rest) → ample s →
  ∃ ia', parse op junk ia s = Ret (v, ia', s) ∧ pending ia' rest.
Proof.
  intros Hr Hp Ha. destruct (reading_ok op v bs junk ia rest s Hr Hp Ha) as (ia' & E & Hp').
  exists ia'. split; [|done]. unfold parse. rewrite M_bind_eq, E. done.
Qed.

Lemma open_archive_ok b bs len s :
  bl_buffer b = Some bs → Z.of_nat (length bs) ≤ len ≤ INT_MAX → ample s →
  ∃ ia, open_archive b len s = Ret (ia, s) ∧ pending ia bs.
Proof.
  intros Hb Hl Ha. exists (mk_buff len 0 (Some bs) []). split.
  - unfold open_archive. apply allocating_ok; [done|]. by rewrite Hb.
  - exists bs. simpl. rewrite drop_0. split_and!; done || lia.
Qed.

Lemma ser_then_appends f g a b :
  appends f a → appends g b → appends (ser_then f g) (a ++ b).
Proof.
  intros Hf Hg s m Hr Hm. rewrite length_app in Hr.
  destruct (Hf s (Z.of_nat (length b) + m)) as (s1 & E1 & W1 & R1);
    [by replace (Z.of_nat (length a) + _) with (Z.of_nat (length a + length b) + m) by lia|lia|].
  destruct (Hg s1 m R1 Hm) as (s2 & E2 & W2 & R2). exists s2. unfold ser_then.
  rewrite E1. run. by rewrite E2, W2, W1, app_assoc.
Qed.

Lemma marshal_ok f bs s :
  appends f bs → Z.of_nat (length bs) ≤ oa_limit → ample s →
  ∃ oa, marshal f s = Ret (0, oa, s) ∧ get_buffer oa = Some bs ∧
    get_buffer_len oa = Z.of_nat (length bs).
Proof.
  intros Hf Hl Ha. destruct (Hf (mk_buff 128 0 (Some []) []) 0) as (oa & E & W & (I & Al & _)).
  { split; [|split]; [exists [], 7; simpl; split_and!; done || lia|done|simpl; lia]. }
  { done. }
  exists oa. pose proof I as (b & k & Hb & Hbl & _).
  simpl in W. unfold oa_written in W. rewrite Hb in W. simpl in W. subst b.
  split; [|done]. unfold marshal. apply allocating_ok; [done|].
  simpl. rewrite E. run. by rewrite set_bs_alloc_nil, Al.
Qed.
End facts.

(** ** Completions *)

(** Induction over a completion and those of its transaction. *)
Lemma completion_ind (P : completion_list → Prop) :
  (∀ c, Forall P (c_clist c) → P c) → ∀ c, P c.
Proof.
  intros HP. fix IH 1. intros c. apply HP. destruct c as [? ? ? ? l ? ? ? ?]. simpl.
  induction l as [|c l IHl]; constructor; [apply IH|apply IHl].
Qed.

(** The calls of a completion whose request failed with [rc]. *)
Fixpoint failed_calls (rc : Z) (c : completion_list) : list ucall :=
  match c with
  | mk_completion xid type fn _ clist data _ _ _ =>
      if type =? COMPLETION_DATA then [CallData fn rc None 0 None data]
      else if type =? COMPLETION_STAT then [CallStat fn rc None data]
      else if type =? COMPLETION_STRINGLIST then [CallStrings fn rc None data]
      else if type =? COMPLETION_STRINGLIST_STAT then [CallStringsStat fn rc None None data]
      else if type =? COMPLETION_STRING then [CallString fn rc None data]
      else if type =? COMPLETION_STRING_STAT then [CallStringStat fn rc None None data]
      else if type =? COMPLETION_ACLLIST then [CallAcl fn rc None None data]
      else if type =? COMPLETION_VOID then [CallVoid fn rc data]
      else if type =? COMPLETION_MULTI then concat (map (failed_calls rc) clist) ++ [CallVoid fn rc data]
      else []
  end.

(** A completion as the API queues it: it has a function. *)
Inductive callable : completion_list → Prop :=
  | callable_intro c : c_result c ≠ 0 → c_result c ≠ SYNCHRONOUS_MARKER →
      Forall callable (c_clist c) → callable c.

(** ** Responses

    The body of a successful response, by the kind of completion that reads it. *)
Inductive body :=
  | BVoid
  | BData (v : GetDataResponse)
  | BStat (v : SetDataResponse)
  | BStrings (v : GetChildrenResponse)
  | BStringsStat (v : GetChildren2Response)
  | BString (v : CreateResponse)
  | BStringStat (v : Create2Response)
  | BAcl (v : GetACLResponse).
Definition body_type (b : body) : Z :=
  match b with
  | BVoid => COMPLETION_VOID | BData _ => COMPLETION_DATA | BStat _ => COMPLETION_STAT
  | BStrings _ => COMPLETION_STRINGLIST | BStringsStat _ => COMPLETION_STRINGLIST_STAT
  | BString _ => COMPLETION_STRING | BStringStat _ => COMPLETION_STRING_STAT
  | BAcl _ => COMPLETION_ACLLIST
  end.
Definition body_bytes (b : body) : list byte :=
  match b with
  | BVoid => [] | BData v => enc_GetDataResponse v | BStat v => enc_SetDataResponse v
  | BStrings v => enc_GetChildrenResponse v | BStringsStat v => enc_GetChildren2Response v
  | BString v => enc_CreateResponse v | BStringStat v => enc_Create2Response v
  | BAcl v => enc_GetACLResponse v
  end.
Definition body_wf (b : body) : Prop :=
  match b with
  | BVoid => True | BData v => wf_GetDataResponse v | BStat v => wf_SetDataResponse v
  | BStrings v => wf_GetChildrenResponse v | BStringsStat v => wf_GetChildren2Response v
  | BString v => wf_CreateResponse v | BStringStat v => wf_Create2Response v
  | BAcl v => wf_GetACLResponse v
  end.

(** The path as the client sees it. *)
Definition seen_path (chroot path : option cstring) : option cstring :=
  path ≫= λ p, fst (sub_string chroot p []).
(** The call a completion makes for a body. *)
Definition body_call (chroot : option cstring) (rc : Z) (c : completion_list) (b : body) : ucall :=
  let fn := c_result c in let data := c_data c in
  match b with
  | BVoid => CallVoid fn rc data
  | BData v => CallData fn rc (b_buff (GetDataResponse_data v)) (b_len (GetDataResponse_data v))
                 (Some (GetDataResponse_stat v)) data
  | BStat v => CallStat fn rc (Some (SetDataResponse_stat v)) data
  | BStrings v => CallStrings fn rc (Some (GetChildrenResponse_children v)) data
  | BStringsStat v => CallStringsStat fn rc (Some (GetChildren2Response_children v))
                        (Some (GetChildren2Response_stat v)) data
  | BString v => CallString fn rc (seen_path chroot (CreateResponse_path v)) data
  | BStringStat v => CallStringStat fn rc (seen_path chroot (Create2Response_path v))
                       (Some (Create2Response_stat v)) data
  | BAcl v => CallAcl fn rc (Some (GetACLResponse_acl v)) (Some (GetACLResponse_stat v)) data
  end.

(** One result of a transaction: an error, or a body with the type and error code of its
    header. *)
Inductive sub_result :=
  | SubError (e m : Z)
  | SubOk (type err : Z) (b : body).
Definition sub_bytes (r : sub_result) : list byte :=
  match r with
  | SubError e m => enc_MultiHeader (mk_MultiHeader (-1) 0 m) ++ enc_ErrorResponse (mk_ErrorResponse e)
  | SubOk type err b => enc_MultiHeader (mk_MultiHeader type 0 err) ++ body_bytes b
  end.
(** All results and the header that ends them. *)
Definition multi_end : MultiHeader := mk_MultiHeader (-1) 1 (-1).
Definition multi_bytes (rs : list sub_result) : list byte :=
  concat (map sub_bytes rs) ++ enc_MultiHeader multi_end.
(** A result that answers the sub-request with completion [c]. *)
Definition sub_answers (c : completion_list) (r : sub_result) : Prop :=
  callable c ∧
  match r with
  | SubError e m => wf_int e ∧ wf_int m
  | SubOk type err b => wf_int type ∧ type ≠ -1 ∧ wf_int err ∧ body_wf b ∧ c_type c = body_type b
  end.
Definition sub_calls (chroot : option cstring) (c : completion_list) (r : sub_result) : list ucall :=
  match r with
  | SubError e _ => failed_calls e c
  | SubOk _ err b => [body_call chroot err c b]
  end.
(** The result of the transaction: the first error that is not the mark of a
    sub-request that was merely rolled back. *)
Definition multi_rc (rc : Z) (rs : list sub_result) : Z :=
  foldl (λ rc r, match r with
                 | SubError e _ => if (rc =? 0) && negb (e =? 0) && negb (e =? ZRUNTIMEINCONSISTENCY)
                                   then e else rc
                 | SubOk _ _ _ => rc
                 end) rc rs.

(** A whole response: the completions it is for, its bytes after the header, its calls. *)
Inductive response := RBody (b : body) | RMulti (rs : list sub_result).
Definition response_bytes (r : response) : list byte :=
  match r with RBody b => body_bytes b | RMulti rs => multi_bytes rs end.
Definition response_for (c : completion_list) (r : response) : Prop :=
  callable c ∧
  match r with
  | RBody b => body_wf b ∧ c_type c = body_type b
  | RMulti rs => c_type c = COMPLETION_MULTI ∧ Forall2 sub_answers (c_clist c) rs
  end.
Definition response_calls (chroot : option cstring) (rc : Z) (c : completion_list) (r : response)
    : list ucall :=
  match r with
  | RBody b => [body_call chroot rc c b]
  | RMulti rs => concat (zip_with (sub_calls chroot) (c_clist c) rs) ++
                 [CallVoid (c_result c) (multi_rc 0 rs) (c_data c)]
  end.

Section completions.
Context `{Host, Locals}.

Lemma deserialize_response_failed rc c xid ia s :
  callable c →
  deserialize_response (c_type c) xid true rc c ia s = Ret (ia, record_calls (failed_calls rc c) s).
Proof.
  revert xid ia s. induction c as [c IH] using completion_ind. intros xid ia s Hc.
  destruct c as [x type fn wr clist data buf w d].
  inversion Hc as [? Hfn _ Hcl]; subst. cbn [c_type c_clist c_result] in *. cbn [deserialize_response failed_calls c_result c_data c_clist].
  set (fail_all := fix fail_all (l : list completion_list) : M () := _).
  assert (∀ s, fail_all clist s = Ret ((), record_calls (concat (map (failed_calls rc) clist)) s)) as Hall.
  { clear s Hc. induction clist as [|e l IHl]; intros s; [by rewrite record_nil|].
    apply Forall_cons in IH as [IHe IH], Hcl as [He Hcl].
    cbn [fail_all]. rewrite M_bind_eq. rewrite IHe by done. run. rewrite IHl by done.
    by rewrite record_app. }
  repeat (destruct (type =? _); [rewrite ?M_bind_eq, ?call_ok by done; try done|]);
    [..|by rewrite record_nil].
  - rewrite (proj2 (Z.eqb_neq _ _)) by done. by rewrite M_bind_eq, call_ok by done.
  - rewrite (proj2 (Z.eqb_neq _ _)) by done. rewrite M_bind_eq, Hall. run.
    by rewrite M_bind_eq, call_ok, <-record_app by done.
Qed.

Lemma sub_string_nil chroot p : sub_string chroot p [] = (fst (sub_string chroot p []), []).
Proof.
  unfold sub_string. destruct chroot as [c|]; [|done].
  destruct (negb _); [done|]. by destruct (_ =? _)%nat.
Qed.
Lemma client_path_ok path s :
  wf_string path → ample s →
  client_path path s = Ret (seen_path (zh_chroot (s_zh s)) path, s).
Proof.
  intros Hp Ha. destruct path as [p|]; [|done]. unfold client_path. rewrite M_bind_eq. run.
  apply allocating_ok; [done|]. f_equal. apply sub_string_nil.
Qed.

(** The completion's own call, after its body has been read. *)
Ltac read_body lem :=
  cbn [body_type Z.eqb Pos.eqb]; cbn [need]; mstep; rewrite M_bind_eq;
  match goal with Ha : ample ?s, Hp : pending ?ia (?bs ++ ?rest) |- context [parse ?op ?j ?ia ?s] =>
    let ia' := fresh "ia'" in let E := fresh "E" in let Hp' := fresh "Hp'" in
    destruct (parse_ok op _ bs j ia rest s (lem _ ltac:(eassumption)) Hp Ha) as (ia' & E & Hp');
    rewrite E; run
  end.

Lemma deserialize_response_body b c xid rc ia rest s :
  c_type c = body_type b → c_result c ≠ 0 → body_wf b → pending ia (body_bytes b ++ rest) →
  ample s →
  ∃ ia', deserialize_response (c_type c) xid false rc c (Some ia) s =
    Ret (Some ia', record_calls [body_call (zh_chroot (s_zh s)) rc c b] s) ∧ pending ia' rest.
Proof.
  intros Ht Hfn Hw Hp Ha. destruct c as [x type fn wr clist data buf w d].
  cbn [c_type c_result] in *. subst type.
  destruct b as [|v|v|v|v|v|v|v]; cbn [deserialize_response c_result c_data body_call body_wf
    body_bytes] in *.
  - cbn [body_type Z.eqb Pos.eqb]. rewrite (proj2 (Z.eqb_neq _ _)) by done.
    rewrite M_bind_eq, call_ok by done. exists ia. done.
  - read_body deserialize_GetDataResponse_reads. rewrite M_bind_eq, call_ok by done. by eexists.
  - read_body deserialize_SetDataResponse_reads. rewrite M_bind_eq, call_ok by done. by eexists.
  - read_body deserialize_GetChildrenResponse_reads. rewrite M_bind_eq, call_ok by done. by eexists.
  - read_body deserialize_GetChildren2Response_reads. rewrite M_bind_eq, call_ok by done. by eexists.
  - cbn [body_type Z.eqb Pos.eqb]. cbn [need]. mstep.
    destruct (reading_ok deserialize_CreateResponse v _ zero_CreateResponse ia rest s
      (deserialize_CreateResponse_reads v Hw) Hp Ha) as (ia' & E & Hp'). rewrite M_bind_eq, E. run.
    rewrite M_bind_eq, client_path_ok by done. run. rewrite M_bind_eq, call_ok by done. by eexists.
  - read_body deserialize_Create2Response_reads. destruct Hw as [Hw _].
    rewrite M_bind_eq, client_path_ok by done. run. rewrite M_bind_eq, call_ok by done. by eexists.
  - read_body deserialize_GetACLResponse_reads. rewrite M_bind_eq, call_ok by done. by eexists.
Qed.

(** The header of the next result, and what follows it. *)
Definition next_header (rs : list sub_result) : MultiHeader :=
  match rs with
  | [] => multi_end
  | SubError _ m :: _ => mk_MultiHeader (-1) 0 m
  | SubOk type err _ :: _ => mk_MultiHeader type 0 err
  end.
Definition next_bytes (rs : list sub_result) : list byte :=
  match rs with
  | [] => []
  | SubError e _ :: rs => enc_ErrorResponse (mk_ErrorResponse e) ++ multi_bytes rs
  | SubOk _ _ b :: rs => body_bytes b ++ multi_bytes rs
  end.
Lemma multi_bytes_next rs :
  multi_bytes rs = enc_MultiHeader (next_header rs) ++ next_bytes rs.
Proof.
  destruct rs as [|[e m|t err b] rs]; unfold multi_bytes;
    cbn [map concat sub_bytes next_header next_bytes app]; by rewrite <-?app_assoc, ?app_nil_r.
Qed.
Lemma next_header_wf cs rs : Forall2 sub_answers cs rs → wf_MultiHeader (next_header rs).
Proof.
  intros [|c [e m|t err b] ? ? [_ Hr] _]; split_and!; simpl; try (by left); try (by right);
    try tauto; unfold wf_int, in_s; lia.
Qed.

Lemma deserialize_response_multi rs c xid rc ia rest s :
  c_type c = COMPLETION_MULTI → c_result c ≠ 0 → Forall2 sub_answers (c_clist c) rs →
  pending ia (multi_bytes rs ++ rest) → ample s →
  ∃ ia', deserialize_response (c_type c) xid false rc c (Some ia) s =
    Ret (Some ia', record_calls (response_calls (zh_chroot (s_zh s)) rc c (RMulti rs)) s) ∧
    pending ia' rest.
Proof.
  intros Ht Hfn Hall Hp Ha. destruct c as [x type fn wr clist data buf w d].
  cbn [c_type c_result c_clist] in *. subst type. cbn [response_calls c_clist c_result c_data].
  cbn [deserialize_response c_result c_data c_clist Z.eqb Pos.eqb].
  set (loop := fix multi_loop (l : list completion_list) (rc : Z) (h : MultiHeader)
                 (ia : buff_struct) {struct l} : M (Z * buff_struct) := _).
  assert (∀ rc0 ia s, ample s → pending ia (next_bytes rs ++ rest) →
    ∃ ia', loop clist rc0 (next_header rs) ia s =
      Ret (multi_rc rc0 rs, ia', record_calls (concat (zip_with (sub_calls (zh_chroot (s_zh s))) clist rs)) s) ∧
      pending ia' rest) as Hloop.
  { clear -Hall. induction Hall as [|c r cs rs [Hc Hr] Hall IH]; intros rc0 ia s Ha Hp.
    - exists ia. cbn [loop next_header multi_end MultiHeader_done Z.eqb negb]. mstep.
      by rewrite record_nil.
    - assert (∀ err ia s, ample s → pending ia (multi_bytes rs ++ rest) →
        ∀ rc1, ∃ ia', ('(_, mhdr, ia) ← reading deserialize_MultiHeader
                (set_MultiHeader_err err (next_header (r :: rs))) ia; loop cs rc1 mhdr ia) s =
          Ret (multi_rc rc1 rs, ia',
               record_calls (concat (zip_with (sub_calls (zh_chroot (s_zh s))) cs rs)) s) ∧
          pending ia' rest) as Hnext.
      { intros err ia1 s1 Ha1 Hp1 rc1. rewrite multi_bytes_next, <-app_assoc in Hp1.
        destruct (reading_ok deserialize_MultiHeader (next_header rs) _
          (set_MultiHeader_err err (next_header (r :: rs))) ia1 _ s1
          (deserialize_MultiHeader_reads _ (next_header_wf _ _ Hall)) Hp1 Ha1) as (ia2 & E & Hp2).
        rewrite M_bind_eq, E. run. by apply IH. }
      cbn [loop]. fold loop.
      destruct r as [e m|t err b]; cbn [next_header next_bytes MultiHeader_done MultiHeader_type
        MultiHeader_err Z.eqb Pos.eqb negb zip_with sub_calls multi_rc foldl concat] in *.
      + destruct Hr as [He Hm]. rewrite <-app_assoc in Hp.
        destruct (parse_ok deserialize_ErrorResponse (mk_ErrorResponse e) _ junk_ErrorResponse ia _ s
          (deserialize_ErrorResponse_reads (mk_ErrorResponse e) He) Hp Ha) as (ia1 & E & Hp1).
        rewrite !M_bind_eq, E. run. mstep. cbn [ErrorResponse_err].
        rewrite M_bind_eq, deserialize_response_failed by done. run. cbn [need]. mstep.
        destruct (Hnext e ia1 (record_calls (failed_calls e c) s) Ha Hp1
          (if (rc0 =? 0) && negb (e =? 0) && negb (e =? ZRUNTIMEINCONSISTENCY) then e else rc0))
          as (ia2 & E2 & Hp2).
        exists ia2. split; [|done]. rewrite E2. by rewrite record_app.
      + destruct Hr as (Hty & Hne & Herr & Hb & Hct). rewrite <-app_assoc in Hp.
        rewrite (proj2 (Z.eqb_neq t (-1))) by done. rewrite !M_bind_eq. mstep.
        inversion Hc as [? Hfn _ _]; subst.
        destruct (deserialize_response_body b c xid err ia _ s Hct Hfn Hb Hp Ha) as (ia1 & E & Hp1).
        rewrite M_bind_eq, E. run. cbn [need]. mstep.
        destruct (Hnext err ia1 (record_calls [body_call (zh_chroot (s_zh s)) err c b] s) Ha Hp1 rc0)
          as (ia2 & E2 & Hp2).
        exists ia2. split; [|done]. rewrite E2. by rewrite record_app. }
  rewrite (proj2 (Z.eqb_neq fn 0)) by done. cbn [need]. mstep.
  rewrite multi_bytes_next, <-app_assoc in Hp.
  destruct (reading_ok deserialize_MultiHeader (next_header rs) _ (mk_MultiHeader 0 0 0) ia _ s
    (deserialize_MultiHeader_reads _ (next_header_wf _ _ Hall)) Hp Ha) as (ia1 & E & Hp1).
  rewrite M_bind_eq, E. run.
  destruct (Hloop 0 ia1 s Ha Hp1) as (ia2 & E2 & Hp2). rewrite M_bind_eq, E2. run.
  rewrite M_bind_eq, call_ok by done. run. exists ia2. split; [|done].
  by rewrite record_app.
Qed.

(** ** Processing a completion *)

(** The packet [b] holds exactly [bs]. *)
Definition holds (b : buffer_list) (bs : list byte) : Prop :=
  bl_buffer b = Some bs ∧ bl_len b = Z.of_nat (length bs) ∧ bl_len b ≤ INT_MAX.

(** An answer to a request: a header with its xid and, if there is no error, the body. *)
Definition special (xid : Z) : Prop :=
  xid ∈ [WATCHER_EVENT_XID; PING_XID; AUTH_XID; SET_WATCHES_XID].
Definition answers (c : completion_list) (h : ReplyHeader) (r : response) : Prop :=
  callable c ∧ wf_ReplyHeader h ∧ ReplyHeader_xid h = c_xid c ∧ ¬ special (c_xid c) ∧
  (ReplyHeader_err h = 0 → response_for c r).
Definition answer_bytes (h : ReplyHeader) (r : response) : list byte :=
  enc_ReplyHeader h ++ (if ReplyHeader_err h =? 0 then response_bytes r else []).
Definition answer_calls (chroot : option cstring) (c : completion_list) (h : ReplyHeader)
    (r : response) : list ucall :=
  if ReplyHeader_err h =? 0 then response_calls chroot 0 c r
  else failed_calls (ReplyHeader_err h) c.

(** [c] is ready: processing it makes the calls [cs] and nothing else. *)
Definition ready_to_run (chroot : option cstring) (c : completion_list) (cs : list ucall) : Prop :=
  ∀ s, ample s → zh_chroot (s_zh s) = chroot →
    process_completion c s = Ret ((), record_calls cs s).

Lemma callable_set_buffer c b : callable c → callable (set_c_buffer b c).
Proof. intros [? ? ? ?]. by constructor. Qed.
Lemma failed_calls_set_buffer rc c b : failed_calls rc (set_c_buffer b c) = failed_calls rc c.
Proof. by destruct c. Qed.

Lemma answer_ready chroot c h r b rest :
  answers c h r → holds b (answer_bytes h r ++ rest) →
  ready_to_run chroot (set_c_buffer (Some b) c) (answer_calls chroot c h r).
Proof.
  intros (Hc & Hh & Hx & Hs & Hr) (Hb & Hl & Hmax) s Ha Hch.
  unfold process_completion, answer_bytes in *.
  change (c_buffer (set_c_buffer (Some b) c)) with (Some b). cbn iota.
  rewrite <-app_assoc in *.
  destruct (open_archive_ok b _ (bl_len b) s Hb ltac:(lia) Ha) as (ia & E & Hp).
  rewrite M_bind_eq, E. run.
  destruct (parse_ok deserialize_ReplyHeader h _ junk_ReplyHeader ia _ s
    (deserialize_ReplyHeader_reads h Hh) Hp Ha) as (ia1 & E1 & Hp1).
  rewrite M_bind_eq, E1. run.
  rewrite (proj2 (Z.eqb_neq (ReplyHeader_xid h) _)).
  2: { rewrite Hx. intros Heq. apply Hs. rewrite Heq. by left. }
  unfold answer_calls. destruct (Z.eqb_spec (ReplyHeader_err h) 0) as [He|He]; cbn [negb].
  - destruct (Hr He) as [_ Hfor]. inversion Hc as [? Hfn _ _]; subst.
    destruct r as [bd|rs].
    + destruct Hfor as [Hw Ht].
      destruct (deserialize_response_body bd (set_c_buffer (Some b) c) (ReplyHeader_xid h)
        (ReplyHeader_err h) ia1 rest s Ht Hfn Hw Hp1 Ha) as (ia2 & E2 & _).
      rewrite M_bind_eq, E2, He. run. by destruct bd.
    + destruct Hfor as [Ht Hall].
      destruct (deserialize_response_multi rs (set_c_buffer (Some b) c) (ReplyHeader_xid h)
        (ReplyHeader_err h) ia1 rest s Ht Hfn Hall Hp1 Ha) as (ia2 & E2 & _).
      rewrite M_bind_eq, E2, He. done.
  - pose proof (deserialize_response_failed (ReplyHeader_err h) (set_c_buffer (Some b) c)
      (ReplyHeader_xid h) (Some ia1) s (callable_set_buffer c _ Hc)) as E2.
    rewrite M_bind_eq, E2. run.
    by rewrite <-(failed_calls_set_buffer _ c (Some b)).
Qed.

(** The queue of completions has been run. *)
Definition no_completions (s : sys) : sys :=
  mk_sys (set_zh_completions_to_process [] (s_zh s)) (s_world s).

Lemma completions_loop_spec chroot queue css s :
  Forall2 (ready_to_run chroot) queue css → ample s → zh_chroot (s_zh s) = chroot →
  zh_completions_to_process (s_zh s) = queue →
  completions_loop queue s = Ret ((), record_calls (concat css) (no_completions s)).
Proof.
  intros Hall. revert s. induction Hall as [|c cs queue css Hc Hall IH]; intros s Ha Hch Hq.
  - simpl. rewrite record_nil. unfold no_completions. rewrite <-Hq. destruct s as [zh w].
    by destruct zh.
  - cbn [completions_loop]. mstep.
    rewrite M_bind_eq, Hc by done. run. rewrite IH by done. cbn [concat]. by rewrite <-record_app.
Qed.
End completions.
