(* ===== verification/SessionTheorems.v ===== *)
(** * Theorems about the session engine

    What the user's functions see when the connection is lost, when responses and
    events arrive, and during the handshake. *)

From S2P Require Import Prelude RecordIO RecordIOFacts Jute JuteSpec JuteTheorems Path.
From S2P Require Import PathFacts Hashtable HashtableFacts Watchers WatchersFacts.
From S2P Require Import WatchersTheorems Addrvec AddrvecFacts Handshake Transport Handle.
From S2P Require Import Session SessionFacts.
Local Open Scope Z_scope.

(** Requests as the API queues them: with a function, and with an xid of [get_xid]. *)
Definition request_ok (c : completion_list) : Prop :=
  callable c ∧ wf_int (c_xid c) ∧ ¬ special (c_xid c).

Lemma map_as_fmap {A B} (f : A → B) (l : list A) : map f l = f <$> l.
Proof. induction l as [|x l IH]; [done|]. simpl. by rewrite IH. Qed.

Section loss.
Context `{Host, Locals}.

(** ** Faked responses *)
Definition fake_header (reason : Z) (c : completion_list) : ReplyHeader :=
  mk_ReplyHeader (c_xid c) (-1) reason.
Definition fake (reason : Z) (c : completion_list) : completion_list :=
  let bs := enc_ReplyHeader (fake_header reason c) in
  set_c_buffer (Some (mk_bl (Some bs) (Z.of_nat (length bs)) 0)) c.

Lemma length_ReplyHeader h : length (enc_ReplyHeader h) = 16%nat.
Proof. unfold enc_ReplyHeader, enc_int, enc_long. by rewrite !length_app, !length_be_split. Qed.
Lemma fake_header_wf reason c :
  wf_int (c_xid c) → wf_int reason → wf_ReplyHeader (fake_header reason c).
Proof. intros Hx Hr. split_and!; [done| |done]. unfold wf_long, in_s. simpl. lia. Qed.

Lemma fake_responses_spec reason l s :
  Forall request_ok l → wf_int reason → ample s →
  fake_responses l true reason s =
    Ret ((), mk_sys (set_zh_completions_to_process
                       (zh_completions_to_process (s_zh s) ++ map (fake reason) l) (s_zh s))
                    (s_world s)).
Proof.
  intros Hl Hr. revert s. induction Hl as [|c l (Hc & Hx & Hs) Hl IH]; intros s Ha.
  - simpl. rewrite app_nil_r. destruct s as [zh w]. by destruct zh.
  - cbn [fake_responses]. inversion Hc as [? _ Hsync _]; subst.
    rewrite (proj2 (Z.eqb_neq _ _)) by done.
    destruct (marshal_ok (serialize_ReplyHeader (fake_header reason c)) _ s
      (serialize_ReplyHeader_appends _ (fake_header_wf reason c Hx Hr))) as (oa & E & Hb & Hlen);
      [rewrite length_ReplyHeader; unfold oa_limit; lia|done|].
    rewrite !M_bind_eq. unfold fake_header in E. rewrite E. run. mstep.
    rewrite (allocating_ok _ true) by done. run. cbn [negb].
    unfold queue_completion. mstep. rewrite IH by done. cbn [s_zh s_world].
    rewrite Hb, Hlen. cbn [zh_completions_to_process set_zh_completions_to_process map].
    by rewrite <-app_assoc.
Qed.

Lemma fake_ready chroot reason c :
  request_ok c → wf_int reason → reason ≠ 0 →
  ready_to_run chroot (fake reason c) (failed_calls reason c).
Proof.
  intros (Hc & Hx & Hs) Hr Hne.
  assert (answers c (fake_header reason c) (RBody BVoid)) as Hans.
  { split_and!; [done|by apply fake_header_wf|done|done|done]. }
  pose proof (answer_ready chroot c _ _ (mk_bl (Some (enc_ReplyHeader (fake_header reason c)))
    (Z.of_nat (length (enc_ReplyHeader (fake_header reason c)))) 0) [] Hans) as Hready.
  unfold answer_calls, answer_bytes in Hready. cbn [fake_header ReplyHeader_err] in Hready.
  rewrite (proj2 (Z.eqb_neq reason 0)) in Hready by done. apply Hready.
  rewrite !app_nil_r. split_and!; [done..|]. cbn [bl_len]. rewrite length_ReplyHeader. lia.
Qed.

(** ** Authentication completions *)
Definition auth_calls (rc : Z) (auths : list auth_info) : list ucall :=
  (λ a, CallAuth (ai_completion a) rc (ai_data a)) <$> filter (λ a, ai_completion a ≠ 0) auths.

Lemma get_auth_completions_spec auths a_list :
  get_auth_completions auths a_list [] =
    Ret (map clear_completion auths,
         a_list ++ ((λ a, (ai_completion a, ai_data a)) <$> filter (λ a, ai_completion a ≠ 0) auths),
         []).
Proof.
  revert a_list. induction auths as [|a auths IH]; intros a_list; [by rewrite app_nil_r|].
  cbn [get_auth_completions]. destruct (Z.eqb_spec (ai_completion a) 0) as [Hz|Hz]; run.
  - rewrite IH. run. by rewrite filter_cons_False by tauto.
  - rewrite filter_cons_True by done. destruct a_list as [|x a_list]; cbn [add_auth_completion alloc]; run;
      rewrite IH; run; [done|]. by rewrite <-app_assoc.
Qed.
Lemma call_auth_completions_spec rc (l : list auth_info) s :
  Forall (λ a, ai_completion a ≠ 0) l →
  call_auth_completions ((λ a, (ai_completion a, ai_data a)) <$> l) rc s =
    Ret ((), record_calls ((λ a, CallAuth (ai_completion a) rc (ai_data a)) <$> l) s).
Proof.
  intros Hl. revert s. induction Hl as [|a l Ha Hl IH]; intros s; [by rewrite record_nil|].
  simpl. rewrite (proj2 (Z.eqb_neq _ _)) by done. rewrite M_bind_eq, call_ok by done. run.
  rewrite IH. by rewrite record_app.
Qed.

Definition cleared_auth (zh : zhandle) : zhandle :=
  set_zh_auth_h (map clear_completion (zh_auth_h zh)) zh.
Lemma notify_auth_spec rc s :
  ample s →
  notify_auth rc s =
    Ret ((), record_calls (auth_calls rc (zh_auth_h (s_zh s)))
               (mk_sys (cleared_auth (s_zh s)) (s_world s))).
Proof.
  intros Ha. unfold notify_auth. msteps.
  rewrite (allocating_ok _ (map clear_completion (zh_auth_h (s_zh s)),
    (λ a, (ai_completion a, ai_data a)) <$> filter (λ a, ai_completion a ≠ 0) (zh_auth_h (s_zh s)))) by
    (done || by rewrite get_auth_completions_spec).
  msteps. rewrite call_auth_completions_spec; [done|].
  apply Forall_forall. intros a Hin. by apply list_elem_of_filter in Hin as [? _].
Qed.

(** ** Session events *)

(** The state between two calls of the library: no completion is waiting to be run,
    and every watcher is a function. *)
Record idle (s : sys) (A : registry) : Prop := {
  idle_ample : ample s;
  idle_watches : watches_repr (zh_watches (s_zh s)) A;
  idle_async : zh_outstanding_sync (s_zh s) = 0;
  idle_completions : zh_completions_to_process (s_zh s) = [];
  idle_default : zh_watcher (zh_watches (s_zh s)) ≠ 0;
  idle_watchers t p wo : wo ∈ watching A t p → wo_watcher wo ≠ 0;
  idle_requests : Forall request_ok (zh_sent_requests (s_zh s));
}.

Definition session_calls (state : Z) (l : watcher_list) : list ucall :=
  (λ wo, CallWatcher (mk_callback (wo_watcher wo) ZOO_SESSION_EVENT state (Some [])
                        (wo_context wo))) <$> l.

Lemma call_watchers_ok (l : watcher_list) type state path :
  Forall (λ wo, wo_watcher wo ≠ 0) l →
  call_watchers l type state path =
    Ret ((λ wo, mk_callback (wo_watcher wo) type state path (wo_context wo)) <$> l).
Proof.
  induction 1 as [|wo l Hw Hl IH]; [done|]. simpl. rewrite (proj2 (Z.eqb_neq _ _)) by done.
  by rewrite IH.
Qed.

(** Delivery of an event whose watchers have been collected. *)
Lemma event_ready chroot c b h evt path l rest :
  holds b (enc_ReplyHeader h ++ enc_WatcherEvent evt ++ rest) →
  wf_ReplyHeader h → ReplyHeader_xid h = WATCHER_EVENT_XID → wf_WatcherEvent evt → WatcherEvent_path evt = Some path →
  Forall (λ wo, wo_watcher wo ≠ 0) l →
  ready_to_run chroot (set_c_watcher_result (Some l) (set_c_buffer (Some b) c))
    ((λ wo, CallWatcher (mk_callback (wo_watcher wo) (WatcherEvent_type evt) (WatcherEvent_state evt)
        (if WatcherEvent_type evt =? ZOO_SESSION_EVENT then Some path
         else fst (sub_string chroot path [])) (wo_context wo))) <$> l).
Proof.
  intros (Hb & Hl & Hmax) Hh Hx He Hpath Hw s Ha Hch. unfold process_completion.
  change (c_buffer (set_c_watcher_result _ (set_c_buffer (Some b) c))) with (Some b).
  change (c_watcher_result (set_c_watcher_result (Some l) _)) with (Some l). cbn iota.
  destruct (open_archive_ok b _ (bl_len b) s Hb ltac:(lia) Ha) as (ia & E & Hp).
  rewrite M_bind_eq, E. run.
  destruct (parse_ok deserialize_ReplyHeader h _ junk_ReplyHeader ia _ s
    (deserialize_ReplyHeader_reads h Hh) Hp Ha)
    as (ia1 & E1 & Hp1). rewrite M_bind_eq, E1. run. rewrite Hx, Z.eqb_refl.
  destruct (parse_ok deserialize_WatcherEvent evt _ junk_WatcherEvent ia1 _ s
    (deserialize_WatcherEvent_reads _ He) Hp1 Ha) as (ia2 & E2 & _). rewrite M_bind_eq, E2. run.
  rewrite Hpath. msteps.
  set (shown := if WatcherEvent_type evt =? ZOO_SESSION_EVENT then _ else _).
  rewrite (allocating_ok _ ((λ wo, mk_callback (wo_watcher wo) (WatcherEvent_type evt)
    (WatcherEvent_state evt) shown (wo_context wo)) <$> l)); [|done|].
  - run. unfold record_calls. by rewrite map_as_fmap, <-list_fmap_compose.
  - unfold deliverWatchers, do_foreach_watcher. rewrite Hch. unfold shown.
    destruct (WatcherEvent_type evt =? ZOO_SESSION_EVENT); cbn [negb].
    + by rewrite call_watchers_ok.
    + rewrite (sub_string_nil chroot path). by rewrite call_watchers_ok.
Qed.

Definition event_header : ReplyHeader := mk_ReplyHeader WATCHER_EVENT_XID 0 0.
Definition session_event (state : Z) : WatcherEvent :=
  mk_WatcherEvent ZOO_SESSION_EVENT state (Some []).
Lemma event_header_wf : wf_ReplyHeader event_header.
Proof. split_and!; unfold wf_int, wf_long, in_s; simpl; lia. Qed.
Lemma session_event_wf state : wf_int state → wf_WatcherEvent (session_event state).
Proof.
  intros Hs. split_and!; [|done|]; [unfold wf_int, in_s; simpl; lia|].
  split; [constructor|simpl; lia].
Qed.
Lemma length_session_event state : length (enc_WatcherEvent (session_event state)) = 12%nat.
Proof.
  unfold enc_WatcherEvent, enc_string, enc_int. simpl WatcherEvent_path. cbn iota.
  by rewrite !length_app, !length_be_split.
Qed.

Lemma queue_session_event_spec s A state :
  idle s A → wf_int state →
  ∃ l, queue_session_event state s = Ret (ZOK, record_calls (session_calls state l) s) ∧
    NoDup l ∧ ∀ wo, wo ∈ l ↔
      wo = mk_wo (zh_watcher (zh_watches (s_zh s))) (zh_context (zh_watches (s_zh s))) ∨
      ∃ t p, wo ∈ watching A t p.
Proof.
  intros Hi Hs. pose proof (idle_ample _ _ Hi) as Ha.
  destruct (collect_session_spec _ (zh_watches (s_zh s)) A [] (idle_watches _ _ Hi))
    as (l & El & Hnd & Hl).
  exists l. split; [|done].
  assert (Forall (λ wo, wo_watcher wo ≠ 0) l) as Hw.
  { apply Forall_forall. intros wo [->|(t & p & Hin)]%Hl; [by apply (idle_default _ _ Hi)|].
    by apply (idle_watchers _ _ Hi t p). }
  set (bs := enc_ReplyHeader event_header ++ enc_WatcherEvent (session_event state)).
  assert (length bs = 28%nat) as Hbs.
  { unfold bs. by rewrite length_app, length_ReplyHeader, length_session_event. }
  destruct (ser_then_appends _ _ _ _ (serialize_ReplyHeader_appends _ event_header_wf)
    (serialize_WatcherEvent_appends _ (session_event_wf state Hs))
    (mk_buff 128 0 (Some []) []) 0) as (oa & Eo & Wo & (Io & Ao & _)).
  { fold bs. rewrite Hbs. split; [|split]; [exists [], 7; simpl; split_and!; done || lia|done|].
    unfold oa_limit. simpl. lia. }
  { done. }
  pose proof Io as (b & k & Hb & Hbl & _). simpl in Wo. unfold oa_written in Wo.
  rewrite Hb in Wo. simpl in Wo. change (b = bs) in Wo. subst b.
  unfold queue_session_event. rewrite M_bind_eq.
  rewrite (allocating_ok _ (Some oa)); [|done|].
  2: { cbn [create_buffer_oarchive alloc negb].
       change (serialize_ReplyHeader (mk_ReplyHeader WATCHER_EVENT_XID 0 0))
         with (serialize_ReplyHeader event_header).
       change (serialize_WatcherEvent (mk_WatcherEvent ZOO_SESSION_EVENT state (Some [])))
         with (serialize_WatcherEvent (session_event state)).
       rewrite Eo. run. by rewrite Ao. }
  run. unfold create_completion_entry. rewrite M_bind_eq, do_create_ok by done. run.
  rewrite M_bind_eq, (allocating_ok _ (Some (mk_bl (Some bs) 28 0))); [|done|].
  2: { unfold allocate_buffer, get_buffer, get_buffer_len. cbn [alloc negb].
       by rewrite Hb, <-Hbl, Hbs. }
  run. cbn iota. unfold zh_collectWatchers. msteps.
  rewrite (allocating_ok _ (zh_watches (s_zh s), l)); [|done|by rewrite El].
  msteps. unfold get_buffer_len. rewrite <-Hbl, Hbs.
  unfold queue_completion, process_completions_if_async, process_completions; single_threaded.
  msteps. cbn [s_zh]. change (zh_outstanding_sync _) with (zh_outstanding_sync (s_zh s)).
  rewrite (idle_async _ _ Hi). msteps. cbn [s_zh zh_completions_to_process set_zh_completions_to_process].
  change (zh_completions_to_process (set_zh_watches _ _)) with (zh_completions_to_process (s_zh s)).
  rewrite (idle_completions _ _ Hi). cbn [app].
  set (c := set_c_watcher_result _ _). set (s1 := mk_sys _ _).
  rewrite (completions_loop_spec (zh_chroot (s_zh s)) [c] [session_calls state l] s1);
    [|constructor; [|constructor]|done..].
  - run. cbn [concat]. rewrite app_nil_r. unfold record_calls, no_completions, s1. cbn [s_zh s_world].
    pose proof (idle_completions _ _ Hi) as Hq. destruct s as [zh w]. destruct zh; simpl in *.
    by subst.
  - unfold c. set (c0 := mk_completion _ _ _ _ _ _ _ _ _).
    apply (event_ready (zh_chroot (s_zh s)) c0 (mk_bl (Some bs) 28 28) event_header
      (session_event state) [] l []); [|apply event_header_wf|done|by apply session_event_wf|done|done].
    unfold holds. rewrite app_nil_r. fold bs. cbn [bl_buffer bl_len]. rewrite Hbs. split_and!; done || lia.
Qed.

(** ** The connection is lost *)
Lemma idle_record s A cs : idle s A → idle (record_calls cs s) A.
Proof. intros [? ? ? ? ? ? ?]. by split. Qed.

(** The handle after [cleanup_bufs]: every request sent has a faked response waiting. *)
Definition dropped (rc : Z) (zh : zhandle) : zhandle :=
  let zh := set_zh_to_process [] (set_zh_to_send [] zh) in
  let zh := set_zh_completions_to_process
              (zh_completions_to_process zh ++ map (fake rc) (zh_sent_requests zh))
              (set_zh_sent_requests [] zh) in
  let zh := cleared_auth zh in
  match zh_input_buffer zh with InputBuffer _ => set_zh_input_buffer NoInput zh | _ => zh end.

Lemma cleanup_bufs_spec rc s :
  ample s → Forall request_ok (zh_sent_requests (s_zh s)) → wf_int rc →
  cleanup_bufs true rc s =
    Ret ((), record_calls (auth_calls rc (zh_auth_h (s_zh s)))
               (mk_sys (dropped rc (s_zh s)) (s_world s))).
Proof.
  intros Ha Hreq Hrc. unfold cleanup_bufs, free_completions. msteps.
  cbn [s_zh s_world]. change (zh_sent_requests (set_zh_to_process _ _))
    with (zh_sent_requests (s_zh s)).
  rewrite fake_responses_spec by done. run. rewrite notify_auth_spec by done. msteps.
  unfold dropped, record_calls. cbn [s_zh s_world].
  set (zh1 := cleared_auth _). change (zh_input_buffer zh1) with (zh_input_buffer (s_zh s)).
  match goal with |- context [match ?x with NoInput => _ | _ => _ end] =>
    change x with (zh_input_buffer (s_zh s)) end.
  by destruct (zh_input_buffer (s_zh s)).
Qed.

Lemma fakes_ready chroot rc l :
  Forall request_ok l → wf_int rc → rc ≠ 0 →
  Forall2 (ready_to_run chroot) (map (fake rc) l) (map (failed_calls rc) l).
Proof.
  intros Hl Hrc Hne. induction Hl; constructor; [by apply fake_ready|done].
Qed.

(** What the user sees of a lost connection, after the session event. *)
Definition loss_calls (rc : Z) (zh : zhandle) : list ucall :=
  auth_calls rc (zh_auth_h zh) ++ concat (map (failed_calls rc) (zh_sent_requests zh)).

(** The state of a handle whose connection is gone. *)
Definition disconnected_servers (sv : servers) : servers :=
  let sv := sv_set_fd (-1) sv in
  if sv_state sv <? 0 then sv else sv_set_state 0 sv.

(** The end of [cleanup], when the session event has been delivered. *)
Definition drop_connection (rc : Z) : M () :=
  cleanup_bufs true rc;; set_fd (-1);; u ← get is_unrecoverable;
  (if u : bool then mret () else set_state 0);; process_completions_if_async.

(** The fields of the handle after it. *)
Record dropped_handle (zh zh' : zhandle) : Prop := {
  dr_requests : zh_sent_requests zh' = [];
  dr_to_send : zh_to_send zh' = [];
  dr_to_process : zh_to_process zh' = [];
  dr_sync : zh_outstanding_sync zh' = 0;
  dr_auth : zh_auth_h zh' = map clear_completion (zh_auth_h zh);
  dr_watches : zh_watches zh' = zh_watches zh;
  dr_servers : zh_servers zh' = disconnected_servers (zh_servers zh);
  dr_closing : zh_close_requested zh' = zh_close_requested zh;
  dr_timeout : zh_recv_timeout zh' = zh_recv_timeout zh;
  dr_counter : zh_ref_counter zh' = zh_ref_counter zh;
  dr_chroot : zh_chroot zh' = zh_chroot zh;
}.

Lemma drop_connection_fakes s A rc :
  idle s A → wf_int rc →
  ∃ zh1, drop_connection rc s =
      completions_loop (map (fake rc) (zh_sent_requests (s_zh s)))
        (record_calls (auth_calls rc (zh_auth_h (s_zh s))) (mk_sys zh1 (s_world s))) ∧
    zh_completions_to_process zh1 = map (fake rc) (zh_sent_requests (s_zh s)) ∧
    dropped_handle (s_zh s) zh1.
Proof.
  intros Hi Hrc. pose proof (idle_async _ _ Hi) as Hsync.
  pose proof (idle_completions _ _ Hi) as Hq. pose proof (idle_ample _ _ Hi) as Ha.
  pose proof (idle_requests _ _ Hi) as Hreq.
  unfold drop_connection. rewrite M_bind_eq, cleanup_bufs_spec by done. run.
  unfold set_fd, set_state, process_completions_if_async, process_completions; single_threaded.
  msteps. cbn [s_zh s_world record_calls].
  set (zh0 := on_servers _ _).
  assert (is_unrecoverable zh0 = (zh_state (s_zh s) <? 0)) as ->.
  { unfold zh0, dropped. simpl. by destruct (zh_input_buffer (s_zh s)). }
  set (zh1 := if zh_state (s_zh s) <? 0 then zh0 else on_servers (sv_set_state 0) zh0).
  match goal with |- context [mbind _ ((if _ then _ else _) ?st)] =>
    replace ((if zh_state (s_zh s) <? 0 then mret () else modify (on_servers (sv_set_state 0))) st)
      with (Ret ((), mk_sys zh1 (s_world st)) : outcome (() * sys))
      by (unfold zh1; by destruct (_ <? 0)) end.
  msteps. cbn [s_zh s_world].
  assert (zh_outstanding_sync zh1 = 0 ∧
    zh_completions_to_process zh1 = map (fake rc) (zh_sent_requests (s_zh s))) as (H1 & H2).
  { unfold zh1, zh0, dropped. simpl. rewrite Hq.
    destruct (_ <? 0), (zh_input_buffer (s_zh s)); simpl; by split_and!. }
  rewrite H1. cbn [Z.eqb]. msteps. cbn [s_zh]. rewrite H2.
  exists zh1. split_and!; [done|done|].
  unfold zh1, zh0, dropped, zh_state. cbn [zh_input_buffer cleared_auth set_zh_auth_h
    set_zh_completions_to_process set_zh_sent_requests set_zh_to_process set_zh_to_send].
  destruct (sv_state (zh_servers (s_zh s)) <? 0) eqn:Es, (zh_input_buffer (s_zh s));
    split; try done; simpl; unfold disconnected_servers; simpl; by rewrite Es.
Qed.

Lemma drop_connection_spec s A rc :
  idle s A → wf_int rc → rc ≠ 0 ∨ zh_sent_requests (s_zh s) = [] →
  ∃ zh', drop_connection rc s =
      Ret ((), record_calls (loss_calls rc (s_zh s)) (mk_sys zh' (s_world s))) ∧
    zh_completions_to_process zh' = [] ∧ dropped_handle (s_zh s) zh'.
Proof.
  intros Hi Hrc Hne. destruct (drop_connection_fakes s A rc Hi Hrc) as (zh1 & E & Hq & Hd).
  exists (set_zh_completions_to_process [] zh1). split_and!; [|done|by destruct Hd].
  rewrite E, (completions_loop_spec (zh_chroot (s_zh s)) _
    (map (failed_calls rc) (zh_sent_requests (s_zh s)))).
  - unfold loss_calls. rewrite <-record_app. done.
  - destruct Hne as [Hne|Hnil]; [|rewrite Hnil; constructor].
    apply fakes_ready; [apply (idle_requests _ _ Hi)|done|done].
  - apply (idle_ample _ _ Hi).
  - apply (dr_chroot _ _ Hd).
  - done.
Qed.

(** The watchers a session event reaches: the default one and every registered one. *)
Definition everyone (s : sys) (A : registry) (l : watcher_list) : Prop :=
  NoDup l ∧ ∀ wo, wo ∈ l ↔
    wo = mk_wo (zh_watcher (zh_watches (s_zh s))) (zh_context (zh_watches (s_zh s))) ∨
    ∃ t p, wo ∈ watching A t p.
(** The event [cleanup] announces, if any. *)
Definition announced (zh : zhandle) : option Z :=
  if is_unrecoverable zh then Some (zh_state zh)
  else if is_connected zh then Some ZOO_CONNECTING_STATE else None.

(** Where the handle turns to: the next server, after a pause at the end of the list. *)
Definition turned (sv : servers) (zh' : zhandle) : Prop :=
  ∃ x a', addrvec_next (sv_addrs sv) = Ret (x, a') ∧
    zh_servers zh' = with_cur x (with_addrs a' (disconnected_servers sv)) ∧
    zh_delay zh' = if addrvec_atend (sv_addrs sv) then 1 else 0.

(** [cleanup] is the event, if any, and then the end of the connection. *)
Lemma cleanup_announces s A rc :
  idle s A → wf_int (zh_state (s_zh s)) →
  ∃ l, everyone s A l ∧
    cleanup rc s = drop_connection rc
      (record_calls (from_option (λ st, session_calls st l) [] (announced (s_zh s))) s).
Proof.
  intros Hi Hst. unfold cleanup, drop_connection, announced.
  destruct (queue_session_event_spec s A (zh_state (s_zh s)) Hi Hst) as (l1 & E1 & Hl1).
  destruct (queue_session_event_spec s A ZOO_CONNECTING_STATE Hi) as (l2 & E2 & Hl2);
    [unfold wf_int, in_s; lia|].
  msteps. destruct (is_unrecoverable (s_zh s)).
  - exists l1. split; [done|]. msteps. by rewrite E1.
  - destruct (is_connected (s_zh s)); exists l2; (split; [done|]); msteps; [by rewrite E2|].
    cbn [from_option]. by rewrite record_nil.
Qed.

Lemma handle_error_full s A rc :
  idle s A → wf_int rc → rc ≠ 0 → wf_int (zh_state (s_zh s)) →
  av_wf (sv_addrs (zh_servers (s_zh s))) → elems (sv_addrs (zh_servers (s_zh s))) ≠ [] →
  ∃ zh' l, handle_error rc s =
      Ret ((), record_calls ((from_option (λ st, session_calls st l) [] (announced (s_zh s))) ++
                             loss_calls rc (s_zh s)) (mk_sys zh' (s_world s))) ∧
    everyone s A l ∧ idle (mk_sys zh' (s_world s)) A ∧
    zh_sent_requests zh' = [] ∧ zh_to_send zh' = [] ∧ zh_to_process zh' = [] ∧
    zh_auth_h zh' = map clear_completion (zh_auth_h (s_zh s)) ∧
    zh_fd zh' = -1 ∧ zh_state zh' = (if is_unrecoverable (s_zh s) then zh_state (s_zh s) else 0) ∧
    elems (sv_addrs (zh_servers (s_zh s))) !! cursor (sv_addrs (zh_servers (s_zh s))) =
      Some (sv_addr_cur (zh_servers zh')) ∧
    zh_close_requested zh' = zh_close_requested (s_zh s) ∧
    turned (zh_servers (s_zh s)) zh' ∧ zh_recv_timeout zh' = zh_recv_timeout (s_zh s) ∧
    zh_ref_counter zh' = zh_ref_counter (s_zh s).
Proof.
  intros Hi Hrc Hne Hst Hav Hel. unfold handle_error. rewrite M_bind_eq.
  destruct (addrvec_next_spec _ Hav Hel) as (x & a' & Ex & Hx & _).
  destruct (cleanup_announces s A rc Hi Hst) as (l & Hl & Ec). rewrite Ec.
  set (s0 := record_calls _ s).
  destruct (drop_connection_spec s0 A rc (idle_record _ _ _ Hi) Hrc (or_introl Hne))
    as (zh' & E & H4 & [H1 H2 H3 H5 H6 H7 H8 H9 H10 H11 _]).
  rewrite E. msteps. cbn [s_zh record_calls]. rewrite H8.
  assert (∀ sv, sv_addrs (disconnected_servers sv) = sv_addrs sv) as Hsv
    by (intros sv; unfold disconnected_servers; by destruct (_ <? 0)).
  rewrite Hsv. cbn [s0 record_calls s_zh]. unfold lift. rewrite Ex. msteps.
  eexists _, l. split; [by rewrite <-record_app|]. split; [done|].
  split.
  - destruct Hi as [Ha Hw Hs Hc Hd Hwa Hr]. split; simpl; try done; rewrite ?H7, ?H1; done.
  - split_and!; [done..| | | |done| |done|done]; simpl; rewrite ?H8;
      [unfold disconnected_servers, is_unrecoverable, zh_state, s0; simpl; by destruct (_ <? 0)..| |].
    + done.
    + exists x, a'. split_and!; [done|done|]. simpl. by rewrite ?H8, ?Hsv.
Qed.

Lemma handle_error_spec s A rc :
  idle s A → wf_int rc → rc ≠ 0 → wf_int (zh_state (s_zh s)) →
  av_wf (sv_addrs (zh_servers (s_zh s))) → elems (sv_addrs (zh_servers (s_zh s))) ≠ [] →
  ∃ zh' l, handle_error rc s =
      Ret ((), record_calls ((from_option (λ st, session_calls st l) [] (announced (s_zh s))) ++
                             loss_calls rc (s_zh s)) (mk_sys zh' (s_world s))) ∧
    everyone s A l ∧ idle (mk_sys zh' (s_world s)) A ∧
    zh_sent_requests zh' = [] ∧ zh_to_send zh' = [] ∧ zh_to_process zh' = [] ∧
    zh_auth_h zh' = map clear_completion (zh_auth_h (s_zh s)) ∧
    zh_fd zh' = -1 ∧ zh_state zh' = (if is_unrecoverable (s_zh s) then zh_state (s_zh s) else 0) ∧
    elems (sv_addrs (zh_servers (s_zh s))) !! cursor (sv_addrs (zh_servers (s_zh s))) =
      Some (sv_addr_cur (zh_servers zh')) ∧
    zh_close_requested zh' = zh_close_requested (s_zh s).
Proof.
  intros Hi Hrc Hne Hst Hav Hel.
  destruct (handle_error_full s A rc Hi Hrc Hne Hst Hav Hel) as (zh' & l & E & H').
  exists zh', l. split; [done|]. tauto.
Qed.
End loss.

(** ** A handle for the examples

    Connected, with the watches of [sample_watches], one authentication under way and two
    requests waiting for their answers. *)
Definition zero_locals : Locals := {|
  junk_ReplyHeader := zero_ReplyHeader;
  junk_WatcherEvent := zero_WatcherEvent;
  junk_ErrorResponse := zero_ErrorResponse;
  junk_GetDataResponse := zero_GetDataResponse;
  junk_SetDataResponse := zero_SetDataResponse;
  junk_GetChildrenResponse := zero_GetChildrenResponse;
  junk_GetChildren2Response := zero_GetChildren2Response;
  junk_CreateResponse := zero_CreateResponse;
  junk_Create2Response := zero_Create2Response;
  junk_GetACLResponse := zero_GetACLResponse;
  junk_Stat := zero_Stat;
|}.
Definition sample_delete : completion_list :=
  mk_completion 7 COMPLETION_VOID 11 None [] 110 None None None.
Definition sample_multi : completion_list :=
  mk_completion 8 COMPLETION_MULTI 12 None [sample_delete] 120 None None None.
Definition sample_handle : zhandle :=
  mk_zhandle sample_servers 0 sample_watches None 10000 NoInput
    (mk_bl (Some (replicate 41 Byte.x00)) 41 0) [] [] [sample_delete; sample_multi] [] 0 77
    (replicate 16 Byte.x00) 0 [mk_auth 0 (Some (lit "digest")) (mk_buffer 3 (Some (lit "u:p"))) 13 130]
    (mk_prime 0 0 0 0 0 [] Byte.x00) 0 0 Byte.x00 1 (mk_timeval 0 0) (mk_timeval 0 0)
    (mk_timeval 0 0) false.
Definition sample_world : world := mk_world [] [] [] [] [] [] false 9 [] ∅ 0 [].
Definition sample_sys : sys := mk_sys sample_handle sample_world.

Lemma sample_request_ok c : c ∈ [sample_delete; sample_multi] → request_ok c.
Proof.
  assert (callable sample_delete) as Hd by (constructor; simpl; [done|done|constructor]).
  rewrite !elem_of_cons, elem_of_nil. intros [->|[->|[]]]; (split; [|split]).
  1: done. 3: constructor; simpl; [done|done|by repeat constructor].
  1,3: unfold wf_int, in_s; simpl; lia.
  all: unfold special; rewrite !elem_of_cons, elem_of_nil; simpl; lia.
Qed.
Lemma elem_of_singleton_list {A} (x y : A) : x ∈ [y] → x = y.
Proof. rewrite elem_of_cons, elem_of_nil. by intros [?|[]]. Qed.
Lemma sample_watching q p (wo' wo : watcher_object) :
  wo ∈ default [] (({[q := [wo']]} : gmap cstring watcher_list) !! p) → wo = wo'.
Proof.
  destruct (decide (q = p)) as [<-|Hp].
  - rewrite lookup_singleton_eq. apply elem_of_singleton_list.
  - rewrite lookup_singleton_ne by done. by intros ?%elem_of_nil.
Qed.
Lemma sample_idle s :
  w_alloc (s_world s) = [] → zh_watches (s_zh s) = sample_watches →
  zh_outstanding_sync (s_zh s) = 0 → zh_completions_to_process (s_zh s) = [] →
  Forall request_ok (zh_sent_requests (s_zh s)) → @idle sample_host s sample_registry.
Proof.
  intros Ha Hw Hs Hc Hr.
  assert (zh_watcher sample_watches ≠ 0) as Hd by (vm_compute; discriminate).
  split; [exact Ha|rewrite Hw; apply sample_watches_repr|exact Hs|exact Hc|by rewrite Hw| |exact Hr].
  intros t p wo. destruct t.
  - intros ->%sample_watching. discriminate.
  - intros []%not_elem_of_nil.
  - intros ->%sample_watching. discriminate.
Qed.
Lemma sample_sys_idle : @idle sample_host sample_sys sample_registry.
Proof.
  apply sample_idle; [done..|]. apply Forall_forall. exact sample_request_ok.
Qed.

Lemma sample_announced : announced (s_zh sample_sys) = Some ZOO_CONNECTING_STATE.
Proof. reflexivity. Qed.
Lemma sample_loss rc :
  loss_calls rc (s_zh sample_sys) =
    [CallAuth 13 rc 130; CallVoid 11 rc 110; CallVoid 11 rc 110; CallVoid 12 rc 120].
Proof. reflexivity. Qed.

(** C5. A lost connection.  [handle_error] tells every watcher, the default one and all
    registered ones, each once, if there was a connection or the session is over; then
    each pending authentication and each outstanding request, in the order of the
    requests and with the parts of a transaction before it, is failed exactly once with
    the error.  Nothing is left to send, to process or to wait for, the descriptor is
    closed, the watches are kept for the next connection, and the handle turns to the
    server under the cursor. *)
Theorem connection_lost (H : Host) (L : Locals) s A rc :
  idle s A → wf_int rc → rc ≠ 0 → wf_int (zh_state (s_zh s)) →
  av_wf (sv_addrs (zh_servers (s_zh s))) → elems (sv_addrs (zh_servers (s_zh s))) ≠ [] →
  ∃ zh' l, handle_error rc s =
      Ret ((), record_calls ((from_option (λ st, session_calls st l) [] (announced (s_zh s))) ++
                             loss_calls rc (s_zh s)) (mk_sys zh' (s_world s))) ∧
    everyone s A l ∧ idle (mk_sys zh' (s_world s)) A ∧
    zh_sent_requests zh' = [] ∧ zh_to_send zh' = [] ∧ zh_to_process zh' = [] ∧
    zh_auth_h zh' = map clear_completion (zh_auth_h (s_zh s)) ∧
    zh_fd zh' = -1 ∧ zh_state zh' = (if is_unrecoverable (s_zh s) then zh_state (s_zh s) else 0) ∧
    elems (sv_addrs (zh_servers (s_zh s))) !! cursor (sv_addrs (zh_servers (s_zh s))) =
      Some (sv_addr_cur (zh_servers zh')) ∧
    zh_close_requested zh' = zh_close_requested (s_zh s).
Proof. apply handle_error_spec. Qed.

Lemma connection_lost_witness :
  ∃ zh' l, @handle_error sample_host zero_locals (@st_adaptor sample_host) ZCONNECTIONLOSS sample_sys =
    Ret ((), record_calls (session_calls ZOO_CONNECTING_STATE l ++
      [CallAuth 13 ZCONNECTIONLOSS 130; CallVoid 11 ZCONNECTIONLOSS 110;
       CallVoid 11 ZCONNECTIONLOSS 110; CallVoid 12 ZCONNECTIONLOSS 120])
      (mk_sys zh' sample_world)) ∧ everyone sample_sys sample_registry l ∧ zh_fd zh' = -1.
Proof.
  destruct (connection_lost sample_host zero_locals sample_sys sample_registry ZCONNECTIONLOSS)
    as (zh' & l & E & Hl & _ & _ & _ & _ & _ & Hfd & _).
  - apply sample_sys_idle.
  - unfold wf_int, in_s; lia.
  - done.
  - change (in_s 32 3). unfold in_s. lia.
  - apply vec_wf. simpl. lia.
  - done.
  - rewrite sample_announced, sample_loss in E. exists zh', l. split_and!; assumption.
Defined.
