(* ===== verification/ResponseFacts.v ===== *)
(** * Facts about the matching of responses

    A response packet at the head of the queue answers the oldest request: the watches of
    the request are settled, the completion is queued with the packet and the requests
    behind it are untouched. *)

From S2P Require Import Prelude RecordIO RecordIOFacts Jute JuteSpec JuteTheorems Path.
From S2P Require Import PathFacts Hashtable HashtableFacts Watchers WatchersFacts.
From S2P Require Import WatchersTheorems Addrvec AddrvecFacts Handshake Transport Handle.
From S2P Require Import Session SessionFacts SessionTheorems.
Local Open Scope Z_scope.

(** ** Watches *)

(** The registrations after a request with these watches has been answered with [rc]. *)
Definition activated (reg : option watcher_registration) (rc : Z) (A : registry) : registry :=
  match reg ≫= λ r, pair r <$> run_checker (reg_checker r) rc with
  | None => A
  | Some (r, t) =>
      upd t (register (reg_path r) (mk_wo (reg_watcher r) (reg_context r)) (A t)) A
  end.
Definition deactivated (dereg : option watcher_deregistration) (rc : Z) (A : registry) : registry :=
  match dereg with
  | Some d =>
      if rc =? ZOK then
        foldl (λ A t, upd t (unregister (dereg_path d) (dereg_watcher d) (dereg_context d) (A t)) A)
          A (type_tables (dereg_type d))
      else A
  | None => A
  end.
Definition settled (c : completion_list) (rc : Z) (A : registry) : registry :=
  deactivated (c_deregistration c) rc (activated (c_watcher c) rc A).

(** Room for [n] more paths in every table. *)
Definition roomy (n : nat) (A : registry) : Prop :=
  ∀ t, Z.of_nat (size (A t)) + Z.of_nat n + 1 < 2 ^ 31.

Section watches.
Context `{Host}.

Lemma size_register p wo m : (size (register p wo m) ≤ S (size m))%nat.
Proof.
  unfold register. destruct (m !! p) eqn:E.
  - rewrite map_size_insert_Some by eauto. lia.
  - rewrite map_size_insert_None by done. lia.
Qed.
Lemma size_unregister p w c m : (size (unregister p w c m) ≤ size m)%nat.
Proof.
  unfold unregister. destruct (m !! p) as [l|] eqn:E; [|done].
  assert (size (delete p m) ≤ size m)%nat by (rewrite map_size_delete, E; simpl; lia).
  destruct (w =? 0); [done|]. destruct (filter _ l); [done|].
  by rewrite map_size_insert_Some by eauto.
Qed.

Lemma roomy_activated n reg rc A : roomy (S n) A → roomy n (activated reg rc A).
Proof.
  intros Hr t. specialize (Hr t) as Ht. unfold activated.
  destruct (reg ≫= _) as [[r t']|]; [|lia]. unfold upd. case_decide; [|lia]. subst.
  pose proof (size_register (reg_path r) (mk_wo (reg_watcher r) (reg_context r)) (A t')). lia.
Qed.
Lemma roomy_deactivated n dereg rc A : roomy n A → roomy n (deactivated dereg rc A).
Proof.
  intros Hr. unfold deactivated. destruct dereg as [d|]; [|done]. destruct (rc =? ZOK); [|done].
  revert A Hr. induction (type_tables (dereg_type d)) as [|t ts IH]; intros A Hr; [done|].
  apply IH. intros t'. unfold upd. case_decide; [subst|apply Hr].
  pose proof (size_unregister (dereg_path d) (dereg_watcher d) (dereg_context d) (A t)).
  specialize (Hr t). lia.
Qed.
Lemma roomy_room n A t : roomy n A → room (A t).
Proof. intros Hr. specialize (Hr t). unfold room. lia. Qed.

Lemma activate_settles n zh reg rc A :
  watches_repr zh A → roomy (S n) A →
  ∃ zh', activateWatcher zh reg rc [] = Ret (zh', []) ∧
    watches_repr zh' (activated reg rc A) ∧
    zh_watcher zh' = zh_watcher zh ∧ zh_context zh' = zh_context zh.
Proof.
  intros HA Hr. destruct (activateWatcher_spec _ zh A reg rc HA) as (zh' & E & Hzh').
  exists zh'. split; [done|]. split.
  - intros t. split; [|by eapply roomy_room, roomy_activated].
    unfold activated. destruct (reg ≫= _) as [[r t']|]; [by apply Hzh'|]. subst. apply HA.
  - clear -E. unfold activateWatcher in E. destruct reg as [r|]; [|by simplify_eq].
    destruct (run_checker _ _) as [t|]; [|by simplify_eq].
    apply bind_Ret_inv in E as ([wo o1] & _ & E).
    apply bind_Ret_inv in E as ([[rc1 ht] o2] & _ & [= <-]). by destruct t.
Qed.

Lemma remove_from_keeps t path w c zh zh' :
  remove_from t path w c zh = Ret zh' →
  zh_watcher zh' = zh_watcher zh ∧ zh_context zh' = zh_context zh.
Proof.
  unfold remove_from. intros E.
  apply bind_Ret_inv in E as (ht & _ & [= <-]). by destruct t.
Qed.

(** The tables of [removeWatchers], one after the other. *)
Fixpoint remove_all (ts : list which_table) (path : cstring) (w c : Z) (zh : watches)
    : outcome watches :=
  match ts with
  | [] => Ret zh
  | t :: ts => zh ← remove_from t path w c zh; remove_all ts path w c zh
  end.
Lemma removeWatchers_all zh path type w c :
  removeWatchers zh path type w c = remove_all (type_tables type) path w c zh.
Proof.
  unfold removeWatchers, type_tables.
  repeat (destruct (type =? _); simpl; [repeat (destruct (remove_from _ _ _ _ _); [simpl|done..]); done|]).
  done.
Qed.
Lemma remove_all_spec ts path w c zh A :
  watches_repr zh A →
  ∃ zh', remove_all ts path w c zh = Ret zh' ∧
    watches_repr zh' (foldl (λ A t, upd t (unregister path w c (A t)) A) A ts) ∧
    zh_watcher zh' = zh_watcher zh ∧ zh_context zh' = zh_context zh.
Proof.
  revert zh A. induction ts as [|t ts IH]; intros zh A HA; [by exists zh|]. simpl.
  destruct (remove_from_spec zh A t path w c HA) as (zh1 & E & HA1). rewrite E. run.
  destruct (IH zh1 _ HA1) as (zh2 & E2 & HA2 & Hw & Hc).
  exists zh2. split; [done|]. split; [done|].
  destruct (remove_from_keeps _ _ _ _ _ _ E). by rewrite Hw, Hc.
Qed.
Lemma deactivate_settles zh dereg rc A :
  watches_repr zh A →
  ∃ zh', deactivateWatcher zh dereg rc = Ret zh' ∧ watches_repr zh' (deactivated dereg rc A) ∧
    zh_watcher zh' = zh_watcher zh ∧ zh_context zh' = zh_context zh.
Proof.
  intros HA. unfold deactivateWatcher, deactivated.
  destruct (rc =? ZOK); cbn [negb]; [|exists zh; by destruct dereg].
  destruct dereg as [d|]; [|by exists zh]. rewrite removeWatchers_all. by apply remove_all_spec.
Qed.
End watches.

(** ** Response packets *)
Section responses.
Context `{Host, Locals}.

(** The packet [b] has arrived completely and holds [bs]. *)
Definition arrived (b : buffer_list) (bs : list byte) : Prop :=
  bl_buffer b = Some bs ∧ bl_len b = Z.of_nat (length bs) ∧
  bl_curr_offset b = bl_len b + 4 ∧ bl_len b + 4 ≤ INT_MAX.
Lemma arrived_holds b bs : arrived b bs → holds b bs.
Proof. intros (Hb & Hl & _ & Hm). split_and!; [done..|lia]. Qed.

(** The header of an arrived packet is read, past the end of the block or not. *)
Lemma arrived_header b h bs s {A} (f : ReplyHeader * buff_struct → M A) :
  arrived b (enc_ReplyHeader h ++ bs) → wf_ReplyHeader h → ample s →
  ∃ ia, (ia ← open_archive b (bl_curr_offset b);
         x ← parse deserialize_ReplyHeader junk_ReplyHeader ia; f x) s = f (h, ia) s ∧ pending ia bs.
Proof.
  intros (Hb & Hl & Ho & Hm) Hh Ha.
  destruct (open_archive_ok b _ (bl_curr_offset b) s Hb ltac:(lia) Ha) as (ia & E & Hp).
  destruct (parse_ok deserialize_ReplyHeader h _ junk_ReplyHeader ia _ s
    (deserialize_ReplyHeader_reads h Hh) Hp Ha) as (ia1 & E1 & Hp1).
  exists ia1. split; [|done]. by rewrite M_bind_eq, E; run; rewrite M_bind_eq, E1.
Qed.

(** The handle after the response [h] to the oldest request [c] has been taken in. *)
Definition taken_in (c : completion_list) (h : ReplyHeader) (b : buffer_list)
    (rest : list completion_list) (w : watches) (zh : zhandle) : zhandle :=
  let zh := set_zh_sent_requests rest zh in
  let zh := if 0 <? ReplyHeader_zxid h then set_zh_last_zxid (ReplyHeader_zxid h) zh else zh in
  set_zh_completions_to_process (zh_completions_to_process zh ++ [set_c_buffer (Some b) c])
    (set_zh_watches w zh).

Lemma special_cases xid {A} (p w s a r : A) :
  ¬ special xid →
  (if xid =? PING_XID then p else if xid =? WATCHER_EVENT_XID then w
   else if xid =? SET_WATCHES_XID then s else if xid =? AUTH_XID then a else r) = r.
Proof.
  intros Hs. unfold special in Hs. rewrite !elem_of_cons in Hs.
  rewrite !(proj2 (Z.eqb_neq xid _)) by tauto. done.
Qed.

Lemma process_answer n c h r b more rest s A :
  ample s → watches_repr (zh_watches (s_zh s)) A → roomy (S n) A →
  zh_sent_requests (s_zh s) = c :: rest → answers c h r → arrived b (answer_bytes h r ++ more) →
  ∃ w, process_packet b s =
      Ret (Continue, mk_sys (taken_in c h b rest w (s_zh s)) (s_world s)) ∧
    watches_repr w (settled c (ReplyHeader_err h) A) ∧ roomy n (settled c (ReplyHeader_err h) A) ∧
    zh_watcher w = zh_watcher (zh_watches (s_zh s)) ∧
    zh_context w = zh_context (zh_watches (s_zh s)).
Proof.
  intros Ha HA Hroom Hsent (Hc & Hh & Hx & Hs & _) Hb. unfold answer_bytes in Hb.
  rewrite <-app_assoc in Hb. unfold process_packet.
  match goal with |- context [open_archive _ _ ≫= λ ia, parse _ _ ia ≫= ?f] =>
    destruct (arrived_header b h _ s f Hb Hh Ha) as (ia & -> & _) end.
  cbn beta iota. rewrite special_cases by (by rewrite Hx).
  unfold process_response. msteps. rewrite Hsent. msteps.
  rewrite (proj2 (Z.eqb_eq (c_xid c) _)) by done. cbn [negb].
  set (rc := ReplyHeader_err h).
  destruct (activate_settles n _ (c_watcher c) rc A HA Hroom) as (w1 & E1 & HA1 & W1 & C1).
  destruct (deactivate_settles w1 (c_deregistration c) rc _ HA1) as (w2 & E2 & HA2 & W2 & C2).
  exists w2. split; [|split; [done|]; split; [by apply roomy_deactivated, roomy_activated|]].
  2: { by rewrite W2, C2. }
  inversion Hc as [? _ Hsync _]; subst. unfold taken_in.
  destruct (0 <? ReplyHeader_zxid h); msteps; cbn [s_zh s_world zh_watches set_zh_last_zxid set_zh_sent_requests].
  all: rewrite (allocating_ok _ w1) by done; run; rewrite M_bind_eq; unfold lift; rewrite E2; run;
    msteps; rewrite (proj2 (Z.eqb_neq _ _)) by done; cbn [negb]; unfold queue_completion; by msteps.
Qed.

(** ** A queue of responses *)

(** The requests, their answers and the packets these came in. *)
Record item := mk_item {
  i_req : completion_list; i_hdr : ReplyHeader; i_resp : response; i_packet : buffer_list;
}.
Definition item_ok (i : item) : Prop :=
  answers (i_req i) (i_hdr i) (i_resp i) ∧
  ∃ more, arrived (i_packet i) (answer_bytes (i_hdr i) (i_resp i) ++ more).
Definition item_calls (chroot : option cstring) (i : item) : list ucall :=
  answer_calls chroot (i_req i) (i_hdr i) (i_resp i).
Definition item_entry (i : item) : completion_list := set_c_buffer (Some (i_packet i)) (i_req i).

(** The last transaction the client has seen, and the registrations, afterwards. *)
Definition zxid_after (items : list item) (zxid : Z) : Z :=
  foldl (λ z i, if 0 <? ReplyHeader_zxid (i_hdr i) then ReplyHeader_zxid (i_hdr i) else z) zxid items.
Definition registry_after (items : list item) (A : registry) : registry :=
  foldl (λ A i, settled (i_req i) (ReplyHeader_err (i_hdr i)) A) A items.

(** The fields responses leave alone. *)
Record untouched (zh zh' : zhandle) : Prop := {
  same_servers : zh_servers zh' = zh_servers zh;
  same_chroot : zh_chroot zh' = zh_chroot zh;
  same_sync : zh_outstanding_sync zh' = zh_outstanding_sync zh;
  same_to_send : zh_to_send zh' = zh_to_send zh;
  same_auth : zh_auth_h zh' = zh_auth_h zh;
  same_refs : zh_ref_counter zh' = zh_ref_counter zh;
  same_closing : zh_close_requested zh' = zh_close_requested zh;
  same_input : zh_input_buffer zh' = zh_input_buffer zh;
  same_default : zh_watcher (zh_watches zh') = zh_watcher (zh_watches zh);
}.
Lemma untouched_trans zh1 zh2 zh3 : untouched zh1 zh2 → untouched zh2 zh3 → untouched zh1 zh3.
Proof. intros [] []. split; congruence. Qed.

Lemma untouched_taken c h b rest w zh :
  zh_watcher w = zh_watcher (zh_watches zh) → untouched zh (taken_in c h b rest w zh).
Proof. intros Hw. unfold taken_in. destruct (0 <? _); by split. Qed.

Lemma packets_loop_spec items rest s A :
  ample s → watches_repr (zh_watches (s_zh s)) A → roomy (length items) A →
  Forall item_ok items → zh_sent_requests (s_zh s) = map i_req items ++ rest →
  zh_to_process (s_zh s) = map i_packet items →
  ∃ zh', packets_loop (map i_packet items) s = Ret (Continue, mk_sys zh' (s_world s)) ∧
    zh_sent_requests zh' = rest ∧ zh_to_process zh' = [] ∧
    zh_completions_to_process zh' = zh_completions_to_process (s_zh s) ++ map item_entry items ∧
    zh_last_zxid zh' = zxid_after items (zh_last_zxid (s_zh s)) ∧
    watches_repr (zh_watches zh') (registry_after items A) ∧ untouched (s_zh s) zh'.
Proof.
  intros Ha HA Hroom Hok. revert s A Ha HA Hroom.
  induction Hok as [|i items [Hans [more Harr]] Hok IH]; intros s A Ha HA Hroom Hsent Hq.
  - exists (s_zh s). simpl. rewrite app_nil_r. destruct s. by split_and!.
  - cbn [packets_loop map]. msteps.
    set (s1 := mk_sys _ _).
    destruct (process_answer (length items) (i_req i) (i_hdr i) (i_resp i) (i_packet i) more
      (map i_req items ++ rest) s1 A) as (w & E & HA1 & Hr1 & Hw & _); [done..|].
    rewrite E. run.
    set (s2 := mk_sys _ _) in E |- *.
    destruct (IH s2 (settled (i_req i) (ReplyHeader_err (i_hdr i)) A))
      as (zh' & E2 & H1 & H2 & H3 & H4 & H5 & H6);
      [done|done|done|..]; try (unfold s2, taken_in; simpl; by destruct (0 <? _)).
    exists zh'. split; [exact E2|]. split_and!; [done|done| | |done|].
    + rewrite H3. unfold s2, taken_in. simpl. destruct (0 <? _); simpl; by rewrite <-app_assoc.
    + rewrite H4. unfold s2, taken_in. simpl. by destruct (0 <? _).
    + eapply untouched_trans; [|exact H6]. apply (untouched_trans _ (s_zh s1)); [by split|].
      by apply untouched_taken.
Qed.
End responses.
