(* ===== verification/ResponseTheorems.v ===== *)
(** * Theorems about responses

    From the bytes on the socket to the calls of the user's completions. *)

From S2P Require Import Prelude RecordIO RecordIOFacts Jute JuteSpec JuteTheorems Path.
From S2P Require Import PathFacts Hashtable HashtableFacts Watchers WatchersFacts.
From S2P Require Import WatchersTheorems Addrvec AddrvecFacts Handshake Transport.
From S2P Require Import TransportFacts Handle Session SessionFacts SessionTheorems.
From S2P Require Import ResponseFacts.
Local Open Scope Z_scope.

Section reading.
Context `{Host, Locals}.

(** ** The socket is read *)

(** [got] is what has arrived of the current packet. *)
Definition input_state (zh : zhandle) (got : list byte) : Prop :=
  match zh_input_buffer zh with
  | NoInput => got = []
  | InputBuffer b => receiving b got
  | PrimerInput => False
  end.

Lemma received_arrived b d :
  receiving b (frame d) → Z.of_nat (length d) + 4 ≤ INT_MAX → arrived b d.
Proof.
  intros Hr Hm. pose proof (receiving_complete b d Hr Hm) as Hb. destruct Hr as (Ho & Hr).
  pose proof (length_frame d) as Hl. rewrite (proj2 (Nat.ltb_ge _ _)) in Hr by lia.
  destruct Hr as (n & _ & Hlen & Hn & Hln & Hbuf). rewrite Hb in Hbuf. injection Hbuf as Hbuf.
  apply (f_equal length) in Hbuf. rewrite length_app, length_replicate, length_drop in Hbuf.
  unfold arrived. split_and!; [done|lia..].
Qed.

(** The world after [k] bytes have been read with [j] calls. *)
Definition after_read (k j : nat) (w : world) : world :=
  set_w_io (drop j (w_io w)) (set_w_in (drop k (w_in w)) w).

Lemma recv_input_spec s b got later d rest :
  ample s → zh_input_buffer (s_zh s) = InputBuffer b → receiving b got →
  got ++ w_in (s_world s) ++ later = frame d ++ rest → sendable d →
  (length got < length (frame d))%nat →
  ∃ rc b' k j, recv_input s = Ret (rc, mk_sys (set_zh_input_buffer (InputBuffer b') (s_zh s))
      (after_read k j (s_world s))) ∧
    receiving b' (got ++ take k (w_in (s_world s))) ∧
    (rc = (if (length got + k =? length (frame d))%nat then 1 else 0) ∨ rc = -1) ∧
    (k ≤ length (w_in (s_world s)))%nat ∧ (length got + k ≤ length (frame d))%nat.
Proof.
  intros Ha Hin Hr E [Hd Hmax] Hl.
  destruct (recv_buffer_spec b got _ later (w_io (s_world s)) d rest Hr E Hd Hmax Hl)
    as (rc & b' & k & j & Erun & _ & Hr' & Hk & Hkl & Hrc & _).
  exists rc, b', k, j. unfold recv_input. msteps. rewrite Hin. msteps.
  rewrite (allocating_ok _ (rc, b', drop k (w_in (s_world s)), drop j (w_io (s_world s))));
    [|done|by rewrite Erun].
  msteps. split_and!; [done|done|naive_solver|done|done].
Qed.

(** The part of [read_event] before [recv_buffer]: there is a buffer. *)
Definition with_input (zh : zhandle) : zhandle :=
  match zh_input_buffer zh with
  | NoInput => set_zh_input_buffer (InputBuffer (mk_bl None sizeof_buffer_list 0)) zh
  | _ => zh
  end.
Definition clock_tick (w : world) : timeval * world :=
  match w_clock w with [] => (mk_timeval 0 0, w) | t :: c => (t, set_w_clock c w) end.
(** The handle with the complete packet [b] to process. *)
Definition queued_packet (b : buffer_list) (t : timeval) (zh : zhandle) : zhandle :=
  set_zh_input_buffer NoInput (set_zh_to_process (zh_to_process zh ++ [b])
    (set_zh_last_recv t (set_zh_input_buffer (InputBuffer b) zh))).

(** One read: nothing complete yet, a complete packet, or a lost connection. *)
Inductive read_outcome (s : sys) (got : list byte) (d : list byte) : outcome (Z * sys) → Prop :=
  | read_nothing b k j :
      receiving b (got ++ take k (w_in (s_world s))) → (k ≤ length (w_in (s_world s)))%nat →
      (length got + k < length (frame d))%nat →
      read_outcome s got d (Ret (ZNOTHING,
        mk_sys (set_zh_input_buffer (InputBuffer b) (with_input (s_zh s)))
               (after_read k j (s_world s))))
  | read_packet b k j :
      arrived b d → got ++ take k (w_in (s_world s)) = frame d →
      read_outcome s got d (Ret (ZOK,
        let '(t, w) := clock_tick (after_read k j (s_world s)) in
        mk_sys (queued_packet b t (with_input (s_zh s))) w))
  | read_failed b k j :
      read_outcome s got d (handle_socket_error_msg ZCONNECTIONLOSS
        (mk_sys (set_zh_input_buffer (InputBuffer b) (with_input (s_zh s)))
                (after_read k j (s_world s)))).

Lemma read_event_spec s got later d rest :
  ample s → input_state (s_zh s) got → got ++ w_in (s_world s) ++ later = frame d ++ rest →
  sendable d → (length got < length (frame d))%nat →
  read_outcome s got d (read_event s).
Proof.
  intros Ha Hin E Hd Hl. unfold read_event. msteps.
  assert (∃ b, zh_input_buffer (with_input (s_zh s)) = InputBuffer b ∧ receiving b got ∧
    ∀ f : M Z, ((match zh_input_buffer (s_zh s) with
      | NoInput => b ← allocating (λ o, Ret (allocate_buffer None 0 o));
                   match b with None => raise UB
                   | Some b => set_zh_input_buffer :=! (InputBuffer b) end
      | _ => mret () end);; f) s = f (mk_sys (with_input (s_zh s)) (s_world s)))
    as (b & Hb & Hr & Hf).
  { unfold input_state, with_input in *. destruct (zh_input_buffer (s_zh s)) as [| |b] eqn:Eb; [|done|].
    - subst got. exists (mk_bl None sizeof_buffer_list 0). split; [done|].
      split; [by apply (receiving_fresh _ [])|]. intros f. msteps.
      rewrite (allocating_ok _ (Some (mk_bl None sizeof_buffer_list 0))) by done. by msteps.
    - exists b. split; [done|]. split; [done|]. intros f. msteps. by destruct s. }
  rewrite <-M_bind_eq, Hf. rewrite M_bind_eq.
  destruct (recv_input_spec (mk_sys (with_input (s_zh s)) (s_world s)) b got later d rest
    Ha Hb Hr E Hd Hl) as (rc & b' & k & j & -> & Hr' & Hrc & Hk & Hkl). run.
  cbn [s_zh s_world] in *. destruct Hd as [_ Hmax].
  destruct Hrc as [-> | ->]; [|by apply (read_failed s got d b' k j)].
  destruct (Nat.eqb_spec (length got + k) (length (frame d))) as [Hc|Hc]; run.
  - assert (got ++ take k (w_in (s_world s)) = frame d) as Hg.
    { transitivity (take (length (frame d)) (got ++ w_in (s_world s) ++ later)).
      - rewrite take_app_ge, take_app_le by lia. f_equal. f_equal. lia.
      - rewrite E. by rewrite take_app_length. }
    rewrite Hg in Hr'.
    pose proof (read_packet s got d b' k j (received_arrived b' d Hr' Hmax) Hg) as Hout.
    unfold get_system_time, clock_tick in *. rewrite M_bind_eq. cbn [s_world s_zh].
    destruct (w_clock (after_read k j (s_world s))); msteps; exact Hout.
  - apply read_nothing; [done|done|lia].
Qed.

(** ** [zookeeper_process] *)
Definition add_ref (zh : zhandle) (i : Z) : zhandle :=
  set_zh_ref_counter (zh_ref_counter zh + i) zh.

(** A handle that can be used: open, not closing, in a recoverable state. *)
Record usable (zh : zhandle) : Prop := {
  us_fd : zh_fd zh ≠ -1;
  us_state : 0 ≤ zh_state zh < 2 ^ 31;
  us_open : zh_close_requested zh = 0;
  us_addrs : av_wf (sv_addrs (zh_servers zh));
  us_servers : elems (sv_addrs (zh_servers zh)) ≠ [];
}.

Lemma us_state_wf zh : usable zh → wf_int (zh_state zh).
Proof. intros [_ Hs _ _ _]. unfold wf_int, in_s. lia. Qed.

Lemma api_epilog_open `{Adaptor} rc s :
  zh_close_requested (s_zh s) = 0 →
  api_epilog rc s = Ret (rc, mk_sys (add_ref (s_zh s) (-1)) (s_world s)).
Proof.
  intros Hc. unfold api_epilog, inc_ref_counter. msteps. cbn [s_zh].
  change (zh_close_requested (set_zh_ref_counter _ _)) with (zh_close_requested (s_zh s)).
  rewrite Hc. cbn [Z.eqb negb]. rewrite andb_false_r. by msteps.
Qed.

(** The beginning of [zookeeper_process] on a usable handle. *)
Lemma process_begins `{Adaptor} events s :
  usable (s_zh s) →
  zookeeper_process events s =
    ('(rc, s) ← check_events events (mk_sys (add_ref (s_zh s) 1) (s_world s));
     if negb (rc =? ZOK) then api_epilog rc s else
     '(st, s) ← packets_loop (zh_to_process (s_zh s)) s;
     match st with
     | Leave rc => api_epilog rc s
     | Continue => '(_, s) ← process_completions_if_async s; api_epilog ZOK s
     end).
Proof.
  intros [_ Hst _ _ _]. unfold zookeeper_process, is_unrecoverable. msteps.
  rewrite (proj2 (Z.ltb_ge _ _)) by lia. unfold api_prolog, inc_ref_counter. msteps.
  unfold add_ref. destruct (check_events _ _) as [[rc s1]| | |]; run; [|done..].
  destruct (negb _); [done|]. msteps.
  destruct (packets_loop _ s1) as [[st s2]| | |]; run; [|done..]. destruct st; [|done].
  by rewrite M_bind_eq.
Qed.

Lemma check_events_read s :
  zh_fd (s_zh s) ≠ -1 → check_events ZOOKEEPER_READ s = read_event s.
Proof.
  intros Hfd. unfold check_events. msteps. rewrite (proj2 (Z.eqb_neq _ _)) by done.
  msteps. change (event ZOOKEEPER_READ ZOOKEEPER_WRITE) with false.
  change (event ZOOKEEPER_READ ZOOKEEPER_READ) with true. cbn [andb].
  msteps. rewrite andb_false_r. msteps. done.
Qed.
Lemma check_events_none `{Adaptor} s :
  zh_fd (s_zh s) ≠ -1 → check_events 0 s = Ret (ZOK, s).
Proof.
  intros Hfd. unfold check_events. msteps. rewrite (proj2 (Z.eqb_neq _ _)) by done.
  msteps. change (event 0 _) with false. cbn [andb]. msteps.
  rewrite andb_false_r. by msteps.
Qed.

(** The packets in the queue are answered and their completions run. *)
Lemma process_items items rest s A :
  ample s → watches_repr (zh_watches (s_zh s)) A → roomy (length items) A →
  zh_outstanding_sync (s_zh s) = 0 → zh_completions_to_process (s_zh s) = [] →
  Forall item_ok items → zh_sent_requests (s_zh s) = map i_req items ++ rest →
  zh_to_process (s_zh s) = map i_packet items → zh_close_requested (s_zh s) = 0 →
  ∃ zh', ('(st, s) ← packets_loop (zh_to_process (s_zh s)) s;
          match st with
          | Leave rc => api_epilog rc s
          | Continue => '(_, s) ← process_completions_if_async s; api_epilog ZOK s
          end) =
    Ret (ZOK, record_calls (concat (map (item_calls (zh_chroot (s_zh s))) items))
                (mk_sys zh' (s_world s))) ∧
    zh_sent_requests zh' = rest ∧ zh_to_process zh' = [] ∧ zh_completions_to_process zh' = [] ∧
    zh_last_zxid zh' = zxid_after items (zh_last_zxid (s_zh s)) ∧
    watches_repr (zh_watches zh') (registry_after items A) ∧
    untouched (add_ref (s_zh s) (-1)) zh'.
Proof.
  intros Ha HA Hroom Hsync Hcomp Hok Hsent Hq Hclose.
  destruct (packets_loop_spec items rest s A Ha HA Hroom Hok Hsent Hq)
    as (zh1 & E & H1 & H2 & H3 & H4 & H5 & H6).
  rewrite Hq, E. run. unfold process_completions_if_async, process_completions; single_threaded.
  msteps. cbn [s_zh]. rewrite (same_sync _ _ H6), Hsync. cbn [Z.eqb]. msteps. cbn [s_zh].
  rewrite H3, Hcomp. cbn [app].
  rewrite (completions_loop_spec (zh_chroot (s_zh s)) _
    (map (item_calls (zh_chroot (s_zh s))) items)).
  - run. rewrite api_epilog_open by (simpl; by rewrite (same_closing _ _ H6)).
    eexists. split; [done|]. simpl. split_and!; [done..|].
    destruct H6. by split; simpl; congruence.
  - clear -Hok. induction Hok as [|i items [Hans [more Harr]] Hok IH]; constructor; [|done].
    eapply answer_ready; [done|by apply arrived_holds].
  - done.
  - simpl. by rewrite (same_chroot _ _ H6).
  - simpl. by rewrite H3, Hcomp.
Qed.

(** C4. Responses are matched in order.  If the packets waiting are the answers to the
    oldest requests, in the order of the requests, [zookeeper_process] calls the
    completion of each of them exactly once, in that order, with the values the packet
    encodes (or with the error of its header, and for a transaction the completions of
    its parts first); it leaves the other requests waiting, remembers the last positive
    zxid and settles the watches the requests asked for. *)
Theorem responses_in_order items rest s A :
  idle s A → usable (s_zh s) → roomy (length items) A → Forall item_ok items →
  zh_sent_requests (s_zh s) = map i_req items ++ rest →
  zh_to_process (s_zh s) = map i_packet items →
  ∃ zh', zookeeper_process 0 s =
    Ret (ZOK, record_calls (concat (map (item_calls (zh_chroot (s_zh s))) items))
                (mk_sys zh' (s_world s))) ∧
    zh_sent_requests zh' = rest ∧ zh_to_process zh' = [] ∧ zh_completions_to_process zh' = [] ∧
    zh_last_zxid zh' = zxid_after items (zh_last_zxid (s_zh s)) ∧
    watches_repr (zh_watches zh') (registry_after items A) ∧ untouched (s_zh s) zh'.
Proof.
  intros Hi Hu Hroom Hok Hsent Hq. rewrite process_begins by done.
  rewrite check_events_none by apply Hu. run.
  destruct (process_items items rest (mk_sys (add_ref (s_zh s) 1) (s_world s)) A)
    as (zh' & E & H1 & H2 & H3 & H4 & H5 & H6); try done; try apply Hi; try apply Hu.
  exists zh'. split; [exact E|]. split_and!; [done..|]. destruct H6 as [? ? ? ? ? Hr ? ? ?].
  split; try done. rewrite Hr. simpl. lia.
Qed.

(** Handles that differ only in what a read changes. *)
Lemma idle_read s A zh w :
  idle s A → ample (mk_sys zh w) →
  zh_watches zh = zh_watches (s_zh s) → zh_outstanding_sync zh = zh_outstanding_sync (s_zh s) →
  zh_completions_to_process zh = zh_completions_to_process (s_zh s) →
  zh_sent_requests zh = zh_sent_requests (s_zh s) → idle (mk_sys zh w) A.
Proof. intros [? ? ? ? ? ? ?] ? E1 E2 E3 E4. split; simpl; rewrite ?E1, ?E2, ?E3, ?E4; done. Qed.

Lemma with_input_eq zh : ∃ ib, with_input zh = set_zh_input_buffer ib zh.
Proof.
  unfold with_input. destruct (zh_input_buffer zh) eqn:E; [by eexists|..];
    exists (zh_input_buffer zh); by destruct zh.
Qed.
Lemma clock_tick_keeps w t w' :
  clock_tick w = (t, w') →
  w_alloc w' = w_alloc w ∧ w_in w' = w_in w ∧ w_calls w' = w_calls w.
Proof. unfold clock_tick. destruct (w_clock w); intros [= <- <-]; done. Qed.

(** The failing branch. *)
Lemma read_loss s A (f : Z → sys → outcome (Z * sys)) :
  idle s A → usable (s_zh s) → (∀ s, f ZCONNECTIONLOSS s = api_epilog ZCONNECTIONLOSS s) →
  ∃ zh' l, ('(rc, s) ← handle_socket_error_msg ZCONNECTIONLOSS s; f rc s) =
    Ret (ZCONNECTIONLOSS, record_calls
      (from_option (λ st, session_calls st l) [] (announced (s_zh s)) ++
       loss_calls ZCONNECTIONLOSS (s_zh s)) (mk_sys zh' (s_world s))) ∧
    everyone s A l ∧ zh_sent_requests zh' = [] ∧ zh_fd zh' = -1.
Proof.
  intros Hi Hu Hf. destruct (handle_error_spec s A ZCONNECTIONLOSS Hi)
    as (zh' & l & E & Hl & Hi' & H1 & H2 & H3 & H4 & H5 & H6 & H7 & H8);
    [unfold wf_int, in_s; lia|done| |apply Hu|apply Hu|].
  { by apply us_state_wf. }
  unfold handle_socket_error_msg. rewrite M_bind_eq, E. msteps.
  rewrite Hf, api_epilog_open; [|cbn [s_zh record_calls]; rewrite H8; apply Hu].
  by eexists _, l.
Qed.

(** C2. From the bytes to the callback.  While the answer to the oldest request is being
    received, wherever the socket cuts it, every call of [zookeeper_process] on a
    readable socket does one of three things.  It takes in some bytes and returns
    [ZNOTHING] without calling anyone; or the packet is complete and exactly the
    completion of that request is called, with the values sent, and the stream
    continues behind the packet; or the connection is lost, and then every watcher is
    told and every outstanding request, this one first, is failed exactly once. *)
Theorem response_end_to_end s A got later behind c h r more rest :
  idle s A → usable (s_zh s) → roomy 1 A → zh_to_process (s_zh s) = [] →
  zh_sent_requests (s_zh s) = c :: rest → answers c h r → sendable (answer_bytes h r ++ more) →
  input_state (s_zh s) got →
  got ++ w_in (s_world s) ++ later = frame (answer_bytes h r ++ more) ++ behind →
  (length got < length (frame (answer_bytes h r ++ more)))%nat →
  ∃ rc s', zookeeper_process ZOOKEEPER_READ s = Ret (rc, s') ∧
    ((rc = ZNOTHING ∧ w_calls (s_world s') = w_calls (s_world s) ∧
      zh_sent_requests (s_zh s') = c :: rest ∧
      ∃ got', input_state (s_zh s') got' ∧ got' ++ w_in (s_world s') = got ++ w_in (s_world s)) ∨
     (rc = ZOK ∧
      w_calls (s_world s') = w_calls (s_world s) ++ answer_calls (zh_chroot (s_zh s)) c h r ∧
      zh_sent_requests (s_zh s') = rest ∧ input_state (s_zh s') [] ∧
      frame (answer_bytes h r ++ more) ++ w_in (s_world s') = got ++ w_in (s_world s) ∧
      watches_repr (zh_watches (s_zh s')) (settled c (ReplyHeader_err h) A)) ∨
     (rc = ZCONNECTIONLOSS ∧ zh_sent_requests (s_zh s') = [] ∧ zh_fd (s_zh s') = -1 ∧
      ∃ l, everyone s A l ∧
        w_calls (s_world s') = w_calls (s_world s) ++
          from_option (λ st, session_calls st l) [] (announced (s_zh s)) ++
          loss_calls ZCONNECTIONLOSS (s_zh s))).
Proof.
  intros Hi Hu Hroom Hq Hsent Hans Hsend Hin E Hlt. rewrite process_begins by done.
  rewrite check_events_read by apply Hu.
  set (s1 := mk_sys (add_ref (s_zh s) 1) (s_world s)).
  pose proof (read_event_spec s1 got later _ behind (idle_ample _ _ Hi) Hin E Hsend Hlt) as Hread.
  inversion Hread as [b k j Hr Hk Hlt' Heq|b k j Harr Hg Heq|b k j Heq]; clear Hread.
  - run. rewrite api_epilog_open by (simpl; unfold with_input; by destruct (zh_input_buffer _); apply Hu).
    eexists _, _. split; [done|]. left. simpl.
    split_and!; [done|done|unfold with_input; by destruct (zh_input_buffer (add_ref _ _))|].
    exists (got ++ take k (w_in (s_world s))). split; [done|].
    by rewrite <-app_assoc, take_drop.
  - destruct (clock_tick _) as [t w'] eqn:Et. apply clock_tick_keeps in Et as (Wa & Wi & Wc). run.
    destruct (with_input_eq (add_ref (s_zh s) 1)) as [ib Hib]. unfold s1. cbn [s_zh]. rewrite Hib.
    set (s2 := mk_sys _ w').
    destruct (process_items [mk_item c h r b] rest s2 A) as (zh' & E2 & H1 & H2 & H3 & H4 & H5 & H6);
      try done; try apply Hi; try apply Hu.
    + unfold ample. simpl. rewrite Wa. apply Hi.
    + constructor; [|constructor]. split; [done|by exists more].
    + simpl. by rewrite Hq.
    + eexists _, _. split; [exact E2|]. right. left.
      change (w_in (s_world (record_calls _ _))) with (w_in w').
      split_and!; [done| |done| | |done].
      * unfold record_calls. cbn [s_world set_w_calls w_calls map concat].
        rewrite app_nil_r. simpl. by rewrite Wc.
      * change (input_state zh' []). unfold input_state. by rewrite (same_input _ _ H6).
      * rewrite Wi, <-Hg. unfold s1. cbn [s_world]. rewrite <-app_assoc. change (w_in (after_read k j _)) with (drop k (w_in (s_world s))).
        by rewrite take_drop.
  - destruct (with_input_eq (add_ref (s_zh s) 1)) as [ib Hib]. unfold s1 in *. cbn [s_zh s_world] in *.
    set (s2 := mk_sys _ _).
    match goal with |- context [handle_socket_error_msg _ _ ≫= λ '(rc, s), @?f rc s] =>
      destruct (read_loss s2 A f) as (zh' & l & E2 & Hl & H1 & H2) end.
    + unfold s2. rewrite Hib. apply (idle_read s A _ _ Hi); try done. apply Hi.
    + unfold s2. rewrite Hib. by split; apply Hu.
    + done.
    + eexists _, _. split; [exact E2|]. right. right.
      assert (announced (s_zh s2) = announced (s_zh s) ∧ loss_calls ZCONNECTIONLOSS (s_zh s2) =
        loss_calls ZCONNECTIONLOSS (s_zh s)) as [Ean Elo] by (unfold s2; by rewrite Hib).
      split_and!; [done..|]. exists l. split; [|by rewrite Ean, Elo].
      unfold everyone, s2 in *. cbn [s_zh] in *. by rewrite Hib in Hl.
Qed.
(** ** Packets that are not answers *)

(** The common part: the packet at the head of the queue, and its header. *)
Lemma process_header b h bs s :
  arrived b (enc_ReplyHeader h ++ bs) → wf_ReplyHeader h → ample s →
  ∃ ia, pending ia bs ∧ process_packet b s =
    (if ReplyHeader_xid h =? PING_XID then get_system_time;; mret Continue
     else if ReplyHeader_xid h =? WATCHER_EVENT_XID then process_watcher_event b ia
     else if ReplyHeader_xid h =? SET_WATCHES_XID then mret Continue
     else if ReplyHeader_xid h =? AUTH_XID then process_auth (ReplyHeader_err h)
     else process_response h b ia) s.
Proof.
  intros Hb Hh Ha. unfold process_packet.
  match goal with |- context [open_archive _ _ ≫= λ ia, parse _ _ ia ≫= ?f] =>
    destruct (arrived_header b h bs s f Hb Hh Ha) as (ia & -> & Hp) end.
  by exists ia.
Qed.

Lemma process_mismatch s A b h more c rest :
  idle s A → usable (s_zh s) → arrived b (enc_ReplyHeader h ++ more) → wf_ReplyHeader h →
  ¬ special (ReplyHeader_xid h) → zh_sent_requests (s_zh s) = c :: rest →
  c_xid c ≠ ReplyHeader_xid h →
  ∃ zh' l, process_packet b s =
    Ret (Leave ZRUNTIMEINCONSISTENCY, record_calls
      (from_option (λ st, session_calls st l) [] (announced (s_zh s)) ++
       loss_calls ZRUNTIMEINCONSISTENCY (s_zh s)) (mk_sys zh' (s_world s))) ∧
    everyone s A l ∧ zh_sent_requests zh' = [] ∧ zh_to_process zh' = [] ∧ zh_fd zh' = -1 ∧
    zh_close_requested zh' = zh_close_requested (s_zh s).
Proof.
  intros Hi Hu Hb Hh Hs Hsent Hx.
  destruct (process_header b h more s Hb Hh) as (ia & _ & ->); [apply Hi|].
  rewrite special_cases by done. unfold process_response. msteps. rewrite Hsent. msteps.
  rewrite (proj2 (Z.eqb_neq _ _)) by done. cbn [negb]. unfold handle_socket_error_msg. msteps.
  set (s2 := mk_sys _ _).
  destruct (handle_error_spec s2 A ZRUNTIMEINCONSISTENCY)
    as (zh' & l & E & Hl & Hi' & H1 & H2 & H3 & H4 & H5 & H6 & H7 & H8);
    [|unfold wf_int, in_s; lia|done| |apply Hu|apply Hu|].
  - apply (idle_read s A _ _ Hi); try done. apply Hi.
  - apply (us_state_wf _ Hu).
  - rewrite E. msteps. exists zh', l. split; [|done].
    unfold loss_calls. change (zh_auth_h (s_zh s2)) with (zh_auth_h (s_zh s)).
    change (zh_sent_requests (s_zh s2)) with (c :: rest). by rewrite Hsent.
Qed.

(** A response out of order.  If the answer that arrives is not that of the oldest
    request, [zookeeper_process] gives the connection up: it returns
    [ZRUNTIMEINCONSISTENCY], every watcher is told, and every outstanding request, the
    oldest included, is failed exactly once. *)
Theorem response_out_of_order s A b queue h more c rest :
  idle s A → usable (s_zh s) → zh_to_process (s_zh s) = b :: queue →
  arrived b (enc_ReplyHeader h ++ more) → wf_ReplyHeader h → ¬ special (ReplyHeader_xid h) →
  zh_sent_requests (s_zh s) = c :: rest → c_xid c ≠ ReplyHeader_xid h →
  ∃ zh' l, zookeeper_process 0 s =
    Ret (ZRUNTIMEINCONSISTENCY, record_calls
      (from_option (λ st, session_calls st l) [] (announced (s_zh s)) ++
       loss_calls ZRUNTIMEINCONSISTENCY (s_zh s)) (mk_sys zh' (s_world s))) ∧
    everyone s A l ∧ zh_sent_requests zh' = [] ∧ zh_to_process zh' = [] ∧ zh_fd zh' = -1.
Proof.
  intros Hi Hu Hq Hb Hh Hs Hsent Hx. rewrite process_begins by done.
  rewrite check_events_none by apply Hu. run. cbn [s_zh].
  change (zh_to_process (add_ref _ _)) with (zh_to_process (s_zh s)). rewrite Hq.
  cbn [packets_loop]. rewrite !M_bind_eq, modify_eq. run. set (s1 := mk_sys _ _).
  destruct (process_mismatch s1 A b h more c rest) as (zh' & l & E & Hl & H1 & H2 & H3 & H4);
    [by apply (idle_read s A _ _ Hi); try apply Hi|by split; apply Hu|done..|].
  rewrite M_bind_eq, E. run. rewrite M_ret_eq. run.
  rewrite api_epilog_open; [|cbn [s_zh record_calls]; rewrite H4; apply Hu].
  by exists (add_ref zh' (-1)), l.
Qed.

(** The packet of an event: its watchers are taken out of the tables and queued. *)
Lemma process_event b h evt path more s A :
  ample s → watches_repr (zh_watches (s_zh s)) A →
  arrived b (enc_ReplyHeader h ++ enc_WatcherEvent evt ++ more) → wf_ReplyHeader h →
  ReplyHeader_xid h = WATCHER_EVENT_XID → wf_WatcherEvent evt → WatcherEvent_path evt = Some path →
  WatcherEvent_type evt ≠ ZOO_SESSION_EVENT →
  ∃ w l c, process_packet b s = Ret (Continue, mk_sys
      (set_zh_completions_to_process
         (zh_completions_to_process (s_zh s) ++ [set_c_watcher_result (Some l) (set_c_buffer (Some b) c)])
         (set_zh_watches w (s_zh s))) (s_world s)) ∧
    NoDup l ∧
    (∀ wo, wo ∈ l ↔ ∃ t, t ∈ event_tables (WatcherEvent_type evt) ∧ wo ∈ watching A t path) ∧
    watches_repr w (λ t, if decide (t ∈ event_tables (WatcherEvent_type evt))
                         then delete path (A t) else A t).
Proof.
  intros Ha HA Hb Hh Hx He Hp Ht.
  destruct (process_header b h _ s Hb Hh Ha) as (ia & Hia & ->). rewrite Hx. run.
  cbn [Pos.eqb]. unfold process_watcher_event. rewrite M_bind_eq.
  destruct (parse_ok deserialize_WatcherEvent evt _ junk_WatcherEvent ia _ s
    (deserialize_WatcherEvent_reads _ He) Hia Ha) as (ia2 & -> & _). run.
  unfold create_completion_entry. rewrite M_bind_eq, do_create_ok by done. run. rewrite Hp. cbn iota.
  destruct (collect_event_spec _ (zh_watches (s_zh s)) A (WatcherEvent_type evt) path HA Ht)
    as (w & l & E & Hnd & Hl & Hw).
  unfold zh_collectWatchers. msteps. rewrite (allocating_ok _ (w, l)); [|done|by rewrite E].
  unfold queue_completion. msteps. eexists w, l, _. by split_and!.
Qed.

(** C19. Node events.  A watcher event for a path makes [zookeeper_process] call exactly
    the watchers registered for it in the tables of its type, each once, with the type,
    the state and the path as the client names it, and removes exactly these
    registrations; requests and their answers are not disturbed. *)
Theorem node_event_delivered s A b h evt path more :
  idle s A → usable (s_zh s) → zh_to_process (s_zh s) = [b] →
  arrived b (enc_ReplyHeader h ++ enc_WatcherEvent evt ++ more) → wf_ReplyHeader h →
  ReplyHeader_xid h = WATCHER_EVENT_XID → wf_WatcherEvent evt → WatcherEvent_path evt = Some path →
  WatcherEvent_type evt ≠ ZOO_SESSION_EVENT →
  ∃ zh' l, zookeeper_process 0 s =
    Ret (ZOK, record_calls
      ((λ wo, CallWatcher (mk_callback (wo_watcher wo) (WatcherEvent_type evt)
                (WatcherEvent_state evt) (fst (sub_string (zh_chroot (s_zh s)) path []))
                (wo_context wo))) <$> l) (mk_sys zh' (s_world s))) ∧
    NoDup l ∧
    (∀ wo, wo ∈ l ↔ ∃ t, t ∈ event_tables (WatcherEvent_type evt) ∧ wo ∈ watching A t path) ∧
    watches_repr (zh_watches zh')
      (λ t, if decide (t ∈ event_tables (WatcherEvent_type evt)) then delete path (A t) else A t) ∧
    zh_sent_requests zh' = zh_sent_requests (s_zh s) ∧ zh_to_process zh' = [] ∧
    zh_completions_to_process zh' = [] ∧ zh_servers zh' = zh_servers (s_zh s).
Proof.
  intros Hi Hu Hq Hb Hh Hx He Hp Ht. rewrite process_begins by done.
  rewrite check_events_none by apply Hu. run. cbn [s_zh].
  change (zh_to_process (add_ref _ _)) with (zh_to_process (s_zh s)). rewrite Hq.
  cbn [packets_loop]. rewrite !M_bind_eq, modify_eq. run. set (s1 := mk_sys _ _).
  destruct (process_event b h evt path more s1 A) as (w & l & c & E & Hnd & Hl & Hw);
    [apply Hi|apply Hi|done..|].
  assert (Forall (λ wo, wo_watcher wo ≠ 0) l) as Hfn.
  { apply Forall_forall. intros wo (t & _ & Hin)%Hl. by apply (idle_watchers _ _ Hi t path). }
  rewrite M_bind_eq, E. run. rewrite M_ret_eq. run.
  unfold process_completions_if_async, process_completions; single_threaded. msteps. cbn [s_zh].
  change (zh_outstanding_sync _) with (zh_outstanding_sync (s_zh s)).
  rewrite (idle_async _ _ Hi). cbn [Z.eqb]. msteps. cbn [s_zh zh_completions_to_process set_zh_completions_to_process].
  change (zh_completions_to_process (s_zh s1)) with (zh_completions_to_process (s_zh s)).
  rewrite (idle_completions _ _ Hi). cbn [app]. set (s2 := mk_sys _ _).
  pose proof (event_ready (zh_chroot (s_zh s)) c b h evt path l more (arrived_holds _ _ Hb) Hh Hx He Hp Hfn) as Hready.
  rewrite (proj2 (Z.eqb_neq (WatcherEvent_type evt) _)) in Hready by done.
  rewrite (completions_loop_spec (zh_chroot (s_zh s)) _ _ s2
    (List.Forall2_cons _ _ Hready (List.Forall2_nil _))); [|apply Hi|done|done].
  run. rewrite api_epilog_open by apply Hu. exists (add_ref (s_zh (no_completions s2)) (-1)), l.
  cbn [concat]. rewrite app_nil_r. by split_and!.
Qed.

(** The header of a packet of 12 to 15 bytes, with an archive that has the length of
    the packet or four more. *)
Lemma short_header (bs : list byte) old :
  (12 ≤ length bs < 16)%nat →
  deserialize_ReplyHeader old (mk_buff (Z.of_nat (length bs) + 4) 0 (Some bs) []) = UB ∧
  ∃ v off, deserialize_ReplyHeader old (mk_buff (Z.of_nat (length bs)) 0 (Some bs) []) =
    Ret (- E2BIG, v, mk_buff (Z.of_nat (length bs)) off (Some bs) []).
Proof.
  intros Hn. do 12 (destruct bs as [|? bs]; [simpl in Hn; lia|]).
  do 4 (destruct bs as [|? bs]; [split; [reflexivity|eexists _, _; reflexivity]|]).
  simpl in Hn. lia.
Qed.

(** A short packet.  The length given to the archive of a packet is [curr_offset],
    four more than the packet has.  For a packet of 12 to 15 bytes, too short for a
    reply header, the bounds checks of the archive therefore pass and the header is read
    past the end of the block, which is undefined; with the length of the packet the
    read would have been refused. *)
Theorem short_packet_overrun s b bs :
  ample s → arrived b bs → (12 ≤ length bs < 16)%nat →
  process_packet b s = UB ∧
  ∃ v ia', (ia ← open_archive b (bl_len b);
            reading deserialize_ReplyHeader junk_ReplyHeader ia) s = Ret (- E2BIG, v, ia', s).
Proof.
  intros Ha (Hb & Hl & Ho & _) Hn. unfold process_packet, parse, open_archive.
  destruct (short_header bs junk_ReplyHeader Hn) as [Hub (v & off & Hbig)].
  rewrite Ho, Hl, Hb. split.
  - rewrite M_bind_eq, (allocating_ok _ (mk_buff (Z.of_nat (length bs) + 4) 0 (Some bs) [])) by done.
    run. rewrite !M_bind_eq. unfold reading, allocating. rewrite Ha.
    change (set_bs_alloc [] (mk_buff ?n 0 (Some bs) [])) with (mk_buff n 0 (Some bs) []).
    by rewrite Hub.
  - exists v, (mk_buff (Z.of_nat (length bs)) off (Some bs) []).
    rewrite M_bind_eq, (allocating_ok _ (mk_buff (Z.of_nat (length bs)) 0 (Some bs) [])) by done.
    run. unfold reading. apply allocating_ok; [done|].
    change (set_bs_alloc [] (mk_buff ?n 0 (Some bs) [])) with (mk_buff n 0 (Some bs) []).
    by rewrite Hbig.
Qed.
End reading.

(** ** Witnesses *)
Definition sample_hdr (xid : Z) : ReplyHeader := mk_ReplyHeader xid 500 0.
Definition full_packet (bs : list byte) : buffer_list :=
  mk_bl (Some bs) (Z.of_nat (length bs)) (Z.of_nat (length bs) + 4).
Definition sample_response : response := RMulti [SubOk 2 0 BVoid].
Definition sample_items : list item :=
  [mk_item sample_delete (sample_hdr 7) (RBody BVoid)
     (full_packet (answer_bytes (sample_hdr 7) (RBody BVoid)));
   mk_item sample_multi (sample_hdr 8) sample_response
     (full_packet (answer_bytes (sample_hdr 8) sample_response))].
Definition sample_arrived : sys :=
  mk_sys (set_zh_to_process (map i_packet sample_items) sample_handle) sample_world.

Lemma sample_hdr_wf xid : wf_int xid → wf_ReplyHeader (sample_hdr xid).
Proof. intros Hx. split_and!; [done|unfold wf_long, in_s; simpl; lia|unfold wf_int, in_s; simpl; lia]. Qed.
Lemma sample_delete_answered : answers sample_delete (sample_hdr 7) (RBody BVoid).
Proof.
  destruct (sample_request_ok sample_delete) as (Hc & Hx & Hs); [by left|].
  split_and!; [done|by apply sample_hdr_wf|done|done|]. intros _. by split_and!.
Qed.
Lemma sample_multi_answered : answers sample_multi (sample_hdr 8) sample_response.
Proof.
  destruct (sample_request_ok sample_multi) as (Hc & Hx & Hs); [by right; left|].
  split_and!; [done|by apply sample_hdr_wf|done|done|]. intros _. split; [done|]. split; [done|].
  constructor; [|constructor]. split; [by inversion Hc as [? _ _ Hl]; inversion Hl|].
  split_and!; try done; unfold wf_int, in_s; lia.
Qed.
Lemma full_packet_arrived bs : Z.of_nat (length bs) + 4 ≤ INT_MAX → arrived (full_packet bs) bs.
Proof. intros Hl. by split_and!. Qed.
Lemma sample_items_ok : Forall item_ok sample_items.
Proof.
  apply Forall_cons; split; [|apply Forall_singleton]; split;
    [apply sample_delete_answered| |apply sample_multi_answered|];
    exists []; rewrite app_nil_r; apply full_packet_arrived; vm_compute; discriminate.
Qed.
Lemma sample_usable zh : zh_servers zh = sample_servers → zh_close_requested zh = 0 → usable zh.
Proof.
  intros Hs Hc. split; unfold zh_fd, zh_state; rewrite ?Hs; [done|by vm_compute|done| |done].
  apply vec_wf. simpl. lia.
Qed.
Lemma sample_roomy n : (n ≤ 100)%nat → roomy n sample_registry.
Proof.
  intros Hn t. assert (size (sample_registry t) ≤ 1)%nat; [|lia].
  destruct t; cbn [sample_registry]; rewrite ?map_size_singleton, ?map_size_empty; lia.
Qed.
Lemma sample_calls :
  concat (map (item_calls None) sample_items) =
    [CallVoid 11 0 110; CallVoid 11 0 110; CallVoid 12 0 120].
Proof. reflexivity. Qed.

Lemma responses_in_order_witness :
  ∃ zh', @zookeeper_process sample_host zero_locals (@st_adaptor sample_host) 0 sample_arrived =
    Ret (ZOK, record_calls [CallVoid 11 0 110; CallVoid 11 0 110; CallVoid 12 0 120]
                (mk_sys zh' sample_world)) ∧
    zh_sent_requests zh' = [] ∧ zh_last_zxid zh' = 500.
Proof.
  destruct (@responses_in_order sample_host zero_locals sample_items [] sample_arrived sample_registry)
    as (zh' & E & H1 & _ & _ & H4 & _).
  - apply sample_idle; [done..|]. apply Forall_forall. exact sample_request_ok.
  - by apply sample_usable.
  - apply sample_roomy. simpl. lia.
  - apply sample_items_ok.
  - done.
  - done.
  - change (zh_chroot (s_zh sample_arrived)) with (@None cstring) in E.
    rewrite sample_calls in E. exists zh'. split_and!; assumption.
Defined.

Definition sample_coming : sys :=
  mk_sys sample_handle (set_w_in (take 9 (frame (answer_bytes (sample_hdr 7) (RBody BVoid)))) sample_world).
Lemma response_end_to_end_witness :
  ∃ rc s', @zookeeper_process sample_host zero_locals (@st_adaptor sample_host) ZOOKEEPER_READ sample_coming = Ret (rc, s') ∧
    (rc = ZNOTHING ∧ w_calls (s_world s') = [] ∨ rc = ZOK ∧ w_calls (s_world s') = [CallVoid 11 0 110] ∨
     rc = ZCONNECTIONLOSS ∧ zh_sent_requests (s_zh s') = []).
Proof.
  destruct (@response_end_to_end sample_host zero_locals sample_coming sample_registry []
    (drop 9 (frame (answer_bytes (sample_hdr 7) (RBody BVoid)))) [] sample_delete (sample_hdr 7)
    (RBody BVoid) [] [sample_multi]) as (rc & s' & E & Hcase).
  - apply sample_idle; [done..|]. apply Forall_forall. exact sample_request_ok.
  - by apply sample_usable.
  - apply sample_roomy. lia.
  - done.
  - done.
  - apply sample_delete_answered.
  - split; [done|]. vm_compute. discriminate.
  - done.
  - rewrite !app_nil_r. cbn [app]. apply take_drop.
  - vm_compute. lia.
  - exists rc, s'. split; [exact E|]. destruct Hcase as [(? & ? & _)|[(? & Hc & _)|(? & ? & _)]].
    + by left.
    + right; left. split; [done|exact Hc].
    + right; right. by split.
Defined.

(** A packet that answers request 9, which was not sent. *)
Definition sample_disorder : sys :=
  mk_sys (set_zh_to_process [full_packet (enc_ReplyHeader (sample_hdr 9))] sample_handle) sample_world.
Lemma response_out_of_order_witness :
  ∃ zh' l, @zookeeper_process sample_host zero_locals (@st_adaptor sample_host) 0 sample_disorder =
    Ret (ZRUNTIMEINCONSISTENCY, record_calls (session_calls ZOO_CONNECTING_STATE l ++
      [CallAuth 13 ZRUNTIMEINCONSISTENCY 130; CallVoid 11 ZRUNTIMEINCONSISTENCY 110;
       CallVoid 11 ZRUNTIMEINCONSISTENCY 110; CallVoid 12 ZRUNTIMEINCONSISTENCY 120])
      (mk_sys zh' sample_world)) ∧ everyone sample_disorder sample_registry l ∧ zh_fd zh' = -1.
Proof.
  destruct (@response_out_of_order sample_host zero_locals sample_disorder sample_registry
    (full_packet (enc_ReplyHeader (sample_hdr 9))) [] (sample_hdr 9) [] sample_delete [sample_multi])
    as (zh' & l & E & Hl & _ & _ & Hfd).
  - apply sample_idle; [done..|]. apply Forall_forall. exact sample_request_ok.
  - by apply sample_usable.
  - done.
  - rewrite app_nil_r. apply full_packet_arrived. vm_compute. discriminate.
  - by apply sample_hdr_wf.
  - unfold special. rewrite !elem_of_cons, elem_of_nil. simpl. lia.
  - done.
  - done.
  - change (announced (s_zh sample_disorder)) with (announced (s_zh sample_sys)) in E.
    change (loss_calls ?rc (s_zh sample_disorder)) with (loss_calls rc (s_zh sample_sys)) in E.
    rewrite sample_announced, sample_loss in E. exists zh', l. split_and!; assumption.
Defined.

(** The node "/a" has changed. *)
Definition sample_event : WatcherEvent := mk_WatcherEvent CHANGED_EVENT_DEF 3 (Some (lit "/a")).
Definition sample_event_packet : buffer_list :=
  full_packet (enc_ReplyHeader (sample_hdr WATCHER_EVENT_XID) ++ enc_WatcherEvent sample_event).
Definition sample_changed : sys :=
  mk_sys (set_zh_to_process [sample_event_packet] sample_handle) sample_world.
Lemma node_event_delivered_witness :
  ∃ zh' l, @zookeeper_process sample_host zero_locals (@st_adaptor sample_host) 0 sample_changed =
      Ret (ZOK, record_calls ((λ wo, CallWatcher (mk_callback (wo_watcher wo) CHANGED_EVENT_DEF 3
        (Some (lit "/a")) (wo_context wo))) <$> l) (mk_sys zh' sample_world)) ∧
    (∀ wo, wo ∈ l ↔ ∃ t, t ∈ [NodeTable; ExistTable] ∧ wo ∈ watching sample_registry t (lit "/a")).
Proof.
  destruct (@node_event_delivered sample_host zero_locals sample_changed sample_registry
    sample_event_packet (sample_hdr WATCHER_EVENT_XID) sample_event (lit "/a") [])
    as (zh' & l & E & _ & Hl & _).
  - apply sample_idle; [done..|]. apply Forall_forall. exact sample_request_ok.
  - by apply sample_usable.
  - done.
  - rewrite app_nil_r. apply full_packet_arrived. vm_compute. discriminate.
  - by apply sample_hdr_wf.
  - done.
  - split_and!; [done|done|]. split; [by repeat constructor|done].
  - done.
  - done.
  - exists zh', l. split; [exact E|exact Hl].
Defined.

Lemma short_packet_overrun_witness :
  @process_packet sample_host zero_locals (@st_adaptor sample_host) (full_packet (replicate 13 Byte.x00)) sample_sys = UB.
Proof.
  apply (@short_packet_overrun sample_host zero_locals sample_sys (full_packet (replicate 13 Byte.x00))
    (replicate 13 Byte.x00)); [done| |simpl; lia].
  apply full_packet_arrived. vm_compute. discriminate.
Defined.
