(* ===== verification/EstablishTheorems.v ===== *)
(** * Theorems about the handshake

    What [finish_handshake] makes of the server's answer: a session resumed with its
    watches and authentications, or a session that has expired. *)

From S2P Require Import Prelude RecordIO RecordIOFacts Jute JuteSpec JuteTheorems Path.
From S2P Require Import PathFacts Hashtable HashtableFacts Watchers WatchersFacts.
From S2P Require Import WatchersTheorems Addrvec AddrvecFacts Handshake Transport.
From S2P Require Import TransportFacts Handle Session SessionFacts SessionTheorems.
Local Open Scope Z_scope.

Section packets.
Context `{Host, Locals}.

Lemma queue_bytes_ok front bs s :
  ample s → bs ≠ [] →
  queue_bytes front (Some bs) (Z.of_nat (length bs)) s =
    Ret (ZOK, mk_sys (set_zh_to_send (queue_at front (queued bs) (zh_to_send (s_zh s))) (s_zh s))
                     (s_world s)).
Proof.
  intros Ha Hne. unfold queue_bytes. rewrite M_bind_eq.
  rewrite (allocating_ok _ (Some (queued bs))); [by msteps|done|].
  unfold allocate_buffer, queued. cbn [alloc negb]. destruct bs; [done|].
  by rewrite (proj2 (Z.eqb_neq _ 0)) by (simpl; lia).
Qed.

(** The end of every function that sends a packet: marshalled, then queued. *)
Lemma marshal_queue front f bs s :
  appends f bs → Z.of_nat (length bs) ≤ oa_limit → bs ≠ [] → ample s →
  ∃ oa, marshal f s = Ret (0, oa, s) ∧
    queue_bytes front (get_buffer oa) (get_buffer_len oa) s =
      Ret (ZOK, mk_sys (set_zh_to_send (queue_at front (queued bs) (zh_to_send (s_zh s))) (s_zh s))
                       (s_world s)).
Proof.
  intros Hf Hl Hne Ha. destruct (marshal_ok f bs s Hf Hl Ha) as (oa & E & Hb & Hn).
  exists oa. split; [done|]. rewrite Hb, Hn. by apply queue_bytes_ok.
Qed.

(** ** Authentications *)
Definition auth_bytes (a : auth_info) : list byte :=
  enc_RequestHeader (mk_RequestHeader AUTH_XID 100) ++
  enc_AuthPacket (mk_AuthPacket 0 (ai_scheme a) (ai_auth a)).
Definition auth_ok (a : auth_info) : Prop :=
  wf_string (ai_scheme a) ∧ wf_buffer (ai_auth a) ∧ Z.of_nat (length (auth_bytes a)) ≤ oa_limit.

Lemma header_appends xid type :
  wf_int xid → wf_int type →
  appends (serialize_RequestHeader (mk_RequestHeader xid type))
    (enc_RequestHeader (mk_RequestHeader xid type)).
Proof. intros Hx Ht. by apply serialize_RequestHeader_appends. Qed.
Lemma header_app_ne xid type bs : enc_RequestHeader (mk_RequestHeader xid type) ++ bs ≠ [].
Proof.
  intros E%(f_equal length). unfold enc_RequestHeader, enc_int in E.
  rewrite !length_app, !length_be_split in E. simpl in E. lia.
Qed.

Lemma send_info_packet_spec a s :
  ample s → auth_ok a →
  send_info_packet a s =
    Ret (ZOK, mk_sys (set_zh_to_send (queued (auth_bytes a) :: zh_to_send (s_zh s)) (s_zh s))
                     (s_world s)).
Proof.
  intros Ha (Hs & Hb & Hl). unfold send_info_packet.
  destruct (marshal_queue true _ _ s (ser_then_appends _ _ _ _
    (header_appends AUTH_XID 100 ltac:(done) ltac:(done))
    (serialize_AuthPacket_appends (mk_AuthPacket 0 (ai_scheme a) (ai_auth a)) ltac:(done)))
    Hl (header_app_ne _ _ _) Ha) as (oa & E & Eq).
  rewrite M_bind_eq, E. run. exact Eq.
Qed.
Lemma send_infos_spec auths rc s :
  ample s → Forall auth_ok auths →
  ∃ rc', send_infos auths rc s =
      Ret (rc', mk_sys (set_zh_to_send (map queued (reverse (map auth_bytes auths)) ++
                          zh_to_send (s_zh s)) (s_zh s)) (s_world s)) ∧
    (rc' = rc ∨ rc' = ZOK).
Proof.
  intros Ha Hok. revert rc s Ha. induction Hok as [|a auths Hok1 Hok IH]; intros rc s Ha.
  - exists rc. split; [|by left]. simpl. destruct s as [zh w]. by destruct zh.
  - cbn [send_infos map]. rewrite M_bind_eq, send_info_packet_spec by done. run.
    destruct (IH ZOK (mk_sys (set_zh_to_send (queued (auth_bytes a) :: zh_to_send (s_zh s)) (s_zh s))
      (s_world s)) Ha) as (rc' & -> & Hrc). exists rc'. split; [|naive_solver].
    rewrite reverse_cons, map_app, <-app_assoc. done.
Qed.
Lemma send_auth_info_spec s :
  ample s → Forall auth_ok (zh_auth_h (s_zh s)) →
  send_auth_info s =
    Ret (ZOK, mk_sys (set_zh_to_send (map queued (reverse (map auth_bytes (zh_auth_h (s_zh s)))) ++
                        zh_to_send (s_zh s)) (s_zh s)) (s_world s)).
Proof.
  intros Ha Hok. unfold send_auth_info. msteps.
  destruct (send_infos_spec (zh_auth_h (s_zh s)) 0 s Ha Hok) as (rc & E & Hrc).
  destruct (zh_auth_h (s_zh s)) as [|a l].
  - simpl. destruct s as [zh w]. by destruct zh.
  - rewrite M_bind_eq, E. msteps. by replace rc with 0 by naive_solver.
Qed.
End packets.

(** ** Watches *)

(** The paths of a table, each once. *)
Definition lists_paths (m : gmap cstring watcher_list) (v : vector (option cstring)) : Prop :=
  ∃ ks, v = mk_vector (Z.of_nat (length ks)) (Some (Some <$> ks)) ∧ NoDup ks ∧
    ∀ k, k ∈ ks ↔ is_Some (m !! k).
(** The request that asks the server to set the watches [A] again. *)
Definition watches_request (A : registry) (zxid : Z) (req : SetWatches) : Prop :=
  SetWatches_relativeZxid req = zxid ∧ lists_paths (A NodeTable) (SetWatches_dataWatches req) ∧
  lists_paths (A ExistTable) (SetWatches_existWatches req) ∧
  lists_paths (A ChildTable) (SetWatches_childWatches req).
Definition set_watches_bytes (req : SetWatches) : list byte :=
  enc_RequestHeader (mk_RequestHeader SET_WATCHES_XID 101) ++ enc_SetWatches req.
Definition no_watches (A : registry) : Prop := ∀ t, A t = ∅.
Global Instance no_watches_dec A : Decision (no_watches A).
Proof.
  refine (cast_if (decide (A NodeTable = ∅ ∧ A ExistTable = ∅ ∧ A ChildTable = ∅))).
  - abstract (intros []; naive_solver).
  - abstract (intros Ha; naive_solver).
Defined.
(** The watches can be sent: their paths are strings, and fit in a packet. *)
Definition watches_sendable (A : registry) (zxid : Z) : Prop :=
  wf_long zxid ∧ (∀ t k, is_Some (A t !! k) → wf_string (Some k)) ∧
  ∀ req, watches_request A zxid req → Z.of_nat (length (set_watches_bytes req)) ≤ oa_limit.

Lemma size_lists (m : gmap cstring watcher_list) (ks : list cstring) :
  NoDup ks → (∀ k, k ∈ ks ↔ is_Some (m !! k)) → size m = length ks.
Proof.
  intros Hnd Hks. rewrite <-length_map_to_list, <-(length_fmap fst).
  apply Permutation_length, NoDup_Permutation; [apply NoDup_fst_map_to_list|done|].
  intros k. rewrite Hks, list_elem_of_fmap. split.
  - intros ([k' l] & -> & Hin%elem_of_map_to_list). by eexists.
  - intros [l Hl]. exists (k, l). by rewrite elem_of_map_to_list.
Qed.

Section watches.
Context `{Host, Locals}.

Lemma watched_spec t s A :
  ample s → watches_repr (zh_watches (s_zh s)) A →
  ∃ v, watched t s = Ret (v, s) ∧ lists_paths (A t) v ∧ v_count v = Z.of_nat (size (A t)).
Proof.
  intros Ha HA. destruct (HA t) as [Ht Hroom].
  destruct (collect_keys_spec _ _ Ht Hroom) as (ks & E & Hnd & Hks).
  exists (mk_vector (Z.of_nat (size (A t))) (Some (Some <$> ks))). split_and!; [|by exists ks; rewrite (size_lists _ ks)|done].
  unfold watched. msteps.
  rewrite (allocating_ok _ (Z.of_nat (size (A t)), Some <$> ks)); [by msteps|done|by rewrite E].
Qed.

Lemma lists_paths_wf m v :
  lists_paths m v → Z.of_nat (size m) ≤ INT_MAX → (∀ k, is_Some (m !! k) → wf_string (Some k)) →
  wf_String_vector v.
Proof.
  intros (ks & -> & Hnd & Hks) Hn Hwf. rewrite (size_lists m ks) in Hn by done.
  split; [by rewrite length_fmap|]. split; [done|].
  apply Forall_fmap, Forall_forall. intros k Hk. by apply Hwf, Hks.
Qed.

Lemma empty_counts A :
  (Z.of_nat (size (A NodeTable)) =? 0) && (Z.of_nat (size (A ExistTable)) =? 0) &&
  (Z.of_nat (size (A ChildTable)) =? 0) = bool_decide (no_watches A).
Proof.
  assert (∀ m : gmap cstring watcher_list, (Z.of_nat (size m) =? 0) = bool_decide (m = ∅)) as Hm.
  { intros m. destruct (Z.eqb_spec (Z.of_nat (size m)) 0) as [E|E]; symmetry.
    - apply bool_decide_eq_true. apply map_size_empty_inv. lia.
    - apply bool_decide_eq_false. intros ->. by rewrite map_size_empty in E. }
  rewrite !Hm. rewrite <-!bool_decide_and. apply bool_decide_ext. split.
  - intros [[? ?] ?] []; done.
  - intros Ha. split_and!; apply Ha.
Qed.

Lemma send_set_watches_spec s A :
  ample s → watches_repr (zh_watches (s_zh s)) A → watches_sendable A (zh_last_zxid (s_zh s)) →
  ∃ req, watches_request A (zh_last_zxid (s_zh s)) req ∧
    send_set_watches s = Ret (ZOK, mk_sys (set_zh_to_send
      ((if decide (no_watches A) then [] else [queued (set_watches_bytes req)]) ++
       zh_to_send (s_zh s)) (s_zh s)) (s_world s)).
Proof.
  intros Ha HA (Hz & Hp & Hl). unfold send_set_watches. msteps.
  destruct (watched_spec NodeTable s A Ha HA) as (d & Ed & Hd & Nd).
  destruct (watched_spec ExistTable s A Ha HA) as (e & Ee & He & Ne).
  destruct (watched_spec ChildTable s A Ha HA) as (c & Ec & Hc & Nc).
  rewrite ?M_bind_eq, Ed. run. rewrite ?M_bind_eq, Ee. run. rewrite ?M_bind_eq, Ec. run.
  rewrite Nd, Ne, Nc, empty_counts.
  set (req := mk_SetWatches (zh_last_zxid (s_zh s)) d e c). exists req.
  assert (watches_request A (zh_last_zxid (s_zh s)) req) as Hreq by by split_and!.
  split; [done|]. case_bool_decide as Hno; [rewrite decide_True by done|rewrite decide_False by done].
  - msteps. destruct s as [zh w]. by destruct zh.
  - assert (wf_SetWatches req) as Hwf.
    { assert (∀ t, Z.of_nat (size (A t)) ≤ INT_MAX) as Hsz.
      { intros t. destruct (HA t) as [_ Hr]. unfold room in Hr. lia. }
      split_and!; [done|..]; eapply lists_paths_wf; eauto. }
    destruct (marshal_queue true _ _ s (ser_then_appends _ _ _ _
      (header_appends SET_WATCHES_XID 101 ltac:(done) ltac:(done))
      (serialize_SetWatches_appends req Hwf)) (Hl req Hreq) (header_app_ne _ _ _) Ha) as (oa & E & Eq).
    rewrite M_bind_eq, E. run. unfold unless_failed. run. rewrite M_bind_eq.
    unfold queue_front_buffer_bytes. rewrite Eq. by msteps.
Qed.
End watches.

(** ** The end of the handshake *)

(** The server's answer [p] is complete in the primer buffer. *)
Definition handshake_bytes (p : prime_struct) : list byte :=
  enc_int (ps_len p) ++ enc_ConnectResponse (to_ConnectResponse p) ++ [ps_readOnly p].
Definition answered (zh : zhandle) (p : prime_struct) : Prop :=
  bl_buffer (zh_primer_buffer zh) = Some (handshake_bytes p) ∧
  in_s 32 (ps_len p) ∧ wf_ConnectResponse (to_ConnectResponse p) ∧ length (ps_passwd p) = 16%nat.
(** The session the client wants to resume, 0 for none; the state it gets. *)
Definition wanted_session (zh : zhandle) : Z :=
  if zh_seen_rw_server_before zh =? 0 then 0 else zh_client_id zh.
Definition read_only (p : prime_struct) : bool := negb (bool_decide (ps_readOnly p = Byte.x00)).
Definition joined_state (p : prime_struct) : Z :=
  if read_only p then ZOO_READONLY_STATE else ZOO_CONNECTED_STATE.

(** The handle with what the answer says. *)
Definition noted (p : prime_struct) (zh : zhandle) : zhandle :=
  set_zh_seen_rw_server_before
    (Z.lor (zh_seen_rw_server_before zh) (if read_only p then 0 else 1)) (set_zh_primer_storage p zh).
Definition joined (p : prime_struct) (zh : zhandle) : zhandle :=
  on_servers (with_reconfig 0) (on_servers (sv_set_state (joined_state p))
    (set_zh_passwd (ps_passwd p) (set_zh_client_id (ps_sessionId p)
      (set_zh_recv_timeout (ps_timeOut p) (noted p zh))))).

Section establish.
Context `{Host, Locals}.

(** The two ways a handshake ends. *)
Lemma finish_handshake_cases s p :
  answered (s_zh s) p →
  finish_handshake s =
    if negb (wanted_session (s_zh s) =? 0) && negb (wanted_session (s_zh s) =? ps_sessionId p)
    then handle_socket_error_msg ZSESSIONEXPIRED
           (mk_sys (on_servers (sv_set_state ZOO_EXPIRED_SESSION_STATE) (noted p (s_zh s))) (s_world s))
    else (send_set_watches;; send_auth_info;; set_zh_input_buffer :=! NoInput;;
          state ← get zh_state; queue_session_event state;;
          set_zh_input_buffer :=! NoInput;; mret ZOK) (mk_sys (joined p (s_zh s)) (s_world s)).
Proof.
  intros (Hb & Hl & Hw & Hp). unfold finish_handshake. msteps. rewrite Hb. rewrite M_bind_eq.
  unfold lift. rewrite (prime_response_reads _ p Hl Hw Hp). msteps. fold (read_only p).
  cbn [s_zh]. change (zh_seen_rw_server_before (set_zh_primer_storage p (s_zh s)))
    with (zh_seen_rw_server_before (s_zh s)).
  change (zh_client_id (set_zh_primer_storage p (s_zh s))) with (zh_client_id (s_zh s)).
  fold (wanted_session (s_zh s)). destruct (_ && _).
  - unfold set_state. by msteps.
  - unfold set_state. rewrite !M_bind_eq. msteps. done.
Qed.

Lemma idle_handle s A zh :
  idle s A →
  zh_watches zh = zh_watches (s_zh s) → zh_outstanding_sync zh = zh_outstanding_sync (s_zh s) →
  zh_completions_to_process zh = zh_completions_to_process (s_zh s) →
  zh_sent_requests zh = zh_sent_requests (s_zh s) → idle (mk_sys zh (s_world s)) A.
Proof. intros [? ? ? ? ? ? ?] E1 E2 E3 E4. split; simpl; rewrite ?E1, ?E2, ?E3, ?E4; done. Qed.

(** C23. A session that has expired.  If the client asked to resume a session and the
    server answers with another one, the handle goes to the expired state for good:
    every watcher is told so, every pending authentication and every outstanding
    request is failed with [ZSESSIONEXPIRED], and from then on [zookeeper_process]
    refuses to do anything. *)
Theorem session_expired s A p :
  idle s A → answered (s_zh s) p → wanted_session (s_zh s) ≠ 0 →
  wanted_session (s_zh s) ≠ ps_sessionId p →
  av_wf (sv_addrs (zh_servers (s_zh s))) → elems (sv_addrs (zh_servers (s_zh s))) ≠ [] →
  ∃ zh' l, finish_handshake s =
    Ret (ZSESSIONEXPIRED, record_calls
      (session_calls ZOO_EXPIRED_SESSION_STATE l ++ loss_calls ZSESSIONEXPIRED (s_zh s))
      (mk_sys zh' (s_world s))) ∧
    everyone s A l ∧ zh_state zh' = ZOO_EXPIRED_SESSION_STATE ∧ zh_fd zh' = -1 ∧
    zh_sent_requests zh' = [] ∧ zh_to_send zh' = [] ∧
    ∀ events w, zookeeper_process events (mk_sys zh' w) = Ret (ZINVALIDSTATE, mk_sys zh' w).
Proof.
  intros Hi Hp Hne Hdiff Hav Hel. rewrite (finish_handshake_cases s p Hp).
  rewrite !(proj2 (Z.eqb_neq (wanted_session _) _)) by done. cbn [negb andb].
  set (s1 := mk_sys _ _).
  destruct (handle_error_spec s1 A ZSESSIONEXPIRED)
    as (zh' & l & E & Hl & _ & H1 & H2 & H3 & H4 & H5 & H6 & _); [|done|done|done|exact Hav|exact Hel|].
  { by apply (idle_handle s A). }
  exists zh', l. unfold handle_socket_error_msg. rewrite M_bind_eq, E. msteps.
  split; [done|]. split_and!; [done..|]. intros events w. unfold zookeeper_process, is_unrecoverable.
  msteps. cbn [s_zh]. rewrite H6. done.
Qed.

(** C7. A session that is established or resumed.  The handle takes over the session,
    its password and timeout, and is connected, or connected read-only as the server
    says; the packets to send first are the authentications, then one [setWatches] for
    exactly the registered paths, each once and since the last transaction seen (none
    if there are no watches), then whatever was waiting; no registration and no
    outstanding request is lost; and every watcher is told the new state once. *)
Theorem session_established s A p :
  idle s A → answered (s_zh s) p →
  wanted_session (s_zh s) = 0 ∨ wanted_session (s_zh s) = ps_sessionId p →
  Forall auth_ok (zh_auth_h (s_zh s)) → watches_sendable A (zh_last_zxid (s_zh s)) →
  ∃ zh' l req, finish_handshake s =
    Ret (ZOK, record_calls (session_calls (joined_state p) l) (mk_sys zh' (s_world s))) ∧
    everyone s A l ∧ zh_state zh' = joined_state p ∧ is_connected zh' = true ∧
    zh_client_id zh' = ps_sessionId p ∧ zh_passwd zh' = ps_passwd p ∧
    zh_recv_timeout zh' = ps_timeOut p ∧ zh_input_buffer zh' = NoInput ∧
    sv_reconfig (zh_servers zh') = 0 ∧
    (read_only p = false → zh_seen_rw_server_before zh' ≠ 0) ∧
    watches_request A (zh_last_zxid (s_zh s)) req ∧
    zh_to_send zh' =
      map queued (reverse (map auth_bytes (zh_auth_h (s_zh s)))) ++
      (if decide (no_watches A) then [] else [queued (set_watches_bytes req)]) ++
      zh_to_send (s_zh s) ∧
    zh_sent_requests zh' = zh_sent_requests (s_zh s) ∧ zh_watches zh' = zh_watches (s_zh s) ∧
    zh_auth_h zh' = zh_auth_h (s_zh s).
Proof.
  intros Hi Hp Hs Hauth Hw. rewrite (finish_handshake_cases s p Hp).
  assert (negb (wanted_session (s_zh s) =? 0) && negb (wanted_session (s_zh s) =? ps_sessionId p) = false)
    as ->.
  { destruct Hs as [-> | ->]; [done|]. by rewrite Z.eqb_refl, andb_false_r. }
  set (s1 := mk_sys (joined p _) _).
  destruct (send_set_watches_spec s1 A) as (req & Hreq & Ereq); [apply Hi|apply Hi|done|].
  rewrite M_bind_eq, Ereq. run. set (s2 := mk_sys _ _).
  rewrite M_bind_eq, send_auth_info_spec by (apply Hi || done). run. set (s3 := mk_sys _ _).
  msteps. set (s4 := mk_sys _ _). cbn [s_zh].
  destruct (queue_session_event_spec s4 A (joined_state p)) as (l & E & Hl).
  { by apply (idle_handle s A). }
  { unfold joined_state. by destruct (read_only p). }
  change (zh_state (s_zh s4)) with (joined_state p). rewrite E. msteps.
  eexists _, l, req. split; [done|]. simpl. unfold joined_state, is_connected, zh_state. simpl.
  split_and!; try done.
  - unfold joined_state. by destruct (read_only p).
  - intros ->. intros Hz%Z.lor_eq_0_iff. lia.
Qed.
End establish.

(** ** Witnesses *)
Definition sample_answer (id : Z) : prime_struct :=
  mk_prime 37 0 30000 id 16 (replicate 16 Byte.x2a) Byte.x00.
Definition sample_answered (id : Z) : sys :=
  mk_sys (set_zh_primer_buffer (mk_bl (Some (handshake_bytes (sample_answer id))) 41 45) sample_handle)
    sample_world.
Lemma sample_answered_ok id : wf_long id → answered (s_zh (sample_answered id)) (sample_answer id).
Proof. intros Hid. by split_and!. Qed.
Lemma sample_answered_idle id : @idle sample_host (sample_answered id) sample_registry.
Proof. apply sample_idle; [done..|]. apply Forall_forall. exact sample_request_ok. Qed.

Lemma session_expired_witness :
  ∃ zh' l, @finish_handshake sample_host zero_locals (@st_adaptor sample_host) (sample_answered 81) =
    Ret (ZSESSIONEXPIRED, record_calls (session_calls ZOO_EXPIRED_SESSION_STATE l ++
      [CallAuth 13 ZSESSIONEXPIRED 130; CallVoid 11 ZSESSIONEXPIRED 110;
       CallVoid 11 ZSESSIONEXPIRED 110; CallVoid 12 ZSESSIONEXPIRED 120])
      (mk_sys zh' sample_world)) ∧ zh_state zh' = ZOO_EXPIRED_SESSION_STATE.
Proof.
  destruct (@session_expired sample_host zero_locals (sample_answered 81) sample_registry (sample_answer 81))
    as (zh' & l & E & _ & Hst & _).
  - apply sample_answered_idle.
  - by apply sample_answered_ok.
  - done.
  - done.
  - apply vec_wf. simpl. lia.
  - done.
  - change (loss_calls ?rc (s_zh (sample_answered 81))) with (loss_calls rc (s_zh sample_sys)) in E.
    rewrite sample_loss in E. exists zh', l. split; assumption.
Defined.

Lemma lists_singleton k wos v :
  lists_paths {[k := wos]} v → v = mk_vector 1 (Some [Some k]).
Proof.
  intros (ks & -> & Hnd & Hks).
  assert (length ks = 1%nat) as Hl by (rewrite <-(size_lists {[k := wos]} ks) by done; apply map_size_singleton).
  destruct ks as [|k' [|? ?]]; try done.
  assert (is_Some (({[k := wos]} : gmap cstring watcher_list) !! k')) as Hk by (apply Hks; by left).
  destruct (decide (k = k')) as [<-|Hne]; [done|].
  rewrite lookup_singleton_ne in Hk by done. by destruct Hk.
Qed.
Lemma lists_empty v : lists_paths ∅ v → v = mk_vector 0 (Some []).
Proof.
  intros (ks & -> & Hnd & Hks). rewrite <-(size_lists ∅ ks) by done. rewrite map_size_empty.
  destruct ks as [|k ks]; [done|]. destruct (proj1 (Hks k)) as [? Hk]; [by left|]. by rewrite lookup_empty in Hk.
Qed.
Lemma sample_watches_sendable : watches_sendable sample_registry 0.
Proof.
  split_and!; [done| |].
  - intros t k Hk. assert (k = lit "/a") as ->; [|by split; [repeat constructor|]].
    destruct t; cbn [sample_registry] in Hk; [|by rewrite lookup_empty in Hk; destruct Hk|];
      (destruct (decide (lit "/a" = k)) as [<-|Hne]; [done|]);
      rewrite lookup_singleton_ne in Hk by done; by destruct Hk.
  - intros [z d e c] (Hz & Hd%lists_singleton & He%lists_empty & Hc%lists_singleton).
    cbn [SetWatches_relativeZxid SetWatches_dataWatches SetWatches_existWatches
      SetWatches_childWatches] in *. subst. vm_compute. discriminate.
Qed.
Lemma session_established_witness :
  ∃ zh' l req, @finish_handshake sample_host zero_locals (@st_adaptor sample_host) (sample_answered 77) =
      Ret (ZOK, record_calls (session_calls ZOO_CONNECTED_STATE l) (mk_sys zh' sample_world)) ∧
    watches_request sample_registry 0 req ∧
    zh_to_send zh' = [queued (auth_bytes (mk_auth 0 (Some (lit "digest")) (mk_buffer 3 (Some (lit "u:p"))) 13 130));
                      queued (set_watches_bytes req)].
Proof.
  destruct (@session_established sample_host zero_locals (sample_answered 77) sample_registry
    (sample_answer 77)) as (zh' & l & req & E & _ & _ & _ & _ & _ & _ & _ & _ & _ & Hreq & Hsend & _).
  - apply sample_answered_idle.
  - by apply sample_answered_ok.
  - by right.
  - apply Forall_singleton. split_and!; [|done|vm_compute; discriminate]. split; [|done].
    by apply (bool_decide_unpack (Forall (λ b, b ≠ Byte.x00) (lit "digest"))).
  - exact sample_watches_sendable.
  - exists zh', l, req. split; [exact E|]. split; [exact Hreq|].
    rewrite decide_False in Hsend; [exact Hsend|].
    intros Hno. specialize (Hno NodeTable). cbn [sample_registry] in Hno. by apply map_non_empty_singleton in Hno.
Defined.

(** The fragment of 40 bytes.  The primer buffer is taken for complete when one
    [recv] returns 40 of its 41 bytes, as it would from a server that does not send the
    read-only flag.  If the server does send it and the socket happens to deliver 40
    bytes first, the flag is read as 0 and its byte is left in the stream, where the
    length of the next packet is expected. *)
Theorem handshake_fragment (H : Host) (r rest : list byte) script :
  length r = 41%nat →
  recv_buffer true (mk_bl (Some (replicate 41 Byte.x00)) 41 4) (r ++ rest) (IoOk 40 :: script) [] =
    Ret (1, mk_bl (Some (take 40 r ++ [Byte.x00])) 41 45, drop 40 r ++ rest, script, []).
Proof.
  intros Hr. unfold recv_buffer, recv_contents, recv. cbn [bl_curr_offset bl_buffer bl_len].
  change (4 <? 4) with false. cbn iota. change (41 - (4 - 4) =? 0) with false. cbn iota.
  destruct (r ++ rest) as [|x l] eqn:E; [apply (f_equal length) in E; rewrite length_app in E; simpl in E; lia|].
  rewrite <-E. change (Nat.min 40 (Z.to_nat (41 - (4 - 4)))) with 40%nat.
  rewrite take_app_le, drop_app_le by lia. rewrite length_take_le by lia.
  unfold copy_to. rewrite length_take_le by lia. rewrite length_replicate. reflexivity.
Qed.

Lemma handshake_fragment_witness :
  @recv_buffer sample_host true (mk_bl (Some (replicate 41 Byte.x00)) 41 4)
    (replicate 40 Byte.x07 ++ [Byte.x01]) [IoOk 40] [] =
  Ret (1, mk_bl (Some (replicate 40 Byte.x07 ++ [Byte.x00])) 41 45, [Byte.x01], [], []).
Proof.
  apply (handshake_fragment sample_host (replicate 40 Byte.x07 ++ [Byte.x01]) [] []). done.
Defined.
