(* ===== verification/RequestTheorems.v ===== *)
(** * Theorems about the asynchronous API

    What a call of the API leaves behind: a request in the queue of those waiting for an
    answer and its packet behind those already on their way; or an error and nothing. *)

From S2P Require Import Prelude RecordIO RecordIOFacts Jute JuteSpec JuteTheorems Path.
From S2P Require Import PathFacts Hashtable HashtableFacts Watchers WatchersFacts.
From S2P Require Import WatchersTheorems Addrvec AddrvecFacts Handshake Transport.
From S2P Require Import TransportFacts Handle Session Requests SessionFacts SessionTheorems.
From S2P Require Import EstablishTheorems.
Local Open Scope Z_scope.

(** ** Sending *)

(** What is still to go out of the handle's queue, the contents of which are [ds]. *)
Definition outgoing (zh : zhandle) (ds : list (list byte)) : Prop := Forall2 sending (zh_to_send zh) ds.
(** The bytes sent and to be sent. *)
Definition out_stream (s : sys) (ds : list (list byte)) : list byte :=
  w_wire (s_world s) ++ to_send (zh_to_send (s_zh s)) ds.

Lemma to_send_app q1 q2 ds1 ds2 :
  length q1 = length ds1 → to_send (q1 ++ q2) (ds1 ++ ds2) = to_send q1 ds1 ++ to_send q2 ds2.
Proof.
  revert ds1. induction q1 as [|b q1 IH]; intros [|d ds1] Hl; try done.
  simpl. rewrite IH by (simpl in Hl; lia). by rewrite app_assoc.
Qed.

(** The fields that sending changes. *)
Definition sent_off (q : list buffer_list) (t : option timeval) (zh : zhandle) : zhandle :=
  let zh := set_zh_to_send q zh in
  match t with Some t => set_zh_last_send t zh | None => zh end.

Section sending.
Context `{Host, Locals}.

Lemma adaptor_send_queue_spec s ds :
  outgoing (s_zh s) ds →
  ∃ rc q t w ds', adaptor_send_queue 0 s = Ret (rc, mk_sys (sent_off q t (s_zh s)) w) ∧
    outgoing (sent_off q t (s_zh s)) ds' ∧
    out_stream (mk_sys (sent_off q t (s_zh s)) w) ds' = out_stream s ds ∧
    w_calls w = w_calls (s_world s) ∧ w_alloc w = w_alloc (s_world s) ∧
    w_xid w = w_xid (s_world s) ∧ w_in w = w_in (s_world s).
Proof.
  intros Hq. single_threaded. msteps. unfold lift, flush_send_queue.
  destruct (flush_loop_spec _ (is_connected (s_zh s)) 0 (zh_to_send (s_zh s)) ds []
    (w_io (s_world s)) [] false Hq (le_n _)) as (rc & q & sent & script & st & k & E & Hq' & Es & _).
  rewrite E. msteps. unfold get_system_time, out_stream, outgoing.
  destruct st.
  - cbn [s_world]. rewrite M_bind_eq. cbn [s_world].
    match goal with |- context [match w_clock ?w with _ => _ end] => destruct (w_clock w) as [|t c] end;
      msteps.
    + eexists rc, q, (Some (mk_timeval 0 0)), _, (drop k ds). split; [done|]. simpl.
      by rewrite Es, <-app_assoc.
    + eexists rc, q, (Some t), _, (drop k ds). split; [done|]. simpl.
      by rewrite Es, <-app_assoc.
  - eexists rc, q, None, _, (drop k ds). split; [done|]. simpl. by rewrite Es, <-app_assoc.
Qed.

(** A request has been accepted: [bs] will follow what was to be sent before, and
    [entry] waits behind the other requests; nobody has been called. *)
Record submitted (s s' : sys) (ds : list (list byte)) (bs : list byte) (entry : completion_list)
    : Prop := {
  sub_entry : zh_sent_requests (s_zh s') = zh_sent_requests (s_zh s) ++ [entry];
  sub_stream : ∃ ds', outgoing (s_zh s') ds' ∧ out_stream s' ds' = out_stream s ds ++ frame bs;
  sub_calls : w_calls (s_world s') = w_calls (s_world s);
  sub_ample : ample s';
  sub_watches : zh_watches (s_zh s') = zh_watches (s_zh s);
  sub_servers : zh_servers (s_zh s') = zh_servers (s_zh s);
  sub_queue : zh_completions_to_process (s_zh s') = zh_completions_to_process (s_zh s);
  sub_sync : zh_outstanding_sync (s_zh s') = zh_outstanding_sync (s_zh s);
  sub_input : w_in (s_world s') = w_in (s_world s);
}.

Lemma out_stream_queue s ds bs zh1 :
  outgoing (s_zh s) ds → sendable bs →
  zh_to_send zh1 = zh_to_send (s_zh s) ++ [queued bs] →
  outgoing zh1 (ds ++ [bs]) ∧
  out_stream (mk_sys zh1 (s_world s)) (ds ++ [bs]) = out_stream s ds ++ frame bs.
Proof.
  intros Hq Hs E. unfold outgoing, out_stream. cbn [s_zh s_world]. rewrite E. split.
  - apply Forall2_app; [done|]. constructor; [|constructor]. by apply queued_sending.
  - rewrite to_send_app by (by eapply Forall2_length). simpl. rewrite app_nil_r.
    by rewrite app_assoc.
Qed.

(** The end of every request: the entry and the packet are queued, then sent. *)
Lemma enqueue_spec {A} s s1 add oa bs ds entry (k : Z → A) :
  ample s → outgoing (s_zh s) ds → sendable bs →
  get_buffer oa = Some bs → get_buffer_len oa = Z.of_nat (length bs) →
  s1 = mk_sys (set_zh_sent_requests (zh_sent_requests (s_zh s) ++ [entry]) (s_zh s)) (s_world s) →
  add s = Ret (ZOK, s1) →
  ∃ s', (rc ← unless_failed 0 add;
         rc ← unless_failed rc (queue_buffer_bytes (get_buffer oa) (get_buffer_len oa));
         adaptor_send_queue 0;; mret (k rc)) s = Ret (k ZOK, s') ∧ submitted s s' ds bs entry ∧
    w_xid (s_world s') = w_xid (s_world s).
Proof.
  intros Ha Hq Hs Hb Hn -> Hadd. unfold unless_failed. run. rewrite M_bind_eq, Hadd. run.
  rewrite M_bind_eq. unfold queue_buffer_bytes. rewrite Hb, Hn, queue_bytes_ok by (done || apply Hs).
  run. set (s2 := mk_sys _ _).
  destruct (out_stream_queue s ds bs (s_zh s2) Hq Hs eq_refl) as [Hq2 Hs2].
  destruct (adaptor_send_queue_spec s2 (ds ++ [bs]) Hq2)
    as (rc & q & t & w & ds' & E2 & Hq3 & Hs3 & Hc & Hal & Hxid & Hin).
  rewrite M_bind_eq, E2. msteps. eexists. split; [done|]. split; [|exact Hxid].
  split; try (unfold sent_off; by destruct t).
  - exists ds'. split; [done|]. rewrite Hs3. exact Hs2.
  - unfold ample. simpl. rewrite Hal. exact Ha.
Qed.
Lemma submit_spec s s1 ser add bs ds entry :
  ample s → outgoing (s_zh s) ds → appends ser bs → sendable bs →
  Z.of_nat (length bs) ≤ oa_limit →
  s1 = mk_sys (set_zh_sent_requests (zh_sent_requests (s_zh s) ++ [entry]) (s_zh s)) (s_world s) →
  add s = Ret (ZOK, s1) →
  ∃ s', submit ser add s = Ret (ZOK, s') ∧ submitted s s' ds bs entry ∧
    w_xid (s_world s') = w_xid (s_world s).
Proof.
  intros Ha Hq Hser Hs Hl Hs1 Hadd. unfold submit.
  destruct (marshal_ok ser bs s Hser Hl Ha) as (oa & E & Hb & Hn).
  rewrite M_bind_eq, E. run.
  by apply (enqueue_spec s s1 add oa bs ds entry (λ rc, if rc <? 0 then ZMARSHALLINGERROR else ZOK)).
Qed.
End sending.

(** ** The operations on a path *)

(** The calls of the API that take a path, with their other arguments. *)
Inductive api_op :=
  | OpGet (watcher ctx : Z)
  | OpExists (watcher ctx : Z)
  | OpChildren (watcher ctx : Z)
  | OpChildren2 (watcher ctx : Z)
  | OpSet (value : list byte) (version : Z)
  | OpCreate (value : list byte) (acl : vector ACL) (mode ttl : Z)
  | OpCreate2 (value : list byte) (acl : vector ACL) (mode ttl : Z)
  | OpDelete (version : Z)
  | OpSync
  | OpGetAcl
  | OpSetAcl (acl : vector ACL) (version : Z).

(** The data of a request, as a buffer. *)
Definition blob (value : list byte) : buffer := mk_buffer (Z.of_nat (length value)) (Some value).
Definition flag (watcher : Z) : Z := if watcher =? 0 then 0 else 1.
Definition op_mode (op : api_op) : Z :=
  match op with OpCreate _ _ mode _ | OpCreate2 _ _ mode _ => mode | _ => 0 end.
(** The operation code of the header, and the kind of answer. *)
Definition op_code (op : api_op) : Z :=
  match op with
  | OpGet _ _ => ZOO_GETDATA_OP | OpExists _ _ => ZOO_EXISTS_OP
  | OpChildren _ _ => ZOO_GETCHILDREN_OP | OpChildren2 _ _ => ZOO_GETCHILDREN2_OP
  | OpSet _ _ => ZOO_SETDATA_OP
  | OpCreate _ _ mode _ => get_create_op_type mode ZOO_CREATE_OP
  | OpCreate2 _ _ mode _ => get_create_op_type mode ZOO_CREATE2_OP
  | OpDelete _ => ZOO_DELETE_OP | OpSync => ZOO_SYNC_OP | OpGetAcl => ZOO_GETACL_OP
  | OpSetAcl _ _ => ZOO_SETACL_OP
  end.
Definition op_completion (op : api_op) : Z :=
  match op with
  | OpGet _ _ => COMPLETION_DATA | OpExists _ _ | OpSet _ _ => COMPLETION_STAT
  | OpChildren _ _ => COMPLETION_STRINGLIST | OpChildren2 _ _ => COMPLETION_STRINGLIST_STAT
  | OpCreate _ _ _ _ | OpSync => COMPLETION_STRING | OpCreate2 _ _ _ _ => COMPLETION_STRING_STAT
  | OpDelete _ | OpSetAcl _ _ => COMPLETION_VOID | OpGetAcl => COMPLETION_ACLLIST
  end.
(** The record behind the header, and when it can be written. *)
Definition create_record (sp : cstring) (value : list byte) (acl : vector ACL) (mode ttl : Z)
    : list byte :=
  if ZOOKEEPER_IS_TTL mode
  then enc_CreateTTLRequest (mk_CreateTTLRequest (Some sp) (blob value) acl mode ttl)
  else enc_CreateRequest (mk_CreateRequest (Some sp) (blob value) acl mode).
Definition op_record (op : api_op) (sp : cstring) : list byte :=
  match op with
  | OpGet w _ => enc_GetDataRequest (mk_GetDataRequest (Some sp) (flag w))
  | OpExists w _ => enc_ExistsRequest (mk_ExistsRequest (Some sp) (flag w))
  | OpChildren w _ => enc_GetChildrenRequest (mk_GetChildrenRequest (Some sp) (flag w))
  | OpChildren2 w _ => enc_GetChildren2Request (mk_GetChildren2Request (Some sp) (flag w))
  | OpSet value version => enc_SetDataRequest (mk_SetDataRequest (Some sp) (blob value) version)
  | OpCreate value acl mode ttl | OpCreate2 value acl mode ttl => create_record sp value acl mode ttl
  | OpDelete version => enc_DeleteRequest (mk_DeleteRequest (Some sp) version)
  | OpSync => enc_SyncRequest (mk_SyncRequest (Some sp))
  | OpGetAcl => enc_GetACLRequest (mk_GetACLRequest (Some sp))
  | OpSetAcl acl version => enc_SetACLRequest (mk_SetACLRequest (Some sp) acl version)
  end.
Definition op_wf (op : api_op) : Prop :=
  match op with
  | OpSet value version => Z.of_nat (length value) ≤ INT_MAX ∧ wf_int version
  | OpCreate value acl mode ttl | OpCreate2 value acl mode ttl =>
      Z.of_nat (length value) ≤ INT_MAX ∧ wf_ACL_vector acl ∧ wf_int mode
  | OpDelete version => wf_int version
  | OpSetAcl acl version => wf_ACL_vector acl ∧ wf_int version
  | _ => True
  end.
(** The [ttl] fits the mode: a time to live in range, or none. *)
Definition op_ttl_ok (op : api_op) : bool :=
  match op with
  | OpCreate _ _ mode ttl | OpCreate2 _ _ mode ttl =>
      if ZOOKEEPER_IS_TTL mode then (0 <? ttl) && (ttl <=? ZOO_MAX_TTL) else ttl <? 0
  | _ => true
  end.
(** The watch to set when the answer arrives. *)
Definition op_watch (op : api_op) (sp : cstring) : option watcher_registration :=
  let reg checker w ctx := if w =? 0 then None else Some (mk_reg w ctx checker sp) in
  match op with
  | OpGet w ctx => reg data_result_checker w ctx
  | OpExists w ctx => reg exists_result_checker w ctx
  | OpChildren w ctx | OpChildren2 w ctx => reg child_result_checker w ctx
  | _ => None
  end.

(** The path the server gets. *)
Definition server_path (chroot : option cstring) (path : cstring) : cstring :=
  match chroot with
  | None => path
  | Some c => if (length path =? 1)%nat then c else c ++ path
  end.

Section operations.
Context `{Host, Locals}.

(** The call, with completion [fn] and its [data]. *)
Definition run_op (op : api_op) (path : option cstring) (fn data : Z) : M Z :=
  match op with
  | OpGet w ctx => zoo_awget path w ctx fn data
  | OpExists w ctx => zoo_awexists path w ctx fn data
  | OpChildren w ctx => zoo_awget_children path w ctx fn data
  | OpChildren2 w ctx => zoo_awget_children2 path w ctx fn data
  | OpSet value version => zoo_aset path (Some value) (Z.of_nat (length value)) version fn data
  | OpCreate value acl mode ttl =>
      zoo_acreate_ttl path (Some value) (Z.of_nat (length value)) (Some acl) mode ttl fn data
  | OpCreate2 value acl mode ttl =>
      zoo_acreate2_ttl path (Some value) (Z.of_nat (length value)) (Some acl) mode ttl fn data
  | OpDelete version => zoo_adelete path version fn data
  | OpSync => zoo_async path fn data
  | OpGetAcl => zoo_aget_acl path fn data
  | OpSetAcl acl version => zoo_aset_acl path version (Some acl) fn data
  end.

(** The request that goes out, and the entry that waits for the answer. *)
Definition op_bytes (op : api_op) (xid : Z) (sp : cstring) : list byte :=
  enc_RequestHeader (mk_RequestHeader xid (op_code op)) ++ op_record op sp.
Definition op_entry (op : api_op) (xid : Z) (sp : cstring) (fn data : Z) : completion_list :=
  mk_completion xid (op_completion op) fn None [] data None (op_watch op sp) None.

(** The state after the xid has been taken. *)
Definition next_xid (s : sys) : sys := mk_sys (s_zh s) (set_w_xid (w_xid (s_world s) + 1) (s_world s)).
Lemma get_xid_ok s :
  0 ≤ w_xid (s_world s) < INT_MAX → get_xid s = Ret (w_xid (s_world s), next_xid s).
Proof.
  intros Hx. single_threaded. msteps. rewrite (proj2 (Z.eqb_neq _ (-1))) by lia. msteps.
  by rewrite (proj2 (Z.eqb_neq _ _)) by lia.
Qed.

Lemma prepend_ok path s :
  ample s →
  zh_prepend_string (Some path) s = Ret (Some (server_path (zh_chroot (s_zh s)) path), s).
Proof.
  intros Ha. unfold zh_prepend_string. msteps. apply allocating_ok; [done|].
  unfold prepend_string, server_path. destruct (zh_chroot (s_zh s)) as [c|]; [|done].
  by destruct (_ =? _)%nat.
Qed.

(** The two checks of every request. *)
Definition verdict (sp : cstring) (mode : Z) (zh : zhandle) : Z :=
  if negb (isValidPath (Some sp) mode) then ZBADARGUMENTS
  else if is_unrecoverable zh then ZINVALIDSTATE else ZOK.
Lemma check_path_eq mode sp s :
  check_path mode (Some sp) s = Ret (verdict sp mode (s_zh s), s).
Proof. unfold check_path, verdict. destruct (negb _); [done|]. by msteps. Qed.
Lemma path_init_ok mode path s :
  ample s →
  let sp := server_path (zh_chroot (s_zh s)) path in
  Request_path_init mode (Some path) s = Ret (verdict sp mode (s_zh s), Some sp, s).
Proof.
  intros Ha sp. unfold Request_path_init. rewrite M_bind_eq, prepend_ok by done. run.
  by rewrite M_bind_eq, check_path_eq.
Qed.

Lemma registration_ok sp checker w ctx s :
  ample s →
  create_watcher_registration (Some sp) checker w ctx s =
    Ret (if w =? 0 then None else Some (mk_reg w ctx checker sp), s).
Proof.
  intros Ha. unfold create_watcher_registration. destruct (w =? 0); [done|].
  rewrite M_bind_eq, (allocating_ok _ (Some sp)) by done. by msteps.
Qed.
Lemma add_completion_ok xid type fn data wo s :
  ample s → bool_decide (type ∈ completion_types) = true → type ≠ COMPLETION_MULTI → fn ≠ SYNCHRONOUS_MARKER →
  zh_close_requested (s_zh s) ≠ 1 →
  add_completion xid type fn data false wo None s =
    Ret (ZOK, mk_sys (set_zh_sent_requests (zh_sent_requests (s_zh s) ++
      [mk_completion xid type fn None [] data None wo None]) (s_zh s)) (s_world s)).
Proof.
  intros Ha Ht Hm Hfn Hc. unfold add_completion, create_completion_entry.
  rewrite M_bind_eq, do_create_ok by done. run. unfold do_add_completion. msteps.
  rewrite (proj2 (Z.eqb_neq _ 1)) by done. msteps. rewrite (proj2 (Z.eqb_neq fn _)) by done. msteps.
  rewrite Ht. by rewrite (proj2 (Z.eqb_neq type _)) by done.
Qed.

(** Every operation is the two checks, then [submit]. *)
Definition add_entry (entry : completion_list) (s : sys) : sys :=
  mk_sys (set_zh_sent_requests (zh_sent_requests (s_zh s) ++ [entry]) (s_zh s)) (s_world s).
Definition decided (sp : cstring) (op : api_op) (s : sys) (submit_ : M Z) : outcome (Z * sys) :=
  let v := verdict sp (op_mode op) (s_zh s) in
  if negb (v =? ZOK) then Ret (v, next_xid s) else submit_ (next_xid s).

Lemma decided_eq sp op s (m : M Z) :
  (if negb (verdict sp (op_mode op) (s_zh s) =? ZOK)
   then mret (verdict sp (op_mode op) (s_zh s)) else m : M Z) (next_xid s) = decided sp op s m.
Proof. unfold decided. by destruct (negb _). Qed.
Lemma blob_wf value : Z.of_nat (length value) ≤ INT_MAX → wf_buffer (blob value).
Proof. intros Hl. by split. Qed.
Lemma flag_negb w : (if negb (w =? 0) then 1 else 0) = flag w.
Proof. unfold flag. by destruct (w =? 0). Qed.
Lemma flag_wf w : wf_bool (flag w).
Proof. unfold flag. destruct (_ =? _); [by left|by right]. Qed.
(** The record of the request is written, the entry queued. *)
Ltac op_ends lem :=
  eexists _, _; split;
  [match goal with |- _ = decided ?sp ?op ?s _ => exact (decided_eq sp op s _) end|]; split;
  [intros Hwf Hsp; apply ser_then_appends; [by apply header_appends|cbn [op_record]; apply lem; cbn [op_wf] in Hwf;
     first [exact Hsp|split_and!; try apply flag_wf; try done; try apply blob_wf; tauto]]
  |intros Hfn Hc; rewrite ?M_bind_eq, ?registration_ok by done; run; by apply add_completion_ok].
(** The xid, then the path. *)
Ltac op_starts :=
  rewrite M_bind_eq, get_xid_ok by done; run; rewrite ?M_bind_eq;
  rewrite ?path_init_ok by done; run; rewrite ?flag_negb.
Lemma create_type_wf mode op : wf_int op → wf_int (get_create_op_type mode op).
Proof. intros Hop. unfold get_create_op_type. by repeat destruct (_ : bool). Qed.
(** A create request, with a time to live or without. *)
Lemma create_with_eq default_op add path value acl mode ttl s :
  ample s → 0 ≤ w_xid (s_world s) < INT_MAX → wf_int default_op →
  op_ttl_ok (OpCreate value acl mode ttl) = true →
  let sp := server_path (zh_chroot (s_zh s)) path in
  ∃ ser, create_with default_op add (Some path) (Some value) (Z.of_nat (length value)) (Some acl)
           mode ttl s =
      (if negb (verdict sp mode (s_zh s) =? ZOK) then mret (verdict sp mode (s_zh s))
       else submit ser (add (w_xid (s_world s))) : M Z) (next_xid s) ∧
    (op_wf (OpCreate value acl mode ttl) → wf_string (Some sp) →
     appends ser (enc_RequestHeader (mk_RequestHeader (w_xid (s_world s))
                    (get_create_op_type mode default_op)) ++ create_record sp value acl mode ttl)).
Proof.
  intros Ha Hx Hop Httl sp. cbn [op_ttl_ok] in Httl. assert (ample (next_xid s)) as Ha1 by done.
  assert (wf_int (w_xid (s_world s))) as Hwx by (unfold wf_int, in_s; lia).
  pose proof (create_type_wf mode default_op Hop) as Hty.
  unfold create_with. rewrite M_bind_eq, get_xid_ok by done. run. unfold create_record.
  destruct (ZOOKEEPER_IS_TTL mode).
  - apply andb_true_iff in Httl as [H1%Z.ltb_lt H2%Z.leb_le].
    rewrite (proj2 (Z.leb_gt _ _)), (proj2 (Z.ltb_ge _ _)) by done. cbn [orb].
    unfold CreateTTLRequest_init. rewrite !M_bind_eq, path_init_ok by done. run.
    eexists. split; [reflexivity|]. intros (Hv & Hacl & Hm) Hsp.
    apply ser_then_appends; [by apply header_appends|]. apply serialize_CreateTTLRequest_appends.
    split_and!; [done|by apply blob_wf|done|done|]. unfold wf_long, in_s, ZOO_MAX_TTL in *. simpl. lia.
  - apply Z.ltb_lt in Httl. rewrite (proj2 (Z.leb_gt _ _)) by done.
    unfold CreateRequest_init. rewrite !M_bind_eq, path_init_ok by done. run.
    eexists. split; [reflexivity|]. intros (Hv & Hacl & Hm) Hsp.
    apply ser_then_appends; [by apply header_appends|]. apply serialize_CreateRequest_appends.
    split_and!; [done|by apply blob_wf|done|done].
Qed.

Lemma bad_ttl op path fn data s :
  0 ≤ w_xid (s_world s) < INT_MAX → op_ttl_ok op = false →
  run_op op path fn data s = Ret (ZBADARGUMENTS, next_xid s).
Proof.
  intros Hx Httl. destruct op; try done; cbn [op_ttl_ok run_op] in *;
    unfold zoo_acreate_ttl, zoo_acreate2_ttl, create_with; rewrite M_bind_eq, get_xid_ok by done; run.
  all: destruct (ZOOKEEPER_IS_TTL mode);
    [replace ((ttl <=? 0) || (ZOO_MAX_TTL <? ttl)) with true; [done|]
    |replace (0 <=? ttl) with true; [done|]].
  all: symmetry; rewrite ?orb_true_iff, ?Z.leb_le, ?Z.ltb_lt;
    rewrite ?andb_false_iff, ?Z.leb_gt, ?Z.ltb_ge in Httl; lia.
Qed.

Lemma run_op_eq op path fn data s :
  ample s → 0 ≤ w_xid (s_world s) < INT_MAX → op_ttl_ok op = true →
  let sp := server_path (zh_chroot (s_zh s)) path in
  ∃ ser add, run_op op (Some path) fn data s = decided sp op s (submit ser add) ∧
    (op_wf op → wf_string (Some sp) → appends ser (op_bytes op (w_xid (s_world s)) sp)) ∧
    (fn ≠ SYNCHRONOUS_MARKER → zh_close_requested (s_zh s) ≠ 1 →
     add (next_xid s) = Ret (ZOK, add_entry (op_entry op (w_xid (s_world s)) sp fn data) (next_xid s))).
Proof.
  intros Ha Hx Httl sp. assert (ample (next_xid s)) as Ha1 by done.
  assert (wf_int (w_xid (s_world s))) as Hwx by (unfold wf_int, in_s; lia).
  destruct op; cbn [run_op].
  - unfold zoo_awget. rewrite M_bind_eq, prepend_ok by done. run.
    rewrite M_bind_eq, get_xid_ok by done. run. rewrite M_bind_eq, check_path_eq. run. fold (flag watcher).
    op_ends serialize_GetDataRequest_appends.
  - unfold zoo_awexists, Request_path_watch_init. op_starts. op_ends serialize_ExistsRequest_appends.
  - unfold zoo_awget_children, zoo_awget_children_, Request_path_watch_init. op_starts.
    op_ends serialize_GetChildrenRequest_appends.
  - unfold zoo_awget_children2, zoo_awget_children2_, Request_path_watch_init. op_starts.
    op_ends serialize_GetChildren2Request_appends.
  - unfold zoo_aset, SetDataRequest_init. op_starts. op_ends serialize_SetDataRequest_appends.
  - destruct (create_with_eq ZOO_CREATE_OP (λ xid, add_string_completion xid fn data) path value acl
      mode ttl s) as (ser & E & Hser); [done..|].
    exists ser, (add_string_completion (w_xid (s_world s)) fn data).
    split; [exact (eq_trans E (decided_eq sp (OpCreate value acl mode ttl) s _))|].
    split; [exact Hser|]. intros Hfn Hc. by apply add_completion_ok.
  - destruct (create_with_eq ZOO_CREATE2_OP (λ xid, add_string_stat_completion xid fn data) path value
      acl mode ttl s) as (ser & E & Hser); [done..|].
    exists ser, (add_string_stat_completion (w_xid (s_world s)) fn data).
    split; [exact (eq_trans E (decided_eq sp (OpCreate2 value acl mode ttl) s _))|].
    split; [exact Hser|]. intros Hfn Hc. by apply add_completion_ok.
  - unfold zoo_adelete, DeleteRequest_init. op_starts. op_ends serialize_DeleteRequest_appends.
  - unfold zoo_async. op_starts. op_ends serialize_SyncRequest_appends.
  - unfold zoo_aget_acl. op_starts. op_ends serialize_GetACLRequest_appends.
  - unfold zoo_aset_acl. op_starts. op_ends serialize_SetACLRequest_appends.
Qed.

(** A string that is not empty makes a packet. *)
Lemma op_bytes_sendable op xid sp :
  Z.of_nat (length (op_bytes op xid sp)) ≤ oa_limit → sendable (op_bytes op xid sp).
Proof. intros Hl. split; [apply header_app_ne|]. unfold oa_limit in Hl. lia. Qed.
Lemma submitted_next_xid s s' ds bs entry : submitted (next_xid s) s' ds bs entry → submitted s s' ds bs entry.
Proof. intros [? ? ? ? ? ? ? ? ?]. by split. Qed.

Lemma positive_request_ok c :
  callable c → 0 ≤ c_xid c < INT_MAX → request_ok c.
Proof.
  intros Hc Hx. split; [done|]. split; [unfold wf_int, in_s; lia|].
  unfold special. rewrite !elem_of_cons, elem_of_nil. lia.
Qed.

(** C6. A request is accepted.  On a handle that is usable, every operation of the API
    with a valid path returns [ZOK] and has exactly this effect: the packet with the
    next xid, the code of the operation and the encoding of its arguments, the path
    being that on the server, follows the bytes already sent and queued; a completion
    with the same xid, the kind of the answer, the user's function and the watch to set
    waits behind the other requests, as [responses_in_order] requires; nothing else is
    queued and no function is called. *)
Theorem request_submitted op path fn data s ds :
  let xid := w_xid (s_world s) in
  let sp := server_path (zh_chroot (s_zh s)) path in
  ample s → outgoing (s_zh s) ds → 0 ≤ xid < INT_MAX →
  isValidPath (Some sp) (op_mode op) = true → is_unrecoverable (s_zh s) = false →
  zh_close_requested (s_zh s) = 0 → fn ≠ 0 → fn ≠ SYNCHRONOUS_MARKER →
  op_wf op → op_ttl_ok op = true → wf_string (Some sp) →
  Z.of_nat (length (op_bytes op xid sp)) ≤ oa_limit →
  ∃ s', run_op op (Some path) fn data s = Ret (ZOK, s') ∧
    submitted s s' ds (op_bytes op xid sp) (op_entry op xid sp fn data) ∧
    request_ok (op_entry op xid sp fn data) ∧ w_xid (s_world s') = xid + 1.
Proof.
  intros xid sp Ha Hq Hx Hv Hu Hc Hfn0 Hfn Hwf Httl Hsp Hl.
  destruct (run_op_eq op path fn data s Ha Hx Httl) as (ser & add & -> & Hser & Hadd).
  unfold decided, verdict. fold sp. rewrite Hv, Hu. cbn [negb]. run.
  destruct (submit_spec (next_xid s)
    (add_entry (op_entry op xid sp fn data) (next_xid s)) ser add (op_bytes op xid sp) ds
    (op_entry op xid sp fn data)) as (s' & E & Hs' & Hx'); [done|done|by apply Hser| |done|done| |].
  { by apply op_bytes_sendable. }
  { apply Hadd; [done|]. by rewrite Hc. }
  exists s'. split; [done|]. split; [by apply submitted_next_xid|]. split; [|done].
  apply positive_request_ok; [by constructor|done].
Qed.

(** A request is refused.  If the path on the server is not valid, or the time to
    live does not fit the mode, the operation returns [ZBADARGUMENTS]; if the session is
    over, [ZINVALIDSTATE].  Either way nothing is queued, sent or called: only the xid
    has been used up. *)
Theorem request_refused op path fn data s :
  let sp := server_path (zh_chroot (s_zh s)) path in
  ample s → 0 ≤ w_xid (s_world s) < INT_MAX →
  isValidPath (Some sp) (op_mode op) = false ∨ op_ttl_ok op = false ∨
    is_unrecoverable (s_zh s) = true →
  run_op op (Some path) fn data s =
    Ret (if isValidPath (Some sp) (op_mode op) && op_ttl_ok op then ZINVALIDSTATE else ZBADARGUMENTS,
         next_xid s).
Proof.
  intros sp Ha Hx Hbad. destruct (op_ttl_ok op) eqn:Httl.
  - destruct (run_op_eq op path fn data s Ha Hx Httl) as (ser & add & -> & _).
    unfold decided, verdict. fold sp. rewrite andb_true_r.
    destruct (isValidPath (Some sp) (op_mode op)); [|done]. cbn [negb].
    destruct Hbad as [?|[?| ->]]; done.
  - rewrite andb_false_r. by apply bad_ttl.
Qed.
End operations.

(** ** Witnesses *)
Definition sample_acl : vector ACL :=
  mk_vector 1 (Some [mk_ACL 31 (mk_Id (Some (lit "world")) (Some (lit "anyone")))]).
Definition sample_create : api_op := OpCreate (lit "v") sample_acl 1 (-1).

Lemma sample_string (s : cstring) :
  bool_decide (Forall (λ b, b ≠ Byte.x00) s) = true → (length s < 100)%nat → wf_string (Some s).
Proof. intros Hs%bool_decide_eq_true Hl. split; [done|]. simpl. lia. Qed.
Lemma request_submitted_witness :
  ∃ s', @run_op sample_host sample_create (Some (lit "/b")) 21 210 sample_sys = Ret (ZOK, s') ∧
    zh_sent_requests (s_zh s') = [sample_delete; sample_multi;
      mk_completion 9 COMPLETION_STRING 21 None [] 210 None None None] ∧
    w_xid (s_world s') = 10.
Proof.
  destruct (@request_submitted sample_host sample_create (lit "/b") 21 210 sample_sys [])
    as (s' & E & Hs & _ & Hx).
  - done.
  - constructor.
  - done.
  - reflexivity.
  - reflexivity.
  - reflexivity.
  - done.
  - done.
  - split_and!; [done| |done]. split; [done|]. split; [done|]. apply Forall_singleton.
    split; [done|]. split; apply sample_string; reflexivity || (vm_compute; lia).
  - reflexivity.
  - apply sample_string; [reflexivity|vm_compute; lia].
  - vm_compute. discriminate.
  - exists s'. split; [exact E|]. split; [apply Hs|exact Hx].
Defined.

Lemma request_refused_witness :
  @run_op sample_host (OpDelete (-1)) (Some (lit "no-slash")) 21 210 sample_sys =
    Ret (ZBADARGUMENTS, next_xid sample_sys).
Proof.
  apply (@request_refused sample_host (OpDelete (-1)) (lit "no-slash") 21 210 sample_sys);
    [done|done|left; reflexivity].
Defined.
