(* ===== verification/MultiTheorems.v ===== *)
(** * Theorems about transactions

    [zoo_amulti] marshals the sub-requests one after the other into one packet and
    collects their completions, so that the answer can be taken apart again. *)

From S2P Require Import Prelude RecordIO RecordIOFacts Jute JuteSpec JuteTheorems Path.
From S2P Require Import PathFacts Hashtable HashtableFacts Watchers WatchersFacts.
From S2P Require Import WatchersTheorems Addrvec AddrvecFacts Handshake Transport.
From S2P Require Import TransportFacts Handle Session Requests SessionFacts SessionTheorems.
From S2P Require Import EstablishTheorems RequestTheorems.
Local Open Scope Z_scope.

(** ** Archives that are filled step by step *)
Section filling.
Context `{Host}.

(** [oa] holds [bs] and has room for [m] bytes more. *)
Definition filling (oa : buff_struct) (bs : list byte) (m : Z) : Prop :=
  written oa = bs ∧ has_room oa m.

Lemma filling_eq oa bs m m' : filling oa bs m → m = m' → filling oa bs m'.
Proof. by intros ? <-. Qed.
Lemma filling_buffer oa bs m :
  filling oa bs m → get_buffer oa = Some bs ∧ get_buffer_len oa = Z.of_nat (length bs).
Proof.
  intros (W & (b & k & Hb & Hl & _) & _). simpl in W. unfold oa_written in W. rewrite Hb in W.
  simpl in W. by subst b.
Qed.
Lemma marshal_filling f bs m s :
  appends f bs → Z.of_nat (length bs) + m ≤ oa_limit → 0 ≤ m → ample s →
  ∃ oa, marshal f s = Ret (0, oa, s) ∧ filling oa bs m.
Proof.
  intros Hf Hl Hm Ha. destruct (Hf (mk_buff 128 0 (Some []) []) m) as (oa & E & W & R).
  { split; [|split]; [exists [], 7; simpl; split_and!; done || lia|done|simpl; lia]. }
  { done. }
  exists oa. split; [|done]. pose proof R as (_ & Al & _). unfold marshal.
  apply allocating_ok; [done|]. simpl. rewrite E. run. by rewrite set_bs_alloc_nil, Al.
Qed.
Lemma writing_ok f bs done_ m oa s :
  appends f bs → filling oa done_ (Z.of_nat (length bs) + m) → 0 ≤ m → ample s →
  ∃ oa', writing f oa s = Ret (0, oa', s) ∧ filling oa' (done_ ++ bs) m.
Proof.
  intros Hf (W & R) Hm Ha. pose proof R as (_ & Al & _).
  destruct (Hf oa m R Hm) as (oa' & E & W' & R'). exists oa'. pose proof R' as (_ & Al' & _).
  split; [|by rewrite <-W]. unfold writing. apply allocating_ok; [done|].
  rewrite set_bs_alloc_nil, E by done. run. by rewrite set_bs_alloc_nil, Al' by done.
Qed.
End filling.

(** ** The sub-requests *)

(** An operation as the [zoo_..._op_init] functions prepare it. *)
Inductive multi_op :=
  | MCreate (path : cstring) (value : list byte) (acl : vector ACL) (mode buf buflen : Z)
  | MDelete (path : cstring) (version : Z)
  | MSet (path : cstring) (value : list byte) (version stat : Z)
  | MCheck (path : cstring) (version : Z).
Definition to_op (op : multi_op) : zoo_op :=
  match op with
  | MCreate path value acl mode buf buflen =>
      zoo_create_op_init (Some path) (Some value) (Z.of_nat (length value)) (Some acl) mode buf buflen
  | MDelete path version => zoo_delete_op_init (Some path) version
  | MSet path value version stat =>
      zoo_set_op_init (Some path) (Some value) (Z.of_nat (length value)) version stat
  | MCheck path version => zoo_check_op_init (Some path) version
  end.
Definition m_path (op : multi_op) : cstring :=
  match op with MCreate p _ _ _ _ _ | MDelete p _ | MSet p _ _ _ | MCheck p _ => p end.
Definition m_mode (op : multi_op) : Z := match op with MCreate _ _ _ mode _ _ => mode | _ => 0 end.
(** The record of a sub-request with the path [sp] on the server. *)
Definition m_record (op : multi_op) (sp : cstring) : list byte :=
  match op with
  | MCreate _ value acl mode _ _ => enc_CreateRequest (mk_CreateRequest (Some sp) (blob value) acl mode)
  | MDelete _ version => enc_DeleteRequest (mk_DeleteRequest (Some sp) version)
  | MSet _ value version _ => enc_SetDataRequest (mk_SetDataRequest (Some sp) (blob value) version)
  | MCheck _ version => enc_CheckVersionRequest (mk_CheckVersionRequest (Some sp) version)
  end.
Definition m_bytes (chroot : option cstring) (op : multi_op) : list byte :=
  enc_MultiHeader (mk_MultiHeader (op_type (to_op op)) 0 (-1)) ++
  m_record op (server_path chroot (m_path op)).
(** The completion that takes the sub-result into [result], and what is noted there now. *)
Definition m_entry (xid : Z) (result : Z) (op : multi_op) : completion_list :=
  let '(type, fn) := match op with
    | MCreate _ _ _ _ _ _ => (COMPLETION_STRING, op_result_string_fn)
    | MSet _ _ _ _ => (COMPLETION_STAT, op_result_stat_fn)
    | MDelete _ _ | MCheck _ _ => (COMPLETION_VOID, op_result_void_fn)
    end in
  mk_completion xid type fn None [] result None None None.
Definition m_slot (op : multi_op) : result_slot :=
  match op with
  | MCreate _ _ _ _ buf buflen => SlotName buf buflen
  | MSet _ _ _ stat => SlotStat stat
  | MDelete _ _ | MCheck _ _ => SlotKept
  end.
Definition m_wf (op : multi_op) : Prop :=
  match op with
  | MCreate _ value acl mode _ _ =>
      Z.of_nat (length value) ≤ INT_MAX ∧ wf_ACL_vector acl ∧ wf_int mode ∧ ZOOKEEPER_IS_TTL mode = false
  | MSet _ value version _ => Z.of_nat (length value) ≤ INT_MAX ∧ wf_int version
  | MDelete _ version | MCheck _ version => wf_int version
  end.
(** The operation can be sent by a client with this chroot. *)
Definition m_ok (chroot : option cstring) (op : multi_op) : Prop :=
  let sp := server_path chroot (m_path op) in
  m_wf op ∧ wf_string (Some sp) ∧ isValidPath (Some sp) (m_mode op) = true.

Fixpoint m_entries (xid result : Z) (ops : list multi_op) : list completion_list :=
  match ops with
  | [] => []
  | op :: ops => m_entry xid result op :: m_entries xid (result + 1) ops
  end.

Section multi.
Context `{Host, Locals}.

Lemma create_op_type mode :
  ZOOKEEPER_IS_TTL mode = false →
  get_create_op_type mode ZOO_CREATE_OP = ZOO_CREATE_CONTAINER_OP ∨
  get_create_op_type mode ZOO_CREATE_OP = ZOO_CREATE_OP.
Proof. intros Ht. unfold get_create_op_type. rewrite Ht. destruct (_ =? _); auto. Qed.

(** One sub-request whose path is valid. *)
Lemma sub_request_ok {R} (init : M (Z * R)) ser req bs done_ m oa s :
  init s = Ret (ZOK, req, s) → appends (ser req) bs →
  filling oa done_ (Z.of_nat (length bs) + m) → 0 ≤ m → ample s →
  ∃ oa', sub_request init ser 0 oa s = Ret (0, oa', s) ∧ filling oa' (done_ ++ bs) m.
Proof.
  intros Hi Hser Hf Hm Ha. unfold sub_request. run. rewrite M_bind_eq, Hi. run.
  by apply writing_ok.
Qed.
Lemma init_ok {R} (mk : option cstring → R) mode path s :
  ample s → is_unrecoverable (s_zh s) = false →
  let sp := server_path (zh_chroot (s_zh s)) path in isValidPath (Some sp) mode = true →
  ('(rc, p) ← Request_path_init mode (Some path); mret (rc, mk p)) s = Ret (ZOK, mk (Some sp), s).
Proof.
  intros Ha Hu sp Hv. rewrite M_bind_eq, path_init_ok by done. run. fold sp.
  unfold verdict. by rewrite Hv, Hu.
Qed.

(** The branch of the [switch]. *)
Ltac pick_op := cbn [zoo_delete_op_init zoo_set_op_init zoo_check_op_init op_type op_args
                     Z.eqb Pos.eqb orb].
Lemma sub_op_ok xid op result done_ m oa s :
  m_ok (zh_chroot (s_zh s)) op → is_unrecoverable (s_zh s) = false → ample s → 0 ≤ m →
  filling oa done_ (Z.of_nat (length (m_record op (server_path (zh_chroot (s_zh s)) (m_path op)))) + m) →
  ∃ oa', sub_op xid (to_op op) result 0 oa s =
      Ret (Some (0, oa', Some (m_entry xid result op), m_slot op), s) ∧
    filling oa' (done_ ++ m_record op (server_path (zh_chroot (s_zh s)) (m_path op))) m.
Proof.
  intros (Hwf & Hsp & Hv) Hu Ha Hm Hf.
  destruct op as [path value acl mode buf buflen|path version|path value version stat|path version];
    unfold sub_op; cbn [to_op m_path m_mode m_record m_wf] in *.
  - destruct Hwf as (Hl & Hacl & Hmode & Httl).
    set (req := mk_CreateRequest _ _ _ _) in *.
    assert (wf_CreateRequest req) as Hreq by (split_and!; [done|by apply blob_wf|done|done]).
    destruct (sub_request_ok (CreateRequest_init (Some path) (Some value) (Z.of_nat (length value))
      (Some acl) mode) serialize_CreateRequest req _ done_ m oa s
      (init_ok (λ p, mk_CreateRequest p (blob value) acl mode) mode path s Ha Hu Hv)
      (serialize_CreateRequest_appends _ Hreq) Hf Hm Ha) as (oa' & E & Hf').
    exists oa'. split; [|done]. unfold zoo_create_op_init. cbn [op_type op_args].
    replace (_ || _) with true by (destruct (create_op_type mode Httl) as [-> | ->]; done).
    cbn [co_path co_data co_datalen co_acl co_flags]. rewrite M_bind_eq, E. run.
    unfold create_completion_entry. by rewrite M_bind_eq, do_create_ok by done.
  - set (req := mk_DeleteRequest _ _) in *.
    destruct (sub_request_ok (DeleteRequest_init (Some path) version) serialize_DeleteRequest req _
      done_ m oa s (init_ok (λ p, mk_DeleteRequest p version) 0 path s Ha Hu Hv)
      (serialize_DeleteRequest_appends req (conj Hsp Hwf)) Hf Hm Ha) as (oa' & E & Hf').
    exists oa'. split; [|done]. pick_op. rewrite M_bind_eq, E. run.
    unfold create_completion_entry. by rewrite M_bind_eq, do_create_ok by done.
  - destruct Hwf as [Hl Hver]. set (req := mk_SetDataRequest _ _ _) in *.
    assert (wf_SetDataRequest req) as Hreq by (split_and!; [done|by apply blob_wf|done]).
    destruct (sub_request_ok (SetDataRequest_init (Some path) (Some value) (Z.of_nat (length value))
      version) serialize_SetDataRequest req _ done_ m oa s
      (init_ok (λ p, mk_SetDataRequest p (blob value) version) 0 path s Ha Hu Hv)
      (serialize_SetDataRequest_appends _ Hreq) Hf Hm Ha) as (oa' & E & Hf').
    exists oa'. split; [|done]. pick_op. rewrite M_bind_eq, E. run.
    unfold create_completion_entry. by rewrite M_bind_eq, do_create_ok by done.
  - set (req := mk_CheckVersionRequest _ _) in *.
    destruct (sub_request_ok (CheckVersionRequest_init (Some path) version)
      serialize_CheckVersionRequest req _ done_ m oa s
      (init_ok (λ p, mk_CheckVersionRequest p version) 0 path s Ha Hu Hv)
      (serialize_CheckVersionRequest_appends req (conj Hsp Hwf)) Hf Hm Ha) as (oa' & E & Hf').
    exists oa'. split; [|done]. pick_op. rewrite M_bind_eq, E. run.
    unfold create_completion_entry. by rewrite M_bind_eq, do_create_ok by done.
Qed.

Lemma sub_header_wf op : m_wf op → wf_MultiHeader (mk_MultiHeader (op_type (to_op op)) 0 (-1)).
Proof.
  intros Hwf. split_and!; [|by left|done].
  destruct op; cbn [to_op zoo_create_op_init zoo_delete_op_init zoo_set_op_init zoo_check_op_init
    op_type MultiHeader_type m_wf] in *; try done.
  destruct Hwf as (_ & _ & _ & Httl). by destruct (create_op_type mode Httl) as [-> | ->].
Qed.

Lemma sub_ops_ok xid ops result done_ m oa clist slots s :
  Forall (m_ok (zh_chroot (s_zh s))) ops → is_unrecoverable (s_zh s) = false → ample s → 0 ≤ m →
  filling oa done_ (Z.of_nat (length (concat (map (m_bytes (zh_chroot (s_zh s))) ops))) + m) →
  ∃ oa', sub_ops xid (map to_op ops) result 0 oa clist slots s =
      Ret (Some (0, oa', clist ++ m_entries xid result ops), slots ++ map m_slot ops, s) ∧
    filling oa' (done_ ++ concat (map (m_bytes (zh_chroot (s_zh s))) ops)) m.
Proof.
  intros Hok Hu Ha Hm. revert result done_ oa clist slots.
  induction Hok as [|op ops Hop Hok IH]; intros result done_ oa clist slots Hf.
  - exists oa. cbn [map sub_ops m_entries]. by rewrite !app_nil_r.
  - cbn [map sub_ops m_entries concat] in *. set (rest := concat _) in *.
    unfold m_bytes in Hf. rewrite !length_app in Hf. set (sp := server_path _ _) in *.
    destruct (writing_ok _ _ done_ (Z.of_nat (length (m_record op sp)) + (Z.of_nat (length rest) + m)) oa s
      (serialize_MultiHeader_appends _ (sub_header_wf op (proj1 Hop)))) as (oa1 & E1 & Hf1);
      [eapply filling_eq; [exact Hf|lia]|lia|done|].
    rewrite M_bind_eq. run. rewrite E1. run. rewrite M_bind_eq.
    destruct (sub_op_ok xid op result _ (Z.of_nat (length rest) + m) oa1 s Hop Hu Ha ltac:(lia) Hf1)
      as (oa2 & E2 & Hf2).
    rewrite E2. run.
    destruct (IH (result + 1) _ oa2 (clist ++ [m_entry xid result op]) (slots ++ [m_slot op]) Hf2)
      as (oa3 & E3 & Hf3).
    rewrite E3. exists oa3. split; [by rewrite <-!app_assoc|].
    unfold m_bytes. fold sp. by rewrite <-!app_assoc in *.
Qed.

(** The packet of a transaction, and the entry that waits for the answer. *)
Definition multi_request (chroot : option cstring) (xid : Z) (ops : list multi_op) : list byte :=
  enc_RequestHeader (mk_RequestHeader xid ZOO_MULTI_OP) ++
  concat (map (m_bytes chroot) ops) ++ enc_MultiHeader multi_end.
Definition multi_entry (xid results : Z) (ops : list multi_op) (fn data : Z) : completion_list :=
  mk_completion xid COMPLETION_MULTI fn None (m_entries xid results ops) data None None None.

Lemma add_multi_ok xid fn data clist s :
  ample s → fn ≠ SYNCHRONOUS_MARKER → zh_close_requested (s_zh s) = 0 →
  add_multi_completion xid fn data clist s = Ret (ZOK, add_entry
    (mk_completion xid COMPLETION_MULTI fn None clist data None None None) s).
Proof.
  intros Ha Hfn Hc. unfold add_multi_completion, add_completion, create_completion_entry.
  rewrite M_bind_eq, do_create_ok by done. run. unfold do_add_completion. msteps. rewrite Hc. msteps.
  by rewrite (proj2 (Z.eqb_neq fn _)) by done.
Qed.
Lemma entries_callable xid results ops : Forall callable (m_entries xid results ops).
Proof.
  revert results. induction ops as [|op ops IH]; intros results; constructor; [|apply IH].
  by destruct op; constructor.
Qed.

Lemma multi_end_wf : wf_MultiHeader multi_end.
Proof. split_and!; [done|by right|done]. Qed.

(** Transactions.  On a usable handle [zoo_amulti], given operations with valid
    paths, returns [ZOK]; the packet is the header, for each operation in order its own
    header and the record a single request would send, and the header that ends the
    list; one entry waits for the answer, with a completion for each operation in the
    order in which [response_end_to_end] runs them, each for its own result. *)
Theorem multi_submitted ops results fn data s ds :
  let xid := w_xid (s_world s) in let chroot := zh_chroot (s_zh s) in
  ample s → outgoing (s_zh s) ds → 0 ≤ xid < INT_MAX → is_unrecoverable (s_zh s) = false →
  zh_close_requested (s_zh s) = 0 → fn ≠ 0 → fn ≠ SYNCHRONOUS_MARKER →
  Forall (m_ok chroot) ops → Z.of_nat (length (multi_request chroot xid ops)) ≤ oa_limit →
  ∃ s', zoo_amulti (map to_op ops) results fn data s = Ret (ZOK, map m_slot ops, s') ∧
    submitted s s' ds (multi_request chroot xid ops) (multi_entry xid results ops fn data) ∧
    request_ok (multi_entry xid results ops fn data) ∧ w_xid (s_world s') = xid + 1.
Proof.
  intros xid chroot Ha Hq Hx Hu Hc Hfn0 Hfn Hok Hl. assert (wf_int xid) as Hwx by (unfold wf_int, in_s; lia).
  unfold zoo_amulti. rewrite M_bind_eq, get_xid_ok by done. run. fold xid.
  unfold multi_request in Hl. rewrite !length_app in Hl.
  set (body := concat _) in *. set (e := enc_MultiHeader multi_end) in *.
  destruct (marshal_filling (header xid ZOO_MULTI_OP) _ (Z.of_nat (length body) + Z.of_nat (length e))
    (next_xid s) (header_appends xid ZOO_MULTI_OP Hwx ltac:(done))) as (oa1 & E1 & Hf1);
    [lia|lia|done|].
  rewrite M_bind_eq, E1. run.
  destruct (sub_ops_ok xid ops results _ (Z.of_nat (length e)) oa1 [] [] (next_xid s) Hok Hu Ha
    ltac:(lia) Hf1) as (oa2 & E2 & Hf2).
  rewrite M_bind_eq, E2. run. cbn [app].
  destruct (writing_ok _ e _ 0 oa2 (next_xid s) (serialize_MultiHeader_appends _ multi_end_wf)
    (filling_eq _ _ _ _ Hf2 (eq_sym (Z.add_0_r _)))) as (oa3 & E3 & Hf3); [done|done|].
  rewrite M_bind_eq. change (mk_MultiHeader (-1) 1 (-1)) with multi_end. rewrite E3. run.
  rewrite <-app_assoc in Hf3. destruct (filling_buffer _ _ _ Hf3) as [Hb Hn].
  destruct (enqueue_spec (next_xid s) (add_entry (multi_entry xid results ops fn data) (next_xid s))
    (add_multi_completion xid fn data (m_entries xid results ops)) oa3 (multi_request chroot xid ops) ds
    (multi_entry xid results ops fn data)
    (λ rc, (if rc <? 0 then ZMARSHALLINGERROR else ZOK, map m_slot ops)) Ha Hq)
    as (s' & E & Hs & Hx'); [|exact Hb|exact Hn|done|by apply add_multi_ok|].
  { split; [apply header_app_ne|]. unfold multi_request. rewrite !length_app. unfold oa_limit in Hl. fold body e. lia. }
  exists s'. split; [exact E|].
  split; [by apply submitted_next_xid|]. split; [|done].
  apply positive_request_ok; [|done]. constructor; [done|done|apply entries_callable].
Qed.
End multi.

(** ** Witness *)
Definition sample_ops : list multi_op :=
  [MCheck (lit "/a") 3; MCreate (lit "/a/b") (lit "v") sample_acl 0 900 64; MDelete (lit "/c") (-1)].
Lemma sample_ops_ok : Forall (m_ok None) sample_ops.
Proof.
  repeat (apply Forall_cons; split); [..|constructor];
    (split_and!; [|apply sample_string; [reflexivity|vm_compute; lia]|reflexivity]); try done.
  split_and!; try done. split; [done|]. split; [done|]. apply Forall_singleton.
  split; [done|]. split; apply sample_string; reflexivity || (vm_compute; lia).
Qed.
Lemma multi_submitted_witness :
  ∃ s', @zoo_amulti sample_host (@st_adaptor sample_host) (map to_op sample_ops) 500 31 310 sample_sys =
      Ret (ZOK, [SlotKept; SlotName 900 64; SlotKept], s') ∧
    zh_sent_requests (s_zh s') = [sample_delete; sample_multi; multi_entry 9 500 sample_ops 31 310].
Proof.
  destruct (@multi_submitted sample_host sample_ops 500 31 310 sample_sys [])
    as (s' & E & Hs & _ & _).
  - done.
  - constructor.
  - done.
  - reflexivity.
  - reflexivity.
  - done.
  - done.
  - exact sample_ops_ok.
  - vm_compute. discriminate.
  - exists s'. split; [exact E|apply Hs].
Defined.
