(* ===== verification/Interest.v ===== *)
(** * Connecting, timeouts and the search for a read/write server

    [zookeeper_interest] of src/zookeeper.c, the other half of the event loop: it keeps
    the server list up to date, opens the connection, finds out that the server has gone
    silent, sends pings, and while the session is read-only looks for a server that
    accepts writes.  The fields of the handle that no other function uses are the record
    [net]; what the operating system answers is the record [env].  Computations over
    both and the session are in the monad [MI]. *)

From Stdlib Require Import Floats.SpecFloat.
From S2P Require Import Prelude Path Addrvec Hosts Handshake Transport Handle Session.
Local Open Scope Z_scope.
#[local] Set Warnings "-register-all".

Abbreviation ZOPERATIONTIMEOUT := (-7).

(** ** State *)

(** [n_addr_rw_server] is the field [zh->addr_rw_server]; [n_rw_known] says that the static
    variable [addr_rw_server] points to it. *)
Record net := mk_net {
  n_next_deadline : timeval;
  n_last_ping_rw : timeval;
  n_ping_rw_timeout : Z;
  n_disable_reconnection_attempt : Z;
  n_addr_rw_server : sockaddr;
  n_rw_known : bool;
}.
Definition set_n_next_deadline (x : timeval) (n : net) : net :=
  mk_net x (n_last_ping_rw n) (n_ping_rw_timeout n) (n_disable_reconnection_attempt n)
    (n_addr_rw_server n) (n_rw_known n).
Definition set_n_last_ping_rw (x : timeval) (n : net) : net :=
  mk_net (n_next_deadline n) x (n_ping_rw_timeout n) (n_disable_reconnection_attempt n)
    (n_addr_rw_server n) (n_rw_known n).
Definition set_n_ping_rw_timeout (x : Z) (n : net) : net :=
  mk_net (n_next_deadline n) (n_last_ping_rw n) x (n_disable_reconnection_attempt n)
    (n_addr_rw_server n) (n_rw_known n).
Definition set_n_addr_rw_server (x : sockaddr) (n : net) : net :=
  mk_net (n_next_deadline n) (n_last_ping_rw n) (n_ping_rw_timeout n)
    (n_disable_reconnection_attempt n) x (n_rw_known n).
Definition set_n_rw_known (x : bool) (n : net) : net :=
  mk_net (n_next_deadline n) (n_last_ping_rw n) (n_ping_rw_timeout n)
    (n_disable_reconnection_attempt n) (n_addr_rw_server n) x.

(** [connect]: done at once, under way ([EWOULDBLOCK] or [EINPROGRESS]), or refused. *)
Inductive connect_result := ConnectDone | ConnectInProgress | ConnectFailed.
(** [socket] and then [connect] for the session. *)
Inductive dial := NoSocket | Socket (fd : nat) (c : connect_result).
(** The same for the search for a read/write server, then [send] and [recv]. *)
Inductive talk := NotSent | NotReceived | Reply (reply : list byte).
Inductive probe := ProbeNoSocket | Probe (c : connect_result) (t : talk).

(** What the operating system will answer, in the order of the calls; the numbers that
    [drand48] returns, one for each use; the addresses [connect] has been called with. *)
Record env := mk_env {
  e_resolving : resolving;
  e_drand : list spec_float;
  e_dials : list dial;
  e_probes : list probe;
  e_attempts : list sockaddr;
}.
Definition set_e_drand (x : list spec_float) (e : env) : env :=
  mk_env (e_resolving e) x (e_dials e) (e_probes e) (e_attempts e).
Definition set_e_dials (x : list dial) (e : env) : env :=
  mk_env (e_resolving e) (e_drand e) x (e_probes e) (e_attempts e).
Definition set_e_probes (x : list probe) (e : env) : env :=
  mk_env (e_resolving e) (e_drand e) (e_dials e) x (e_attempts e).
Definition set_e_attempts (x : list sockaddr) (e : env) : env :=
  mk_env (e_resolving e) (e_drand e) (e_dials e) (e_probes e) x.

(** ** The monad *)
Record isys := mk_isys { i_sys : sys; i_net : net; i_env : env }.
Definition MI (A : Type) : Type := isys → outcome (A * isys).
Global Instance MI_ret : MRet MI := λ A a s, Ret (a, s).
Global Instance MI_bind : MBind MI := λ A B f m s, '(a, s) ← m s; f a s.

(** A computation on the session. *)
Definition sess {A} (m : M A) : MI A := λ s,
  '(a, s') ← m (i_sys s); Ret (a, mk_isys s' (i_net s) (i_env s)).
Definition getn {A} (f : net → A) : MI A := λ s, Ret (f (i_net s), s).
Definition modifyn (f : net → net) : MI () := λ s,
  Ret ((), mk_isys (i_sys s) (f (i_net s)) (i_env s)).
Definition failing {A} (m : outcome A) : MI A := λ s, a ← m; Ret (a, s).

Definition drand48 : MI spec_float := λ s,
  Ret (default (double_of_Z 0) (head (e_drand (i_env s))),
       mk_isys (i_sys s) (i_net s) (set_e_drand (tail (e_drand (i_env s))) (i_env s))).
Definition next_dial : MI dial := λ s,
  Ret (default NoSocket (head (e_dials (i_env s))),
       mk_isys (i_sys s) (i_net s) (set_e_dials (tail (e_dials (i_env s))) (i_env s))).
Definition next_probe : MI probe := λ s,
  Ret (default ProbeNoSocket (head (e_probes (i_env s))),
       mk_isys (i_sys s) (i_net s) (set_e_probes (tail (e_probes (i_env s))) (i_env s))).

(** The result of an [int] or [long] operation. *)
Definition checked (w z : Z) : MI Z := if decide (in_s w z) then mret z else failing UB.

(** ** Servers *)
Definition mupdate_addrs : MI Z := λ s,
  let sy := i_sys s in
  '(drand, s) ← drand48 s;
  '(rc, sv, o) ← update_addrs (Some (zh_servers (s_zh sy))) (resolve_hosts (e_resolving (i_env s)))
                  drand (w_alloc (s_world sy));
  Ret (rc, mk_isys (mk_sys (set_zh_servers (default (zh_servers (s_zh sy)) sv) (s_zh sy))
                           (set_w_alloc o (s_world sy))) (i_net s) (i_env s)).
Definition mcycle_next_server : MI () :=
  drand ← drand48;
  sv ← sess (get zh_servers);
  sv ← failing (zoo_cycle_next_server sv drand);
  sess (modify (set_zh_servers sv)).

Definition zookeeper_connect (addr : sockaddr) (c : connect_result) : MI Z := λ s,
  Ret (match c with ConnectDone => 0 | _ => -1 end,
       mk_isys (i_sys s) (i_net s) (set_e_attempts (e_attempts (i_env s) ++ [addr]) (i_env s))).

(** ** The search for a read/write server *)
Abbreviation MAX_RW_TIMEOUT := 60000.
Abbreviation MIN_RW_TIMEOUT := 200.

(** [strcmp("rw", buf) == 0] after [recv(sock, buf, 10, 0)] into a zeroed [buf]. *)
Definition says_rw (reply : list byte) : bool :=
  bool_decide (c_str (take 10 reply) = lit "rw").
Definition ping_rw_server : MI bool :=
  addrs ← sess (get (λ zh, sv_addrs (zh_servers zh)));
  a ← failing (addrvec_peek addrs);
  modifyn (set_n_addr_rw_server a);;
  p ← next_probe;
  match p with
  | ProbeNoSocket => mret false
  | Probe c t =>
      rc ← zookeeper_connect a c;
      if rc <? 0 then mret false else
      let rc := match t with Reply reply => says_rw reply | _ => false end in
      modifyn (set_n_rw_known rc);; mret rc
  end.

(** ** [zookeeper_interest] *)
Section interest.
Context `{Host, Locals, Adaptor}.

(** What the caller's variables [*fd], [*interest] and [*tv] hold. *)
Record interest := mk_interest { in_fd : Z; in_events : Z; in_tv : timeval }.

(** The branch for a handle without a connection: [inl rc] leaves the function. *)
Definition connect_phase : MI (Z + timeval) :=
  delay ← sess (get zh_delay);
  disabled ← getn n_disable_reconnection_attempt;
  recv_timeout ← sess (get zh_recv_timeout);
  if (delay =? 1) || (disabled =? 1) then
    sess (set_zh_delay :=! 0);;
    mret (inr (get_timeval (Z.quot recv_timeout 60)))
  else
  rw ← getn n_rw_known;
  (if rw : bool then
     a ← getn n_addr_rw_server;
     sess (modify (on_servers (with_cur a)));;
     modifyn (set_n_rw_known false)
   else mcycle_next_server);;
  d ← next_dial;
  match d with
  | NoSocket =>
      sess (set_fd (-1));;
      rc ← sess (handle_socket_error_msg ZSYSTEMERROR); mret (inl rc)
  | Socket fd c =>
      sess (set_fd (Z.of_nat fd));;
      addr_cur ← sess (get (λ zh, sv_addr_cur (zh_servers zh)));
      rc ← zookeeper_connect addr_cur c;
      if rc =? -1 then
        match c with
        | ConnectInProgress =>
            sess (set_state ZOO_CONNECTING_STATE);;
            mret (inr (get_timeval (Z.quot recv_timeout 3)))
        | _ => rc ← sess (handle_socket_error_msg ZCONNECTIONLOSS); mret (inl rc)
        end
      else
        rc ← sess prime_connection;
        if negb (rc =? 0) then mret (inl rc) else
        recv_timeout ← sess (get zh_recv_timeout);
        mret (inr (get_timeval (Z.quot recv_timeout 3)))
  end.

(** A ping if the connection has been idle: the time to the next one, or [inl rc]. *)
Definition ping_phase (recv_timeout idle_send : Z) : MI (Z + Z) :=
  connected ← sess (get is_connected);
  if negb connected then mret (inr (Z.quot recv_timeout 3)) else
  send_to ← checked 32 (Z.quot recv_timeout 3 - idle_send);
  if 0 <? send_to then mret (inr send_to) else
  requests ← sess (get zh_sent_requests);
  rc ← (if bool_decide (requests = []) then sess send_ping else mret 0);
  if rc <? 0 then mret (inl rc) else mret (inr (Z.quot recv_timeout 3)).

(** The read-only session looks for a better server. *)
Definition rw_phase (now : timeval) (send_to : Z) : MI Z :=
  state ← sess (get zh_state);
  if negb (state =? ZOO_READONLY_STATE) then mret send_to else
  last_ping_rw ← getn n_last_ping_rw;
  timeout ← getn n_ping_rw_timeout;
  let idle_ping_rw := calculate_interval last_ping_rw now in
  idle_ping_rw ←
    (if timeout <=? idle_ping_rw then
       modifyn (set_n_last_ping_rw now);;
       doubled ← checked 32 (timeout * 2);
       modifyn (set_n_ping_rw_timeout (Z.min doubled MAX_RW_TIMEOUT));;
       found ← ping_rw_server;
       addrs ← sess (get (λ zh, sv_addrs (zh_servers zh)));
       (if found : bool then
          _ ← failing (addrvec_peek addrs);
          modifyn (set_n_ping_rw_timeout MIN_RW_TIMEOUT);;
          sess (cleanup ZOK)
        else
          '(_, addrs) ← failing (addrvec_next addrs);
          sess (modify (on_servers (with_addrs addrs))));;
       mret 0
     else mret idle_ping_rw);
  timeout ← getn n_ping_rw_timeout;
  left_ ← checked 32 (timeout - idle_ping_rw);
  mret (Z.min send_to left_).

(** [zh->next_deadline = now + tv]. *)
Definition add_timeval (now tv : timeval) : MI timeval :=
  sec ← checked 64 (tv_sec now + tv_sec tv);
  usec ← checked 64 (tv_usec now + tv_usec tv);
  if 1000000 <? usec then
    sec ← checked 64 (sec + Z.quot usec 1000000);
    mret (mk_timeval sec (Z.rem usec 1000000))
  else mret (mk_timeval sec usec).

(** The branch for a handle with a connection. *)
Definition watch_phase (now : timeval) (out : interest) : MI (Z * interest) :=
  last_recv ← sess (get zh_last_recv);
  last_send ← sess (get zh_last_send);
  recv_timeout ← sess (get zh_recv_timeout);
  let idle_recv := calculate_interval last_recv now in
  let idle_send := calculate_interval last_send now in
  doubled ← checked 32 (recv_timeout * 2);
  recv_to ← checked 32 (Z.quot doubled 3 - idle_recv);
  if recv_to <=? 0 then
    checked 32 (- recv_to);;
    rc ← sess (handle_socket_error_msg ZOPERATIONTIMEOUT);
    mret (rc, mk_interest (in_fd out) 0 (get_timeval 0))
  else
  send_to ← ping_phase recv_timeout idle_send;
  match send_to with
  | inl rc => mret (rc, out)
  | inr send_to =>
      send_to ← rw_phase now send_to;
      let tv := get_timeval (Z.min recv_to send_to) in
      deadline ← add_timeval now tv;
      modifyn (set_n_next_deadline deadline);;
      to_send ← sess (get zh_to_send);
      connected ← sess (get is_connected);
      state ← sess (get zh_state);
      let write := (negb (bool_decide (to_send = [])) && connected) ||
                   (state =? ZOO_CONNECTING_STATE) in
      mret (ZOK, mk_interest (in_fd out)
                   (if write then Z.lor ZOOKEEPER_READ ZOOKEEPER_WRITE else ZOOKEEPER_READ) tv)
  end.

Definition connected_now (now : timeval) : MI () :=
  sess (set_zh_last_recv :=! now);;
  sess (set_zh_last_send :=! now);;
  sess (set_zh_last_ping :=! now);;
  modifyn (set_n_last_ping_rw now);;
  modifyn (set_n_ping_rw_timeout MIN_RW_TIMEOUT).

(** The time that the deadline was missed by is only logged. *)
Definition zookeeper_interest (out : interest) : MI (Z * interest) :=
  unrecoverable ← sess (get is_unrecoverable);
  if unrecoverable : bool then mret (ZINVALIDSTATE, out) else
  now ← sess get_system_time;
  sess api_prolog;;
  rc ← mupdate_addrs;
  if negb (rc =? ZOK) then rc ← sess (api_epilog rc); mret (rc, out) else
  fd ← sess (get zh_fd);
  let out := mk_interest fd 0 (mk_timeval 0 0) in
  connecting ← (if fd =? -1 then connect_phase else mret (inr (in_tv out)));
  match connecting with
  | inl rc => rc ← sess (api_epilog rc); mret (rc, out)
  | inr tv =>
      out ← (if fd =? -1 then
               connected_now now;; fd ← sess (get zh_fd); mret (mk_interest fd 0 tv)
             else mret out);
      fd ← sess (get zh_fd);
      '(rc, out) ← (if negb (fd =? -1) then watch_phase now out else mret (ZOK, out));
      rc ← sess (api_epilog rc); mret (rc, out)
  end.
End interest.
