(* ===== verification/InterestTheorems.v ===== *)
(** * Theorems about [zookeeper_interest]

    The keep-alive of an established session and what happens when the server is silent. *)

From Stdlib Require Import Floats.SpecFloat.
From S2P Require Import Prelude RecordIO RecordIOFacts Jute JuteSpec JuteTheorems Path.
From S2P Require Import Watchers WatchersFacts WatchersTheorems Addrvec AddrvecFacts Hosts.
From S2P Require Import HostsTheorems Handshake Transport TransportFacts Handle Session.
From S2P Require Import SessionFacts SessionTheorems ResponseTheorems EstablishTheorems.
From S2P Require Import RequestTheorems Interest.
Local Open Scope Z_scope.

(** ** The monad *)
Lemma MI_bind_eq {A B} (m : MI A) (f : A → MI B) s : (m ≫= f) s = '(a, s') ← m s; f a s'.
Proof. done. Qed.
Lemma MI_ret_eq {A} (a : A) s : (mret a : MI A) s = Ret (a, s).
Proof. done. Qed.
Lemma sess_eq {A} (m : M A) s :
  sess m s = '(a, s') ← m (i_sys s); Ret (a, mk_isys s' (i_net s) (i_env s)).
Proof. done. Qed.
Lemma sess_ret {A} (m : M A) s a s' :
  m (i_sys s) = Ret (a, s') → sess m s = Ret (a, mk_isys s' (i_net s) (i_env s)).
Proof. intros E. by rewrite sess_eq, E. Qed.
Lemma sess_get_eq {A} (f : zhandle → A) s : sess (get f) s = Ret (f (s_zh (i_sys s)), s).
Proof. by destruct s. Qed.
Lemma getn_eq {A} (f : net → A) s : getn f s = Ret (f (i_net s), s).
Proof. done. Qed.
Lemma modifyn_eq f s : modifyn f s = Ret ((), mk_isys (i_sys s) (f (i_net s)) (i_env s)).
Proof. done. Qed.
Lemma sess_modify_eq f s :
  sess (modify f) s =
    Ret ((), mk_isys (mk_sys (f (s_zh (i_sys s))) (s_world (i_sys s))) (i_net s) (i_env s)).
Proof. done. Qed.
Lemma checked_ok w z s : in_s w z → checked w z s = Ret (z, s).
Proof. intros Hz. unfold checked. by rewrite decide_True. Qed.
Ltac istep :=
  rewrite ?MI_bind_eq, ?MI_ret_eq, ?sess_get_eq, ?getn_eq, ?modifyn_eq, ?sess_modify_eq; run.
Ltac isteps := repeat (progress istep).

Abbreviation handle s := (s_zh (i_sys s)).
Abbreviation outside s := (s_world (i_sys s)).

(** ** The beginning *)

(** The host string still resolves to the servers known. *)
Definition stable (s : isys) : Prop :=
  ∃ h resolved, sv_hostname (zh_servers (handle s)) = Some h ∧ av_wf resolved ∧
    resolve_hosts (e_resolving (i_env s)) h [] = Ret (0, resolved, []) ∧
    addrvec_eq (sv_addrs (zh_servers (handle s))) resolved = Ret true.

(** The clock has been read, the handle is in use and a random number was drawn. *)
Definition now_of (s : isys) : timeval := fst (clock_tick (outside s)).
Definition started (s : isys) : isys :=
  mk_isys (mk_sys (add_ref (handle s) 1) (snd (clock_tick (outside s)))) (i_net s)
    (set_e_drand (tail (e_drand (i_env s))) (i_env s)).

Section facts.
Context `{Host, Locals}.

Lemma set_servers_same zh : set_zh_servers (zh_servers zh) zh = zh.
Proof. by destruct zh. Qed.

Lemma mupdate_stable s :
  ample (i_sys s) → stable s →
  mupdate_addrs s = Ret (0, mk_isys (i_sys s) (i_net s)
                              (set_e_drand (tail (e_drand (i_env s))) (i_env s))).
Proof.
  intros Ha (h & resolved & Hh & _ & Hr & He). unfold mupdate_addrs, drand48. run.
  unfold ample in Ha. rewrite Ha. unfold update_addrs. rewrite Hh. cbn [alloc negb i_env e_resolving set_e_drand].
  rewrite Hr. run. rewrite He. run. cbn [default from_option id].
  rewrite set_servers_same, set_w_alloc_nil by done. by destruct (i_sys s).
Qed.

Lemma interest_begins out s :
  is_unrecoverable (handle s) = false → ample (i_sys s) → stable s →
  zookeeper_interest out s =
    (let out := mk_interest (zh_fd (handle s)) 0 (mk_timeval 0 0) in
     '(connecting, s1) ← (if zh_fd (handle s) =? -1 then connect_phase (started s)
                          else Ret (inr (in_tv out), started s));
     match connecting with
     | inl rc => '(rc, s1) ← sess (api_epilog rc) s1; Ret (rc, out, s1)
     | inr tv =>
         '(out, s1) ← (if zh_fd (handle s) =? -1 then
                         '(_, s1) ← connected_now (now_of s) s1;
                         Ret (mk_interest (zh_fd (handle s1)) 0 tv, s1)
                       else Ret (out, s1));
         '(rc, out, s1) ← (if negb (zh_fd (handle s1) =? -1) then watch_phase (now_of s) out s1
                           else Ret (ZOK, out, s1));
         '(rc, s1) ← sess (api_epilog rc) s1; Ret (rc, out, s1)
     end).
Proof.
  intros Hu Ha Hs. unfold zookeeper_interest. isteps. rewrite Hu.
  assert (sess get_system_time s =
    Ret (now_of s, mk_isys (mk_sys (handle s) (snd (clock_tick (outside s)))) (i_net s) (i_env s))) as E.
  { apply sess_ret. unfold get_system_time, now_of, clock_tick.
    destruct (w_clock (outside s)); [by destruct (i_sys s)|done]. }
  rewrite MI_bind_eq, E. run. set (s1 := mk_isys _ _ _).
  set (s2 := mk_isys (mk_sys (add_ref (handle s) 1) (snd (clock_tick (outside s))))
                (i_net s) (i_env s)).
  assert (sess api_prolog s1 = Ret ((), s2)) as Ep by done.
  rewrite MI_bind_eq, Ep. run.
  assert (mupdate_addrs s2 = Ret (0, started s)) as Em.
  { apply (mupdate_stable s2); [|done].
    unfold ample in *. simpl. unfold clock_tick. by destruct (w_clock _). }
  rewrite MI_bind_eq, Em. run. isteps. change (zh_fd (handle (started s))) with (zh_fd (handle s)).
  clearbody s2. clear s1 E Ep Em.
  destruct (zh_fd (handle s) =? -1) eqn:Efd.
  - destruct (connect_phase (started s)) as [[[rc|tv] s3]| | |];
      [by isteps; destruct (sess _ _) as [[]| | |]| |done..].
    isteps. destruct (connected_now (now_of s) s3) as [[[] s4]| | |]; [|done..]. isteps.
    destruct (negb (zh_fd (handle s4) =? -1)); isteps; [|done].
    by destruct (watch_phase _ _ _) as [[[rc out'] s5]| | |]; isteps.
  - isteps. destruct (negb _); isteps; [|done].
    by destruct (watch_phase _ _ _) as [[[rc out'] s5]| | |]; isteps.
Qed.

(** ** Pings *)
Definition ping_bytes : list byte := enc_RequestHeader (mk_RequestHeader PING_XID 11).
Lemma ping_sendable : sendable ping_bytes ∧ Z.of_nat (length ping_bytes) ≤ oa_limit.
Proof.
  assert (length ping_bytes = 8%nat) as Hl
    by (unfold ping_bytes, enc_RequestHeader, enc_int; by rewrite length_app, !length_be_split).
  unfold sendable, oa_limit. rewrite Hl. split; [split; [by intros E; rewrite E in Hl|lia]|lia].
Qed.

Lemma send_ping_spec s ds :
  ample s → outgoing (s_zh s) ds →
  ∃ rc q t now w ds',
    let zh' := sent_off q t (set_zh_last_ping now (s_zh s)) in
    send_ping s = Ret (rc, mk_sys zh' w) ∧ outgoing zh' ds' ∧
    out_stream (mk_sys zh' w) ds' = out_stream s ds ++ frame ping_bytes ∧
    w_calls w = w_calls (s_world s) ∧ w_alloc w = [].
Proof.
  intros Ha Hq. destruct ping_sendable as [Hs Hl]. unfold send_ping.
  destruct (marshal_ok _ _ s (header_appends PING_XID 11 ltac:(done) ltac:(done)) Hl Ha)
    as (oa & E & Hb & Hn). rewrite M_bind_eq, E. run.
  assert (get_system_time s = Ret (fst (clock_tick (s_world s)), mk_sys (s_zh s) (snd (clock_tick (s_world s)))))
    as Et by (unfold get_system_time, clock_tick; destruct (w_clock (s_world s)); [by destruct s|done]).
  destruct (clock_tick (s_world s)) as [now w1] eqn:Ec.
  destruct (clock_tick_keeps _ _ _ Ec) as (Ka & Ki & Kc).
  assert (w_wire w1 = w_wire (s_world s)) as Kw
    by (unfold clock_tick in Ec; by destruct (w_clock (s_world s)); injection Ec as <- <-).
  rewrite M_bind_eq, Et. msteps. cbn [s_zh s_world]. unfold unless_failed. run.
  set (s1 := mk_sys (set_zh_last_ping now (s_zh s)) w1).
  assert (ample s1) as Ha1 by (unfold ample in *; simpl; congruence).
  unfold queue_buffer_bytes. rewrite Hb, Hn.
  change (enc_RequestHeader (mk_RequestHeader PING_XID 11)) with ping_bytes.
  rewrite (queue_bytes_ok false ping_bytes s1 Ha1) by apply Hs. run. set (s2 := mk_sys _ _).
  destruct (out_stream_queue s1 ds ping_bytes (s_zh s2) Hq Hs eq_refl) as [Hq2 Hs2].
  destruct (adaptor_send_queue_spec s2 (ds ++ [ping_bytes]) Hq2)
    as (rc & q & t & w & ds' & E2 & Hq3 & Hs3 & Hc & Hal & Hxid & Hin).
  exists rc, q, t, now, w, ds'.
  assert (sent_off q t (s_zh s2) = sent_off q t (set_zh_last_ping now (s_zh s))) as Hso by done.
  rewrite Hso in *. split_and!; [exact E2|exact Hq3| | |].
  - rewrite Hs3. change (mk_sys (s_zh s2) (s_world s1)) with s2 in Hs2. rewrite Hs2. f_equal.
    unfold out_stream. cbn [s_zh s_world]. simpl. by rewrite Kw.
  - rewrite Hc. simpl. congruence.
  - rewrite Hal. exact Ha1.
Qed.

(** ** The times *)

(** Times an application uses: a positive timeout of at most twelve days, a clock that
    has not gone back since the last packets, and is itself in range. *)
Record timely (zh : zhandle) (now : timeval) : Prop := {
  tm_timeout : 0 < zh_recv_timeout zh < 2 ^ 30;
  tm_recv : 0 ≤ calculate_interval (zh_last_recv zh) now;
  tm_send : 0 ≤ calculate_interval (zh_last_send zh) now;
  tm_sec : 0 ≤ tv_sec now < 2 ^ 62;
  tm_usec : 0 ≤ tv_usec now < 1000000;
}.
(** Milliseconds until the server is given up, and until a ping is due. *)
Definition recv_left (zh : zhandle) (now : timeval) : Z :=
  Z.quot (zh_recv_timeout zh * 2) 3 - calculate_interval (zh_last_recv zh) now.
Definition send_left (zh : zhandle) (now : timeval) : Z :=
  Z.quot (zh_recv_timeout zh) 3 - calculate_interval (zh_last_send zh) now.

Lemma interval_int a b : in_s 32 (calculate_interval a b).
Proof. by apply wrap_s_range. Qed.

Lemma add_timeval_ok now t s :
  0 ≤ tv_sec now < 2 ^ 62 → 0 ≤ tv_usec now < 1000000 → in_s 32 t →
  ∃ d, add_timeval now (get_timeval t) s = Ret (d, s).
Proof.
  intros Hs Hu Ht. unfold in_s in Ht. unfold add_timeval, get_timeval.
  set (i := if t <? 0 then 0 else t).
  assert (0 ≤ i < 2 ^ 31) as Hi by (unfold i; destruct (Z.ltb_spec t 0); lia).
  cbn [tv_sec tv_usec]. isteps.
  rewrite checked_ok by (unfold in_s; Z.to_euclidean_division_equations; lia). isteps.
  rewrite checked_ok by (unfold in_s; Z.to_euclidean_division_equations; lia). isteps.
  destruct (1000000 <? _); [|by eexists]. isteps.
  rewrite checked_ok by (unfold in_s; Z.to_euclidean_division_equations; lia). isteps. by eexists.
Qed.

Lemma watch_begins now out s :
  timely (handle s) now →
  watch_phase now out s =
    (if recv_left (handle s) now <=? 0 then
       '(rc, s1) ← sess (handle_socket_error_msg ZOPERATIONTIMEOUT) s;
       Ret (rc, mk_interest (in_fd out) 0 (get_timeval 0), s1)
     else
       '(send_to, s1) ← ping_phase (zh_recv_timeout (handle s))
                          (calculate_interval (zh_last_send (handle s)) now) s;
       match send_to with
       | inl rc => Ret (rc, out, s1)
       | inr send_to =>
           '(send_to, s1) ← rw_phase now send_to s1;
           let tv := get_timeval (Z.min (recv_left (handle s) now) send_to) in
           '(deadline, s1) ← add_timeval now tv s1;
           let s1 := mk_isys (i_sys s1) (set_n_next_deadline deadline (i_net s1)) (i_env s1) in
           let write := (negb (bool_decide (zh_to_send (handle s1) = [])) && is_connected (handle s1))
                        || (zh_state (handle s1) =? ZOO_CONNECTING_STATE) in
           Ret (ZOK, mk_interest (in_fd out) (if write then 3 else 2) tv, s1)
       end).
Proof.
  intros [Ht Hr Hs _ _]. unfold watch_phase. isteps. unfold recv_left.
  pose proof (interval_int (zh_last_recv (handle s)) now) as Hi. unfold in_s in Hi.
  set (rt := zh_recv_timeout (handle s)) in *. set (ir := calculate_interval (zh_last_recv _) now) in *.
  rewrite checked_ok by (unfold in_s; lia). isteps.
  rewrite checked_ok by (unfold in_s; Z.to_euclidean_division_equations; lia). isteps.
  destruct (Z.leb_spec (Z.quot (rt * 2) 3 - ir) 0) as [Hle|Hle]; isteps.
  - rewrite checked_ok by (unfold in_s; Z.to_euclidean_division_equations; lia). isteps.
    by destruct (sess _ s) as [[]| | |].
  - destruct (ping_phase _ _ s) as [[[rc|st] s1]| | |]; [done| |done..]. isteps.
    destruct (rw_phase now st s1) as [[st' s2]| | |]; [|done..]. isteps.
    destruct (add_timeval _ _ s2) as [[d s3]| | |]; [|done..]. by isteps.
Qed.

(** A session that may write does not look for another server. *)
Lemma rw_phase_connected now t s :
  zh_state (handle s) ≠ ZOO_READONLY_STATE → rw_phase now t s = Ret (t, s).
Proof.
  intros Hs. unfold rw_phase. isteps. by rewrite (proj2 (Z.eqb_neq _ _)) by done.
Qed.

(** What is left alone while nothing happens. *)
Record undisturbed (zh zh' : zhandle) : Prop := {
  ud_servers : zh_servers zh' = zh_servers zh;
  ud_requests : zh_sent_requests zh' = zh_sent_requests zh;
  ud_watches : zh_watches zh' = zh_watches zh;
  ud_queue : zh_completions_to_process zh' = zh_completions_to_process zh;
  ud_closing : zh_close_requested zh' = zh_close_requested zh;
  ud_counter : zh_ref_counter zh' = zh_ref_counter zh;
  ud_timeout : zh_recv_timeout zh' = zh_recv_timeout zh;
}.
Lemma undisturbed_refl zh : undisturbed zh zh.
Proof. by split. Qed.
Lemma undisturbed_trans a b c : undisturbed a b → undisturbed b c → undisturbed a c.
Proof. intros [] []. split; congruence. Qed.

(** A ping is due: a third of the timeout has passed and no request is under way. *)
Definition ping_due (zh : zhandle) (now : timeval) : bool :=
  (send_left zh now <=? 0) && bool_decide (zh_sent_requests zh = []).
Definition next_send (zh : zhandle) (now : timeval) : Z :=
  if send_left zh now <=? 0 then Z.quot (zh_recv_timeout zh) 3 else send_left zh now.

Lemma ping_phase_spec now s ds :
  ample (i_sys s) → timely (handle s) now → is_connected (handle s) = true →
  outgoing (handle s) ds →
  ∃ r zh' w' ds',
    ping_phase (zh_recv_timeout (handle s)) (calculate_interval (zh_last_send (handle s)) now) s =
      Ret (r, mk_isys (mk_sys zh' w') (i_net s) (i_env s)) ∧
    undisturbed (handle s) zh' ∧ w_calls w' = w_calls (outside s) ∧ w_alloc w' = [] ∧
    outgoing zh' ds' ∧
    out_stream (mk_sys zh' w') ds' =
      out_stream (i_sys s) ds ++ (if ping_due (handle s) now then frame ping_bytes else []) ∧
    (r = inr (next_send (handle s) now) ∨ ping_due (handle s) now = true ∧ ∃ rc, rc < 0 ∧ r = inl rc).
Proof.
  intros Ha [Ht Hr Hs _ _] Hc Hq. unfold ping_phase. isteps. rewrite Hc. cbn [negb].
  unfold ping_due, next_send, send_left.
  pose proof (interval_int (zh_last_send (handle s)) now) as Hi. unfold in_s in Hi.
  rewrite MI_bind_eq, checked_ok by (unfold in_s; Z.to_euclidean_division_equations; lia). isteps.
  set (left_ := Z.quot _ _ - _). rewrite Z.ltb_antisym.
  assert (∀ r : Z + Z, ∃ r' zh' w' ds', Ret (r, s) = Ret (r', mk_isys (mk_sys zh' w') (i_net s) (i_env s)) ∧
    r' = r ∧ undisturbed (handle s) zh' ∧ w_calls w' = w_calls (outside s) ∧ w_alloc w' = [] ∧
    outgoing zh' ds' ∧ out_stream (mk_sys zh' w') ds' = out_stream (i_sys s) ds ++ []) as Hsame.
  { intros r. exists r, (handle s), (outside s), ds. split_and!; [by destruct s as [[] ? ?]|done| |done..|].
    - apply undisturbed_refl.
    - rewrite app_nil_r. by destruct (i_sys s). }
  destruct (left_ <=? 0); cbn [negb andb].
  2: { destruct (Hsame (inr left_)) as (r & zh' & w' & ds' & E & -> & ? & ? & ? & ? & ?).
       exists (inr left_), zh', w', ds'. split_and!; auto. }
  isteps. case_bool_decide as Hreq.
  - destruct (send_ping_spec (i_sys s) ds Ha Hq) as (rc & q & t & n & w & ds' & E & Hq' & Hs' & Hcs & Hal).
    rewrite sess_eq, E. isteps. set (zh' := sent_off q t _) in *.
    assert (undisturbed (handle s) zh') by (unfold zh', sent_off; destruct t; by split).
    destruct (Z.ltb_spec rc 0); isteps; eexists _, zh', w, ds'; split_and!; eauto 6.
  - isteps. destruct (Hsame (inr (Z.quot (zh_recv_timeout (handle s)) 3)))
      as (r & zh' & w' & ds' & E & -> & ? & ? & ? & ? & ?).
    eexists _, zh', w', ds'. split_and!; eauto.
Qed.

Lemma clock_ample s : ample s → w_alloc (snd (clock_tick (s_world s))) = [].
Proof. unfold ample, clock_tick. by destruct (w_clock _). Qed.
Lemma started_ample s : ample (i_sys s) → ample (i_sys (started s)).
Proof. apply clock_ample. Qed.
Lemma started_timely s : timely (handle s) (now_of s) → timely (handle (started s)) (now_of s).
Proof. by intros []. Qed.
Lemma started_calls s : w_calls (outside (started s)) = w_calls (outside s).
Proof. simpl. unfold clock_tick. by destruct (w_clock _). Qed.
Lemma started_stream s ds : out_stream (i_sys (started s)) ds = out_stream (i_sys s) ds.
Proof. unfold out_stream. simpl. unfold clock_tick. by destruct (w_clock _). Qed.
Lemma usable_recoverable zh : usable zh → is_unrecoverable zh = false.
Proof. intros [_ Hs _ _ _]. apply Z.ltb_ge. lia. Qed.

(** The branch for an open connection. *)
Lemma interest_open out s :
  usable (handle s) → ample (i_sys s) → stable s →
  zookeeper_interest out s =
    ('(rc, out, s1) ← watch_phase (now_of s) (mk_interest (zh_fd (handle s)) 0 (mk_timeval 0 0))
                       (started s);
     '(rc, s1) ← sess (api_epilog rc) s1; Ret (rc, out, s1)).
Proof.
  intros Hu Ha Hs. rewrite interest_begins by (done || by apply usable_recoverable). cbv zeta.
  pose proof (us_fd _ Hu) as Hfd. rewrite (proj2 (Z.eqb_neq _ _)) by done. run.
  change (zh_fd (handle (started s))) with (zh_fd (handle s)).
  by rewrite (proj2 (Z.eqb_neq _ _)) by done.
Qed.

Lemma epilog_open rc s :
  zh_close_requested (handle s) = 0 →
  sess (api_epilog rc) s =
    Ret (rc, mk_isys (mk_sys (add_ref (handle s) (-1)) (outside s)) (i_net s) (i_env s)).
Proof. intros Hc. apply sess_ret. by apply api_epilog_open. Qed.
End facts.

Section theorems.
Context `{Host, Locals}.

Lemma started_idle s A : idle (i_sys s) A → idle (i_sys (started s)) A.
Proof.
  intros [? ? ? ? ? ? ?]. split; try done. by apply clock_ample.
Qed.

(** The connection is dropped by [zookeeper_interest]. *)
Lemma interest_loss s A rc :
  idle (i_sys s) A → wf_int rc → rc ≠ 0 → 0 ≤ zh_state (handle s) < 2 ^ 31 →
  zh_close_requested (handle s) = 0 →
  av_wf (sv_addrs (zh_servers (handle s))) → elems (sv_addrs (zh_servers (handle s))) ≠ [] →
  ∃ zh' l, sess (handle_socket_error_msg rc) s =
      Ret (rc, mk_isys (record_calls
        (from_option (λ st, session_calls st l) [] (announced (handle s)) ++ loss_calls rc (handle s))
        (mk_sys zh' (outside s))) (i_net s) (i_env s)) ∧
    everyone (i_sys s) A l ∧ zh_sent_requests zh' = [] ∧ zh_to_send zh' = [] ∧
    turned (zh_servers (handle s)) zh' ∧ zh_ref_counter zh' = zh_ref_counter (handle s) ∧
    zh_close_requested zh' = 0 ∧ idle (mk_sys zh' (outside s)) A.
Proof.
  intros Hi Hrc Hne Hst Hcl Hav Hel.
  destruct (handle_error_full (i_sys s) A rc Hi Hrc Hne) as
    (zh' & l & E & Hl & Hi' & H1 & H2 & _ & _ & _ & _ & _ & H3 & H4 & _ & H6);
    [unfold wf_int, in_s; lia|done|done|].
  exists zh', l. split_and!; try done.
  - apply sess_ret. unfold handle_socket_error_msg. by rewrite M_bind_eq, E.
  - congruence.
Qed.

(** The end of [zookeeper_interest]. *)
Definition released (s : isys) : isys :=
  mk_isys (mk_sys (add_ref (handle s) (-1)) (outside s)) (i_net s) (i_env s).
Lemma interest_done now out s rc out' s' :
  watch_phase now out s = Ret (rc, out', s') → zh_close_requested (handle s') = 0 →
  ('(rc, out, s1) ← watch_phase now out s;
   '(rc, s1) ← sess (api_epilog rc) s1; Ret (rc, out, s1)) = Ret (rc, out', released s').
Proof. intros E Hc. rewrite E. run. by rewrite epilog_open. Qed.
Lemma released_idle s A : idle (i_sys s) A → idle (i_sys (released s)) A.
Proof. intros []. by split. Qed.

(** The servers of a handle that has lost its connection. *)
Lemma turned_state sv zh' :
  turned sv zh' → 0 ≤ sv_state sv →
  zh_fd zh' = -1 ∧ zh_state zh' = 0 ∧ sv_reconfig (zh_servers zh') = sv_reconfig sv ∧
  sv_hostname (zh_servers zh') = sv_hostname sv.
Proof.
  intros (x & a & _ & E & _) Hs. unfold zh_fd, zh_state. rewrite E. unfold disconnected_servers.
  cbn [sv_state sv_set_fd]. by rewrite (proj2 (Z.ltb_ge _ 0)) by done.
Qed.

(** C24.  A silent server is given up.  When nothing has been received for two thirds of
    the session timeout, [zookeeper_interest] returns [ZOPERATIONTIMEOUT], asks for no
    events and does what a lost connection does: all watchers are told, every pending
    authentication and outstanding request is failed exactly once, in order, nothing
    stays queued, and the handle turns to the next server. *)
Theorem silent_server_dropped out s A :
  idle (i_sys s) A → usable (handle s) → stable s → timely (handle s) (now_of s) →
  recv_left (handle s) (now_of s) ≤ 0 →
  ∃ l s', zookeeper_interest out s =
      Ret (ZOPERATIONTIMEOUT, mk_interest (zh_fd (handle s)) 0 (mk_timeval 0 0), s') ∧
    everyone (i_sys s) A l ∧
    w_calls (outside s') = w_calls (outside s) ++
      from_option (λ st, session_calls st l) [] (announced (handle s)) ++
      loss_calls ZOPERATIONTIMEOUT (handle s) ∧
    zh_fd (handle s') = -1 ∧ zh_state (handle s') = 0 ∧
    zh_sent_requests (handle s') = [] ∧ zh_to_send (handle s') = [] ∧
    turned (zh_servers (handle s)) (handle s') ∧
    zh_ref_counter (handle s') = zh_ref_counter (handle s) ∧ idle (i_sys s') A.
Proof.
  intros Hi Hu Hs Ht Hr. pose proof Hu as [Hfd Hst Hcl Hav Hel].
  destruct (interest_loss (started s) A ZOPERATIONTIMEOUT) as
    (zh' & l & E & Hl & H1 & H2 & H3 & H4 & H5 & H6);
    [by apply started_idle|unfold wf_int, in_s; lia|done..|].
  set (s1 := mk_isys _ _ _) in E.
  assert (watch_phase (now_of s) (mk_interest (zh_fd (handle s)) 0 (mk_timeval 0 0)) (started s) =
    Ret (ZOPERATIONTIMEOUT, mk_interest (zh_fd (handle s)) 0 (mk_timeval 0 0), s1)) as Ew.
  { rewrite watch_begins by by apply started_timely.
    change (recv_left (handle (started s))) with (recv_left (handle s)).
    by rewrite (proj2 (Z.leb_le _ _)), E by done. }
  rewrite interest_open by (done || apply Hi). rewrite (interest_done _ _ _ _ _ _ Ew H5).
  destruct (turned_state _ _ H3) as (T1 & T2 & _); [apply Hst|].
  exists l, (released s1). split_and!; [done|exact Hl| |exact T1|exact T2|exact H1|exact H2|exact H3| |].
  - rewrite <-(started_calls s). done.
  - cbn [released i_sys s_zh s1 record_calls add_ref set_zh_ref_counter zh_ref_counter].
    rewrite H4. cbn [started i_sys s_zh add_ref set_zh_ref_counter zh_ref_counter]. lia.
  - apply released_idle. by apply idle_record.
Qed.

(** C25.  The keep-alive.  While the server is heard, [zookeeper_interest] on a connected
    session calls nobody and leaves requests, watches and servers alone.  If nothing has
    been sent for a third of the timeout and no request is under way it sends exactly
    one ping, behind everything queued before; otherwise it sends nothing, also while a
    request is under way, where the comment in the code promises a ping.  It asks to
    be called back when the socket is readable, or writable if something is still to be
    sent, and no later than the next ping is due or the server must be given up.  It
    can fail only in sending the ping. *)
Theorem keep_alive out s ds :
  ample (i_sys s) → usable (handle s) → stable s → timely (handle s) (now_of s) →
  zh_state (handle s) = ZOO_CONNECTED_STATE → 0 < recv_left (handle s) (now_of s) →
  outgoing (handle s) ds →
  let due := ping_due (handle s) (now_of s) in
  ∃ rc ev tv s' ds', zookeeper_interest out s = Ret (rc, mk_interest (zh_fd (handle s)) ev tv, s') ∧
    undisturbed (handle s) (handle s') ∧ w_calls (outside s') = w_calls (outside s) ∧
    outgoing (handle s') ds' ∧
    out_stream (i_sys s') ds' = out_stream (i_sys s) ds ++ (if due then frame ping_bytes else []) ∧
    (rc < 0 ∧ due = true ∨
     rc = ZOK ∧ ev = (if bool_decide (zh_to_send (handle s') = []) then ZOOKEEPER_READ
                      else Z.lor ZOOKEEPER_READ ZOOKEEPER_WRITE) ∧
     tv = get_timeval (Z.min (recv_left (handle s) (now_of s)) (next_send (handle s) (now_of s)))).
Proof.
  intros Ha Hu Hs Ht Hst Hr Hq due. rewrite interest_open by done.
  rewrite watch_begins by by apply started_timely.
  change (recv_left (handle (started s))) with (recv_left (handle s)).
  rewrite (proj2 (Z.leb_gt _ _)) by done.
  assert (∀ zh, zh_servers zh = zh_servers (handle s) →
    is_connected zh = true ∧ zh_state zh = ZOO_CONNECTED_STATE) as Hconn.
  { intros zh E. unfold is_connected, zh_state in *. rewrite E, Hst. done. }
  destruct (ping_phase_spec (now_of s) (started s) ds) as
    (r & zh' & w' & ds' & E & Hud & Hc & Hal & Hq' & Hstr & Hcase);
    [by apply started_ample|by apply started_timely|by apply Hconn|done|].
  rewrite E. run. change (ping_due (handle (started s))) with (ping_due (handle s)) in *.
  change (next_send (handle (started s))) with (next_send (handle s)) in *. fold due in Hstr, Hcase.
  rewrite started_stream in Hstr. rewrite started_calls in Hc.
  assert (zh_close_requested zh' = 0) as Hcl by (rewrite (ud_closing _ _ Hud); apply Hu).
  assert (undisturbed (handle s) (add_ref zh' (-1))) as Hud'.
  { destruct Hud as [? ? ? ? ? Hn ?]. split; simpl in *; try congruence. lia. }
  assert (∀ n, out_stream (mk_sys (add_ref zh' n) w') ds' = out_stream (mk_sys zh' w') ds') as Hos by done.
  destruct Hcase as [-> | (Hdue & rc & Hrc & ->)]; run.
  - destruct (Hconn zh' (ud_servers _ _ Hud)) as [Hcon Hst'].
    rewrite rw_phase_connected by (cbn [i_sys s_zh]; by rewrite Hst'). run.
    destruct Ht as [T1 T2 T3 T4 T5].
    assert (in_s 32 (Z.min (recv_left (handle s) (now_of s)) (next_send (handle s) (now_of s)))) as Hmin.
    { pose proof (interval_int (zh_last_recv (handle s)) (now_of s)) as I1.
      pose proof (interval_int (zh_last_send (handle s)) (now_of s)) as I2. unfold in_s in *.
      unfold next_send, recv_left in *. destruct (Z.leb_spec (send_left (handle s) (now_of s)) 0);
        unfold send_left in *; Z.to_euclidean_division_equations; lia. }
    destruct (add_timeval_ok (now_of s) _ (mk_isys (mk_sys zh' w') (i_net s)
      (i_env (started s))) T4 T5 Hmin) as (d & Ed). cbv zeta. simpl i_net. rewrite Ed. run.
    cbn [i_sys s_zh]. rewrite Hcon, Hst', andb_true_r. cbn [Z.eqb Pos.eqb orb]. rewrite orb_false_r.
    rewrite epilog_open by done. run. eexists _, _, _, _, ds'.
    split; [done|]. split_and!; [done|done|done|by rewrite <-Hstr|]. right. split_and!; [done| |done].
    simpl. by case_bool_decide.
  - rewrite epilog_open by done. run. eexists rc, _, _, _, ds'. split; [done|].
    split_and!; [done|done|done|by rewrite <-Hstr|]. left. done.
Qed.
End theorems.

(** ** Examples *)
Definition sample_net : net :=
  mk_net (mk_timeval 0 0) (mk_timeval 0 0) MIN_RW_TIMEOUT 0 zero_sockaddr false.
Definition sample_env (dials : list dial) : env := mk_env sample_resolving [] dials [] [].
Definition sample_hosts : option cstring := Some (lit "a:2181,b:2181").
(** The handle of the examples at the time [now], with the descriptor [fd], in [state]. *)
Definition sample_isys (now : timeval) (fd state : Z) (requests : list completion_list)
    (script : list io) (dials : list dial) : isys :=
  mk_isys (mk_sys (set_zh_sent_requests requests (set_zh_servers (sv_set_fd fd (sv_set_state state
                     (with_hostname sample_hosts sample_servers))) sample_handle))
             (set_w_io script (set_w_clock [now] sample_world)))
    sample_net (sample_env dials).

Lemma sample_stable now fd state requests script dials :
  stable (sample_isys now fd state requests script dials).
Proof.
  exists (lit "a:2181,b:2181"), (mk_addrvec 0 2 18 (Some [server 1 2181; server 2 2181])).
  split_and!; [done| |by vm_compute|by vm_compute]. split; simpl; done || lia.
Qed.
Lemma sample_isys_idle now fd state requests script dials :
  Forall request_ok requests →
  @idle sample_host (i_sys (sample_isys now fd state requests script dials)) sample_registry.
Proof. intros Hr. by apply sample_idle. Qed.
Lemma sample_online_usable now requests script dials :
  usable (handle (sample_isys now 5 3 requests script dials)).
Proof. split; [done|split; done|done| |done]. apply vec_wf. simpl. lia. Qed.
Lemma sample_timely sec fd state requests script dials :
  0 ≤ sec < 1000 →
  timely (handle (sample_isys (mk_timeval sec 0) fd state requests script dials)) (mk_timeval sec 0).
Proof.
  intros Hs. assert (0 ≤ calculate_interval (mk_timeval 0 0) (mk_timeval sec 0)) as Hi.
  { unfold calculate_interval. cbn [tv_sec tv_usec]. rewrite !Z.sub_0_r.
    rewrite (wrap_s_id 64 sec), (wrap_s_id 64 0) by (unfold in_s; lia).
    change (Z.quot 0 1000) with 0. rewrite Z.add_0_r.
    rewrite (wrap_s_id 64), (wrap_s_id 32) by (unfold in_s; lia). lia. }
  split; [split; done|exact Hi|exact Hi|cbn [tv_sec]; lia|done].
Qed.

Lemma silent_server_dropped_witness :
  let s := sample_isys (mk_timeval 7 0) 5 3 [sample_delete; sample_multi] [] [] in
  ∃ l s', @zookeeper_interest sample_host zero_locals (@st_adaptor sample_host) (mk_interest 0 0 (mk_timeval 0 0)) s =
      Ret (ZOPERATIONTIMEOUT, mk_interest 5 0 (mk_timeval 0 0), s') ∧
    everyone (i_sys s) sample_registry l ∧ zh_fd (handle s') = -1 ∧
    zh_sent_requests (handle s') = [].
Proof.
  intros s. destruct (@silent_server_dropped sample_host zero_locals (mk_interest 0 0 (mk_timeval 0 0))
    s sample_registry) as (l & s' & E & Hl & _ & Hfd & _ & Hr & _).
  - apply sample_isys_idle. apply Forall_forall. exact sample_request_ok.
  - apply sample_online_usable.
  - apply sample_stable.
  - apply sample_timely. lia.
  - by vm_compute.
  - exists l, s'. split_and!; assumption.
Defined.

Lemma keep_alive_witness :
  let s := sample_isys (mk_timeval 4 0) 5 3 [] [IoOk 100; IoOk 100] [] in
  ∃ rc ev tv s' ds',
    @zookeeper_interest sample_host zero_locals (@st_adaptor sample_host) (mk_interest 0 0 (mk_timeval 0 0)) s =
      Ret (rc, mk_interest 5 ev tv, s') ∧
    w_calls (outside s') = [] ∧ out_stream (i_sys s') ds' = frame ping_bytes.
Proof.
  intros s. destruct (@keep_alive sample_host zero_locals (mk_interest 0 0 (mk_timeval 0 0)) s [])
    as (rc & ev & tv & s' & ds' & E & _ & Hc & _ & Hs & _).
  - done.
  - apply sample_online_usable.
  - apply sample_stable.
  - apply sample_timely. lia.
  - done.
  - by vm_compute.
  - constructor.
  - exists rc, ev, tv, s', ds'. split_and!; [exact E|exact Hc|].
    rewrite Hs. assert (ping_due (handle s) (now_of s) = true) as -> by by vm_compute. done.
Defined.
