(* ===== verification/ConnectTheorems.v ===== *)
(** * Theorems about connecting

    How [zookeeper_interest] opens a connection, and how the client goes from one server
    to the next when it cannot connect. *)

From Stdlib Require Import Floats.SpecFloat.
From S2P Require Import Prelude RecordIO RecordIOFacts Jute JuteSpec JuteTheorems Path.
From S2P Require Import Watchers WatchersFacts WatchersTheorems Addrvec AddrvecFacts Hosts.
From S2P Require Import HostsTheorems Handshake Transport TransportFacts Handle Session.
From S2P Require Import SessionFacts SessionTheorems ResponseTheorems EstablishTheorems.
From S2P Require Import RequestTheorems Interest InterestTheorems.
Local Open Scope Z_scope.

Abbreviation known_servers s := (elems (sv_addrs (zh_servers (handle s)))).
Abbreviation position s := (cursor (sv_addrs (zh_servers (handle s)))).

Section theorems.
Context `{Host, Locals}.

(** ** Going from server to server *)

(** A handle between two connections, about to try the next server. *)
Record offline (s : isys) (A : registry) : Prop := {
  of_idle : idle (i_sys s) A;
  of_stable : stable s;
  of_fd : zh_fd (handle s) = -1;
  of_state : 0 ≤ zh_state (handle s) < 2 ^ 31;
  of_down : is_connected (handle s) = false;
  of_open : zh_close_requested (handle s) = 0;
  of_delay : zh_delay (handle s) = 0;
  of_enabled : n_disable_reconnection_attempt (i_net s) = 0;
  of_rw : n_rw_known (i_net s) = false;
  of_reconfig : sv_reconfig (zh_servers (handle s)) = 0 ∨ sv_reconfig (zh_servers (handle s)) = 1;
  of_wf : lists_wf (zh_servers (handle s));
  of_servers : elems (sv_addrs (zh_servers (handle s))) ≠ [];
}.

Definition with_servers (sv : servers) (s : sys) : sys := mk_sys (set_zh_servers sv (s_zh s)) (s_world s).

(** The server has been chosen and [connect] called. *)
Definition dialled (fd : nat) (sv : servers) (rest : list dial) (s : isys) : isys :=
  mk_isys (with_servers (sv_set_fd (Z.of_nat fd) sv) (i_sys s)) (i_net s)
    (mk_env (e_resolving (i_env s)) (tail (e_drand (i_env s))) rest (e_probes (i_env s))
       (e_attempts (i_env s) ++ [sv_addr_cur sv])).
(** The number drawn for the choice. *)
Definition draw (s : isys) : spec_float := default (double_of_Z 0) (head (e_drand (i_env (started s)))).

Lemma connect_dials s A fd c rest sv :
  offline s A → e_dials (i_env s) = Socket fd c :: rest →
  zoo_cycle_next_server (zh_servers (handle s)) (draw s) = Ret sv →
  connect_phase (started s) =
    let s1 := dialled fd sv rest (started s) in
    match c with
    | ConnectDone =>
        '(rc, s1) ← sess prime_connection s1;
        if negb (rc =? 0) then Ret (inl rc, s1)
        else Ret (inr (get_timeval (Z.quot (zh_recv_timeout (handle s1)) 3)), s1)
    | ConnectInProgress =>
        '(_, s1) ← sess (set_state ZOO_CONNECTING_STATE) s1;
        Ret (inr (get_timeval (Z.quot (zh_recv_timeout (handle s)) 3)), s1)
    | ConnectFailed =>
        '(rc, s1) ← sess (handle_socket_error_msg ZCONNECTIONLOSS) s1; Ret (inl rc, s1)
    end.
Proof.
  intros Ho Hd E. unfold connect_phase. isteps.
  change (zh_delay (handle (started s))) with (zh_delay (handle s)).
  change (i_net (started s)) with (i_net s).
  rewrite (of_delay _ _ Ho), (of_enabled _ _ Ho). cbn [Z.eqb orb]. isteps.
  change (i_net (started s)) with (i_net s). rewrite (of_rw _ _ Ho).
  unfold mcycle_next_server. isteps. unfold drand48. run. isteps. cbn [i_sys].
  change (zh_servers (handle (started s))) with (zh_servers (handle s)). fold (draw s).
  unfold failing. rewrite E. run. isteps.
  unfold next_dial. cbn [i_env e_dials set_e_drand started]. rewrite Hd. cbn [head from_option id tail]. run.
  isteps. unfold set_fd. isteps. unfold zookeeper_connect at 1. run. cbn [i_sys i_net i_env].
  set (s1 := mk_isys _ _ _). change (dialled fd sv rest (started s)) with s1.
  destruct c; cbn [Z.eqb Pos.eqb Z.opp]; run; isteps.
  - destruct (sess prime_connection s1) as [[rc s2]| | |]; run; [|done..].
    destruct (negb (rc =? 0)); by isteps.
  - by destruct (sess _ s1) as [[[] s2]| | |].
  - by destruct (sess _ s1) as [[rc s2]| | |].
Qed.

Lemma atend_spec a : av_wf a → elems a ≠ [] → addrvec_atend a = bool_decide (av_next a = av_count a).
Proof.
  intros [Hc _ Hn _] Hne. unfold addrvec_atend.
  assert (0 < length (elems a))%nat by (destruct (elems a); [done|simpl; lia]).
  rewrite (proj2 (Z.ltb_lt _ _)) by lia. cbn [andb].
  destruct (Z.leb_spec (av_count a) (av_next a)); symmetry;
    [apply bool_decide_eq_true|apply bool_decide_eq_false]; lia.
Qed.

Lemma addrvec_eq_same a a' b :
  av_wf a → av_wf a' → av_wf b → elems a' = elems a → addrvec_eq a' b = addrvec_eq a b.
Proof. intros Ha Ha' Hb E. by rewrite !addrvec_eq_spec, E by done. Qed.

Lemma refused_step out s A fd rest :
  offline s A → sv_reconfig (zh_servers (handle s)) = 0 → e_dials (i_env s) = Socket fd ConnectFailed :: rest →
  ∃ x s', zookeeper_interest out s = Ret (ZCONNECTIONLOSS, mk_interest (-1) 0 (mk_timeval 0 0), s') ∧
    known_servers s !! position s = Some x ∧ e_attempts (i_env s') = e_attempts (i_env s) ++ [x] ∧
    e_dials (i_env s') = rest ∧ known_servers s' = known_servers s ∧
    w_calls (outside s') = w_calls (outside s) ++ loss_calls ZCONNECTIONLOSS (handle s) ∧
    position s' = ((position s + 2) mod length (known_servers s))%nat ∧
    zh_delay (handle s') = (if decide (S (position s) = length (known_servers s)) then 1 else 0) ∧
    sv_reconfig (zh_servers (handle s')) = 0 ∧
    (zh_delay (handle s') = 0 → offline s' A).
Proof.
  intros Ho Hrec Hd.
  destruct (addrvec_next_spec _ (lw_addrs _ (of_wf _ _ Ho)) (of_servers _ _ Ho))
    as (x & a & En & Hx & Hwf & He & Hn).
  set (sv := with_cur x (with_addrs a (zh_servers (handle s)))).
  assert (zoo_cycle_next_server (zh_servers (handle s)) (draw s) = Ret sv) as Esv.
  { unfold zoo_cycle_next_server. cbn [sv_reconfig with_cur]. rewrite Hrec. cbn [Z.eqb negb]. run.
    cbn [sv_addrs with_cur]. rewrite En. done. }
  pose proof (connect_dials s A fd ConnectFailed rest sv Ho Hd Esv) as Ec.
  assert (is_unrecoverable (handle s) = false) as Hu by (apply Z.ltb_ge; apply (of_state _ _ Ho)).
  rewrite (interest_begins out s Hu (idle_ample _ _ (of_idle _ _ Ho)) (of_stable _ _ Ho)). cbv zeta.
  rewrite (of_fd _ _ Ho). cbn [Z.eqb Pos.eqb Z.opp]. rewrite Ec. cbv zeta.
  set (s1 := dialled fd sv rest (started s)).
  set (out' := mk_interest (-1) 0 (mk_timeval 0 0)).
  assert (elems a ≠ []) as Hne by (rewrite He; apply Ho).
  destruct (interest_loss s1 A ZCONNECTIONLOSS) as
    (zh' & l & E & Hl & H1 & H2 & Htu & H5 & H6 & H7).
  { destruct (started_idle s A (of_idle _ _ Ho)). by split. }
  { unfold wf_int, in_s. lia. }
  { done. }
  { apply (of_state _ _ Ho). }
  { apply (of_open _ _ Ho). }
  { done. }
  { done. }
  destruct (turned_state _ _ Htu) as (S2 & S3 & S4 & S5); [apply (of_state _ _ Ho)|].
  destruct Htu as (x2 & a2 & Ex2 & Hsv & Hdel).
  assert (announced (handle s1) = None) as Ha.
  { unfold announced. change (is_unrecoverable (handle s1)) with (is_unrecoverable (handle s)).
    change (is_connected (handle s1)) with (is_connected (handle s)). by rewrite Hu, (of_down _ _ Ho). }
  rewrite Ha in E. change (loss_calls ZCONNECTIONLOSS (handle s1))
    with (loss_calls ZCONNECTIONLOSS (handle s)) in E. cbn [from_option app] in E.
  change (sv_addrs (zh_servers (handle s1))) with a in *.
  destruct (addrvec_next_spec a Hwf Hne) as (x2' & a2' & Ex2' & Hx2 & Hwf2 & He2 & Hn2).
  rewrite Ex2 in Ex2'. injection Ex2' as <- <-.
  assert (sv_addrs (zh_servers zh') = a2) as S1 by (by rewrite Hsv).
  set (s2 := mk_isys _ _ _) in E. exists x, (released s2).
  assert (av_count a = Z.of_nat (length (known_servers s))) as Hca by (by rewrite (av_count_ok _ Hwf), He).
  assert (av_count a2 = Z.of_nat (length (known_servers s))) as Hc2
    by (by rewrite (av_count_ok _ Hwf2), He2, He).
  assert (0 < length (known_servers s))%nat as Hpos
    by (pose proof (of_servers _ _ Ho); destruct (known_servers s); [done|simpl; lia]).
  assert (sv_addrs (zh_servers (handle (released s2))) = a2) as S1' by exact S1.
  rewrite !S1'. change (zh_delay (handle (released s2))) with (zh_delay zh').
  split_and!.
  - rewrite E. run. by rewrite epilog_open.
  - done.
  - done.
  - done.
  - by rewrite He2, He.
  - rewrite <-(started_calls s). done.
  - apply Nat2Z.inj. rewrite cursor_mod by (done || by rewrite He2).
    rewrite Hn2, cursor_mod, Hn, Hca, Hc2 by done.
    rewrite Zplus_mod_idemp_l, Nat2Z.inj_mod. f_equal. lia.
  - rewrite Hdel, atend_spec, Hn, Hca by done. repeat case_decide; try case_bool_decide; done || lia.
  - exact (eq_trans S4 Hrec).
  - intros Hz. split.
    + apply released_idle. by apply idle_record.
    + destruct (of_stable _ _ Ho) as (h & r & Hh & Hr & Hrs & Heq).
      exists h, r. rewrite S1'. split_and!; [exact (eq_trans S5 Hh)|done|done|].
      rewrite <-Heq. apply addrvec_eq_same; [apply (lw_addrs _ (of_wf _ _ Ho))|done|done|]. by rewrite He2.
    + exact S2.
    + change (0 ≤ zh_state zh' < 2 ^ 31). rewrite S3. lia.
    + unfold is_connected. change (zh_state (handle (released s2))) with (zh_state zh'). by rewrite S3.
    + exact H6.
    + exact Hz.
    + apply (of_enabled _ _ Ho).
    + apply (of_rw _ _ Ho).
    + left. exact (eq_trans S4 Hrec).
    + destruct (of_wf _ _ Ho) as [_ W2 W3].
      assert (sv_addrs_old (zh_servers zh') = sv_addrs_old (zh_servers (handle s)) ∧
        sv_addrs_new (zh_servers zh') = sv_addrs_new (zh_servers (handle s))) as [V2 V3].
      { rewrite Hsv. unfold disconnected_servers. by destruct (_ <? 0). }
      split; [by rewrite S1'|exact (eq_ind_r av_wf W2 V2)|exact (eq_ind_r av_wf W3 V3)].
    + by rewrite S1', He2.
Qed.

(** [m] calls of [zookeeper_interest]. *)
Fixpoint interests (m : nat) (out : interest) (s : isys) : outcome isys :=
  match m with
  | O => Ret s
  | S m => '(_, out, s) ← zookeeper_interest out s; interests m out s
  end.
Definition refusal (d : dial) : Prop := ∃ fd, d = Socket fd ConnectFailed.

Lemma refusals_spec m out s A :
  offline s A → sv_reconfig (zh_servers (handle s)) = 0 → Nat.Even (length (known_servers s)) → Nat.Even (position s) →
  Forall refusal (take m (e_dials (i_env s))) → (m ≤ length (e_dials (i_env s)))%nat →
  ∃ s' xs, interests m out s = Ret s' ∧ offline s' A ∧
    e_attempts (i_env s') = e_attempts (i_env s) ++ xs ∧ length xs = m ∧
    ∀ j, (j < m)%nat →
      xs !! j = known_servers s !! ((position s + 2 * j) mod length (known_servers s))%nat.
Proof.
  revert out s. induction m as [|m IH]; intros out s Ho Hrec Hn Hk Hall Hm.
  { exists s, []. rewrite app_nil_r. split_and!; done || lia. }
  destruct (e_dials (i_env s)) as [|d rest] eqn:Ed; [simpl in Hm; lia|].
  apply Forall_cons in Hall as [[fd ->] Hall].
  destruct (refused_step out s A fd rest Ho Hrec Ed)
    as (x & s1 & E & Hx & Hat & Hr & Hs & _ & Hp & Hde & Hrec1 & Hof).
  set (n := length (known_servers s)) in *.
  assert (0 < n)%nat as Hpos
    by (unfold n; pose proof (of_servers _ _ Ho); destruct (known_servers s); [done|simpl; lia]).
  assert (S (position s) ≠ n) as Hsn.
  { intros Heq. rewrite <-Heq, Nat.Even_succ in Hn. by apply (Nat.Even_Odd_False (position s)). }
  rewrite decide_False in Hde by done. specialize (Hof Hde).
  assert (Nat.Even (position s1)) as Hk1.
  { rewrite Hp. destruct Hn as [p Hn]. destruct Hk as [q Hk].
    assert (p ≠ 0)%nat by lia. exists ((q + 1) mod p)%nat. rewrite Hk, Hn.
    replace (2 * q + 2)%nat with (2 * (q + 1))%nat by lia. apply Nat.Div0.mul_mod_distr_l. }
  destruct (IH (mk_interest (-1) 0 (mk_timeval 0 0)) s1 Hof Hrec1) as (s' & xs & E' & Ho' & Hat' & Hl & Hxs);
    [by rewrite Hs|done|by rewrite Hr|rewrite Hr; simpl in Hm; lia|].
  exists s', (x :: xs). split_and!; [|done| |by rewrite length_cons, Hl|].
  - cbn [interests]. rewrite E. run. exact E'.
  - by rewrite Hat', Hat, <-app_assoc.
  - rewrite Hs in Hxs. fold n in Hxs. intros [|j] Hj.
    + rewrite Nat.add_0_r, Nat.mod_small; [done|].
      assert (position s < n)%nat; [|lia]. by eapply lookup_lt_Some.
    + cbn [lookup list_lookup]. rewrite Hxs by lia. f_equal. rewrite Hp.
      rewrite Nat.Div0.add_mod_idemp_l. f_equal. lia.
Qed.

(**  Every second server is skipped.  After each failed connection attempt both
    [handle_error] and the next [zookeeper_interest] advance in the list of servers.  So
    with an even number of servers, if no server answers, the client, once it is out of
    reconfig mode, tries only every second one, however often it tries: the j-th attempt goes to the server 2j places
    further round the list.  It also never sees the end of the list and never pauses,
    which the comments say it does after having tried all servers. *)
Theorem every_second_server m out s A :
  offline s A → sv_reconfig (zh_servers (handle s)) = 0 → Nat.Even (length (known_servers s)) → Nat.Even (position s) →
  Forall refusal (take m (e_dials (i_env s))) → (m ≤ length (e_dials (i_env s)))%nat →
  ∃ s' xs, interests m out s = Ret s' ∧ zh_delay (handle s') = 0 ∧
    e_attempts (i_env s') = e_attempts (i_env s) ++ xs ∧ length xs = m ∧
    (∀ j, (j < m)%nat →
      xs !! j = known_servers s !! ((position s + 2 * j) mod length (known_servers s))%nat) ∧
    ∀ i x, NoDup (known_servers s) → known_servers s !! i = Some x → Nat.Odd i → x ∉ xs.
Proof.
  intros Ho Hrec Hn Hk Hall Hm. destruct (refusals_spec m out s A Ho Hrec Hn Hk Hall Hm)
    as (s' & xs & E & Ho' & Hat & Hl & Hxs).
  exists s', xs. split_and!; [done|apply Ho'|done..|].
  intros i x Hnd Hi Hodd [j Hj]%list_elem_of_lookup.
  assert (j < m)%nat as Hjm by (rewrite <-Hl; by eapply lookup_lt_Some).
  rewrite Hxs in Hj by done. rewrite (NoDup_lookup _ _ _ _ Hnd Hi Hj) in Hodd.
  destruct Hn as [p Hn]. destruct Hk as [q Hk].
  apply (Nat.Even_Odd_False _ ) in Hodd; [done|]. exists ((q + j) mod p)%nat. rewrite Hk, Hn.
  replace (2 * q + 2 * j)%nat with (2 * (q + j))%nat by lia. apply Nat.Div0.mul_mod_distr_l.
Qed.

(** ** Opening a connection *)

(** What the client asks for. *)
Definition connect_request (zh : zhandle) : connect_req :=
  mk_connect_req 0 (zh_last_zxid zh) (zh_recv_timeout zh) (wanted_session zh) 16 (zh_passwd zh)
    (zh_allow_read_only zh).
Definition connect_bytes (zh : zhandle) : list byte :=
  enc_ConnectRequest (to_ConnectRequest (connect_request zh)) ++ [zh_allow_read_only zh].

Lemma length_connect_bytes zh : length (zh_passwd zh) = 16%nat → length (connect_bytes zh) = 45%nat.
Proof.
  intros Hp. unfold connect_bytes, enc_ConnectRequest, enc_buffer, enc_int, enc_long, connect_request,
    to_ConnectRequest. cbn [ConnectRequest_protocolVersion ConnectRequest_lastZxidSeen
    ConnectRequest_timeOut ConnectRequest_sessionId ConnectRequest_passwd b_len b_buff from_option id
    cr_protocolVersion cr_lastZxidSeen cr_timeOut cr_sessionId cr_passwd_len cr_passwd].
  by rewrite !length_app, !length_be_split, Hp.
Qed.

(** The script lets the next two [send]s transfer all they are given. *)
Definition sends_twice (script rest : list io) : Prop :=
  ∃ n1 n2, script = IoOk n1 :: IoOk n2 :: rest ∧ (4 ≤ n1)%nat ∧ (45 ≤ n2)%nat.

Lemma send_ok data n rest s :
  w_io (s_world s) = IoOk n :: rest → (length data ≤ n)%nat →
  send data s = Ret (Z.of_nat (length data),
    mk_sys (s_zh s) (set_w_io rest (set_w_wire (w_wire (s_world s) ++ data) (s_world s)))).
Proof. intros Hio Hn. unfold send. msteps. rewrite Hio. simpl. by rewrite take_ge. Qed.

Lemma prime_connection_spec s rest :
  length (zh_passwd (s_zh s)) = 16%nat → sends_twice (w_io (s_world s)) rest →
  ∃ zh', prime_connection s =
      Ret (ZOK, mk_sys zh' (set_w_io rest (set_w_wire (w_wire (s_world s) ++
                              frame (connect_bytes (s_zh s))) (s_world s)))) ∧
    zh_servers zh' = sv_set_state ZOO_ASSOCIATING_STATE (zh_servers (s_zh s)) ∧
    zh_input_buffer zh' = PrimerInput ∧ zh_to_process zh' = zh_to_process (s_zh s) ∧
    undisturbed (set_zh_servers (zh_servers zh') (s_zh s)) zh' ∧
    zh_outstanding_sync zh' = zh_outstanding_sync (s_zh s).
Proof.
  intros Hp (n1 & n2 & Hio & Hn1 & Hn2). pose proof (length_connect_bytes _ Hp) as Hlen.
  unfold prime_connection. msteps. fold (wanted_session (s_zh s)). fold (connect_request (s_zh s)).
  destruct (prime_connect_writes _ (connect_request (s_zh s))
    (replicate (Z.to_nat HANDSHAKE_REQ_SIZE) Byte.x00) Hp eq_refl) as (req' & E).
  cbn [cr_readOnly connect_request] in E. fold (connect_bytes (s_zh s)) in E.
  rewrite mem_htonl, ?M_bind_eq, (send_ok _ n1 (IoOk n2 :: rest)) by (done || rewrite length_be_split; lia).
  run. rewrite ?M_bind_eq. unfold lift. rewrite E. run. rewrite length_be_split.
  rewrite ?M_bind_eq, (proj2 (Z.ltb_ge _ 0)) by lia.
  rewrite (send_ok _ n2 rest) by (done || lia). run. rewrite (proj2 (Z.ltb_ge _ 0)) by lia.
  unfold set_state. msteps.
  eexists. split.
  - cbn [s_zh s_world set_w_io set_w_wire w_wire w_io w_alloc w_clock w_in w_polls w_so_error w_xid w_calls].
    unfold frame. rewrite Hlen. change (Z.of_nat 45) with HANDSHAKE_REQ_SIZE.
    rewrite <-app_assoc. reflexivity.
  - split_and!; done.
Qed.

Lemma interval_same t : calculate_interval t t = 0.
Proof. unfold calculate_interval. by rewrite !Z.sub_diag. Qed.

(** The handle while [connect] is under way. *)
Definition connecting (fd : nat) (sv : servers) (now : timeval) (zh : zhandle) : zhandle :=
  set_zh_last_ping now (set_zh_last_send now (set_zh_last_recv now
    (set_zh_servers (sv_set_state ZOO_CONNECTING_STATE (sv_set_fd (Z.of_nat fd) sv)) zh))).

(** The clock fields after a connection attempt. *)
Definition touched (now : timeval) (s : isys) : isys :=
  mk_isys (mk_sys (set_zh_last_ping now (set_zh_last_send now (set_zh_last_recv now (handle s))))
             (outside s))
    (set_n_ping_rw_timeout MIN_RW_TIMEOUT (set_n_last_ping_rw now (i_net s))) (i_env s).
Lemma connected_now_eq now s : connected_now now s = Ret ((), touched now s).
Proof. done. Qed.

Lemma interest_touched out s tv s2 :
  is_unrecoverable (handle s) = false → ample (i_sys s) → stable s → zh_fd (handle s) = -1 →
  connect_phase (started s) = Ret (inr tv, s2) → zh_fd (handle s2) ≠ -1 →
  zookeeper_interest out s =
    '(rc, out, s1) ← watch_phase (now_of s) (mk_interest (zh_fd (handle s2)) 0 tv) (touched (now_of s) s2);
    '(rc, s1) ← sess (api_epilog rc) s1; Ret (rc, out, s1).
Proof.
  intros Hu Ha Hs Hfd Ec Hfd2. rewrite (interest_begins out s Hu Ha Hs). cbv zeta.
  rewrite Hfd, Ec. change (-1 =? -1) with true. run. rewrite connected_now_eq. run.
  change (zh_fd (handle (touched (now_of s) s2))) with (zh_fd (handle s2)).
  by rewrite (proj2 (Z.eqb_neq _ (-1))) by done.
Qed.

Lemma watch_connecting now out s :
  timely (handle s) now → zh_last_recv (handle s) = now → 1 < zh_recv_timeout (handle s) →
  zh_state (handle s) = ZOO_CONNECTING_STATE →
  ∃ d, watch_phase now out s =
    Ret (ZOK, mk_interest (in_fd out) (Z.lor ZOOKEEPER_READ ZOOKEEPER_WRITE)
                (get_timeval (Z.quot (zh_recv_timeout (handle s)) 3)),
         mk_isys (i_sys s) (set_n_next_deadline d (i_net s)) (i_env s)).
Proof.
  intros Htm Hl Hrt Hst. pose proof Htm as [T1 T2 T3 T4 T5].
  rewrite (watch_begins now out s Htm). unfold recv_left. rewrite Hl, interval_same, Z.sub_0_r.
  rewrite (proj2 (Z.leb_gt _ 0)) by (Z.to_euclidean_division_equations; lia).
  assert (is_connected (handle s) = false) as Hdown by (unfold is_connected; by rewrite Hst).
  unfold ping_phase. isteps. rewrite Hdown. cbn [negb]. isteps.
  rewrite rw_phase_connected by (by rewrite Hst). run. cbv zeta.
  rewrite Z.min_r by (Z.to_euclidean_division_equations; lia).
  destruct (add_timeval_ok now (Z.quot (zh_recv_timeout (handle s)) 3) s T4 T5) as (d & Ed);
    [unfold in_s; Z.to_euclidean_division_equations; lia|].
  rewrite Ed. run. cbn [i_sys]. rewrite Hdown, Hst, andb_false_r. by exists d.
Qed.

Lemma released_outside s d : outside (released (mk_isys (i_sys s) d (i_env s))) = outside s.
Proof. done. Qed.
Lemma connecting_ref fd sv now zh :
  add_ref (connecting fd sv now (add_ref zh 1)) (-1) = connecting fd sv now zh.
Proof.
  unfold add_ref, connecting. simpl. rewrite <-Z.add_assoc, Z.add_0_r. by destruct zh.
Qed.

Lemma interest_connecting out s A fd rest :
  offline s A → e_dials (i_env s) = Socket fd ConnectInProgress :: rest →
  1 < zh_recv_timeout (handle s) < 2 ^ 30 → 0 ≤ tv_sec (now_of s) < 2 ^ 62 →
  0 ≤ tv_usec (now_of s) < 1000000 →
  ∃ sv s', zookeeper_interest out s =
      Ret (ZOK, mk_interest (Z.of_nat fd) (Z.lor ZOOKEEPER_READ ZOOKEEPER_WRITE)
                  (get_timeval (Z.quot (zh_recv_timeout (handle s)) 3)), s') ∧
    chosen (zh_servers (handle s)) (sv_addr_cur sv) ∧ lists_wf sv ∧
    elems (sv_addrs sv) = known_servers s ∧
    handle s' = connecting fd sv (now_of s) (handle s) ∧
    outside s' = outside (started s) ∧
    e_attempts (i_env s') = e_attempts (i_env s) ++ [sv_addr_cur sv].
Proof.
  intros Ho Hd Ht Hsec Husec.
  destruct (cycle_chooses _ (draw s) (of_wf _ _ Ho) (of_servers _ _ Ho) (of_reconfig _ _ Ho))
    as (sv & Esv & Hwf & Hx & He).
  pose proof (connect_dials s A fd ConnectInProgress rest sv Ho Hd Esv) as Ec.
  assert (is_unrecoverable (handle s) = false) as Hu by (apply Z.ltb_ge; apply (of_state _ _ Ho)).
  cbv zeta in Ec. unfold set_state in Ec. rewrite sess_modify_eq in Ec.
  cbn [mbind outcome_bind] in Ec. set (s2 := mk_isys _ _ _) in Ec.
  assert (handle (touched (now_of s) s2) = connecting fd sv (now_of s) (add_ref (handle s) 1)) as Hz by done.
  assert (outside (touched (now_of s) s2) = outside (started s)) as Hw by done.
  assert (i_env (touched (now_of s) s2) = i_env (dialled fd sv rest (started s))) as Henv by done.
  assert (zh_fd (handle s2) = Z.of_nat fd) as Hfd by done.
  rewrite (interest_touched out s _ s2 Hu (idle_ample _ _ (of_idle _ _ Ho)) (of_stable _ _ Ho)
    (of_fd _ _ Ho) Ec) by (rewrite Hfd; lia).
  rewrite Hfd. clearbody s2. set (s3 := touched (now_of s) s2) in *. clearbody s3.
  destruct (watch_connecting (now_of s) (mk_interest (Z.of_nat fd) 0
    (get_timeval (Z.quot (zh_recv_timeout (handle s)) 3))) s3) as (d & Ew).
  { rewrite Hz. split; try done; simpl; rewrite ?interval_same; lia. }
  { by rewrite Hz. }
  { rewrite Hz. apply Ht. }
  { by rewrite Hz. }
  assert (zh_recv_timeout (handle s3) = zh_recv_timeout (handle s)) as Hrt by (by rewrite Hz).
  assert (zh_close_requested (handle s3) = 0) as Hcl by (rewrite Hz; apply (of_open _ _ Ho)).
  rewrite Hrt in Ew. rewrite (interest_done _ _ _ _ _ _ Ew Hcl).
  eexists sv, _. split; [reflexivity|].
  split_and!; [exact Hx|exact Hwf|exact He| | |].
  - cbn [released i_sys s_zh]. rewrite Hz. apply connecting_ref.
  - rewrite released_outside. exact Hw.
  - cbn [released i_env]. by rewrite Henv.
Qed.

(** C9.  Opening a connection.  Between two connections, [zookeeper_interest] starts a
    connection to the next server (an untried one after a change of the list, otherwise
    the one under the cursor), tells nobody, and asks for the socket to
    be watched for at most a third of the timeout.  When the socket becomes writable,
    [zookeeper_process] sends one packet, the connect request with the session the
    client wants to resume, its password and the last transaction it has seen, and
    waits for the answer; the requests queued meanwhile are kept. *)
Theorem connection_opened out s A fd dials rest :
  offline s A → e_dials (i_env s) = Socket fd ConnectInProgress :: dials →
  zh_to_process (handle s) = [] →
  1 < zh_recv_timeout (handle s) < 2 ^ 30 → 0 ≤ tv_sec (now_of s) < 2 ^ 62 →
  0 ≤ tv_usec (now_of s) < 1000000 →
  length (zh_passwd (handle s)) = 16%nat → sends_twice (w_io (outside s)) rest →
  w_so_error (outside s) = false →
  ∃ x s1 s2, zookeeper_interest out s =
      Ret (ZOK, mk_interest (Z.of_nat fd) (Z.lor ZOOKEEPER_READ ZOOKEEPER_WRITE)
                  (get_timeval (Z.quot (zh_recv_timeout (handle s)) 3)), s1) ∧
    chosen (zh_servers (handle s)) x ∧ e_attempts (i_env s1) = e_attempts (i_env s) ++ [x] ∧
    zh_state (handle s1) = ZOO_CONNECTING_STATE ∧ sv_addr_cur (zh_servers (handle s1)) = x ∧
    zookeeper_process ZOOKEEPER_WRITE (i_sys s1) = Ret (ZOK, s2) ∧
    w_wire (s_world s2) = w_wire (outside s) ++ frame (connect_bytes (handle s)) ∧
    zh_state (s_zh s2) = ZOO_ASSOCIATING_STATE ∧ zh_input_buffer (s_zh s2) = PrimerInput ∧
    zh_sent_requests (s_zh s2) = zh_sent_requests (handle s) ∧
    w_calls (s_world s2) = w_calls (outside s) ∧
    zh_ref_counter (s_zh s2) = zh_ref_counter (handle s).
Proof.
  intros Ho Hd Htp Ht Hsec Husec Hpw Hio Herr.
  destruct (interest_connecting out s A fd dials Ho Hd Ht Hsec Husec)
    as (sv & s1 & E & Hx & [Hwf _ _] & He & Hh & Hw & Hat).
  assert (usable (handle s1)) as Hus.
  { rewrite Hh. split; cbn; try done; [lia|apply (of_open _ _ Ho)|by rewrite He; apply Ho]. }
  assert (w_io (outside s1) = w_io (outside s) ∧ w_wire (outside s1) = w_wire (outside s) ∧
    w_calls (outside s1) = w_calls (outside s) ∧ w_so_error (outside s1) = w_so_error (outside s))
    as (W1 & W2 & W3 & W4) by (rewrite Hw; cbn [started i_sys s_world]; unfold clock_tick; by destruct (w_clock _)).
  set (sp := mk_sys (add_ref (handle s1) 1) (outside s1)).
  destruct (prime_connection_spec sp rest) as (zh' & Ep & P1 & P2 & P3 & P4 & P5).
  { unfold sp. cbn [s_zh]. rewrite Hh. exact Hpw. }
  { unfold sp. cbn [s_world]. by rewrite W1. }
  assert (zh_to_process zh' = []) as Q1 by (rewrite P3; unfold sp; cbn [s_zh]; by rewrite Hh).
  assert (zh_completions_to_process zh' = []) as Q2.
  { rewrite (ud_queue _ _ P4). unfold sp. cbn [s_zh]. rewrite Hh. apply (idle_completions _ _ (of_idle _ _ Ho)). }
  assert (zh_close_requested zh' = 0) as Q3.
  { rewrite (ud_closing _ _ P4). unfold sp. cbn [s_zh]. rewrite Hh. apply (of_open _ _ Ho). }
  set (w2 := set_w_io rest _) in Ep.
  exists (sv_addr_cur sv), s1, (mk_sys (add_ref zh' (-1)) w2). split_and!; try done.
  - by rewrite Hh.
  - by rewrite Hh.
  - rewrite process_begins by done. unfold check_events. fold sp. msteps.
    assert (zh_fd (s_zh sp) = Z.of_nat fd ∧ zh_state (s_zh sp) = ZOO_CONNECTING_STATE) as [Hf Hst]
      by (unfold sp; cbn [s_zh]; by rewrite Hh).
    rewrite Hf, (proj2 (Z.eqb_neq _ (-1))) by lia. msteps. rewrite Hst.
    change (event ZOOKEEPER_WRITE ZOOKEEPER_WRITE) with true. cbn [andb Z.eqb Pos.eqb]. msteps.
    change (w_so_error (s_world sp)) with (w_so_error (outside s1)). rewrite W4, Herr, Ep. run.
    cbn [s_zh]. rewrite Q1. cbn [packets_loop]. msteps.
    unfold process_completions_if_async, process_completions. msteps. cbn [s_zh].
    destruct (process_async _); msteps; cbn [s_zh]; rewrite ?Q2; cbn [completions_loop]; msteps;
      by rewrite api_epilog_open.
  - unfold w2. cbn [s_world w_wire set_w_io set_w_wire]. change (s_world sp) with (outside s1).
    rewrite W2. unfold sp. cbn [s_zh]. by rewrite Hh.
  - unfold zh_state. cbn [s_zh add_ref set_zh_ref_counter zh_servers]. by rewrite P1.
  - cbn [s_zh add_ref set_zh_ref_counter zh_sent_requests]. rewrite (ud_requests _ _ P4).
    unfold sp. cbn [s_zh]. by rewrite Hh.
  - cbn [s_zh add_ref set_zh_ref_counter zh_ref_counter]. rewrite (ud_counter _ _ P4).
    unfold sp. cbn [s_zh]. rewrite Hh. simpl. lia.
Qed.
End theorems.

(** ** Examples *)
Lemma sample_offline now requests script dials :
  Forall request_ok requests →
  @offline sample_host (sample_isys now (-1) 0 requests script dials) sample_registry.
Proof.
  intros Hr. split.
  - by apply sample_isys_idle.
  - apply sample_stable.
  - reflexivity.
  - split; reflexivity || discriminate.
  - reflexivity.
  - reflexivity.
  - reflexivity.
  - reflexivity.
  - reflexivity.
  - by left.
  - split; [apply vec_wf; simpl; lia|apply addrvec_init_wf|apply addrvec_init_wf].
  - discriminate.
Qed.

Lemma every_second_server_witness :
  let s := sample_isys (mk_timeval 1 0) (-1) 0 [] [] (replicate 10 (Socket 7 ConnectFailed)) in
  ∃ s' xs, @interests sample_host zero_locals 10 (mk_interest 0 0 (mk_timeval 0 0)) s = Ret s' ∧
    zh_delay (handle s') = 0 ∧ e_attempts (i_env s') = xs ∧ length xs = 10%nat ∧
    server 2 2181 ∉ xs.
Proof.
  intros s. destruct (@every_second_server sample_host zero_locals 10
    (mk_interest 0 0 (mk_timeval 0 0)) s sample_registry) as (s' & xs & E & Hd & Ha & Hl & _ & Hno).
  - apply sample_offline. constructor.
  - reflexivity.
  - by exists 1%nat.
  - by exists 0%nat.
  - cbn. repeat constructor; by exists 7%nat.
  - cbn. lia.
  - exists s', xs. split_and!; [exact E|exact Hd|exact Ha|exact Hl|].
    apply (Hno 1%nat); [|done|by exists 0%nat].
    apply NoDup_cons. split; [|apply NoDup_singleton].
    intros Hin%elem_of_singleton_list. by vm_compute in Hin.
Defined.

Lemma connection_opened_witness :
  let s := sample_isys (mk_timeval 1 0) (-1) 0 [] [IoOk 4; IoOk 45] [Socket 7 ConnectInProgress] in
  ∃ x s1 s2, @zookeeper_interest sample_host zero_locals (@st_adaptor sample_host) (mk_interest 0 0 (mk_timeval 0 0)) s =
      Ret (ZOK, mk_interest 7 3 (mk_timeval 3 333000), s1) ∧
    chosen (zh_servers (handle s)) x ∧ sv_addr_cur (zh_servers (handle s1)) = x ∧
    @zookeeper_process sample_host zero_locals (@st_adaptor sample_host) ZOOKEEPER_WRITE (i_sys s1) = Ret (ZOK, s2) ∧
    w_wire (s_world s2) = frame (connect_bytes (handle s)).
Proof.
  intros s. destruct (@connection_opened sample_host zero_locals (mk_interest 0 0 (mk_timeval 0 0))
    s sample_registry 7 [] []) as (x & s1 & s2 & E & Hx & _ & _ & Hc & Ep & Hw & _).
  - apply sample_offline. constructor.
  - done.
  - done.
  - split; done.
  - split; done.
  - split; done.
  - done.
  - exists 4%nat, 45%nat. split; [done|lia].
  - done.
  - exists x, s1, s2. split_and!; [exact E|exact Hx|exact Hc|exact Ep|exact Hw].
Defined.
