(* ===== verification/ReadOnlyTheorems.v ===== *)
(** * Theorems about the search for a read/write server

    A read-only session asks one server after the other whether it accepts writes.  What
    [zookeeper_interest] does when one says that it does. *)

From Stdlib Require Import Floats.SpecFloat.
From S2P Require Import Prelude RecordIO RecordIOFacts Jute JuteSpec JuteTheorems Path.
From S2P Require Import Watchers WatchersFacts WatchersTheorems Addrvec AddrvecFacts Hosts.
From S2P Require Import HostsTheorems Handshake Transport TransportFacts Handle Session.
From S2P Require Import SessionFacts SessionTheorems ResponseTheorems EstablishTheorems.
From S2P Require Import RequestTheorems Interest InterestTheorems ConnectTheorems.
Local Open Scope Z_scope.

Section theorems.
Context `{Host, Locals}.

(** ** The end of a read-only connection *)

(** A response without a body: the header takes all there is. *)
Lemma header_alone (bs : list byte) old :
  length bs = 16%nat →
  ∃ v, deserialize_ReplyHeader old (mk_buff 16 0 (Some bs) []) = Ret (0, v, mk_buff 16 16 (Some bs) []).
Proof.
  intros Hn. do 16 (destruct bs as [|? bs]; [simpl in Hn; lia|]).
  destruct bs; [|simpl in Hn; lia]. eexists. reflexivity.
Qed.
Lemma nothing_left (bs : list byte) old :
  ∃ v, deserialize_GetDataResponse old (mk_buff 16 16 (Some bs) []) =
    Ret (- E2BIG, v, mk_buff 16 16 (Some bs) []).
Proof. eexists. reflexivity. Qed.

(** A request for data whose connection is dropped without an error. *)
Lemma fake_success_undefined c s :
  ample s → c_type c = COMPLETION_DATA → wf_int (c_xid c) → c_xid c ≠ WATCHER_EVENT_XID →
  process_completion (fake 0 c) s = UB.
Proof.
  intros Ha Ht Hx Hw. unfold process_completion.
  set (h := fake_header 0 c). set (bs := enc_ReplyHeader h).
  change (c_buffer (fake 0 c)) with (Some (mk_bl (Some bs) (Z.of_nat (length bs)) 0)). cbn iota.
  assert (length bs = 16%nat) as Hl by apply length_ReplyHeader.
  assert (wf_ReplyHeader h) as Hh by (apply fake_header_wf; [done|unfold wf_int, in_s; lia]).
  unfold open_archive. rewrite M_bind_eq. cbn [bl_buffer bl_len]. rewrite Hl. change (Z.of_nat 16) with 16.
  rewrite (allocating_ok _ (mk_buff 16 0 (Some bs) [])) by done. run.
  destruct (header_alone bs junk_ReplyHeader Hl) as (v & Ev).
  assert (v = h) as ->.
  { destruct (deserialize_ReplyHeader_reads h Hh junk_ReplyHeader (mk_buff 16 0 (Some bs) []) [])
      as (ia & E & _); [|by rewrite Ev in E; injection E].
    exists bs. rewrite app_nil_r, drop_0. simpl. split_and!; done || lia. }
  unfold parse, reading. rewrite !M_bind_eq.
  rewrite (allocating_ok _ (0, h, mk_buff 16 16 (Some bs) [])); [|done|].
  2: { change (set_bs_alloc [] (mk_buff 16 0 (Some bs) [])) with (mk_buff 16 0 (Some bs) []). by rewrite Ev. }
  run. msteps. change (ReplyHeader_xid h) with (c_xid c). change (ReplyHeader_err h) with 0.
  rewrite (proj2 (Z.eqb_neq _ _)) by done. cbn [Z.eqb negb].
  change (c_type (fake 0 c)) with (c_type c). rewrite Ht, M_bind_eq.
  unfold fake, set_c_buffer. cbn [deserialize_response Z.eqb Pos.eqb need]. msteps.
  unfold parse, reading. rewrite !M_bind_eq.
  destruct (nothing_left bs junk_GetDataResponse) as (v & Ev').
  rewrite (allocating_ok _ (- E2BIG, v, mk_buff 16 16 (Some bs) [])); [|done|].
  2: { change (set_bs_alloc [] (mk_buff 16 16 (Some bs) [])) with (mk_buff 16 16 (Some bs) []). by rewrite Ev'. }
  done.
Qed.

Lemma cleanup_ok_undefined s A c rest :
  idle s A → wf_int (zh_state (s_zh s)) → zh_sent_requests (s_zh s) = c :: rest →
  c_type c = COMPLETION_DATA → cleanup ZOK s = UB.
Proof.
  intros Hi Hst Hreq Ht. destruct (cleanup_announces s A ZOK Hi Hst) as (l & _ & Ec). rewrite Ec.
  set (s0 := record_calls _ s).
  destruct (drop_connection_fakes s0 A ZOK (idle_record _ _ _ Hi)) as (zh1 & E & Hq & _);
    [unfold wf_int, in_s; lia|].
  rewrite E. change (zh_sent_requests (s_zh s0)) with (zh_sent_requests (s_zh s)). rewrite Hreq.
  pose proof (idle_requests _ _ Hi) as Hr. rewrite Hreq in Hr. apply Forall_cons in Hr as [(_ & Hx & Hs) _].
  cbn [map completions_loop]. msteps. rewrite fake_success_undefined; [done| |done|done|].
  - apply (idle_ample _ _ Hi).
  - intros Heq. apply Hs. rewrite Heq. by left.
Qed.

(** ** The search *)

(** The time has come to look for another server, and the next one says it will do. *)
Record rw_found (s : isys) : Prop := {
  rf_state : zh_state (handle s) = ZOO_READONLY_STATE;
  rf_quiet : 0 < send_left (handle s) (now_of s);
  rf_heard : 0 < recv_left (handle s) (now_of s);
  rf_timeout : 0 ≤ n_ping_rw_timeout (i_net s) ≤ MAX_RW_TIMEOUT;
  rf_due : n_ping_rw_timeout (i_net s) ≤ calculate_interval (n_last_ping_rw (i_net s)) (now_of s);
  rf_probe : ∃ reply rest, e_probes (i_env s) = Probe ConnectDone (Reply reply) :: rest ∧
    says_rw reply = true;
}.

Lemma addrvec_peek_spec a :
  av_wf a → elems a ≠ [] → ∃ x, addrvec_peek a = Ret x ∧ elems a !! cursor a = Some x.
Proof.
  intros Hwf Hne. pose proof Hwf as [Hc _ Hn _]. unfold addrvec_peek.
  assert (0 < length (elems a))%nat by (destruct (elems a); [done|simpl; lia]).
  rewrite (proj2 (Z.eqb_neq _ 0)) by lia. rewrite atend_spec by done.
  assert (cursor a < length (elems a))%nat as Hcur by (unfold cursor; case_decide; lia).
  destruct (lookup_lt_is_Some_2 (elems a) (cursor a) Hcur) as [x Hx]. exists x. split; [|done].
  rewrite <-(data_at_lookup a (cursor a) x Hx). f_equal. unfold cursor.
  case_bool_decide; case_decide; done || lia.
Qed.

(** The handle when the search has succeeded, before the connection is dropped. *)
Definition found_net (x : sockaddr) (now : timeval) (n : net) : net :=
  set_n_ping_rw_timeout MIN_RW_TIMEOUT (set_n_rw_known true (set_n_addr_rw_server x
    (set_n_ping_rw_timeout (Z.min (n_ping_rw_timeout n * 2) MAX_RW_TIMEOUT) (set_n_last_ping_rw now n)))).
Definition found_env (x : sockaddr) (rest : list probe) (e : env) : env :=
  mk_env (e_resolving e) (e_drand e) (e_dials e) rest (e_attempts e ++ [x]).

Lemma rw_phase_found now t s x reply rest :
  zh_state (handle s) = ZOO_READONLY_STATE → 0 ≤ n_ping_rw_timeout (i_net s) ≤ MAX_RW_TIMEOUT →
  n_ping_rw_timeout (i_net s) ≤ calculate_interval (n_last_ping_rw (i_net s)) now →
  e_probes (i_env s) = Probe ConnectDone (Reply reply) :: rest → says_rw reply = true →
  addrvec_peek (sv_addrs (zh_servers (handle s))) = Ret x →
  rw_phase now t s =
    '(_, s1) ← sess (cleanup ZOK) (mk_isys (i_sys s) (found_net x now (i_net s))
                                     (found_env x rest (i_env s)));
    (timeout ← getn n_ping_rw_timeout; left_ ← checked 32 (timeout - 0); mret (Z.min t left_)) s1.
Proof.
  intros Hst Ht Hdue Hp Hrw Hpk. unfold rw_phase. isteps. rewrite Hst. cbn [Z.eqb Pos.eqb negb]. isteps.
  rewrite (proj2 (Z.leb_le _ _)) by done. isteps. rewrite checked_ok by (unfold in_s; lia). isteps.
  unfold ping_rw_server. isteps. cbn [i_sys]. unfold failing. rewrite Hpk. isteps.
  unfold next_probe. cbn [i_env]. rewrite Hp. cbn [head from_option id tail]. isteps.
  unfold zookeeper_connect. cbn [i_sys i_net i_env]. run. isteps. rewrite Hrw. isteps. cbn [i_sys].
  rewrite Hpk. isteps. unfold found_net, found_env. cbn [i_sys i_net i_env]. set (s1 := mk_isys _ _ _).
  by destruct (sess (cleanup ZOK) s1) as [[[] s2]| | |].
Qed.

Lemma found_ping s :
  rw_found s → timely (handle s) (now_of s) →
  ping_phase (zh_recv_timeout (handle s)) (calculate_interval (zh_last_send (handle s)) (now_of s))
    (started s) = Ret (inr (send_left (handle s) (now_of s)), started s).
Proof.
  intros Hf [T1 T2 T3 _ _]. pose proof (rf_quiet _ Hf) as Hq. unfold send_left in *. unfold ping_phase. isteps.
  assert (is_connected (handle (started s)) = true) as ->.
  { unfold is_connected. change (zh_state (handle (started s))) with (zh_state (handle s)).
    by rewrite (rf_state _ Hf). }
  cbn [negb]. pose proof (interval_int (zh_last_send (handle s)) (now_of s)) as Hi. unfold in_s in Hi.
  rewrite MI_bind_eq, checked_ok by (unfold in_s; Z.to_euclidean_division_equations; lia). run.
  by rewrite (proj2 (Z.ltb_lt _ _)) by done.
Qed.

Lemma found_watch out s x reply rest :
  rw_found s → timely (handle s) (now_of s) →
  e_probes (i_env s) = Probe ConnectDone (Reply reply) :: rest → says_rw reply = true →
  addrvec_peek (sv_addrs (zh_servers (handle s))) = Ret x →
  watch_phase (now_of s) out (started s) =
    '(send_to, s1) ← rw_phase (now_of s) (send_left (handle s) (now_of s)) (started s);
    let tv := get_timeval (Z.min (recv_left (handle s) (now_of s)) send_to) in
    '(deadline, s1) ← add_timeval (now_of s) tv s1;
    let s1 := mk_isys (i_sys s1) (set_n_next_deadline deadline (i_net s1)) (i_env s1) in
    let write := (negb (bool_decide (zh_to_send (handle s1) = [])) && is_connected (handle s1))
                 || (zh_state (handle s1) =? ZOO_CONNECTING_STATE) in
    Ret (ZOK, mk_interest (in_fd out) (if write then 3 else 2) tv, s1).
Proof.
  intros Hf Ht Hp Hrw Hpk. rewrite watch_begins by by apply started_timely.
  change (recv_left (handle (started s))) with (recv_left (handle s)).
  rewrite (proj2 (Z.leb_gt _ 0)) by apply (rf_heard _ Hf).
  change (zh_recv_timeout (handle (started s))) with (zh_recv_timeout (handle s)).
  change (zh_last_send (handle (started s))) with (zh_last_send (handle s)).
  by rewrite (found_ping s Hf Ht).
Qed.

(**  Finding a read/write server loses the requests.  When a read-only session finds a
    server that accepts writes while a [get] is outstanding, [zookeeper_interest] drops
    the connection with the code [ZOK]: the request gets a faked response that says
    success but has no body, and reading the body is undefined. *)
Theorem rw_found_undefined out s A c rest :
  idle (i_sys s) A → usable (handle s) → stable s → timely (handle s) (now_of s) → rw_found s →
  zh_sent_requests (handle s) = c :: rest → c_type c = COMPLETION_DATA →
  zookeeper_interest out s = UB.
Proof.
  intros Hi Hu Hs Ht Hf Hreq Hty. destruct (rf_probe _ Hf) as (reply & more & Hp & Hrw).
  destruct (addrvec_peek_spec _ (us_addrs _ Hu) (us_servers _ Hu)) as (x & Hx & _).
  rewrite interest_open by (done || apply Hi). rewrite (found_watch _ s x reply more) by done.
  rewrite (rw_phase_found _ _ (started s) x reply more); [|apply Hf..|done|done|done].
  set (s1 := mk_isys _ _ _).
  assert (cleanup ZOK (i_sys s1) = UB) as E.
  { apply (cleanup_ok_undefined (i_sys s1) A c rest); [by apply started_idle| |done|done].
    apply (us_state_wf _ Hu). }
  rewrite sess_eq, E. done.
Qed.

(**  Changing to the read/write server.  When no request is outstanding, finding a
    read/write server ends the connection: every watcher is told that the client is
    connecting, and the next call of [zookeeper_interest] will connect to exactly the
    server that answered.  The descriptor that this call still asks the application to
    watch is the one it has just closed. *)
Theorem rw_found_moves out s A :
  idle (i_sys s) A → usable (handle s) → stable s → timely (handle s) (now_of s) → rw_found s →
  zh_sent_requests (handle s) = [] →
  ∃ x l tv s', zookeeper_interest out s = Ret (ZOK, mk_interest (zh_fd (handle s)) ZOOKEEPER_READ tv, s') ∧
    known_servers s !! position s = Some x ∧ everyone (i_sys s) A l ∧
    w_calls (outside s') = w_calls (outside s) ++ session_calls ZOO_CONNECTING_STATE l ++
      auth_calls ZOK (zh_auth_h (handle s)) ∧
    zh_fd (handle s') = -1 ∧ zh_state (handle s') = 0 ∧
    n_rw_known (i_net s') = true ∧ n_addr_rw_server (i_net s') = x ∧
    zh_ref_counter (handle s') = zh_ref_counter (handle s).
Proof.
  intros Hi Hu Hs Ht Hf Hreq. destruct (rf_probe _ Hf) as (reply & more & Hp & Hrw).
  destruct (addrvec_peek_spec _ (us_addrs _ Hu) (us_servers _ Hu)) as (x & Hx & Hpos).
  set (s1 := mk_isys (i_sys (started s)) (found_net x (now_of s) (i_net (started s)))
               (found_env x more (i_env (started s)))).
  assert (announced (handle (started s)) = Some ZOO_CONNECTING_STATE) as Han.
  { unfold announced, is_unrecoverable, is_connected.
    change (zh_state (handle (started s))) with (zh_state (handle s)). by rewrite (rf_state _ Hf). }
  destruct (cleanup_announces (i_sys (started s)) A ZOK) as (l & Hl & Ec);
    [by apply started_idle|apply (us_state_wf _ Hu)|]. rewrite Han in Ec. cbn [from_option] in Ec.
  set (s0 := record_calls _ _) in Ec.
  destruct (drop_connection_spec s0 A ZOK) as (zh' & Ed & Hq & Hd);
    [by apply idle_record, started_idle|unfold wf_int, in_s; lia|by right|].
  assert (loss_calls ZOK (s_zh s0) = auth_calls ZOK (zh_auth_h (handle s))) as Hlc.
  { unfold loss_calls. change (zh_sent_requests (s_zh s0)) with (zh_sent_requests (handle s)).
    rewrite Hreq. by rewrite app_nil_r. }
  rewrite Ed, Hlc in Ec. set (s2 := record_calls (auth_calls _ _) _) in Ec.
  destruct Hd as [D1 D2 D3 D4 D5 D6 D7 D8 D9 D10 D11].
  assert (zh_fd zh' = -1 ∧ zh_state zh' = 0) as [F1 F2].
  { unfold zh_fd, zh_state. rewrite D7. unfold disconnected_servers. cbn [sv_state sv_set_fd].
    change (sv_state (zh_servers (s_zh s0))) with (zh_state (handle s)). by rewrite (rf_state _ Hf). }
  assert (rw_phase (now_of s) (send_left (handle s) (now_of s)) (started s) =
    Ret (Z.min (send_left (handle s) (now_of s)) MIN_RW_TIMEOUT, mk_isys s2 (i_net s1) (i_env s1))) as Erw.
  { rewrite (rw_phase_found _ _ (started s) x reply more); [|apply Hf..|done|done|done].
    fold s1. rewrite (sess_ret _ s1 () s2 Ec). isteps. by rewrite checked_ok by (unfold in_s; simpl; lia). }
  set (t := Z.min (recv_left (handle s) (now_of s)) (Z.min (send_left (handle s) (now_of s)) MIN_RW_TIMEOUT)).
  destruct (add_timeval_ok (now_of s) t (mk_isys s2 (i_net s1) (i_env s1)) (tm_sec _ _ Ht) (tm_usec _ _ Ht))
    as (d & Edl).
  { pose proof (rf_heard _ Hf). pose proof (rf_quiet _ Hf). unfold t, in_s. lia. }
  set (s3 := mk_isys s2 (set_n_next_deadline d (i_net s1)) (i_env s1)).
  assert (watch_phase (now_of s) (mk_interest (zh_fd (handle s)) 0 (mk_timeval 0 0)) (started s) =
    Ret (ZOK, mk_interest (zh_fd (handle s)) ZOOKEEPER_READ (get_timeval t), s3)) as Ew.
  { rewrite (found_watch _ s x reply more), Erw by done. run. cbv zeta. fold t. rewrite Edl. run.
    cbn [i_sys]. change (s_zh s2) with zh'. unfold is_connected. by rewrite D2, F2. }
  rewrite interest_open by (done || apply Hi). rewrite (interest_done _ _ _ _ _ _ Ew).
  2: { change (zh_close_requested zh' = 0). rewrite D8. apply (us_open _ Hu). }
  exists x, l, (get_timeval t), (released s3).
  split_and!; [done|done|exact Hl| |exact F1|exact F2|done|done|].
  - rewrite <-(started_calls s). rewrite app_assoc. done.
  - cbn [released i_sys s_zh s3 s2 record_calls add_ref set_zh_ref_counter zh_ref_counter].
    rewrite D10. change (zh_ref_counter (s_zh s0)) with (zh_ref_counter (handle s) + 1). lia.
Qed.
End theorems.

(** ** Examples *)
Definition sample_get : completion_list :=
  mk_completion 9 COMPLETION_DATA 14 None [] 140 None None None.
Definition sample_searching (requests : list completion_list) : isys :=
  let s := sample_isys (mk_timeval 1 0) 5 ZOO_READONLY_STATE requests [] [] in
  mk_isys (i_sys s) (i_net s) (set_e_probes [Probe ConnectDone (Reply (lit "rw"))] (i_env s)).

Lemma sample_get_ok : request_ok sample_get.
Proof.
  split; [constructor; simpl; [done|done|constructor]|]. split; [unfold wf_int, in_s; simpl; lia|].
  unfold special. rewrite !elem_of_cons, elem_of_nil. simpl. lia.
Qed.
Lemma sample_searching_found requests : rw_found (sample_searching requests).
Proof.
  split; [reflexivity|reflexivity|reflexivity|split; vm_compute; discriminate|vm_compute; discriminate|].
  exists (lit "rw"), []. split; vm_compute; reflexivity.
Qed.
Lemma sample_searching_usable requests : usable (handle (sample_searching requests)).
Proof.
  split; [vm_compute; discriminate|split; [discriminate|reflexivity]|reflexivity| |discriminate].
  apply vec_wf. simpl. lia.
Qed.

Lemma rw_found_undefined_witness :
  @zookeeper_interest sample_host zero_locals (@st_adaptor sample_host) (mk_interest 0 0 (mk_timeval 0 0))
    (sample_searching [sample_get]) = UB.
Proof.
  apply (@rw_found_undefined sample_host zero_locals _ _ sample_registry sample_get []).
  - apply (sample_isys_idle (mk_timeval 1 0) 5 ZOO_READONLY_STATE [sample_get] [] []).
    constructor; [apply sample_get_ok|constructor].
  - apply sample_searching_usable.
  - apply (sample_stable (mk_timeval 1 0) 5 ZOO_READONLY_STATE [sample_get] [] []).
  - apply (sample_timely 1 5 ZOO_READONLY_STATE [sample_get] [] []). lia.
  - apply sample_searching_found.
  - reflexivity.
  - reflexivity.
Defined.

Lemma rw_found_moves_witness :
  ∃ x l tv s', @zookeeper_interest sample_host zero_locals (@st_adaptor sample_host) (mk_interest 0 0 (mk_timeval 0 0))
      (sample_searching []) = Ret (ZOK, mk_interest 5 ZOOKEEPER_READ tv, s') ∧
    everyone (i_sys (sample_searching [])) sample_registry l ∧ zh_fd (handle s') = -1 ∧
    n_addr_rw_server (i_net s') = x.
Proof.
  destruct (@rw_found_moves sample_host zero_locals (mk_interest 0 0 (mk_timeval 0 0))
    (sample_searching []) sample_registry)
    as (x & l & tv & s' & E & _ & Hl & _ & Hfd & _ & _ & Hx & _).
  - apply (sample_isys_idle (mk_timeval 1 0) 5 ZOO_READONLY_STATE [] [] []). constructor.
  - apply sample_searching_usable.
  - apply (sample_stable (mk_timeval 1 0) 5 ZOO_READONLY_STATE [] [] []).
  - apply (sample_timely 1 5 ZOO_READONLY_STATE [] [] []). lia.
  - apply sample_searching_found.
  - reflexivity.
  - exists x, l, tv, s'. split_and!; [exact E|exact Hl|exact Hfd|exact Hx].
Defined.
