(* ===== verification/Init.v ===== *)
(** * Creating a handle

    [zookeeper_init_internal] of src/zookeeper.c with the setters and getters of a handle,
    for the single-threaded build.  The connection string is a list of hosts and, from its
    first slash on, the chroot. *)

From S2P Require Import Prelude Hashtable Path Watchers Addrvec Hosts Handshake Transport.
From S2P Require Import Handle Session Interest.
Local Open Scope Z_scope.
#[local] Set Warnings "-register-all".

Abbreviation ZOO_READONLY := 1.

(** [clientid_t]. *)
Record clientid := mk_clientid { ci_client_id : Z; ci_passwd : list byte }.

(** The address of [null_watcher_fn], a function that does nothing. *)
Definition null_watcher_fn : Z := -2.
Definition watcher_or_null (watcher : Z) : Z := if watcher =? 0 then null_watcher_fn else watcher.

(** A table before it is created. *)
Definition no_table : zk_hashtable := mk_hashtable 0 [] 0 0 0.

Section init.
Context `{Host, Locals, Adaptor}.

(** The handle as [calloc] and the first assignments leave it. *)
Definition blank_handle (watcher recv_timeout : Z) (cid : option clientid) (context flags : Z)
    : zhandle :=
  mk_zhandle
    (mk_servers None addrvec_init addrvec_init addrvec_init zero_sockaddr 0 (double_of_Z 0)
       (double_of_Z 0) (-1) ZOO_NOTCONNECTED_STATE)
    0 (mk_watches no_table no_table no_table (watcher_or_null watcher) context) None recv_timeout
    NoInput (mk_bl None 0 0) [] [] [] [] 0 0 (replicate 16 Byte.x00) 0 []
    (mk_prime 0 0 0 0 0 (replicate 16 Byte.x00) Byte.x00) 0 0
    (byte.of_Z (Z.land flags ZOO_READONLY))
    (match cid with Some c => if ci_client_id c =? 0 then 0 else 1 | None => 0 end)
    (mk_timeval 0 0) (mk_timeval 0 0) (mk_timeval 0 0) false.

(** The connection string: chroot and host list, [None] for [goto abort].  The [malloc]
    for the host list is not checked. *)
Definition parse_chroot (host : cstring) (o : allocs)
    : outcome (option (option cstring * option cstring) * allocs) :=
  match strchr host slash with
  | Some index_chroot =>
      let '(chroot, o) := strdup index_chroot o in
      match chroot with
      | None => Ret (None, o)
      | Some chroot =>
          let chroot := if (length chroot =? 1)%nat then None else Some chroot in
          let '(ok, o) := alloc o in
          if negb ok then UB else
          Ret (Some (chroot, Some (take (length host - length index_chroot) host)), o)
      end
  | None =>
      let '(hostname, o) := strdup host o in
      Ret (Some (None, hostname), o)
  end.

(** [create_zk_hashtable]: a table without memory stays NULL, and the first operation on
    it dereferences it; the model stops there at once. *)
Definition create_table : MI zk_hashtable :=
  t ← sess (allocating create_zk_hashtable);
  match t with Some t => mret t | None => failing UB end.

Definition abort : MI bool := sess destroy;; mret false.

(** The result says whether the new handle is returned; otherwise it is NULL.  The
    static variable [addr_rw_server] is NULL. *)
Definition zookeeper_init_internal (host : option cstring) (watcher recv_timeout : Z)
    (cid : option clientid) (context flags : Z) : MI bool :=
  ok ← sess (allocating (λ o, Ret (alloc o)));
  if negb ok then mret false else
  sess (modify (λ _, blank_handle watcher recv_timeout cid context flags));;
  modifyn (λ _, mk_net (mk_timeval 0 0) (mk_timeval 0 0) 0 0 zero_sockaddr false);;
  match host with
  | None | Some [] => abort
  | Some host =>
      parsed ← sess (allocating (parse_chroot host));
      match parsed with
      | None => abort
      | Some (chroot, hostname) =>
          sess (set_zh_chroot :=! chroot);;
          sess (modify (on_servers (with_hostname hostname)));;
          if negb (bool_decide (chroot = None)) && negb (isValidPath chroot 0) then abort else
          if bool_decide (hostname = None) then abort else
          rc ← mupdate_addrs;
          if negb (rc =? 0) then abort else
          sess (set_zh_client_id :=! (match cid with Some c => ci_client_id c | None => 0 end));;
          sess (set_zh_passwd :=! (match cid with
                                   | Some c => ci_passwd c | None => replicate 16 Byte.x00 end));;
          sess (set_zh_primer_buffer :=! (mk_bl (Some (replicate 41 Byte.x00)) 41 0));;
          sess (set_zh_last_zxid :=! 0);;
          modifyn (set_n_next_deadline (mk_timeval 0 0));;
          node ← create_table;
          exist ← create_table;
          child ← create_table;
          sess (modify (λ zh, set_zh_watches
            (mk_watches node exist child (zh_watcher (zh_watches zh)) (zh_context (zh_watches zh))) zh));;
          mret true
      end
  end.
(** Both set the callback of the log, which is not modelled. *)
Definition zookeeper_init := zookeeper_init_internal.
Definition zookeeper_init2 := zookeeper_init_internal.

(** ** Accessors *)
Definition zoo_client_id : M clientid :=
  id ← get zh_client_id; passwd ← get zh_passwd; mret (mk_clientid id passwd).
Definition zoo_set_watcher (newFn : Z) : M Z :=
  w ← get zh_watches;
  set_zh_watches :=! (mk_watches (active_node_watchers w) (active_exist_watchers w)
                        (active_child_watchers w) (watcher_or_null newFn) (zh_context w));;
  mret (zh_watcher w).
(** [getpeername] is an argument: it returns [-1] or an address. *)
Definition zookeeper_get_connected_host (peer : option sockaddr) : M (option sockaddr) :=
  state ← get zh_state;
  mret (if negb (state =? ZOO_CONNECTED_STATE) then None else peer).
Definition zoo_get_context : M Z := get (λ zh, zh_context (zh_watches zh)).
Definition zoo_set_context (context : Z) : M () :=
  modify (λ zh, let w := zh_watches zh in
    set_zh_watches (mk_watches (active_node_watchers w) (active_exist_watchers w)
                      (active_child_watchers w) (zh_watcher w) context) zh).
(** [zoo_set_servers] on a handle. *)
Definition set_servers (hosts : option cstring) : MI Z := λ s,
  let sy := i_sys s in
  '(drand, s) ← drand48 s;
  '(rc, sv, o) ← zoo_set_servers (zh_servers (s_zh sy)) hosts (resolve_hosts (e_resolving (i_env s)))
                  drand (w_alloc (s_world sy));
  Ret (rc, mk_isys (mk_sys (set_zh_servers (default (zh_servers (s_zh sy)) sv) (s_zh sy))
                           (set_w_alloc o (s_world sy))) (i_net s) (i_env s)).
Definition zoo_recv_timeout : M Z := get zh_recv_timeout.
Definition zoo_state : M Z := get zh_state.
End init.
