(* ===== verification/InitTheorems.v ===== *)
(** * Theorems about creating a handle

    What [zookeeper_init] makes of a connection string, and that the new handle is ready to
    connect. *)

From Stdlib Require Import Floats.SpecFloat.
From S2P Require Import Prelude RecordIO Jute Path Hashtable HashtableFacts Watchers WatchersFacts.
From S2P Require Import WatchersTheorems Addrvec AddrvecFacts Hosts HostsTheorems Handshake.
From S2P Require Import Transport Handle Session SessionFacts SessionTheorems ResponseTheorems.
From S2P Require Import Interest InterestTheorems ConnectTheorems Init.
Local Open Scope Z_scope.

(** ** The servers of a new handle *)

(** What the resolver is documented to return: addresses of the family it says. *)
Definition resolver_ok (r : resolving) : Prop :=
  ∀ config host port ai, ai ∈ snd (getaddrinfo r config host port) →
    ss_family (ai_addr ai) = ai_family ai.

Lemma lookup_host_ok r host port res ai :
  resolver_ok r → lookup_host r host port = Some res → ai ∈ res →
  ss_family (ai_addr ai) = ai_family ai.
Proof.
  intros Hr. unfold lookup_host. pose proof (Hr true host port) as H1. pose proof (Hr false host port) as H2.
  destruct (getaddrinfo r true host port) as [rc res1], (getaddrinfo r false host port) as [rc' res2].
  simpl in *. destruct (_ || _).
  - destruct (negb _); [done|]. intros [= <-]. apply H2.
  - destruct (negb _); [done|]. intros [= <-]. apply H1.
Qed.
Lemma all_addrs_inet r hosts x :
  resolver_ok r → x ∈ all_addrs r hosts → ss_family x = AF_INET ∨ ss_family x = AF_INET6.
Proof.
  intros Hr. unfold all_addrs. intros Hx. apply list_elem_of_In, in_concat in Hx as (l & Hl & Hx).
  apply list_elem_of_In, list_elem_of_fmap in Hl as (e & -> & _). apply list_elem_of_In in Hx.
  unfold entry_addrs in Hx. destruct (parse_host e) as [[h p]|]; [|by apply elem_of_nil in Hx].
  unfold host_addrs in Hx. apply list_elem_of_fmap in Hx as (ai & -> & Hai).
  apply list_elem_of_filter in Hai as [Hf Hai]. destruct (lookup_host r h p) as [res|] eqn:E.
  - by rewrite (lookup_host_ok _ _ _ _ _ Hr E Hai).
  - by apply elem_of_nil in Hai.
Qed.

Lemma all_addrs_size r hosts : (length (all_addrs r hosts) ≤ total_size r (strtok hosts))%nat.
Proof.
  unfold all_addrs, total_size. induction (strtok hosts) as [|e es IH]; [done|].
  rewrite !fmap_cons. cbn [concat sum_list foldr]. rewrite length_app.
  apply Nat.add_le_mono; [apply length_entry_addrs|exact IH].
Qed.

(** A list of internet addresses equals itself, and does not have the empty address. *)
Lemma addrvec_eq_refl a :
  av_wf a → (∀ x, x ∈ elems a → ss_family x = AF_INET ∨ ss_family x = AF_INET6) →
  addrvec_eq a a = Ret true.
Proof.
  intros Hwf Hall. rewrite addrvec_eq_spec, Nat.eqb_refl by done. f_equal. cbn [andb].
  apply forallb_forall. intros x Hx. apply existsb_exists. exists x. split; [done|].
  apply list_elem_of_In in Hx. unfold same_address.
  rewrite Z.eqb_refl, bool_decide_eq_true_2 by done. by destruct (Hall x Hx) as [-> | ->].
Qed.
Lemma unknown_zero a : known a zero_sockaddr = false.
Proof.
  unfold known. apply not_true_is_false. intros (x & _ & Hx)%existsb_exists.
  unfold same_address in Hx. cbn [zero_sockaddr ss_family Z.eqb orb] in Hx.
  by rewrite andb_false_r in Hx.
Qed.

(** [update_addrs] for a handle that has no servers yet. *)
Lemma update_first sv (resolve : resolver) drand host resolved :
  sv_addrs sv = addrvec_init → sv_addr_cur sv = zero_sockaddr → sv_fd sv = -1 →
  sv_hostname sv = Some host → resolve host [] = Ret (0, resolved, []) →
  av_wf resolved → elems resolved ≠ [] → Z.of_nat (length (elems resolved)) < 2 ^ 31 →
  ∃ sv', update_addrs (Some sv) resolve drand [] = Ret (0, Some sv', []) ∧
    sv_addrs sv' = resolved ∧ lists_wf sv' ∧ sv_reconfig sv' = 1 ∧
    untried (sv_addrs_old sv') = [] ∧ untried (sv_addrs_new sv') = elems resolved ∧
    sv_fd sv' = -1 ∧ sv_state sv' = sv_state sv ∧ sv_hostname sv' = Some host.
Proof.
  intros Ha Hcur Hfd Hh Hr Hwf Hne Hsz. unfold update_addrs. rewrite Hh. cbn [alloc negb].
  rewrite Hr. run. rewrite Ha.
  assert (0 < length (elems resolved))%nat as Hpos by (destruct (elems resolved); [done|simpl; lia]).
  rewrite addrvec_eq_spec by (apply addrvec_init_wf || done).
  replace (length (elems addrvec_init) =? length (elems resolved))%nat with false
    by (symmetry; apply Nat.eqb_neq; simpl; lia). cbn [andb]. run.
  rewrite Hcur, addrvec_contains_spec, unknown_zero by done. run.
  assert (take (Z.to_nat (av_count resolved)) (default [] (av_data resolved)) = elems resolved) as ->.
  { fold (elems resolved). rewrite (av_count_ok _ Hwf), Nat2Z.id. by apply take_ge. }
  cbn [with_reconfig sv_addrs]. rewrite Ha.
  destruct (divide_loop_spec addrvec_init (elems resolved) addrvec_init addrvec_init)
    as (old & new & -> & Ho & Hn & Eo & En & No & Nn); [apply addrvec_init_wf..|done|]. run.
  cbn [elems addrvec_init av_data from_option app av_next] in Eo, En, No, Nn.
  rewrite (filter_all (λ x, known addrvec_init x ≠ true)) in En by done.
  assert (filter (λ x, known addrvec_init x = true) (elems resolved) = []) as Hnone.
  { clear. induction (elems resolved) as [|x l IH]; [done|]. by rewrite filter_cons_False. }
  rewrite Hnone in Eo.
  unfold decide_move. cbn [with_lists with_reconfig sv_addrs]. rewrite Ha.
  rewrite (av_count_ok _ Ho), (av_count_ok _ Hn), Eo, En. cbn [length addrvec_init av_count].
  rewrite Z.add_0_l, wrap_u_id by (unfold in_u; lia). rewrite (proj2 (Z.ltb_lt 0 _)) by lia.
  cbn [with_addrs with_probabilities with_lists with_reconfig sv_reconfig sv_fd]. rewrite Hfd.
  change (-1 =? -1) with true. cbn [Z.eqb Pos.eqb negb andb].
  eexists. split; [reflexivity|]. 
  cbn [with_addrs with_probabilities with_lists with_reconfig sv_addrs sv_reconfig sv_addrs_old
    sv_addrs_new sv_fd sv_state sv_hostname].
  unfold untried. rewrite Eo, En, Nn, drop_nil, drop_0. split_and!; done.
Qed.

Section init.
Context `{Host, Locals}.

(** ** Tables *)
Lemma create_table_ok s :
  ample (i_sys s) → ∃ h, create_table s = Ret (h, s) ∧ tbl_repr h ∅.
Proof.
  intros Ha. destruct (create_hashtable (V:=watcher_list) (K:=cstring) 32 []) as [[h|] o] eqn:E; [|done].
  assert (o = []) as -> by (vm_compute in E; by injection E).
  exists h. split; [|split; [by apply (repr_create 32 [] h [])|apply map_Forall_empty]].
  unfold create_table. rewrite MI_bind_eq, (sess_ret _ s (Some h) (i_sys s)).
  - run. by destruct s.
  - apply allocating_ok; [done|]. unfold create_zk_hashtable. by rewrite <-E.
Qed.

(** ** The connection string *)
Definition no_slash (s : cstring) : Prop := Forall (λ c, c ≠ slash) s.
Definition chroot_part (path : cstring) : Prop := path = [] ∨ ∃ rest, path = slash :: rest.
(** The chroot a path stands for: none if it is empty or the root. *)
Definition chroot_of (path : cstring) : option cstring :=
  if (length path <=? 1)%nat then None else Some path.

Lemma strchr_none s c : Forall (λ x, x ≠ c) s → strchr s c = None.
Proof.
  induction 1 as [|x s Hx Hs IH]; [done|]. simpl. by rewrite isc_spec, bool_decide_eq_false_2.
Qed.
Lemma strchr_first a c b : Forall (λ x, x ≠ c) a → strchr (a ++ c :: b) c = Some (c :: b).
Proof.
  induction 1 as [|x a Hx Ha IH]; simpl; rewrite isc_spec.
  - by rewrite bool_decide_eq_true_2.
  - by rewrite bool_decide_eq_false_2.
Qed.
Lemma parse_chroot_ok hosts path :
  no_slash hosts → chroot_part path →
  parse_chroot (hosts ++ path) [] = Ret (Some (chroot_of path, Some hosts), []).
Proof.
  intros Hh [->|[rest ->]]; unfold parse_chroot.
  - rewrite app_nil_r, strchr_none by done. done.
  - rewrite strchr_first by done. cbn [strdup alloc negb]. unfold chroot_of.
    rewrite length_app, Nat.add_sub, take_app_length. by destruct rest.
Qed.

(** ** The new handle *)
Definition no_watchers : registry := λ _, ∅.

Lemma dropped_unused rc zh :
  zh_sent_requests zh = [] → zh_completions_to_process zh = [] → zh_outstanding_sync zh = 0 →
  zh_fd zh = -1 →
  zh_completions_to_process (dropped rc zh) = [] ∧ zh_outstanding_sync (dropped rc zh) = 0 ∧
  zh_fd (dropped rc zh) = -1.
Proof.
  intros H1 H2 H3 H4. unfold dropped. destruct zh as [? ? ? ? ? ib]; cbn in *. subst.
  destruct ib; cbn; done.
Qed.
Lemma destroy_unused s :
  zh_sent_requests (s_zh s) = [] → zh_completions_to_process (s_zh s) = [] → zh_auth_h (s_zh s) = [] →
  zh_outstanding_sync (s_zh s) = 0 → zh_input_buffer (s_zh s) = NoInput → zh_fd (s_zh s) = -1 →
  ample s →
  ∃ zh', destroy s = Ret ((), mk_sys zh' (s_world s)) ∧ zh_freed zh' = true ∧ zh_fd zh' = -1.
Proof.
  intros H1 H2 H3 H4 H5 H6 Ha. unfold destroy.
  assert (cleanup_bufs true ZCLOSING s = Ret ((), mk_sys (dropped ZCLOSING (s_zh s)) (s_world s))) as E.
  { rewrite cleanup_bufs_spec; [|done|by rewrite H1|unfold wf_int, in_s, ZCLOSING; lia].
    rewrite H3. by rewrite record_nil. }
  rewrite M_bind_eq, E. run.
  destruct (dropped_unused ZCLOSING (s_zh s)) as (Z1 & Z2 & Z3); [done..|].
  generalize dependent (dropped ZCLOSING (s_zh s)). intros zh1 _ Z1 Z2 Z3.
  unfold process_completions_if_async, process_completions; single_threaded. msteps.
  cbn [s_zh]. rewrite Z2. cbn [Z.eqb]. msteps. cbn [s_zh]. rewrite Z1. cbn [completions_loop]. msteps.
  cbn [s_zh]. rewrite Z3. change (-1 =? -1) with true. cbn [negb]. msteps.
  eexists. split; [reflexivity|]. split; [done|exact Z3].
Qed.

(** The handle and its environment just before the servers are looked up. *)
Definition opening (watcher rt : Z) (cid : option clientid) (ctx flags : Z)
    (chroot hostname : option cstring) (s : isys) : isys :=
  mk_isys (mk_sys (on_servers (with_hostname hostname)
      (set_zh_chroot chroot (blank_handle watcher rt cid ctx flags))) (outside s))
    (mk_net (mk_timeval 0 0) (mk_timeval 0 0) 0 0 zero_sockaddr false) (i_env s).

Lemma init_parses hosts path watcher rt cid ctx flags s :
  ample (i_sys s) → hosts ≠ [] → no_slash hosts → chroot_part path →
  zookeeper_init (Some (hosts ++ path)) watcher rt cid ctx flags s =
    (let chroot := chroot_of path in
     (if negb (bool_decide (chroot = None)) && negb (isValidPath chroot 0) then abort else
      rc ← mupdate_addrs;
      if negb (rc =? 0) then abort else
      sess (set_zh_client_id :=! (match cid with Some c => ci_client_id c | None => 0 end));;
      sess (set_zh_passwd :=! (match cid with
                               | Some c => ci_passwd c | None => replicate 16 Byte.x00 end));;
      sess (set_zh_primer_buffer :=! (mk_bl (Some (replicate 41 Byte.x00)) 41 0));;
      sess (set_zh_last_zxid :=! 0);;
      modifyn (set_n_next_deadline (mk_timeval 0 0));;
      node ← create_table; exist ← create_table; child ← create_table;
      sess (modify (λ zh, set_zh_watches
        (mk_watches node exist child (zh_watcher (zh_watches zh)) (zh_context (zh_watches zh))) zh));;
      mret true) (opening watcher rt cid ctx flags chroot (Some hosts) s)).
Proof.
  intros Ha Hne Hns Hp. unfold zookeeper_init, zookeeper_init_internal.
  rewrite MI_bind_eq, (sess_ret _ s true (i_sys s)) by (by apply allocating_ok). run. isteps.
  destruct (hosts ++ path) as [|c host] eqn:Eh; [by destruct hosts|].
  rewrite MI_bind_eq. set (s1 := mk_isys _ _ _).
  rewrite (sess_ret _ s1 (Some (chroot_of path, Some hosts)) (i_sys s1)).
  2: { apply allocating_ok; [exact Ha|]. rewrite <-Eh. by rewrite parse_chroot_ok. }
  run. isteps. cbv zeta. unfold s1, opening. cbn [i_sys i_net i_env s_zh s_world].
  destruct (negb (bool_decide (chroot_of path = None)) && _); [done|].
  rewrite (bool_decide_eq_false_2 (Some hosts = None)) by done. done.
Qed.

Definition cid_of (cid : option clientid) : clientid :=
  default (mk_clientid 0 (replicate 16 Byte.x00)) cid.

Lemma new_idle node exist child zh w :
  tbl_repr node ∅ → tbl_repr exist ∅ → tbl_repr child ∅ →
  zh_watches zh = mk_watches node exist child (zh_watcher (zh_watches zh)) (zh_context (zh_watches zh)) →
  zh_watcher (zh_watches zh) ≠ 0 → zh_outstanding_sync zh = 0 → zh_completions_to_process zh = [] →
  zh_sent_requests zh = [] → w_alloc w = [] → idle (mk_sys zh w) no_watchers.
Proof.
  intros H1 H2 H3 Hw Hn Hs Hc Hr Ha.
  split; [exact Ha| |exact Hs|exact Hc|exact Hn| |cbn [s_zh]; rewrite Hr; constructor].
  - intros t. cbn [s_zh]. rewrite Hw. unfold no_watchers, room. rewrite map_size_empty.
    split; [by destruct t|lia].
  - intros t p wo Hin. unfold watching, no_watchers in Hin. rewrite lookup_empty in Hin.
    by apply elem_of_nil in Hin.
Qed.

(** The test of the chroot. *)
Lemma chroot_accepted chroot :
  negb (bool_decide (chroot = None)) && negb (isValidPath chroot 0) = false ↔
  ∀ c, chroot = Some c → isValidPath (Some c) 0 = true.
Proof.
  destruct chroot as [c|]; cbn [bool_decide negb andb]; [|by rewrite bool_decide_eq_true_2].
  rewrite bool_decide_eq_false_2 by done. cbn [negb andb]. split.
  - intros Hv c' [= <-]. by apply negb_false_iff.
  - intros Hv. by rewrite (Hv c eq_refl).
Qed.
Lemma meaning_servers r hosts servers_ : hosts ≠ [] → meaning r hosts = (ZOK, servers_) →
  servers_ = all_addrs r hosts ∧ servers_ ≠ [].
Proof.
  intros Hne Hm. unfold meaning in Hm. rewrite bool_decide_eq_false_2 in Hm by done.
  destruct (existsb _ _); [done|]. destruct (decide (all_addrs r hosts = [])) as [Hall|Hall].
  - by rewrite bool_decide_eq_true_2 in Hm.
  - rewrite bool_decide_eq_false_2 in Hm by done. by injection Hm as <-.
Qed.
(** [update_addrs] with the first random number of the environment. *)
Lemma mupdate_first s sv : ample (i_sys s) →
  update_addrs (Some (zh_servers (handle s))) (resolve_hosts (e_resolving (i_env s)))
    (default (double_of_Z 0) (head (e_drand (i_env s)))) [] = Ret (0, Some sv, []) →
  mupdate_addrs s = Ret (0, mk_isys (mk_sys (set_zh_servers sv (handle s)) (outside s)) (i_net s)
    (set_e_drand (tail (e_drand (i_env s))) (i_env s))).
Proof.
  intros Ha Eu. unfold mupdate_addrs, drand48. run. cbn [i_env]. unfold ample in Ha. rewrite Ha.
  change (e_resolving (set_e_drand _ (i_env s))) with (e_resolving (i_env s)). rewrite Eu. run.
  cbn [from_option id]. by rewrite set_w_alloc_nil.
Qed.

(** C8.  Creating a handle.  For a connection string of hosts that resolve and an optional
    chroot, [zookeeper_init] returns NULL if the chroot is not a valid path; otherwise it
    returns a handle that is ready to connect, with all the servers the string means
    still to be tried, the chroot (none for "/"), the session to resume, no watches and
    no requests; nobody has been called. *)
Theorem init_ready hosts path watcher rt cid ctx flags s servers_ :
  ample (i_sys s) → hosts ≠ [] → no_slash hosts → chroot_part path →
  resolver_ok (e_resolving (i_env s)) → meaning (e_resolving (i_env s)) hosts = (ZOK, servers_) →
  Z.of_nat (length hosts) < INT_MAX →
  Z.of_nat (total_size (e_resolving (i_env s)) (strtok hosts)) < 2 ^ 31 →
  setup_random (e_resolving (i_env s)) = Ret () →
  ∃ ok s', zookeeper_init (Some (hosts ++ path)) watcher rt cid ctx flags s = Ret (ok, s') ∧
    outside s' = outside s ∧
    (ok = true ↔ ∀ c, chroot_of path = Some c → isValidPath (Some c) 0 = true) ∧
    (ok = false → zh_freed (handle s') = true) ∧
    (ok = true →
      offline s' no_watchers ∧ zh_chroot (handle s') = chroot_of path ∧
      known_servers s' ≡ₚ servers_ ∧
      untried (sv_addrs_new (zh_servers (handle s'))) ≡ₚ servers_ ∧
      zh_client_id (handle s') = ci_client_id (cid_of cid) ∧ zh_passwd (handle s') = ci_passwd (cid_of cid) ∧
      zh_recv_timeout (handle s') = rt ∧ zh_sent_requests (handle s') = [] ∧ zh_to_send (handle s') = []).
Proof.
  intros Ha Hne Hns Hp Hr Hm Hl Hsz Hseed. set (r := e_resolving (i_env s)) in *.
  rewrite init_parses by done. cbv zeta. set (s1 := opening _ _ _ _ _ _ _ s).
  pose proof (chroot_accepted (chroot_of path)) as Hvalid.
  destruct (_ && _) eqn:Ev.
  { destruct (destroy_unused (i_sys s1)) as (zh' & E & Hf & _); [reflexivity..|exact Ha|].
    exists false, (mk_isys (mk_sys zh' (outside s1)) (i_net s1) (i_env s1)). unfold abort.
    rewrite MI_bind_eq, (sess_ret _ s1 () _ E). split_and!; [done|done| |done|done].
    split; [done|]. intros Hv. apply Hvalid in Hv. done. }
  destruct (resolve_hosts_meaning r hosts Hl Hsz Hseed) as (avec & Er & Hwf & Hnx & Hperm & _).
  rewrite Hm in Er, Hperm. cbn [fst snd] in Er, Hperm.
  destruct (meaning_servers r hosts servers_ Hne Hm) as [Hsv Hsne].
  assert (length (elems avec) ≤ total_size r (strtok hosts))%nat as Hlen.
  { rewrite Hperm, Hsv. apply all_addrs_size. }
  destruct (update_first (zh_servers (handle s1)) (resolve_hosts r) (default (double_of_Z 0) (head (e_drand (i_env s))))
    hosts avec) as (sv & Eu & Usv & Uwf & Urec & Uold & Unew & Ufd & Ust & Uhost);
    [reflexivity..|exact Er|done|intros E; rewrite E in Hperm; by apply Permutation_nil in Hperm|lia|].
  set (s2 := mk_isys (mk_sys (set_zh_servers sv (handle s1)) (outside s1)) (i_net s1)
               (set_e_drand (tail (e_drand (i_env s))) (i_env s))).
  assert (mupdate_addrs s1 = Ret (0, s2)) as Em by exact (mupdate_first s1 sv Ha Eu).
  rewrite MI_bind_eq, Em. run. isteps. set (s3 := mk_isys _ _ _).
  destruct (create_table_ok s3) as (node & En & Tn); [exact Ha|].
  destruct (create_table_ok s3) as (exist & Ee & Te); [exact Ha|].
  destruct (create_table_ok s3) as (child & Ec & Tc); [exact Ha|].
  rewrite En. run. isteps. rewrite Ee. run. isteps. rewrite Ec. run. isteps.
  set (s4 := mk_isys _ _ _). exists true, s4.
  assert (known_servers s4 = elems avec) as Hk by (change (elems (sv_addrs sv) = elems avec); by rewrite Usv).
  split; [reflexivity|]. split; [reflexivity|]. split; [by rewrite <-Hvalid|]. split; [done|]. intros _.
  split_and!; [|done|by rewrite Hk| |by destruct cid|by destruct cid|done|done|done].
  - split.
    + apply (new_idle node exist child); [done..| |done|done|done|exact Ha].
      change (watcher_or_null watcher ≠ 0). unfold watcher_or_null, null_watcher_fn.
      destruct (Z.eqb_spec watcher 0); done || lia.
    + exists hosts, avec. split_and!; [exact Uhost|exact Hwf|exact Er|].
      change (addrvec_eq (sv_addrs sv) avec = Ret true). rewrite Usv. apply addrvec_eq_refl; [done|].
      intros x Hx. rewrite Hperm, Hsv in Hx. by apply (all_addrs_inet r hosts).
    + exact Ufd.
    + change (0 ≤ sv_state sv < 2 ^ 31). rewrite Ust. split; done.
    + unfold is_connected, zh_state. change (zh_servers (handle s4)) with sv. by rewrite Ust.
    + reflexivity.
    + reflexivity.
    + reflexivity.
    + reflexivity.
    + right. exact Urec.
    + exact Uwf.
    + rewrite Hk. intros E. rewrite E in Hperm. by apply Permutation_nil in Hperm.
  - change (untried (sv_addrs_new sv) ≡ₚ servers_). by rewrite Unew.
Qed.
End init.

(** ** Example *)
Lemma sample_resolver_ok : resolver_ok sample_resolving.
Proof.
  intros config host port ai. simpl. case_bool_decide; [|case_bool_decide]; simpl;
    rewrite ?elem_of_cons, elem_of_nil; intros Hin; by repeat destruct Hin as [->|Hin].
Qed.

Lemma init_ready_witness :
  let s := sample_isys (mk_timeval 1 0) (-1) 0 [] [] [] in
  ∃ ok s', @zookeeper_init sample_host zero_locals (@st_adaptor sample_host) (Some (lit "a:2181,b:2181/app")) 5 10000 None 50 0 s =
      Ret (ok, s') ∧
    (ok = true ↔ ∀ c, chroot_of (lit "/app") = Some c → isValidPath (Some c) 0 = true) ∧
    (ok = true → @offline sample_host s' no_watchers ∧ zh_chroot (handle s') = Some (lit "/app") ∧
      known_servers s' ≡ₚ [server 1 2181; server 2 2181]).
Proof.
  intros s. destruct (@init_ready sample_host zero_locals (lit "a:2181,b:2181") (lit "/app") 5 10000 None 50 0
    s [server 1 2181; server 2 2181]) as (ok & s' & E & _ & Hok & _ & Hs).
  - reflexivity.
  - discriminate.
  - vm_compute. repeat constructor; discriminate.
  - right. by exists (lit "app").
  - exact sample_resolver_ok.
  - vm_compute. reflexivity.
  - vm_compute. reflexivity.
  - vm_compute. reflexivity.
  - reflexivity.
  - exists ok, s'. split; [exact E|]. split; [exact Hok|]. intros Hk.
    destruct (Hs Hk) as (H1 & H2 & H3 & _). split; [exact H1|]. split; [exact H2|exact H3].
Defined.
