(* ===== verification/Triples.v ===== *)
(** * A program logic for the state of a handle

    Most of the functions of the session engine leave the state of the connection alone:
    they marshal, queue, send or call the user's functions.  The [core] of a handle is the
    part that says where the session is: the descriptor, the state, the reference count,
    what is waiting to be processed.  [quiet m] says that [m] does not change it, and
    [still m] that it leaves the outstanding requests and the synchronous completions
    alone as well; [AdaptorLaws] asks the latter of an adaptor;
    [triple P m Q] is a Hoare triple (for any allocator and any answers of the operating
    system, if [m] returns) with assertions on the core.  The tactic [quiet] proves the
    first by looking at the code, the lemmas [t_...] step through the rest. *)

From Stdlib Require Import Floats.SpecFloat.
From S2P Require Import Prelude RecordIO Jute Path Watchers Addrvec Hosts Handshake Transport.
From S2P Require Import Handle Session Requests Interest.
Local Open Scope Z_scope.

(** ** The core of a handle *)
Record core := mk_core {
  k_fd : Z;
  k_state : Z;
  k_refs : Z;
  k_closing : Z;
  k_freed : bool;
  k_sync : Z;
  k_pending : list completion_list;
  k_packets : list buffer_list;
  k_input : input_ptr;
}.
Definition core_of (zh : zhandle) : core :=
  mk_core (zh_fd zh) (zh_state zh) (zh_ref_counter zh) (zh_close_requested zh) (zh_freed zh)
    (zh_outstanding_sync zh) (zh_completions_to_process zh) (zh_to_process zh)
    (zh_input_buffer zh).

(** ** Computations that leave the core alone *)
Definition quiet {A} (m : M A) : Prop :=
  ∀ s a s', m s = Ret (a, s') → core_of (s_zh s') = core_of (s_zh s).

Lemma quiet_ret {A} (a : A) : quiet (mret a).
Proof. intros s b s' E. by injection E as <- <-. Qed.
Lemma quiet_bind {A B} (m : M A) (f : A → M B) :
  quiet m → (∀ a, quiet (f a)) → quiet (m ≫= f).
Proof.
  intros Hm Hf s b s' E. apply bind_Ret_inv in E as ((a & s1) & E1 & E2).
  rewrite (Hf _ _ _ _ E2). by apply (Hm _ a).
Qed.
Lemma quiet_get {A} (f : zhandle → A) : quiet (get f).
Proof. intros s a s' E. by injection E as <- <-. Qed.
Lemma quiet_modify f : (∀ zh, core_of (f zh) = core_of zh) → quiet (modify f).
Proof. intros Hf s a s' E. injection E as <- <-. apply Hf. Qed.
Lemma quiet_askw {A} (f : world → A) : quiet (askw f).
Proof. intros s a s' E. by injection E as <- <-. Qed.
Lemma quiet_modifyw f : quiet (modifyw f).
Proof. intros s a s' E. by injection E as <- <-. Qed.
Lemma quiet_lift {A} (m : outcome A) : quiet (lift m).
Proof. intros s a s' E. unfold lift in E. apply bind_Ret_inv in E as (x & _ & E). by injection E as <- <-. Qed.
Lemma quiet_raise {A} (m : outcome A) : quiet (raise m).
Proof. apply quiet_lift. Qed.
Lemma quiet_allocating {A} (f : allocs → outcome (A * allocs)) : quiet (allocating f).
Proof.
  intros s a s' E. unfold allocating in E. apply bind_Ret_inv in E as ([x o] & _ & E).
  by injection E as <- <-.
Qed.
Lemma quiet_get_system_time : quiet get_system_time.
Proof. intros s a s' E. unfold get_system_time in E. destruct (w_clock _); by injection E as <- <-. Qed.

Create HintDb quiet.
#[export] Hint Resolve quiet_ret quiet_get quiet_askw quiet_modifyw quiet_lift quiet_raise
  quiet_allocating quiet_get_system_time : quiet.

(** Proves [quiet m] by the shape of [m]; functions come from the database. *)
Ltac quiet_step :=
  match goal with
  | |- quiet (_ ≫= _) => apply quiet_bind; [|intros ?]
  | |- quiet (modify _) => apply quiet_modify; intros ?; reflexivity
  | |- quiet (match ?x with _ => _ end) => destruct x
  | |- _ => solve [eauto 3 with quiet nocore]
  end.
Ltac quiet := repeat quiet_step.

(** Stronger: neither the core nor the requests that wait for an answer nor the
    synchronous completions change. *)
Definition still {A} (m : M A) : Prop :=
  ∀ s a s', m s = Ret (a, s') → core_of (s_zh s') = core_of (s_zh s) ∧
    zh_sent_requests (s_zh s') = zh_sent_requests (s_zh s) ∧
    w_sync (s_world s') = w_sync (s_world s).

Lemma still_quiet {A} (m : M A) : still m → quiet m.
Proof. intros Hm s a s' E. by apply (Hm s a). Qed.
Lemma still_ret {A} (a : A) : still (mret a).
Proof. intros s b s' E. by injection E as <- <-. Qed.
Lemma still_bind {A B} (m : M A) (f : A → M B) :
  still m → (∀ a, still (f a)) → still (m ≫= f).
Proof.
  intros Hm Hf s b s' E. apply bind_Ret_inv in E as ((a & s1) & E1 & E2).
  destruct (Hf _ _ _ _ E2) as (-> & -> & ->). by apply (Hm _ a).
Qed.
Lemma still_get {A} (f : zhandle → A) : still (get f).
Proof. intros s a s' E. by injection E as <- <-. Qed.
Lemma still_modify f :
  (∀ zh, core_of (f zh) = core_of zh) → (∀ zh, zh_sent_requests (f zh) = zh_sent_requests zh) →
  still (modify f).
Proof. intros Hf Hf' s a s' E. injection E as <- <-. split_and!; [apply Hf|apply Hf'|done]. Qed.
Lemma still_askw {A} (f : world → A) : still (askw f).
Proof. intros s a s' E. by injection E as <- <-. Qed.
Lemma still_modifyw f : (∀ w, w_sync (f w) = w_sync w) → still (modifyw f).
Proof. intros Hf s a s' E. injection E as <- <-. split_and!; [done..|apply Hf]. Qed.
Lemma still_lift {A} (m : outcome A) : still (lift m).
Proof. intros s a s' E. apply bind_Ret_inv in E as (x & _ & E). by injection E as <- <-. Qed.
Lemma still_raise {A} (m : outcome A) : still (raise m).
Proof. apply still_lift. Qed.
Lemma still_allocating {A} (f : allocs → outcome (A * allocs)) : still (allocating f).
Proof.
  intros s a s' E. apply bind_Ret_inv in E as ([x o] & _ & E). by injection E as <- <-.
Qed.
Lemma still_get_system_time : still get_system_time.
Proof. intros s a s' E. unfold get_system_time in E. destruct (w_clock _); by injection E as <- <-. Qed.

#[export] Hint Resolve still_quiet still_ret still_get still_askw still_lift still_raise
  still_allocating still_get_system_time : quiet.
Ltac still_step :=
  match goal with
  | |- still (_ ≫= _) => apply still_bind; [|intros ?]
  | |- still (modify _) => apply still_modify; intros ?; reflexivity
  | |- still (modifyw _) => apply still_modifyw; intros ?; reflexivity
  | |- still (match ?x with _ => _ end) => destruct x
  | |- _ => solve [eauto 3 with quiet nocore]
  end.
Ltac stills := repeat still_step.

(** What the engine relies on in an adaptor. *)
Class AdaptorLaws `{Adaptor} : Prop := {
  get_xid_still : still get_xid;
  adaptor_send_queue_still timeout : still (adaptor_send_queue timeout);
}.
Global Instance st_adaptor_laws `{Host} : AdaptorLaws.
Proof. split; [|intros timeout]; single_threaded; stills. Qed.
#[export] Hint Extern 0 (AdaptorLaws) => typeclasses eauto : quiet.

Section stills.
Context `{Host, Locals, Adaptor, !AdaptorLaws}.

Lemma still_call fn c : still (call fn c).
Proof. unfold call. stills. Qed.
Hint Resolve still_call : quiet.
Lemma still_get_xid : still get_xid.
Proof. apply get_xid_still. Qed.
Lemma still_call_auth_completions l rc : still (call_auth_completions l rc).
Proof. induction l as [|[fn d] l IH]; simpl; stills. Qed.
Hint Resolve still_get_xid still_call_auth_completions : quiet.
Lemma still_notify_auth rc : still (notify_auth rc).
Proof. unfold notify_auth. stills. Qed.
Lemma still_do_create_completion_entry xid t dc data wo cl wdo :
  still (do_create_completion_entry xid t dc data wo cl wdo).
Proof. unfold do_create_completion_entry. stills. Qed.
Hint Resolve still_notify_auth still_do_create_completion_entry : quiet.
Lemma still_queue_bytes front buff len : still (queue_bytes front buff len).
Proof. unfold queue_bytes. stills. Qed.
Lemma still_adaptor_send_queue timeout : still (adaptor_send_queue timeout).
Proof. apply adaptor_send_queue_still. Qed.
Lemma still_flush_send_queue timeout : still (zh_flush_send_queue timeout).
Proof. unfold zh_flush_send_queue. stills. Qed.
Lemma still_marshal ser : still (marshal ser).
Proof. unfold marshal. stills. Qed.
Lemma still_unless_failed rc m : still m → still (unless_failed rc m).
Proof. intros. unfold unless_failed. stills. Qed.
Lemma quiet_unless_failed rc m : quiet m → quiet (unless_failed rc m).
Proof. intros. unfold unless_failed. quiet. Qed.
Lemma still_reading {A} (op : deser buff_struct A) v ia : still (reading op v ia).
Proof. unfold reading. stills. Qed.
Hint Resolve still_queue_bytes still_adaptor_send_queue still_flush_send_queue still_marshal still_unless_failed
  quiet_unless_failed still_reading : quiet.
Lemma still_parse {A} (op : deser buff_struct A) junk ia : still (parse op junk ia).
Proof. unfold parse. stills. Qed.
Lemma still_client_path p : still (client_path p).
Proof. unfold client_path. stills. Qed.
Lemma still_need ia : still (need ia).
Proof. unfold need. stills. Qed.
Hint Resolve still_parse still_client_path still_need : quiet.

(** The three functions that call each other, by recursion on the completion. *)
Lemma still_deserialize_response cptr : ∀ type xid failed rc ia,
  still (deserialize_response type xid failed rc cptr ia).
Proof.
  revert cptr. fix IH 1. intros [cx ct cr cw clist cd cb cwr cdr] type xid failed rc ia.
  cbn [deserialize_response c_result c_data c_clist].
  match goal with |- context [if failed then ?f clist ;; _ else _] => set (fail_all := f) end.
  match goal with |- context [?f clist 0 _ _] => set (multi_loop := f) end.
  assert (still (fail_all clist)) as Hfail.
  { induction clist as [|c clist IHl]; [apply still_ret|].
    apply still_bind; [apply IH|intros _; exact IHl]. }
  assert (∀ rc mhdr ia, still (multi_loop clist rc mhdr ia)) as Hmulti.
  { clear Hfail. induction clist as [|c clist IHl]; intros rc' mhdr ia'; cbn [multi_loop];
      destruct (negb _); [apply still_ret|apply still_raise|apply still_ret|].
    apply still_bind; [stills|intros [[rc'' err] ia'']].
    apply still_bind; [apply IH|intros ia3]. apply still_bind; [stills|intros ia4].
    apply still_bind; [stills|intros [[? mhdr'] ia5]]. apply IHl. }
  clearbody fail_all multi_loop. clear IH. stills.
Qed.
Hint Resolve still_deserialize_response : quiet.
Lemma still_open_archive b len : still (open_archive b len).
Proof. unfold open_archive. stills. Qed.
Hint Resolve still_open_archive : quiet.
Lemma still_process_completion c : still (process_completion c).
Proof. unfold process_completion. stills. Qed.
Lemma still_zh_collectWatchers type path : still (zh_collectWatchers type path).
Proof. unfold zh_collectWatchers. stills. Qed.
Hint Resolve still_process_completion still_zh_collectWatchers : quiet.
Lemma still_send_info_packet a : still (send_info_packet a).
Proof. unfold send_info_packet. stills. Qed.
Hint Resolve still_send_info_packet : quiet.
Lemma still_send_infos auths : ∀ rc, still (send_infos auths rc).
Proof. induction auths as [|a auths IH]; intros rc; simpl; stills. Qed.
Hint Resolve still_send_infos : quiet.
Lemma still_send_auth_info : still send_auth_info.
Proof. unfold send_auth_info. stills. Qed.
Lemma still_send_last_auth_info : still send_last_auth_info.
Proof. unfold send_last_auth_info. stills. Qed.
Lemma still_watched t : still (watched t).
Proof. unfold watched. stills. Qed.
Hint Resolve still_watched : quiet.
Lemma still_send_set_watches : still send_set_watches.
Proof. unfold send_set_watches. stills. Qed.
Lemma still_send_ping : still send_ping.
Proof. unfold send_ping. stills. Qed.
Lemma still_send data : still (send data).
Proof. unfold send. stills. Qed.
End stills.
#[export] Hint Resolve still_call still_get_xid still_call_auth_completions still_notify_auth
  still_do_create_completion_entry still_queue_bytes still_adaptor_send_queue still_flush_send_queue still_marshal
  still_unless_failed quiet_unless_failed still_reading still_parse still_client_path still_need
  still_deserialize_response still_open_archive still_process_completion
  still_zh_collectWatchers still_send_auth_info still_send_last_auth_info
  still_send_set_watches still_send_ping still_send : quiet.

(** ** Triples *)
Definition triple {A} (P : core → Prop) (m : M A) (Q : A → core → Prop) : Prop :=
  ∀ s a s', P (core_of (s_zh s)) → m s = Ret (a, s') → Q a (core_of (s_zh s')).

Section rules.
Context {A B : Type}.
Implicit Types (P : core → Prop) (k : core) (m : M A) (f : A → M B).

Lemma t_pre P m Q : (∀ k, P k → triple (eq k) m Q) → triple P m Q.
Proof. intros Hm s a s' HP E. by apply (Hm _ HP s a s'). Qed.
Lemma t_post k m (Q Q' : A → core → Prop) :
  triple (eq k) m Q' → (∀ a k', Q' a k' → Q a k') → triple (eq k) m Q.
Proof. intros Hm HQ s a s' Hk E. by eapply HQ, Hm. Qed.
Lemma t_ret k a (Q : A → core → Prop) : Q a k → triple (eq k) (mret a) Q.
Proof. intros HQ s b s' -> E. by injection E as <- <-. Qed.
Lemma t_raise k (m : outcome A) Q : (∀ a, m ≠ Ret a) → triple (eq k) (raise m) Q.
Proof.
  intros Hm s b s' -> E. apply bind_Ret_inv in E as (a & E & _). by apply Hm in E.
Qed.
Lemma t_bind P m f Q R :
  triple P m Q → (∀ a k, Q a k → triple (eq k) (f a) R) → triple P (m ≫= f) R.
Proof.
  intros Hm Hf s b s' HP E. apply bind_Ret_inv in E as ((a & s1) & E1 & E2).
  by apply (Hf a _ (Hm _ _ _ HP E1) s1).
Qed.
Lemma t_quiet k m : quiet m → triple (eq k) m (λ _, eq k).
Proof. intros Hm s a s' -> E. by rewrite (Hm _ _ _ E). Qed.
Lemma t_quiet_bind k m f R :
  quiet m → (∀ a, triple (eq k) (f a) R) → triple (eq k) (m ≫= f) R.
Proof. intros Hm Hf. eapply t_bind; [by apply t_quiet|]. by intros a ? <-. Qed.
Lemma t_get_bind (g : core → A) k (h : zhandle → A) f R :
  (∀ zh, h zh = g (core_of zh)) → triple (eq k) (f (g k)) R → triple (eq k) (get h ≫= f) R.
Proof.
  intros Hh Hf s b s' -> E. apply (Hf s b s'); [done|]. rewrite <-Hh. exact E.
Qed.
Lemma t_modify (g : core → core) k (h : zhandle → zhandle) :
  (∀ zh, core_of (h zh) = g (core_of zh)) → triple (eq k) (modify h) (λ _, eq (g k)).
Proof. intros Hh s a s' -> E. injection E as <- <-. symmetry. apply Hh. Qed.
End rules.
Lemma t_modify_bind {B} (g : core → core) k (h : zhandle → zhandle) (m : M B) R :
  (∀ zh, core_of (h zh) = g (core_of zh)) → triple (eq (g k)) m R →
  triple (eq k) (modify h ;; m) R.
Proof. intros Hh Hm. eapply t_bind; [by apply t_modify|]. by intros [] ? <-. Qed.

(** The updates of the core. *)
Definition k_with_fd fd k :=
  mk_core fd (k_state k) (k_refs k) (k_closing k) (k_freed k) (k_sync k) (k_pending k)
    (k_packets k) (k_input k).
Definition k_with_state st k :=
  mk_core (k_fd k) st (k_refs k) (k_closing k) (k_freed k) (k_sync k) (k_pending k)
    (k_packets k) (k_input k).
Definition k_with_refs n k :=
  mk_core (k_fd k) (k_state k) n (k_closing k) (k_freed k) (k_sync k) (k_pending k)
    (k_packets k) (k_input k).
Definition k_with_closing c k :=
  mk_core (k_fd k) (k_state k) (k_refs k) c (k_freed k) (k_sync k) (k_pending k)
    (k_packets k) (k_input k).
Definition k_with_freed b k :=
  mk_core (k_fd k) (k_state k) (k_refs k) (k_closing k) b (k_sync k) (k_pending k)
    (k_packets k) (k_input k).
Definition k_with_pending l k :=
  mk_core (k_fd k) (k_state k) (k_refs k) (k_closing k) (k_freed k) (k_sync k) l
    (k_packets k) (k_input k).
Definition k_with_packets l k :=
  mk_core (k_fd k) (k_state k) (k_refs k) (k_closing k) (k_freed k) (k_sync k) (k_pending k)
    l (k_input k).
Definition k_with_input i k :=
  mk_core (k_fd k) (k_state k) (k_refs k) (k_closing k) (k_freed k) (k_sync k) (k_pending k)
    (k_packets k) i.

(** One step through the code: a computation that is quiet, or a branch. *)
Ltac t_step :=
  match goal with
  | |- triple (eq _) (mret _) _ => apply t_ret
  | |- triple (eq _) (raise _) _ => apply t_raise; done
  | |- triple (eq _) (match ?x with _ => _ end) _ => destruct x eqn:?
  | |- triple (eq _) (_ ≫= _) _ => apply t_quiet_bind; [by quiet|intros ?]
  end.
Ltac t_steps := repeat t_step.
