(* ===== verification/Invariant.v ===== *)
(** * The states of a session

    What every function of the session engine does to the [core] of a handle: the graph
    of the states of a session, and what holds between two calls of the library. *)

From Stdlib Require Import Floats.SpecFloat.
From S2P Require Import Prelude RecordIO Jute Path Watchers Addrvec Hosts Handshake Transport.
From S2P Require Import Handle Session Requests Interest Init Triples.
Local Open Scope Z_scope.

(** ** The graph *)
Definition NOTCONNECTED : Z := 999.
(** A connection is being made or used; there is none; the session is over. *)
Definition live_state (st : Z) : Prop := st = 1 ∨ st = 2 ∨ st = 3 ∨ st = 5.
Definition down_state (st : Z) : Prop := st = 0 ∨ st = NOTCONNECTED.
Definition ended_state (st : Z) : Prop := st = -112 ∨ st = -113.

Inductive edge : Z → Z → Prop :=
  | edge_open st : down_state st → edge st ZOO_CONNECTING_STATE
  | edge_prime st : down_state st ∨ st = ZOO_CONNECTING_STATE → edge st ZOO_ASSOCIATING_STATE
  | edge_join st st' : st = ZOO_CONNECTING_STATE ∨ st = ZOO_ASSOCIATING_STATE →
      st' = ZOO_CONNECTED_STATE ∨ st' = ZOO_READONLY_STATE → edge st st'
  | edge_loss st : live_state st ∨ down_state st → edge st 0
  | edge_reconfig st : live_state st → edge st NOTCONNECTED
  | edge_expired st : st = ZOO_CONNECTING_STATE ∨ st = ZOO_ASSOCIATING_STATE →
      edge st ZOO_EXPIRED_SESSION_STATE
  | edge_auth st : live_state st → st ≠ ZOO_ASSOCIATING_STATE → edge st ZOO_AUTH_FAILED_STATE.

(** Arithmetic with the states. *)
Ltac states := unfold live_state, down_state, ended_state, NOTCONNECTED in *; lia.

Lemma ended_no_edge st st' : ended_state st → ¬ edge st st'.
Proof. intros Hst. inversion 1; states. Qed.
Lemma ended_final st st' : ended_state st → rtc edge st st' → st' = st.
Proof. intros Hst Hr. destruct Hr as [|? ? ? Hst' _]; [done|]. by apply ended_no_edge in Hst'. Qed.

(** ** What a handle looks like at any time during a call *)
Record sound (k : core) : Prop := {
  sd_phase : (0 ≤ k_fd k ∧ live_state (k_state k)) ∨
             (k_fd k = -1 ∧ (down_state (k_state k) ∨ ended_state (k_state k)));
  sd_primer : k_state k = ZOO_ASSOCIATING_STATE → k_input k = PrimerInput;
  sd_joined : k_state k = ZOO_CONNECTED_STATE ∨ k_state k = ZOO_READONLY_STATE →
              k_input k ≠ PrimerInput;
}.
(** The call goes on: the same handle in use, a state that can be reached. *)
Record moved (k k' : core) : Prop := {
  mv_refs : k_refs k' = k_refs k;
  mv_closing : k_closing k' = k_closing k;
  mv_freed : k_freed k' = k_freed k;
  mv_sync : k_sync k' = k_sync k;
  mv_edges : rtc edge (k_state k) (k_state k');
}.
Lemma moved_refl k : moved k k.
Proof. split; done. Qed.
Lemma moved_trans k k' k'' : moved k k' → moved k' k'' → moved k k''.
Proof. intros [] []. split; [congruence..|by etrans]. Qed.

(** What is left of a handle that has lost its connection. *)
Definition kept_input (i : input_ptr) : input_ptr :=
  match i with InputBuffer _ => NoInput | i => i end.
Definition lost_state (st : Z) : Z := if st <? 0 then st else 0.
Definition lost (k : core) : core :=
  mk_core (-1) (lost_state (k_state k)) (k_refs k) (k_closing k) (k_freed k) (k_sync k) [] []
    (kept_input (k_input k)).

Lemma lost_sound k :
  live_state (k_state k) ∨ down_state (k_state k) ∨ ended_state (k_state k) → sound (lost k).
Proof.
  intros Hst. unfold lost, lost_state. split; cbn [k_fd k_state k_input];
    (destruct (Z.ltb_spec (k_state k) 0); states).
Qed.
Lemma lost_moved k :
  live_state (k_state k) ∨ down_state (k_state k) ∨ ended_state (k_state k) → moved k (lost k).
Proof.
  intros Hst. split; try done. unfold lost, lost_state. cbn [k_state].
  destruct (Z.ltb_spec (k_state k) 0); [done|]. apply rtc_once, edge_loss.
  states.
Qed.

Section triples.
Context `{Host, Locals}.
Implicit Types k : core.

(** ** Completions *)
Lemma k_with_pending_same k : k_with_pending (k_pending k) k = k.
Proof. by destruct k. Qed.
Lemma t_completions_loop queue : ∀ k, triple (eq k) (completions_loop queue) (λ _ k',
  k' = match queue with [] => k | _ => k_with_pending [] k end).
Proof.
  induction queue as [|c queue IH]; intros k; simpl; [by apply t_ret|].
  apply (t_modify_bind (k_with_pending queue)); [done|].
  apply t_quiet_bind; [by quiet|]. intros _. eapply t_post; [apply IH|].
  intros _ k' ->. by destruct queue.
Qed.
Lemma t_process_completions k :
  triple (eq k) process_completions (λ _, eq (k_with_pending [] k)).
Proof.
  unfold process_completions. apply (t_get_bind k_pending); [done|].
  eapply t_post; [apply t_completions_loop|]. intros _ k' ->.
  destruct (k_pending k) eqn:E; [|done]. by rewrite <-E, k_with_pending_same.
Qed.
Lemma t_process_completions_if_async k : k_sync k = 0 →
  triple (eq k) process_completions_if_async (λ _, eq (k_with_pending [] k)).
Proof.
  intros Hs. unfold process_completions_if_async. apply (t_get_bind k_sync); [done|].
  rewrite Hs. apply t_process_completions.
Qed.
Lemma t_queue_completion c k :
  triple (eq k) (queue_completion c) (λ _, eq (k_with_pending (k_pending k ++ [c]) k)).
Proof. apply (t_modify (λ k, k_with_pending (k_pending k ++ [c]) k)). done. Qed.

Lemma t_queue_session_event state k : k_sync k = 0 →
  triple (eq k) (queue_session_event state) (λ _ k',
    ∃ l, k' = k_with_pending l k ∧ (l = [] ∨ l = k_pending k)).
Proof.
  intros Hs. unfold queue_session_event.
  repeat (apply t_quiet_bind; [by quiet|intros ?]; t_steps);
    try (exists (k_pending k); rewrite k_with_pending_same; by auto).
  eapply t_bind; [apply t_queue_completion|]. intros [] ? <-.
  eapply t_bind; [by apply t_process_completions_if_async|]. intros [] ? <-.
  apply t_ret. by exists []; auto.
Qed.

(** ** Losing the connection *)
Lemma t_fake_responses l call rc : ∀ k, triple (eq k) (fake_responses l call rc) (λ _ k',
  ∃ l', k' = k_with_pending l' k).
Proof.
  induction l as [|c l IH]; intros k; simpl;
    [apply t_ret; exists (k_pending k); by rewrite k_with_pending_same|].
  eapply t_bind with (Q := λ _ k', ∃ l', k' = k_with_pending l' k).
  - destruct (c_result c =? SYNCHRONOUS_MARKER); [single_threaded; t_steps|]. destruct call.
    + repeat (apply t_quiet_bind; [by quiet|intros ?]; t_steps).
      eapply t_post; [apply t_queue_completion|]. intros _ k' <-. by eexists.
    + apply t_ret. exists (k_pending k). by rewrite k_with_pending_same.
  - intros _ k' (l' & ->). eapply t_post; [apply IH|]. intros _ k' (l'' & ->). by exists l''.
Qed.
Lemma t_free_completions call rc k : triple (eq k) (free_completions call rc) (λ _ k',
  ∃ l, k' = k_with_pending l k).
Proof.
  unfold free_completions. t_steps. eapply t_bind; [apply t_fake_responses|].
  intros _ k' (l & ->). eapply t_post; [by apply t_quiet; quiet|]. intros _ k' <-. by exists l.
Qed.
Lemma t_cleanup_bufs call rc k : triple (eq k) (cleanup_bufs call rc) (λ _ k',
  ∃ l, k' = k_with_pending l (k_with_packets [] (k_with_input (kept_input (k_input k)) k))).
Proof.
  unfold cleanup_bufs. t_steps. apply (t_modify_bind (k_with_packets [])); [done|].
  eapply t_bind; [apply t_free_completions|]. intros _ k' (l & ->).
  apply (t_get_bind k_input); [done|]. destruct k as [fd st r cl fr sy pe pk inp].
  destruct inp; simpl; [apply t_ret; by exists l..|].
  eapply t_post; [by apply (t_modify (k_with_input NoInput))|]. intros _ k' <-. by exists l.
Qed.

Lemma t_cleanup rc k : k_sync k = 0 → triple (eq k) (cleanup rc) (λ _, eq (lost k)).
Proof.
  intros Hs. unfold cleanup.
  apply (t_get_bind (λ k, k_state k <? 0)); [done|].
  apply (t_get_bind (λ k, (k_state k =? ZOO_CONNECTED_STATE) || (k_state k =? ZOO_READONLY_STATE)));
    [done|].
  apply (t_get_bind k_state); [done|].
  eapply t_bind with (Q := λ _ k', ∃ l, k' = k_with_pending l k).
  { assert (∀ st, triple (eq k) (queue_session_event st;; mret ()) (λ _ k',
      ∃ l, k' = k_with_pending l k)) as Hq.
    { intros st. eapply t_bind; [by apply t_queue_session_event|].
      intros ? k' (l & -> & _). apply t_ret. by exists l. }
    destruct (k_state k <? 0); [apply Hq|]. destruct (_ || _); [apply Hq|].
    apply t_ret. exists (k_pending k). by rewrite k_with_pending_same. }
  intros _ k' (l & ->). eapply t_bind; [apply t_cleanup_bufs|]. intros _ k' (l' & ->).
  apply (t_modify_bind (k_with_fd (-1))); [done|].
  apply (t_get_bind (λ k, k_state k <? 0)); [done|]. cbn [k_state k_with_fd k_with_pending k_with_packets k_with_input].
  eapply t_bind with (Q := λ _ k', k_with_pending [] k' = lost k ∧ k_sync k' = k_sync k).
  { destruct (Z.ltb_spec (k_state k) 0) as [Hst|Hst].
    - apply t_ret. split; [|done]. unfold lost, lost_state. by rewrite (proj2 (Z.ltb_lt _ _)).
    - eapply t_post; [by apply (t_modify (k_with_state 0))|]. intros _ k' <-. split; [|done].
      unfold lost, lost_state. by rewrite (proj2 (Z.ltb_ge _ _)). }
  intros _ k' (<- & Hs'). apply t_process_completions_if_async. congruence.
Qed.
Lemma t_handle_error rc k : k_sync k = 0 → triple (eq k) (handle_error rc) (λ _, eq (lost k)).
Proof.
  intros Hs. unfold handle_error. eapply t_bind; [by apply t_cleanup|]. intros [] ? <-.
  t_steps. apply t_quiet. quiet.
Qed.
Lemma t_handle_socket_error_msg rc k : k_sync k = 0 →
  triple (eq k) (handle_socket_error_msg rc) (λ a k', a = rc ∧ k' = lost k).
Proof.
  intros Hs. unfold handle_socket_error_msg. eapply t_bind; [by apply t_handle_error|].
  intros [] ? <-. by apply t_ret.
Qed.

(** ** The handshake *)
Definition primed (k : core) : core := k_with_input PrimerInput (k_with_state ZOO_ASSOCIATING_STATE k).
Lemma t_prime_connection k : k_sync k = 0 →
  triple (eq k) prime_connection (λ a k',
    (a = ZCONNECTIONLOSS ∧ k' = lost k) ∨ (a = ZOK ∧ k' = primed k)).
Proof.
  intros Hs. unfold prime_connection. t_steps.
  - eapply t_post; [by apply t_handle_socket_error_msg|]. naive_solver.
  - apply (t_modify_bind (k_with_state ZOO_ASSOCIATING_STATE)); [done|].
    apply (t_modify_bind (k_with_input PrimerInput)); [done|]. t_steps. auto.
Qed.

Lemma t_finish_handshake k : k_sync k = 0 → k_pending k = [] →
  triple (eq k) finish_handshake (λ a k',
    (a = ZSESSIONEXPIRED ∧ k' = lost (k_with_state ZOO_EXPIRED_SESSION_STATE k)) ∨
    (a = ZOK ∧ ∃ st, (st = ZOO_CONNECTED_STATE ∨ st = ZOO_READONLY_STATE) ∧
       k' = k_with_input NoInput (k_with_state st k))).
Proof.
  intros Hs Hp. unfold finish_handshake. t_steps.
  - apply (t_modify_bind (k_with_state ZOO_EXPIRED_SESSION_STATE)); [done|].
    eapply t_post; [by apply t_handle_socket_error_msg|]. naive_solver.
  - set (st := if negb _ then ZOO_READONLY_STATE else ZOO_CONNECTED_STATE).
    apply (t_modify_bind (k_with_state st)); [done|]. t_steps.
    apply (t_modify_bind (k_with_input NoInput)); [done|]. t_steps.
    eapply t_bind; [by apply t_queue_session_event|]. intros ? k' (pe & -> & Hpe).
    assert (pe = []) as -> by (destruct Hpe as [|Hpe]; [done|exact (eq_trans Hpe Hp)]).
    apply (t_modify_bind (k_with_input NoInput)); [done|]. apply t_ret. right. split; [done|].
    exists st. split; [unfold st; destruct (negb (bool_decide _)); lia|].
    destruct k; simpl in *; by subst.
Qed.

(** ** Events of the socket *)

(** Nothing waits to be processed; the assertion before the events of the socket. *)
Record ready (k : core) : Prop := {
  rd_sync : k_sync k = 0;
  rd_pending : k_pending k = [];
  rd_packets : k_packets k = [];
  rd_sound : sound k;
}.
(** And the one after them: packets only if the call goes on. *)
Record received (k : core) (a : Z) (k' : core) : Prop := {
  rc_moved : moved k k';
  rc_sound : sound k';
  rc_pending : k_pending k' = [];
  rc_packets : k_packets k' = [] ∨ (a = ZOK ∧ 0 ≤ k_fd k' ∧ k_state k' ≠ ZOO_ASSOCIATING_STATE);
}.
Lemma received_lost k k' a : moved k k' → live_state (k_state k') → received k a (lost k').
Proof.
  intros Hm Hl. split; [by eapply moved_trans, lost_moved; auto|by apply lost_sound; auto|done|by left].
Qed.

Lemma t_recv_input k : triple (eq k) recv_input (λ _ k',
  (k_input k = PrimerInput ∧ k' = k) ∨
  ∃ b b', k_input k = InputBuffer b ∧ k' = k_with_input (InputBuffer b') k).
Proof.
  unfold recv_input. apply (t_get_bind k_input); [done|].
  eapply t_bind with (Q := λ pb k', k' = k ∧
    match k_input k with NoInput => False | PrimerInput => pb.1 = true | _ => pb.1 = false end).
  { destruct (k_input k) eqn:E; t_steps; done. }
  intros [primer b] k' [-> Hp]. t_steps. destruct primer.
  - t_steps. destruct (k_input k); naive_solver.
  - apply (t_modify_bind (k_with_input (InputBuffer b0))); [done|]. apply t_ret.
    destruct (k_input k); naive_solver.
Qed.

Lemma t_read_event k : ready k → 0 ≤ k_fd k → triple (eq k) read_event (received k).
Proof.
  intros [Hs Hp Hk Hsd] Hfd. unfold read_event.
  assert (live_state (k_state k)) as Hlive by (destruct (sd_phase _ Hsd); [tauto|lia]).
  apply (t_get_bind k_input); [done|].
  eapply t_bind with (Q := λ _ k', ∃ i, k' = k_with_input i k ∧ i ≠ NoInput ∧
    (i = PrimerInput ↔ k_input k = PrimerInput)).
  { destruct k as [fd st r cl fr sy pe pk inp]. destruct inp as [| |b]; cbn [k_input].
    - t_steps. eapply t_post; [by eapply (t_modify (k_with_input (InputBuffer _)))|].
      intros _ k' <-. by eexists.
    - apply t_ret. by exists PrimerInput.
    - apply t_ret. by exists (InputBuffer b). }
  intros _ k' (i & -> & Hi & Hpi). eapply t_bind; [apply t_recv_input|]. intros rc k' Hk'.
  assert (∃ i, k' = k_with_input i k ∧ i ≠ NoInput ∧ (i = PrimerInput ↔ k_input k = PrimerInput))
    as (i' & -> & Hi' & Hpi').
  { destruct Hk' as [[Hin ->]|(b & b' & Hin & ->)]; [by exists i|].
    cbn [k_input k_with_input] in Hin. exists (InputBuffer b'). split; [done|]. naive_solver. }
  clear Hk'. assert (moved k (k_with_input i' k)) as Hm by (split; done).
  destruct (rc <? 0).
  { eapply t_post; [by apply t_handle_socket_error_msg|]. intros ? ? [-> ->]. by apply received_lost. }
  destruct (0 <? rc).
  2: { apply t_ret. split; [done| |done|by left]. destruct Hsd as [Hph Hpr Hj]. split; [done| |].
       - intros E. by apply Hpi', Hpr.
       - intros E Hin. by apply (Hj E), Hpi'. }
  do 2 (apply t_quiet_bind; [by quiet|intros ?]).
  apply (t_get_bind k_input); [done|]. cbn [k_input k_with_input]. destruct i' as [| |b].
  - done.
  - eapply t_post; [by apply t_finish_handshake|].
    assert (k_state k = 1 ∨ k_state k = 2) as Hst.
    { destruct Hsd as [_ _ Hj]. assert (k_input k = PrimerInput) by tauto.
      assert (¬ (k_state k = 3 ∨ k_state k = 5)) by tauto. states. }
    intros ? k' [[-> ->]|(-> & st & Hst' & ->)].
    + split; [|by apply lost_sound; right; right; left|done|by left].
      split; try done. by apply rtc_once, edge_expired.
    + split; [|split|done|by left].
      * split; try done. by apply rtc_once, edge_join.
      * left. split; [done|]. cbn [k_state k_with_input k_with_state]. states.
      * cbn [k_state k_with_input k_with_state]. lia.
      * done.
  - apply (t_modify_bind (λ k, k_with_packets (k_packets k ++ [b]) k)); [done|].
    apply (t_modify_bind (k_with_input NoInput)); [done|]. apply t_ret.
    assert (k_state k ≠ 2) as Hst.
    { intros E. destruct Hsd as [_ Hpr _]. apply Hpr, Hpi' in E. done. }
    split; [split; done|split|done|right; done].
    + by left.
    + done.
    + done.
Qed.

Lemma t_check_events events k : ready k → triple (eq k) (check_events events) (received k).
Proof.
  intros Hr. pose proof Hr as [Hs Hp Hk Hsd]. unfold check_events.
  apply (t_get_bind k_fd); [done|]. destruct (Z.eqb_spec (k_fd k) (-1)) as [Hfd|Hfd].
  { apply t_ret. split; [apply moved_refl|done|done|by left]. }
  assert (0 ≤ k_fd k ∧ live_state (k_state k)) as [Hfd' Hlive] by (destruct (sd_phase _ Hsd); [done|lia]).
  apply (t_get_bind k_state); [done|]. destruct (_ && _) eqn:Hconn.
  { apply andb_prop in Hconn as [_ Hst%Z.eqb_eq]. t_steps.
    - eapply t_post; [by apply t_handle_socket_error_msg|]. intros ? ? [-> ->].
      by apply received_lost; [apply moved_refl|].
    - eapply t_post; [by apply t_prime_connection|]. intros ? ? [[-> ->]|[-> ->]];
        [by apply received_lost; [apply moved_refl|]|].
      split; [|split|done|by left]; [|left; split; [done|by right; left]|done|by intros [|]].
      split; try done. apply rtc_once, edge_prime. auto. }
  t_steps.
  - eapply t_post; [by apply t_handle_socket_error_msg|]. intros ? ? [-> ->].
    by apply received_lost; [apply moved_refl|].
  - by apply t_read_event.
  - split; [apply moved_refl|done|done|by left].
Qed.

(** ** Packets *)

(** The loop goes on with at most more completions to run, or the connection is lost. *)
Definition handled (k : core) (a : step) (k' : core) : Prop :=
  match a with
  | Continue => ∃ l, k' = k_with_pending l k
  | Leave _ => moved k k' ∧ ready k'
  end.
Lemma handled_same k : handled k Continue k.
Proof. exists (k_pending k). by rewrite k_with_pending_same. Qed.
Lemma handled_lost k rc : k_sync k = 0 → live_state (k_state k) → handled k (Leave rc) (lost k).
Proof. intros Hs Hl. split; [by apply lost_moved; auto|]. split; try done. by apply lost_sound; auto. Qed.

Lemma t_process_watcher_event b ia k : triple (eq k) (process_watcher_event b ia) (handled k).
Proof.
  unfold process_watcher_event. t_steps.
  eapply t_bind; [apply t_queue_completion|]. intros [] ? <-. apply t_ret. by eexists.
Qed.
Lemma t_process_auth err k : k_sync k = 0 → live_state (k_state k) → k_state k ≠ 2 →
  triple (eq k) (process_auth err) (handled k).
Proof.
  intros Hs Hl H2. unfold process_auth.
  set (k1 := if err =? 0 then k else k_with_state ZOO_AUTH_FAILED_STATE k).
  eapply t_bind with (Q := λ _, eq k1).
  { unfold auth_completion_func, k1. destruct (err =? 0); cbn [negb]; t_steps; [by apply t_quiet; quiet|].
    apply (t_modify_bind (k_with_state ZOO_AUTH_FAILED_STATE)); [done|]. apply t_quiet. quiet. }
  intros _ ? <-. apply (t_get_bind (λ k, k_state k <? 0)); [done|]. unfold k1. destruct (err =? 0).
  - rewrite (proj2 (Z.ltb_ge _ _)) by states. apply t_ret, handled_same.
  - cbn. eapply t_bind; [by apply t_handle_error|]. intros [] ? <-. apply t_ret.
    split; [split; try done|split; try done; by apply lost_sound; right; right; right].
    by apply rtc_once, edge_auth.
Qed.
Lemma t_process_response hdr b ia k : k_sync k = 0 → live_state (k_state k) → k_closing k = 0 →
  triple (eq k) (process_response hdr b ia) (handled k).
Proof.
  intros Hs Hl Hc. unfold process_response. apply t_quiet_bind; [by quiet|intros ?].
  apply (t_get_bind k_closing); [done|].
  rewrite Hc. cbn [Z.eqb]. t_steps.
  - eapply t_bind; [by apply t_handle_socket_error_msg|]. intros ? ? [-> ->]. apply t_ret.
    by apply handled_lost.
  - eapply t_bind; [apply t_queue_completion|]. intros [] ? <-. apply t_ret. by eexists.
  - single_threaded. t_steps. apply handled_same.
Qed.
Lemma t_process_packet b k : k_sync k = 0 → live_state (k_state k) → k_state k ≠ 2 →
  k_closing k = 0 → triple (eq k) (process_packet b) (handled k).
Proof.
  intros Hs Hl H2 Hc. unfold process_packet. t_steps;
    [apply handled_same|apply t_process_watcher_event|apply handled_same|by apply t_process_auth|
     by apply t_process_response].
Qed.
Lemma t_packets_loop queue : ∀ k, k_packets k = queue → k_sync k = 0 → live_state (k_state k) →
  k_state k ≠ 2 → k_closing k = 0 →
  triple (eq k) (packets_loop queue) (handled (k_with_packets [] k)).
Proof.
  induction queue as [|b queue IH]; intros k Hq Hs Hl H2 Hc; simpl.
  { apply t_ret. exists (k_pending k). destruct k; simpl in *; by subst. }
  apply (t_modify_bind (k_with_packets queue)); [done|].
  eapply t_bind; [by apply t_process_packet|]. intros [|rc] k' Hk'.
  2: { apply t_ret. destruct Hk' as [[] Hr]. split; [by split|done]. }
  destruct Hk' as (l & ->). eapply t_post; [by apply IH|].
  intros [|rc] k' Hk'; [by destruct Hk' as (l' & ->); exists l'|].
  destruct Hk' as [[] Hr]. split; [by split|done].
Qed.

(** ** Calls of the library *)

(** Between two calls a call can be made: the handle is not in use nor being closed. *)
Record resting (k : core) : Prop := {
  rs_ready : ready k;
  rs_refs : k_refs k = 0;
  rs_closing : k_closing k = 0;
  rs_freed : k_freed k = false;
}.
(** In a call: the counter is one higher. *)
Definition used (k : core) : core := k_with_refs (k_refs k + 1) k.
Definition unused (k : core) : core := k_with_refs (k_refs k - 1) k.
(** The call returns. *)
Definition rests (k : core) (k' : core) : Prop := resting k' ∧ rtc edge (k_state k) (k_state k').

Lemma used_ready k : ready k → ready (used k).
Proof. intros [Hs Hp Hk []]. split; try done. Qed.
Lemma rests_unused k k' : resting k → moved (used k) k' → ready k' → rests k (unused k').
Proof.
  intros [Hr Hn Hc Hf] [Mr Mc Mf Ms Me] [Rs Rp Rk [S1 S2 S3]]. cbn in *. split; [|done].
  split; cbn; [by split| |congruence|congruence]. rewrite Mr. lia.
Qed.

Lemma t_api_prolog k : triple (eq k) api_prolog (λ _, eq (used k)).
Proof.
  unfold api_prolog, inc_ref_counter. eapply t_bind with (Q := λ _, eq (used k));
    [|by intros ? ? <-; apply t_ret].
  apply (t_modify_bind used); [done|]. apply t_quiet. quiet.
Qed.
Lemma t_api_epilog rc k : k_closing k = 0 →
  triple (eq k) (api_epilog rc) (λ a k', a = rc ∧ k' = unused k).
Proof.
  intros Hc. unfold api_epilog, inc_ref_counter. eapply t_bind with (Q := λ _, eq (unused k)).
  { apply (t_modify_bind unused); [done|]. apply t_quiet. quiet. }
  intros n ? <-. apply (t_get_bind k_closing); [done|].
  change (k_closing (unused k)) with (k_closing k). rewrite Hc, andb_false_r. by t_steps.
Qed.

Lemma t_zookeeper_process events k :
  resting k → triple (eq k) (zookeeper_process events) (λ _, rests k).
Proof.
  intros Hr. pose proof Hr as [Hrd _ Hc _]. unfold zookeeper_process.
  assert (∀ rc k', moved (used k) k' → ready k' → triple (eq k') (api_epilog rc) (λ _, rests k))
    as Hend.
  { intros rc k' Hm Hr'. eapply t_post; [apply t_api_epilog; by rewrite (mv_closing _ _ Hm)|].
    intros ? ? [-> ->]. by apply rests_unused. }
  apply t_quiet_bind; [by quiet|]. intros [].
  { apply t_ret. by split. }
  eapply t_bind; [apply t_api_prolog|]. intros [] ? <-.
  eapply t_bind; [by apply t_check_events, used_ready|]. intros rc k1 [Hm Hsd Hp Hk].
  assert (k_sync k1 = 0) as Hs1 by (rewrite (mv_sync _ _ Hm); apply Hrd).
  assert (k_closing k1 = 0) as Hc1 by by rewrite (mv_closing _ _ Hm).
  destruct (Z.eqb_spec rc ZOK) as [->|Hrc]; cbn [negb].
  2: { apply Hend; [done|]. split; try done. destruct Hk as [|[? _]]; done. }
  apply (t_get_bind k_packets); [done|].
  assert (triple (eq k1) (packets_loop (k_packets k1)) (handled (k_with_packets [] k1))) as Hloop.
  { destruct Hk as [Hk|(_ & Hfd & H2)].
    - rewrite Hk. apply t_ret. exists []. destruct k1; simpl in *; by subst.
    - apply t_packets_loop; try done. destruct (sd_phase _ Hsd); [tauto|lia]. }
  eapply t_bind; [exact Hloop|]. intros [|rc] k2 Hk2.
  - destruct Hk2 as (l & ->). eapply t_bind; [by apply t_process_completions_if_async|].
    intros [] ? <-. destruct Hsd, Hm. by apply Hend; split.
  - destruct Hk2 as [Hm2 Hr2]. apply Hend; [|done]. eapply moved_trans; [exact Hm|]. by destruct Hm2.
Qed.

(** ** Closing *)
Record closed (k : core) : Prop := {
  cl_fd : k_fd k = -1;
  cl_freed : k_freed k = true;
  cl_pending : k_pending k = [];
  cl_packets : k_packets k = [];
}.
Lemma t_destroy k : k_sync k = 0 → triple (eq k) destroy (λ _, closed).
Proof.
  intros Hs. unfold destroy. eapply t_bind; [apply t_cleanup_bufs|]. intros _ k' (l & ->).
  eapply t_bind; [by apply t_process_completions_if_async|]. intros [] ? <-.
  apply (t_get_bind k_fd); [done|].
  eapply t_bind with (Q := λ _ k, k_fd k = -1 ∧ k_pending k = [] ∧ k_packets k = []).
  { match goal with |- context [if ?b then _ else _] => destruct b eqn:Hfd end.
    - apply (t_modify_bind (k_with_fd (-1))); [done|]. t_steps.
      eapply t_post; [by apply (t_modify (k_with_state 0))|]. by intros _ k' <-.
    - apply negb_false_iff, Z.eqb_eq in Hfd. by apply t_ret. }
  intros _ k' (Hfd & Hp & Hk). t_steps.
  eapply t_post; [by apply (t_modify (k_with_freed true))|]. intros _ k2 <-. by split.
Qed.
Lemma t_zookeeper_close k : resting k → triple (eq k) zookeeper_close (λ _, closed).
Proof.
  intros [[Hs _ _ _] Hr _ _]. unfold zookeeper_close.
  apply (t_modify_bind (k_with_closing 1)); [done|].
  eapply t_bind with (Q := λ n k', n = 1 ∧ k_sync k' = 0).
  { unfold inc_ref_counter. apply (t_modify_bind used); [done|].
    eapply t_post; [|intros n k' Hn; exact Hn]. intros s a s' E1 E2. injection E2 as <- <-.
    assert (zh_ref_counter (s_zh s) = k_refs (core_of (s_zh s))) as -> by done.
    rewrite <-E1. cbn. by rewrite Hr. }
  intros n k' [-> Hs']. cbn. unfold close_session.
  eapply t_quiet_bind; [by quiet|]. intros c. eapply t_quiet_bind; [by quiet|]. intros rc.
  eapply t_bind; [by apply t_destroy|]. intros [] k2 Hk2. by apply t_ret.
Qed.
End triples.
