(* ===== verification/StateTheorems.v ===== *)
(** * Theorems about the states of a session

    The calls of the library as steps of a transition system, in any order, with any
    allocator and any behaviour of the network.  What holds between two calls, and how
    the state of the session can change. *)

From Stdlib Require Import Floats.SpecFloat.
From S2P Require Import Prelude RecordIO Jute Path Watchers WatchersTheorems Addrvec Hosts Handshake Transport.
From S2P Require Import Handle Session Requests SessionFacts SessionTheorems EstablishTheorems Interest.
From S2P Require Import HostsTheorems InterestTheorems Init Triples Invariant.
Local Open Scope Z_scope.

(** ** The logic for [zookeeper_interest] *)
Abbreviation ihandle s := (s_zh (i_sys s)).
Definition itriple {A} (P : core → Prop) (m : MI A) (Q : A → core → Prop) : Prop :=
  ∀ s a s', P (core_of (ihandle s)) → m s = Ret (a, s') → Q a (core_of (ihandle s')).
Definition iquiet {A} (m : MI A) : Prop :=
  ∀ s a s', m s = Ret (a, s') → core_of (ihandle s') = core_of (ihandle s).

Section irules.
Context {A B : Type}.
Implicit Types (P : core → Prop) (k : core) (m : MI A) (f : A → MI B).

Lemma it_ret k a (Q : A → core → Prop) : Q a k → itriple (eq k) (mret a) Q.
Proof. intros HQ s b s' -> E. by injection E as <- <-. Qed.
Lemma it_post k m (Q Q' : A → core → Prop) :
  itriple (eq k) m Q' → (∀ a k', Q' a k' → Q a k') → itriple (eq k) m Q.
Proof. intros Hm HQ s a s' Hk E. by eapply HQ, Hm. Qed.
Lemma it_bind P m f Q R :
  itriple P m Q → (∀ a k, Q a k → itriple (eq k) (f a) R) → itriple P (m ≫= f) R.
Proof.
  intros Hm Hf s b s' HP E. apply bind_Ret_inv in E as ((a & s1) & E1 & E2).
  by apply (Hf a _ (Hm _ _ _ HP E1) s1).
Qed.
Lemma it_sess P (m : M A) Q : triple P m Q → itriple P (sess m) Q.
Proof.
  intros Hm s a s' HP E. unfold sess in E. apply bind_Ret_inv in E as ([b s1] & E1 & E2).
  injection E2 as <- <-. by apply (Hm (i_sys s)).
Qed.
Lemma it_quiet_bind k m f R :
  iquiet m → (∀ a, itriple (eq k) (f a) R) → itriple (eq k) (m ≫= f) R.
Proof.
  intros Hm Hf. eapply it_bind with (Q := λ _, eq k); [|by intros ? ? <-].
  intros s a s' -> E. by rewrite (Hm _ _ _ E).
Qed.
Lemma it_get_bind (g : core → A) k (h : zhandle → A) f R :
  (∀ zh, h zh = g (core_of zh)) → itriple (eq k) (f (g k)) R →
  itriple (eq k) (sess (get h) ≫= f) R.
Proof. intros Hh Hf s b s' -> E. apply (Hf s b s'); [done|]. rewrite <-Hh. by destruct s. Qed.

Lemma iq_ret a : iquiet (mret a : MI A).
Proof. intros s b s' E. by injection E as <- <-. Qed.
Lemma iq_bind m f : iquiet m → (∀ a, iquiet (f a)) → iquiet (m ≫= f).
Proof.
  intros Hm Hf s b s' E. apply bind_Ret_inv in E as ((a & s1) & E1 & E2).
  rewrite (Hf _ _ _ _ E2). by apply (Hm _ a).
Qed.
Lemma iq_sess (m : M A) : quiet m → iquiet (sess m).
Proof.
  intros Hm s a s' E. unfold sess in E. apply bind_Ret_inv in E as ([b s1] & E1 & E2).
  injection E2 as <- <-. by apply (Hm _ b).
Qed.
Lemma iq_getn (h : net → A) : iquiet (getn h).
Proof. intros s b s' E. by injection E as <- <-. Qed.
Lemma iq_failing (m : outcome A) : iquiet (failing m).
Proof. intros s a s' E. unfold failing in E. apply bind_Ret_inv in E as (b & _ & E2). by injection E2 as <- <-. Qed.
End irules.
Lemma iq_modifyn h : iquiet (modifyn h).
Proof. intros s b s' E. by injection E as <- <-. Qed.
Lemma iq_drand48 : iquiet drand48.
Proof. intros s b s' E. by injection E as <- <-. Qed.
Lemma iq_next_dial : iquiet next_dial.
Proof. intros s b s' E. by injection E as <- <-. Qed.
Lemma iq_next_probe : iquiet next_probe.
Proof. intros s b s' E. by injection E as <- <-. Qed.
Lemma iq_connect a c : iquiet (zookeeper_connect a c).
Proof. intros s b s' E. by injection E as <- <-. Qed.
Lemma iq_checked w z : iquiet (checked w z).
Proof. unfold checked. case_decide; [apply iq_ret|apply iq_failing]. Qed.
#[export] Hint Resolve iq_ret iq_getn iq_failing iq_modifyn iq_drand48 iq_next_dial iq_next_probe
  iq_connect iq_checked : quiet.

Ltac iquiet_step :=
  match goal with
  | |- iquiet (_ ≫= _) => apply iq_bind; [|intros ?]
  | |- iquiet (sess _) => apply iq_sess; by quiet
  | |- iquiet (match ?x with _ => _ end) => destruct x
  | |- _ => solve [eauto 2 with quiet nocore]
  end.
Ltac iquiet := repeat iquiet_step.
Ltac it_step :=
  match goal with
  | |- itriple (eq _) (mret _) _ => apply it_ret
  | |- itriple (eq _) (match ?x with _ => _ end) _ => destruct x eqn:?
  | |- itriple (eq _) (_ ≫= _) _ => apply it_quiet_bind; [by iquiet|intros ?]
  end.
Ltac it_steps := repeat it_step.

(** ** Servers *)
Definition regrouped (sv sv' : servers) : Prop :=
  (sv_fd sv' = sv_fd sv ∧ sv_state sv' = sv_state sv) ∨
  (sv_fd sv ≠ -1 ∧ sv_fd sv' = -1 ∧ sv_state sv' = NOTCONNECTED).

Lemma decide_move_frame sv found n_old n_new drand :
  sv_fd (decide_move sv found n_old n_new drand) = sv_fd sv ∧
  sv_state (decide_move sv found n_old n_new drand) = sv_state sv.
Proof. unfold decide_move. by repeat case_match. Qed.
Lemma update_addrs_regroups sv resolve drand o rc sv' o' :
  update_addrs (Some sv) resolve drand o = Ret (rc, sv', o') →
  regrouped sv (default sv sv').
Proof.
  intros E. assert (∀ sv1 : servers, sv_fd sv1 = sv_fd sv → sv_state sv1 = sv_state sv →
    regrouped sv sv1) as Hsame by by left.
  unfold update_addrs in E. destruct (sv_hostname sv); [|injection E as <- <- <-; by apply Hsame].
  destruct (alloc o) as [ok o1]. destruct ok; cbn [negb] in E; [|injection E as <- <- <-; by apply Hsame].
  apply bind_Ret_inv in E as ([[rc1 res] o2] & _ & E).
  destruct (rc1 =? 0); cbn [negb] in E; [|injection E as <- <- <-; by apply Hsame].
  apply bind_Ret_inv in E as ([] & _ & E); [injection E as <- <- <-; by apply Hsame|].
  apply bind_Ret_inv in E as (found & _ & E).
  apply bind_Ret_inv in E as ([[[rc2 old] new] o3] & _ & E).
  destruct (rc2 =? 0); cbn [negb] in E; [|injection E as <- <- <-; by apply Hsame].
  injection E as <- <- <-. cbn [default from_option].
  pose proof (decide_move_frame (with_lists old new (with_reconfig 1 sv)) found (av_count old)
    (av_count new) drand) as [Hfd Hst].
  set (mv := decide_move _ _ _ _ _) in *. clearbody mv.
  destruct (_ && _) eqn:Hd; [|by apply Hsame].
  apply andb_prop in Hd as [_ Hd%negb_true_iff%Z.eqb_neq]. right. cbn in Hd. rewrite Hfd in Hd. done.
Qed.
Lemma set_servers_regroups sv hosts resolve drand o rc sv' o' :
  zoo_set_servers sv hosts resolve drand o = Ret (rc, sv', o') → regrouped sv (default sv sv').
Proof.
  unfold zoo_set_servers. destruct hosts as [hosts|]; [|intros E; injection E as <- <- <-; by left].
  destruct (alloc o) as [ok o1]. intros E.
  destruct sv' as [sv'|]; [|by left]. apply update_addrs_regroups in E as [E|E]; [by left|by right].
Qed.
Lemma cycle_next_server_frame sv drand sv' :
  zoo_cycle_next_server sv drand = Ret sv' → sv_fd sv' = sv_fd sv ∧ sv_state sv' = sv_state sv.
Proof.
  unfold zoo_cycle_next_server. intros E. apply bind_Ret_inv in E as ([found sv1] & E1 & E).
  assert (sv_fd sv1 = sv_fd sv ∧ sv_state sv1 = sv_state sv) as [H1 H2].
  { destruct (negb _); [|by injection E1 as <- <-].
    apply bind_Ret_inv in E1 as ([rc sv2] & E2 & E1).
    assert (sv_fd sv2 = sv_fd sv ∧ sv_state sv2 = sv_state sv).
    { unfold get_next_server_in_reconfig in E2. destruct (_ && _).
      - apply bind_Ret_inv in E2 as ([a new] & _ & E2). by injection E2 as <- <-.
      - destruct (addrvec_hasnext _); [|by injection E2 as <- <-].
        apply bind_Ret_inv in E2 as ([a new] & _ & E2). by injection E2 as <- <-. }
    destruct (rc =? 0); by injection E1 as <- <-. }
  destruct found; [by injection E as <-|].
  apply bind_Ret_inv in E as ([a addrs] & _ & E). by injection E as <-.
Qed.

(** The handle after a change of its servers. *)
Definition regroups (k k' : core) : Prop :=
  k' = k ∨ (k_fd k ≠ -1 ∧ k' = k_with_fd (-1) (k_with_state NOTCONNECTED k)).
Lemma core_of_servers zh sv :
  core_of (set_zh_servers sv zh) = k_with_fd (sv_fd sv) (k_with_state (sv_state sv) (core_of zh)).
Proof. done. Qed.
Lemma regrouped_core zh sv : regrouped (zh_servers zh) sv → regroups (core_of zh) (core_of (set_zh_servers sv zh)).
Proof.
  rewrite core_of_servers. intros [[-> ->]|(Hfd & -> & ->)]; [by left|by right].
Qed.
Lemma regroups_ready k k' : ready k → regroups k k' → moved k k' ∧ ready k'.
Proof.
  intros Hr [->|(Hfd & ->)]; [split; [apply moved_refl|done]|]. destruct Hr as [Hs Hp Hk [Hph _ _]].
  split; [split|split]; try done.
  - apply rtc_once, edge_reconfig. destruct Hph as [[_ Hl]|[? _]]; [done|lia].
  - split; try done; cbn; unfold NOTCONNECTED; [|lia..]. right. split; [done|]. left. by right.
Qed.

Section interest.
Context `{Host, Locals}.
Implicit Types k : core.

Lemma it_mupdate_addrs k : itriple (eq k) mupdate_addrs (λ _, regroups k).
Proof.
  intros s a s' -> E. unfold mupdate_addrs in E. apply bind_Ret_inv in E as ([d s1] & _ & E).
  apply bind_Ret_inv in E as ([[rc sv] o] & E1 & E). injection E as <- <-.
  by apply regrouped_core, (update_addrs_regroups _ _ _ _ _ _ _ E1).
Qed.
Lemma it_set_servers hosts k : itriple (eq k) (set_servers hosts) (λ _, regroups k).
Proof.
  intros s a s' -> E. unfold set_servers in E. apply bind_Ret_inv in E as ([d s1] & _ & E).
  apply bind_Ret_inv in E as ([[rc sv] o] & E1 & E). injection E as <- <-.
  by apply regrouped_core, (set_servers_regroups _ _ _ _ _ _ _ _ E1).
Qed.
Lemma iq_mcycle_next_server : iquiet mcycle_next_server.
Proof.
  intros s a s' E. unfold mcycle_next_server in E.
  apply bind_Ret_inv in E as ([d s1] & E1 & E). injection E1 as <- <-.
  apply bind_Ret_inv in E as ([sv s2] & E1 & E). injection E1 as <- <-.
  apply bind_Ret_inv in E as ([sv' s3] & E1 & E). unfold failing in E1.
  apply bind_Ret_inv in E1 as (sv2 & E2 & E1). injection E1 as <- <-.
  unfold sess in E. apply bind_Ret_inv in E as ([u s4] & E1 & E). injection E as <- <-.
  injection E1 as <- <-. apply cycle_next_server_frame in E2 as [E3 E4].
  cbn [i_sys s_zh]. rewrite core_of_servers, E3, E4. done.
Qed.
Hint Resolve iq_mcycle_next_server : quiet.

Definition progress (k k' : core) : Prop := moved k k' ∧ ready k'.
Lemma progress_refl k : ready k → progress k k.
Proof. split; [apply moved_refl|done]. Qed.
Lemma progress_trans k k' k'' : progress k k' → progress k' k'' → progress k k''.
Proof. intros [] []. split; [by eapply moved_trans|done]. Qed.
Lemma progress_lost k fd : ready k → live_state (k_state k) ∨ down_state (k_state k) →
  progress k (lost (k_with_fd fd k)).
Proof.
  intros [Hs Hp Hk Hsd] Hst. assert (lost (k_with_fd fd k) = lost k) as -> by done.
  split; [by apply lost_moved; tauto|]. split; try done. apply lost_sound; tauto.
Qed.

Lemma it_connect_phase k : ready k → k_fd k = -1 → down_state (k_state k) →
  itriple (eq k) connect_phase (λ _, progress k).
Proof.
  intros Hr Hfd Hst. unfold connect_phase.
  do 3 (apply it_quiet_bind; [by iquiet|intros ?]). destruct (_ || _).
  { it_steps. by apply progress_refl. }
  do 3 (apply it_quiet_bind; [by iquiet|intros ?]). destruct a4 as [|fd c].
  { eapply it_bind; [apply it_sess, (t_modify (k_with_fd (-1))); done|]. intros _ ? <-.
    eapply it_bind; [apply it_sess, t_handle_socket_error_msg, Hr|]. intros ? ? [-> ->].
    apply it_ret, progress_lost; auto. }
  eapply it_bind; [apply it_sess, (t_modify (k_with_fd (Z.of_nat fd))); done|]. intros _ ? <-.
  pose proof Hr as [Hs Hp Hk [Hph H2 Hj]].
  assert (∀ rc, itriple (eq (k_with_fd (Z.of_nat fd) k))
    (rc ← sess (handle_socket_error_msg rc); mret (inl rc : Z + timeval)) (λ _, progress k)) as Hlost.
  { intros rc. eapply it_bind; [by apply it_sess, t_handle_socket_error_msg|]. intros ? ? [-> ->].
    apply it_ret, progress_lost; auto. }
  do 2 (apply it_quiet_bind; [by iquiet|intros ?]). destruct (_ =? -1).
  - destruct c; [apply Hlost| |apply Hlost].
    eapply it_bind; [apply it_sess, (t_modify (k_with_state ZOO_CONNECTING_STATE)); done|].
    intros _ ? <-. apply it_ret. split; [split; try done|split; try done; split].
    + by apply rtc_once, edge_open.
    + left. split; [by apply Nat2Z.is_nonneg|by left].
    + done.
    + by intros [|].
  - eapply it_bind; [by apply it_sess, t_prime_connection|].
    intros rc k' Hk'. assert (progress k k') as Hprog.
    { destruct Hk' as [[_ ->]|[_ ->]]; [apply progress_lost; auto|].
      split; [split; try done|split; try done; split].
      - by apply rtc_once, edge_prime; left.
      - left. split; [by apply Nat2Z.is_nonneg|by right; left].
      - done.
      - by intros [|]. }
    clear Hk'. by it_steps.
Qed.

Lemma iq_ping_phase recv_timeout idle : iquiet (ping_phase recv_timeout idle).
Proof. unfold ping_phase. iquiet. Qed.
Lemma iq_ping_rw_server : iquiet ping_rw_server.
Proof. unfold ping_rw_server. iquiet. Qed.
Lemma iq_add_timeval now tv : iquiet (add_timeval now tv).
Proof. unfold add_timeval. iquiet. Qed.
Hint Resolve iq_ping_phase iq_ping_rw_server iq_add_timeval : quiet.

Lemma it_rw_phase now send_to k : ready k →
  itriple (eq k) (rw_phase now send_to) (λ _, progress k).
Proof.
  intros Hr. unfold rw_phase. apply (it_get_bind k_state); [done|].
  destruct (Z.eqb_spec (k_state k) ZOO_READONLY_STATE) as [Hst|Hst]; cbn [negb];
    [|by apply it_ret, progress_refl].
  do 2 (apply it_quiet_bind; [by iquiet|intros ?]).
  eapply it_bind with (Q := λ _, progress k).
  - destruct (_ <=? _); [|by apply it_ret, progress_refl].
    do 5 (apply it_quiet_bind; [by iquiet|intros ?]).
    eapply it_bind with (Q := λ _, progress k); [|by intros _ k' Hk'; apply it_ret].
    destruct a4.
    + do 2 (apply it_quiet_bind; [by iquiet|intros ?]).
      eapply it_post; [apply it_sess, t_cleanup, Hr|]. intros _ k' <-.
      apply (progress_lost k (k_fd k)); [done|]. rewrite Hst. left. by right; right; right.
    + eapply it_post with (Q' := λ _, eq k); [|by intros _ ? <-; apply progress_refl].
      apply it_quiet_bind; [by iquiet|intros []]. apply it_sess, t_quiet. quiet.
  - intros idle k' Hk'. by it_steps.
Qed.
Lemma it_watch_phase now out k : ready k → 0 ≤ k_fd k →
  itriple (eq k) (watch_phase now out) (λ _, progress k).
Proof.
  intros Hr Hfd. unfold watch_phase. do 5 (apply it_quiet_bind; [by iquiet|intros ?]).
  destruct (_ <=? 0).
  - apply it_quiet_bind; [by iquiet|intros ?].
    eapply it_bind; [apply it_sess, t_handle_socket_error_msg, Hr|]. intros ? ? [-> ->].
    apply it_ret, (progress_lost k (k_fd k)); [done|].
    destruct (sd_phase _ (rd_sound _ Hr)) as [[_ ?]|[? _]]; [by left|lia].
  - apply it_quiet_bind; [by iquiet|intros [rc|send_to]]; [by apply it_ret, progress_refl|].
    eapply it_bind; [by apply it_rw_phase|]. intros a4 k' Hk'. by it_steps.
Qed.
Lemma iq_connected_now now : iquiet (connected_now now).
Proof. unfold connected_now. iquiet. Qed.
Hint Resolve iq_connected_now : quiet.

Lemma it_zookeeper_interest out k :
  resting k → itriple (eq k) (zookeeper_interest out) (λ _, rests k).
Proof.
  intros Hr. pose proof Hr as [Hrd _ Hc _]. unfold zookeeper_interest.
  assert (∀ rc out k', progress (used k) k' →
    itriple (eq k') (rc ← sess (api_epilog rc); mret (rc, out)) (λ _ : Z * interest, rests k)) as Hend.
  { intros rc out' k' [Hm Hr']. eapply it_bind;
      [apply it_sess, t_api_epilog; by rewrite (mv_closing _ _ Hm)|].
    intros ? ? [-> ->]. by apply it_ret, rests_unused. }
  apply (it_get_bind (λ k, k_state k <? 0)); [done|]. destruct (Z.ltb_spec (k_state k) 0) as [Hst|Hst].
  { by apply it_ret. }
  apply it_quiet_bind; [by iquiet|intros now].
  eapply it_bind; [apply it_sess, t_api_prolog|]. intros [] ? <-.
  eapply it_bind; [apply it_mupdate_addrs|]. intros rc k1 Hk1.
  assert (progress (used k) k1) as Hp1 by (apply regroups_ready; [by apply used_ready|done]).
  assert (0 ≤ k_state k1) as Hst1 by (destruct Hk1 as [->|[_ ->]]; [done|cbn; unfold NOTCONNECTED; lia]).
  destruct (negb _); [by apply Hend|].
  apply (it_get_bind k_fd); [done|].
  eapply it_bind with (Q := λ _, progress k1).
  { destruct (Z.eqb_spec (k_fd k1) (-1)) as [Hfd|Hfd]; [|by apply it_ret, progress_refl, Hp1].
    apply it_connect_phase; [apply Hp1|done|].
    destruct Hp1 as [_ [_ _ _ [Hph _ _]]]. destruct Hph as [[? _]|[_ [?|?]]]; [lia|done|states]. }
  intros conn k2 Hk2. assert (progress (used k) k2) as Hp2 by by eapply progress_trans.
  destruct conn as [rc'|tv]; [by apply Hend|].
  apply it_quiet_bind; [by iquiet|intros out2].
  apply (it_get_bind k_fd); [done|].
  eapply it_bind with (Q := λ _, progress k2).
  { destruct (Z.eqb_spec (k_fd k2) (-1)) as [Hfd|Hfd]; cbn [negb]; [by apply it_ret, progress_refl, Hp2|].
    apply it_watch_phase; [apply Hp2|].
    destruct (sd_phase _ (rd_sound _ (proj2 Hp2))) as [[? _]|[? _]]; [done|lia]. }
  intros [rc' out3] k3 Hk3. apply Hend. by eapply progress_trans.
Qed.
End interest.

Section requests.
Context `{Host, Locals}.

Lemma quiet_notify_local data : quiet (notify_local data).
Proof. single_threaded. quiet. Qed.
Lemma quiet_do_add_completion dc c front :
  dc ≠ SYNCHRONOUS_MARKER → quiet (do_add_completion dc c front).
Proof.
  intros Hdc. unfold do_add_completion. rewrite (proj2 (Z.eqb_neq dc SYNCHRONOUS_MARKER)) by done.
  quiet.
Qed.
Hint Resolve quiet_notify_local quiet_do_add_completion : quiet.
Lemma quiet_zh_prepend_string path : quiet (zh_prepend_string path).
Proof. unfold zh_prepend_string. quiet. Qed.
Lemma quiet_check_path mode path : quiet (check_path mode path).
Proof. unfold check_path. quiet. Qed.
Hint Resolve quiet_zh_prepend_string quiet_check_path : quiet.
Lemma quiet_submit ser add : quiet add → quiet (submit ser add).
Proof. intros. unfold submit. quiet. Qed.
Lemma quiet_Request_path_init mode path : quiet (Request_path_init mode path).
Proof. unfold Request_path_init. quiet. Qed.
Hint Resolve quiet_Request_path_init : quiet.
Lemma quiet_Request_path_watch_init mode path w : quiet (Request_path_watch_init mode path w).
Proof. unfold Request_path_watch_init. quiet. Qed.
Lemma quiet_create_watcher_registration path checker w ctx :
  quiet (create_watcher_registration path checker w ctx).
Proof. unfold create_watcher_registration. quiet. Qed.
Lemma quiet_create_watcher_deregistration path w ctx t :
  quiet (create_watcher_deregistration path w ctx t).
Proof. unfold create_watcher_deregistration. quiet. Qed.
Hint Resolve quiet_submit quiet_Request_path_watch_init quiet_create_watcher_registration
  quiet_create_watcher_deregistration : quiet.
Lemma quiet_writing op oa : quiet (writing op oa).
Proof. unfold writing. quiet. Qed.
Hint Resolve quiet_writing : quiet.
Lemma quiet_sub_request {R} (init : M (Z * R)) ser rc oa : quiet init → quiet (sub_request init ser rc oa).
Proof. intros. unfold sub_request. quiet. Qed.
Lemma quiet_sub_op xid op result rc oa : quiet (sub_op xid op result rc oa).
Proof.
  unfold sub_op. repeat (case_match; try apply quiet_raise; try apply quiet_ret);
    (apply quiet_bind; [apply quiet_sub_request|intros ?; by quiet]);
    unfold CreateRequest_init, DeleteRequest_init, SetDataRequest_init, CheckVersionRequest_init; quiet.
Qed.
Lemma quiet_sub_ops xid ops : ∀ result rc oa clist slots,
  quiet (sub_ops xid ops result rc oa clist slots).
Proof.
  induction ops as [|op ops IH]; intros result rc oa clist slots; simpl; [apply quiet_ret|].
  apply quiet_bind; [by quiet|intros [rc' oa']]. apply quiet_bind; [apply quiet_sub_op|intros ?].
  repeat case_match; by quiet.
Qed.
Hint Resolve quiet_sub_ops : quiet.

(** A request changes nothing in the state of the session. *)
Lemma quiet_run_request r fn data : fn ≠ SYNCHRONOUS_MARKER → quiet (run_request r fn data).
Proof.
  intros Hfn. destruct r; simpl;
    unfold zoo_aget, zoo_awget, zoo_agetconfig, zoo_awgetconfig, zoo_areconfig, zoo_aset,
      zoo_acreate, zoo_acreate2, zoo_acreate_ttl, zoo_acreate2_ttl, create_with, zoo_adelete,
      zoo_aexists, zoo_awexists, zoo_aget_children, zoo_awget_children, zoo_awget_children_,
      zoo_aget_children2, zoo_awget_children2, zoo_awget_children2_, zoo_async, zoo_aget_acl,
      zoo_aset_acl, zoo_amulti, zoo_aremove_watches, zoo_aremove_all_watches, aremove_watches,
      zoo_add_auth, default_watcher, SetDataRequest_init, CreateRequest_init,
      CreateTTLRequest_init, DeleteRequest_init, add_data_completion, add_stat_completion,
      add_strings_completion, add_strings_stat_completion, add_acl_completion,
      add_void_completion, add_string_completion, add_string_stat_completion,
      add_multi_completion, add_completion, add_completion_deregistration,
      create_completion_entry, create_completion_entry_deregistration;
    repeat first [quiet_step | apply quiet_submit | apply quiet_unless_failed].
Qed.
End requests.

(** ** The library as a transition system *)
Inductive lib_call :=
  | CallInterest (out : interest)
  | CallProcess (events : Z)
  | CallRequest (r : request) (fn data : Z)
  | CallSetServers (hosts : option cstring)
  | CallSetWatcher (fn : Z)
  | CallSetContext (context : Z)
  | CallClose.

Section steps.
Context `{Host, Locals}.

Definition run_call (c : lib_call) : MI Z :=
  match c with
  | CallInterest out => '(rc, _) ← zookeeper_interest out; mret rc
  | CallProcess events => sess (zookeeper_process events)
  | CallRequest r fn data => sess (run_request r fn data)
  | CallSetServers hosts => set_servers hosts
  | CallSetWatcher fn => sess (zoo_set_watcher fn)
  | CallSetContext context => sess (zoo_set_context context);; mret 0
  | CallClose => sess zookeeper_close
  end.
(** No function has the address of the marker of synchronous calls. *)
Definition call_ok (c : lib_call) : Prop :=
  match c with CallRequest _ fn _ => fn ≠ SYNCHRONOUS_MARKER | _ => True end.

(** A call on a handle that has not been freed; or the world outside, the network and
    the resolver change, while the handle stays as it is. *)
Inductive lib_step (s : isys) : isys → Prop :=
  | step_call c a s' : call_ok c → zh_freed (ihandle s) = false → run_call c s = Ret (a, s') →
      lib_step s s'
  | step_world w e : lib_step s (mk_isys (mk_sys (ihandle s) w) (i_net s) e).

(** Where the calls leave the handle. *)
Definition settled_in (k k' : core) : Prop := rests k k' ∨ closed k'.
Lemma call_settles c k : call_ok c → resting k → itriple (eq k) (run_call c) (λ _, settled_in k).
Proof.
  intros Hc Hr. assert (∀ A (m : M A), quiet m → itriple (eq k) (sess m) (λ _, settled_in k)) as Hq.
  { intros A m Hm. eapply it_post; [by apply it_sess, t_quiet|]. intros _ ? <-. by left. }
  destruct c; cbn [run_call].
  - eapply it_bind; [by apply it_zookeeper_interest|]. intros [rc o] k' Hk'. apply it_ret. by left.
  - eapply it_post; [by apply it_sess, t_zookeeper_process|]. by left.
  - by apply Hq, quiet_run_request.
  - eapply it_post; [apply it_set_servers|]. intros ? k' Hk'. left.
    destruct Hr as [Hrd Hn Hcl Hf]. destruct (regroups_ready _ _ Hrd Hk') as [[Mr Mc Mf Ms Me] Hr'].
    split; [|done]. split; congruence || done.
  - apply Hq. unfold zoo_set_watcher. quiet.
  - eapply it_bind; [apply Hq; unfold zoo_set_context; by quiet|]. intros ? k' Hk'. by apply it_ret.
  - eapply it_post; [by apply it_sess, t_zookeeper_close|]. by right.
Qed.
Definition at_rest (s : isys) : Prop :=
  if zh_freed (ihandle s) then closed (core_of (ihandle s)) else resting (core_of (ihandle s)).
Lemma step_rests s s' : at_rest s → lib_step s s' →
  at_rest s' ∧ (zh_freed (ihandle s') = false → rtc edge (zh_state (ihandle s)) (zh_state (ihandle s'))).
Proof.
  intros Hs [c a s2 Hc Hf E|w e]; [|done]. unfold at_rest in Hs. rewrite Hf in Hs.
  destruct (call_settles c _ Hc Hs s a s2 eq_refl E) as [[Hr He]|Hcl]; unfold at_rest.
  - change (zh_freed (ihandle s2)) with (k_freed (core_of (ihandle s2))). by rewrite (rs_freed _ Hr).
  - change (zh_freed (ihandle s2)) with (k_freed (core_of (ihandle s2))). by rewrite (cl_freed _ Hcl).
Qed.
Lemma freed_stays s s' : lib_step s s' → zh_freed (ihandle s) = true → zh_freed (ihandle s') = true.
Proof. intros [c a s2 _ Hf _|w e]; [congruence|done]. Qed.
Lemma run_rests s s' : at_rest s → rtc lib_step s s' →
  at_rest s' ∧ (zh_freed (ihandle s') = false → rtc edge (zh_state (ihandle s)) (zh_state (ihandle s'))).
Proof.
  intros Hs Hr. induction Hr as [s|s s1 s2 Hst Hr IH]; [done|].
  destruct (step_rests _ _ Hs Hst) as [Hs1 He]. destruct (IH Hs1) as [Hs2 He2]. split; [done|].
  intros Hf. etrans; [apply He|by apply He2].
  destruct (zh_freed (ihandle s1)) eqn:Hf1; [|done]. exfalso. clear -Hr Hf Hf1.
  induction Hr as [s|s s1 s2 Hst Hr IH]; [congruence|]. apply IH; [|done]. by eapply freed_stays.
Qed.

(** A new handle. *)
Lemma init_rests host watcher rt cid ctx flags s ok s' :
  zookeeper_init host watcher rt cid ctx flags s = Ret (ok, s') → ok = true →
  at_rest s' ∧ zh_freed (ihandle s') = false ∧ zh_state (ihandle s') = NOTCONNECTED.
Proof.
  intros E Hok.
  set (new := mk_core (-1) NOTCONNECTED 0 0 false 0 [] [] NoInput).
  assert (∀ k, itriple (eq k) (zookeeper_init host watcher rt cid ctx flags)
    (λ ok k', ok = true → k' = new)) as Ht.
  { intros k. unfold zookeeper_init, zookeeper_init_internal.
    assert (∀ k, itriple (eq k) abort (λ ok k', ok = true → k' = new)) as Habort.
    { intros k1. unfold abort. eapply it_bind with (Q := λ _ _, True); [done|]. intros. by apply it_ret. }
    apply it_quiet_bind; [by iquiet|intros []]; cbn [negb]; [|by apply it_ret].
    eapply it_bind; [by apply it_sess, (t_modify (λ _, new))|]. intros _ ? <-.
    apply it_quiet_bind; [by iquiet|intros _].
    destruct host as [[|c host]|]; [apply Habort| |apply Habort].
    apply it_quiet_bind; [by iquiet|intros [[chroot hostname]|]]; [|apply Habort].
    do 2 (apply it_quiet_bind; [by iquiet|intros _]).
    destruct (_ && _); [apply Habort|]. destruct (bool_decide _); [apply Habort|].
    eapply it_bind; [apply it_mupdate_addrs|]. intros rc k' [->|[? _]]; [|done].
    destruct (negb _); [apply Habort|]. unfold create_table. it_steps. done. }
  pose proof (Ht _ s ok s' eq_refl E Hok) as Hk.
  assert (zh_freed (ihandle s') = k_freed (core_of (ihandle s'))) as Hf by done.
  assert (zh_state (ihandle s') = k_state (core_of (ihandle s'))) as Hst by done.
  unfold at_rest. rewrite Hf, Hst, Hk. split; [|done]. split; try done. split; try done.
  split; [right; split; [done|by left; right]|done|by intros [|]].
Qed.

(** C10.  Between two calls of the library.  After [zookeeper_init] and any calls of the
    library in any order, whatever the allocator, the network and the resolver do: the
    references are balanced, no close is pending, every completion that was queued has
    been run and every packet received has been handled.  The descriptor is open exactly
    in the four states of a connection; while the handshake is awaited its buffer is the
    one read into, and once it is over no longer.  A handle that was closed has no
    descriptor and nothing waiting. *)
Theorem between_calls host watcher rt cid ctx flags s0 s s' :
  zookeeper_init host watcher rt cid ctx flags s0 = Ret (true, s) → rtc lib_step s s' →
  let zh := ihandle s' in
  zh_completions_to_process zh = [] ∧ zh_to_process zh = [] ∧
  if zh_freed zh then zh_fd zh = -1 else
    zh_ref_counter zh = 0 ∧ zh_close_requested zh = 0 ∧ zh_outstanding_sync zh = 0 ∧
    ((0 ≤ zh_fd zh ∧ live_state (zh_state zh)) ∨
     (zh_fd zh = -1 ∧ (down_state (zh_state zh) ∨ ended_state (zh_state zh)))) ∧
    (zh_state zh = ZOO_ASSOCIATING_STATE → zh_input_buffer zh = PrimerInput) ∧
    (zh_state zh = ZOO_CONNECTED_STATE ∨ zh_state zh = ZOO_READONLY_STATE →
       zh_input_buffer zh ≠ PrimerInput).
Proof.
  intros Hi Hr zh. destruct (init_rests _ _ _ _ _ _ _ _ _ Hi eq_refl) as [Hs _].
  destruct (run_rests _ _ Hs Hr) as [Hs' _]. unfold at_rest in Hs'. fold zh in Hs'.
  destruct (zh_freed zh); [by destruct Hs' as [H1 _ H2 H3]|].
  destruct Hs' as [[Hsy Hp Hk [H1 H2 H3]] Hn Hc _]. split_and!; done.
Qed.

(** C12.  The states of a session.  A handle goes through its states only along the edges
    of the graph [edge]: from not connected to connecting to associating to connected or
    read-only, back when the connection is lost or the servers change, to expired only
    out of the handshake, to a failed authentication only out of a connection.  These
    two are final: the session keeps the state and has no connection for as long as the
    handle exists, and the event loop refuses to go on. *)
Theorem session_states host watcher rt cid ctx flags s0 s s1 s2 :
  zookeeper_init host watcher rt cid ctx flags s0 = Ret (true, s) →
  rtc lib_step s s1 → rtc lib_step s1 s2 → zh_freed (ihandle s2) = false →
  rtc edge (zh_state (ihandle s1)) (zh_state (ihandle s2)) ∧
  (ended_state (zh_state (ihandle s1)) →
     zh_state (ihandle s2) = zh_state (ihandle s1) ∧ zh_fd (ihandle s2) = -1 ∧
     (∀ events, zookeeper_process events (i_sys s2) = Ret (ZINVALIDSTATE, i_sys s2)) ∧
     (∀ out, zookeeper_interest out s2 = Ret (ZINVALIDSTATE, out, s2))).
Proof.
  intros Hi Hr1 Hr2 Hf. destruct (init_rests _ _ _ _ _ _ _ _ _ Hi eq_refl) as [Hs _].
  destruct (run_rests _ _ Hs Hr1) as [Hs1 _]. destruct (run_rests _ _ Hs1 Hr2) as [Hs2 He].
  specialize (He Hf). split; [done|]. intros Hend.
  pose proof (ended_final _ _ Hend He) as Hst. unfold at_rest in Hs2. rewrite Hf in Hs2.
  assert (zh_state (ihandle s2) < 0) as Hneg by (rewrite Hst; states).
  assert (is_unrecoverable (ihandle s2) = true) as Hun by by apply Z.ltb_lt.
  split_and!; [done| | |].
  - destruct Hs2 as [[_ _ _ [Hph _ _]] _ _ _]. destruct Hph as [[_ Hl]|[Hfd _]]; [|done].
    exfalso. clear -Hl Hneg. unfold core_of in Hl. cbn [k_state] in Hl. states.
  - intros events. unfold zookeeper_process. rewrite M_bind_eq, get_eq. run. by rewrite Hun.
  - intros out. unfold zookeeper_interest. rewrite MI_bind_eq, sess_get_eq. run. by rewrite Hun.
Qed.
End steps.

(** ** A run: a session that has expired *)
Definition outcome_of {A} (m : outcome (A * isys)) (s : isys) : isys :=
  match m with Ret (_, s') => s' | _ => s end.
Definition sample_begin : isys :=
  sample_isys (mk_timeval 1 0) (-1) 0 [] [IoOk 4; IoOk 45] [Socket 7 ConnectInProgress].
Definition sample_init : MI bool :=
  @zookeeper_init sample_host zero_locals (@st_adaptor sample_host) (Some (lit "a:2181,b:2181")) 5 10000
    (Some (mk_clientid 77 (replicate 16 Byte.x2a))) 50 0.
Definition sample_created : isys := outcome_of (sample_init sample_begin) sample_begin.
Definition sample_call (c : lib_call) (s : isys) : isys :=
  outcome_of (@run_call sample_host zero_locals c s) s.
Definition sample_connecting : isys :=
  sample_call (CallInterest (mk_interest 0 0 (mk_timeval 0 0))) sample_created.
Definition sample_associating : isys := sample_call (CallProcess ZOOKEEPER_WRITE) sample_connecting.
(** The server answers with another session. *)
Definition sample_world_then : world :=
  set_w_in (handshake_bytes (sample_answer 81)) (set_w_io [IoOk 41] (s_world (i_sys sample_associating))).
Definition sample_answering : isys :=
  mk_isys (mk_sys (ihandle sample_associating) sample_world_then) (i_net sample_associating)
    (i_env sample_associating).
Definition sample_over : isys := sample_call (CallProcess ZOOKEEPER_READ) sample_answering.

Lemma sample_steps : nsteps (@lib_step sample_host zero_locals) 3 sample_created sample_answering.
Proof.
  apply (nsteps_l _ _ _ sample_connecting).
  { apply (step_call _ (CallInterest (mk_interest 0 0 (mk_timeval 0 0))) ZOK);
      [done|vm_compute; reflexivity..]. }
  apply (nsteps_l _ _ _ sample_associating).
  { apply (step_call _ (CallProcess ZOOKEEPER_WRITE) ZOK); [done|vm_compute; reflexivity..]. }
  apply nsteps_once, (step_world sample_associating sample_world_then (i_env sample_associating)).
Qed.
Lemma sample_run : rtc (@lib_step sample_host zero_locals) sample_created sample_over.
Proof.
  etrans; [exact (rtc_nsteps_2 _ _ _ sample_steps)|].
  apply rtc_once, (step_call _ (CallProcess ZOOKEEPER_READ) ZSESSIONEXPIRED);
    [done|vm_compute; reflexivity..].
Qed.
Lemma sample_init_eq :
  @zookeeper_init sample_host zero_locals (@st_adaptor sample_host) (Some (lit "a:2181,b:2181")) 5 10000
    (Some (mk_clientid 77 (replicate 16 Byte.x2a))) 50 0 sample_begin = Ret (true, sample_created).
Proof. vm_compute. reflexivity. Qed.

Lemma between_calls_witness :
  zh_state (ihandle sample_over) = ZOO_EXPIRED_SESSION_STATE ∧ zh_ref_counter (ihandle sample_over) = 0.
Proof.
  split; [vm_compute; reflexivity|].
  destruct (@between_calls sample_host zero_locals _ _ _ _ _ _ _ _ _ sample_init_eq sample_run)
    as (_ & _ & Hrest).
  assert (zh_freed (ihandle sample_over) = false) as Hf by (vm_compute; reflexivity).
  rewrite Hf in Hrest. exact (proj1 Hrest).
Defined.
Lemma session_states_witness :
  @zookeeper_process sample_host zero_locals (@st_adaptor sample_host) ZOOKEEPER_READ (i_sys sample_over) =
    Ret (ZINVALIDSTATE, i_sys sample_over).
Proof.
  destruct (@session_states sample_host zero_locals _ _ _ _ _ _ _ _ sample_over sample_over
    sample_init_eq sample_run (rtc_refl _ _)) as [_ Hend]; [vm_compute; reflexivity|].
  destruct Hend as (_ & _ & Hp & _); [left; vm_compute; reflexivity|]. apply Hp.
Defined.
