(* ===== verification/Termination.v ===== *)
(** * Every call terminates

    The loops of the code that are not over a list have fuel in the model.  No call of the
    library uses it up: whatever the state of the handle (as long as its watcher tables
    are well formed), the allocator, the bytes received and the network.

    [halts] is about pure code, [steady] about code that fills an archive, [calm] about
    code of the session that does not touch the watcher tables. *)

From Stdlib Require Import Floats.SpecFloat.
From S2P Require Import Prelude RecordIO Jute Hashtable HashtableFacts Path PathFacts Watchers.
From S2P Require Import WatchersFacts WatchersTheorems Addrvec Hosts Handshake Transport.
From S2P Require Import Handle Session Requests SessionFacts Interest Init.
From S2P Require Import Triples Invariant StateTheorems.
Local Open Scope Z_scope.

(** ** Pure code *)
Definition halts {A} (o : outcome A) : Prop := o ≠ Loop.
Lemma halts_bind {A B} (m : outcome A) (f : A → outcome B) :
  halts m → (∀ a, halts (f a)) → halts (m ≫= f).
Proof. unfold halts. destruct m; [|done..]. intros _ Hf. apply Hf. Qed.
Lemma halts_Ret {A} (a : A) : halts (Ret a).
Proof. done. Qed.
Lemma halts_UB {A} : halts (@UB A).
Proof. done. Qed.
Lemma halts_Abort {A} : halts (@Abort A).
Proof. done. Qed.

Create HintDb halts.
#[export] Hint Resolve halts_Ret halts_UB halts_Abort : halts.
Ltac halts_step :=
  match goal with
  | |- halts (_ ≫= _) => apply halts_bind; [|intros ?]
  | |- halts (match ?x with _ => _ end) => destruct x
  | |- halts _ => solve [eauto 2 with halts nocore]
  | |- _ => progress intros
  end.
Ltac halts := repeat halts_step.

(** ** Archives *)

(** A call on an archive with a positive length leaves it so, and if no allocation fails
    before, none will fail afterwards. *)
Definition grows (oa oa' : buff_struct) : Prop :=
  0 < bs_len oa' ∧ (bs_alloc oa = [] → bs_alloc oa' = []).
Definition steady (ser : buff_struct → outcome (Z * buff_struct)) : Prop :=
  ∀ oa, 0 < bs_len oa →
    match ser oa with Ret (_, oa') => grows oa oa' | Loop => False | _ => True end.

Lemma resize_loop_halts newlen fuel : ∀ len, 0 < len ≤ INT_MAX → INT_MAX < len * 2 ^ Z.of_nat fuel →
  match resize_loop fuel len newlen with Ret len' => 0 < len' | Loop => False | _ => True end.
Proof.
  induction fuel as [|fuel IH]; intros len Hl Hf.
  { change (2 ^ Z.of_nat 0) with 1 in Hf. lia. }
  simpl. destruct (len <? newlen); [|lia]. destruct (_ && _) eqn:E; [|done].
  apply andb_prop in E as [E1%Z.leb_le _]. apply IH; [lia|].
  rewrite Nat2Z.inj_succ, Z.pow_succ_r in Hf by lia. lia.
Qed.
Lemma steady_resize newlen : steady (λ s, resize_buffer s newlen).
Proof.
  intros s Hs. unfold resize_buffer.
  assert (match resize_loop resize_fuel (bs_len s) newlen with
    Ret len' => 0 < len' | Loop => False | _ => True end) as Hr.
  { destruct (Z.leb_spec (bs_len s) INT_MAX) as [Hle|Hgt].
    - apply resize_loop_halts; [lia|].
      change (2 ^ Z.of_nat resize_fuel) with 4294967296. lia.
    - unfold resize_fuel. cbn [resize_loop]. destruct (_ <? _); [|lia].
      rewrite (proj2 (Z.leb_gt (2 * bs_len s) INT_MAX)) by lia. done. }
  destruct (resize_loop _ _ _); [|done..]. cbn [mbind outcome_bind].
  assert (∀ n, bs_alloc s = [] → (alloc_bytes n (bs_alloc s)).2 = []) as Ha.
  { intros n Hn. rewrite Hn. unfold alloc_bytes. by case_match. }
  match goal with |- context [alloc_bytes ?n _] => specialize (Ha n) end.
  destruct (alloc_bytes _ _) as [[] ?]; by split.
Qed.
Lemma steady_bind (ser : buff_struct → outcome (Z * buff_struct)) (f : Z * buff_struct → outcome (Z * buff_struct)) :
  steady ser → (∀ rc, steady (λ oa, f (rc, oa))) → steady (λ oa, ser oa ≫= f).
Proof.
  intros Hs Hf oa Ho. specialize (Hs oa Ho). destruct (ser oa) as [[rc oa']| | |]; [|done..].
  destruct Hs as [Hl Ha]. specialize (Hf rc oa' Hl). cbn [mbind outcome_bind] in *.
  destruct (f (rc, oa')) as [[rc2 oa2]| | |]; [|done..]. destruct Hf. split; auto.
Qed.
Lemma steady_memcpy src (f : buff_struct → outcome (Z * buff_struct)) :
  steady f → steady (λ s, memcpy_to s src ≫= f).
Proof.
  intros Hf s Hs. unfold memcpy_to. destruct (bs_buffer s); [|done]. destruct (_ && _); [|done].
  match goal with |- context [Ret ?x ≫= f] => specialize (Hf x Hs) end.
  cbn [mbind outcome_bind]. destruct (f _) as [[rc oa]| | |]; [|done..]. by destruct Hf; split.
Qed.
Lemma steady_ret rc : steady (λ s, Ret (rc, s)).
Proof. by intros s Hs; split. Qed.
Lemma steady_advance rc n : steady (λ s, Ret (rc, advance n s)).
Proof. by intros s Hs; split. Qed.
Lemma steady_if (b : buff_struct → bool) f g :
  steady f → steady g → steady (λ s, if b s then f s else g s).
Proof. intros Hf Hg s Hs. destruct (b s); [by apply Hf|by apply Hg]. Qed.

Section archives.
Context `{Host}.

(** Room for [n] more bytes. *)
Lemma steady_room (b : buff_struct → bool) (n : buff_struct → Z) (rc : Z) f :
  steady f →
  steady (λ s, '(rc, s) ← (if b s then resize_buffer s (n s) else Ret (rc, s));
               if rc <? 0 then Ret (rc, s) else f s).
Proof.
  intros Hf. apply (steady_bind (λ s, if b s then resize_buffer s (n s) else Ret (rc, s))).
  - intros s Hs. destruct (b s); [by apply (steady_resize (n s))|by split].
  - intros rc'. apply steady_if; [apply steady_ret|done].
Qed.
Lemma steady_int d : steady (oa_serialize_int d).
Proof.
  apply (steady_room (λ s, size_t (bs_len s - bs_off s) <? 4) (λ s, int32 (bs_len s + 4)) 0).
  apply steady_memcpy, steady_advance.
Qed.
Lemma steady_long d : steady (oa_serialize_long d).
Proof.
  apply (steady_room (λ s, size_t (bs_len s - bs_off s) <? 8) (λ s, int32 (bs_len s + 8)) 0).
  apply steady_memcpy, steady_advance.
Qed.
Lemma steady_bool i : steady (oa_serialize_bool i).
Proof.
  apply (steady_room (λ s, bs_len s - bs_off s <? 1) (λ s, bs_len s + 1) 0).
  apply steady_memcpy, steady_advance.
Qed.
Lemma steady_bytes p n : steady (λ s, src ← memory_at p n; s ← memcpy_to s src; Ret (0, advance n s)).
Proof.
  intros s Hs. destruct (memory_at p n) as [src| | |] eqn:E; [|done..|].
  - by apply (steady_memcpy src (λ s, Ret (0, advance n s)) (steady_advance 0 n)).
  - unfold memory_at in E. by repeat case_match.
Qed.
Lemma steady_buffer b : steady (oa_serialize_buffer b).
Proof.
  destruct b as [b|]; [|apply steady_int]. apply (steady_bind (oa_serialize_int (b_len b))); [apply steady_int|].
  intros rc. destruct (rc <? 0); [apply steady_ret|]. destruct (_ =? -1); [apply steady_ret|].
  apply (steady_room (λ s, bs_len s - bs_off s <? b_len b) (λ s, bs_len s + b_len b) rc), steady_bytes.
Qed.
Lemma steady_string str : steady (oa_serialize_string str).
Proof.
  destruct str as [str|].
  - apply (steady_bind (oa_serialize_int _)); [apply steady_int|].
    intros rc. destruct (rc <? 0); [apply steady_ret|].
    apply (steady_room (λ s, bs_len s - bs_off s <? _) (λ s, bs_len s + _) rc), steady_bytes.
  - apply (steady_bind (oa_serialize_int _)); [apply steady_int|]. intros rc. apply steady_ret.
Qed.

(** Records. *)
Lemma steady_seq f g : steady f → steady g → steady (ser_seq f g).
Proof.
  intros Hf Hg. apply (steady_bind f); [done|]. intros rc. destruct (rc =? 0); [done|apply steady_ret].
Qed.
Lemma steady_then f g : steady f → steady g → steady (ser_then f g).
Proof.
  intros Hf Hg. apply (steady_bind f); [done|]. intros rc. destruct (rc <? 0); [apply steady_ret|done].
Qed.
Lemma steady_vector {A} (op : A → buff_struct → outcome (Z * buff_struct)) v :
  (∀ x, steady (op x)) → steady (serialize_vector op v).
Proof.
  intros Hop. apply (steady_bind (oa_serialize_int (v_count v))); [apply steady_int|]. intros rc.
  assert (∀ n i rc, steady (serialize_loop op (v_data v) n i rc)) as Hloop.
  { induction n as [|n IH]; intros i rc'; [apply steady_ret|].
    apply (steady_bind (λ s, if rc' =? 0 then match v_data v ≫= λ l, l !! i with
      Some x => op x s | None => UB end else Ret (rc', s))); [|intros rc2; apply IH].
    destruct (rc' =? 0); [|apply steady_ret]. destruct (_ ≫= _); [apply Hop|done]. }
  apply (steady_bind (serialize_loop op (v_data v) (Z.to_nat (v_count v)) 0 rc)); [apply Hloop|].
  intros rc'. destruct (rc' =? 0); apply steady_ret.
Qed.
Ltac steady :=
  repeat match goal with
  | |- steady (ser_seq _ _) => apply steady_seq
  | |- steady (ser_then _ _) => apply steady_then
  | |- steady (serialize_vector _ _) => apply steady_vector; intros ?
  | |- steady _ =>
      first [ exact (steady_int _) | exact (steady_long _) | exact (steady_bool _)
            | exact (steady_buffer _) | exact (steady_string _) | exact (steady_ret 0) ]
  end.
Lemma steady_RequestHeader v : steady (serialize_RequestHeader v).
Proof. unfold serialize_RequestHeader. steady. Qed.
Lemma steady_ReplyHeader v : steady (serialize_ReplyHeader v).
Proof. unfold serialize_ReplyHeader. steady. Qed.
Lemma steady_MultiHeader v : steady (serialize_MultiHeader v).
Proof. unfold serialize_MultiHeader. steady. Qed.
Lemma steady_WatcherEvent v : steady (serialize_WatcherEvent v).
Proof. unfold serialize_WatcherEvent. steady. Qed.
Lemma steady_AuthPacket v : steady (serialize_AuthPacket v).
Proof. unfold serialize_AuthPacket. steady. Qed.
Lemma steady_SetWatches v : steady (serialize_SetWatches v).
Proof. unfold serialize_SetWatches, serialize_String_vector. steady. Qed.
Lemma steady_GetDataRequest v : steady (serialize_GetDataRequest v).
Proof. unfold serialize_GetDataRequest. steady. Qed.
Lemma steady_SetDataRequest v : steady (serialize_SetDataRequest v).
Proof. unfold serialize_SetDataRequest. steady. Qed.
Lemma steady_ReconfigRequest v : steady (serialize_ReconfigRequest v).
Proof. unfold serialize_ReconfigRequest. steady. Qed.
Lemma steady_CreateRequest v : steady (serialize_CreateRequest v).
Proof. unfold serialize_CreateRequest, serialize_ACL_vector, serialize_ACL, serialize_Id. steady. Qed.
Lemma steady_CreateTTLRequest v : steady (serialize_CreateTTLRequest v).
Proof. unfold serialize_CreateTTLRequest, serialize_ACL_vector, serialize_ACL, serialize_Id. steady. Qed.
Lemma steady_SetACLRequest v : steady (serialize_SetACLRequest v).
Proof. unfold serialize_SetACLRequest, serialize_ACL_vector, serialize_ACL, serialize_Id. steady. Qed.
Lemma steady_DeleteRequest v : steady (serialize_DeleteRequest v).
Proof. unfold serialize_DeleteRequest. steady. Qed.
Lemma steady_CheckVersionRequest v : steady (serialize_CheckVersionRequest v).
Proof. unfold serialize_CheckVersionRequest. steady. Qed.
Lemma steady_ExistsRequest v : steady (serialize_ExistsRequest v).
Proof. unfold serialize_ExistsRequest. steady. Qed.
Lemma steady_GetChildrenRequest v : steady (serialize_GetChildrenRequest v).
Proof. unfold serialize_GetChildrenRequest. steady. Qed.
Lemma steady_GetChildren2Request v : steady (serialize_GetChildren2Request v).
Proof. unfold serialize_GetChildren2Request. steady. Qed.
Lemma steady_SyncRequest v : steady (serialize_SyncRequest v).
Proof. unfold serialize_SyncRequest. steady. Qed.
Lemma steady_GetACLRequest v : steady (serialize_GetACLRequest v).
Proof. unfold serialize_GetACLRequest. steady. Qed.
Lemma steady_RemoveWatchesRequest v : steady (serialize_RemoveWatchesRequest v).
Proof. unfold serialize_RemoveWatchesRequest. steady. Qed.
Lemma steady_CheckWatchesRequest v : steady (serialize_CheckWatchesRequest v).
Proof. unfold serialize_CheckWatchesRequest. steady. Qed.

(** Reading has no loop but over the elements of a vector. *)
Definition reads_on {A} (op : deser buff_struct A) : Prop := ∀ v s, halts (op v s).
Lemma reads_int : reads_on ia_deserialize_int.
Proof. intros v s. unfold ia_deserialize_int, bytes_at_off. halts. Qed.
Lemma reads_long : reads_on ia_deserialize_long.
Proof. intros v s. unfold ia_deserialize_long, bytes_at_off. halts. Qed.
Lemma reads_bool : reads_on ia_deserialize_bool.
Proof. intros v s. unfold ia_deserialize_bool, bytes_at_off. halts. Qed.
Lemma reads_buffer : reads_on ia_deserialize_buffer.
Proof.
  intros v s. unfold ia_deserialize_buffer, bytes_at_off. apply halts_bind; [apply reads_int|]. halts.
Qed.
Lemma reads_string : reads_on ia_deserialize_string.
Proof.
  intros v s. unfold ia_deserialize_string, bytes_at_off. apply halts_bind; [apply reads_int|]. halts.
Qed.
Lemma reads_seq {A} (f g : deser buff_struct A) : reads_on f → reads_on g → reads_on (deser_seq f g).
Proof.
  intros Hf Hg v s. apply halts_bind; [apply Hf|]. intros [[rc v'] s']. destruct (rc =? 0); [apply Hg|done].
Qed.
Lemma reads_on_field {A B} (get : A → B) (set : B → A → A) op : reads_on op → reads_on (on_field get set op).
Proof. intros Hop v s. apply halts_bind; [apply Hop|]. by intros [[rc x] s']. Qed.
Lemma reads_mark {A} rc : reads_on (on_archive (λ s, Ret (rc, s)) : deser buff_struct A).
Proof. done. Qed.
Lemma reads_vector {A} sizeof zero (op : deser buff_struct A) :
  reads_on op → reads_on (deserialize_vector sizeof zero op).
Proof.
  intros Hop v s. unfold deserialize_vector.
  assert (∀ l rc s, halts (deserialize_loop op l rc s)) as Hloop.
  { induction l as [|x l IH]; intros rc s'; [done|]. cbn [deserialize_loop].
    apply halts_bind; [destruct (rc =? 0); [apply Hop|done]|]. intros [[rc' x'] s2].
    apply halts_bind; [apply IH|]. by intros [[? ?] ?]. }
  apply halts_bind; [apply reads_int|]. intros [[rc count] s']. destruct (calloc _ _) as [[] s2].
  - apply halts_bind; [apply Hloop|]. by intros [[? ?] ?].
  - by destruct (_ && _).
Qed.
Ltac reads :=
  repeat match goal with
  | |- reads_on (deser_seq _ _) => apply reads_seq
  | |- reads_on (on_field _ _ _) => apply reads_on_field
  | |- reads_on (deserialize_vector _ _ _) => apply reads_vector
  | |- reads_on _ =>
      first [ exact reads_int | exact reads_long | exact reads_bool | exact reads_buffer | exact reads_string
            | exact (reads_mark 0) ]
  end.
Lemma reads_ReplyHeader : reads_on deserialize_ReplyHeader.
Proof. unfold deserialize_ReplyHeader. reads. Qed.
Lemma reads_WatcherEvent : reads_on deserialize_WatcherEvent.
Proof. unfold deserialize_WatcherEvent. reads. Qed.
Lemma reads_ErrorResponse : reads_on deserialize_ErrorResponse.
Proof. unfold deserialize_ErrorResponse. reads. Qed.
Lemma reads_Stat : reads_on deserialize_Stat.
Proof. unfold deserialize_Stat. reads. Qed.
Lemma reads_GetDataResponse : reads_on deserialize_GetDataResponse.
Proof. unfold deserialize_GetDataResponse, deserialize_Stat. reads. Qed.
Lemma reads_SetDataResponse : reads_on deserialize_SetDataResponse.
Proof. unfold deserialize_SetDataResponse, deserialize_Stat. reads. Qed.
Lemma reads_GetChildrenResponse : reads_on deserialize_GetChildrenResponse.
Proof. unfold deserialize_GetChildrenResponse, deserialize_String_vector. reads. Qed.
Lemma reads_GetChildren2Response : reads_on deserialize_GetChildren2Response.
Proof. unfold deserialize_GetChildren2Response, deserialize_String_vector, deserialize_Stat. reads. Qed.
Lemma reads_CreateResponse : reads_on deserialize_CreateResponse.
Proof. unfold deserialize_CreateResponse. reads. Qed.
Lemma reads_Create2Response : reads_on deserialize_Create2Response.
Proof. unfold deserialize_Create2Response, deserialize_Stat. reads. Qed.
Lemma reads_GetACLResponse : reads_on deserialize_GetACLResponse.
Proof.
  unfold deserialize_GetACLResponse, deserialize_ACL_vector, deserialize_ACL, deserialize_Id,
    deserialize_Stat. reads.
Qed.
Lemma reads_MultiHeader : reads_on deserialize_MultiHeader.
Proof. unfold deserialize_MultiHeader. reads. Qed.
End archives.
#[export] Hint Resolve steady_then steady_RequestHeader steady_ReplyHeader steady_MultiHeader
  steady_WatcherEvent steady_AuthPacket steady_SetWatches steady_GetDataRequest
  steady_SetDataRequest steady_ReconfigRequest steady_CreateRequest steady_CreateTTLRequest
  steady_SetACLRequest steady_DeleteRequest steady_CheckVersionRequest steady_ExistsRequest
  steady_GetChildrenRequest steady_GetChildren2Request steady_SyncRequest steady_GetACLRequest
  steady_RemoveWatchesRequest steady_CheckWatchesRequest reads_ReplyHeader reads_WatcherEvent
  reads_ErrorResponse reads_GetDataResponse reads_SetDataResponse reads_GetChildrenResponse
  reads_GetChildren2Response reads_CreateResponse reads_Create2Response reads_GetACLResponse
  reads_MultiHeader : halts.

(** ** The socket, paths and tables *)
Section pure.
Context `{Host}.

Lemma halts_send_buffer b script : halts (send_buffer b script).
Proof. unfold send_buffer, send_contents. halts. Qed.
Lemma flush_loop_halts fuel connected timeout : ∀ queue polls script wire stamp,
  (length queue + length polls ≤ fuel)%nat →
  halts (flush_loop fuel connected timeout queue polls script wire stamp).
Proof.
  induction fuel as [|fuel IH]; intros queue polls script wire stamp Hf; destruct queue as [|b rest];
    [done|simpl in Hf; lia|done|]. cbn [flush_loop]. destruct connected; [|done]. cbn [negb].
  destruct (Z.eqb_spec timeout 0) as [Ht|Ht]; cbn zeta iota.
  - apply halts_bind; [apply halts_send_buffer|]. intros [[[rc b'] sent] script'].
    destruct (Z.eqb_spec rc 0) as [->|Hrc]; [done|]. cbn [andb].
    destruct (Z.ltb_spec rc 0); [done|]. apply IH. rewrite (proj2 (Z.ltb_lt 0 rc)) by lia.
    simpl in Hf. lia.
  - destruct polls as [|p polls]; [done|]. destruct (timeout <? _); [done|]. destruct (_ <=? 0); [done|].
    apply halts_bind; [apply halts_send_buffer|]. intros [[[rc b'] sent] script'].
    rewrite andb_false_r. destruct (rc <? 0); [done|]. apply IH. simpl in Hf.
    destruct (0 <? rc); simpl; lia.
Qed.
Lemma halts_flush connected timeout queue polls script :
  halts (flush_send_queue connected timeout queue polls script).
Proof. by apply flush_loop_halts. Qed.
Lemma halts_copy_to d off src : halts (copy_to d off src).
Proof. unfold copy_to. halts. Qed.
Hint Resolve halts_copy_to : halts.
Lemma halts_recv_contents primer b off inp script : halts (recv_contents primer b off inp script).
Proof. unfold recv_contents. halts. Qed.
Hint Resolve halts_recv_contents : halts.
Lemma halts_recv_buffer primer b inp script o : halts (recv_buffer primer b inp script o).
Proof. unfold recv_buffer. halts. Qed.
Lemma halts_prepend_string chroot path o : halts (prepend_string chroot path o).
Proof. unfold prepend_string. halts. Qed.

Lemma halts_assert_alloc o : halts (assert_alloc o).
Proof. unfold assert_alloc. halts. Qed.
Hint Resolve halts_assert_alloc : halts.
Lemma halts_add_to_list wl wo clone o : halts (add_to_list wl wo clone o).
Proof. unfold add_to_list, clone_watcher_object. halts. Qed.
Hint Resolve halts_add_to_list : halts.
Lemma halts_copy_watchers clone : ∀ from to o, halts (copy_watchers from to clone o).
Proof. induction from as [|wo from IH]; intros to o; simpl; halts. Qed.
Lemma halts_chain_at {K V} (h : hashtable K V) i : halts (chain_at h i).
Proof. unfold chain_at. halts. Qed.
Hint Resolve halts_copy_watchers halts_chain_at : halts.
Lemma halts_search (h : zk_hashtable) k : halts (hashtable_search h k).
Proof. unfold hashtable_search. halts. Qed.
Lemma halts_remove (h : zk_hashtable) k : halts (hashtable_remove h k).
Proof. unfold hashtable_remove. halts. Qed.
Lemma halts_expand (h : zk_hashtable) o : halts (hashtable_expand h o).
Proof. unfold hashtable_expand. halts. Qed.
Hint Resolve halts_search halts_remove halts_expand : halts.
Lemma halts_insert (h : zk_hashtable) k v o : halts (hashtable_insert h k v o).
Proof. unfold hashtable_insert. halts. Qed.
Hint Resolve halts_insert : halts.
Lemma halts_insert_watcher_object h path wo o : halts (insert_watcher_object h path wo o).
Proof. unfold insert_watcher_object, do_insert_watcher_object, create_watcher_object_list. halts. Qed.
Lemma halts_containsWatcher h path w c : halts (containsWatcher h path w c).
Proof. unfold containsWatcher. halts. Qed.
Lemma halts_removeWatcher h path w c : halts (removeWatcher h path w c).
Proof. unfold removeWatcher. halts. Qed.
Lemma halts_add_for_event h path l o : halts (add_for_event h path l o).
Proof. unfold add_for_event. halts. Qed.
Hint Resolve halts_insert_watcher_object halts_containsWatcher halts_removeWatcher
  halts_add_for_event : halts.
Lemma halts_activateWatcher w reg rc o : halts (activateWatcher w reg rc o).
Proof. unfold activateWatcher, create_watcher_object. halts. Qed.
Lemma halts_removeWatchers w path type fn c : halts (removeWatchers w path type fn c).
Proof. unfold removeWatchers, remove_from. halts. Qed.
Hint Resolve halts_removeWatchers : halts.
Lemma halts_deactivateWatcher w dereg rc : halts (deactivateWatcher w dereg rc).
Proof. unfold deactivateWatcher. halts. Qed.
Lemma halts_pathHasWatcher w path type fn c : halts (pathHasWatcher w path type fn c).
Proof. unfold pathHasWatcher. halts. Qed.
Lemma halts_add_for_table t path st : halts (add_for_table t path st).
Proof. unfold add_for_table. halts. Qed.
Hint Resolve halts_add_for_table : halts.
Lemma halts_call_watchers type state path : ∀ wl, halts (call_watchers wl type state path).
Proof. induction wl as [|wo wl IH]; simpl; halts. Qed.
Hint Resolve halts_call_watchers : halts.
Lemma halts_deliverWatchers chroot type state path l o : halts (deliverWatchers chroot type state path l o).
Proof. unfold deliverWatchers, do_foreach_watcher. halts. Qed.
Lemma halts_entry_at {K V} (h : hashtable K V) it : halts (entry_at h it).
Proof. unfold entry_at. halts. Qed.
Hint Resolve halts_entry_at : halts.
Lemma halts_advance {K V} (h : hashtable K V) it : halts (hashtable_iterator_advance h it).
Proof. unfold hashtable_iterator_advance. halts. Qed.
Hint Resolve halts_advance : halts.
Lemma halts_keys_loop (h : zk_hashtable) n : ∀ it o, halts (keys_loop n h it o).
Proof. induction n as [|n IH]; intros it o; simpl; unfold hashtable_iterator_key; halts. Qed.
Hint Resolve halts_keys_loop : halts.
Lemma halts_collect_keys (h : zk_hashtable) o : halts (collect_keys h o).
Proof. unfold collect_keys. halts. Qed.
End pure.
#[export] Hint Resolve halts_flush halts_copy_to halts_recv_buffer halts_prepend_string
  halts_assert_alloc halts_add_to_list halts_copy_watchers halts_search halts_remove
  halts_insert halts_insert_watcher_object halts_removeWatchers halts_deactivateWatcher
  halts_pathHasWatcher halts_deliverWatchers halts_collect_keys : halts.

(** ** Well-formed watcher tables *)
Section tables.
Context `{Host}.
Implicit Types h : zk_hashtable.

(** A table with room for [n] more paths. *)
Definition table_ok (n : Z) h : Prop := ht_wf h ∧ entrycount h + n < 2 ^ 32.
Definition tables_ok (n : Z) (w : watches) : Prop := ∀ t, table_ok n (get_table t w).

Lemma tables_ok_put n t h w : tables_ok n w → table_ok n h → tables_ok n (put_table t h w).
Proof. intros Hw Hh t'. destruct t, t'; done || apply (Hw NodeTable) || apply (Hw ExistTable) || apply (Hw ChildTable). Qed.

Lemma table_ok_remove n h path v h' :
  table_ok n h → hashtable_remove h path = Ret (v, h') → table_ok n h'.
Proof.
  intros [Hwf Hn] E. destruct (hashtable_remove_spec h path Hwf) as [(v' & h2 & e & E2 & Hwf2 & Hp & _)|[E2 _]];
    rewrite E2 in E; injection E as <- <-; [|done].
  split; [done|]. rewrite (wf_count _ Hwf), Hp in Hn. rewrite (wf_count _ Hwf2). simpl in Hn. lia.
Qed.
Lemma table_ok_insert n h path v o rc h' o' : 0 ≤ n →
  table_ok (n + 1) h → hashtable_insert h path v o = Ret (rc, h', o') → table_ok n h'.
Proof.
  intros Hn0 [Hwf Hn] E.
  destruct (hashtable_insert_spec h path v o Hwf) as [(h2 & o2 & E2 & Hwf2 & Hp & _)|
    [(h2 & o2 & E2 & Hwf2 & Hp & _)|[E2 _]]]; [lia|rewrite E2 in E; simplify_eq..];
    (split; [done|]); rewrite (wf_count _ Hwf) in Hn; rewrite (wf_count _ Hwf2), Hp; simpl; lia.
Qed.
Lemma Forall_assign_chain (P : cstring → Z → Prop) k x v (c : list (entry cstring watcher_list)) :
  Forall (λ e, P (e_k e) (e_h e)) c → Forall (λ e, P (e_k e) (e_h e)) (assign_chain k x v c).
Proof.
  induction 1 as [|e c He Hc IH]; simpl; [done|]. destruct (matches k x e); by constructor.
Qed.
Lemma length_assign_chain k x v (c : list (entry cstring watcher_list)) :
  length (assign_chain k x v c) = length c.
Proof. induction c as [|e c IH]; simpl; [done|]. destruct (matches k x e); simpl; congruence. Qed.
Lemma length_concat_insert {A} (t : list (list A)) i c c' :
  t !! i = Some c → length c' = length c → length (concat (<[i := c']> t)) = length (concat t).
Proof.
  revert i. induction t as [|d t IH]; intros [|i] Hi Hl; simplify_eq/=; rewrite !length_app; [lia|].
  by rewrite (IH i).
Qed.
Lemma table_ok_assign n h path v : table_ok n h → table_ok n (assign_found h path v).
Proof.
  intros [Hwf Hn]. unfold assign_found. destruct (table h !! _) as [c|] eqn:Hc; [|done].
  set (i := Z.to_nat (indexFor (tablelength h) (hash path))) in *.
  split; [|done]. split; simpl; try apply Hwf.
  - rewrite length_insert. apply Hwf.
  - unfold entries. simpl. rewrite (length_concat_insert _ _ c) by (done || apply length_assign_chain).
    apply (wf_count _ Hwf).
  - intros j cj. destruct (decide (i = j)) as [<-|Hne].
    + rewrite list_lookup_insert_eq by (by eapply lookup_lt_Some). intros [= <-].
      apply (Forall_assign_chain (λ k x, x = hash k ∧ Z.to_nat (indexFor (tablelength h) x) = i)).
      apply (wf_placed _ Hwf i c Hc).
    + rewrite list_lookup_insert_ne by done. apply Hwf.
Qed.

(** Copying a table stops after its last entry. *)
Lemma copy_table_loop_halts h fuel : sized h → ∀ itr pre e post to o,
  at_entry h itr pre e post → (length post < fuel)%nat → halts (copy_table_loop fuel h itr to o).
Proof.
  intros Hs. induction fuel as [|fuel IH]; intros itr pre e post to o Hat Hf; [lia|].
  cbn [copy_table_loop]. unfold hashtable_iterator_value. rewrite (entry_at_spec _ _ _ _ _ Hat). run.
  apply halts_bind; [apply halts_copy_watchers|]. intros [to' o'].
  pose proof (hashtable_iterator_advance_spec h itr pre e post Hs Hat) as Ha.
  destruct post as [|e' post]; [by destruct Ha as (itr' & ->)|].
  destruct Ha as (itr' & -> & Hat'). run. simpl in Hf. eapply IH; [done|lia].
Qed.
Lemma halts_copy_table n h to o : table_ok n h → halts (copy_table h to o).
Proof.
  intros [Hwf _]. unfold copy_table, hashtable_count. destruct (Z.eqb_spec (entrycount h) 0) as [|Hne]; [done|].
  destruct (hashtable_iterator h o) as [[itr|] o'] eqn:E; [|done].
  destruct (hashtable_iterator_spec h o Hwf) as (itr' & o2 & E2 & Hat).
  { unfold hashtable_iterator in E. by destruct (alloc o) as [[] ?]. }
  rewrite E in E2. injection E2 as <- <-. rewrite (wf_count _ Hwf) in Hne |- *.
  destruct (entries h) as [|e post] eqn:Ee; [done|].
  eapply copy_table_loop_halts; [by apply wf_sized|done|]. simpl. lia.
Qed.

(** The operations on the three tables: they stop, and keep the tables in order. *)
Definition keeps (n : Z) {A} (tabs : A → watches) (o : outcome A) : Prop :=
  match o with Ret a => tables_ok n (tabs a) | Loop => False | _ => True end.
Lemma keeps_bind n {A B} (tabs : A → watches) (tabs' : B → watches) m f :
  keeps n tabs m → (∀ a, tables_ok n (tabs a) → keeps n tabs' (f a)) → keeps n tabs' (m ≫= f).
Proof. destruct m; [|done..]. intros Hm Hf. by apply Hf. Qed.
Lemma keeps_halts n {A B} (tabs : B → watches) (m : outcome A) f :
  halts m → (∀ a, m = Ret a → keeps n tabs (f a)) → keeps n tabs (m ≫= f).
Proof. destruct m; [|done..]. intros _ Hf. by apply Hf. Qed.

Lemma keeps_add_for_table n t path w l o : tables_ok n w →
  keeps n (λ st, st.1.1) (add_for_table t path (w, l, o)).
Proof.
  intros Hw. unfold add_for_table, add_for_event.
  apply keeps_halts; [by halts|]. intros [[h' l'] o'] E. simpl.
  apply tables_ok_put; [done|]. apply bind_Ret_inv in E as ([wl h2] & E1 & E).
  assert (h' = h2) as ->.
  { destruct wl as [wl|]; [|by injection E as <- <- <-].
    apply bind_Ret_inv in E as ([l2 o2] & _ & E). by injection E as <- <- <-. }
  by eapply table_ok_remove.
Qed.
Lemma keeps_collectWatchers n w type path o : tables_ok n w →
  keeps n (λ st, st.1.1) (collectWatchers w type path o).
Proof.
  intros Hw. unfold collectWatchers, create_watcher_object_list.
  apply keeps_halts; [by halts|]. intros [l o1] _.
  destruct (type =? ZOO_SESSION_EVENT).
  { apply keeps_halts; [apply halts_add_to_list|]. intros [[rc l1] o2] _.
    unfold collect_session_watchers.
    apply keeps_halts; [|by intros [l2 o3] _].
    apply halts_bind; [apply (halts_copy_table n), (Hw NodeTable)|]. intros [l2 o3].
    apply halts_bind; [apply (halts_copy_table n), (Hw ExistTable)|]. intros [l3 o4].
    apply (halts_copy_table n), (Hw ChildTable). }
  destruct (_ || _).
  { eapply keeps_bind; [by apply keeps_add_for_table|]. intros [[w1 l1] o2] Hw1.
    by apply keeps_add_for_table. }
  destruct (_ =? CHILD_EVENT_DEF); [by apply keeps_add_for_table|].
  destruct (_ =? DELETED_EVENT_DEF); [|done].
  eapply keeps_bind; [by apply keeps_add_for_table|]. intros [[w1 l1] o2] Hw1.
  eapply keeps_bind; [by apply keeps_add_for_table|]. intros [[w2 l2] o3] Hw2.
  by apply keeps_add_for_table.
Qed.
Lemma tables_ok_weaken n w : tables_ok (n + 1) w → tables_ok n w.
Proof. intros Hw t. destruct (Hw t) as [Hwf Hn]. split; [done|lia]. Qed.
Lemma keeps_activateWatcher n w reg rc o : 0 ≤ n → tables_ok (n + 1) w →
  keeps n (λ st, st.1) (activateWatcher w reg rc o).
Proof.
  intros Hn Hw. unfold activateWatcher, create_watcher_object, insert_watcher_object,
    do_insert_watcher_object, create_watcher_object_list.
  destruct reg as [reg|]; [|by apply tables_ok_weaken].
  destruct (run_checker _ _) as [t|]; [|by apply tables_ok_weaken].
  apply keeps_halts; [by halts|]. intros [wo o1] _.
  apply keeps_halts; [apply halts_insert_watcher_object|]. intros [[res h'] o2] E. simpl.
  apply tables_ok_put; [by apply tables_ok_weaken|].
  apply bind_Ret_inv in E as (wl & _ & E). destruct wl as [wl|].
  - apply bind_Ret_inv in E as ([[r2 wl2] o3] & _ & E). injection E as <- <- <-.
    apply table_ok_assign. by apply tables_ok_weaken.
  - destruct (strdup _ _) as [[key|] o3]; apply bind_Ret_inv in E as ([wl2 o4] & _ & E); [|done].
    apply bind_Ret_inv in E as ([[r2 h2] o5] & E1 & E). destruct (r2 =? 0); [done|].
    injection E as <- <- <-. by eapply table_ok_insert.
Qed.
Lemma keeps_remove_from n t path fn c w : tables_ok n w → keeps n id (remove_from t path fn c w).
Proof.
  intros Hw. unfold remove_from. apply keeps_halts; [apply halts_removeWatcher|]. intros h' E.
  apply (tables_ok_put n t h' w); [done|]. unfold removeWatcher in E.
  apply bind_Ret_inv in E as (wl & _ & E). destruct wl as [wl|]; [|by injection E as <-].
  destruct (fn =? 0).
  { apply bind_Ret_inv in E as ([v h2] & E1 & E). injection E as <-. by eapply table_ok_remove. }
  destruct (removeWatcherFromList _ _ _); [|injection E as <-; by apply table_ok_assign].
  apply bind_Ret_inv in E as ([v h2] & E1 & E). injection E as <-.
  eapply table_ok_remove; [|done]. by apply table_ok_assign.
Qed.
Lemma keeps_removeWatchers n w path type fn c : tables_ok n w →
  keeps n id (removeWatchers w path type fn c).
Proof.
  intros Hw. unfold removeWatchers. destruct (_ =? ZWATCHTYPE_CHILD); [by apply keeps_remove_from|].
  destruct (_ =? ZWATCHTYPE_DATA).
  { eapply keeps_bind; [by apply keeps_remove_from|]. intros w1 Hw1. by apply keeps_remove_from. }
  destruct (_ =? ZWATCHTYPE_ANY); [|done].
  eapply keeps_bind; [by apply keeps_remove_from|]. intros w1 Hw1.
  eapply keeps_bind; [by apply keeps_remove_from|]. intros w2 Hw2. by apply keeps_remove_from.
Qed.
Lemma keeps_deactivateWatcher n w dereg rc : tables_ok n w → keeps n id (deactivateWatcher w dereg rc).
Proof.
  intros Hw. unfold deactivateWatcher. destruct (negb _); [done|]. destruct dereg; [|done].
  by apply keeps_removeWatchers.
Qed.
End tables.

(** ** The session *)
Abbreviation tables s := (zh_watches (s_zh s)).
Abbreviation packets s := (length (zh_to_process (s_zh s))).

(** Code that stops, leaves the tables alone and receives no packet. *)
Definition calm {A} (m : M A) : Prop := ∀ s,
  match m s with
  | Ret (_, s') => tables s' = tables s ∧ (packets s' ≤ packets s)%nat
  | Loop => False
  | _ => True
  end.
Lemma calm_ret {A} (a : A) : calm (mret a).
Proof. done. Qed.
Lemma calm_bind {A B} (m : M A) (f : A → M B) : calm m → (∀ a, calm (f a)) → calm (m ≫= f).
Proof.
  intros Hm Hf s. specialize (Hm s). unfold mbind, M_bind. destruct (m s) as [[a s1]| | |]; [|done..].
  destruct Hm as [Ht Hp]. specialize (Hf a s1). cbn [mbind outcome_bind].
  destruct (f a s1) as [[b s2]| | |]; [|done..]. destruct Hf as [Ht2 Hp2]. split; [congruence|lia].
Qed.
Lemma calm_get {A} (f : zhandle → A) : calm (get f).
Proof. done. Qed.
Lemma calm_modify f : (∀ zh, zh_watches (f zh) = zh_watches zh) →
  (∀ zh, (length (zh_to_process (f zh)) ≤ length (zh_to_process zh))%nat) → calm (modify f).
Proof. intros Hw Hp s. split; [apply Hw|apply Hp]. Qed.
Lemma calm_askw {A} (f : world → A) : calm (askw f).
Proof. done. Qed.
Lemma calm_modifyw f : calm (modifyw f).
Proof. done. Qed.
Lemma calm_lift {A} (m : outcome A) : halts m → calm (lift m).
Proof. intros Hm s. unfold lift. by destruct m. Qed.
Lemma calm_raise {A} (m : outcome A) : halts m → calm (raise m).
Proof. apply calm_lift. Qed.
Lemma calm_allocating {A} (f : allocs → outcome (A * allocs)) : (∀ o, halts (f o)) → calm (allocating f).
Proof.
  intros Hf s. unfold allocating. specialize (Hf (w_alloc (s_world s))).
  destruct (f _) as [[a o]| | |]; done.
Qed.
Lemma calm_get_system_time : calm get_system_time.
Proof. intros s. unfold get_system_time. by destruct (w_clock _). Qed.

Create HintDb calm.
#[export] Hint Resolve calm_ret calm_get calm_askw calm_modifyw calm_get_system_time : calm.
Ltac calm_step :=
  match goal with
  | |- calm (_ ≫= _) => apply calm_bind; [|intros ?]
  | |- calm (modify _) => apply calm_modify; [reflexivity|intros ?; simpl; lia]
  | |- calm (lift _) => apply calm_lift; by halts
  | |- calm (raise _) => apply calm_raise; by halts
  | |- calm (allocating _) => apply calm_allocating; intros ?; by halts
  | |- calm (match ?x with _ => _ end) => destruct x
  | |- _ => solve [eauto 3 with calm halts nocore]
  end.
Ltac calm := repeat calm_step.

Section calm.
Context `{Host, Locals}.

Lemma calm_call fn c : calm (call fn c).
Proof. unfold call. calm. Qed.
Hint Resolve calm_call : calm.
Lemma calm_get_xid : calm get_xid.
Proof. single_threaded. calm. Qed.
Lemma calm_call_auth_completions l rc : calm (call_auth_completions l rc).
Proof. induction l as [|[fn d] l IH]; simpl; calm. Qed.
Hint Resolve calm_get_xid calm_call_auth_completions : calm.
Lemma halts_get_auth_completions l : ∀ a o, halts (get_auth_completions l a o).
Proof. induction l as [|x l IH]; intros a o; simpl; unfold add_auth_completion; halts. Qed.
Hint Resolve halts_get_auth_completions : halts.
Lemma calm_notify_auth rc : calm (notify_auth rc).
Proof. unfold notify_auth. calm. Qed.
Lemma calm_do_create_completion_entry xid t dc data wo cl wdo :
  calm (do_create_completion_entry xid t dc data wo cl wdo).
Proof. unfold do_create_completion_entry. calm. Qed.
Lemma calm_do_add_completion dc c front : calm (do_add_completion dc c front).
Proof. unfold do_add_completion. calm. Qed.
Hint Resolve calm_notify_auth calm_do_create_completion_entry calm_do_add_completion : calm.
Lemma calm_queue_bytes front buff len : calm (queue_bytes front buff len).
Proof. unfold queue_bytes. calm. Qed.
Lemma calm_adaptor_send_queue timeout : calm (adaptor_send_queue timeout).
Proof. single_threaded. calm. Qed.
Lemma calm_flush_send_queue timeout : calm (zh_flush_send_queue timeout).
Proof. unfold zh_flush_send_queue. calm. Qed.
Lemma oarchive_positive o oa : create_buffer_oarchive o = Some oa → 0 < bs_len oa.
Proof.
  unfold create_buffer_oarchive. intros E. destruct (alloc o) as [[] o1]; [|done]. cbn [negb] in E.
  destruct (alloc o1) as [[] o2]; [|done]. cbn [negb] in E. destruct (alloc o2). by injection E as <-.
Qed.
Lemma calm_marshal ser : steady ser → calm (marshal ser).
Proof.
  intros Hs. unfold marshal. apply calm_allocating. intros o.
  destruct (create_buffer_oarchive o) as [oa|] eqn:E; [|done].
  apply halts_bind; [|by intros []]. specialize (Hs oa (oarchive_positive _ _ E)). by destruct (ser oa).
Qed.
Lemma calm_unless_failed rc m : calm m → calm (unless_failed rc m).
Proof. intros. unfold unless_failed. calm. Qed.
Lemma calm_reading {A} (op : deser buff_struct A) v ia : reads_on op → calm (reading op v ia).
Proof.
  intros Hr. unfold reading. apply calm_allocating. intros o. apply halts_bind; [apply Hr|].
  by intros [[? ?] ?].
Qed.
Hint Resolve calm_queue_bytes calm_adaptor_send_queue calm_flush_send_queue calm_marshal calm_unless_failed
  calm_reading : calm.
Lemma calm_parse {A} (op : deser buff_struct A) junk ia : reads_on op → calm (parse op junk ia).
Proof. intros. unfold parse. calm. Qed.
Lemma calm_client_path p : calm (client_path p).
Proof. unfold client_path. calm. Qed.
Lemma calm_need ia : calm (need ia).
Proof. unfold need. calm. Qed.
Hint Resolve calm_parse calm_client_path calm_need : calm.
Lemma calm_deserialize_response cptr : ∀ type xid failed rc ia,
  calm (deserialize_response type xid failed rc cptr ia).
Proof.
  revert cptr. fix IH 1. intros [cx ct cr cw clist cd cb cwr cdr] type xid failed rc ia.
  cbn [deserialize_response c_result c_data c_clist].
  match goal with |- context [if failed then ?f clist ;; _ else _] => set (fail_all := f) end.
  match goal with |- context [?f clist 0 _ _] => set (multi_loop := f) end.
  assert (calm (fail_all clist)) as Hfail.
  { induction clist as [|c clist IHl]; [apply calm_ret|].
    apply calm_bind; [apply IH|intros _; exact IHl]. }
  assert (∀ rc mhdr ia, calm (multi_loop clist rc mhdr ia)) as Hmulti.
  { clear Hfail. induction clist as [|c clist IHl]; intros rc' mhdr ia'; cbn [multi_loop];
      destruct (negb _); [apply calm_ret|by apply calm_raise|apply calm_ret|].
    apply calm_bind; [by calm|intros [[rc'' err] ia'']].
    apply calm_bind; [apply IH|intros ia3]. apply calm_bind; [by calm|intros ia4].
    apply calm_bind; [by calm|intros [[? mhdr'] ia5]]. apply IHl. }
  clearbody fail_all multi_loop. clear IH. calm.
Qed.
Hint Resolve calm_deserialize_response : calm.
Lemma calm_open_archive b len : calm (open_archive b len).
Proof. unfold open_archive. calm. Qed.
Hint Resolve calm_open_archive : calm.
Lemma calm_process_completion c : calm (process_completion c).
Proof. unfold process_completion. calm. Qed.
Hint Resolve calm_process_completion : calm.
Lemma calm_completions_loop queue : calm (completions_loop queue).
Proof. induction queue as [|c queue IH]; simpl; calm. Qed.
Hint Resolve calm_completions_loop : calm.
Lemma calm_process_completions_if_async : calm process_completions_if_async.
Proof. unfold process_completions_if_async, process_completions. calm. Qed.
Lemma calm_queue_completion c : calm (queue_completion c).
Proof. unfold queue_completion. calm. Qed.
Hint Resolve calm_process_completions_if_async calm_queue_completion : calm.
Lemma calm_abort : calm abort_singlethreaded.
Proof. apply calm_raise. discriminate. Qed.
Hint Resolve calm_abort : calm.
Lemma calm_fake_responses l call rc : calm (fake_responses l call rc).
Proof. induction l as [|c l IH]; simpl; calm. Qed.
Hint Resolve calm_fake_responses : calm.
Lemma calm_free_completions call rc : calm (free_completions call rc).
Proof. unfold free_completions. calm. Qed.
Hint Resolve calm_free_completions : calm.
Lemma calm_cleanup_bufs call rc : calm (cleanup_bufs call rc).
Proof. unfold cleanup_bufs. calm. Qed.
Lemma calm_set_fd fd : calm (set_fd fd).
Proof. unfold set_fd. calm. Qed.
Lemma calm_set_state st : calm (set_state st).
Proof. unfold set_state. calm. Qed.
Hint Resolve calm_cleanup_bufs calm_set_fd calm_set_state : calm.
Lemma calm_send_info_packet a : calm (send_info_packet a).
Proof. unfold send_info_packet, queue_front_buffer_bytes. calm. Qed.
Hint Resolve calm_send_info_packet : calm.
Lemma calm_send_infos auths : ∀ rc, calm (send_infos auths rc).
Proof. induction auths as [|a auths IH]; intros rc; simpl; calm. Qed.
Hint Resolve calm_send_infos : calm.
Lemma calm_send_auth_info : calm send_auth_info.
Proof. unfold send_auth_info. calm. Qed.
Lemma calm_send_last_auth_info : calm send_last_auth_info.
Proof. unfold send_last_auth_info. calm. Qed.
Lemma calm_watched t : calm (watched t).
Proof. unfold watched. calm. Qed.
Hint Resolve calm_watched : calm.
Lemma calm_send_set_watches : calm send_set_watches.
Proof. unfold send_set_watches, queue_front_buffer_bytes. calm. Qed.
Lemma calm_send_ping : calm send_ping.
Proof. unfold send_ping, queue_buffer_bytes. calm. Qed.
Lemma calm_send data : calm (send data).
Proof. unfold send. calm. Qed.
Hint Resolve calm_send_auth_info calm_send_set_watches calm_send_ping calm_send : calm.
Lemma halts_serialize_prime_connect req buffer : halts (serialize_prime_connect req buffer).
Proof. unfold serialize_prime_connect. halts. Qed.
Lemma halts_copy_from src off n : halts (copy_from src off n).
Proof. unfold copy_from. halts. Qed.
Hint Resolve halts_serialize_prime_connect halts_copy_from : halts.
Lemma halts_deserialize_prime_response buffer : halts (deserialize_prime_response buffer).
Proof. unfold deserialize_prime_response. halts. Qed.
Hint Resolve halts_deserialize_prime_response : halts.
Lemma calm_recv_input : calm recv_input.
Proof. unfold recv_input. calm. Qed.
Lemma halts_addrvec_next a : halts (addrvec_next a).
Proof. unfold addrvec_next, data_at. halts. Qed.
Hint Resolve calm_recv_input halts_addrvec_next : calm halts.
Lemma calm_auth_completion_func rc : calm (auth_completion_func rc).
Proof. unfold auth_completion_func. calm. Qed.
Hint Resolve calm_auth_completion_func : calm.
Lemma calm_destroy : calm destroy.
Proof. unfold destroy. calm. Qed.
Hint Resolve calm_destroy : calm.
Lemma calm_close_session : calm close_session.
Proof. unfold close_session, queue_buffer_bytes. calm. Qed.
Hint Resolve calm_close_session : calm.
Lemma calm_api_prolog : calm api_prolog.
Proof. unfold api_prolog, inc_ref_counter. calm. Qed.
Lemma calm_api_epilog rc : calm (api_epilog rc).
Proof. unfold api_epilog, inc_ref_counter. calm. Qed.
Hint Resolve calm_api_prolog calm_api_epilog : calm.
Lemma calm_zookeeper_close : calm zookeeper_close.
Proof. unfold zookeeper_close, inc_ref_counter. calm. Qed.
End calm.
#[export] Hint Resolve calm_call calm_get_xid calm_notify_auth calm_do_create_completion_entry
  calm_do_add_completion calm_queue_bytes calm_adaptor_send_queue calm_flush_send_queue calm_marshal
  calm_unless_failed calm_reading calm_parse calm_open_archive calm_process_completions_if_async
  calm_queue_completion calm_cleanup_bufs calm_set_fd calm_set_state calm_send_auth_info
  calm_send_last_auth_info calm_send_set_watches calm_send_ping calm_send calm_recv_input
  calm_auth_completion_func calm_destroy calm_api_prolog calm_api_epilog
  calm_zookeeper_close : calm.
#[export] Hint Resolve halts_serialize_prime_connect halts_copy_from
  halts_deserialize_prime_response halts_addrvec_next : halts.
