(* ===== verification/TerminationTheorems.v ===== *)
(** * Theorems about termination

    The functions of the session that change the watcher tables, [zookeeper_interest], the
    requests and the whole library: every call stops. *)

From Stdlib Require Import Floats.SpecFloat.
From S2P Require Import Prelude RecordIO Jute Hashtable HashtableFacts Path PathFacts Watchers.
From S2P Require Import WatchersFacts WatchersTheorems Addrvec Hosts HostsTheorems Handshake Transport.
From S2P Require Import Handle Session Requests SessionFacts SessionTheorems Interest InterestTheorems Init.
From S2P Require Import Triples Invariant StateTheorems Termination.
Local Open Scope Z_scope.

(** Code that stops and uses up at most the room of [n - n'] paths in the tables, and
    receives at most [k] packets. *)
Definition orderly `{Host} {A} (n n' : Z) (k : nat) (m : M A) : Prop := ∀ s,
  tables_ok n (tables s) →
  match m s with
  | Ret (_, s') => tables_ok n' (tables s') ∧ (packets s' ≤ packets s + k)%nat
  | Loop => False
  | _ => True
  end.

Section orderly.
Context `{Host, Locals}.

Lemma orderly_calm {A} n (m : M A) : calm m → orderly n n 0 m.
Proof.
  intros Hm s Hs. specialize (Hm s). destruct (m s) as [[a s']| | |]; [|done..].
  destruct Hm as [-> Hp]. split; [done|lia].
Qed.
Lemma orderly_bind {A B} n n' n'' k k' (m : M A) (f : A → M B) :
  orderly n n' k m → (∀ a, orderly n' n'' k' (f a)) → orderly n n'' (k + k') (m ≫= f).
Proof.
  intros Hm Hf s Hs. specialize (Hm s Hs). unfold mbind, M_bind. destruct (m s) as [[a s1]| | |]; [|done..].
  destruct Hm as [Ht Hp]. specialize (Hf a s1 Ht). cbn [mbind outcome_bind].
  destruct (f a s1) as [[b s2]| | |]; [|done..]. destruct Hf as [Ht2 Hp2]. split; [done|lia].
Qed.
Lemma orderly_step {A B} n n' k (m : M A) (f : A → M B) :
  calm m → (∀ a, orderly n n' k (f a)) → orderly n n' k (m ≫= f).
Proof. intros Hm Hf. apply (orderly_bind n n n' 0 k); [by apply orderly_calm|done]. Qed.
Lemma orderly_more {A} n n' k k' (m : M A) : (k ≤ k')%nat → orderly n n' k m → orderly n n' k' m.
Proof.
  intros Hk Hm s Hs. specialize (Hm s Hs). destruct (m s) as [[a s']| | |]; [|done..].
  destruct Hm. split; [done|lia].
Qed.

Ltac orderly :=
  repeat match goal with
  | |- orderly _ _ _ (_ ≫= _) => apply orderly_step; [by calm|intros ?]
  | |- orderly _ _ _ (match ?x with _ => _ end) => destruct x
  | |- orderly ?n ?n 0 _ => apply orderly_calm; by calm
  end.

Lemma orderly_collectWatchers n type path : orderly n n 0 (zh_collectWatchers type path).
Proof.
  intros s Hs. unfold zh_collectWatchers, mbind, M_bind, get, allocating. cbn [mbind outcome_bind].
  pose proof (keeps_collectWatchers n (tables s) type path (w_alloc (s_world s)) Hs) as Hk.
  destruct (collectWatchers _ _ _ _) as [[[w l] o]| | |]; [|done..]. cbn. split; [exact Hk|lia].
Qed.
Lemma orderly_queue_session_event n state : orderly n n 0 (queue_session_event state).
Proof.
  unfold queue_session_event. apply orderly_step.
  { apply calm_allocating. intros o. destruct (create_buffer_oarchive o) as [oa|] eqn:E; [|done].
    apply halts_bind; [|by intros []].
    assert (steady (ser_then (serialize_ReplyHeader (mk_ReplyHeader WATCHER_EVENT_XID 0 0))
      (serialize_WatcherEvent (mk_WatcherEvent ZOO_SESSION_EVENT state (Some []))))) as Hst
      by eauto with halts.
    specialize (Hst oa (oarchive_positive _ _ E)). unfold halts. by destruct (ser_then _ _ oa). }
  intros [oa|]; [|by orderly]. orderly.
  apply (orderly_bind n n n 0 0); [apply orderly_collectWatchers|]. intros l. orderly.
Qed.
Lemma orderly_cleanup n rc : orderly n n 0 (cleanup rc).
Proof.
  unfold cleanup. do 3 (apply orderly_step; [by calm|intros ?]).
  apply (orderly_bind n n n 0 0); [|intros ?; by orderly].
  destruct a; [|destruct a0; [|by orderly]];
    (apply (orderly_bind n n n 0 0); [apply orderly_queue_session_event|intros ?; by orderly]).
Qed.
Lemma orderly_handle_error n rc : orderly n n 0 (handle_error rc).
Proof.
  unfold handle_error. apply (orderly_bind n n n 0 0); [apply orderly_cleanup|intros ?].
  orderly.
Qed.
Lemma orderly_error_msg n rc : orderly n n 0 (handle_socket_error_msg rc).
Proof.
  unfold handle_socket_error_msg. apply (orderly_bind n n n 0 0); [apply orderly_handle_error|].
  intros ?. orderly.
Qed.
Lemma orderly_prime_connection n : orderly n n 0 prime_connection.
Proof.
  unfold prime_connection. do 8 (apply orderly_step; [by calm|intros ?]).
  orderly. apply orderly_error_msg.
Qed.
Lemma orderly_finish_handshake n : orderly n n 0 finish_handshake.
Proof.
  unfold finish_handshake. apply orderly_step; [by calm|intros b]. destruct (bl_buffer b); [|by orderly].
  apply orderly_step; [by calm|intros [? p]]. do 4 (apply orderly_step; [by calm|intros ?]).
  destruct (_ && _); [apply orderly_step; [by calm|intros ?; apply orderly_error_msg]|].
  do 9 (apply orderly_step; [by calm|intros ?]).
  apply (orderly_bind n n n 0 0); [apply orderly_queue_session_event|]. intros ?. orderly.
Qed.
Lemma orderly_read_event n : orderly n n 1 read_event.
Proof.
  unfold read_event. do 3 (apply orderly_step; [by calm|intros ?]).
  destruct (_ <? 0); [by apply (orderly_more n n 0); [lia|apply orderly_error_msg]|].
  destruct (0 <? _); [|by apply (orderly_more n n 0); [lia|orderly]].
  do 3 (apply orderly_step; [by calm|intros ?]). destruct a4 as [| |b].
  - apply (orderly_more n n 0); [lia|orderly].
  - apply (orderly_more n n 0); [lia|apply orderly_finish_handshake].
  - apply (orderly_bind n n n 1 0); [|intros ?; by orderly]. intros s Hs. simpl. split; [done|].
    rewrite length_app. simpl. lia.
Qed.
Lemma orderly_check_events n events : orderly n n 1 (check_events events).
Proof.
  assert (∀ A (m : M A), orderly n n 0 m → orderly n n 1 m) as Hmore
    by (intros A m; apply orderly_more; lia).
  unfold check_events. apply orderly_step; [by calm|intros fd]. destruct (fd =? -1); [by apply Hmore; orderly|].
  apply orderly_step; [by calm|intros state]. destruct (_ && _).
  - apply orderly_step; [by calm|intros []]; apply Hmore; [apply orderly_error_msg|apply orderly_prime_connection].
  - do 2 (apply orderly_step; [by calm|intros ?]). destruct (_ <? 0); [apply Hmore, orderly_error_msg|].
    destruct (event _ _); [apply orderly_read_event|by apply Hmore; orderly].
Qed.

(** ** Packets *)
Lemma orderly_weaken {A} n k (m : M A) : orderly n n k m → orderly (n + 1) n k m.
Proof. intros Hm s Hs. by apply Hm, tables_ok_weaken. Qed.
Lemma orderly_process_response n hdr b ia : 0 ≤ n → orderly (n + 1) n 0 (process_response hdr b ia).
Proof.
  intros Hn. unfold process_response. do 2 (apply orderly_step; [by calm|intros ?]).
  destruct a as [|cptr requests]; [by apply orderly_weaken; orderly|].
  apply orderly_step; [by calm|intros ?]. destruct (negb _).
  { apply orderly_weaken, orderly_step; [by calm|intros ?].
    apply (orderly_bind n n n 0 0); [apply orderly_error_msg|]. intros ?. orderly. }
  apply orderly_step; [by calm|intros ?].
  intros s Hs. unfold mbind, M_bind, get, allocating. cbn [mbind outcome_bind].
  pose proof (keeps_activateWatcher n (tables s) (c_watcher cptr) (ReplyHeader_err hdr)
    (w_alloc (s_world s)) Hn Hs) as Hk.
  destruct (activateWatcher _ _ _ _) as [[w o]| | |]; [|done..]. cbn [mbind outcome_bind] in *.
  unfold lift. pose proof (keeps_deactivateWatcher n w (c_deregistration cptr) (ReplyHeader_err hdr) Hk) as Hd.
  destruct (deactivateWatcher _ _ _) as [w2| | |]; [|done..]. cbn. destruct (negb _); [|done].
  split; [exact Hd|]. cbn. lia.
Qed.
Lemma orderly_process_packet n b : 0 ≤ n → orderly (n + 1) n 0 (process_packet b).
Proof.
  intros Hn. unfold process_packet. apply orderly_step; [by calm|intros ia].
  apply orderly_step; [by calm|intros [hdr ia']].
  destruct (_ =? PING_XID); [by apply orderly_weaken; orderly|].
  destruct (_ =? WATCHER_EVENT_XID).
  { apply orderly_weaken. unfold process_watcher_event. apply orderly_step; [by calm|intros [evt ?]].
    apply orderly_step; [by calm|intros [c|]]; [|by orderly]. destruct (WatcherEvent_path evt); [|by orderly].
    apply (orderly_bind n n n 0 0); [apply orderly_collectWatchers|]. intros ?. orderly. }
  destruct (_ =? SET_WATCHES_XID); [by apply orderly_weaken; orderly|].
  destruct (_ =? AUTH_XID); [|by apply orderly_process_response].
  apply orderly_weaken. unfold process_auth. do 2 (apply orderly_step; [by calm|intros ?]).
  destruct a0; [|by orderly]. apply (orderly_bind n n n 0 0); [apply orderly_handle_error|].
  intros ?. orderly.
Qed.
Lemma orderly_packets_loop queue : ∀ n, 0 ≤ n →
  ∃ k, orderly (n + Z.of_nat (length queue)) n k (packets_loop queue).
Proof.
  induction queue as [|b queue IH]; intros n Hn; cbn [packets_loop length].
  { exists 0%nat. rewrite Z.add_0_r. orderly. }
  destruct (IH n Hn) as [k Hk]. exists (length queue + (0 + k))%nat.
  replace (n + Z.of_nat (S (length queue))) with (n + Z.of_nat (length queue) + 1) by lia.
  apply (orderly_bind _ (n + Z.of_nat (length queue) + 1)).
  { intros s Hs. simpl. split; [done|lia]. }
  intros _. apply (orderly_bind _ (n + Z.of_nat (length queue))); [by apply orderly_process_packet; lia|].
  intros [|rc]; [done|]. intros s Hs. simpl. split; [|lia].
  intros t. destruct (Hs t) as [Hwf Hsm]. split; [done|lia].
Qed.

(** [zookeeper_process] on a handle with [1 + packets s] more free places in its tables. *)
Lemma zookeeper_process_orderly n events s : 0 ≤ n →
  tables_ok (n + Z.of_nat (packets s) + 1) (tables s) →
  match zookeeper_process events s with
  | Ret (_, s') => tables_ok n (tables s') | Loop => False | _ => True
  end.
Proof.
  intros Hn Hs. unfold zookeeper_process. rewrite M_bind_eq, get_eq. run.
  assert (∀ n' w, n ≤ n' → tables_ok n' w → tables_ok n w) as Hweak.
  { intros n' w Hn' Hw t. destruct (Hw t). split; [done|lia]. }
  destruct (is_unrecoverable _); [simpl; eapply Hweak, Hs; lia|].
  assert (∀ (m : M Z) s', calm m → tables_ok n (tables s') → match m s' with
    Ret (_, s2) => tables_ok n (tables s2) | Loop => False | _ => True end) as Hcalm.
  { intros m s' Hm Hs'. specialize (Hm s'). destruct (m s') as [[a s2]| | |]; [|done..].
    destruct Hm as [-> _]. done. }
  rewrite M_bind_eq. pose proof (calm_api_prolog s) as Hp. destruct (api_prolog s) as [[u s1]| | |]; [|done..].
  destruct Hp as [Ht1 Hp1]. run. rewrite M_bind_eq. rewrite <-Ht1 in Hs.
  pose proof (orderly_check_events _ events s1 Hs) as Hc.
  destruct (check_events events s1) as [[rc s2]| | |]; [|done..]. destruct Hc as [Ht2 Hp2]. run.
  destruct (negb _); [apply Hcalm; [apply calm_api_epilog|eapply Hweak, Ht2; lia]|].
  rewrite M_bind_eq, get_eq. run. rewrite M_bind_eq.
  destruct (orderly_packets_loop (zh_to_process (s_zh s2)) n Hn) as [k Hk].
  assert (tables_ok (n + Z.of_nat (packets s2)) (tables s2)) as Ht2'.
  { intros t. destruct (Ht2 t) as [Hwf Hroom]. split; [done|]. lia. }
  specialize (Hk s2 Ht2'). destruct (packets_loop _ s2) as [[st s3]| | |]; [|done..]. run.
  destruct Hk as [Hk _]. destruct st; apply Hcalm; [by calm|done|by calm|done].
Qed.
End orderly.

(** ** Requests *)

(** Calm code with a result that satisfies [Q] if it returns. *)
Definition yields {A} (Q : A → Prop) (m : M A) : Prop := ∀ s,
  match m s with
  | Ret (a, s') => Q a ∧ tables s' = tables s ∧ (packets s' ≤ packets s)%nat
  | Loop => False
  | _ => True
  end.
Lemma yields_bind {A B} (Q : A → Prop) (R : B → Prop) (m : M A) (f : A → M B) :
  yields Q m → (∀ a, Q a → yields R (f a)) → yields R (m ≫= f).
Proof.
  intros Hm Hf s. specialize (Hm s). unfold mbind, M_bind. destruct (m s) as [[a s1]| | |]; [|done..].
  destruct Hm as (HQ & Ht & Hp). specialize (Hf a HQ s1). cbn [mbind outcome_bind].
  destruct (f a s1) as [[b s2]| | |]; [|done..]. destruct Hf as (HR & Ht2 & Hp2).
  split_and!; [done|congruence|lia].
Qed.
Lemma calm_yields {A} (m : M A) : yields (λ _, True) m ↔ calm m.
Proof. split; intros Hm s; specialize (Hm s); destruct (m s) as [[]| | |]; tauto. Qed.
Lemma yields_calm {A B} (R : B → Prop) (m : M A) (f : A → M B) :
  calm m → (∀ a, yields R (f a)) → yields R (m ≫= f).
Proof. intros Hm Hf. apply (yields_bind (λ _, True)); [by apply calm_yields|by intros a _]. Qed.
Lemma yields_raise {A} (Q : A → Prop) m : halts m → (∀ a, m ≠ Ret a) → yields Q (raise m).
Proof. intros Hh Hm s. unfold raise, lift. destruct m as [a| | |]; [by destruct (Hm a)|done..]. Qed.
Lemma yields_ret {A} (Q : A → Prop) a : Q a → yields Q (mret a).
Proof. by intros HQ s. Qed.

Section requests.
Context `{Host, Locals}.

Lemma calm_zh_prepend_string path : calm (zh_prepend_string path).
Proof. unfold zh_prepend_string. calm. Qed.
Lemma calm_check_path mode path : calm (check_path mode path).
Proof. unfold check_path. calm. Qed.
Hint Resolve calm_zh_prepend_string calm_check_path : calm.
Lemma calm_submit ser add : steady ser → calm add → calm (submit ser add).
Proof. intros. unfold submit, queue_buffer_bytes. calm. Qed.
Lemma calm_Request_path_init mode path : calm (Request_path_init mode path).
Proof. unfold Request_path_init. calm. Qed.
Hint Resolve calm_Request_path_init : calm.
Lemma calm_Request_path_watch_init mode path w : calm (Request_path_watch_init mode path w).
Proof. unfold Request_path_watch_init. calm. Qed.
Lemma calm_create_watcher_registration path checker w ctx :
  calm (create_watcher_registration path checker w ctx).
Proof. unfold create_watcher_registration. calm. Qed.
Lemma calm_create_watcher_deregistration path w ctx t :
  calm (create_watcher_deregistration path w ctx t).
Proof. unfold create_watcher_deregistration. calm. Qed.
Hint Resolve calm_submit calm_Request_path_watch_init calm_create_watcher_registration
  calm_create_watcher_deregistration : calm.
Lemma steady_header xid type : steady (header xid type).
Proof. apply steady_RequestHeader. Qed.
Hint Resolve steady_header : halts.

Ltac calms :=
  repeat first [calm_step | apply calm_unless_failed | apply calm_submit; [solve [eauto with halts]|]].

(** Transactions fill one archive with all their operations. *)
Definition positive {A} (r : A * buff_struct) : Prop := 0 < bs_len r.2.
Lemma yields_marshal ser : steady ser → yields positive (marshal ser).
Proof.
  intros Hs s. unfold marshal, allocating.
  destruct (create_buffer_oarchive _) as [oa|] eqn:E; [|done].
  specialize (Hs oa (oarchive_positive _ _ E)). destruct (ser oa) as [[rc oa']| | |]; [by destruct Hs|done..].
Qed.
Lemma yields_writing op oa : steady op → 0 < bs_len oa → yields positive (writing op oa).
Proof.
  intros Hs Hl s. unfold writing, allocating. specialize (Hs (set_bs_alloc (w_alloc (s_world s)) oa) Hl).
  destruct (op _) as [[rc oa']| | |]; [by destruct Hs|done..].
Qed.
Lemma yields_sub_request {R} (init : M (Z * R)) ser rc oa :
  calm init → (∀ r, steady (ser r)) → 0 < bs_len oa → yields positive (sub_request init ser rc oa).
Proof.
  intros Hi Hs Hl. unfold sub_request. destruct (rc <? 0); [by apply yields_raise|].
  apply yields_calm; [done|]. intros [rc' req]. destruct (rc' <? 0); [|by apply yields_writing].
  apply yields_calm; [by calm|]. intros [chroot|]; [by apply yields_raise|by apply yields_ret].
Qed.
Definition sub_positive (r : option (Z * buff_struct * option completion_list * result_slot)) : Prop :=
  match r with Some (_, oa, _, _) => 0 < bs_len oa | None => True end.
Lemma yields_sub_op xid op result rc oa : 0 < bs_len oa → yields sub_positive (sub_op xid op result rc oa).
Proof.
  intros Hl. unfold sub_op.
  assert (∀ R (init : M (Z * R)) ser type fn slot, calm init → (∀ r, steady (ser r)) →
    yields sub_positive ('(rc, oa) ← sub_request init ser rc oa;
      e ← create_completion_entry xid type fn result None None; mret (Some (rc, oa, e, slot)))) as Hsub.
  { intros R init ser type fn slot Hi Hs. eapply yields_bind; [by apply yields_sub_request|].
    intros [rc' oa'] Hp. apply yields_calm; [unfold create_completion_entry; by calm|]. intros e.
    by apply yields_ret. }
  destruct (_ || _).
  { destruct (op_args op); try by apply yields_raise. apply Hsub; [unfold CreateRequest_init; by calm|eauto with halts]. }
  destruct (_ =? ZOO_DELETE_OP).
  { destruct (op_args op); try by apply yields_raise. apply Hsub; [unfold DeleteRequest_init; by calm|eauto with halts]. }
  destruct (_ =? ZOO_SETDATA_OP).
  { destruct (op_args op); try by apply yields_raise. apply Hsub; [unfold SetDataRequest_init; by calm|eauto with halts]. }
  destruct (_ =? ZOO_CHECK_OP); [|by apply yields_ret].
  destruct (op_args op); try by apply yields_raise.
  apply Hsub; [unfold CheckVersionRequest_init; by calm|eauto with halts].
Qed.
Lemma yields_sub_ops xid ops : ∀ result rc oa clist slots, 0 < bs_len oa →
  yields (λ r, match r.1 with Some (_, oa, _) => 0 < bs_len oa | None => True end)
    (sub_ops xid ops result rc oa clist slots).
Proof.
  induction ops as [|op ops IH]; intros result rc oa clist slots Hl; cbn [sub_ops]; [by apply yields_ret|].
  apply (yields_bind positive).
  { destruct (rc <? 0); [by apply yields_ret|]. apply yields_writing; [eauto with halts|done]. }
  intros [rc' oa'] Hp. eapply yields_bind; [by apply yields_sub_op|].
  intros [[[[rc2 oa2] [entry|]] slot]|] Hs; [by apply IH|by apply yields_raise|by apply yields_ret].
Qed.
Lemma calm_multi ops results fn data : calm (zoo_amulti ops results fn data).
Proof.
  apply calm_yields.   unfold zoo_amulti. apply yields_calm; [by calm|]. intros xid.
  eapply yields_bind; [by apply yields_marshal, steady_header|]. intros [rc oa] Hp.
  eapply yields_bind; [by apply yields_sub_ops|]. intros [[[[rc2 oa2] clist]|] slots] Hs;
    [|by apply yields_ret].
  apply (yields_bind positive).
  { destruct (rc2 <? 0); [by apply yields_ret|]. apply yields_writing; [eauto with halts|done]. }
  intros [rc3 oa3] _. apply calm_yields.
  unfold add_multi_completion, add_completion, create_completion_entry, queue_buffer_bytes. calms.
Qed.
Hint Resolve calm_multi : calm.

Lemma orderly_get_watches {B} n k (f : watches → M B) :
  (∀ w, tables_ok n w → orderly n n k (f w)) → orderly n n k (get zh_watches ≫= f).
Proof. intros Hf s Hs. exact (Hf _ Hs s Hs). Qed.
Lemma orderly_aremove n path wtype watcher ctx local fn data all :
  orderly n n 0 (aremove_watches path wtype watcher ctx local fn data all).
Proof.
  unfold aremove_watches. do 2 (apply orderly_step; [by calm|intros ?]).
  destruct (negb _); [by apply orderly_calm; calm|]. apply orderly_step; [by calm|intros un].
  destruct (_ && _); [by apply orderly_calm; calm|]. destruct a as [sp|]; [|by apply orderly_calm; calm].
  apply orderly_get_watches. intros w Hw. apply orderly_step; [by calm|intros found].
  destruct (negb _); [by apply orderly_calm; calm|]. destruct local.
  - intros s Hs. unfold mbind, M_bind, lift. cbn [mbind outcome_bind].
    pose proof (keeps_removeWatchers n w sp wtype watcher ctx Hw) as Hk.
    destruct (removeWatchers _ _ _ _ _) as [w'| | |]; [|done..]. split; [exact Hk|simpl; lia].
  - apply orderly_calm, calm_bind; [apply calm_marshal; destruct all; eauto with halts|intros [rc oa]].
    unfold add_completion_deregistration, create_completion_entry_deregistration, queue_buffer_bytes.
    calms.
Qed.

Lemma orderly_request n r fn data : orderly n n 0 (run_request r fn data).
Proof.
  destruct r; cbn [run_request]; try apply orderly_aremove; apply orderly_calm;
    unfold zoo_aget, zoo_awget, zoo_agetconfig, zoo_awgetconfig, zoo_areconfig, zoo_aset,
      zoo_acreate, zoo_acreate2, zoo_acreate_ttl, zoo_acreate2_ttl, create_with, zoo_adelete,
      zoo_aexists, zoo_awexists, zoo_aget_children, zoo_awget_children, zoo_awget_children_,
      zoo_aget_children2, zoo_awget_children2, zoo_awget_children2_, zoo_async, zoo_aget_acl,
      zoo_aset_acl, zoo_add_auth, default_watcher, SetDataRequest_init, CreateRequest_init,
      CreateTTLRequest_init, DeleteRequest_init, add_data_completion, add_stat_completion,
      add_strings_completion, add_strings_stat_completion, add_acl_completion,
      add_void_completion, add_string_completion, add_string_stat_completion, add_completion,
      create_completion_entry;
    calms.
Qed.
End requests.

(** ** Servers *)
Section servers.
Context `{Host}.

Lemma strchr_shorter c : ∀ s loc, strchr s c = Some loc → (0 < length loc ≤ length s)%nat.
Proof.
  induction s as [|x s IH]; intros loc E; [done|]. simpl in E. destruct (isc x c).
  - injection E as <-. simpl. lia.
  - apply IH in E. simpl. lia.
Qed.
Lemma count_commas_halts fuel : ∀ loc n, (length loc ≤ fuel)%nat → halts (count_commas fuel loc n).
Proof.
  induction fuel as [|fuel IH]; intros loc n Hl; simpl; destruct (strchr loc Byte.x2c) as [loc'|] eqn:E;
    try done; apply strchr_shorter in E; [lia|]. apply IH. rewrite length_drop. lia.
Qed.
Lemma halts_count_hosts hosts : halts (count_hosts hosts).
Proof.
  unfold count_hosts. destruct hosts as [hosts|]; [|done]. destruct (_ =? 0)%nat; [done|].
  apply halts_bind; [by apply count_commas_halts|]. done.
Qed.
Lemma halts_append avec a o : halts (addrvec_append avec a o).
Proof. unfold addrvec_append, append_at. halts. Qed.
Hint Resolve halts_count_hosts halts_append : halts.
Lemma halts_append_all : ∀ res avec o, halts (append_all res avec o).
Proof.
  induction res as [|ai res IH]; intros avec o; simpl; [done|]. unfold addrvec_append_addrinfo. halts.
Qed.
Hint Resolve halts_append_all : halts.
Lemma halts_hosts_loop r : ∀ hosts avec o, halts (hosts_loop r hosts avec o).
Proof. induction hosts as [|h hosts IH]; intros avec o; simpl; halts. Qed.
Lemma halts_seed_loop : ∀ reads n, halts (seed_loop reads n).
Proof. induction reads as [|[] reads IH]; intros n'; cbn [seed_loop]; halts. Qed.
Hint Resolve halts_hosts_loop halts_seed_loop : halts.
Lemma halts_resolve_hosts r hosts o : halts (resolve_hosts r hosts o).
Proof. unfold resolve_hosts, setup_random. halts. Qed.
Lemma halts_data_at a i : halts (data_at a i).
Proof. unfold data_at. halts. Qed.
Hint Resolve halts_resolve_hosts halts_data_at : halts.
Lemma halts_contains_loop a addr n : ∀ i, halts (contains_loop a addr n i).
Proof. induction n as [|n IH]; intros i; simpl; halts. Qed.
Hint Resolve halts_contains_loop : halts.
Lemma halts_contains a addr : halts (addrvec_contains a addr).
Proof. unfold addrvec_contains. halts. Qed.
Hint Resolve halts_contains : halts.
Lemma halts_eq_loop a1 a2 n : ∀ i, halts (eq_loop a1 a2 n i).
Proof. induction n as [|n IH]; intros i; simpl; halts. Qed.
Hint Resolve halts_eq_loop : halts.
Lemma halts_addrvec_eq a1 a2 : halts (addrvec_eq a1 a2).
Proof. unfold addrvec_eq. halts. Qed.
Lemma halts_divide_loop addrs : ∀ resolved old new o, halts (divide_loop addrs resolved old new o).
Proof. induction resolved as [|a resolved IH]; intros old new o; simpl; halts. Qed.
Hint Resolve halts_addrvec_eq halts_divide_loop : halts.
Lemma halts_update_addrs sv r drand o : halts (update_addrs sv (resolve_hosts r) drand o).
Proof. unfold update_addrs. halts. Qed.
Hint Resolve halts_update_addrs : halts.
Lemma halts_set_servers sv hosts r drand o : halts (zoo_set_servers sv hosts (resolve_hosts r) drand o).
Proof. unfold zoo_set_servers. halts. Qed.
Lemma halts_cycle_next_server sv drand : halts (zoo_cycle_next_server sv drand).
Proof. unfold zoo_cycle_next_server, get_next_server_in_reconfig. halts. Qed.
Lemma halts_addrvec_peek a : halts (addrvec_peek a).
Proof. unfold addrvec_peek. halts. Qed.
End servers.
#[export] Hint Resolve halts_cycle_next_server halts_addrvec_peek halts_update_addrs
  halts_set_servers : halts.

(** ** [zookeeper_interest] *)
Definition iorderly `{Host} {A} (n : Z) (m : MI A) : Prop := ∀ s,
  tables_ok n (tables (i_sys s)) →
  match m s with Ret (_, s') => tables_ok n (tables (i_sys s')) | Loop => False | _ => True end.

Section interest.
Context `{Host, Locals}.

Lemma iorderly_ret {A} n (a : A) : iorderly n (mret a).
Proof. by intros s Hs. Qed.
Lemma iorderly_bind {A B} n (m : MI A) (f : A → MI B) :
  iorderly n m → (∀ a, iorderly n (f a)) → iorderly n (m ≫= f).
Proof.
  intros Hm Hf s Hs. specialize (Hm s Hs). unfold mbind, MI_bind.
  destruct (m s) as [[a s1]| | |]; [|done..]. by apply Hf.
Qed.
Lemma iorderly_sess {A} n k (m : M A) : orderly n n k m → iorderly n (sess m).
Proof.
  intros Hm s Hs. unfold sess. specialize (Hm (i_sys s) Hs).
  destruct (m (i_sys s)) as [[a s']| | |]; [|done..]. by destruct Hm.
Qed.
Lemma iorderly_calm {A} n (m : M A) : calm m → iorderly n (sess m).
Proof. intros Hm. by eapply iorderly_sess, orderly_calm. Qed.
Lemma iorderly_getn {A} n (h : net → A) : iorderly n (getn h).
Proof. by intros s Hs. Qed.
Lemma iorderly_modifyn n h : iorderly n (modifyn h).
Proof. by intros s Hs. Qed.
Lemma iorderly_failing {A} n (m : outcome A) : halts m → iorderly n (failing m).
Proof. intros Hm s Hs. unfold failing. by destruct m. Qed.
Lemma iorderly_drand48 n : iorderly n drand48.
Proof. by intros s Hs. Qed.
Lemma iorderly_next_dial n : iorderly n next_dial.
Proof. by intros s Hs. Qed.
Lemma iorderly_next_probe n : iorderly n next_probe.
Proof. by intros s Hs. Qed.
Lemma iorderly_connect n a c : iorderly n (zookeeper_connect a c).
Proof. by intros s Hs. Qed.
Lemma iorderly_checked n w z : iorderly n (checked w z).
Proof. unfold checked. case_decide; [apply iorderly_ret|by apply iorderly_failing]. Qed.
Lemma iorderly_mupdate_addrs n : iorderly n mupdate_addrs.
Proof.
  intros s Hs. unfold mupdate_addrs, drand48. cbn [mbind outcome_bind].
  pose proof (halts_update_addrs (Some (zh_servers (s_zh (i_sys s))))
    (e_resolving (i_env s)) (default (double_of_Z 0) (head (e_drand (i_env s)))) (w_alloc (s_world (i_sys s)))) as Hh.
  unfold halts in Hh. cbn [i_env] in *.
  change (e_resolving (set_e_drand _ (i_env s))) with (e_resolving (i_env s)).
  destruct (update_addrs _ _ _ _) as [[[rc sv] o]| | |]; done.
Qed.
Lemma iorderly_set_servers n hosts : iorderly n (set_servers hosts).
Proof.
  intros s Hs. unfold set_servers, drand48. cbn [mbind outcome_bind].
  pose proof (halts_set_servers (zh_servers (s_zh (i_sys s))) hosts
    (e_resolving (i_env s)) (default (double_of_Z 0) (head (e_drand (i_env s)))) (w_alloc (s_world (i_sys s)))) as Hh.
  unfold halts in Hh. cbn [i_env] in *.
  change (e_resolving (set_e_drand _ (i_env s))) with (e_resolving (i_env s)).
  destruct (zoo_set_servers _ _ _ _ _) as [[[rc sv] o]| | |]; done.
Qed.
Lemma iorderly_error_msg n rc : iorderly n (sess (handle_socket_error_msg rc)).
Proof. eapply iorderly_sess, orderly_error_msg. Qed.
Lemma iorderly_prime n : iorderly n (sess prime_connection).
Proof. eapply iorderly_sess, orderly_prime_connection. Qed.
Lemma iorderly_cleanup n rc : iorderly n (sess (cleanup rc)).
Proof. eapply iorderly_sess, orderly_cleanup. Qed.
Hint Resolve iorderly_ret iorderly_getn iorderly_modifyn iorderly_drand48 iorderly_next_dial
  iorderly_next_probe iorderly_connect iorderly_checked iorderly_mupdate_addrs
  iorderly_error_msg iorderly_prime iorderly_cleanup : calm.
Ltac iorderly :=
  repeat match goal with
  | |- iorderly _ (_ ≫= _) => apply iorderly_bind; [|intros ?]
  | |- iorderly _ (match ?x with _ => _ end) => destruct x
  | |- iorderly _ (failing _) => apply iorderly_failing; by halts
  | |- iorderly _ _ => solve [eauto 2 with calm nocore]
  | |- iorderly _ (sess _) => apply iorderly_calm; by calm
  end.
Lemma iorderly_connect_phase n : iorderly n connect_phase.
Proof. unfold connect_phase, mcycle_next_server. iorderly. Qed.
Lemma iorderly_ping_phase n rt idle : iorderly n (ping_phase rt idle).
Proof. unfold ping_phase. iorderly. Qed.
Lemma iorderly_rw_phase n now send_to : iorderly n (rw_phase now send_to).
Proof. unfold rw_phase, ping_rw_server. iorderly. Qed.
Lemma iorderly_add_timeval n now tv : iorderly n (add_timeval now tv).
Proof. unfold add_timeval. iorderly. Qed.
Hint Resolve iorderly_connect_phase iorderly_ping_phase iorderly_rw_phase iorderly_add_timeval : calm.
Lemma iorderly_watch_phase n now out : iorderly n (watch_phase now out).
Proof. unfold watch_phase. iorderly. Qed.
Hint Resolve iorderly_watch_phase : calm.
Lemma iorderly_interest n out : iorderly n (zookeeper_interest out).
Proof. unfold zookeeper_interest, connected_now. iorderly. Qed.
End interest.

(** ** The library *)
Section library.
Context `{Host, Locals}.

Lemma call_orderly n c s : 0 ≤ n → tables_ok (n + Z.of_nat (packets (i_sys s)) + 1) (tables (i_sys s)) →
  match run_call c s with
  | Ret (_, s') => tables_ok n (tables (i_sys s')) | Loop => False | _ => True
  end.
Proof.
  intros Hn Hs. assert (tables_ok n (tables (i_sys s))) as Hs'.
  { intros t. destruct (Hs t). split; [done|lia]. }
  destruct c; cbn [run_call].
  - apply (iorderly_bind n); [apply iorderly_interest| |done]. intros [rc o]. by intros s1 Hs1.
  - unfold sess. pose proof (zookeeper_process_orderly n events (i_sys s) Hn Hs) as Hp.
    by destruct (zookeeper_process _ _) as [[a s1]| | |].
  - by eapply iorderly_sess; [apply orderly_request|].
  - by apply iorderly_set_servers.
  - intros t. specialize (Hs' t). by destruct t.
  - intros t. specialize (Hs' t). by destruct t.
  - by apply iorderly_calm; [calm|].
Qed.

Lemma rest_packets s : at_rest s → packets (i_sys s) = 0%nat.
Proof.
  unfold at_rest. intros Hr. assert (zh_to_process (s_zh (i_sys s)) = []) as ->; [|done].
  destruct (zh_freed _); [exact (cl_packets _ Hr)|exact (rd_packets _ (rs_ready _ Hr))].
Qed.
(** Each call uses up at most one place of a table. *)
Lemma run_orderly m s s' n : at_rest s → nsteps lib_step m s s' → 0 ≤ n →
  tables_ok (n + Z.of_nat m) (tables (i_sys s)) → tables_ok n (tables (i_sys s')).
Proof.
  intros Hr Hm Hn. revert Hr n Hn. induction Hm as [s|m s s1 s2 Hst Hm IH]; intros Hr n Hn Hs.
  { by rewrite Z.add_0_r in Hs. }
  destruct (step_rests _ _ Hr Hst) as [Hr1 _]. apply (IH Hr1 n Hn). destruct Hst as [c a s1 Hc Hf E|w e].
  - pose proof (call_orderly (n + Z.of_nat m) c s ltac:(lia)) as Hk. rewrite E in Hk. apply Hk.
    rewrite (rest_packets s Hr). intros t. destruct (Hs t). split; [done|lia].
  - intros t. destruct (Hs t) as [Hwf Hroom]. split; [done|]. cbn [i_sys s_zh] in *. lia.
Qed.

(** ** A new handle *)
Definition ihalts {A} (m : MI A) : Prop := ∀ s, m s ≠ Loop.
Lemma ihalts_bind {A B} (m : MI A) (f : A → MI B) : ihalts m → (∀ a, ihalts (f a)) → ihalts (m ≫= f).
Proof.
  intros Hm Hf s. specialize (Hm s). unfold mbind, MI_bind. destruct (m s) as [[a s1]| | |]; [|done..].
  apply Hf.
Qed.
Lemma ihalts_sess {A} (m : M A) : calm m → ihalts (sess m).
Proof. intros Hm s. unfold sess. specialize (Hm (i_sys s)). by destruct (m _) as [[]| | |]. Qed.
Lemma ihalts_modify f : ihalts (sess (modify f)).
Proof. done. Qed.
Lemma ihalts_mupdate_addrs : ihalts mupdate_addrs.
Proof.
  intros s. unfold mupdate_addrs, drand48. cbn [mbind outcome_bind].
  change (e_resolving (i_env (mk_isys _ _ (set_e_drand _ (i_env s))))) with (e_resolving (i_env s)).
  apply halts_bind; [apply halts_update_addrs|]. by intros [[rc sv] o].
Qed.
Lemma halts_create_zk_hashtable o : halts (create_zk_hashtable o).
Proof. unfold create_zk_hashtable. halts. Qed.
Lemma ihalts_create_table : ihalts create_table.
Proof.
  apply ihalts_bind; [apply ihalts_sess, calm_allocating, halts_create_zk_hashtable|].
  by intros [t|].
Qed.
Lemma halts_parse_chroot host o : halts (parse_chroot host o).
Proof. unfold parse_chroot. halts. Qed.
Lemma ihalts_init host watcher rt cid ctx flags : ihalts (zookeeper_init host watcher rt cid ctx flags).
Proof.
  assert (ihalts abort) as Habort by (apply ihalts_bind; [apply ihalts_sess; by calm|done]).
  unfold zookeeper_init, zookeeper_init_internal.
  apply ihalts_bind; [apply ihalts_sess; by calm|intros []]; [|done]. cbn [negb].
  apply ihalts_bind; [apply ihalts_modify|intros _]. apply ihalts_bind; [done|intros _].
  destruct host as [[|c host]|]; [done| |done].
  apply ihalts_bind; [apply ihalts_sess, calm_allocating, halts_parse_chroot|].
  intros [[chroot hostname]|]; [|done]. do 2 (apply ihalts_bind; [apply ihalts_modify|intros _]).
  destruct (_ && _); [done|]. destruct (bool_decide _); [done|].
  apply ihalts_bind; [apply ihalts_mupdate_addrs|intros rc]. destruct (negb _); [done|].
  do 4 (apply ihalts_bind; [apply ihalts_modify|intros _]). apply ihalts_bind; [done|intros _].
  do 3 (apply ihalts_bind; [apply ihalts_create_table|intros ?]).
  apply ihalts_bind; [apply ihalts_modify|done].
Qed.

(** The part of a computation that counts comes last. *)
Definition ends {A} (Q : A → isys → Prop) (m : MI A) : Prop := ∀ s a s', m s = Ret (a, s') → Q a s'.
Lemma ends_bind {A B} (R : A → Prop) (Q : B → isys → Prop) (m : MI A) (f : A → MI B) :
  ends (λ a _, R a) m → (∀ a, R a → ends Q (f a)) → ends Q (m ≫= f).
Proof.
  intros Hm Hf s b s' E. apply bind_Ret_inv in E as ((a & s1) & E1 & E2).
  apply (Hf a (Hm _ _ _ E1) s1), E2.
Qed.
Lemma ends_later {A B} (Q : B → isys → Prop) (m : MI A) (f : A → MI B) :
  (∀ a, ends Q (f a)) → ends Q (m ≫= f).
Proof. intros Hf. by apply (ends_bind (λ _, True)). Qed.
Lemma ends_create_table : ends (λ h _, ht_wf h ∧ entrycount h = 0) create_table.
Proof.
  intros s h s' E. unfold create_table in E. apply bind_Ret_inv in E as ((t & s1) & E1 & E).
  unfold sess, allocating in E1. apply bind_Ret_inv in E1 as ((t' & s2) & E1 & E2). injection E2 as <- <-.
  apply bind_Ret_inv in E1 as ((t2 & o) & E1 & E2). injection E2 as <- <-.
  unfold create_zk_hashtable in E1. apply bind_Ret_inv in E1 as (o1 & _ & E1). injection E1 as E1.
  destruct t2 as [h2|]; [|done]. injection E as <- <-.
  destruct (create_hashtable_spec 32 o1 h2 o) as (Hwf & He & _); [done|lia|].
  split; [done|]. by rewrite (wf_count _ Hwf), He.
Qed.
Lemma init_tables host watcher rt cid ctx flags s s' :
  zookeeper_init host watcher rt cid ctx flags s = Ret (true, s') →
  tables_ok (2 ^ 32 - 1) (tables (i_sys s')).
Proof.
  intros E.
  assert (ends (λ ok s', ok = true → tables_ok (2 ^ 32 - 1) (tables (i_sys s')))
    (zookeeper_init host watcher rt cid ctx flags)) as Hends; [|by apply (Hends _ _ _ E)]. clear E.
  set (Q := λ (ok : bool) s', ok = true → tables_ok (2 ^ 32 - 1) (tables (i_sys s'))).
  assert (ends Q (mret false)) as Hfalse by (by intros s1 a s2 [= <- <-]).
  assert (ends Q abort) as Habort by by apply ends_later.
  unfold zookeeper_init, zookeeper_init_internal. apply ends_later. intros []; [|done]. cbn [negb].
  do 2 (apply ends_later; intros _). destruct host as [[|c host]|]; [done| |done].
  apply ends_later. intros [[chroot hostname]|]; [|done]. do 2 (apply ends_later; intros _).
  destruct (_ && _); [done|]. destruct (bool_decide _); [done|]. apply ends_later. intros rc.
  destruct (negb _); [done|]. do 5 (apply ends_later; intros _).
  eapply ends_bind; [apply ends_create_table|]. intros node Hnode.
  eapply ends_bind; [apply ends_create_table|]. intros exist Hexist.
  eapply ends_bind; [apply ends_create_table|]. intros child Hchild.
  intros s1 a s2 E _. injection E as <- <-.
  intros t. destruct t; [destruct Hnode as [Hwf He]|destruct Hexist as [Hwf He]|destruct Hchild as [Hwf He]];
    (split; [exact Hwf|cbn; lia]).
Qed.

(** C13.  Every call terminates.  [zookeeper_init] returns or fails for every connection
    string, and after it, in a run of fewer than 2^32 - 2 calls of the library, no call
    runs forever: whatever calls were made, whatever the allocator and the network do and
    whatever bytes arrive.  (The bound is that of the entries of a table, which are counted
    in 32 bits: with more of them the count wraps round.) *)
Theorem calls_terminate host watcher rt cid ctx flags s0 :
  zookeeper_init host watcher rt cid ctx flags s0 ≠ Loop ∧
  ∀ s m s' c, zookeeper_init host watcher rt cid ctx flags s0 = Ret (true, s) →
    nsteps lib_step m s s' → Z.of_nat m < 2 ^ 32 - 2 → run_call c s' ≠ Loop.
Proof.
  split; [apply ihalts_init|]. intros s m s' c Hi Hm Hlt.
  destruct (init_rests _ _ _ _ _ _ _ _ _ Hi eq_refl) as [Hs _].
  assert (at_rest s') as Hs' by (by apply (run_rests _ _ Hs), (rtc_nsteps_2 m)).
  pose proof (call_orderly 0 c s' ltac:(lia)) as Hc. rewrite (rest_packets s' Hs') in Hc.
  assert (tables_ok (0 + Z.of_nat 0 + 1) (tables (i_sys s'))) as Ht.
  { apply (run_orderly m s s'); [done..|lia|]. pose proof (init_tables _ _ _ _ _ _ _ _ Hi) as Ht.
    intros t. destruct (Ht t). split; [done|lia]. }
  specialize (Hc Ht). by destruct (run_call c s').
Qed.
End library.

(** The run of StateTheorems.v can go on. *)
Lemma calls_terminate_witness :
  @run_call sample_host zero_locals (CallProcess ZOOKEEPER_READ) sample_answering ≠ Loop.
Proof.
  destruct (@calls_terminate sample_host zero_locals (Some (lit "a:2181,b:2181")) 5 10000
    (Some (mk_clientid 77 (replicate 16 Byte.x2a))) 50 0 sample_begin) as [_ Hc].
  apply (Hc sample_created 3%nat sample_answering).
  - exact sample_init_eq.
  - exact sample_steps.
  - lia.
Defined.
