(* ===== verification/Sync.v ===== *)
(** * The build with threads: the adaptor and the synchronous API

    The functions of src/mt_adaptor.c that the session engine uses, the branches of
    src/zookeeper.c under [THREADED], and the synchronous API: a thread allocates a
    [sync_completion], submits an asynchronous request with [SYNCHRONOUS_MARKER] for the
    function and the address of the completion for its data, waits until the thread for
    I/O has filled it in, and copies the results to its caller.  A call of the synchronous
    API is therefore two computations, the one before the wait and the one after it.
    What the threads do to each other is in Threads.v. *)

From S2P Require Import Prelude RecordIO Jute Path Watchers Addrvec Handshake Transport Handle.
From S2P Require Import Session Requests.
Local Open Scope Z_scope.

(** ** Synchronous completions in memory *)

(** [*sc] for an address [sc]; one that is not allocated is dereferenced. *)
Definition the_sync (sc : Z) : M sync_completion :=
  sync ← askw w_sync;
  match sync !! sc with Some c => mret c | None => raise UB end.
Definition put_sync (sc : Z) (c : sync_completion) : M () :=
  modifyw (λ w, set_w_sync (<[sc := c]> (w_sync w)) w).

(** [sc] is the address [calloc] returns if it does not fail. *)
Definition alloc_sync_completion (sc : Z) : M bool :=
  ok ← allocating (λ o, Ret (alloc o));
  (if ok : bool then put_sync sc (mk_sync 0 UNone None 0) else mret ());;
  mret ok.
Definition free_sync_completion (sc : Z) : M () :=
  modifyw (λ w, set_w_sync (delete sc (w_sync w)) w).
Definition notify_sync_completion (sc : Z) : M () :=
  c ← the_sync sc; put_sync sc (set_sc_complete 1 c).
(** [wait_sync_completion] returns when this holds. *)
Definition sync_ready (c : sync_completion) : bool := negb (sc_complete c =? 0).

(** ** Copying results *)

(** [memcpy(sc->u.data.buffer, res.data.buff, len)]. *)
Definition copy_data (buffer data : option (list byte)) (len : Z)
    : outcome (option (list byte)) :=
  if len =? 0 then Ret buffer else
  if len <? 0 then UB else
  match buffer, data with
  | Some buffer, Some data =>
      bytes ← copy_from data 0 len; buffer ← copy_to buffer 0 bytes; Ret (Some buffer)
  | _, _ => UB
  end.
(** The path of a new node: as much of it as fits, and a NUL. *)
Definition copy_path (str : option (list byte)) (str_len : Z) (path : option cstring)
    : outcome (option (list byte)) :=
  match path with
  | None => UB
  | Some path =>
      let len := Z.of_nat (length path) + 1 in
      let len := if str_len <? len then str_len else len in
      if 0 <? len then
        match str with
        | None => UB
        | Some str =>
            str ← copy_to str 0 (take (Z.to_nat (len - 1)) path);
            str ← copy_to str (len - 1) [Byte.x00];
            Ret (Some str)
        end
      else Ret str
  end.

Section sync.
Context `{Host, Locals}.

(** [deserialize_multi], which the asynchronous engine has inside [deserialize_response]. *)
Fixpoint multi_responses (xid : Z) (clist : list completion_list) (rc : Z) (mhdr : MultiHeader)
    (ia : buff_struct) {struct clist} : M (Z * buff_struct) :=
  if negb (MultiHeader_done mhdr =? 0) then mret (rc, ia) else
  match clist with
  | [] => raise Abort
  | entry :: clist =>
      '(rc, err, ia) ←
        (if MultiHeader_type mhdr =? -1 then
           '(er, ia) ← parse deserialize_ErrorResponse junk_ErrorResponse ia;
           let e := ErrorResponse_err er in
           mret (if (rc =? 0) && negb (e =? 0) && negb (e =? ZRUNTIMEINCONSISTENCY)
                 then e else rc, e, ia)
         else mret (rc, MultiHeader_err mhdr, ia));
      ia ← deserialize_response (c_type entry) xid (MultiHeader_type mhdr =? -1) err entry (Some ia);
      ia ← need ia;
      '(_, mhdr, ia) ← reading deserialize_MultiHeader (set_MultiHeader_err err mhdr) ia;
      multi_responses xid clist rc mhdr ia
  end.
Definition deserialize_multi (xid : Z) (cptr : completion_list) (ia : buff_struct)
    : M (Z * buff_struct) :=
  '(_, mhdr, ia) ← reading deserialize_MultiHeader (mk_MultiHeader 0 0 0) ia;
  multi_responses xid (c_clist cptr) 0 mhdr ia.

(** The completion after the call.  A member of the union that is not the one assigned
    last holds nothing the function could use. *)
Definition process_sync_completion (cptr : completion_list) (sc : sync_completion)
    (ia : buff_struct) : M sync_completion :=
  let type := c_type cptr in
  if type =? COMPLETION_DATA then
    if negb (sc_rc sc =? 0) then mret sc else
    '(res, ia) ← parse deserialize_GetDataResponse junk_GetDataResponse ia;
    let data := GetDataResponse_data res in
    match sc_u sc with
    | UData own buff_len _ =>
        let len := if b_len data <=? buff_len then b_len data else buff_len in
        if len =? -1 then
          mret (set_sc_u (UData false len (GetDataResponse_stat res)) sc)
        else
          mem ← lift (copy_data (sc_mem sc) (b_buff data) len);
          mret (set_sc_mem mem (set_sc_u (UData own len (GetDataResponse_stat res)) sc))
    | _ => raise UB
    end
  else if type =? COMPLETION_STAT then
    if negb (sc_rc sc =? 0) then mret sc else
    '(res, ia) ← parse deserialize_SetDataResponse junk_SetDataResponse ia;
    mret (set_sc_u (UStat (SetDataResponse_stat res)) sc)
  else if type =? COMPLETION_STRINGLIST then
    if negb (sc_rc sc =? 0) then mret sc else
    '(res, ia) ← parse deserialize_GetChildrenResponse junk_GetChildrenResponse ia;
    mret (set_sc_u (UStrs (GetChildrenResponse_children res)) sc)
  else if type =? COMPLETION_STRINGLIST_STAT then
    if negb (sc_rc sc =? 0) then mret sc else
    '(res, ia) ← parse deserialize_GetChildren2Response junk_GetChildren2Response ia;
    mret (set_sc_u (UStrsStat (GetChildren2Response_children res) (GetChildren2Response_stat res)) sc)
  else if type =? COMPLETION_STRING then
    if negb (sc_rc sc =? 0) then mret sc else
    '(res, ia) ← parse deserialize_CreateResponse junk_CreateResponse ia;
    path ← client_path (CreateResponse_path res);
    match sc_u sc with
    | UStr str_len =>
        mem ← lift (copy_path (sc_mem sc) str_len path); mret (set_sc_mem mem sc)
    | _ => raise UB
    end
  else if type =? COMPLETION_STRING_STAT then
    if negb (sc_rc sc =? 0) then mret sc else
    '(res, ia) ← parse deserialize_Create2Response junk_Create2Response ia;
    path ← client_path (Create2Response_path res);
    match sc_u sc with
    | UStr str_len =>
        mem ← lift (copy_path (sc_mem sc) str_len path);
        mret (set_sc_u (UStat (Create2Response_stat res)) (set_sc_mem mem sc))
    | _ => raise UB
    end
  else if type =? COMPLETION_ACLLIST then
    if negb (sc_rc sc =? 0) then mret sc else
    '(res, ia) ← parse deserialize_GetACLResponse junk_GetACLResponse ia;
    mret (set_sc_u (UAcl (GetACLResponse_acl res) (GetACLResponse_stat res)) sc)
  else if type =? COMPLETION_VOID then mret sc
  else if type =? COMPLETION_MULTI then
    '(rc, _) ← deserialize_multi (c_xid cptr) cptr ia; mret (set_sc_rc rc sc)
  else mret sc.

(** ** The adaptor *)

(** One byte into the pipe; the answer of [write]. *)
Definition wakeup_io_thread : M Z :=
  writes ← askw w_writes;
  modifyw (set_w_writes (tail writes));;
  if default true (head writes)
  then modifyw (λ w, set_w_pipe (w_pipe w + 1) w);; mret ZOK
  else mret ZSYSTEMERROR.
Definition mt_adaptor_send_queue (timeout : Z) : M Z :=
  closing ← get zh_close_requested;
  if closing =? 0 then wakeup_io_thread else zh_flush_send_queue timeout.
Definition mt_process_async (outstanding_sync : Z) : bool := false.
(** The counter is incremented by [fetch_and_add], which wraps around. *)
Definition mt_get_xid : M Z :=
  xid ← askw w_xid;
  xid ← (if xid =? -1 then t ← get_system_time; mret (int32 (tv_sec t)) else mret xid);
  modifyw (set_w_xid (int32 (xid + 1)));; mret xid.

Definition one_less_outstanding : M () :=
  modify (λ zh, set_zh_outstanding_sync (zh_outstanding_sync zh - 1) zh).
(** In [free_completions]. *)
Definition mt_fail_synchronous (cptr : completion_list) (reason : Z) : M () :=
  let sc := c_data cptr in
  c ← the_sync sc;
  put_sync sc (set_sc_rc reason c);;
  notify_sync_completion sc;;
  one_less_outstanding.
(** In [zookeeper_process]. *)
Definition mt_answer_synchronous (cptr : completion_list) (rc : Z) (ia : buff_struct) : M () :=
  let sc := c_data cptr in
  c ← the_sync sc;
  c ← process_sync_completion cptr (set_sc_rc rc c) ia;
  put_sync sc c;;
  notify_sync_completion sc;;
  one_less_outstanding.
(** Not an instance: the files about threads make it one. *)
Definition mt_adaptor : Adaptor := {|
  process_async := mt_process_async;
  get_xid := mt_get_xid;
  adaptor_send_queue := mt_adaptor_send_queue;
  fail_synchronous := mt_fail_synchronous;
  answer_synchronous := mt_answer_synchronous;
  notify_local := notify_sync_completion;
|}.
#[local] Existing Instance mt_adaptor | 0.

(** ** The synchronous API *)

(** What a call leaves to its caller: the contents of the caller's buffer, and what it
    assigns through the pointers it was given ([None]: nothing). *)
Record sync_result := mk_sync_result {
  sr_mem : option (list byte);
  sr_len : option Z;
  sr_stat : option Stat;
  sr_strings : option (vector (option cstring));
  sr_acl : option (vector ACL);
}.
(** A call: what it does before it waits on its [sync_completion], [Some rc] if it
    returns without waiting, and what it does afterwards. *)
Record sync_call := mk_sync_call {
  before_wait : Z → M (option Z);
  after_wait : Z → M (Z * sync_result);
}.

(** The common parts; [copy] is what the call does with the completion if the result is
    [ZOK]. *)
Definition start_sync (u : sync_union) (mem : option (list byte)) (request : Z → Z → M Z)
    (sc : Z) : M (option Z) :=
  ok ← alloc_sync_completion sc;
  if negb ok then mret (Some ZSYSTEMERROR) else
  c ← the_sync sc;
  put_sync sc (set_sc_mem mem (set_sc_u u c));;
  rc ← request SYNCHRONOUS_MARKER sc;
  if rc =? ZOK then mret None else free_sync_completion sc;; mret (Some rc).
Definition finish_sync (copy : sync_completion → outcome sync_result) (sc : Z)
    : M (Z * sync_result) :=
  c ← the_sync sc;
  r ← (if sc_rc c =? 0 then lift (copy c) else mret (mk_sync_result (sc_mem c) None None None None));
  free_sync_completion sc;;
  mret (sc_rc c, r).

(** [if (stat) *stat = ...] *)
Definition given {A} (pointer : bool) (x : A) : option A := if pointer then Some x else None.
(** Members of the union as they are read: zeros if none was ever assigned; [u.str] as a
    [Stat] has whatever the bytes of a pointer say.  No call reads another member than
    these. *)
Definition as_stat (u : sync_union) : outcome Stat :=
  match u with UStat s => Ret s | UNone => Ret zero_Stat | UStr _ => Ret junk_Stat | _ => UB end.
Definition as_data (u : sync_union) : outcome (Z * Stat) :=
  match u with UData _ len s => Ret (len, s) | _ => UB end.
Definition as_strs (u : sync_union) : outcome (vector (option cstring)) :=
  match u with UStrs v => Ret v | UNone => Ret (mk_vector 0 None) | _ => UB end.
Definition as_strs_stat (u : sync_union) : outcome (vector (option cstring) * Stat) :=
  match u with UStrsStat v s => Ret (v, s) | UNone => Ret (mk_vector 0 None, zero_Stat) | _ => UB end.
Definition as_acl (u : sync_union) : outcome (vector ACL * Stat) :=
  match u with UAcl v s => Ret (v, s) | UNone => Ret (mk_vector 0 None, zero_Stat) | _ => UB end.

Definition copy_nothing (c : sync_completion) : outcome sync_result :=
  Ret (mk_sync_result (sc_mem c) None None None None).
Definition copy_stat (stat : bool) (c : sync_completion) : outcome sync_result :=
  s ← as_stat (sc_u c); Ret (mk_sync_result (sc_mem c) None (given stat s) None None).
Definition copy_buffer (stat : bool) (c : sync_completion) : outcome sync_result :=
  '(len, s) ← as_data (sc_u c);
  Ret (mk_sync_result (sc_mem c) (Some len) (given stat s) None None).
Definition copy_strings (strings : bool) (c : sync_completion) : outcome sync_result :=
  v ← as_strs (sc_u c); Ret (mk_sync_result (sc_mem c) None None (given strings v) None).
(** [*stat] is assigned without a test. *)
Definition copy_strings_stat (strings stat : bool) (c : sync_completion) : outcome sync_result :=
  '(v, s) ← as_strs_stat (sc_u c);
  if stat then Ret (mk_sync_result (sc_mem c) None (Some s) (given strings v) None) else UB.
Definition copy_acl (acl stat : bool) (c : sync_completion) : outcome sync_result :=
  '(v, s) ← as_acl (sc_u c);
  Ret (mk_sync_result (sc_mem c) None (given stat s) None (given acl v)).

Definition zoo_create_ttl (path : option cstring) (value : option (list byte)) (valuelen : Z)
    (acl : option (vector ACL)) (mode ttl : Z) (path_buffer : option (list byte))
    (path_buffer_len : Z) : sync_call :=
  mk_sync_call
    (start_sync (UStr path_buffer_len) path_buffer
       (zoo_acreate_ttl path value valuelen acl mode ttl))
    (finish_sync copy_nothing).
Definition zoo_create (path : option cstring) (value : option (list byte)) (valuelen : Z)
    (acl : option (vector ACL)) (mode : Z) (path_buffer : option (list byte))
    (path_buffer_len : Z) : sync_call :=
  zoo_create_ttl path value valuelen acl mode (-1) path_buffer path_buffer_len.
Definition zoo_create2_ttl (path : option cstring) (value : option (list byte)) (valuelen : Z)
    (acl : option (vector ACL)) (mode ttl : Z) (path_buffer : option (list byte))
    (path_buffer_len : Z) (stat : bool) : sync_call :=
  mk_sync_call
    (start_sync (UStr path_buffer_len) path_buffer
       (zoo_acreate2_ttl path value valuelen acl mode ttl))
    (finish_sync (copy_stat stat)).
Definition zoo_create2 (path : option cstring) (value : option (list byte)) (valuelen : Z)
    (acl : option (vector ACL)) (mode : Z) (path_buffer : option (list byte))
    (path_buffer_len : Z) (stat : bool) : sync_call :=
  zoo_create2_ttl path value valuelen acl mode (-1) path_buffer path_buffer_len stat.
Definition zoo_delete (path : option cstring) (version : Z) : sync_call :=
  mk_sync_call (start_sync UNone None (zoo_adelete path version)) (finish_sync copy_nothing).

(** A call with the default watcher of the handle. *)
Definition with_default_watcher (watch : Z) (call : Z → Z → sync_call) : sync_call :=
  mk_sync_call
    (λ sc, '(w, ctx) ← default_watcher watch; before_wait (call w ctx) sc)
    (after_wait (call 0 0)).
Definition zoo_wexists (path : option cstring) (stat : bool) (watcher watcherCtx : Z)
    : sync_call :=
  mk_sync_call (start_sync UNone None (zoo_awexists path watcher watcherCtx))
    (finish_sync (copy_stat stat)).
Definition zoo_exists (path : option cstring) (watch : Z) (stat : bool) : sync_call :=
  with_default_watcher watch (zoo_wexists path stat).

(** [buffer_len]: NULL, or the number it points to. *)
Definition with_buffer_len (buffer_len : option Z) (call : Z → sync_call) : sync_call :=
  match buffer_len with
  | None => mk_sync_call (λ _, mret (Some ZBADARGUMENTS)) (λ _, raise UB)
  | Some len => call len
  end.
Definition zoo_wget (path : option cstring) (buffer : option (list byte)) (buffer_len : option Z)
    (stat : bool) (watcher watcherCtx : Z) : sync_call :=
  with_buffer_len buffer_len (λ len,
    mk_sync_call (start_sync (UData true len zero_Stat) buffer (zoo_awget path watcher watcherCtx))
      (finish_sync (copy_buffer stat))).
Definition zoo_get (path : option cstring) (watch : Z) (buffer : option (list byte))
    (buffer_len : option Z) (stat : bool) : sync_call :=
  with_default_watcher watch (zoo_wget path buffer buffer_len stat).
Definition zoo_getconfig (watch : Z) (buffer : option (list byte)) (buffer_len : option Z)
    (stat : bool) : sync_call :=
  with_default_watcher watch (zoo_wget (Some ZOO_CONFIG_NODE) buffer buffer_len stat).
Definition zoo_wgetconfig (buffer : option (list byte)) (buffer_len : option Z) (stat : bool)
    (watcher watcherCtx : Z) : sync_call :=
  zoo_wget (Some ZOO_CONFIG_NODE) buffer buffer_len stat watcher watcherCtx.
Definition zoo_reconfig (joining leaving members : option cstring) (version : Z)
    (buffer : option (list byte)) (buffer_len : option Z) (stat : bool) : sync_call :=
  with_buffer_len buffer_len (λ len,
    mk_sync_call
      (start_sync (UData true len zero_Stat) buffer (zoo_areconfig joining leaving members version))
      (finish_sync (copy_buffer stat))).

Definition zoo_set2 (path : option cstring) (buffer : option (list byte)) (buflen version : Z)
    (stat : bool) : sync_call :=
  mk_sync_call (start_sync UNone None (zoo_aset path buffer buflen version))
    (finish_sync (copy_stat stat)).
Definition zoo_set (path : option cstring) (buffer : option (list byte)) (buflen version : Z)
    : sync_call :=
  zoo_set2 path buffer buflen version false.

Definition zoo_wget_children_ (path : option cstring) (strings : bool) (watcher watcherCtx : Z)
    : sync_call :=
  mk_sync_call (start_sync UNone None (zoo_awget_children path watcher watcherCtx))
    (finish_sync (copy_strings strings)).
Definition zoo_wget_children2_ (path : option cstring) (strings stat : bool)
    (watcher watcherCtx : Z) : sync_call :=
  mk_sync_call (start_sync UNone None (zoo_awget_children2 path watcher watcherCtx))
    (finish_sync (copy_strings_stat strings stat)).
Definition zoo_get_children (path : option cstring) (watch : Z) (strings : bool) : sync_call :=
  with_default_watcher watch (zoo_wget_children_ path strings).
Definition zoo_wget_children (path : option cstring) (strings : bool) (watcher watcherCtx : Z)
    : sync_call :=
  zoo_wget_children_ path strings watcher watcherCtx.
Definition zoo_get_children2 (path : option cstring) (watch : Z) (strings stat : bool)
    : sync_call :=
  with_default_watcher watch (zoo_wget_children2_ path strings stat).
Definition zoo_wget_children2 (path : option cstring) (strings stat : bool)
    (watcher watcherCtx : Z) : sync_call :=
  zoo_wget_children2_ path strings stat watcher watcherCtx.

Definition zoo_get_acl (path : option cstring) (acl stat : bool) : sync_call :=
  mk_sync_call (start_sync UNone None (zoo_aget_acl path)) (finish_sync (copy_acl acl stat)).
Definition zoo_set_acl (path : option cstring) (version : Z) (acl : option (vector ACL))
    : sync_call :=
  mk_sync_call (start_sync UNone None (zoo_aset_acl path version acl)) (finish_sync copy_nothing).

Definition remove_watches (path : option cstring) (wtype watcher wctx : Z) (local all : bool)
    : sync_call :=
  match path with
  | None => mk_sync_call (λ _, mret (Some ZBADARGUMENTS)) (λ _, raise UB)
  | Some path =>
      mk_sync_call
        (start_sync UNone None (λ completion data,
           aremove_watches (Some path) wtype watcher wctx local completion data all))
        (finish_sync copy_nothing)
  end.
Definition zoo_remove_watches (path : option cstring) (wtype watcher watcherCtx : Z)
    (local : bool) : sync_call :=
  remove_watches path wtype watcher watcherCtx local false.
Definition zoo_remove_all_watches (path : option cstring) (wtype : Z) (local : bool) : sync_call :=
  remove_watches path wtype 0 0 local true.
Definition zoo_multi (ops : list zoo_op) (results : Z) : sync_call :=
  mk_sync_call
    (start_sync UNone None (λ completion data,
       '(rc, _) ← zoo_amulti ops results completion data; mret rc))
    (finish_sync copy_nothing).
End sync.

(** Replaces the operations of the adaptor by those of the build with threads. *)
Ltac threaded :=
  cbn [process_async get_xid adaptor_send_queue fail_synchronous answer_synchronous notify_local
       mt_adaptor];
  unfold mt_process_async, mt_get_xid, mt_adaptor_send_queue.
