(* ===== verification/Threads.v ===== *)
(** * The threads of the library

    src/mt_adaptor.c: the thread for I/O ([do_io]), which runs the event loop, the thread
    for completions ([do_completion]), which calls the user's functions, the barrier they
    start behind, and [adaptor_finish].  A process is the state of the library with the
    threads of the application that are blocked in a synchronous call; its steps are what
    one thread does between two points where it can block, in any order.  Races inside
    such a step are not modelled. *)

From S2P Require Import Prelude RecordIO Jute Path Watchers Addrvec Hosts Handshake Transport Handle.
From S2P Require Import Session Requests Interest Init Sync.
Local Open Scope Z_scope.
#[local] Existing Instance mt_adaptor | 0.

(** ** The barrier *)
Module Barrier.

(** A thread that has not reached the barrier; asleep in [pthread_cond_wait]; woken up but
    without the lock yet; and past the barrier. *)
Inductive pc := Coming | Asleep | Awake | Passed.
(** [threadsToWait], the thread in [wait_for_others] and those in [notify_thread_ready]. *)
Record state := mk_state { threadsToWait : Z; starter : pc; workers : list pc }.

(** [pthread_cond_broadcast]. *)
Definition broadcast (p : pc) : pc := match p with Asleep => Awake | p => p end.
(** The test of the loop around [pthread_cond_wait]. *)
Definition test (n : Z) : pc := if 0 <? n then Asleep else Passed.

Definition wait_for_others (s : state) : state :=
  mk_state (threadsToWait s) (test (threadsToWait s)) (workers s).
Definition notify_thread_ready (i : nat) (s : state) : state :=
  let n := threadsToWait s - 1 in
  mk_state n (broadcast (starter s)) (<[i := test n]> (broadcast <$> workers s)).

(** What runs under the lock is one step. *)
Inductive step : state → state → Prop :=
  | step_starter s : starter s = Coming → step s (wait_for_others s)
  | step_worker s i : workers s !! i = Some Coming → step s (notify_thread_ready i s)
  | step_starter_again s : starter s = Awake → step s (wait_for_others s)
  | step_worker_again s i : workers s !! i = Some Awake →
      step s (mk_state (threadsToWait s) (starter s) (<[i := test (threadsToWait s)]> (workers s))).
(** A wakeup without a broadcast, which POSIX allows. *)
Inductive spurious : state → state → Prop :=
  | spurious_starter s : starter s = Asleep →
      spurious s (mk_state (threadsToWait s) Awake (workers s))
  | spurious_worker s i : workers s !! i = Some Asleep →
      spurious s (mk_state (threadsToWait s) (starter s) (<[i := Awake]> (workers s))).

(** [start_threads]: two threads to wait for. *)
Definition start_threads : state := mk_state 2 Coming [Coming; Coming].
End Barrier.

(** ** The synchronous calls of the application *)
Inductive sync_request :=
  | SCreate (path : option cstring) (value : option (list byte)) (valuelen : Z)
      (acl : option (vector ACL)) (mode : Z) (buf : option (list byte)) (buflen : Z)
  | SCreateTTL (path : option cstring) (value : option (list byte)) (valuelen : Z)
      (acl : option (vector ACL)) (mode ttl : Z) (buf : option (list byte)) (buflen : Z)
  | SCreate2 (path : option cstring) (value : option (list byte)) (valuelen : Z)
      (acl : option (vector ACL)) (mode : Z) (buf : option (list byte)) (buflen : Z) (stat : bool)
  | SCreate2TTL (path : option cstring) (value : option (list byte)) (valuelen : Z)
      (acl : option (vector ACL)) (mode ttl : Z) (buf : option (list byte)) (buflen : Z)
      (stat : bool)
  | SDelete (path : option cstring) (version : Z)
  | SExists (path : option cstring) (watch : Z) (stat : bool)
  | SWExists (path : option cstring) (stat : bool) (watcher ctx : Z)
  | SGet (path : option cstring) (watch : Z) (buf : option (list byte)) (len : option Z) (stat : bool)
  | SWGet (path : option cstring) (buf : option (list byte)) (len : option Z) (stat : bool)
      (watcher ctx : Z)
  | SGetConfig (watch : Z) (buf : option (list byte)) (len : option Z) (stat : bool)
  | SWGetConfig (buf : option (list byte)) (len : option Z) (stat : bool) (watcher ctx : Z)
  | SReconfig (joining leaving members : option cstring) (version : Z) (buf : option (list byte))
      (len : option Z) (stat : bool)
  | SSet (path : option cstring) (value : option (list byte)) (buflen version : Z)
  | SSet2 (path : option cstring) (value : option (list byte)) (buflen version : Z) (stat : bool)
  | SGetChildren (path : option cstring) (watch : Z) (strings : bool)
  | SWGetChildren (path : option cstring) (strings : bool) (watcher ctx : Z)
  | SGetChildren2 (path : option cstring) (watch : Z) (strings stat : bool)
  | SWGetChildren2 (path : option cstring) (strings stat : bool) (watcher ctx : Z)
  | SGetAcl (path : option cstring) (acl stat : bool)
  | SSetAcl (path : option cstring) (version : Z) (acl : option (vector ACL))
  | SMulti (ops : list zoo_op) (results : Z)
  | SRemoveWatches (path : option cstring) (wtype watcher ctx : Z) (local : bool)
  | SRemoveAllWatches (path : option cstring) (wtype : Z) (local : bool).

Section threads.
Context `{Host, Locals}.

Definition sync_api (r : sync_request) : sync_call :=
  match r with
  | SCreate path value len acl mode buf buflen => zoo_create path value len acl mode buf buflen
  | SCreateTTL path value len acl mode ttl buf buflen =>
      zoo_create_ttl path value len acl mode ttl buf buflen
  | SCreate2 path value len acl mode buf buflen stat =>
      zoo_create2 path value len acl mode buf buflen stat
  | SCreate2TTL path value len acl mode ttl buf buflen stat =>
      zoo_create2_ttl path value len acl mode ttl buf buflen stat
  | SDelete path version => zoo_delete path version
  | SExists path watch stat => zoo_exists path watch stat
  | SWExists path stat watcher ctx => zoo_wexists path stat watcher ctx
  | SGet path watch buf len stat => zoo_get path watch buf len stat
  | SWGet path buf len stat watcher ctx => zoo_wget path buf len stat watcher ctx
  | SGetConfig watch buf len stat => zoo_getconfig watch buf len stat
  | SWGetConfig buf len stat watcher ctx => zoo_wgetconfig buf len stat watcher ctx
  | SReconfig joining leaving members version buf len stat =>
      zoo_reconfig joining leaving members version buf len stat
  | SSet path value buflen version => zoo_set path value buflen version
  | SSet2 path value buflen version stat => zoo_set2 path value buflen version stat
  | SGetChildren path watch strings => zoo_get_children path watch strings
  | SWGetChildren path strings watcher ctx => zoo_wget_children path strings watcher ctx
  | SGetChildren2 path watch strings stat => zoo_get_children2 path watch strings stat
  | SWGetChildren2 path strings stat watcher ctx => zoo_wget_children2 path strings stat watcher ctx
  | SGetAcl path acl stat => zoo_get_acl path acl stat
  | SSetAcl path version acl => zoo_set_acl path version acl
  | SMulti ops results => zoo_multi ops results
  | SRemoveWatches path wtype watcher ctx local => zoo_remove_watches path wtype watcher ctx local
  | SRemoveAllWatches path wtype local => zoo_remove_all_watches path wtype local
  end.

(** ** The loops of the two threads *)

(** What [poll] reports on the connection and on the pipe. *)
Record poll_answer := mk_poll { pa_in : bool; pa_out : bool; pa_hup : bool; pa_pipe : bool }.
(** [zookeeper_interest] leaves the local variables [fd], [interest] and [tv], that is
    [junk], alone when it fails early. *)
Definition io_round (junk : interest) (answer : poll_answer) : MI () :=
  '(_, out) ← zookeeper_interest junk;
  let events :=
    if in_fd out =? -1 then in_events out else
    Z.lor (if pa_in answer then ZOOKEEPER_READ else 0)
          (if pa_out answer || pa_hup answer then ZOOKEEPER_WRITE else 0) in
  (if pa_pipe answer then sess (modifyw (set_w_pipe 0)) else mret ());;
  sess (zookeeper_process events);;
  mret ().

(** [zookeeper_close] up to the joins of [adaptor_finish], [false] if there was nothing to
    wait for; and what it does after them. *)
Definition close_begin : M bool :=
  set_zh_close_requested :=! 1;;
  n ← inc_ref_counter 1;
  if 1 <? n then free_completions true ZCLOSING;; api_prolog;; wakeup_io_thread;; mret true
  else close_session;; mret false.
Definition close_end : M () := api_epilog 0;; api_epilog 0;; mret ().

(** ** Processes *)

(** The threads of the application that wait, with the addresses of their completions;
    whether the thread for I/O, the thread for completions and a close under way are
    there. *)
Record process := mk_process {
  p_isys : isys;
  p_waiting : gmap nat (sync_request * Z);
  p_io : bool;
  p_completion : bool;
  p_closing : bool;
}.
Definition p_sys (p : process) : sys := i_sys (p_isys p).
Definition p_zh (p : process) : zhandle := s_zh (p_sys p).
Definition p_sync (p : process) : gmap Z sync_completion := w_sync (s_world (p_sys p)).
Definition on_sys (s : sys) (p : process) : process :=
  mk_process (mk_isys s (i_net (p_isys p)) (i_env (p_isys p))) (p_waiting p) (p_io p)
    (p_completion p) (p_closing p).
Definition on_isys (s : isys) (p : process) : process :=
  mk_process s (p_waiting p) (p_io p) (p_completion p) (p_closing p).
Definition set_waiting (ws : gmap nat (sync_request * Z)) (p : process) : process :=
  mk_process (p_isys p) ws (p_io p) (p_completion p) (p_closing p).
Definition set_threads (io completion closing : bool) (p : process) : process :=
  mk_process (p_isys p) (p_waiting p) io completion closing.

(** A thread enters a synchronous call, with a new address for the completion and memory
    for what the call allocates; leaves it; submits an asynchronous request, whose data
    is not the address of a completion of the library.  A round of either thread of the
    library, and its end.  A thread closes the handle.  The world changes: the answers of
    the operating system, but not the memory of the library. *)
Inductive tstep (p : process) : process → Prop :=
  | step_call i r sc a s : zh_freed (p_zh p) = false → p_waiting p !! i = None →
      p_sync p !! sc = None → sc ≠ 0 → w_alloc (s_world (p_sys p)) = [] →
      before_wait (sync_api r) sc (p_sys p) = Ret (a, s) →
      tstep p (on_sys s (set_waiting
        (match a with None => <[i := (r, sc)]> (p_waiting p) | Some _ => p_waiting p end) p))
  | step_wake i r sc c a s : p_waiting p !! i = Some (r, sc) → p_sync p !! sc = Some c →
      sync_ready c = true → after_wait (sync_api r) sc (p_sys p) = Ret (a, s) →
      tstep p (on_sys s (set_waiting (delete i (p_waiting p)) p))
  | step_request r fn data rc s : zh_freed (p_zh p) = false → fn ≠ SYNCHRONOUS_MARKER →
      p_sync p !! data = None → run_request r fn data (p_sys p) = Ret (rc, s) →
      tstep p (on_sys s p)
  | step_io junk answer a s : zh_freed (p_zh p) = false → p_io p = true →
      zh_close_requested (p_zh p) = 0 → is_unrecoverable (p_zh p) = false →
      io_round junk answer (p_isys p) = Ret (a, s) → tstep p (on_isys s p)
  | step_io_end a s : p_io p = true →
      zh_close_requested (p_zh p) ≠ 0 ∨ is_unrecoverable (p_zh p) = true →
      api_epilog 0 (p_sys p) = Ret (a, s) →
      tstep p (on_sys s (set_threads false (p_completion p) (p_closing p) p))
  | step_completion a s : zh_freed (p_zh p) = false → p_completion p = true →
      process_completions (p_sys p) = Ret (a, s) → tstep p (on_sys s p)
  | step_completion_end a s : p_completion p = true → zh_close_requested (p_zh p) ≠ 0 →
      api_epilog 0 (p_sys p) = Ret (a, s) →
      tstep p (on_sys s (set_threads (p_io p) false (p_closing p) p))
  | step_close a s : zh_freed (p_zh p) = false → p_closing p = false →
      close_begin (p_sys p) = Ret (a, s) →
      tstep p (on_sys s (set_threads (p_io p) (p_completion p) a p))
  | step_close_end a s : p_closing p = true → p_io p = false → p_completion p = false →
      close_end (p_sys p) = Ret (a, s) →
      tstep p (on_sys s (set_threads false false false p))
  | step_world w e : w_sync w = p_sync p →
      tstep p (on_isys (mk_isys (mk_sys (p_zh p) w) (i_net (p_isys p)) e) p).

(** [adaptor_init] with the [start_threads] at its end; [pipe_ok] is what [pipe] says.  The
    starting thread holds a reference until both threads, which take one each, have passed
    the barrier. *)
Definition adaptor_init (pipe_ok : bool) : M Z :=
  ok ← allocating (λ o, Ret (alloc o));
  if negb ok then mret (-1) else
  if negb pipe_ok then mret (-1) else
  api_prolog;;
  api_prolog;;
  api_prolog;;
  api_epilog 0;;
  mret 0.
(** After it: both threads hold a reference to the new handle. *)
Definition started (p : process) : Prop :=
  p_waiting p = ∅ ∧ p_sync p = ∅ ∧ p_io p = true ∧ p_completion p = true ∧ p_closing p = false ∧
  zh_sent_requests (p_zh p) = [] ∧ zh_outstanding_sync (p_zh p) = 0 ∧
  zh_ref_counter (p_zh p) = 2 ∧ zh_close_requested (p_zh p) = 0 ∧ zh_freed (p_zh p) = false.
End threads.
