(* ===== verification/SyncFacts.v ===== *)
(** * What the library does to the synchronous completions

    The requests that wait for an answer hold the addresses of synchronous completions,
    which belong to the threads that wait.  [linked] says that the two go together;
    [settles m] that [m] keeps them so and leaves alone every completion that is already
    complete.  The tactic [settle] proves it of the functions of the engine. *)

From S2P Require Import Prelude RecordIO Jute Path Watchers Addrvec Hosts Handshake Transport Handle.
From S2P Require Import Session Requests Interest Init Triples Sync Threads.
Local Open Scope Z_scope.
#[local] Existing Instance mt_adaptor | 0.

Section stills.
Context `{Host, Locals}.

Global Instance mt_adaptor_laws : AdaptorLaws (H := mt_adaptor).
Proof.
  split; [|intros timeout]; threaded; [by stills|].
  unfold wakeup_io_thread, zh_flush_send_queue. stills.
Qed.
Lemma still_the_sync sc : still (the_sync sc).
Proof. unfold the_sync. stills. Qed.
Lemma still_multi_responses xid l : ∀ rc mhdr ia, still (multi_responses xid l rc mhdr ia).
Proof. induction l as [|c l IH]; intros rc mhdr ia; cbn [multi_responses]; stills. Qed.
Hint Resolve still_multi_responses : quiet.
Lemma still_process_sync_completion cptr sc ia : still (process_sync_completion cptr sc ia).
Proof. unfold process_sync_completion, deserialize_multi. stills. Qed.
End stills.
#[export] Hint Resolve still_the_sync still_process_sync_completion : quiet.

(** ** The synchronous requests of a queue *)
Definition synchronous (c : completion_list) : Prop := c_result c = SYNCHRONOUS_MARKER.
Global Instance synchronous_dec c : Decision (synchronous c).
Proof. unfold synchronous. apply _. Defined.
(** The completions they will notify. *)
Definition notified (l : list completion_list) : list Z := c_data <$> filter synchronous l.

Lemma notified_app l l' : notified (l ++ l') = notified l ++ notified l'.
Proof. unfold notified. by rewrite filter_app, fmap_app. Qed.
Lemma notified_cons c l :
  notified (c :: l) = if decide (synchronous c) then c_data c :: notified l else notified l.
Proof. unfold notified. rewrite filter_cons. by case_decide. Qed.

Definition incomplete (m : gmap Z sync_completion) (sc : Z) : Prop :=
  ∃ c, m !! sc = Some c ∧ sc_complete c = 0.
(** [l] are the completions somebody will notify: each once, they are exactly those that
    are not complete yet, and they are counted. *)
Record linked_to (l : list Z) (m : gmap Z sync_completion) (n : Z) : Prop := {
  lk_once : NoDup l;
  lk_incomplete : ∀ sc, sc ∈ l ↔ incomplete m sc;
  lk_count : n = Z.of_nat (length l);
}.
Definition linked (s : sys) : Prop :=
  linked_to (notified (zh_sent_requests (s_zh s))) (w_sync (s_world s))
    (zh_outstanding_sync (s_zh s)).

(** What kind of results a call asks for, with the type of its completion. *)
Inductive kind := KVoid | KPath | KPathStat | KStat | KData | KStrings | KStringsStat | KAcl | KMulti.
Definition kind_type (k : kind) : Z :=
  match k with
  | KVoid => COMPLETION_VOID | KPath => COMPLETION_STRING | KPathStat => COMPLETION_STRING_STAT
  | KStat => COMPLETION_STAT | KData => COMPLETION_DATA | KStrings => COMPLETION_STRINGLIST
  | KStringsStat => COMPLETION_STRINGLIST_STAT | KAcl => COMPLETION_ACLLIST
  | KMulti => COMPLETION_MULTI
  end.
(** The member of the union a call of this kind may find. *)
Definition fits (k : kind) (u : sync_union) : bool :=
  match k, u with
  | (KVoid | KPath | KMulti), _ => true
  | KPathStat, (UStr _ | UStat _) => true
  | KStat, (UNone | UStat _) => true
  | KData, UData _ _ _ => true
  | KStrings, (UNone | UStrs _) => true
  | KStringsStat, (UNone | UStrsStat _ _) => true
  | KAcl, (UNone | UAcl _ _) => true
  | _, _ => false
  end.
(** The completion of the request [e] before and after the library has dealt with it. *)
Definition dealt (e : completion_list) (c c' : sync_completion) : Prop :=
  sc_complete c' = 1 ∧ ∀ k, kind_type k = c_type e → fits k (sc_u c) = true → fits k (sc_u c') = true.

(** From one state to a later one: the same completions, nothing happens to one that is
    complete, no synchronous request is new, and one that changes is complete. *)
Record served (s s' : sys) : Prop := {
  sv_dom : dom (w_sync (s_world s')) = dom (w_sync (s_world s));
  sv_kept : ∀ sc c, w_sync (s_world s) !! sc = Some c → sc_complete c ≠ 0 →
    w_sync (s_world s') !! sc = Some c;
  sv_queue : ∀ e, synchronous e → e ∈ zh_sent_requests (s_zh s') → e ∈ zh_sent_requests (s_zh s);
  sv_dealt : ∀ sc c c', w_sync (s_world s) !! sc = Some c → w_sync (s_world s') !! sc = Some c' →
    c' = c ∨ ∃ e, synchronous e ∧ e ∈ zh_sent_requests (s_zh s) ∧ c_data e = sc ∧ dealt e c c';
}.
Lemma served_same s s' :
  (∀ e, synchronous e → e ∈ zh_sent_requests (s_zh s') → e ∈ zh_sent_requests (s_zh s)) →
  w_sync (s_world s') = w_sync (s_world s) → served s s'.
Proof. intros Hq Hw. split; rewrite ?Hw; [done..|]. intros. left. congruence. Qed.
Global Instance served_preorder : PreOrder served.
Proof.
  split; [intros s; by apply served_same|]. intros s1 s2 s3 [D1 K1 Q1 F1] [D2 K2 Q2 F2].
  split; [congruence|by eauto..|]. intros sc c c' Hc Hc'.
  destruct (w_sync (s_world s2) !! sc) as [c2|] eqn:Hc2.
  2: { apply not_elem_of_dom in Hc2. rewrite D1 in Hc2. by apply not_elem_of_dom in Hc2; congruence. }
  destruct (F1 _ _ _ Hc Hc2) as [->|(e & He & Hin & Hd & [Hcomp Hfit])].
  - destruct (F2 _ _ _ Hc2 Hc') as [->|(e & He & Hin & Hd & Hx)]; [by left|]. right. exists e. auto.
  - right. exists e. split_and!; [done..|]. rewrite (K2 _ _ Hc2) in Hc' by lia. by simplify_eq.
Qed.

Definition settles {A} (m : M A) : Prop := ∀ s a s', linked s → m s = Ret (a, s') →
  linked s' ∧ served s s'.

Lemma settles_still {A} (m : M A) : still m → settles m.
Proof.
  intros Hm s a s' Hs E. destruct (Hm _ _ _ E) as (Hk & Hr & Hw).
  unfold linked. rewrite Hr, Hw. split; [|by apply served_same; rewrite ?Hr].
  replace (zh_outstanding_sync (s_zh s')) with (zh_outstanding_sync (s_zh s)); [done|].
  change (k_sync (core_of (s_zh s)) = k_sync (core_of (s_zh s'))). by rewrite Hk.
Qed.
Lemma settles_bind {A B} (m : M A) (f : A → M B) :
  settles m → (∀ a, settles (f a)) → settles (m ≫= f).
Proof.
  intros Hm Hf s b s' Hs E. apply bind_Ret_inv in E as ((a & s1) & E1 & E2).
  destruct (Hm _ _ _ Hs E1) as [Hs1 H1]. destruct (Hf a _ _ _ Hs1 E2) as [Hs2 H2].
  split; [done|by etrans].
Qed.
Lemma settles_modify f :
  (∀ zh, zh_sent_requests (f zh) = zh_sent_requests zh) →
  (∀ zh, zh_outstanding_sync (f zh) = zh_outstanding_sync zh) → settles (modify f).
Proof.
  intros Hr Hn s a s' Hs E. injection E as <- <-.
  split; [|apply served_same; [cbn [s_zh]; by rewrite Hr|done]]. unfold linked. cbn [s_zh s_world]. by rewrite Hr, Hn.
Qed.

Create HintDb settle.
#[export] Hint Resolve settles_still : settle.
Ltac settle_step :=
  match goal with
  | |- settles (_ ≫= _) => apply settles_bind; [|intros ?]
  | |- settles (modify _) => apply settles_modify; intros ?; reflexivity
  | |- settles (match ?x with _ => _ end) => destruct x
  | |- settles _ => solve [eauto 2 with settle nocore]
  | |- settles _ => apply settles_still; by stills
  end.
Ltac settle := repeat settle_step.

Section engine.
Context `{Host, Locals}.

(** ** Notifying *)

(** A completion is complete: what is left waits as before. *)
Lemma linked_to_complete sc l m n c :
  linked_to (sc :: l) m n → sc_complete c = 1 → linked_to l (<[sc := c]> m) (n - 1).
Proof.
  intros [[Hsc Hl]%NoDup_cons Hi Hn] Hc. split; [done| |simpl in Hn; lia].
  intros sc'. unfold incomplete. destruct (decide (sc' = sc)) as [->|Hne].
  - rewrite lookup_insert, decide_True by done. split; [done|]. intros (c' & E & Hc'). simplify_eq. lia.
  - rewrite lookup_insert_ne by done. rewrite <-(Hi sc'). rewrite elem_of_cons. naive_solver.
Qed.
Lemma served_complete e s s' c c' :
  synchronous e → w_sync (s_world s) !! c_data e = Some c → sc_complete c = 0 →
  w_sync (s_world s') = <[c_data e := c']> (w_sync (s_world s)) → dealt e c c' →
  e ∈ zh_sent_requests (s_zh s) →
  (∀ e, synchronous e → e ∈ zh_sent_requests (s_zh s') → e ∈ zh_sent_requests (s_zh s)) →
  served s s'.
Proof.
  intros Hs Hm Hc Hw Hd He Hq. split; rewrite ?Hw; [| |done|].
  - rewrite dom_insert_L. apply elem_of_dom_2 in Hm. set_solver.
  - intros sc' c1 H1 Hc1. rewrite lookup_insert_ne; [done|]. intros <-. congruence.
  - intros sc c1 c2 H1 H2. destruct (decide (sc = c_data e)) as [->|Hne].
    + rewrite lookup_insert, decide_True in H2 by done. simplify_eq. right. by exists e.
    + rewrite lookup_insert_ne in H2 by done. left. congruence.
Qed.

(** What [fail_synchronous] and [answer_synchronous] have in common; [P] relates the
    completion before and after. *)
Definition stores (sc : Z) (Q : sync_completion → Prop) (m : M ()) : Prop :=
  ∀ s a s' l, linked_to (sc :: l) (w_sync (s_world s)) (zh_outstanding_sync (s_zh s)) →
    m s = Ret (a, s') →
    zh_sent_requests (s_zh s') = zh_sent_requests (s_zh s) ∧
    linked_to l (w_sync (s_world s')) (zh_outstanding_sync (s_zh s')) ∧
    ∃ c, w_sync (s_world s') = <[sc := c]> (w_sync (s_world s)) ∧ sc_complete c = 1 ∧ Q c.
Definition completes (sc : Z) (P : sync_completion → sync_completion → Prop) (m : M ()) : Prop :=
  ∀ s a s' l, linked_to (sc :: l) (w_sync (s_world s)) (zh_outstanding_sync (s_zh s)) →
    m s = Ret (a, s') →
    zh_sent_requests (s_zh s') = zh_sent_requests (s_zh s) ∧
    linked_to l (w_sync (s_world s')) (zh_outstanding_sync (s_zh s')) ∧
    ∃ c0 c, w_sync (s_world s) !! sc = Some c0 ∧ sc_complete c0 = 0 ∧
      w_sync (s_world s') = <[sc := c]> (w_sync (s_world s)) ∧ sc_complete c = 1 ∧ P c0 c.

Lemma the_sync_Ret sc s c s' :
  the_sync sc s = Ret (c, s') → w_sync (s_world s) !! sc = Some c ∧ s' = s.
Proof.
  unfold the_sync. intros E. apply bind_Ret_inv in E as ((m & s1) & E1 & E2).
  injection E1 as <- <-. destruct (_ !! _) eqn:Hc; [|done]. by injection E2 as <- <-.
Qed.
(** The common end: the completion is stored, notified and no longer counted. *)
Lemma stores_put sc Q c :
  Q (set_sc_complete 1 c) →
  stores sc Q (put_sync sc c;; notify_sync_completion sc;; one_less_outstanding).
Proof.
  intros HP s a s' l Hl E. apply bind_Ret_inv in E as (([] & s1) & E1 & E). injection E1 as <-.
  apply bind_Ret_inv in E as (([] & s2) & E2 & E). injection E as <- <-.
  unfold notify_sync_completion in E2. apply bind_Ret_inv in E2 as ((c2 & s3) & E3 & E2).
  apply the_sync_Ret in E3 as [E3 ->]. injection E2 as <-.
  cbn [s_world w_sync set_w_sync s_zh] in *. rewrite lookup_insert, decide_True in E3 by done. simplify_eq.
  rewrite insert_insert, decide_True by done.
  split; [done|]. split; [by apply linked_to_complete|]. by eexists.
Qed.
Lemma stores_still {A} sc Q (m : M A) f :
  still m → (∀ s a s', m s = Ret (a, s') → stores sc Q (f a)) → stores sc Q (m ≫= f).
Proof.
  intros Hm Hf s b s' l Hl E. apply bind_Ret_inv in E as ((a & s1) & E1 & E2).
  destruct (Hm _ _ _ E1) as (Hk & Hr & Hw).
  assert (zh_outstanding_sync (s_zh s1) = zh_outstanding_sync (s_zh s)) as Hn.
  { change (k_sync (core_of (s_zh s1)) = k_sync (core_of (s_zh s))). by rewrite Hk. }
  rewrite <-Hr, <-Hw. apply (Hf s a s1 E1 s1 b s' l); [|done]. by rewrite Hw, Hn.
Qed.
Lemma completes_the sc P f :
  (∀ c, stores sc (P c) (f c)) → completes sc P (the_sync sc ≫= f).
Proof.
  intros Hf s a s' l Hl E. apply bind_Ret_inv in E as ((c0 & s1) & E1 & E2).
  apply the_sync_Ret in E1 as [Hc ->].
  destruct (Hf c0 _ _ _ _ Hl E2) as (Hr & Hl' & c & Hw & Hc1 & HP).
  split; [done|]. split; [done|]. exists c0, c. split_and!; [done| |done..].
  destruct (proj1 (lk_incomplete _ _ _ Hl sc)) as (c' & E' & E0); [by left|congruence].
Qed.
Lemma fail_completes cptr reason :
  completes (c_data cptr) (λ c0 c, c = set_sc_complete 1 (set_sc_rc reason c0))
    (fail_synchronous cptr reason).
Proof.
  threaded. unfold mt_fail_synchronous. apply completes_the. intros c. by apply stores_put.
Qed.
(** Whatever the server answers, the thread that waits will find what it looks for. *)
Lemma process_sync_fits cptr c ia s c' s' :
  process_sync_completion cptr c ia s = Ret (c', s') →
  ∀ k, kind_type k = c_type cptr → fits k (sc_u c) = true → fits k (sc_u c') = true.
Proof.
  intros E k Hk Hf. unfold process_sync_completion in E. rewrite <-Hk in E.
  destruct k; cbn [kind_type Z.eqb Pos.eqb] in E; try done;
    (destruct (negb (sc_rc c =? 0)); [by injection E as <- <-|]);
    apply bind_Ret_inv in E as (([res ia'] & s1) & _ & E).
  - apply bind_Ret_inv in E as ((path & s2) & _ & E). destruct (sc_u c) eqn:Hu; try done.
    apply bind_Ret_inv in E as ((mem & s3) & _ & E). by injection E as <- <-.
  - by injection E as <- <-.
  - destruct (sc_u c) eqn:Hu; try done. destruct (_ =? -1); [by injection E as <- <-|].
    apply bind_Ret_inv in E as ((mem & s3) & _ & E). by injection E as <- <-.
  - by injection E as <- <-.
  - by injection E as <- <-.
  - by injection E as <- <-.
Qed.
Lemma answer_completes cptr rc ia :
  completes (c_data cptr) (dealt cptr) (answer_synchronous cptr rc ia).
Proof.
  threaded. unfold mt_answer_synchronous. apply completes_the. intros c.
  apply stores_still; [by stills|]. intros s c' s' E. apply stores_put. split; [done|].
  intros k Hk Hf. exact (process_sync_fits _ _ _ _ _ _ E k Hk Hf).
Qed.

(** ** Losing the connection: every thread that waits is notified *)
Lemma queue_completion_frame c s a s' : queue_completion c s = Ret (a, s') →
  zh_sent_requests (s_zh s') = zh_sent_requests (s_zh s) ∧
  zh_outstanding_sync (s_zh s') = zh_outstanding_sync (s_zh s) ∧
  w_sync (s_world s') = w_sync (s_world s).
Proof. intros E. by injection E as <- <-. Qed.

Lemma fake_response_frame cptr call reason s a s' :
  (if call : bool then
     let h := mk_ReplyHeader (c_xid cptr) (-1) reason in
     '(_, oa) ← marshal (serialize_ReplyHeader h);
     ok ← allocating (λ o, Ret (alloc o));
     if negb ok then raise Abort else
     let bptr := mk_bl (get_buffer oa) (get_buffer_len oa) 0 in
     queue_completion (set_c_buffer (Some bptr) cptr)
   else mret ()) s = Ret (a, s') →
  zh_sent_requests (s_zh s') = zh_sent_requests (s_zh s) ∧
  zh_outstanding_sync (s_zh s') = zh_outstanding_sync (s_zh s) ∧
  w_sync (s_world s') = w_sync (s_world s).
Proof.
  destruct call; intros E; [|by injection E as <- <-]. cbv zeta in E.
  assert (∀ B (m : M B) s b s', still m → m s = Ret (b, s') →
    zh_sent_requests (s_zh s') = zh_sent_requests (s_zh s) ∧
    zh_outstanding_sync (s_zh s') = zh_outstanding_sync (s_zh s) ∧
    w_sync (s_world s') = w_sync (s_world s)) as Hstill.
  { intros B m s1 b s1' Hm E1. destruct (Hm _ _ _ E1) as (Hk & Hr & Hw). split_and!; [done| |done].
    change (k_sync (core_of (s_zh s1')) = k_sync (core_of (s_zh s1))). by rewrite Hk. }
  apply bind_Ret_inv in E as (([? oa] & s1) & E1 & E).
  apply bind_Ret_inv in E as ((ok & s2) & E2 & E). destruct ok; [|done]. cbn [negb] in E.
  apply queue_completion_frame in E as (-> & -> & ->).
  apply Hstill in E2 as (-> & -> & ->); [|by stills]. by apply Hstill in E1; [|stills].
Qed.

(** Every completion of [l] has the result [reason], and nothing else changed. *)
Definition failed_all (l : list Z) (reason : Z) (m m' : gmap Z sync_completion) : Prop :=
  (∀ sc, sc ∈ l → ∃ c, m !! sc = Some c ∧ m' !! sc = Some (set_sc_complete 1 (set_sc_rc reason c))) ∧
  (∀ sc, sc ∉ l → m' !! sc = m !! sc).
Lemma fake_responses_settle l call reason : ∀ s a s',
  linked_to (notified l) (w_sync (s_world s)) (zh_outstanding_sync (s_zh s)) →
  fake_responses l call reason s = Ret (a, s') →
  zh_sent_requests (s_zh s') = zh_sent_requests (s_zh s) ∧
  linked_to [] (w_sync (s_world s')) (zh_outstanding_sync (s_zh s')) ∧
  failed_all (notified l) reason (w_sync (s_world s)) (w_sync (s_world s')).
Proof.
  induction l as [|c l IH]; intros s a s' Hl E.
  { injection E as <- <-. split_and!; [done..|]. split; [|done]. intros sc Hsc. by apply elem_of_nil in Hsc. }
  cbn [fake_responses] in E. apply bind_Ret_inv in E as ((u & s1) & E1 & E).
  rewrite notified_cons in *. unfold synchronous in *. destruct (decide _) as [Hc|Hc].
  - rewrite (proj2 (Z.eqb_eq _ _)) in E1 by done.
    destruct (fail_completes c reason _ _ _ _ Hl E1) as (Hr & Hl1 & c0 & c' & Hc0 & _ & Hw & _ & Hc').
    destruct (IH _ _ _ Hl1 E) as (Hr' & Hl2 & Hf1 & Hf2). split_and!; [congruence|done|].
    apply lk_once, NoDup_cons in Hl as [Hn Hnd]. split; intros sc Hsc.
    + apply elem_of_cons in Hsc as [->|Hsc].
      { exists c0. rewrite Hf2, Hw, lookup_insert, decide_True by done. by rewrite Hc'. }
      destruct (Hf1 _ Hsc) as (c1 & E1' & E2). exists c1. split; [|done].
      rewrite Hw, lookup_insert_ne in E1'; [done|]. by intros <-.
    + apply not_elem_of_cons in Hsc as [Hne Hsc]. by rewrite Hf2, Hw, lookup_insert_ne by done.
  - rewrite (proj2 (Z.eqb_neq _ _)) in E1 by done.
    apply fake_response_frame in E1 as (Hr & Hn & Hw). rewrite <-Hw, <-Hn in Hl. rewrite <-Hr, <-Hw.
    by apply (IH s1 a).
Qed.
Lemma elem_of_notified sc l :
  sc ∈ notified l ↔ ∃ e, synchronous e ∧ e ∈ l ∧ c_data e = sc.
Proof.
  unfold notified. rewrite list_elem_of_fmap. setoid_rewrite list_elem_of_filter. naive_solver.
Qed.
Lemma failed_all_served reason s s' :
  linked s → failed_all (notified (zh_sent_requests (s_zh s))) reason (w_sync (s_world s)) (w_sync (s_world s')) →
  zh_sent_requests (s_zh s') = [] → served s s'.
Proof.
  intros Hl [H1 H2] Hr. assert (∀ sc, is_Some (w_sync (s_world s') !! sc) ↔ is_Some (w_sync (s_world s) !! sc)) as Hd.
  { intros sc. destruct (decide (sc ∈ notified (zh_sent_requests (s_zh s)))) as [Hsc|Hsc]; [|by rewrite H2].
    by destruct (H1 _ Hsc) as (c & -> & ->). }
  split.
  - apply set_eq. intros sc. by rewrite !elem_of_dom.
  - intros sc c Hc Hn. rewrite H2; [done|]. intros Hsc%(lk_incomplete _ _ _ Hl).
    destruct Hsc as (c' & E & E0). congruence.
  - rewrite Hr. intros e _ He. by apply elem_of_nil in He.
  - intros sc c c' Hc Hc'. destruct (decide (sc ∈ notified (zh_sent_requests (s_zh s)))) as [Hsc|Hsc].
    2: { left. rewrite H2 in Hc' by done. congruence. }
    right. destruct (H1 _ Hsc) as (c1 & E1 & E2). simplify_eq.
    apply elem_of_notified in Hsc as (e & He & Hin & <-). exists e. split_and!; [done..|]. by split.
Qed.
(** [free_completions] notifies every thread that waits for an answer. *)
Lemma free_completions_settle call reason s a s' :
  linked s → free_completions call reason s = Ret (a, s') →
  zh_sent_requests (s_zh s') = [] ∧ linked s' ∧
  failed_all (notified (zh_sent_requests (s_zh s))) reason (w_sync (s_world s)) (w_sync (s_world s')).
Proof.
  intros Hs E. unfold free_completions in E.
  apply bind_Ret_inv in E as ((l & s1) & E1 & E). injection E1 as <- <-.
  apply bind_Ret_inv in E as (([] & s1) & E1 & E). injection E1 as <-.
  apply bind_Ret_inv in E as (([] & s2) & E1 & E).
  eapply fake_responses_settle in E1 as (Hr & Hl & Hf); [|exact Hs].
  assert (still (notify_auth reason)) as Hst by by stills. destruct (Hst _ _ _ E) as (Hk & Hr' & Hw).
  cbn [s_zh zh_sent_requests set_zh_sent_requests s_world] in *. rewrite Hr', Hr, Hw.
  split_and!; [done| |done]. unfold linked. rewrite Hr', Hr, Hw.
  replace (zh_outstanding_sync (s_zh s')) with (zh_outstanding_sync (s_zh s2)); [done|].
  change (k_sync (core_of (s_zh s2)) = k_sync (core_of (s_zh s'))). by rewrite Hk.
Qed.
Lemma settles_free_completions call reason : settles (free_completions call reason).
Proof.
  intros s a s' Hs E. destruct (free_completions_settle _ _ _ _ _ Hs E) as (Hr & Hs' & Hf).
  split; [done|]. by eapply failed_all_served.
Qed.
Hint Resolve settles_free_completions : settle.

(** ** The engine *)
Lemma settles_queue_completion c : settles (queue_completion c).
Proof. unfold queue_completion. settle. Qed.
Lemma settles_completions_loop l : settles (completions_loop l).
Proof. induction l as [|c l IH]; cbn [completions_loop]; settle. Qed.
Hint Resolve settles_queue_completion settles_completions_loop : settle.
Lemma settles_process_completions : settles process_completions.
Proof. unfold process_completions. settle. Qed.
Lemma settles_process_completions_if_async : settles process_completions_if_async.
Proof. unfold process_completions_if_async. threaded. settle. Qed.
Hint Resolve settles_process_completions settles_process_completions_if_async : settle.
Lemma settles_queue_session_event state : settles (queue_session_event state).
Proof. unfold queue_session_event, create_completion_entry. settle. Qed.
Lemma settles_cleanup_bufs call rc : settles (cleanup_bufs call rc).
Proof. unfold cleanup_bufs. settle. Qed.
Hint Resolve settles_queue_session_event settles_cleanup_bufs : settle.
Lemma settles_cleanup rc : settles (cleanup rc).
Proof. unfold cleanup, set_fd, set_state. settle. Qed.
Hint Resolve settles_cleanup : settle.
Lemma settles_handle_error rc : settles (handle_error rc).
Proof. unfold handle_error. settle. Qed.
Hint Resolve settles_handle_error : settle.
Lemma settles_error_msg rc : settles (handle_socket_error_msg rc).
Proof. unfold handle_socket_error_msg. settle. Qed.
Hint Resolve settles_error_msg : settle.
Lemma settles_prime_connection : settles prime_connection.
Proof. unfold prime_connection, set_state. settle. Qed.
Lemma settles_recv_input : settles recv_input.
Proof. unfold recv_input. settle. Qed.
Lemma settles_finish_handshake : settles finish_handshake.
Proof. unfold finish_handshake, set_state. settle. Qed.
Hint Resolve settles_prime_connection settles_recv_input settles_finish_handshake : settle.
Lemma settles_read_event : settles read_event.
Proof. unfold read_event. settle. Qed.
Hint Resolve settles_read_event : settle.
Lemma settles_check_events events : settles (check_events events).
Proof. unfold check_events. settle. Qed.
Lemma settles_destroy : settles destroy.
Proof. unfold destroy, set_fd, set_state. settle. Qed.
Hint Resolve settles_check_events settles_destroy : settle.
Lemma settles_close_session : settles close_session.
Proof. unfold close_session, queue_buffer_bytes. settle. Qed.
Hint Resolve settles_close_session : settle.
Lemma settles_api_prolog : settles api_prolog.
Proof. unfold api_prolog, inc_ref_counter. settle. Qed.
Lemma settles_api_epilog rc : settles (api_epilog rc).
Proof. unfold api_epilog, inc_ref_counter. settle. Qed.
Lemma settles_process_watcher_event b ia : settles (process_watcher_event b ia).
Proof. unfold process_watcher_event, create_completion_entry. settle. Qed.
Lemma settles_process_auth err : settles (process_auth err).
Proof. unfold process_auth, auth_completion_func, set_state. settle. Qed.
Hint Resolve settles_api_prolog settles_api_epilog settles_process_watcher_event
  settles_process_auth : settle.

(** ** Responses: the oldest request is off the queue *)
Definition held (c : completion_list) (l : list completion_list) (s : sys) : Prop :=
  zh_sent_requests (s_zh s) = l ∧
  linked_to (notified (c :: l)) (w_sync (s_world s)) (zh_outstanding_sync (s_zh s)).
(** [s0] is the state in which it was still there. *)
Definition resumes {A} (c : completion_list) (l : list completion_list) (m : M A) : Prop :=
  ∀ s0 s a s', zh_sent_requests (s_zh s0) = c :: l →
    w_sync (s_world s) = w_sync (s_world s0) → held c l s → m s = Ret (a, s') →
    linked s' ∧ served s0 s'.

Lemma resumes_still {A B} c l (m : M A) (f : A → M B) :
  still m → (∀ a, resumes c l (f a)) → resumes c l (m ≫= f).
Proof.
  intros Hm Hf s0 s b s' Hq0 Hw0 [Hr Hl] E. apply bind_Ret_inv in E as ((a & s1) & E1 & E2).
  destruct (Hm _ _ _ E1) as (Hk & Hr1 & Hw). apply (Hf a s0 s1 b s'); [done|congruence| |done].
  split; [congruence|]. rewrite Hw.
  replace (zh_outstanding_sync (s_zh s1)) with (zh_outstanding_sync (s_zh s)); [done|].
  change (k_sync (core_of (s_zh s)) = k_sync (core_of (s_zh s1))). by rewrite Hk.
Qed.
Lemma resumes_answer {A} c l rc ia (m : M A) :
  synchronous c → settles m → resumes c l (answer_synchronous c rc ia ;; m).
Proof.
  intros Hc Hm s0 s a s' Hq0 Hw0 [Hr Hl] E. apply bind_Ret_inv in E as (([] & s1) & E1 & E2).
  rewrite notified_cons, decide_True in Hl by done.
  destruct (answer_completes c rc ia _ _ _ _ Hl E1) as (Hr1 & Hl1 & c0 & c' & Hc0 & Hi & Hw & _ & Hd).
  assert (linked s1) as Hs1 by (unfold linked; by rewrite Hr1, Hr).
  destruct (Hm _ _ _ Hs1 E2) as [Hs' Hv]. split; [done|]. etrans; [|exact Hv].
  rewrite Hw0 in *. eapply served_complete; [done..| |].
  - rewrite Hq0. by left.
  - rewrite Hr1, Hr, Hq0. intros e _ He. by right.
Qed.
Lemma served_shorter c l s s1 :
  zh_sent_requests (s_zh s) = c :: l → zh_sent_requests (s_zh s1) = l →
  w_sync (s_world s1) = w_sync (s_world s) → served s s1.
Proof. intros Hq0 H1. apply served_same. rewrite Hq0, H1. intros e _ He. by right. Qed.
Lemma resumes_settles {A} c l (m : M A) : ¬ synchronous c → settles m → resumes c l m.
Proof.
  intros Hc Hm s0 s a s' Hq0 Hw0 [Hr Hl] E. rewrite notified_cons, decide_False in Hl by done.
  assert (linked s) as Hs by (unfold linked; by rewrite Hr).
  destruct (Hm _ _ _ Hs E) as [Hs' Hv]. split; [done|]. etrans; [|exact Hv]. by eapply served_shorter.
Qed.
Lemma resumes_back {A} c l (m : M A) : settles m →
  resumes c l (modify (λ zh, set_zh_sent_requests (c :: zh_sent_requests zh) zh) ;; m).
Proof.
  intros Hm s0 s a s' Hq0 Hw0 [Hr Hl] E. apply bind_Ret_inv in E as (([] & s1) & E1 & E2).
  injection E1 as <-. assert (linked (mk_sys (set_zh_sent_requests (c :: zh_sent_requests (s_zh s)) (s_zh s))
    (s_world s))) as Hs1 by (unfold linked; cbn [s_zh zh_sent_requests set_zh_sent_requests]; by rewrite Hr).
  destruct (Hm _ _ _ Hs1 E2) as [Hs' Hv]. split; [done|]. etrans; [|exact Hv].
  apply served_same; [|done]. cbn [s_zh zh_sent_requests set_zh_sent_requests]. by rewrite Hr, Hq0.
Qed.

Lemma settles_process_response hdr b ia : settles (process_response hdr b ia).
Proof.
  intros s a s' Hs E. unfold process_response in E.
  apply bind_Ret_inv in E as ((l & s1) & E1 & E). injection E1 as <- <-.
  apply bind_Ret_inv in E as ((cl & s1) & E1 & E). injection E1 as <- <-.
  destruct (zh_sent_requests (s_zh s)) as [|c l] eqn:Hl.
  { apply (settles_still _) in E; [done| |done]. by stills. }
  apply bind_Ret_inv in E as (([] & s1) & E1 & E). injection E1 as <-.
  match type of E with ?m ?s1 = _ => assert (resumes c l m) as Hm end.
  2: { apply (Hm s) in E; [done..|]. split; [done|]. unfold linked in Hs. by rewrite Hl in Hs. }
  destruct (negb _); [apply resumes_back; by settle|].
  do 5 (apply resumes_still; [by stills|intros ?]).
  destruct (Z.eqb_spec (c_result c) SYNCHRONOUS_MARKER) as [Hc|Hc]; cbn [negb].
  - apply resumes_answer; [done|by settle].
  - apply resumes_settles; [done|by settle].
Qed.
Hint Resolve settles_process_response : settle.
Lemma settles_process_packet b : settles (process_packet b).
Proof. unfold process_packet. settle. Qed.
Hint Resolve settles_process_packet : settle.
Lemma settles_packets_loop l : settles (packets_loop l).
Proof. induction l as [|b l IH]; cbn [packets_loop]; settle. Qed.
Hint Resolve settles_packets_loop : settle.
Lemma settles_zookeeper_process events : settles (zookeeper_process events).
Proof. unfold zookeeper_process. settle. Qed.
End engine.
#[export] Hint Resolve settles_free_completions settles_process_completions settles_cleanup
  settles_handle_error settles_error_msg settles_prime_connection settles_close_session
  settles_api_prolog settles_api_epilog settles_zookeeper_process : settle.

(** ** The event loop *)
Definition isettles {A} (m : MI A) : Prop := ∀ s a s', linked (i_sys s) → m s = Ret (a, s') →
  linked (i_sys s') ∧ served (i_sys s) (i_sys s').

Lemma isettles_bind {A B} (m : MI A) (f : A → MI B) :
  isettles m → (∀ a, isettles (f a)) → isettles (m ≫= f).
Proof.
  intros Hm Hf s b s' Hs E. apply bind_Ret_inv in E as ((a & s1) & E1 & E2).
  destruct (Hm _ _ _ Hs E1) as [Hs1 H1]. destruct (Hf a _ _ _ Hs1 E2) as [Hs2 H2].
  split; [done|by etrans].
Qed.
Lemma isettles_sess {A} (m : M A) : settles m → isettles (sess m).
Proof.
  intros Hm s a s' Hs E. apply bind_Ret_inv in E as ((b & s1) & E1 & E2). injection E2 as <- <-.
  by apply (Hm _ b).
Qed.
(** Computations that do not touch the session. *)
Lemma isettles_same {A} (m : MI A) : (∀ s a s', m s = Ret (a, s') → i_sys s' = i_sys s) → isettles m.
Proof. intros Hm s a s' Hs E. by rewrite (Hm _ _ _ E). Qed.
Lemma isettles_ret {A} (a : A) : isettles (mret a : MI A).
Proof. apply isettles_same. intros s b s' E. by injection E as <- <-. Qed.
Lemma isettles_getn {A} (f : net → A) : isettles (getn f).
Proof. apply isettles_same. intros s b s' E. by injection E as <- <-. Qed.
Lemma isettles_modifyn f : isettles (modifyn f).
Proof. apply isettles_same. intros s b s' E. by injection E as <- <-. Qed.
Lemma isettles_failing {A} (m : outcome A) : isettles (failing m).
Proof. apply isettles_same. intros s b s' E. apply bind_Ret_inv in E as (c & _ & E). by injection E as <- <-. Qed.
Lemma isettles_drand48 : isettles drand48.
Proof. apply isettles_same. intros s b s' E. by injection E as <- <-. Qed.
Lemma isettles_next_dial : isettles next_dial.
Proof. apply isettles_same. intros s b s' E. by injection E as <- <-. Qed.
Lemma isettles_next_probe : isettles next_probe.
Proof. apply isettles_same. intros s b s' E. by injection E as <- <-. Qed.
Lemma isettles_connect a c : isettles (zookeeper_connect a c).
Proof. apply isettles_same. intros s b s' E. by injection E as <- <-. Qed.
Lemma isettles_checked w z : isettles (checked w z).
Proof. unfold checked. case_decide; [apply isettles_ret|apply isettles_failing]. Qed.
Lemma isettles_mupdate_addrs : isettles mupdate_addrs.
Proof.
  intros s a s' Hs E. unfold mupdate_addrs in E. apply bind_Ret_inv in E as ([d s1] & _ & E).
  apply bind_Ret_inv in E as ([[rc sv] o] & _ & E). injection E as <- <-.
  split; [done|]. by apply served_same.
Qed.
#[export] Hint Resolve isettles_ret isettles_getn isettles_modifyn isettles_failing
  isettles_drand48 isettles_next_dial isettles_next_probe isettles_connect isettles_checked
  isettles_mupdate_addrs : settle.
Ltac isettle_step :=
  match goal with
  | |- isettles (_ ≫= _) => apply isettles_bind; [|intros ?]
  | |- isettles (sess _) => apply isettles_sess; by settle
  | |- isettles (match ?x with _ => _ end) => destruct x
  | |- isettles _ => solve [eauto 2 with settle nocore]
  end.
Ltac isettle := repeat isettle_step.

Section loop.
Context `{Host, Locals}.

Lemma isettles_mcycle_next_server : isettles mcycle_next_server.
Proof. unfold mcycle_next_server. isettle. Qed.
Hint Resolve isettles_mcycle_next_server : settle.
Lemma isettles_connect_phase : isettles connect_phase.
Proof. unfold connect_phase, set_fd, set_state. isettle. Qed.
Lemma isettles_ping_phase rt idle : isettles (ping_phase rt idle).
Proof. unfold ping_phase. isettle. Qed.
Lemma isettles_ping_rw_server : isettles ping_rw_server.
Proof. unfold ping_rw_server. isettle. Qed.
Hint Resolve isettles_ping_rw_server : settle.
Lemma isettles_rw_phase now send_to : isettles (rw_phase now send_to).
Proof. unfold rw_phase. isettle. Qed.
Lemma isettles_add_timeval now tv : isettles (add_timeval now tv).
Proof. unfold add_timeval. isettle. Qed.
Hint Resolve isettles_connect_phase isettles_ping_phase isettles_rw_phase isettles_add_timeval : settle.
Lemma isettles_watch_phase now out : isettles (watch_phase now out).
Proof. unfold watch_phase. isettle. Qed.
Lemma isettles_connected_now now : isettles (connected_now now).
Proof. unfold connected_now. isettle. Qed.
Hint Resolve isettles_watch_phase isettles_connected_now : settle.
Lemma isettles_zookeeper_interest out : isettles (zookeeper_interest out).
Proof. unfold zookeeper_interest. isettle. Qed.
Hint Resolve isettles_zookeeper_interest : settle.
Lemma isettles_io_round junk answer : isettles (io_round junk answer).
Proof. unfold io_round. isettle. Qed.

(** ** Closing *)
Lemma settles_wakeup_io_thread : settles wakeup_io_thread.
Proof. apply settles_still. unfold wakeup_io_thread. stills. Qed.
Hint Resolve settles_wakeup_io_thread : settle.
Lemma settles_close_begin : settles close_begin.
Proof. unfold close_begin, inc_ref_counter. settle. Qed.
Lemma settles_close_end : settles close_end.
Proof. unfold close_end. settle. Qed.
End loop.
