(* ===== verification/SyncRequests.v ===== *)
(** * Requests and the synchronous completions

    An asynchronous request leaves the synchronous completions alone.  A synchronous one
    either is refused and leaves nothing behind, or has put its completion where the
    library will find it. *)

From S2P Require Import Prelude RecordIO Jute Path Watchers Addrvec Hosts Handshake Transport Handle.
From S2P Require Import Session Requests Interest Init Triples Termination TerminationTheorems.
From S2P Require Import Sync Threads SyncFacts.
Local Open Scope Z_scope.
#[local] Existing Instance mt_adaptor | 0.

(** ** Parts of requests that touch neither the queue nor the completions *)
Section stills.
Context `{Host, Locals}.

Lemma still_zh_prepend_string path : still (zh_prepend_string path).
Proof. unfold zh_prepend_string. stills. Qed.
Lemma still_check_path mode path : still (check_path mode path).
Proof. unfold check_path. stills. Qed.
Hint Resolve still_zh_prepend_string still_check_path : quiet.
Lemma still_Request_path_init mode path : still (Request_path_init mode path).
Proof. unfold Request_path_init. stills. Qed.
Hint Resolve still_Request_path_init : quiet.
Lemma still_Request_path_watch_init mode path w : still (Request_path_watch_init mode path w).
Proof. unfold Request_path_watch_init. stills. Qed.
Lemma still_default_watcher watch : still (default_watcher watch).
Proof. unfold default_watcher. stills. Qed.
Lemma still_create_watcher_registration path checker w ctx :
  still (create_watcher_registration path checker w ctx).
Proof. unfold create_watcher_registration. stills. Qed.
Lemma still_create_watcher_deregistration path w ctx t :
  still (create_watcher_deregistration path w ctx t).
Proof. unfold create_watcher_deregistration. stills. Qed.
Lemma still_writing op oa : still (writing op oa).
Proof. unfold writing. stills. Qed.
Hint Resolve still_writing : quiet.
Lemma still_sub_request {R} (init : M (Z * R)) ser rc oa :
  still init → still (sub_request init ser rc oa).
Proof. intros. unfold sub_request. stills. Qed.
Lemma still_sub_op xid op result rc oa : still (sub_op xid op result rc oa).
Proof.
  unfold sub_op, create_completion_entry. repeat (case_match; try apply still_raise; try apply still_ret);
    (apply still_bind; [apply still_sub_request|intros ?; by stills]);
    unfold CreateRequest_init, DeleteRequest_init, SetDataRequest_init, CheckVersionRequest_init; stills.
Qed.
Hint Resolve still_sub_op : quiet.
Lemma still_sub_ops xid ops : ∀ result rc oa clist slots,
  still (sub_ops xid ops result rc oa clist slots).
Proof. induction ops as [|op ops IH]; intros result rc oa clist slots; cbn [sub_ops]; stills. Qed.
End stills.
#[export] Hint Resolve still_zh_prepend_string still_check_path still_Request_path_init
  still_Request_path_watch_init still_default_watcher still_create_watcher_registration
  still_create_watcher_deregistration still_writing still_sub_ops : quiet.

(** All functions of the asynchronous API. *)
Ltac unfold_requests :=
  unfold zoo_aget, zoo_awget, zoo_agetconfig, zoo_awgetconfig, zoo_areconfig, zoo_aset,
    zoo_acreate, zoo_acreate2, zoo_acreate_ttl, zoo_acreate2_ttl, create_with, zoo_adelete,
    zoo_aexists, zoo_awexists, zoo_aget_children, zoo_awget_children, zoo_awget_children_,
    zoo_aget_children2, zoo_awget_children2, zoo_awget_children2_, zoo_async, zoo_aget_acl,
    zoo_aset_acl, zoo_amulti, SetDataRequest_init, CreateRequest_init,
    CreateTTLRequest_init, DeleteRequest_init, add_data_completion, add_stat_completion,
    add_strings_completion, add_strings_stat_completion, add_acl_completion,
    add_void_completion, add_string_completion, add_string_stat_completion,
    add_multi_completion.

(** The entry of a request. *)
Lemma create_entry_Ret xid type dc data wo clist wdo s c s' :
  do_create_completion_entry xid type dc data wo clist wdo s = Ret (Some c, s') →
  c_type c = type ∧ c_data c = data ∧
  (c_result c = 0 ∨ c_result c = dc) ∧
  (bool_decide (type ∈ [COMPLETION_VOID; COMPLETION_STRING; COMPLETION_DATA; COMPLETION_STAT;
     COMPLETION_STRINGLIST; COMPLETION_STRINGLIST_STAT; COMPLETION_STRING_STAT;
     COMPLETION_ACLLIST; COMPLETION_MULTI]) = true → c_result c = dc).
Proof.
  unfold do_create_completion_entry. intros E. apply bind_Ret_inv in E as ((ok & s1) & _ & E).
  destruct ok; [|done]. cbn [negb] in E.
  destruct (_ =? COMPLETION_MULTI); [destruct clist; [|done]|];
    injection E as <- <-; cbn [c_type c_data c_result]; destruct (bool_decide _); split_and!; auto; done.
Qed.

Section asynchronous.
Context `{Host, Locals}.

Lemma settles_do_create xid type dc data wo clist wdo : dc ≠ SYNCHRONOUS_MARKER → ∀ front,
  settles (c ← do_create_completion_entry xid type dc data wo clist wdo; do_add_completion dc c front).
Proof.
  intros Hdc front s a s' Hs E. apply bind_Ret_inv in E as ((c & s1) & E1 & E).
  assert (still (do_create_completion_entry xid type dc data wo clist wdo)) as Hst by by stills.
  destruct (settles_still _ Hst _ _ _ Hs E1) as [Hs1 Hv1].
  destruct c as [c|]; [|by injection E as <- <-].
  apply create_entry_Ret in E1 as (_ & _ & Hc & _).
  assert (¬ synchronous c) as Hn by (unfold synchronous; intros Hx; destruct Hc; [|congruence]; rewrite Hx in *; done).
  clear Hs Hst. revert Hs1 E. unfold do_add_completion. intros Hs1 E.
  apply bind_Ret_inv in E as ((cl & s2) & E2 & E). injection E2 as <- <-.
  destruct (negb _); [|by injection E as <- <-].
  apply bind_Ret_inv in E as (([] & s2) & E2 & E). injection E2 as <-.
  rewrite (proj2 (Z.eqb_neq dc SYNCHRONOUS_MARKER)) in E by done. injection E as <- <-.
  assert (notified (queue_at front c (zh_sent_requests (s_zh s1))) = notified (zh_sent_requests (s_zh s1))) as Hq.
  { destruct front; cbn [queue_at]; [by rewrite notified_cons, decide_False|].
    rewrite notified_app, notified_cons, decide_False by done. apply app_nil_r. }
  split.
  - unfold linked. cbn [s_zh zh_sent_requests set_zh_sent_requests]. by rewrite Hq.
  - etrans; [exact Hv1|]. apply served_same; [|done]. intros e He.
    cbn [s_zh zh_sent_requests set_zh_sent_requests]. destruct front; cbn [queue_at].
    + by intros [->|?]%elem_of_cons.
    + by intros [?|[->|[]%elem_of_nil]%elem_of_cons]%elem_of_app.
Qed.
Lemma settles_add_completion xid type dc data front wo clist : dc ≠ SYNCHRONOUS_MARKER →
  settles (add_completion xid type dc data front wo clist).
Proof. intros. unfold add_completion, create_completion_entry. by apply settles_do_create. Qed.
Lemma settles_add_deregistration xid type dc data front wdo clist : dc ≠ SYNCHRONOUS_MARKER →
  settles (add_completion_deregistration xid type dc data front wdo clist).
Proof.
  intros. unfold add_completion_deregistration, create_completion_entry_deregistration.
  by apply settles_do_create.
Qed.
Hint Resolve settles_add_completion settles_add_deregistration : settle.
Lemma settles_unless_failed rc m : settles m → settles (unless_failed rc m).
Proof. intros. unfold unless_failed. settle. Qed.
Lemma settles_submit ser add : settles add → settles (submit ser add).
Proof.
  intros. unfold submit, queue_buffer_bytes. apply settles_bind; [by settle|intros []].
  apply settles_bind; [by apply settles_unless_failed|intros ?]. settle.
Qed.

(** Removing a watch without asking the server notifies the completion it is given: the
    data of an asynchronous request is no such thing. *)
Definition settles_unless {A} (data : Z) (m : M A) : Prop := ∀ s a s',
  w_sync (s_world s) !! data = None → linked s → m s = Ret (a, s') → linked s' ∧ served s s'.
Lemma unless_settles {A} data (m : M A) : settles m → settles_unless data m.
Proof. intros Hm s a s' _ Hs E. by apply (Hm s a). Qed.
Lemma unless_still {A B} data (m : M A) (f : A → M B) :
  still m → (∀ a, settles_unless data (f a)) → settles_unless data (m ≫= f).
Proof.
  intros Hm Hf s b s' Hd Hs E. apply bind_Ret_inv in E as ((a & s1) & E1 & E2).
  destruct (settles_still _ Hm _ _ _ Hs E1) as [Hs1 Hv1].
  destruct (Hf a s1 b s') as [Hs2 Hv2]; [|done..|split; [done|by etrans]].
  by rewrite (proj2 (proj2 (Hm _ _ _ E1))).
Qed.
Lemma unless_notify {B} data (m : M B) : settles_unless data (notify_local data ;; m).
Proof.
  intros s b s' Hd Hs E. exfalso. apply bind_Ret_inv in E as ((a & s1) & E1 & E2).
  apply bind_Ret_inv in E1 as ((c & s2) & E1 & _). apply the_sync_Ret in E1 as [E1 _]. congruence.
Qed.
Lemma aremove_settles path wtype watcher ctx local fn data all : fn ≠ SYNCHRONOUS_MARKER →
  settles_unless data (aremove_watches path wtype watcher ctx local fn data all).
Proof.
  intros Hfn. unfold aremove_watches, queue_buffer_bytes.
  do 2 (apply unless_still; [by stills|intros ?]). destruct (negb _); [by apply unless_settles; settle|].
  apply unless_still; [by stills|intros ?]. destruct (_ && _); [by apply unless_settles; settle|].
  destruct a as [sp|]; [|by apply unless_settles; settle].
  do 2 (apply unless_still; [by stills|intros ?]). destruct (negb _); [by apply unless_settles; settle|].
  destruct local.
  - do 2 (apply unless_still; [by stills|intros ?]). apply unless_notify.
  - apply unless_settles. settle.
Qed.

(** Asynchronous requests. *)
Lemma run_request_settles r fn data : fn ≠ SYNCHRONOUS_MARKER →
  settles_unless data (run_request r fn data).
Proof.
  intros Hfn. destruct r; cbn [run_request]; try apply aremove_settles; try done;
    apply unless_settles; unfold_requests; unfold zoo_add_auth, queue_buffer_bytes;
    repeat first [settle_step | apply settles_submit | apply settles_unless_failed | by apply settles_add_completion].
Qed.
End asynchronous.

(** ** Allocations that do not fail *)
Abbreviation unlimited s := (w_alloc (s_world s) = []).
Definition unfailing {A} (m : M A) : Prop :=
  ∀ s a s', unlimited s → m s = Ret (a, s') → unlimited s'.
Lemma unfailing_bind {A B} (m : M A) (f : A → M B) :
  unfailing m → (∀ a, unfailing (f a)) → unfailing (m ≫= f).
Proof. intros Hm Hf s b s' Hs E. apply bind_Ret_inv in E as ((a & s1) & E1 & E2). by eapply Hf, E2; eapply Hm. Qed.
Lemma unfailing_ret {A} (a : A) : unfailing (mret a).
Proof. intros s b s' Hs E. by injection E as <- <-. Qed.
Lemma unfailing_get {A} (f : zhandle → A) : unfailing (get f).
Proof. intros s b s' Hs E. by injection E as <- <-. Qed.
Lemma unfailing_modify f : unfailing (modify f).
Proof. intros s b s' Hs E. by injection E as <- <-. Qed.
Lemma unfailing_askw {A} (f : world → A) : unfailing (askw f).
Proof. intros s b s' Hs E. by injection E as <- <-. Qed.
Lemma unfailing_modifyw f : (∀ w, w_alloc (f w) = w_alloc w) → unfailing (modifyw f).
Proof. intros Hf s b s' Hs E. injection E as <- <-. cbn [s_world]. by rewrite Hf. Qed.
Lemma unfailing_lift {A} (m : outcome A) : unfailing (lift m).
Proof. intros s b s' Hs E. apply bind_Ret_inv in E as (a & _ & E). by injection E as <- <-. Qed.
Lemma unfailing_allocating {A} (f : allocs → outcome (A * allocs)) :
  (∀ a o, f [] = Ret (a, o) → o = []) → unfailing (allocating f).
Proof.
  intros Hf s b s' Hs E. unfold allocating in E. rewrite Hs in E.
  apply bind_Ret_inv in E as ([a o] & E1 & E). injection E as <- <-. by eapply Hf.
Qed.
Lemma unfailing_get_system_time : unfailing get_system_time.
Proof. intros s b s' Hs E. unfold get_system_time in E. destruct (w_clock _); by injection E as <- <-. Qed.
Create HintDb unfailing.
#[export] Hint Resolve unfailing_ret unfailing_get unfailing_modify unfailing_askw unfailing_lift
  unfailing_get_system_time : unfailing.
Ltac unfailing_step :=
  match goal with
  | |- unfailing (_ ≫= _) => apply unfailing_bind; [|intros ?]
  | |- unfailing (raise _) => apply unfailing_lift
  | |- unfailing (modifyw _) => apply unfailing_modifyw; intros ?; reflexivity
  | |- unfailing (allocating _) =>
      apply unfailing_allocating; intros ? ? ?; cbn in *; by simplify_eq
  | |- unfailing (match ?x with _ => _ end) => destruct x
  | |- unfailing _ => solve [eauto 2 with unfailing nocore]
  end.
Ltac unfailings := repeat unfailing_step.

Section unfailing.
Context `{Host, Locals}.

Lemma unfailing_get_xid : unfailing get_xid.
Proof. threaded. unfailings. Qed.
Lemma unfailing_zh_prepend_string path : unfailing (zh_prepend_string path).
Proof.
  unfold zh_prepend_string. apply unfailing_bind; [unfailings|intros chroot].
  apply unfailing_allocating. intros a o E. unfold prepend_string, strdup in E.
  repeat case_match; by simplify_eq/=.
Qed.
Lemma unfailing_check_path mode path : unfailing (check_path mode path).
Proof. unfold check_path. unfailings. Qed.
Hint Resolve unfailing_get_xid unfailing_zh_prepend_string unfailing_check_path : unfailing.
Lemma unfailing_Request_path_init mode path : unfailing (Request_path_init mode path).
Proof. unfold Request_path_init. unfailings. Qed.
Hint Resolve unfailing_Request_path_init : unfailing.
Lemma unfailing_Request_path_watch_init mode path w : unfailing (Request_path_watch_init mode path w).
Proof. unfold Request_path_watch_init. unfailings. Qed.
Lemma unfailing_default_watcher watch : unfailing (default_watcher watch).
Proof. unfold default_watcher. unfailings. Qed.
Lemma unfailing_registration path checker w ctx :
  unfailing (create_watcher_registration path checker w ctx).
Proof. unfold create_watcher_registration. unfailings. Qed.
Lemma unfailing_deregistration path w ctx t :
  unfailing (create_watcher_deregistration path w ctx t).
Proof. unfold create_watcher_deregistration. unfailings. Qed.
Lemma unfailing_create_entry xid type dc data wo clist wdo :
  unfailing (do_create_completion_entry xid type dc data wo clist wdo).
Proof. unfold do_create_completion_entry. unfailings. Qed.
Lemma unfailing_marshal ser : steady ser → unfailing (marshal ser).
Proof.
  intros Hs. unfold marshal. apply unfailing_allocating. intros [rc oa] o E. cbn in E.
  specialize (Hs (mk_buff 128 0 (Some []) []) ltac:(cbn; lia)).
  destruct (ser _) as [[rc' oa']| | |]; [|done..]. cbn in E. simplify_eq. by apply Hs.
Qed.
Lemma unfailing_writing op oa : steady op → 0 < bs_len oa → unfailing (writing op oa).
Proof.
  intros Hs Hl. unfold writing. apply unfailing_allocating. intros [rc oa'] o E.
  specialize (Hs (set_bs_alloc [] oa) Hl).
  destruct (op _) as [[rc' oa2]| | |]; [|done..]. cbn in E. simplify_eq. by apply Hs.
Qed.
End unfailing.
#[export] Hint Resolve unfailing_get_xid unfailing_zh_prepend_string unfailing_check_path
  unfailing_Request_path_init unfailing_Request_path_watch_init unfailing_default_watcher
  unfailing_registration unfailing_deregistration unfailing_create_entry : unfailing.

(** ** Synchronous requests *)

(** The completion [sc] is there, but nobody knows it yet. *)
Definition starting (sc : Z) (s : sys) : Prop :=
  linked_to (sc :: notified (zh_sent_requests (s_zh s))) (w_sync (s_world s))
    (zh_outstanding_sync (s_zh s) + 1).
(** The request has been accepted: its entry is the only new one, and the completion is
    still what it was or has been notified. *)
Record admitted (sc : Z) (k : kind) (s s' : sys) : Prop := {
  ad_linked : linked s';
  ad_queue : ∀ e, synchronous e → e ∈ zh_sent_requests (s_zh s') →
    e ∈ zh_sent_requests (s_zh s) ∨ (c_data e = sc ∧ c_type e = kind_type k);
  ad_others : ∀ sc', sc' ≠ sc → w_sync (s_world s') !! sc' = w_sync (s_world s) !! sc';
  ad_sync : ∃ c, w_sync (s_world s) !! sc = Some c ∧
    (w_sync (s_world s') !! sc = Some c ∨ w_sync (s_world s') !! sc = Some (set_sc_complete 1 c));
}.
Definition unseen (sc : Z) (s s' : sys) : Prop :=
  starting sc s' ∧ zh_sent_requests (s_zh s') = zh_sent_requests (s_zh s) ∧
  w_sync (s_world s') = w_sync (s_world s).
Definition submits (sc : Z) (k : kind) (m : M Z) : Prop := ∀ s rc s',
  starting sc s → unlimited s → m s = Ret (rc, s') →
  (rc = ZOK ∧ admitted sc k s s') ∨ (rc ≠ ZOK ∧ unseen sc s s').
(** The same of the middle of a request, where an error is negative. *)
Definition adds (sc : Z) (k : kind) (m : M Z) : Prop := ∀ s rc s',
  starting sc s → unlimited s → m s = Ret (rc, s') →
  unlimited s' ∧ ((rc = ZOK ∧ admitted sc k s s') ∨ (rc < 0 ∧ unseen sc s s')).

Lemma still_unseen {A} sc (m : M A) s a s' :
  still m → starting sc s → m s = Ret (a, s') → unseen sc s s'.
Proof.
  intros Hm Hs E. destruct (Hm _ _ _ E) as (Hk & Hr & Hw). split; [|done]. unfold starting.
  rewrite Hr, Hw. replace (zh_outstanding_sync (s_zh s')) with (zh_outstanding_sync (s_zh s)); [done|].
  change (k_sync (core_of (s_zh s)) = k_sync (core_of (s_zh s'))). by rewrite Hk.
Qed.
Lemma unseen_trans sc s1 s2 s3 : unseen sc s1 s2 → unseen sc s2 s3 → unseen sc s1 s3.
Proof. intros (_ & ? & ?) (? & ? & ?). split_and!; [done|congruence..]. Qed.
Lemma unseen_admitted sc k s1 s2 s3 : unseen sc s1 s2 → admitted sc k s2 s3 → admitted sc k s1 s3.
Proof. intros (_ & Hr & Hw) [H1 H2 H3 H4]. rewrite Hr, Hw in *. by split. Qed.
Lemma admitted_still {A} sc k (m : M A) s1 s2 a s3 :
  still m → admitted sc k s1 s2 → m s2 = Ret (a, s3) → admitted sc k s1 s3.
Proof.
  intros Hm [H1 H2 H3 H4] E. destruct (settles_still _ Hm _ _ _ H1 E) as [Hl _].
  destruct (Hm _ _ _ E) as (_ & Hr & Hw). split; rewrite ?Hr, ?Hw; done.
Qed.

Lemma submits_still {A} sc k (m : M A) f :
  still m → unfailing m → (∀ a, submits sc k (f a)) → submits sc k (m ≫= f).
Proof.
  intros Hm Hu Hf s rc s' Hs Ha E. apply bind_Ret_inv in E as ((a & s1) & E1 & E2).
  pose proof (still_unseen _ _ _ _ _ Hm Hs E1) as Hn.
  destruct (Hf a s1 rc s') as [[-> Hx]|[? Hx]]; [apply Hn|by eapply Hu|done|left|right]; split; try done.
  - by eapply unseen_admitted.
  - by eapply unseen_trans.
Qed.
Lemma submits_refuse sc k rc : rc ≠ ZOK → submits sc k (mret rc).
Proof. intros Hrc s rc' s' Hs _ E. injection E as <- <-. right. split; [done|]. by split. Qed.
Lemma submits_raise sc k m : (∀ a, m ≠ Ret a) → submits sc k (raise m).
Proof.
  intros Hm s rc s' _ _ E. apply bind_Ret_inv in E as (a & E & _). by apply Hm in E.
Qed.
Lemma adds_still {A} sc k (m : M A) f :
  still m → unfailing m → (∀ a, adds sc k (f a)) → adds sc k (m ≫= f).
Proof.
  intros Hm Hu Hf s rc s' Hs Ha E. apply bind_Ret_inv in E as ((a & s1) & E1 & E2).
  pose proof (still_unseen _ _ _ _ _ Hm Hs E1) as Hn.
  destruct (Hf a s1 rc s') as [Ha' [[-> Hx]|[? Hx]]]; [apply Hn|by eapply Hu|done|split; [done|left]|split; [done|right]]; split; try done.
  - by eapply unseen_admitted.
  - by eapply unseen_trans.
Qed.

Lemma linked_to_perm l l' m n : l ≡ₚ l' → linked_to l m n → linked_to l' m n.
Proof. intros Hp [H1 H2 H3]. split; [by rewrite <-Hp|by setoid_rewrite <-Hp|by rewrite <-Hp]. Qed.

Section synchronous.
Context `{Host, Locals}.

(** The entry is queued, unless the handle is being closed. *)
Lemma adds_create xid k sc wo clist wdo :
  adds sc k (c ← do_create_completion_entry xid (kind_type k) SYNCHRONOUS_MARKER sc wo clist wdo;
             do_add_completion SYNCHRONOUS_MARKER c false).
Proof.
  intros s rc s' Hs Ha E. apply bind_Ret_inv in E as ((c & s1) & E1 & E).
  pose proof (still_unseen sc _ _ _ _ (still_do_create_completion_entry _ _ _ _ _ _ _) Hs E1) as Hn.
  assert (unlimited s1) as Ha1 by by eapply unfailing_create_entry.
  destruct c as [c|].
  2: { exfalso. unfold do_create_completion_entry, allocating in E1. apply bind_Ret_inv in E1 as ((ok & s2) & E2 & E1).
       rewrite Ha in E2. injection E2 as <- <-. cbn [negb] in E1.
       destruct (_ =? COMPLETION_MULTI); [by destruct clist|done]. }
  apply create_entry_Ret in E1 as (Ht & Hd & _ & Hc).
  assert (synchronous c) as Hsync by (apply Hc; by destruct k).
  unfold do_add_completion in E. apply bind_Ret_inv in E as ((cl & s2) & E2 & E). injection E2 as <- <-.
  destruct (negb _); [|injection E as <- <-; split; [done|]; right; split; [done|exact Hn]].
  apply bind_Ret_inv in E as (([] & s2) & E2 & E). injection E2 as <-.
  apply bind_Ret_inv in E as (([] & s2) & E2 & E). cbn in E2. injection E2 as <-. injection E as <- <-.
  split; [done|]. left. split; [done|]. apply (unseen_admitted sc k s s1); [done|].
  destruct Hn as (Hs1 & Hr & Hw).
  split; cbn [s_zh s_world zh_sent_requests set_zh_sent_requests set_zh_outstanding_sync queue_at].
  - unfold linked. cbn [s_zh s_world zh_sent_requests set_zh_sent_requests set_zh_outstanding_sync
      zh_outstanding_sync queue_at].
    rewrite notified_app, notified_cons, decide_True by done. rewrite Hd.
    eapply linked_to_perm; [|exact Hs1]. by rewrite Permutation_app_comm.
  - intros e He [Hin|[->|[]%elem_of_nil]%elem_of_cons]%elem_of_app; [by left|by right].
  - done.
  - destruct (proj1 (lk_incomplete _ _ _ Hs1 sc)) as (c0 & Hc0 & _); [by left|]. exists c0. by auto.
Qed.
Lemma adds_add_completion xid k sc wo clist :
  adds sc k (add_completion xid (kind_type k) SYNCHRONOUS_MARKER sc false wo clist).
Proof. apply adds_create. Qed.

(** The common end of a request. *)
Lemma queue_bytes_unlimited front buff len s rc s' :
  unlimited s → queue_bytes front buff len s = Ret (rc, s') → rc = ZOK.
Proof.
  intros Ha E. unfold queue_bytes, allocating in E. apply bind_Ret_inv in E as ((b & s1) & E1 & E).
  rewrite Ha in E1. injection E1 as <- <-. by injection E as <- <-.
Qed.
Lemma submits_end sc k buff len (add : M Z) rc0 :
  adds sc k add → submits sc k (rc ← unless_failed rc0 add;
    rc ← unless_failed rc (queue_buffer_bytes buff len);
    adaptor_send_queue 0;; mret (if rc <? 0 then ZMARSHALLINGERROR else ZOK)).
Proof.
  intros Hadd s rc s' Hs Ha E. apply bind_Ret_inv in E as ((rc1 & s1) & E1 & E).
  apply bind_Ret_inv in E as ((rc2 & s2) & E2 & E). apply bind_Ret_inv in E as ((x & s3) & E3 & E).
  injection E as <- <-.
  assert (rc1 < 0 → unseen sc s s1 → (if rc2 <? 0 then ZMARSHALLINGERROR else ZOK) ≠ ZOK ∧ unseen sc s s3) as Hfail.
  { intros Hneg Hn. unfold unless_failed in E2. rewrite (proj2 (Z.ltb_lt rc1 0)) in E2 by done.
    injection E2 as <- <-. rewrite (proj2 (Z.ltb_lt rc1 0)) by done. split; [done|].
    eapply unseen_trans; [exact Hn|].
    exact (still_unseen _ _ _ _ _ (still_adaptor_send_queue 0) (proj1 Hn) E3). }
  unfold unless_failed in E1. destruct (Z.ltb_spec rc0 0) as [Hneg|Hpos].
  { injection E1 as <- <-. right. apply Hfail; [done|]. by split. }
  destruct (Hadd _ _ _ Hs Ha E1) as [Ha1 [[-> Hx]|[? Hx]]]; [left|right; by apply Hfail].
  cbn [unless_failed] in E2. unfold unless_failed in E2. change (ZOK <? 0) with false in E2. cbn iota in E2.
  unfold queue_buffer_bytes in E2. rewrite (queue_bytes_unlimited _ _ _ _ _ _ Ha1 E2).
  split; [done|].
  eapply admitted_still; [apply (still_adaptor_send_queue 0)| |exact E3].
  eapply admitted_still; [by apply still_queue_bytes|exact Hx|exact E2].
Qed.
Lemma submits_submit sc k ser add : steady ser → adds sc k add → submits sc k (submit ser add).
Proof.
  intros Hser Hadd. unfold submit. apply submits_still; [by stills|by apply unfailing_marshal|].
  intros [rc oa]. by apply submits_end.
Qed.

(** One step through the code of a request. *)
Ltac submits_step :=
  match goal with
  | |- submits _ _ (_ ≫= _) => apply submits_still; [by stills|by unfailings|intros ?]
  | |- submits _ _ (if negb (?rc =? ZOK) then mret ?rc else _) =>
      destruct (Z.eqb_spec rc ZOK); cbn [negb]; [|by apply submits_refuse]
  | |- submits _ _ (match ?x with _ => _ end) => destruct x
  | |- submits _ _ (mret _) => by apply submits_refuse
  | |- submits _ _ (raise _) => by apply submits_raise
  | |- submits _ _ (submit _ _) =>
      apply submits_submit; [apply steady_then; [apply steady_header|solve [eauto with halts]]|]
  | |- adds _ _ (_ ≫= _) => apply adds_still; [by stills|by unfailings|intros ?]
  | |- adds _ _ (add_completion _ _ _ _ _ _ _) => apply adds_add_completion
  end.
Ltac submitting := unfold_requests; repeat submits_step.

Lemma submits_awget sc path w ctx : submits sc KData (zoo_awget path w ctx SYNCHRONOUS_MARKER sc).
Proof. submitting. Qed.
Lemma submits_areconfig sc j l m v : submits sc KData (zoo_areconfig j l m v SYNCHRONOUS_MARKER sc).
Proof. submitting. Qed.
Lemma submits_aset sc path value len v : submits sc KStat (zoo_aset path value len v SYNCHRONOUS_MARKER sc).
Proof. submitting. Qed.
Lemma submits_acreate sc path value len acl mode ttl :
  submits sc KPath (zoo_acreate_ttl path value len acl mode ttl SYNCHRONOUS_MARKER sc).
Proof. submitting. Qed.
Lemma submits_acreate2 sc path value len acl mode ttl :
  submits sc KPathStat (zoo_acreate2_ttl path value len acl mode ttl SYNCHRONOUS_MARKER sc).
Proof. submitting. Qed.
Lemma submits_adelete sc path v : submits sc KVoid (zoo_adelete path v SYNCHRONOUS_MARKER sc).
Proof. submitting. Qed.
Lemma submits_awexists sc path w ctx : submits sc KStat (zoo_awexists path w ctx SYNCHRONOUS_MARKER sc).
Proof. submitting. Qed.
Lemma submits_awget_children sc path w ctx :
  submits sc KStrings (zoo_awget_children path w ctx SYNCHRONOUS_MARKER sc).
Proof. submitting. Qed.
Lemma submits_awget_children2 sc path w ctx :
  submits sc KStringsStat (zoo_awget_children2 path w ctx SYNCHRONOUS_MARKER sc).
Proof. submitting. Qed.
Lemma submits_aget_acl sc path : submits sc KAcl (zoo_aget_acl path SYNCHRONOUS_MARKER sc).
Proof. submitting. Qed.
Lemma submits_aset_acl sc path v acl : submits sc KVoid (zoo_aset_acl path v acl SYNCHRONOUS_MARKER sc).
Proof. submitting. Qed.

(** Transactions: the archive keeps a positive length while it is filled. *)
Lemma yields_Ret {A} (Q : A → Prop) (m : M A) s a s' : yields Q m → m s = Ret (a, s') → Q a.
Proof. intros Hm E. specialize (Hm s). rewrite E in Hm. by apply Hm. Qed.
Lemma unfailing_with {A B} (Q : A → Prop) (m : M A) (f : A → M B) :
  yields Q m → unfailing m → (∀ a, Q a → unfailing (f a)) → unfailing (m ≫= f).
Proof.
  intros Hy Hm Hf s b s' Hs E. apply bind_Ret_inv in E as ((a & s1) & E1 & E2).
  eapply Hf, E2; [by eapply yields_Ret|by eapply Hm].
Qed.
Lemma unfailing_sub_request {R} (init : M (Z * R)) ser rc oa :
  unfailing init → (∀ r, steady (ser r)) → 0 < bs_len oa → unfailing (sub_request init ser rc oa).
Proof.
  intros Hi Hs Hl. unfold sub_request. destruct (rc <? 0); [by unfailings|].
  apply unfailing_bind; [done|intros [rc' req]]. destruct (rc' <? 0); [by unfailings|].
  by apply unfailing_writing.
Qed.
Lemma unfailing_sub_op xid op result rc oa : 0 < bs_len oa → unfailing (sub_op xid op result rc oa).
Proof.
  intros Hl. unfold sub_op, create_completion_entry.
  repeat (case_match; try (by unfailings); try apply unfailing_lift);
    (apply unfailing_bind; [apply unfailing_sub_request; [|eauto with halts|done]|intros [? ?]; by unfailings]);
    unfold CreateRequest_init, DeleteRequest_init, SetDataRequest_init, CheckVersionRequest_init; unfailings.
Qed.
Lemma unfailing_sub_ops xid ops : ∀ result rc oa clist slots, 0 < bs_len oa →
  unfailing (sub_ops xid ops result rc oa clist slots).
Proof.
  induction ops as [|op ops IH]; intros result rc oa clist slots Hl; cbn [sub_ops]; [by unfailings|].
  apply (unfailing_with positive).
  { destruct (rc <? 0); [by apply yields_ret|]. apply yields_writing; [eauto with halts|done]. }
  { destruct (rc <? 0); [by unfailings|]. apply unfailing_writing; [eauto with halts|done]. }
  intros [rc' oa'] Hp. apply (unfailing_with sub_positive); [by apply yields_sub_op|by apply unfailing_sub_op|].
  intros [[[[rc2 oa2] [entry|]] slot]|] Hs; [by apply IH|by unfailings..].
Qed.
Lemma submits_with {A} (Q : A → Prop) sc k (m : M A) f :
  yields Q m → still m → unfailing m → (∀ a, Q a → submits sc k (f a)) → submits sc k (m ≫= f).
Proof.
  intros Hy Hm Hu Hf s rc s' Hs Ha E. pose proof E as E0.
  apply bind_Ret_inv in E as ((a & s1) & E1 & E2). specialize (Hf a (yields_Ret _ _ _ _ _ Hy E1)).
  pose proof (still_unseen _ _ _ _ _ Hm Hs E1) as Hn.
  destruct (Hf s1 rc s') as [[-> Hx]|[? Hx]]; [apply Hn|by eapply Hu|done|left|right]; split; try done.
  - by eapply unseen_admitted.
  - by eapply unseen_trans.
Qed.
(** [zoo_amulti] without the slots it reports. *)
Definition amulti_rc (ops : list zoo_op) (results completion data : Z) : M Z :=
  xid ← get_xid;
  '(rc, oa) ← marshal (header xid ZOO_MULTI_OP);
  '(r, slots) ← sub_ops xid ops results rc oa [] [];
  match r with
  | None => mret ZUNIMPLEMENTED
  | Some (rc, oa, clist) =>
      '(rc, oa) ← (if rc <? 0 then mret (rc, oa)
                   else writing (serialize_MultiHeader (mk_MultiHeader (-1) 1 (-1))) oa);
      rc ← unless_failed rc (add_multi_completion xid completion data clist);
      rc ← unless_failed rc (queue_buffer_bytes (get_buffer oa) (get_buffer_len oa));
      adaptor_send_queue 0;;
      mret (if rc <? 0 then ZMARSHALLINGERROR else ZOK)
  end.
Lemma M_bind_intro {A B} (m : M A) (f : A → M B) s a s1 r : m s = Ret (a, s1) → f a s1 = r → (m ≫= f) s = r.
Proof. intros E <-. unfold mbind, M_bind. by rewrite E. Qed.
Lemma amulti_rc_Ret ops results completion data s rc s' :
  ('(rc, _) ← zoo_amulti ops results completion data; mret rc) s = Ret (rc, s') →
  amulti_rc ops results completion data s = Ret (rc, s').
Proof.
  intros E. apply bind_Ret_inv in E as (([rc' slots] & s0) & E & E0). injection E0 as -> ->.
  unfold zoo_amulti in E. unfold amulti_rc.
  apply bind_Ret_inv in E as ((xid & s1) & E1 & E). eapply M_bind_intro; [exact E1|].
  apply bind_Ret_inv in E as (([rc1 oa] & s2) & E2 & E). eapply M_bind_intro; [exact E2|].
  apply bind_Ret_inv in E as (([r slots'] & s3) & E3 & E). eapply M_bind_intro; [exact E3|].
  destruct r as [[[rc3 oa3] clist]|]; [|by injection E as <- <- <-].
  apply bind_Ret_inv in E as (([rc4 oa4] & s4) & E4 & E). eapply M_bind_intro; [exact E4|].
  apply bind_Ret_inv in E as ((rc5 & s5) & E5 & E). eapply M_bind_intro; [exact E5|].
  apply bind_Ret_inv in E as ((rc6 & s6) & E6 & E). eapply M_bind_intro; [exact E6|].
  apply bind_Ret_inv in E as ((rc7 & s7) & E7 & E). eapply M_bind_intro; [exact E7|].
  by injection E as <- <- <-.
Qed.
Lemma submits_amulti sc ops results :
  submits sc KMulti ('(rc, _) ← zoo_amulti ops results SYNCHRONOUS_MARKER sc; mret rc).
Proof.
  intros s rc s' Hs Ha E. apply amulti_rc_Ret in E. revert s rc s' Hs Ha E.
  change (submits sc KMulti (amulti_rc ops results SYNCHRONOUS_MARKER sc)). unfold amulti_rc.
  apply submits_still; [by stills|by unfailings|intros xid].
  apply (submits_with positive); [by apply yields_marshal, steady_header|by stills|
    by apply unfailing_marshal, steady_header|intros [rc oa] Hp].
  eapply submits_with; [by apply yields_sub_ops|by stills|by apply unfailing_sub_ops|].
  intros [[[[rc2 oa2] clist]|] slots] Hs; [|by apply submits_refuse].
  apply submits_still; [by stills| |].
  { destruct (rc2 <? 0); [by unfailings|]. apply unfailing_writing; [eauto with halts|done]. }
  intros [rc3 oa3]. apply submits_end. unfold add_multi_completion. apply (adds_add_completion _ KMulti).
Qed.

(** Removing watches: the local case notifies the completion itself. *)
Lemma submits_notify sc k : submits sc k (notify_local sc ;; mret ZOK).
Proof.
  intros s rc s' Hs Ha E. apply bind_Ret_inv in E as (([] & s1) & E1 & E). injection E as <- <-.
  apply bind_Ret_inv in E1 as ((c & s2) & E1 & E2). apply the_sync_Ret in E1 as [Hc ->]. injection E2 as <-.
  left. split; [done|]. split; cbn [s_zh s_world].
  - unfold linked. cbn [s_zh s_world w_sync set_w_sync].
    replace (zh_outstanding_sync (s_zh s)) with (zh_outstanding_sync (s_zh s) + 1 - 1) by lia.
    by apply linked_to_complete.
  - by left.
  - intros sc' Hne. cbn [w_sync set_w_sync]. by rewrite lookup_insert_ne.
  - exists c. split; [done|]. right. cbn [w_sync set_w_sync]. by rewrite lookup_insert, decide_True.
Qed.
Lemma submits_aremove sc path wtype w ctx local all :
  submits sc KVoid (aremove_watches path wtype w ctx local SYNCHRONOUS_MARKER sc all).
Proof.
  unfold aremove_watches. do 2 submits_step. destruct (negb _); [by apply submits_refuse|].
  submits_step. destruct (_ && _); [by apply submits_refuse|].
  destruct a as [sp|]; [|by apply submits_raise]. do 2 submits_step.
  destruct (negb _); [by apply submits_refuse|]. destruct local.
  { do 2 submits_step. apply submits_notify. }
  apply submits_still; [by stills|apply unfailing_marshal; apply steady_then; [apply steady_header|]|].
  { destruct all; eauto with halts. }
  intros [rc oa]. destruct (Z.ltb_spec rc 0); [apply submits_refuse; lia|].
  submits_step. destruct a3 as [wdo|]; [|by apply submits_refuse].
  exact (submits_end sc KVoid _ _ _ 0 (adds_create _ KVoid sc None None (Some wdo))).
Qed.
End synchronous.
