(* ===== verification/Lifetime.v ===== *)
(** * Whose handle it is

    The references of the threads of the library to the handle.  A computation [keeps]
    the life of a handle somebody holds if it leaves the count, the request to close and
    the handle itself as they were. *)

From S2P Require Import Prelude RecordIO Jute Path Watchers WatchersTheorems Addrvec Hosts Handshake Transport Handle.
From S2P Require Import Session SessionTheorems ResponseTheorems Requests Interest Init Triples StateTheorems Sync Threads SyncFacts SyncRequests.
Local Open Scope Z_scope.
#[local] Existing Instance mt_adaptor | 0.

Definition life (zh : zhandle) : Z * Z * bool :=
  (zh_ref_counter zh, zh_close_requested zh, zh_freed zh).
Definition keeps {A} (m : M A) : Prop := ∀ s a s',
  1 ≤ zh_ref_counter (s_zh s) → m s = Ret (a, s') → life (s_zh s') = life (s_zh s).

Lemma life_refs zh zh' : life zh' = life zh → zh_ref_counter zh' = zh_ref_counter zh.
Proof. by intros [= -> _ _]. Qed.
Lemma life_core zh zh' : core_of zh' = core_of zh → life zh' = life zh.
Proof.
  intros E. unfold life. change (zh_ref_counter zh') with (k_refs (core_of zh')).
  change (zh_close_requested zh') with (k_closing (core_of zh')).
  change (zh_freed zh') with (k_freed (core_of zh')). by rewrite E.
Qed.
Lemma keeps_quiet {A} (m : M A) : quiet m → keeps m.
Proof. intros Hm s a s' _ E. by apply life_core, (Hm _ a). Qed.
Lemma keeps_seq {A B} (m : M A) (f : A → M B) : keeps m → (∀ a, keeps (f a)) → keeps (m ≫= f).
Proof.
  intros Hm Hf s b s' Hs E. apply bind_Ret_inv in E as ((a & s1) & E1 & E2).
  pose proof (Hm _ _ _ Hs E1) as H1. rewrite <-(life_refs _ _ H1) in Hs.
  by rewrite (Hf a _ _ _ Hs E2).
Qed.
Lemma keeps_modify f : (∀ zh, life (f zh) = life zh) → keeps (modify f).
Proof. intros Hf s a s' _ E. injection E as <- <-. apply Hf. Qed.

Create HintDb keep.
#[export] Hint Resolve keeps_quiet : keep.
Ltac keep_step :=
  match goal with
  | |- keeps (_ ≫= _) => apply keeps_seq; [|intros ?]
  | |- keeps (modify _) => apply keeps_modify; intros ?; reflexivity
  | |- keeps (match ?x with _ => _ end) => destruct x
  | |- keeps _ => solve [eauto 2 with keep nocore]
  | |- keeps _ => apply keeps_quiet; by quiet
  end.
Ltac keep := repeat keep_step.

Section engine.
Context `{Host, Locals}.

(** ** The engine *)
Lemma keeps_process_sync cptr c ia : keeps (process_sync_completion cptr c ia).
Proof. apply keeps_quiet, still_quiet, still_process_sync_completion. Qed.
Lemma keeps_the_sync sc : keeps (the_sync sc).
Proof. apply keeps_quiet, still_quiet, still_the_sync. Qed.
Hint Resolve keeps_process_sync keeps_the_sync : keep.
Lemma keeps_notify sc : keeps (notify_sync_completion sc).
Proof. unfold notify_sync_completion, put_sync. keep. Qed.
Hint Resolve keeps_notify : keep.
Lemma keeps_fail cptr reason : keeps (fail_synchronous cptr reason).
Proof. threaded. unfold mt_fail_synchronous, put_sync, one_less_outstanding. keep. Qed.
Lemma keeps_answer cptr rc ia : keeps (answer_synchronous cptr rc ia).
Proof. threaded. unfold mt_answer_synchronous, put_sync, one_less_outstanding. keep. Qed.
Lemma keeps_notify_local data : keeps (notify_local data).
Proof. threaded. keep. Qed.
Hint Resolve keeps_fail keeps_answer keeps_notify_local : keep.
Lemma keeps_queue_completion c : keeps (queue_completion c).
Proof. unfold queue_completion. keep. Qed.
Hint Resolve keeps_queue_completion : keep.
Lemma keeps_fake_responses l call reason : keeps (fake_responses l call reason).
Proof. induction l as [|c l IH]; cbn [fake_responses]; keep. Qed.
Hint Resolve keeps_fake_responses : keep.
Lemma keeps_free_completions call reason : keeps (free_completions call reason).
Proof. unfold free_completions. keep. Qed.
Lemma keeps_completions_loop l : keeps (completions_loop l).
Proof. induction l as [|c l IH]; cbn [completions_loop]; keep. Qed.
Hint Resolve keeps_free_completions keeps_completions_loop : keep.
Lemma keeps_process_completions : keeps process_completions.
Proof. unfold process_completions. keep. Qed.
Lemma keeps_process_completions_if_async : keeps process_completions_if_async.
Proof. unfold process_completions_if_async. threaded. keep. Qed.
Hint Resolve keeps_process_completions keeps_process_completions_if_async : keep.
Lemma keeps_queue_session_event state : keeps (queue_session_event state).
Proof. unfold queue_session_event, create_completion_entry. keep. Qed.
Lemma keeps_cleanup_bufs call rc : keeps (cleanup_bufs call rc).
Proof. unfold cleanup_bufs. keep. Qed.
Hint Resolve keeps_queue_session_event keeps_cleanup_bufs : keep.
Lemma keeps_cleanup rc : keeps (cleanup rc).
Proof. unfold cleanup, set_fd, set_state. keep. Qed.
Hint Resolve keeps_cleanup : keep.
Lemma keeps_handle_error rc : keeps (handle_error rc).
Proof. unfold handle_error. keep. Qed.
Hint Resolve keeps_handle_error : keep.
Lemma keeps_error_msg rc : keeps (handle_socket_error_msg rc).
Proof. unfold handle_socket_error_msg. keep. Qed.
Hint Resolve keeps_error_msg : keep.
Lemma keeps_prime_connection : keeps prime_connection.
Proof. unfold prime_connection, set_state. keep. Qed.
Lemma keeps_recv_input : keeps recv_input.
Proof. unfold recv_input. keep. Qed.
Lemma keeps_finish_handshake : keeps finish_handshake.
Proof. unfold finish_handshake, set_state. keep. Qed.
Hint Resolve keeps_prime_connection keeps_recv_input keeps_finish_handshake : keep.
Lemma keeps_read_event : keeps read_event.
Proof. unfold read_event. keep. Qed.
Hint Resolve keeps_read_event : keep.
Lemma keeps_check_events events : keeps (check_events events).
Proof. unfold check_events. keep. Qed.
Lemma keeps_process_watcher_event b ia : keeps (process_watcher_event b ia).
Proof. unfold process_watcher_event, create_completion_entry. keep. Qed.
Lemma keeps_process_auth err : keeps (process_auth err).
Proof. unfold process_auth, auth_completion_func, set_state. keep. Qed.
Lemma keeps_process_response hdr b ia : keeps (process_response hdr b ia).
Proof. unfold process_response. keep. Qed.
Hint Resolve keeps_check_events keeps_process_watcher_event keeps_process_auth
  keeps_process_response : keep.
Lemma keeps_process_packet b : keeps (process_packet b).
Proof. unfold process_packet. keep. Qed.
Hint Resolve keeps_process_packet : keep.
Lemma keeps_packets_loop l : keeps (packets_loop l).
Proof. induction l as [|b l IH]; cbn [packets_loop]; keep. Qed.
Hint Resolve keeps_packets_loop : keep.
End engine.
#[export] Hint Resolve keeps_free_completions keeps_process_completions keeps_process_completions_if_async
  keeps_cleanup keeps_handle_error keeps_error_msg keeps_prime_connection keeps_check_events
  keeps_packets_loop : keep.

(** ** Calls that take a reference and give it back *)
Definition gave_back (zh zh' : zhandle) : Prop :=
  life zh' = (zh_ref_counter zh - 1, zh_close_requested zh, zh_freed zh).
(** The rest of a call that has taken a reference. *)
Definition gives_back {A} (m : M A) : Prop := ∀ s a s',
  2 ≤ zh_ref_counter (s_zh s) → m s = Ret (a, s') → gave_back (s_zh s) (s_zh s').

Lemma life_gave_back zh1 zh2 zh3 : life zh2 = life zh1 → gave_back zh2 zh3 → gave_back zh1 zh3.
Proof. unfold gave_back. intros [= E1 E2 E3] E. congruence. Qed.
Lemma gives_back_bind {A B} (m : M A) (f : A → M B) :
  keeps m → (∀ a, gives_back (f a)) → gives_back (m ≫= f).
Proof.
  intros Hm Hf s b s' Hs E. apply bind_Ret_inv in E as ((a & s1) & E1 & E2).
  assert (1 ≤ zh_ref_counter (s_zh s)) as Hs1 by lia. pose proof (Hm _ _ _ Hs1 E1) as H1.
  eapply life_gave_back; [exact H1|]. eapply Hf; [|exact E2]. by rewrite (life_refs _ _ H1).
Qed.
Lemma gives_back_ret {A B} (m : M A) (b : B) : gives_back m → gives_back (m ;; mret b).
Proof.
  intros Hm s b' s' Hs E. apply bind_Ret_inv in E as ((a & s1) & E1 & E2). injection E2 as <- <-.
  by eapply Hm.
Qed.

Section calls.
Context `{Host, Locals}.

Lemma api_prolog_eq s : api_prolog s =
  Ret ((), mk_sys (set_zh_ref_counter (zh_ref_counter (s_zh s) + 1) (s_zh s)) (s_world s)).
Proof. reflexivity. Qed.
Lemma keeps_call {A} (m : M A) : gives_back m → keeps (api_prolog ;; m).
Proof.
  intros Hm s a s' Hs E. apply bind_Ret_inv in E as (([] & s1) & E1 & E2).
  rewrite api_prolog_eq in E1. injection E1 as <-. apply Hm in E2; [|cbn; lia].
  rewrite E2. unfold life. cbn. by rewrite Z.add_simpl_r.
Qed.
(** Not the last reference. *)
Lemma epilog_gives_back rc s a s' : zh_ref_counter (s_zh s) ≠ 1 →
  api_epilog rc s = Ret (a, s') → gave_back (s_zh s) (s_zh s').
Proof.
  intros Hs E. unfold api_epilog, inc_ref_counter in E.
  apply bind_Ret_inv in E as ((n & s1) & E1 & E).
  apply bind_Ret_inv in E1 as (([] & s2) & E2 & E1). injection E2 as <-. injection E1 as <- <-.
  apply bind_Ret_inv in E as ((c & s2) & E2 & E). injection E2 as <- <-.
  rewrite (proj2 (Z.eqb_neq _ 0)) in E by (cbn; lia). cbn [andb] in E.
  apply bind_Ret_inv in E as (([] & s2) & E2 & E). injection E2 as <-. by injection E as <- <-.
Qed.
Lemma gives_back_epilog rc : gives_back (api_epilog rc).
Proof. intros s a s' Hs. apply epilog_gives_back. lia. Qed.
Lemma keeps_zookeeper_process events : keeps (zookeeper_process events).
Proof.
  unfold zookeeper_process. apply keeps_seq; [keep|intros [|]]; [keep|]. apply keeps_call.
  apply gives_back_bind; [keep|intros rc]. destruct (negb _); [apply gives_back_epilog|].
  repeat (apply gives_back_bind; [by keep|intros ?]). case_match; [|apply gives_back_epilog].
  repeat (apply gives_back_bind; [by keep|intros ?]). apply gives_back_epilog.
Qed.
End calls.
#[export] Hint Resolve keeps_zookeeper_process : keep.

(** ** The event loop *)
Definition ikeeps {A} (m : MI A) : Prop := ∀ s a s',
  1 ≤ zh_ref_counter (s_zh (i_sys s)) → m s = Ret (a, s') → life (s_zh (i_sys s')) = life (s_zh (i_sys s)).
Definition igives_back {A} (m : MI A) : Prop := ∀ s a s',
  2 ≤ zh_ref_counter (s_zh (i_sys s)) → m s = Ret (a, s') → gave_back (s_zh (i_sys s)) (s_zh (i_sys s')).

Lemma ikeeps_bind {A B} (m : MI A) (f : A → MI B) : ikeeps m → (∀ a, ikeeps (f a)) → ikeeps (m ≫= f).
Proof.
  intros Hm Hf s b s' Hs E. apply bind_Ret_inv in E as ((a & s1) & E1 & E2).
  pose proof (Hm _ _ _ Hs E1) as H1. rewrite <-(life_refs _ _ H1) in Hs. by rewrite (Hf a _ _ _ Hs E2).
Qed.
Lemma igives_back_bind {A B} (m : MI A) (f : A → MI B) :
  ikeeps m → (∀ a, igives_back (f a)) → igives_back (m ≫= f).
Proof.
  intros Hm Hf s b s' Hs E. apply bind_Ret_inv in E as ((a & s1) & E1 & E2).
  assert (1 ≤ zh_ref_counter (s_zh (i_sys s))) as Hs1 by lia. pose proof (Hm _ _ _ Hs1 E1) as H1.
  eapply life_gave_back; [exact H1|]. eapply Hf; [|exact E2]. by rewrite (life_refs _ _ H1).
Qed.
Lemma igives_back_sess {A B} (m : M A) (g : A → B) :
  gives_back m → igives_back (x ← sess m; mret (g x)).
Proof.
  intros Hm s b s' Hs E. apply bind_Ret_inv in E as ((a & s1) & E1 & E). injection E as <- <-.
  apply bind_Ret_inv in E1 as ((x & s2) & E1 & E2). injection E2 as <- <-. by eapply Hm.
Qed.
Lemma ikeeps_sess {A} (m : M A) : keeps m → ikeeps (sess m).
Proof.
  intros Hm s a s' Hs E. apply bind_Ret_inv in E as ((b & s1) & E1 & E2). injection E2 as <- <-.
  by apply (Hm _ b).
Qed.
Lemma ikeeps_call {A} (m : MI A) : igives_back m → ikeeps (sess api_prolog ;; m).
Proof.
  intros Hm s a s' Hs E. apply bind_Ret_inv in E as (([] & s1) & E1 & E2). injection E1 as <-.
  apply Hm in E2; [|cbn; lia]. rewrite E2. unfold life. cbn. by rewrite Z.add_simpl_r.
Qed.
Lemma ikeeps_quiet {A} (m : MI A) : iquiet m → ikeeps m.
Proof. intros Hm s a s' _ E. by apply life_core, (Hm _ a). Qed.
Lemma ikeeps_mupdate_addrs : ikeeps mupdate_addrs.
Proof.
  intros s a s' Hs E. unfold mupdate_addrs in E. apply bind_Ret_inv in E as ([d s1] & _ & E).
  apply bind_Ret_inv in E as ([[rc sv] o] & _ & E). by injection E as <- <-.
Qed.
#[export] Hint Resolve ikeeps_mupdate_addrs : keep.
Ltac ikeep_step :=
  match goal with
  | |- ikeeps (_ ≫= _) => apply ikeeps_bind; [|intros ?]
  | |- ikeeps (sess _) => apply ikeeps_sess; by keep
  | |- ikeeps (match ?x with _ => _ end) => destruct x
  | |- ikeeps _ => solve [eauto 2 with keep nocore]
  | |- ikeeps _ => apply ikeeps_quiet; by iquiet
  end.
Ltac ikeep := repeat ikeep_step.

Section loop.
Context `{Host, Locals}.

Lemma ikeeps_mcycle_next_server : ikeeps mcycle_next_server.
Proof. unfold mcycle_next_server. ikeep. Qed.
Hint Resolve ikeeps_mcycle_next_server : keep.
Lemma ikeeps_connect_phase : ikeeps connect_phase.
Proof. unfold connect_phase, set_fd, set_state. ikeep. Qed.
Lemma ikeeps_ping_phase rt idle : ikeeps (ping_phase rt idle).
Proof. unfold ping_phase. ikeep. Qed.
Lemma ikeeps_ping_rw_server : ikeeps ping_rw_server.
Proof. unfold ping_rw_server. ikeep. Qed.
Hint Resolve ikeeps_ping_rw_server : keep.
Lemma ikeeps_rw_phase now send_to : ikeeps (rw_phase now send_to).
Proof. unfold rw_phase. ikeep. Qed.
Lemma ikeeps_add_timeval now tv : ikeeps (add_timeval now tv).
Proof. unfold add_timeval. ikeep. Qed.
Hint Resolve ikeeps_connect_phase ikeeps_ping_phase ikeeps_rw_phase ikeeps_add_timeval : keep.
Lemma ikeeps_watch_phase now out : ikeeps (watch_phase now out).
Proof. unfold watch_phase. ikeep. Qed.
Lemma ikeeps_connected_now now : ikeeps (connected_now now).
Proof. unfold connected_now. ikeep. Qed.
Hint Resolve ikeeps_watch_phase ikeeps_connected_now : keep.
Lemma ikeeps_zookeeper_interest out : ikeeps (zookeeper_interest out).
Proof.
  assert (∀ rc (out : interest), igives_back (rc ← sess (api_epilog rc); mret (rc, out))) as Hend.
  { intros rc out'. apply igives_back_sess, gives_back_epilog. }
  unfold zookeeper_interest. apply ikeeps_bind; [ikeep|intros [|]]; [ikeep|].
  apply ikeeps_bind; [ikeep|intros now]. apply ikeeps_call.
  apply igives_back_bind; [ikeep|intros rc]. destruct (negb _); [apply Hend|].
  apply igives_back_bind; [ikeep|intros fd]. apply igives_back_bind; [ikeep|intros [|tv]]; [apply Hend|].
  repeat (apply igives_back_bind; [by ikeep|intros ?]). case_match. apply Hend.
Qed.
Hint Resolve ikeeps_zookeeper_interest : keep.
Lemma ikeeps_io_round junk answer : ikeeps (io_round junk answer).
Proof. unfold io_round. ikeep. Qed.
End loop.
#[export] Hint Resolve ikeeps_io_round : keep.

(** ** Requests *)
Section requests.
Context `{Host, Locals}.

Lemma keeps_do_add dc c front : keeps (do_add_completion dc c front).
Proof. unfold do_add_completion. keep. Qed.
Hint Resolve keeps_do_add : keep.
Lemma keeps_unless_failed rc m : keeps m → keeps (unless_failed rc m).
Proof. intros. unfold unless_failed. keep. Qed.
Lemma keeps_submit ser add : keeps add → keeps (submit ser add).
Proof.
  intros. unfold submit, queue_buffer_bytes. apply keeps_seq; [by keep|intros []].
  apply keeps_seq; [by apply keeps_unless_failed|intros ?]. keep.
Qed.
Lemma keeps_aremove path wtype watcher ctx local fn data all :
  keeps (aremove_watches path wtype watcher ctx local fn data all).
Proof.
  unfold aremove_watches, queue_buffer_bytes, add_completion_deregistration,
    create_completion_entry_deregistration, add_void_completion, add_completion, create_completion_entry.
  repeat first [keep_step | apply keeps_notify_local | apply keeps_unless_failed].
Qed.
Ltac keep_request :=
  unfold_requests; unfold add_completion, create_completion_entry;
  repeat first [keep_step | apply keeps_submit | apply keeps_unless_failed].
Lemma keeps_run_request r fn data : keeps (run_request r fn data).
Proof.
  destruct r; cbn [run_request]; try apply keeps_aremove;
    unfold zoo_add_auth, queue_buffer_bytes; keep_request.
Qed.
Lemma keeps_start u mem request sc : (∀ fn data, keeps (request fn data)) → keeps (start_sync u mem request sc).
Proof. intros. unfold start_sync, alloc_sync_completion, put_sync, free_sync_completion. keep. Qed.
(** Every call of the synchronous API, up to its wait. *)
Lemma keeps_before_wait r sc : keeps (before_wait (sync_api r) sc).
Proof.
  destruct r; cbn [sync_api];
    unfold zoo_create, zoo_create2, zoo_exists, zoo_get, zoo_getconfig, zoo_wgetconfig, zoo_set,
      zoo_get_children, zoo_wget_children, zoo_get_children2, zoo_wget_children2,
      zoo_remove_watches, zoo_remove_all_watches, zoo_wget, zoo_reconfig, with_buffer_len, remove_watches;
    try (destruct len as [len|]); try (destruct path as [path|]);
    cbn [with_default_watcher before_wait]; repeat (apply keeps_seq; [by keep|intros []]);
    try (apply keeps_quiet; by quiet); apply keeps_start; intros fn data;
    first [apply keeps_aremove | keep_request].
Qed.
End requests.

(** ** Processes *)
Section processes.
Context `{Host, Locals}.

Lemma freed_after_destroy s a s' : destroy s = Ret (a, s') → zh_freed (s_zh s') = true.
Proof.
  intros E. unfold destroy in E.
  do 7 (apply bind_Ret_inv in E as ([? ?] & _ & E)). by injection E as <- <-.
Qed.
Lemma freed_after_close s a s' : close_session s = Ret (a, s') → zh_freed (s_zh s') = true.
Proof.
  intros E. unfold close_session in E. do 2 (apply bind_Ret_inv in E as ([? ?] & _ & E)).
  apply bind_Ret_inv in E as (([] & t) & E1 & E). injection E as <- <-. by eapply freed_after_destroy.
Qed.
(** The last reference. *)
Lemma epilog_closes rc s a s' : zh_ref_counter (s_zh s) = 1 → zh_close_requested (s_zh s) ≠ 0 →
  api_epilog rc s = Ret (a, s') → zh_freed (s_zh s') = true.
Proof.
  intros Hr Hc E. unfold api_epilog, inc_ref_counter in E.
  apply bind_Ret_inv in E as ((n & s1) & E1 & E).
  apply bind_Ret_inv in E1 as (([] & s2) & E2 & E1). injection E2 as <-. injection E1 as <- <-.
  apply bind_Ret_inv in E as ((c & s2) & E2 & E). injection E2 as <- <-.
  cbn [s_zh zh_ref_counter zh_close_requested set_zh_ref_counter] in E.
  rewrite Hr, (proj2 (Z.eqb_neq _ 0) Hc) in E. cbn [Z.add Z.eqb Z.pos_sub negb andb] in E.
  apply bind_Ret_inv in E as (([] & s2) & E2 & E). injection E as <- <-.
  do 2 (apply bind_Ret_inv in E2 as ([? ?] & _ & E2)).
  apply bind_Ret_inv in E2 as ((rc' & t) & E3 & E2). injection E2 as <-. by eapply freed_after_close.
Qed.

Definition reference (held : bool) : Z := if held then 1 else 0.
(** Every reference to the handle is somebody's: either thread of the library has one, a
    close under way has two. *)
Record owned (p : process) : Prop := {
  ow_refs : zh_freed (p_zh p) = false →
    zh_ref_counter (p_zh p) = reference (p_io p) + reference (p_completion p) + 2 * reference (p_closing p);
  ow_freed : zh_freed (p_zh p) = true → p_io p = false ∧ p_completion p = false ∧ p_closing p = false;
  ow_requested : p_closing p = true → zh_close_requested (p_zh p) = 1;
  ow_open : zh_freed (p_zh p) = false → p_closing p = false →
    zh_close_requested (p_zh p) = 0 ∧ p_completion p = true;
}.
Lemma owned_life p p' : owned p → life (p_zh p') = life (p_zh p) →
  p_io p' = p_io p → p_completion p' = p_completion p → p_closing p' = p_closing p → owned p'.
Proof.
  intros [Hr Hf Hq Ho] E Hi Hc Hx. unfold life in E. injection E as E1 E2 E3.
  split; rewrite ?E1, ?E2, ?E3, ?Hi, ?Hc, ?Hx; assumption.
Qed.
Lemma owned_held p : owned p → zh_freed (p_zh p) = false → 1 ≤ zh_ref_counter (p_zh p).
Proof.
  intros [Hr Hf Hq Ho] Hz. rewrite Hr by done. unfold reference.
  destruct (p_closing p); [destruct (p_io p), (p_completion p); lia|].
  destruct (Ho Hz eq_refl) as [_ ->]. destruct (p_io p); lia.
Qed.
Lemma owned_alive p : owned p → p_io p = true ∨ p_completion p = true ∨ p_closing p = true →
  zh_freed (p_zh p) = false.
Proof.
  intros Hp Hx. destruct (zh_freed (p_zh p)) eqn:E; [|done].
  destruct (ow_freed _ Hp E) as (? & ? & ?). destruct Hx as [|[|]]; congruence.
Qed.
(** A thread of the library ends: another reference is left. *)
Lemma owned_left p s io completion rc a : owned p →
  (p_io p = true ∧ io = false ∧ completion = p_completion p) ∨
  (p_completion p = true ∧ completion = false ∧ io = p_io p ∧ p_closing p = true) →
  api_epilog rc (p_sys p) = Ret (a, s) →
  owned (on_sys s (set_threads io completion (p_closing p) p)) ∧ zh_freed (s_zh s) = zh_freed (p_zh p).
Proof.
  intros Hp Hcase E. assert (zh_freed (p_zh p) = false) as Hz.
  { apply owned_alive; [done|]. destruct Hcase as [[? _]|[? _]]; auto. }
  pose proof Hp as [Hr Hf Hq Ho]. specialize (Hr Hz). unfold reference in Hr.
  assert (2 ≤ zh_ref_counter (p_zh p)) as H2.
  { destruct Hcase as [(E1 & _ & _)|(E1 & _ & _ & E2)]; rewrite E1 in Hr; [|rewrite E2 in Hr; destruct (p_io p); lia].
    destruct (p_closing p); [destruct (p_completion p); lia|].
    destruct (Ho Hz eq_refl) as [_ E2]. rewrite E2 in Hr. lia. }
  apply epilog_gives_back in E; [|unfold p_zh in H2; lia]. injection E as E1 E2 E3.
  change (s_zh (p_sys p)) with (p_zh p) in *.
  split; [|done]. split; unfold p_zh, p_sys; cbn [p_isys on_sys i_sys p_io p_completion p_closing set_threads];
    rewrite ?E1, ?E2, ?E3, ?Hz; [intros _|done|exact Hq|].
  - rewrite Hr. unfold reference. destruct Hcase as [(-> & -> & ->)|(-> & -> & -> & _)]; lia.
  - intros _ Hx. destruct (Ho Hz Hx) as [Ho1 Ho2]. split; [exact Ho1|].
    destruct Hcase as [(_ & _ & ->)|(_ & _ & _ & Hy)]; congruence.
Qed.
(** A close begins: the thread for completions holds a reference, so the handle stays. *)
Lemma owned_close p a s : owned p → zh_freed (p_zh p) = false → p_closing p = false →
  close_begin (p_sys p) = Ret (a, s) →
  owned (on_sys s (set_threads (p_io p) (p_completion p) a p)) ∧ zh_freed (s_zh s) = zh_freed (p_zh p).
Proof.
  intros Hp Hz Hx E. pose proof (owned_held _ Hp Hz) as H1. destruct Hp as [Hr Hf Hq Ho].
  unfold close_begin, inc_ref_counter in E.
  apply bind_Ret_inv in E as (([] & s1) & E1 & E). injection E1 as <-.
  apply bind_Ret_inv in E as ((n & s1) & E1 & E).
  apply bind_Ret_inv in E1 as (([] & s2) & E2 & E1). injection E2 as <-. injection E1 as <- <-.
  cbn [s_zh zh_ref_counter set_zh_ref_counter set_zh_close_requested] in E.
  rewrite (proj2 (Z.ltb_lt 1 _)) in E by (unfold p_zh in H1; lia).
  apply bind_Ret_inv in E as ((b & s1) & E1 & E). apply keeps_free_completions in E1; [|cbn; unfold p_zh in H1; lia].
  apply bind_Ret_inv in E as (([] & s2) & E2 & E). rewrite api_prolog_eq in E2. injection E2 as <-.
  apply bind_Ret_inv in E as ((w & s2) & E2 & E). injection E as <- <-.
  apply keeps_quiet in E2; [|unfold wakeup_io_thread; by quiet|cbn; rewrite (life_refs _ _ E1); cbn; unfold p_zh in H1; lia].
  injection E2 as F1 F2 F3. injection E1 as G1 G2 G3.
  cbn [s_zh zh_ref_counter zh_close_requested zh_freed set_zh_ref_counter set_zh_close_requested] in *.
  split; [|unfold p_zh; congruence]. destruct (Ho Hz Hx) as [_ Hc].
  split; unfold p_zh, p_sys; cbn [p_isys on_sys i_sys p_io p_completion p_closing set_threads];
    rewrite ?F1, ?F2, ?F3, ?G1, ?G2, ?G3; [|unfold p_zh in Hz; congruence|done|done].
  intros _. unfold p_zh in Hr. rewrite Hr by done. rewrite Hx. unfold reference. lia.
Qed.
(** It ends: both references are given back and the handle is freed. *)
Lemma owned_close_end p a s : owned p → p_closing p = true → p_io p = false → p_completion p = false →
  close_end (p_sys p) = Ret (a, s) → zh_freed (s_zh s) = true.
Proof.
  intros Hp Hx Hi Hc E. assert (zh_freed (p_zh p) = false) as Hz by (apply owned_alive; auto).
  destruct Hp as [Hr Hf Hq Ho]. specialize (Hr Hz). rewrite Hx, Hi, Hc in Hr. unfold reference in Hr.
  unfold close_end in E. apply bind_Ret_inv in E as ((r1 & s1) & E1 & E).
  apply bind_Ret_inv in E as ((r2 & s2) & E2 & E). injection E as <- <-.
  apply epilog_gives_back in E1; [|unfold p_zh in Hr; lia]. injection E1 as F1 F2 F3.
  change (s_zh (p_sys p)) with (p_zh p) in *.
  eapply epilog_closes; [| |exact E2]; [lia|]. rewrite F2, Hq by done. done.
Qed.

Lemma quiet_after_wait r sc : quiet (after_wait (sync_api r) sc).
Proof.
  destruct r; cbn [sync_api];
    unfold zoo_create, zoo_create2, zoo_exists, zoo_get, zoo_getconfig, zoo_wgetconfig, zoo_set,
      zoo_get_children, zoo_wget_children, zoo_get_children2, zoo_wget_children2,
      zoo_remove_watches, zoo_remove_all_watches, zoo_wget, zoo_reconfig, with_buffer_len, remove_watches,
      zoo_create_ttl, zoo_create2_ttl, zoo_delete, zoo_wexists, zoo_set2, zoo_wget_children_,
      zoo_wget_children2_, zoo_get_acl, zoo_set_acl, zoo_multi;
    try (destruct len as [len|]); try (destruct path as [path|]);
    cbn [with_default_watcher after_wait]; unfold finish_sync, the_sync, free_sync_completion; quiet.
Qed.
(** A step, and what frees the handle. *)
Lemma step_owned p p' : owned p → tstep p p' → owned p' ∧
  (zh_freed (p_zh p') = zh_freed (p_zh p) ∨ p_closing p = true ∧ p_io p = false ∧ p_completion p = false).
Proof.
  intros Hp Hst.
  assert (∀ p', life (p_zh p') = life (p_zh p) → p_io p' = p_io p → p_completion p' = p_completion p →
    p_closing p' = p_closing p → owned p' ∧ (zh_freed (p_zh p') = zh_freed (p_zh p) ∨
      p_closing p = true ∧ p_io p = false ∧ p_completion p = false)) as Hsame.
  { intros p2 E ? ? ?. split; [by apply (owned_life p)|]. left. by injection E. }
  destruct Hst as [i r sc a s Hz Hi Hsc _ Ha E|i r sc c a s Hi Hc Hrdy E|r fn data rc s Hz Hfn Hd E
    |junk answer a s Hz _ _ _ E|a s Hi _ E|a s Hz _ E|a s Hc Hq E|a s Hz Hx E|a s Hx Hi Hc E|w e Hw].
  - apply Hsame; [|done..]. eapply keeps_before_wait; [by apply owned_held|exact E].
  - apply Hsame; [|done..]. by eapply life_core, quiet_after_wait.
  - apply Hsame; [|done..]. eapply keeps_run_request; [by apply owned_held|exact E].
  - apply Hsame; [|done..]. eapply ikeeps_io_round; [by apply owned_held|exact E].
  - destruct (owned_left p s false (p_completion p) 0 a Hp) as [Ho Hf]; [by left|exact E|]. split; [done|by left].
  - apply Hsame; [|done..]. eapply keeps_process_completions; [by apply owned_held|exact E].
  - destruct (owned_left p s (p_io p) false 0 a Hp) as [Ho Hf]; [right|exact E|split; [done|by left]].
    split_and!; try done. destruct (p_closing p) eqn:Hx; [done|].
    destruct (ow_open _ Hp) as [Ho _]; [apply owned_alive; auto|done|congruence].
  - destruct (owned_close p a s Hp Hz Hx E) as [Ho Hf]. split; [done|by left].
  - pose proof (owned_close_end _ _ _ Hp Hx Hi Hc E) as Hz. split; [|by right].
    split; unfold p_zh, p_sys; cbn; rewrite ?Hz; done.
  - by apply Hsame.
Qed.
(** [adaptor_init] on a handle that nobody uses starts a process or has no effect. *)
Lemma adaptor_init_starts pipe_ok s rc s' nt env : adaptor_init pipe_ok s = Ret (rc, s') →
  w_sync (s_world s) = ∅ → zh_sent_requests (s_zh s) = [] → zh_outstanding_sync (s_zh s) = 0 →
  life (s_zh s) = (0, 0, false) →
  rc = -1 ∧ s_zh s' = s_zh s ∨ rc = 0 ∧ started (mk_process (mk_isys s' nt env) ∅ true true false).
Proof.
  intros E Hw Hr Hn [= H1 H2 H3]. unfold adaptor_init in E. apply bind_Ret_inv in E as ((ok & s1) & E1 & E).
  unfold allocating in E1. apply bind_Ret_inv in E1 as ([ok' o] & _ & E1). injection E1 as -> <-.
  destruct ok; cbn [negb] in E; [|left; by injection E as <- <-].
  destruct pipe_ok; cbn [negb] in E; [|left; by injection E as <- <-]. right.
  do 3 (apply bind_Ret_inv in E as (([] & ?) & Ei & E); rewrite api_prolog_eq in Ei; injection Ei as <-).
  apply bind_Ret_inv in E as ((z & s2) & E1 & E). injection E as <- <-.
  rewrite api_epilog_open in E1 by exact H2. injection E1 as <- <-.
  unfold started, p_sync, p_zh, p_sys. cbn. rewrite H1, H2, H3. split_and!; done.
Qed.
Lemma started_owned p : started p → owned p.
Proof.
  intros (_ & _ & Hi & Hc & Hx & _ & _ & Hr & Hq & Hz).
  split; rewrite ?Hi, ?Hc, ?Hx, ?Hr, ?Hq, ?Hz; done.
Qed.
Lemma reachable_owned p0 p : started p0 → rtc tstep p0 p → owned p.
Proof.
  intros Hs Hr. apply started_owned in Hs. induction Hr as [p|p p1 p2 H1 _ IH]; [done|].
  apply IH. by eapply (step_owned p).
Qed.

End processes.

(** ** A run: a thread waits in a synchronous call while another one closes the handle *)
Definition sample_started : process :=
  mk_process (mk_isys (mk_sys (set_zh_ref_counter 2 (s_zh (i_sys sample_created)))
                              (s_world (i_sys sample_created)))
                      (i_net sample_created) (i_env sample_created)) ∅ true true false.
Definition sample_sync : sync_request := SDelete (Some (lit "/a")) (-1).
Definition sys_after {A} (m : outcome (A * sys)) (s : sys) : sys := match m with Ret (_, s') => s' | _ => s end.
Definition sample_waits : process :=
  on_sys (sys_after (before_wait (@sync_api sample_host zero_locals sample_sync) 16 (p_sys sample_started))
            (p_sys sample_started))
    (set_waiting (<[0%nat := (sample_sync, 16)]> (p_waiting sample_started)) sample_started).
Definition sample_closes : process :=
  on_sys (sys_after (@close_begin sample_host zero_locals (p_sys sample_waits)) (p_sys sample_waits))
    (set_threads (p_io sample_waits) (p_completion sample_waits) true sample_waits).

Lemma sample_is_started : started sample_started.
Proof. by vm_compute. Qed.
Lemma sample_call_step : @tstep sample_host zero_locals sample_started sample_waits.
Proof.
  apply (Threads.step_call _ 0%nat sample_sync 16 None); [vm_compute; reflexivity..|done| |];
    vm_compute; reflexivity.
Qed.
Lemma sample_close_step : @tstep sample_host zero_locals sample_waits sample_closes.
Proof. apply (Threads.step_close _ true); vm_compute; reflexivity. Qed.
Lemma sample_threads : rtc (@tstep sample_host zero_locals) sample_started sample_closes.
Proof. eapply rtc_l; [apply sample_call_step|]. apply rtc_once, sample_close_step. Qed.

