(* ===== verification/ThreadsTheorems.v ===== *)
(** * Theorems about the threads of the library

    The barrier the threads start behind; the synchronous calls of the application in any
    interleaving with the thread for I/O, the thread for completions and a close: no
    completion is lost, leaked or used after it was freed, and a thread whose request is
    no longer outstanding can leave its call. *)

From S2P Require Import Prelude RecordIO Jute Path Watchers WatchersTheorems Addrvec Hosts Handshake Transport Handle.
From S2P Require Import Session SessionTheorems Requests Interest Init Triples Sync Threads SyncFacts SyncRequests Lifetime.
Local Open Scope Z_scope.
#[local] Existing Instance mt_adaptor | 0.

(** ** The barrier *)
Module BarrierTheorems.
Import Barrier.

Global Instance pc_eq_dec : EqDecision pc.
Proof. solve_decision. Defined.

(** How many of the threads are at [p]. *)
Definition number (p : pc) (l : list pc) : nat := length (filter (λ q, q = p) l).
Lemma number_cons p q l : number p (q :: l) = ((if decide (q = p) then 1 else 0) + number p l)%nat.
Proof. unfold number. rewrite filter_cons. by case_decide. Qed.
Lemma number_insert p l i x y : l !! i = Some x →
  (number p (<[i := y]> l) + (if decide (x = p) then 1 else 0) =
   number p l + (if decide (y = p) then 1 else 0))%nat.
Proof.
  revert i. induction l as [|z l IH]; intros [|i] Hi; simplify_eq/=; rewrite !number_cons; [lia|].
  specialize (IH _ Hi). lia.
Qed.
Lemma number_0 p l : number p l = 0%nat ↔ p ∉ l.
Proof.
  induction l as [|q l IH]; [split; [intros _; apply not_elem_of_nil|done]|].
  rewrite number_cons, not_elem_of_cons. case_decide; naive_solver lia.
Qed.
Lemma number_broadcast_Coming l : number Coming (broadcast <$> l) = number Coming l.
Proof.
  induction l as [|[] l IH]; [done|..]; cbn [fmap list_fmap]; rewrite !number_cons; cbn [broadcast]; rewrite IH; done.
Qed.
Lemma number_broadcast_Awake l : (number Awake (broadcast <$> l) ≤ length l)%nat.
Proof. unfold number. etrans; [apply length_filter|]. by rewrite length_fmap. Qed.

(** The threads that have not reached the barrier are those that are waited for; nobody
    has passed before all of them have reached it, and nobody sleeps afterwards. *)
Record sound (s : state) : Prop := {
  bs_count : threadsToWait s = Z.of_nat (number Coming (workers s));
  bs_passed : threadsToWait s ≠ 0 → starter s ≠ Passed ∧ Passed ∉ workers s;
  bs_asleep : threadsToWait s = 0 → starter s ≠ Asleep ∧ Asleep ∉ workers s;
}.
Lemma test_Coming n : test n ≠ Coming.
Proof. unfold test. by case_match. Qed.
Lemma test_Awake n : test n ≠ Awake.
Proof. unfold test. by case_match. Qed.
Lemma broadcast_awake p : broadcast p ≠ Asleep.
Proof. by destruct p. Qed.
Lemma not_elem_insert (p q : pc) i (l : list pc) : p ≠ q → p ∉ l → p ∉ <[i := q]> l.
Proof.
  intros Hpq Hl Hin. apply list_elem_of_lookup in Hin as [j Hj].
  destruct (decide (i = j)) as [<-|Hne].
  - apply list_lookup_insert_Some in Hj as [(_ & <- & _)|(? & _)]; done.
  - rewrite list_lookup_insert_ne in Hj by done. by apply Hl, list_elem_of_lookup; exists j.
Qed.
Lemma not_elem_broadcast p (l : list pc) : p = Asleep ∨ ((p ∉ l) ∧ p = Passed) → p ∈ (broadcast <$> l) → False.
Proof.
  intros Hp Hx. apply list_elem_of_fmap in Hx as (q & Hq & Hin).
  destruct Hp as [->|[Hl ->]]; [by destruct q|]. destruct q; done.
Qed.
Lemma step_sound s s' : sound s → step s s' ∨ spurious s s' → sound s'.
Proof.
  intros [Hn Hp Ha] Hst.
  assert (∀ n, 0 ≤ n → (n ≠ 0 → test n ≠ Passed) ∧ (n = 0 → test n ≠ Asleep)) as Ht.
  { intros n Hn'. unfold test. destruct (Z.ltb_spec 0 n); split; intros; done || lia. }
  destruct (Ht (threadsToWait s)) as [T1 T2]; [lia|].
  destruct Hst as [Hst|Hst]; [inversion_clear Hst as [? Hc|? i Hc|? Hc|? i Hc]|
    inversion_clear Hst as [? Hc|? i Hc]].
  - split; cbn; [done|intros H0; destruct (Hp H0); auto|intros H0; destruct (Ha H0); auto].
  - pose proof (number_insert Coming (broadcast <$> workers s) i Coming (test (threadsToWait s - 1))) as Hi.
    rewrite list_lookup_fmap, Hc, number_broadcast_Coming in Hi. specialize (Hi eq_refl).
    rewrite decide_True, decide_False in Hi by (done || apply test_Coming).
    destruct (Ht (threadsToWait s - 1)) as [U1 U2]; [lia|].
    split; cbn [threadsToWait starter workers notify_thread_ready]; [lia| |].
    + intros H0. destruct Hp as [Hp1 Hp2]; [lia|]. split; [by destruct (starter s)|].
      apply not_elem_insert; [by apply not_eq_sym, U1|]. unfold not. by apply not_elem_broadcast; auto.
    + intros H0. split; [apply broadcast_awake|].
      apply not_elem_insert; [by apply not_eq_sym, U2|]. unfold not. by apply not_elem_broadcast; auto.
  - split; cbn; [done|intros H0; destruct (Hp H0); auto|intros H0; destruct (Ha H0); auto].
  - pose proof (number_insert Coming _ _ _ (test (threadsToWait s)) Hc) as Hi.
    rewrite decide_False, decide_False in Hi by (done || apply test_Coming).
    split; cbn [threadsToWait starter workers]; [lia| |].
    + intros H0. destruct (Hp H0). split; [done|]. by apply not_elem_insert; [apply not_eq_sym, T1|].
    + intros H0. destruct (Ha H0). split; [done|]. by apply not_elem_insert; [apply not_eq_sym, T2|].
  - split; cbn; [done| |]; intros H0; [destruct (Hp H0)|destruct (Ha H0)]; done.
  - pose proof (number_insert Coming _ _ _ Awake Hc) as Hi. rewrite decide_False, decide_False in Hi by done.
    split; cbn [threadsToWait starter workers]; [lia| |]; intros H0;
      [destruct (Hp H0)|destruct (Ha H0)]; (split; [done|]); by apply not_elem_insert.
Qed.

(** Steps still to come: every thread that arrives can wake up all the others. *)
Definition remaining (s : state) : nat :=
  number Coming (workers s) * (length (workers s) + 2) + number Awake (starter s :: workers s) +
  number Coming [starter s].
Lemma step_remaining s s' : step s s' → (remaining s' < remaining s)%nat.
Proof.
  intros [s0 Hc|s0 i Hc|s0 Hc|s0 i Hc]; unfold remaining; cbn [threadsToWait starter workers
    wait_for_others notify_thread_ready]; rewrite ?Hc, !number_cons.
  - unfold test. destruct (0 <? threadsToWait s0); cbn; repeat case_decide; done || lia.
  - pose proof (number_insert Coming (broadcast <$> workers s0) i Coming (test (threadsToWait s0 - 1))) as Hi.
    pose proof (number_insert Awake (broadcast <$> workers s0) i Coming (test (threadsToWait s0 - 1))) as Hj.
    rewrite list_lookup_fmap, Hc in Hi, Hj. specialize (Hi eq_refl). specialize (Hj eq_refl).
    pose proof (number_broadcast_Awake (workers s0)).
    rewrite number_broadcast_Coming, decide_True, decide_False in Hi by (done || apply test_Coming).
    rewrite decide_False, decide_False in Hj by (done || apply test_Awake).
    rewrite length_insert, length_fmap. destruct (starter s0); cbn; repeat case_decide; done || nia.
  - unfold test. destruct (0 <? threadsToWait s0); cbn; repeat case_decide; done || lia.
  - pose proof (number_insert Coming _ _ _ (test (threadsToWait s0)) Hc) as Hi.
    pose proof (number_insert Awake _ _ _ (test (threadsToWait s0)) Hc) as Hj.
    rewrite decide_False, decide_False in Hi by (done || apply test_Coming).
    rewrite decide_True, decide_False in Hj by (done || apply test_Awake).
    rewrite length_insert. destruct (starter s0); cbn; repeat case_decide; done || nia.
Qed.
Lemma steps_remaining k s s' : nsteps step k s s' → (k + remaining s' ≤ remaining s)%nat.
Proof. induction 1 as [s|k s1 s2 s3 H1 _ IH]; [lia|]. apply step_remaining in H1. lia. Qed.

(** C27. The barrier the threads of the library start behind.  However the threads are
    scheduled, and with wakeups for no reason as well: none is past the barrier before
    all are ready; the number of steps they can make is bounded; and when none can make
    a step all of them are past it, so none sleeps forever. *)
Theorem barrier_opens s :
  rtc (λ s s', step s s' ∨ spurious s s') start_threads s →
  (starter s = Passed ∨ Passed ∈ workers s → (Coming ∉ workers s) ∧ threadsToWait s = 0) ∧
  (∃ bound, ∀ k s', nsteps step k s s' → (k ≤ bound)%nat) ∧
  ((∀ s', ¬ step s s') → starter s = Passed ∧ ∀ p, p ∈ workers s → p = Passed).
Proof.
  intros Hr. assert (sound s) as [Hn Hp Ha].
  { assert (sound start_threads) as Hs by (split; done || (intros _; split; set_solver)).
    clear -Hr Hs. induction Hr as [s|s s1 s2 H1 _ IH]; [done|]. apply IH. by eapply step_sound. }
  split_and!.
  - intros Hx. destruct (decide (threadsToWait s = 0)) as [E|E].
    + split; [|done]. apply number_0. lia.
    + destruct (Hp E). tauto.
  - exists (remaining s). intros k s' Hk. apply steps_remaining in Hk. lia.
  - intros Hstuck. assert (∀ i p, workers s !! i = Some p → p ≠ Coming ∧ p ≠ Awake) as Hw.
    { intros i p Hi. split; intros ->; eapply Hstuck; [by apply step_worker|by apply step_worker_again]. }
    assert (starter s ≠ Coming ∧ starter s ≠ Awake) as [Hs1 Hs2].
    { split; intros E; eapply Hstuck; [by apply step_starter|by apply step_starter_again]. }
    assert (threadsToWait s = 0) as H0.
    { rewrite Hn. assert (number Coming (workers s) = 0%nat) as ->; [|done]. apply number_0.
      intros [i Hi]%list_elem_of_lookup. by apply Hw in Hi as []. }
    destruct (Ha H0) as [Hs3 Hw3]. split; [by destruct (starter s)|].
    intros p Hin. pose proof Hin as [i Hi]%list_elem_of_lookup. destruct (Hw _ _ Hi).
    destruct p; [done|done|done|done].
Qed.

(** Both threads arrive, the starter last: all are past the barrier. *)
Lemma barrier_opens_witness :
  let s := mk_state 0 Passed [Awake; Passed] in
  rtc (λ s s', step s s' ∨ spurious s s') start_threads s ∧
  (∃ bound, ∀ k s', nsteps step k s s' → (k ≤ bound)%nat) ∧ threadsToWait s = 0.
Proof.
  intros s. assert (rtc (λ s s', step s s' ∨ spurious s s') start_threads s) as Hr.
  { eapply rtc_l; [left; by apply (step_worker _ 0)|]. eapply rtc_l; [left; by apply (step_worker _ 1)|].
    eapply rtc_l; [left; by apply step_starter|]. reflexivity. }
  destruct (barrier_opens s Hr) as (H1 & H2 & _). split; [done|]. split; [done|]. apply H1. by left.
Defined.
End BarrierTheorems.

(** ** Calls *)
Definition kind_of (r : sync_request) : kind :=
  match r with
  | SCreate _ _ _ _ _ _ _ | SCreateTTL _ _ _ _ _ _ _ _ => KPath
  | SCreate2 _ _ _ _ _ _ _ _ | SCreate2TTL _ _ _ _ _ _ _ _ _ => KPathStat
  | SExists _ _ _ | SWExists _ _ _ _ | SSet _ _ _ _ | SSet2 _ _ _ _ _ => KStat
  | SGet _ _ _ _ _ | SWGet _ _ _ _ _ _ | SGetConfig _ _ _ _ | SWGetConfig _ _ _ _ _
  | SReconfig _ _ _ _ _ _ _ => KData
  | SGetChildren _ _ _ | SWGetChildren _ _ _ _ => KStrings
  | SGetChildren2 _ _ _ _ | SWGetChildren2 _ _ _ _ _ => KStringsStat
  | SGetAcl _ _ _ => KAcl
  | SMulti _ _ => KMulti
  | SDelete _ _ | SSetAcl _ _ _ | SRemoveWatches _ _ _ _ _ | SRemoveAllWatches _ _ _ => KVoid
  end.
(** [zoo_get_children2] needs a pointer for the [Stat]. *)
Definition stat_given (r : sync_request) : bool :=
  match r with SGetChildren2 _ _ _ stat | SWGetChildren2 _ _ stat _ _ => stat | _ => true end.

Section calls.
Context `{Host, Locals}.

(** The thread waits. *)
Record entered (sc : Z) (k : kind) (s s' : sys) : Prop := {
  en_linked : linked s';
  en_queue : ∀ e, synchronous e → e ∈ zh_sent_requests (s_zh s') →
    e ∈ zh_sent_requests (s_zh s) ∨ (c_data e = sc ∧ c_type e = kind_type k);
  en_others : ∀ sc', sc' ≠ sc → w_sync (s_world s') !! sc' = w_sync (s_world s) !! sc';
  en_sync : ∃ c, w_sync (s_world s') !! sc = Some c ∧ fits k (sc_u c) = true;
}.
(** The call returns at once, and nothing of it is left. *)
Definition refused (s s' : sys) : Prop :=
  linked s' ∧ zh_sent_requests (s_zh s') = zh_sent_requests (s_zh s) ∧
  w_sync (s_world s') = w_sync (s_world s).
Definition enters (sc : Z) (k : kind) (m : M (option Z)) : Prop := ∀ s a s',
  linked s → w_sync (s_world s) !! sc = None → unlimited s → m s = Ret (a, s') →
  match a with None => entered sc k s s' | Some _ => refused s s' end.

Lemma linked_to_new sc l m n c : linked_to l m n → m !! sc = None → sc_complete c = 0 →
  linked_to (sc :: l) (<[sc := c]> m) (n + 1).
Proof.
  intros [H1 H2 H3] Hm Hc. assert (sc ∉ l) as Hsc.
  { intros (c' & E & _)%H2. congruence. }
  split; [by constructor| |simpl; lia]. intros sc'. rewrite elem_of_cons. unfold incomplete.
  destruct (decide (sc' = sc)) as [->|Hne].
  - rewrite lookup_insert, decide_True by done. split; [eauto|by left].
  - rewrite lookup_insert_ne by done. rewrite H2. unfold incomplete. naive_solver.
Qed.
Lemma linked_to_free sc l m n : linked_to (sc :: l) m n → linked_to l (delete sc m) (n - 1).
Proof.
  intros [[Hsc Hl]%NoDup_cons H2 H3]. split; [done| |simpl in H3; lia]. intros sc'. unfold incomplete.
  destruct (decide (sc' = sc)) as [->|Hne].
  - rewrite lookup_delete, decide_True by done. split; [done|]. by intros (? & ? & _).
  - rewrite lookup_delete_ne by done. specialize (H2 sc'). rewrite elem_of_cons in H2. unfold incomplete in H2. naive_solver.
Qed.
Lemma start_enters u mem request sc k :
  submits sc k (request SYNCHRONOUS_MARKER sc) → fits k u = true →
  enters sc k (start_sync u mem request sc).
Proof.
  intros Hreq Hfit s a s' Hs Hsc Ha E. unfold start_sync, alloc_sync_completion in E.
  apply bind_Ret_inv in E as ((ok & s1) & E1 & E).
  apply bind_Ret_inv in E1 as ((ok' & s2) & E1 & E2). unfold allocating in E1. rewrite Ha in E1.
  injection E1 as <- <-. injection E2 as <- <-. cbn [negb] in E.
  apply bind_Ret_inv in E as ((c & s1) & E1 & E). apply the_sync_Ret in E1 as [Hc ->].
  cbn [s_world w_sync set_w_sync set_w_alloc] in Hc. rewrite lookup_insert, decide_True in Hc by done.
  injection Hc as <-. apply bind_Ret_inv in E as (([] & s1) & E1 & E). injection E1 as <-.
  cbn [s_world w_sync set_w_sync set_w_alloc s_zh] in E. rewrite insert_insert, decide_True in E by done.
  apply bind_Ret_inv in E as ((rc & s1) & E1 & E).
  match type of E1 with _ ?s0 = _ => assert (starting sc s0) as Hst end.
  { by apply linked_to_new. }
  destruct (Hreq _ _ _ Hst eq_refl E1) as [[-> [Hl Hq Ho (c & Hc & Hc')]]|[Hrc ([H1 H2 H3] & Hr & Hw)]].
  - injection E as <- <-. cbn [s_zh s_world w_sync set_w_sync] in *.
    rewrite lookup_insert, decide_True in Hc by done. injection Hc as <-. split; [done|done| |].
    + intros sc' Hne. rewrite Ho by done. by rewrite lookup_insert_ne.
    + destruct Hc' as [Hc'|Hc']; eexists; by split.
  - rewrite (proj2 (Z.eqb_neq _ _)) in E by done.
    apply bind_Ret_inv in E as (([] & s2) & E2 & E). injection E2 as <-. injection E as <- <-.
    cbn [s_zh s_world w_sync set_w_sync] in *. split_and!; [|done|].
    + unfold linked. cbn [s_zh s_world w_sync set_w_sync].
      replace (zh_outstanding_sync (s_zh s1)) with (zh_outstanding_sync (s_zh s1) + 1 - 1) by lia.
      by apply linked_to_free.
    + cbn [s_zh s_world w_sync set_w_sync]. rewrite Hw, delete_insert_id; done.
Qed.

Lemma enters_refuse sc k rc : enters sc k (mret (Some rc)).
Proof. intros s a s' Hs _ _ E. injection E as <- <-. by split. Qed.
Lemma enters_default sc k watch (call : Z → Z → sync_call) :
  (∀ w ctx, enters sc k (before_wait (call w ctx) sc)) →
  enters sc k (before_wait (with_default_watcher watch call) sc).
Proof.
  intros Hcall s a s' Hs Hsc Ha E. cbn [with_default_watcher before_wait] in E.
  apply bind_Ret_inv in E as (([w ctx] & s1) & E1 & E). injection E1 as <- <- <-. exact (Hcall _ _ _ _ _ Hs Hsc Ha E).
Qed.
(** Every call of the synchronous API. *)
Lemma call_enters r sc : enters sc (kind_of r) (before_wait (sync_api r) sc).
Proof.
  destruct r; cbn [sync_api kind_of];
    unfold zoo_create, zoo_create2, zoo_exists, zoo_get, zoo_getconfig, zoo_wgetconfig, zoo_set,
      zoo_get_children, zoo_wget_children, zoo_get_children2, zoo_wget_children2,
      zoo_remove_watches, zoo_remove_all_watches, zoo_wget, zoo_reconfig, with_buffer_len, remove_watches;
    try (apply enters_default; intros ? ?); try (destruct len as [len|]; [|apply enters_refuse]);
    try (destruct path as [path|]; [|apply enters_refuse]);
    apply start_enters; try done.
  all: auto using submits_acreate, submits_acreate2, submits_adelete, submits_awexists, submits_awget,
    submits_areconfig, submits_aset, submits_awget_children, submits_awget_children2, submits_aget_acl,
    submits_aset_acl, submits_amulti, submits_aremove.
Qed.

(** ** Leaving a call *)
Definition after_free (sc : Z) (s : sys) : sys :=
  mk_sys (s_zh s) (set_w_sync (delete sc (w_sync (s_world s))) (s_world s)).
Lemma finish_Ret copy sc s rc res s' : finish_sync copy sc s = Ret ((rc, res), s') →
  ∃ c, w_sync (s_world s) !! sc = Some c ∧ rc = sc_rc c ∧ s' = after_free sc s.
Proof.
  intros E. unfold finish_sync in E. apply bind_Ret_inv in E as ((c & s1) & E1 & E).
  apply the_sync_Ret in E1 as [Hc ->]. exists c. split; [done|].
  apply bind_Ret_inv in E as ((r & s1) & E1 & E).
  assert (s1 = s) as ->.
  { destruct (_ =? 0); [|by injection E1 as <- <-]. apply bind_Ret_inv in E1 as (x & _ & E1). by injection E1 as <- <-. }
  apply bind_Ret_inv in E as (([] & s1) & E2 & E). injection E2 as <-. by injection E as <- <- <-.
Qed.
Lemma finish_returns (copy : sync_completion → outcome sync_result) sc s c :
  w_sync (s_world s) !! sc = Some c → (sc_rc c = 0 → ∃ r, copy c = Ret r) →
  ∃ r, finish_sync copy sc s = Ret ((sc_rc c, r), after_free sc s).
Proof.
  intros Hc Hcopy. unfold finish_sync, the_sync, mbind, M_bind, askw. cbn [mbind outcome_bind].
  rewrite Hc. unfold mret, M_ret. cbn [mbind outcome_bind].
  destruct (Z.eqb_spec (sc_rc c) 0) as [Hrc|Hrc]; cbn.
  - destruct (Hcopy Hrc) as [r Hr]. exists r. unfold lift. rewrite Hr. reflexivity.
  - by eexists.
Qed.
(** The copying that a call does when it was answered. *)
Definition copy_of (r : sync_request) : sync_completion → outcome sync_result :=
  match r with
  | SCreate2 _ _ _ _ _ _ _ stat | SCreate2TTL _ _ _ _ _ _ _ _ stat
  | SExists _ _ stat | SWExists _ stat _ _ | SSet2 _ _ _ _ stat => copy_stat stat
  | SSet _ _ _ _ => copy_stat false
  | SGet _ _ _ _ stat | SWGet _ _ _ stat _ _ | SGetConfig _ _ _ stat | SWGetConfig _ _ stat _ _
  | SReconfig _ _ _ _ _ _ stat => copy_buffer stat
  | SGetChildren _ _ strings | SWGetChildren _ strings _ _ => copy_strings strings
  | SGetChildren2 _ _ strings stat | SWGetChildren2 _ strings stat _ _ => copy_strings_stat strings stat
  | SGetAcl _ acl stat => copy_acl acl stat
  | _ => copy_nothing
  end.
(** Calls that never wait. *)
Definition waits (r : sync_request) : bool :=
  match r with
  | SGet _ _ _ len _ | SWGet _ _ len _ _ _ | SGetConfig _ _ len _ | SWGetConfig _ len _ _ _
  | SReconfig _ _ _ _ _ len _ => bool_decide (is_Some len)
  | SRemoveWatches path _ _ _ _ | SRemoveAllWatches path _ _ => bool_decide (is_Some path)
  | _ => true
  end.
Lemma after_wait_eq r sc :
  after_wait (sync_api r) sc = if waits r then finish_sync (copy_of r) sc else raise UB.
Proof. destruct r; try reflexivity; try (by destruct len); by destruct path. Qed.
Lemma before_wait_waits r sc s s' : before_wait (sync_api r) sc s = Ret (None, s') → waits r = true.
Proof.
  intros E. destruct r; try done; cbn [sync_api] in E;
    unfold zoo_get, zoo_getconfig, zoo_wgetconfig, zoo_wget, zoo_reconfig, with_buffer_len,
      zoo_remove_watches, zoo_remove_all_watches, remove_watches in E;
    try (destruct len as [len|]; [done|]); try (destruct path as [path|]; [done|]); try done;
    cbn [with_default_watcher before_wait] in E; by apply bind_Ret_inv in E as (([w ctx] & s1) & _ & E).
Qed.
Lemma copy_returns r c : fits (kind_of r) (sc_u c) = true → stat_given r = true →
  ∃ res, copy_of r c = Ret res.
Proof.
  intros Hf Hg. destruct r; cbn [copy_of kind_of stat_given] in *; try (by eexists);
    unfold copy_stat, copy_buffer, copy_strings, copy_strings_stat, copy_acl;
    destruct (sc_u c); try done; cbn; rewrite ?Hg; by eexists.
Qed.
End calls.

(** ** Processes *)
Section processes.
Context `{Host, Locals}.

(** Every completion belongs to exactly one thread that waits; what the library has in
    its queue for it goes with what the thread asked for. *)
Record tidy (p : process) : Prop := {
  td_linked : linked (p_sys p);
  td_once : ∀ i j r r' sc, p_waiting p !! i = Some (r, sc) → p_waiting p !! j = Some (r', sc) → i = j;
  td_fits : ∀ i r sc, p_waiting p !! i = Some (r, sc) → waits r = true ∧
    ∃ c, p_sync p !! sc = Some c ∧ fits (kind_of r) (sc_u c) = true;
  td_owned : ∀ sc c, p_sync p !! sc = Some c → ∃ i r, p_waiting p !! i = Some (r, sc);
  td_typed : ∀ i r e, p_waiting p !! i = Some (r, c_data e) → synchronous e →
    e ∈ zh_sent_requests (p_zh p) → c_type e = kind_type (kind_of r);
}.

(** The library does something. *)
Lemma tidy_served p p' : tidy p → p_waiting p' = p_waiting p →
  linked (p_sys p') → served (p_sys p) (p_sys p') → tidy p'.
Proof.
  intros [Hl Ho Hf Hown Ht] Hw Hl' [Hd Hk Hq Hx]. split; rewrite ?Hw; [done|done| | |].
  - intros i r sc Hi. destruct (Hf _ _ _ Hi) as (Hwt & c & Hc & Hfit). split; [done|].
    destruct (p_sync p' !! sc) as [c'|] eqn:Hc'.
    + exists c'. split; [done|]. destruct (Hx _ _ _ Hc Hc') as [->|(e & He & Hin & <- & [_ Hfit'])]; [done|].
      apply Hfit'; [|done]. symmetry. by eapply Ht.
    + exfalso. apply not_elem_of_dom in Hc'. unfold p_sync in Hc'. rewrite Hd in Hc'.
      apply not_elem_of_dom in Hc'. unfold p_sync in Hc. congruence.
  - intros sc c Hc. assert (sc ∈ dom (p_sync p)) as [c0 Hc0]%elem_of_dom; [|by eapply Hown].
    unfold p_sync. rewrite <-Hd. by apply elem_of_dom_2 in Hc.
  - intros i r e Hi He Hin. eapply Ht; [done..|]. by apply Hq.
Qed.
(** A thread enters a call. *)
Lemma tidy_entered p i r sc s : tidy p → p_waiting p !! i = None → p_sync p !! sc = None →
  waits r = true → entered sc (kind_of r) (p_sys p) s →
  tidy (on_sys s (set_waiting (<[i := (r, sc)]> (p_waiting p)) p)).
Proof.
  intros [Hl Ho Hf Hown Ht] Hi Hsc Hwt [El Eq Eo (c & Ec & Efit)].
  assert (∀ j r', p_waiting p !! j ≠ Some (r', sc)) as Hfresh.
  { intros j r' Hj. destruct (Hf _ _ _ Hj) as (_ & c' & Hc' & _). congruence. }
  split; cbn [p_sys p_zh p_sync p_isys p_waiting on_sys set_waiting i_sys]; [done|..].
  - intros j1 j2 r1 r2 sc' H1 H2. apply lookup_insert_Some in H1 as [[<- H1]|[? H1]];
      apply lookup_insert_Some in H2 as [[<- H2]|[? H2]]; simplify_eq; [done|..].
    + by apply Hfresh in H2.
    + by apply Hfresh in H1.
    + by eapply Ho.
  - intros j r' sc' Hj. apply lookup_insert_Some in Hj as [[<- Hj]|[Hne Hj]]; simplify_eq.
    + split; [done|]. by exists c.
    + destruct (Hf _ _ _ Hj) as (Hwt' & c' & Hc' & Hfit'). split; [done|]. exists c'. split; [|done].
      unfold p_sync. cbn [p_sys p_isys on_sys i_sys]. rewrite Eo; [done|]. intros ->. congruence.
  - intros sc' c' Hc'. destruct (decide (sc' = sc)) as [->|Hne].
    + exists i, r. by rewrite lookup_insert, decide_True.
    + rewrite Eo in Hc' by done. destruct (Hown _ _ Hc') as (j & r' & Hj). exists j, r'.
      rewrite lookup_insert_ne; [done|]. by intros <-; simplify_eq.
  - intros j r' e Hj He Hin. destruct (Eq _ He Hin) as [Hin'|[Hd Hty]].
    + apply lookup_insert_Some in Hj as [[<- Hj]|[Hne Hj]]; [|by eapply Ht]. simplify_eq. exfalso.
      assert (c_data e ∈ notified (zh_sent_requests (s_zh (p_sys p)))) as Hn by (apply elem_of_notified; eauto).
      apply (lk_incomplete _ _ _ Hl) in Hn as (c0 & Hc0 & _). unfold p_sync in Hsc. congruence.
    + apply lookup_insert_Some in Hj as [[<- Hj]|[Hne Hj]]; [by simplify_eq|].
      rewrite Hd in Hj. by apply Hfresh in Hj.
Qed.
(** A thread leaves its call. *)
Lemma tidy_left p i r sc c s : tidy p → p_waiting p !! i = Some (r, sc) → p_sync p !! sc = Some c →
  sc_complete c ≠ 0 → s = after_free sc (p_sys p) →
  tidy (on_sys s (set_waiting (delete i (p_waiting p)) p)).
Proof.
  intros [[L1 L2 L3] Ho Hf Hown Ht] Hi Hc Hcomp ->.
  assert (∀ j r' sc', p_waiting p !! j = Some (r', sc') → j ≠ i → sc' ≠ sc) as Hother.
  { intros j r' sc' Hj Hne ->. by apply Hne, (Ho _ _ _ _ _ Hj Hi). }
  split; cbn [p_sys p_zh p_sync p_isys p_waiting on_sys set_waiting i_sys].
  - split; cbn; [done| |done]. intros sc'. rewrite L2. unfold incomplete.
    destruct (decide (sc' = sc)) as [->|Hne]; [|by rewrite lookup_delete_ne].
    rewrite lookup_delete, decide_True by done. unfold p_sync in Hc. rewrite Hc. naive_solver.
  - intros j1 j2 r1 r2 sc' H1 H2. apply lookup_delete_Some in H1 as [_ H1], H2 as [_ H2]. by eapply Ho.
  - intros j r' sc' Hj. apply lookup_delete_Some in Hj as [Hne Hj]. destruct (Hf _ _ _ Hj) as (Hwt & c' & Hc' & Hfit).
    split; [done|]. exists c'. split; [|done]. unfold p_sync. cbn. rewrite lookup_delete_ne; [done|].
    apply not_eq_sym. eapply Hother; [done|by apply not_eq_sym].
  - intros sc' c' Hc'. unfold p_sync in Hc'. cbn in Hc'. apply lookup_delete_Some in Hc' as [Hne Hc'].
    destruct (Hown _ _ Hc') as (j & r' & Hj). exists j, r'. rewrite lookup_delete_ne; [done|].
    intros <-. simplify_eq.
  - intros j r' e Hj. apply lookup_delete_Some in Hj as [_ Hj]. by eapply Ht.
Qed.

Lemma tidy_refused p s : tidy p → refused (p_sys p) s → tidy (on_sys s (set_waiting (p_waiting p) p)).
Proof.
  intros Hp (Hl & Hr & Hw). apply (tidy_served p); [done..|].
  apply served_same; cbn [p_sys p_isys on_sys set_waiting i_sys]; [by rewrite Hr|done].
Qed.
Lemma step_tidy p p' : tidy p → tstep p p' → tidy p'.
Proof.
  intros Hp Hst. pose proof (td_linked _ Hp) as Hl.
  assert (∀ A (m : M A) a s p', settles m → m (p_sys p) = Ret (a, s) → p_waiting p' = p_waiting p →
    p_sys p' = s → tidy p') as Hdo.
  { intros A m a s p2 Hm E Hw <-. destruct (Hm _ _ _ Hl E). by apply (tidy_served p). }
  destruct Hst as [i r sc a s _ Hi Hsc _ Ha E|i r sc c a s Hi Hc Hrdy E|r fn data rc s _ Hfn Hd E
    |junk answer a s _ _ _ _ E|a s _ _ E|a s _ _ E|a s _ _ E|a s _ _ E|a s _ _ _ E|w e Hw].
  - pose proof (call_enters r sc _ _ _ Hl Hsc Ha E) as Hx. destruct a as [rc|].
    + by apply tidy_refused.
    + apply before_wait_waits in E. by apply tidy_entered.
  - rewrite after_wait_eq in E. rewrite (proj1 (td_fits _ Hp _ _ _ Hi)) in E. destruct a as [rc res].
    apply finish_Ret in E as (c' & _ & _ & ->). eapply tidy_left; [done..| |done].
    apply negb_true_iff, Z.eqb_neq in Hrdy. done.
  - destruct (run_request_settles r fn data Hfn _ _ _ Hd Hl E). by apply (tidy_served p).
  - destruct (isettles_io_round junk answer _ _ _ Hl E). by apply (tidy_served p).
  - eapply Hdo; [apply settles_api_epilog|exact E|done..].
  - eapply Hdo; [apply settles_process_completions|exact E|done..].
  - eapply Hdo; [apply settles_api_epilog|exact E|done..].
  - eapply Hdo; [apply settles_close_begin|exact E|done..].
  - eapply Hdo; [apply settles_close_end|exact E|done..].
  - apply (tidy_served p); [done|done| |].
    + unfold linked, p_sys in *. cbn. unfold p_sync in Hw. by rewrite Hw.
    + by apply served_same.
Qed.
Lemma started_tidy p : started p → tidy p.
Proof.
  intros (Hw & Hs & _ & _ & _ & Hr & Hn & _).
  assert (linked (p_sys p)) as Hl.
  { unfold linked. unfold p_sync in Hs. unfold p_zh in Hr, Hn. rewrite Hr, Hs, Hn.
    split; [constructor| |done]. intros sc. split; [by intros ?%elem_of_nil|].
    intros (c & Hc & _). by rewrite lookup_empty in Hc. }
  split; [done|..]; rewrite ?Hw, ?Hs.
  - intros i j r r' sc Hi. by rewrite lookup_empty in Hi.
  - intros i r sc Hi. by rewrite lookup_empty in Hi.
  - intros sc c Hc. by rewrite lookup_empty in Hc.
  - intros i r e Hi. by rewrite lookup_empty in Hi.
Qed.
Lemma reachable_tidy p0 p : started p0 → rtc tstep p0 p → tidy p.
Proof.
  intros H0' Hr. apply started_tidy in H0'. induction Hr as [p|p p1 p2 H1 _ IH]; [done|].
  apply IH. by eapply step_tidy.
Qed.


End processes.

