(* ===== verification/SyncTheorems.v ===== *)
(** * Theorems about the results of synchronous calls

    What a thread finds in its completion when the answer to its request has been
    processed, what the call then hands to the caller, and what happens to the threads
    that wait when the connection is lost or the handle closed. *)

From S2P Require Import Prelude RecordIO RecordIOFacts Jute JuteSpec JuteTheorems Path PathFacts.
From S2P Require Import Watchers WatchersFacts WatchersTheorems Addrvec AddrvecFacts Hosts Handshake Transport Handle.
From S2P Require Import Session SessionFacts SessionTheorems ResponseFacts ResponseTheorems Requests.
From S2P Require Import Interest Init Triples Sync Threads SyncFacts SyncRequests Lifetime ThreadsTheorems.
Local Open Scope Z_scope.
#[local] Existing Instance mt_adaptor | 0.

(** ** The caller's buffers *)

(** The beginning of a buffer is replaced. *)
Definition overlay (new buf : list byte) : list byte := new ++ drop (length new) buf.
(** Data of a node in a buffer for [len] bytes. *)
Definition fetched (len : Z) (data mem : option (list byte)) : option (list byte) :=
  match data, mem with
  | Some data, Some buf => Some (overlay (take (Z.to_nat len) data) buf)
  | _, _ => mem
  end.
(** A path in a buffer for [len] bytes, the NUL included. *)
Definition named (len : Z) (path : option cstring) (mem : option (list byte)) : option (list byte) :=
  match path, mem with
  | Some path, Some buf =>
      if 0 <? len then Some (overlay (take (Z.to_nat (len - 1)) path ++ [Byte.x00]) buf) else mem
  | _, _ => mem
  end.
(** The caller has a buffer of the length it says. *)
Definition has_room (len : Z) (mem : option (list byte)) : Prop :=
  0 < len → ∃ buf, mem = Some buf ∧ len ≤ Z.of_nat (length buf).

Lemma overlay_at (buf new : list byte) : (length new ≤ length buf)%nat →
  copy_to buf 0 new = Ret (overlay new buf).
Proof. intros Hl. by rewrite (copy_to_next [] buf). Qed.
Lemma overlay_take n buf : (n ≤ length buf)%nat → overlay (take n buf) buf = buf.
Proof. intros Hn. unfold overlay. by rewrite length_take_le, take_drop. Qed.

Lemma copy_data_ok len data mem n :
  wf_buffer data → 0 ≤ len → has_room len mem → b_buff data ≠ None → n = Z.min (b_len data) len →
  copy_data mem (b_buff data) n = Ret (fetched len (b_buff data) mem).
Proof.
  intros Hw Hl Hr Hd ->. unfold wf_buffer in Hw. destruct (b_buff data) as [d|]; [|done]. destruct Hw as [Hb _].
  rewrite Hb. unfold copy_data, fetched.
  destruct (Z.eqb_spec (Z.min (Z.of_nat (length d)) len) 0) as [E|E].
  { destruct mem as [buf|]; [|done]. assert (take (Z.to_nat len) d = []) as ->; [|done].
    destruct d; [by rewrite take_nil|]. simpl in E. replace len with 0 by lia. done. }
  rewrite (proj2 (Z.ltb_ge _ 0)) by lia. destruct Hr as (buf & -> & Hbuf); [lia|].
  unfold copy_from. rewrite (proj2 (Z.leb_le _ _)), (proj2 (Z.leb_le _ _)) by lia. cbn [andb]. run.
  rewrite drop_0. assert (take (Z.to_nat (Z.min (Z.of_nat (length d)) len)) d = take (Z.to_nat len) d) as ->.
  { destruct (Z.min_spec (Z.of_nat (length d)) len) as [[? ->]|[? ->]]; [|done].
    rewrite !take_ge; [done|lia|lia]. }
  rewrite overlay_at; [done|]. rewrite length_take. lia.
Qed.
Lemma copy_path_ok len path mem :
  has_room len mem → copy_path mem len (Some path) = Ret (named len (Some path) mem).
Proof.
  intros Hr. unfold copy_path, named.
  set (n := if len <? _ then len else _).
  assert (n = Z.min (Z.of_nat (length path) + 1) len) as Hn.
  { unfold n. destruct (Z.ltb_spec len (Z.of_nat (length path) + 1)); lia. }
  clearbody n. destruct (Z.ltb_spec 0 len) as [Hl|Hl].
  2: { rewrite (proj2 (Z.ltb_ge _ _)) by lia. by destruct mem. }
  rewrite (proj2 (Z.ltb_lt _ _)) by lia. destruct (Hr Hl) as (buf & -> & Hbuf).
  assert (take (Z.to_nat (n - 1)) path = take (Z.to_nat (len - 1)) path) as Ht.
  { destruct (Z.min_spec (Z.of_nat (length path) + 1) len) as [[? E]|[? E]]; rewrite E in Hn; [|by rewrite Hn].
    rewrite !take_ge; [done|lia|lia]. }
  assert (length (take (Z.to_nat (len - 1)) path) = Z.to_nat (n - 1)) as Hlen.
  { rewrite <-Ht, length_take. lia. }
  rewrite Ht, overlay_at by lia. run. unfold overlay.
  rewrite (copy_to_next _ (drop _ buf)) by (rewrite ?length_drop; simpl; lia). run.
  by rewrite drop_drop, length_app.
Qed.

(** ** What an answer leaves in the completion *)

(** The length of the caller's buffer. *)
Definition capacity (c : sync_completion) : Z :=
  match sc_u c with UData _ len _ | UStr len => len | _ => 0 end.
Definition stored (chroot : option cstring) (b : body) (c : sync_completion) : sync_completion :=
  let len := capacity c in
  match b with
  | BVoid => c
  | BData v =>
      let data := GetDataResponse_data v in
      let kept := match sc_u c, b_buff data with UData own _ _, Some _ => own | _, _ => false end in
      set_sc_mem (fetched len (b_buff data) (sc_mem c))
        (set_sc_u (UData kept (Z.min (b_len data) len) (GetDataResponse_stat v)) c)
  | BStat v => set_sc_u (UStat (SetDataResponse_stat v)) c
  | BStrings v => set_sc_u (UStrs (GetChildrenResponse_children v)) c
  | BStringsStat v =>
      set_sc_u (UStrsStat (GetChildren2Response_children v) (GetChildren2Response_stat v)) c
  | BString v => set_sc_mem (named len (seen_path chroot (CreateResponse_path v)) (sc_mem c)) c
  | BStringStat v =>
      set_sc_u (UStat (Create2Response_stat v))
        (set_sc_mem (named len (seen_path chroot (Create2Response_path v)) (sc_mem c)) c)
  | BAcl v => set_sc_u (UAcl (GetACLResponse_acl v) (GetACLResponse_stat v)) c
  end.
(** The completion is one of a call that can take this body, and the caller has the buffer
    it says it has. *)
Definition can_take (b : body) (c : sync_completion) : Prop :=
  match b, sc_u c with
  | BData _, UData _ len _ => 0 ≤ len ∧ has_room len (sc_mem c)
  | (BString _ | BStringStat _), UStr len => has_room len (sc_mem c)
  | (BData _ | BString _ | BStringStat _), _ => False
  | _, _ => True
  end.

Section answers.
Context `{Host, Locals}.

Lemma seen_path_some chroot path : wf_string path → ∃ q, seen_path chroot path = Some q.
Proof.
  destruct path as [p|]; [intros _|done]. cbn [seen_path mbind option_bind]. unfold sub_string.
  destruct chroot; [|by eexists]. repeat case_match; by eexists.
Qed.
Ltac take_body lem :=
  match goal with Ha : ample ?s, Hp : pending ?ia (?bs ++ ?rest) |- context [parse ?op ?j ?ia] =>
    let ia' := fresh "ia'" in let E := fresh "E" in
    destruct (parse_ok op _ bs j ia rest s (lem _ ltac:(eassumption)) Hp Ha) as (ia' & E & _);
    rewrite M_bind_eq, E; run; clear E
  end.
(** A body is stored; nothing else changes. *)
Lemma process_sync_body e c b ia rest s :
  c_type e = body_type b → sc_rc c = 0 → body_wf b → can_take b c → pending ia (body_bytes b ++ rest) →
  ample s → process_sync_completion e c ia s = Ret (stored (zh_chroot (s_zh s)) b c, s).
Proof.
  intros Ht Hrc Hw Hc Hp Ha. unfold process_sync_completion, stored. rewrite Ht, Hrc.
  destruct b as [|v|v|v|v|v|v|v]; cbn [body_type Z.eqb Pos.eqb negb body_bytes body_wf can_take] in *.
  - done.
  - take_body deserialize_GetDataResponse_reads. unfold capacity. destruct (sc_u c) as [| | |own len st| | |]; try done.
    destruct Hc as [Hl Hr]. destruct Hw as [Hw _].
    assert ((if b_len (GetDataResponse_data v) <=? len then b_len (GetDataResponse_data v) else len) =
      Z.min (b_len (GetDataResponse_data v)) len) as ->.
    { destruct (Z.leb_spec (b_len (GetDataResponse_data v)) len); lia. }
    destruct (b_buff (GetDataResponse_data v)) as [d|] eqn:Hd.
    + rewrite (proj2 (Z.eqb_neq _ _)) by (unfold wf_buffer in Hw; rewrite Hd in Hw; lia).
      rewrite M_bind_eq. unfold lift. rewrite <-Hd, (copy_data_ok len _ _ _ Hw) by (done || by rewrite Hd).
      rewrite Hd. by run.
    + pose proof Hw as Hw'. unfold wf_buffer in Hw'. rewrite Hd in Hw'. rewrite Hw', Z.min_l by lia.
      cbn [Z.eqb Pos.eqb fetched]. by destruct c.
  - by take_body deserialize_SetDataResponse_reads.
  - by take_body deserialize_GetChildrenResponse_reads.
  - by take_body deserialize_GetChildren2Response_reads.
  - take_body deserialize_CreateResponse_reads. rewrite M_bind_eq, client_path_ok by done. run.
    unfold capacity. destruct (sc_u c) as [|len| | | | |]; try done.
    destruct (seen_path_some (zh_chroot (s_zh s)) (CreateResponse_path v)) as [q ->]; [apply Hw|].
    rewrite M_bind_eq. unfold lift. by rewrite copy_path_ok.
  - take_body deserialize_Create2Response_reads. destruct Hw as [Hw _].
    rewrite M_bind_eq, client_path_ok by done. run.
    unfold capacity. destruct (sc_u c) as [|len| | | | |]; try done.
    destruct (seen_path_some (zh_chroot (s_zh s)) (Create2Response_path v)) as [q ->]; [done|].
    rewrite M_bind_eq. unfold lift. by rewrite copy_path_ok.
  - by take_body deserialize_GetACLResponse_reads.
Qed.

Lemma bind_ext {A B} (m : M A) (f g : A → M B) s : (∀ a s, f a s = g a s) → (m ≫= f) s = (m ≫= g) s.
Proof. intros E. rewrite !M_bind_eq. destruct (m s) as [[a s']| | |]; run; done. Qed.
(** The loop over the results of a transaction is that of the asynchronous engine. *)
Lemma deserialize_response_is_multi e xid rc ia s : c_type e = COMPLETION_MULTI → c_result e ≠ 0 →
  deserialize_response (c_type e) xid false rc e (Some ia) s =
  ('(rc, ia) ← deserialize_multi xid e ia;
   call (c_result e) (CallVoid (c_result e) rc (c_data e));; mret (Some ia)) s.
Proof.
  intros Ht Hfn. destruct e as [x type fn wr clist data buf w d]. cbn [c_type c_result c_data] in *. subst type.
  cbn [deserialize_response c_result c_data c_clist Z.eqb Pos.eqb]. rewrite (proj2 (Z.eqb_neq fn 0)) by done.
  unfold deserialize_multi. cbn [need c_clist]. msteps.
  destruct (reading _ _ ia s) as [[[[r mhdr] ia1] s1]| | |]; run; [|done..]. rewrite !M_bind_eq.
  set (loop := fix multi_loop (l : list completion_list) (rc : Z) (h : MultiHeader)
                 (ia : buff_struct) {struct l} : M (Z * buff_struct) := _).
  enough (∀ rc h ia s, loop clist rc h ia s = multi_responses xid clist rc h ia s) as -> by done.
  clear. induction clist as [|c l IH]; intros rc h ia s; cbn [loop multi_responses]; [done|].
  destruct (negb _); [done|]. apply bind_ext. intros [[rc1 err] ia1] s1. apply bind_ext. intros ia2 s2.
  apply bind_ext. intros ia3 s3. apply bind_ext. intros [[r h'] ia4] s4. apply IH.
Qed.
Lemma record_call_inj x y cs s s' : record_calls [x] s' = record_calls (cs ++ [y]) s →
  x = y ∧ s' = record_calls cs s.
Proof.
  intros E. pose proof (f_equal (λ s, w_calls (s_world s)) E) as Hc. cbn in Hc. rewrite app_assoc in Hc.
  apply app_inj_tail in Hc as [Hc ->]. split; [done|].
  destruct s as [zh w], s' as [zh' w'], w, w'. unfold record_calls, set_w_calls in *. cbn in *. by simplify_eq.
Qed.
Lemma deserialize_multi_ok rs e xid ia rest s :
  c_type e = COMPLETION_MULTI → c_result e ≠ 0 → Forall2 sub_answers (c_clist e) rs →
  pending ia (multi_bytes rs ++ rest) → ample s →
  ∃ ia', deserialize_multi xid e ia s = Ret ((multi_rc 0 rs, ia'),
    record_calls (concat (zip_with (sub_calls (zh_chroot (s_zh s))) (c_clist e) rs)) s).
Proof.
  intros Ht Hfn Hall Hp Ha.
  destruct (deserialize_response_multi rs e xid 0 ia rest s Ht Hfn Hall Hp Ha) as (ia' & E & _).
  rewrite deserialize_response_is_multi in E by done.
  apply bind_Ret_inv in E as ([[rc ia1] s1] & E1 & E). rewrite M_bind_eq, call_ok in E by done.
  cbn [mbind outcome_bind] in E. cbn [response_calls] in E. rewrite M_ret_eq in E.
  match type of E with Ret (_, ?x) = Ret (_, ?y) => assert (x = y ∧ ia1 = ia') as [E' ->] by (split; congruence) end.
  apply record_call_inj in E' as [[= ->] ->]. by exists ia'.
Qed.

(** ** Answers *)

(** The packet with the header [h] and the body [r] answers the synchronous request [e]. *)
Definition sync_answers (e : completion_list) (h : ReplyHeader) (r : response) : Prop :=
  synchronous e ∧ wf_ReplyHeader h ∧ ReplyHeader_xid h = c_xid e ∧ ¬ special (c_xid e) ∧
  if ReplyHeader_err h =? 0 then
    match r with
    | RBody b => body_wf b ∧ c_type e = body_type b
    | RMulti rs => c_type e = COMPLETION_MULTI ∧ Forall2 sub_answers (c_clist e) rs
    end
  else c_type e ≠ COMPLETION_MULTI.
Definition can_answer (h : ReplyHeader) (r : response) (c : sync_completion) : Prop :=
  match r with RBody b => ReplyHeader_err h = 0 → can_take b c | RMulti _ => True end.
(** The completion afterwards, and the functions called for the parts of a transaction. *)
Definition answered (chroot : option cstring) (h : ReplyHeader) (r : response) (c : sync_completion)
    : sync_completion :=
  set_sc_complete 1
    (if ReplyHeader_err h =? 0 then
       match r with
       | RBody b => stored chroot b (set_sc_rc 0 c)
       | RMulti rs => set_sc_rc (multi_rc 0 rs) c
       end
     else set_sc_rc (ReplyHeader_err h) c).
Definition part_calls (chroot : option cstring) (e : completion_list) (h : ReplyHeader) (r : response)
    : list ucall :=
  match r with
  | RMulti rs => if ReplyHeader_err h =? 0 then concat (zip_with (sub_calls chroot) (c_clist e) rs) else []
  | RBody _ => []
  end.
Definition with_sync (sc : Z) (c : sync_completion) (s : sys) : sys :=
  mk_sys (set_zh_outstanding_sync (zh_outstanding_sync (s_zh s) - 1) (s_zh s))
    (set_w_sync (<[sc := c]> (w_sync (s_world s))) (s_world s)).

Lemma can_take_rc b c rc : can_take b (set_sc_rc rc c) ↔ can_take b c.
Proof. by destruct c. Qed.
Lemma process_sync_answer e h r ia more c s :
  sync_answers e h r → can_answer h r c → ample s →
  pending ia ((if ReplyHeader_err h =? 0 then response_bytes r else []) ++ more) →
  process_sync_completion e (set_sc_rc (ReplyHeader_err h) c) ia s =
  Ret (if ReplyHeader_err h =? 0 then
         match r with
         | RBody b => stored (zh_chroot (s_zh s)) b (set_sc_rc 0 c)
         | RMulti rs => set_sc_rc (multi_rc 0 rs) c
         end
       else set_sc_rc (ReplyHeader_err h) c, record_calls (part_calls (zh_chroot (s_zh s)) e h r) s).
Proof.
  intros (He & _ & _ & _ & Hr) Hc Ha Hp. unfold part_calls, can_answer in *.
  destruct (Z.eqb_spec (ReplyHeader_err h) 0) as [E|E].
  - rewrite E. destruct r as [b|rs]; destruct Hr as [H1 H2].
    + rewrite record_nil. eapply process_sync_body; try done. by apply can_take_rc, Hc.
    + unfold process_sync_completion. rewrite H1. cbn [Z.eqb Pos.eqb]. cbn [response_bytes] in Hp.
      destruct (deserialize_multi_ok rs e (c_xid e) ia more s H1) as [ia' E1]; try done.
      { unfold synchronous in He. by rewrite He. }
      rewrite M_bind_eq, E1. run. by destruct c.
  - assert (match r with RMulti _ => [] | RBody _ => [] end = ([] : list ucall)) as -> by by destruct r.
    rewrite record_nil. unfold process_sync_completion. cbn [sc_rc set_sc_rc].
    rewrite (proj2 (Z.eqb_neq (ReplyHeader_err h) 0)) by done. cbn [negb].
    rewrite (proj2 (Z.eqb_neq (c_type e) COMPLETION_MULTI)) by done.
    repeat (destruct (c_type e =? _); [done|]). done.
Qed.
Lemma answer_synchronous_ok e h r ia more c s :
  sync_answers e h r → w_sync (s_world s) !! c_data e = Some c → can_answer h r c → ample s →
  pending ia ((if ReplyHeader_err h =? 0 then response_bytes r else []) ++ more) →
  answer_synchronous e (ReplyHeader_err h) ia s =
  Ret ((), with_sync (c_data e) (answered (zh_chroot (s_zh s)) h r c)
             (record_calls (part_calls (zh_chroot (s_zh s)) e h r) s)).
Proof.
  intros Hans Hc Hcan Ha Hp. threaded. unfold mt_answer_synchronous, notify_sync_completion, the_sync, put_sync,
    one_less_outstanding. msteps. rewrite Hc. msteps.
  rewrite (process_sync_answer e h r ia more c s) by done. msteps. cbn [s_world set_w_sync w_sync].
  rewrite lookup_insert, decide_True by done. msteps. cbn [s_world s_zh set_w_sync w_sync].
  unfold with_sync. cbn [s_zh s_world record_calls]. by rewrite insert_insert, decide_True by done.
Qed.

(** The handle after the request has been taken off the queue and its watches settled. *)
Definition taken_off (h : ReplyHeader) (rest : list completion_list) (w : watches) (zh : zhandle) : zhandle :=
  let zh := set_zh_sent_requests rest zh in
  let zh := if 0 <? ReplyHeader_zxid h then set_zh_last_zxid (ReplyHeader_zxid h) zh else zh in
  set_zh_watches w zh.
Lemma process_sync_packet n e h r b more rest c s A :
  ample s → watches_repr (zh_watches (s_zh s)) A → roomy (S n) A →
  zh_sent_requests (s_zh s) = e :: rest → sync_answers e h r → arrived b (answer_bytes h r ++ more) →
  w_sync (s_world s) !! c_data e = Some c → can_answer h r c →
  ∃ w, process_packet b s = Ret (Continue,
      with_sync (c_data e) (answered (zh_chroot (s_zh s)) h r c)
        (record_calls (part_calls (zh_chroot (s_zh s)) e h r)
           (mk_sys (taken_off h rest w (s_zh s)) (s_world s)))) ∧
    watches_repr w (settled e (ReplyHeader_err h) A).
Proof.
  intros Ha HA Hroom Hsent Hans Hb Hc Hcan. pose proof Hans as (He & Hh & Hx & Hs & _).
  unfold answer_bytes in Hb. rewrite <-app_assoc in Hb. unfold process_packet.
  match goal with |- context [open_archive _ _ ≫= λ ia, parse _ _ ia ≫= ?f] =>
    destruct (arrived_header b h _ s f Hb Hh Ha) as (ia & -> & Hp) end.
  cbn beta iota. rewrite special_cases by (by rewrite Hx).
  unfold process_response. msteps. rewrite Hsent. msteps.
  rewrite (proj2 (Z.eqb_eq (c_xid e) _)) by done. cbn [negb].
  set (rc := ReplyHeader_err h) in *.
  destruct (activate_settles n _ (c_watcher e) rc A HA Hroom) as (w1 & E1 & HA1 & _).
  destruct (deactivate_settles w1 (c_deregistration e) rc _ HA1) as (w2 & E2 & HA2 & _).
  exists w2. split; [|done]. unfold taken_off.
  destruct (0 <? ReplyHeader_zxid h); msteps; cbn [s_zh s_world zh_watches set_zh_last_zxid set_zh_sent_requests].
  all: rewrite (allocating_ok _ w1) by done; run; rewrite M_bind_eq; unfold lift; rewrite E2; run; msteps;
    rewrite (proj2 (Z.eqb_eq (c_result e) _)) by done; cbn [negb];
    match goal with |- (answer_synchronous _ _ _ ≫= _) ?s1 = _ =>
      rewrite M_bind_eq; unfold rc; rewrite (answer_synchronous_ok e h r ia more c s1) by done end; by run.
Qed.

(** ** What the call hands to its caller *)
Definition wants_stat (q : sync_request) : bool :=
  match q with
  | SCreate2 _ _ _ _ _ _ _ stat | SCreate2TTL _ _ _ _ _ _ _ _ stat | SExists _ _ stat
  | SWExists _ stat _ _ | SSet2 _ _ _ _ stat | SGet _ _ _ _ stat | SWGet _ _ _ stat _ _
  | SGetConfig _ _ _ stat | SWGetConfig _ _ stat _ _ | SReconfig _ _ _ _ _ _ stat
  | SGetChildren2 _ _ _ stat | SWGetChildren2 _ _ stat _ _ | SGetAcl _ _ stat => stat
  | _ => false
  end.
Definition wants_strings (q : sync_request) : bool :=
  match q with
  | SGetChildren _ _ strings | SWGetChildren _ strings _ _ | SGetChildren2 _ _ strings _
  | SWGetChildren2 _ strings _ _ _ => strings
  | _ => false
  end.
Definition wants_acl (q : sync_request) : bool := match q with SGetAcl _ acl _ => acl | _ => false end.
(** The result of the call [q] for the answer [h], [r]: the error of the header and the
    caller's buffer untouched, or what the body holds, cut to the caller's buffer. *)
Definition result_code (h : ReplyHeader) (r : response) : Z :=
  match r with
  | RMulti rs => if ReplyHeader_err h =? 0 then multi_rc 0 rs else ReplyHeader_err h
  | RBody _ => ReplyHeader_err h
  end.
Definition results (q : sync_request) (chroot : option cstring) (h : ReplyHeader) (r : response)
    (c : sync_completion) : sync_result :=
  let mem := sc_mem c in
  let nothing := mk_sync_result mem None None None None in
  if negb (ReplyHeader_err h =? 0) then nothing else
  match r with
  | RMulti _ | RBody BVoid => nothing
  | RBody (BData v) =>
      let data := GetDataResponse_data v in
      mk_sync_result (fetched (capacity c) (b_buff data) mem) (Some (Z.min (b_len data) (capacity c)))
        (given (wants_stat q) (GetDataResponse_stat v)) None None
  | RBody (BStat v) => mk_sync_result mem None (given (wants_stat q) (SetDataResponse_stat v)) None None
  | RBody (BStrings v) =>
      mk_sync_result mem None None (given (wants_strings q) (GetChildrenResponse_children v)) None
  | RBody (BStringsStat v) =>
      mk_sync_result mem None (given (wants_stat q) (GetChildren2Response_stat v))
        (given (wants_strings q) (GetChildren2Response_children v)) None
  | RBody (BString v) =>
      mk_sync_result (named (capacity c) (seen_path chroot (CreateResponse_path v)) mem) None None None None
  | RBody (BStringStat v) =>
      mk_sync_result (named (capacity c) (seen_path chroot (Create2Response_path v)) mem) None
        (given (wants_stat q) (Create2Response_stat v)) None None
  | RBody (BAcl v) =>
      mk_sync_result mem None (given (wants_stat q) (GetACLResponse_stat v)) None
        (given (wants_acl q) (GetACLResponse_acl v))
  end.
Lemma finish_sync_eq (copy : sync_completion → outcome sync_result) sc s c res :
  w_sync (s_world s) !! sc = Some c →
  (if sc_rc c =? 0 then copy c else Ret (mk_sync_result (sc_mem c) None None None None)) = Ret res →
  finish_sync copy sc s = Ret ((sc_rc c, res), after_free sc s).
Proof.
  intros Hc Hcopy. unfold finish_sync, the_sync. msteps. rewrite Hc. msteps.
  destruct (sc_rc c =? 0); [unfold lift; rewrite Hcopy|injection Hcopy as <-]; reflexivity.
Qed.
Lemma answered_copy q e h r c chroot :
  sync_answers e h r → can_answer h r c → kind_type (kind_of q) = c_type e → stat_given q = true →
  sc_rc (answered chroot h r c) = result_code h r ∧
  (if result_code h r =? 0 then copy_of q (answered chroot h r c)
   else Ret (mk_sync_result (sc_mem (answered chroot h r c)) None None None None)) =
  Ret (results q chroot h r c).
Proof.
  intros (_ & _ & _ & _ & Hr) Hcan Hk Hg. unfold answered, result_code, results, can_answer in *.
  destruct (Z.eqb_spec (ReplyHeader_err h) 0) as [E|E].
  2: { destruct r; cbn [sc_rc set_sc_complete set_sc_rc]; by rewrite (proj2 (Z.eqb_neq _ 0)) by done. }
  rewrite E. cbn [negb Z.eqb]. destruct r as [b|rs].
  - destruct Hr as [_ Ht]. specialize (Hcan E). rewrite Ht in Hk. split; [by destruct b|].
    destruct b as [|v|v|v|v|v|v|v]; cbn [body_type] in Hk; destruct q; try done;
      cbn [copy_of stored]; cbn [stat_given] in Hg; subst; try done.
  - destruct Hr as [Ht _]. rewrite Ht in Hk. split; [done|]. destruct q; try done.
    cbn [copy_of]. unfold copy_nothing. cbn. by destruct (_ =? 0).
Qed.

(** C14. The answer to a synchronous call.  When the packet at the head of the queue answers
    the oldest request and that is a synchronous one, [zookeeper_process] fills in the
    completion of the thread that waits for it and no other, takes the request off the
    queue, settles its watches, and calls no completion but those of the parts of a
    transaction.  The call then returns the error of the answer, with the caller's buffer
    as it was; or success with the values the packet encodes, where data and paths are
    cut to the length of the caller's buffer, a path ends in a NUL, and nothing beyond
    that length is written. *)
Theorem synchronous_answer q s A e h r b more rest c :
  ample s → usable (s_zh s) → watches_repr (zh_watches (s_zh s)) A → roomy 1 A →
  zh_sent_requests (s_zh s) = e :: rest → zh_to_process (s_zh s) = [b] →
  sync_answers e h r → arrived b (answer_bytes h r ++ more) →
  w_sync (s_world s) !! c_data e = Some c → can_answer h r c →
  kind_type (kind_of q) = c_type e → stat_given q = true → waits q = true →
  ∃ s', zookeeper_process 0 s = Ret (ZOK, s') ∧
    zh_sent_requests (s_zh s') = rest ∧
    zh_outstanding_sync (s_zh s') = zh_outstanding_sync (s_zh s) - 1 ∧
    w_calls (s_world s') = w_calls (s_world s) ++ part_calls (zh_chroot (s_zh s)) e h r ∧
    watches_repr (zh_watches (s_zh s')) (settled e (ReplyHeader_err h) A) ∧
    (∀ sc, sc ≠ c_data e → w_sync (s_world s') !! sc = w_sync (s_world s) !! sc) ∧
    after_wait (sync_api q) (c_data e) s' =
      Ret ((result_code h r, results q (zh_chroot (s_zh s)) h r c), after_free (c_data e) s').
Proof.
  intros Ha Hu HA Hroom Hsent Hq Hans Hb Hc Hcan Hk Hg Hw.
  rewrite process_begins by done. rewrite check_events_none by apply Hu. run. cbn [s_zh].
  set (s1 := mk_sys (add_ref (s_zh s) 1) (s_world s)).
  change (zh_to_process (add_ref (s_zh s) 1)) with (zh_to_process (s_zh s)). rewrite Hq. cbn [packets_loop].
  msteps. set (s2 := mk_sys _ _).
  destruct (process_sync_packet 0 e h r b more rest c s2 A) as (w & -> & HA'); [done..|].
  run. unfold process_completions_if_async. threaded. msteps.
  rewrite api_epilog_open by (unfold taken_off; cbn; destruct (0 <? _); apply Hu).
  eexists. split; [done|]. destruct (answered_copy q e h r c (zh_chroot (s_zh s)) Hans Hcan Hk Hg) as [Hrc Hcp].
  assert (∀ rest w zh, zh_outstanding_sync (taken_off h rest w zh) = zh_outstanding_sync zh ∧
    zh_sent_requests (taken_off h rest w zh) = rest ∧ zh_watches (taken_off h rest w zh) = w) as Hoff.
  { intros rest' w' zh'. unfold taken_off. by destruct (0 <? _). }
  destruct (Hoff rest w (s_zh s2)) as (O1 & O2 & O3).
  split_and!; cbn [s_zh s_world with_sync record_calls add_ref set_zh_ref_counter set_zh_outstanding_sync
    zh_sent_requests zh_outstanding_sync zh_watches w_calls w_sync set_w_sync set_w_calls].
  - exact O2.
  - by rewrite O1.
  - done.
  - by rewrite O3.
  - intros sc Hne. by rewrite lookup_insert_ne.
  - rewrite after_wait_eq, Hw. erewrite finish_sync_eq; [by rewrite Hrc| |by rewrite Hrc].
    cbn [s_world w_sync set_w_sync with_sync]. by rewrite lookup_insert, decide_True.
Qed.
End answers.

(** A thread with a buffer for 4 bytes gets 5. *)
Definition sample_get : sync_request := SWGet (Some (lit "/a")) (Some (replicate 8 Byte.x2e)) (Some 4) false 0 0.
Definition sample_get_entry : completion_list :=
  mk_completion 9 COMPLETION_DATA SYNCHRONOUS_MARKER None [] 16 None None None.
Definition sample_data : response :=
  RBody (BData (mk_GetDataResponse (mk_buffer 5 (Some (lit "hello"))) zero_Stat)).
Definition sample_packet : buffer_list := full_packet (answer_bytes (sample_hdr 9) sample_data).
Definition sample_getting : sys :=
  mk_sys (set_zh_to_process [sample_packet] (set_zh_sent_requests [sample_get_entry]
            (set_zh_outstanding_sync 1 sample_handle)))
    (set_w_sync {[16 := mk_sync 0 (UData true 4 zero_Stat) (Some (replicate 8 Byte.x2e)) 0]} sample_world).
Lemma synchronous_answer_witness :
  ∃ s', @zookeeper_process sample_host zero_locals (@mt_adaptor sample_host zero_locals) 0 sample_getting = Ret (ZOK, s') ∧
    after_wait (@sync_api sample_host zero_locals sample_get) 16 s' =
      Ret ((0, mk_sync_result (Some (lit "hell....")) (Some 4) None None None), after_free 16 s').
Proof.
  destruct (@synchronous_answer sample_host zero_locals sample_get sample_getting sample_registry
    sample_get_entry (sample_hdr 9) sample_data sample_packet [] []
    (mk_sync 0 (UData true 4 zero_Stat) (Some (replicate 8 Byte.x2e)) 0))
    as (s' & E & _ & _ & _ & _ & _ & E').
  - reflexivity.
  - apply sample_usable; reflexivity.
  - apply sample_watches_repr.
  - apply sample_roomy. lia.
  - reflexivity.
  - reflexivity.
  - split_and!; [reflexivity|by apply sample_hdr_wf|reflexivity| |].
    + unfold special. rewrite !elem_of_cons, elem_of_nil. simpl. lia.
    + split; [|reflexivity]. repeat split; by vm_compute.
  - rewrite app_nil_r. apply full_packet_arrived. vm_compute. discriminate.
  - vm_compute. reflexivity.
  - intros _. split; [done|]. intros _. eexists. split; [reflexivity|]. by vm_compute.
  - reflexivity.
  - reflexivity.
  - reflexivity.
  - exists s'. split; [exact E|exact E'].
Defined.

(** ** Threads that wait when the connection is lost *)

(** Computations that touch neither the requests nor the completions. *)
Definition aside {A} (m : M A) : Prop := ∀ s a s', m s = Ret (a, s') →
  zh_sent_requests (s_zh s') = zh_sent_requests (s_zh s) ∧
  zh_outstanding_sync (s_zh s') = zh_outstanding_sync (s_zh s) ∧
  w_sync (s_world s') = w_sync (s_world s).
Lemma aside_still {A} (m : M A) : still m → aside m.
Proof.
  intros Hm s a s' E. destruct (Hm _ _ _ E) as (Hk & Hr & Hw). split_and!; [done| |done].
  change (k_sync (core_of (s_zh s')) = k_sync (core_of (s_zh s))). by rewrite Hk.
Qed.
Lemma aside_bind {A B} (m : M A) (f : A → M B) : aside m → (∀ a, aside (f a)) → aside (m ≫= f).
Proof.
  intros Hm Hf s b s' E. apply bind_Ret_inv in E as ((a & s1) & E1 & E2).
  destruct (Hf _ _ _ _ E2) as (-> & -> & ->). by apply (Hm _ a).
Qed.
Lemma aside_modify f : (∀ zh, zh_sent_requests (f zh) = zh_sent_requests zh) →
  (∀ zh, zh_outstanding_sync (f zh) = zh_outstanding_sync zh) → aside (modify f).
Proof. intros Hf Hf' s a s' E. injection E as <- <-. split_and!; [apply Hf|apply Hf'|done]. Qed.
Ltac aside_step :=
  match goal with
  | |- aside (_ ≫= _) => apply aside_bind; [|intros ?]
  | |- aside (modify _) => apply aside_modify; intros ?; reflexivity
  | |- aside (match ?x with _ => _ end) => destruct x
  | |- aside _ => apply aside_still; by stills
  end.
Ltac asides := repeat aside_step.

(** Every thread that waited has been woken up with [reason]. *)
Record released (reason : Z) (s s' : sys) : Prop := {
  rl_queue : zh_sent_requests (s_zh s') = [];
  rl_count : zh_outstanding_sync (s_zh s') = 0;
  rl_all : failed_all (notified (zh_sent_requests (s_zh s))) reason (w_sync (s_world s)) (w_sync (s_world s'));
}.
Definition releases {A} (reason : Z) (m : M A) : Prop := ∀ s a s',
  linked s → m s = Ret (a, s') → released reason s s'.

Section released.
Context `{Host, Locals}.

Lemma releases_free call reason : releases reason (free_completions call reason).
Proof.
  intros s a s' Hs E. destruct (free_completions_settle _ _ _ _ _ Hs E) as (Hr & [_ _ Hn] & Hf).
  split; [done| |done]. by rewrite Hn, Hr.
Qed.
Lemma releases_after {A B} reason (m : M A) (f : A → M B) :
  aside m → (∀ a, releases reason (f a)) → releases reason (m ≫= f).
Proof.
  intros Hm Hf s b s' Hs E. apply bind_Ret_inv in E as ((a & s1) & E1 & E2).
  destruct (Hm _ _ _ E1) as (Hr & Hn & Hw). destruct (Hf a s1 b s') as [F1 F2 F3]; [|done|].
  - unfold linked. by rewrite Hr, Hn, Hw.
  - split; [done|done|]. by rewrite Hr, Hw in F3.
Qed.
Lemma releases_before {A B} reason (m : M A) (f : A → M B) :
  releases reason m → (∀ a, aside (f a)) → releases reason (m ≫= f).
Proof.
  intros Hm Hf s b s' Hs E. apply bind_Ret_inv in E as ((a & s1) & E1 & E2).
  destruct (Hm _ _ _ Hs E1) as [F1 F2 F3]. destruct (Hf _ _ _ _ E2) as (Hr & Hn & Hw).
  split; [congruence|congruence|by rewrite Hw].
Qed.
Lemma aside_if_async : aside process_completions_if_async.
Proof. unfold process_completions_if_async. threaded. asides. Qed.
Lemma aside_queue_session_event state : aside (queue_session_event state).
Proof.
  unfold queue_session_event, queue_completion, create_completion_entry. asides. apply aside_if_async.
Qed.
Lemma releases_cleanup_bufs reason : releases reason (cleanup_bufs true reason).
Proof.
  unfold cleanup_bufs. do 2 (apply releases_after; [by asides|intros _]).
  apply releases_before; [apply releases_free|intros _]. asides.
Qed.
Lemma releases_cleanup reason : releases reason (cleanup reason).
Proof.
  unfold cleanup. do 3 (apply releases_after; [by asides|intros ?]).
  apply releases_after.
  - destruct a; [|destruct a0]; [| |by asides]; (apply aside_bind; [apply aside_queue_session_event|intros _; by asides]).
  - intros _. apply releases_before; [apply releases_cleanup_bufs|intros _].
    unfold set_fd, set_state. asides. apply aside_if_async.
Qed.
Lemma releases_handle_error reason : releases reason (handle_error reason).
Proof. unfold handle_error. apply releases_before; [apply releases_cleanup|intros _]. asides. Qed.
Lemma releases_close_session : releases ZCLOSING close_session.
Proof.
  unfold close_session. apply releases_after; [by asides|intros connected].
  apply releases_after; [unfold queue_buffer_bytes; by asides|intros rc].
  apply releases_before; [|intros _; by asides]. unfold destroy.
  apply releases_before; [apply releases_cleanup_bufs|intros _]. unfold set_fd, set_state.
  apply aside_bind; [apply aside_if_async|intros _]. asides.
Qed.
Lemma releases_close_begin : releases ZCLOSING close_begin.
Proof.
  unfold close_begin, inc_ref_counter. do 2 (apply releases_after; [by asides|intros ?]).
  destruct (1 <? a0).
  - apply releases_before; [apply releases_free|intros _]. unfold api_prolog, inc_ref_counter, wakeup_io_thread. asides.
  - apply releases_before; [apply releases_close_session|intros _]. asides.
Qed.

(** A thread that waited returns what it was woken up with. *)
Lemma released_returns reason s s' q sc c : linked s → released reason s s' →
  w_sync (s_world s) !! sc = Some c → sc_complete c = 0 → reason ≠ 0 → waits q = true →
  after_wait (sync_api q) sc s' =
    Ret ((reason, mk_sync_result (sc_mem c) None None None None), after_free sc s').
Proof.
  intros Hl [_ _ [Hf _]] Hc Hn Hreason Hw.
  destruct (Hf sc) as (c' & Hc1 & Hc2); [by apply (lk_incomplete _ _ _ Hl); exists c|].
  rewrite Hc in Hc1. injection Hc1 as <-.
  rewrite after_wait_eq, Hw. apply (finish_sync_eq _ _ _ _ _ Hc2).
  cbn [sc_rc set_sc_complete set_sc_rc sc_mem]. by rewrite (proj2 (Z.eqb_neq reason 0)).
Qed.

(** C15. Losing the connection and closing.  When the connection is given up for a reason,
    or the handle is closed, every thread in a synchronous call is woken up: no request
    is left, none is counted, the completion of each has that reason for its result and
    is otherwise as it was, completions that were answered before are untouched, and
    each call returns the reason with the caller's buffer unchanged. *)
Theorem waiters_released reason s : linked s → reason ≠ 0 →
  ∀ s', (handle_error reason s = Ret ((), s') ∨ reason = ZCLOSING ∧ ∃ b, close_begin s = Ret (b, s')) →
  zh_sent_requests (s_zh s') = [] ∧ zh_outstanding_sync (s_zh s') = 0 ∧
  dom (w_sync (s_world s')) = dom (w_sync (s_world s)) ∧
  (∀ sc c, w_sync (s_world s) !! sc = Some c →
     w_sync (s_world s') !! sc =
       Some (if sc_complete c =? 0 then set_sc_complete 1 (set_sc_rc reason c) else c)) ∧
  (∀ q sc c, w_sync (s_world s) !! sc = Some c → sc_complete c = 0 → waits q = true →
     after_wait (sync_api q) sc s' =
       Ret ((reason, mk_sync_result (sc_mem c) None None None None), after_free sc s')).
Proof.
  intros Hl Hreason s' Hcase. assert (released reason s s') as Hrel.
  { destruct Hcase as [E|[-> [b E]]]; [by apply (releases_handle_error reason s ())|by apply (releases_close_begin s b)]. }
  pose proof Hrel as [F1 F2 F3]. pose proof (failed_all_served _ _ _ Hl F3 F1) as [Hd _ _ _].
  split_and!; [done|done|done| |].
  - destruct F3 as [F3 F4]. intros sc c Hc. destruct (Z.eqb_spec (sc_complete c) 0) as [Hn|Hn].
    + destruct (F3 sc) as (c' & Hc1 & Hc2); [by apply (lk_incomplete _ _ _ Hl); exists c|]. congruence.
    + rewrite F4; [done|]. intros (c' & Hc1 & Hn')%(lk_incomplete _ _ _ Hl). congruence.
  - intros q sc c Hc Hn Hw. by eapply released_returns.
Qed.

(** Woken up without an answer.  Giving a connection up with [ZOK], which
    [zookeeper_interest] does when the search for a read-write server succeeds, makes
    every call that deletes, sets an ACL, runs a transaction or removes watches return
    success although no answer has come. *)
Theorem success_without_answer s s' q sc c : linked s → cleanup ZOK s = Ret ((), s') →
  w_sync (s_world s) !! sc = Some c → sc_complete c = 0 → waits q = true →
  kind_of q = KVoid ∨ kind_of q = KMulti →
  after_wait (sync_api q) sc s' = Ret ((ZOK, mk_sync_result (sc_mem c) None None None None), after_free sc s').
Proof.
  intros Hl E Hc Hn Hw Hk. destruct (releases_cleanup ZOK s () s' Hl E) as [_ _ [Hf _]].
  destruct (Hf sc) as (c' & Hc1 & Hc2); [by apply (lk_incomplete _ _ _ Hl); exists c|].
  rewrite Hc in Hc1. injection Hc1 as <-. rewrite after_wait_eq, Hw. apply (finish_sync_eq _ _ _ _ _ Hc2).
  by destruct q, Hk.
Qed.
End released.

Lemma sample_getting_linked : linked sample_getting.
Proof.
  split; [by apply NoDup_singleton| |done]. intros sc. unfold incomplete.
  change (w_sync (s_world sample_getting)) with
    ({[16 := mk_sync 0 (UData true 4 zero_Stat) (Some (replicate 8 Byte.x2e)) 0]} : gmap Z sync_completion).
  split.
  - intros ->%elem_of_singleton_list. eexists. by rewrite lookup_singleton, decide_True.
  - intros (c & Hc & _). apply lookup_singleton_Some in Hc as [<- _]. by left.
Qed.
Definition sample_lost : sys :=
  sys_after (@handle_error sample_host zero_locals (@mt_adaptor sample_host zero_locals) ZCONNECTIONLOSS sample_getting) sample_getting.
Lemma waiters_released_witness :
  after_wait (@sync_api sample_host zero_locals sample_get) 16 sample_lost =
    Ret ((ZCONNECTIONLOSS, mk_sync_result (Some (replicate 8 Byte.x2e)) None None None None), after_free 16 sample_lost) ∧
  zh_sent_requests (s_zh sample_lost) = [].
Proof.
  destruct (@waiters_released sample_host zero_locals ZCONNECTIONLOSS sample_getting sample_getting_linked)
    with (s' := sample_lost) as (H1 & _ & _ & _ & H5).
  - discriminate.
  - left. vm_compute. reflexivity.
  - split; [|exact H1].
    apply (H5 sample_get 16 (mk_sync 0 (UData true 4 zero_Stat) (Some (replicate 8 Byte.x2e)) 0)); reflexivity.
Defined.
(** A delete that was never answered. *)
Definition sample_given_up : sys :=
  sys_after (@cleanup sample_host zero_locals (@mt_adaptor sample_host zero_locals) ZOK (p_sys sample_waits)) (p_sys sample_waits).
Lemma success_without_answer_witness :
  after_wait (@sync_api sample_host zero_locals sample_sync) 16 sample_given_up =
    Ret ((ZOK, mk_sync_result None None None None None), after_free 16 sample_given_up).
Proof.
  apply (@success_without_answer sample_host zero_locals (p_sys sample_waits) sample_given_up sample_sync 16
    (mk_sync 0 UNone None 0)).
  - exact (td_linked _ (@reachable_tidy sample_host zero_locals _ _ sample_is_started (rtc_once _ _ sample_call_step))).
  - vm_compute. reflexivity.
  - vm_compute. reflexivity.
  - reflexivity.
  - reflexivity.
  - left. reflexivity.
Defined.

(** ** Where the build with threads goes wrong *)
Section undefined.
Context `{Host, Locals}.

Lemma mt_get_xid_returns s : ∃ xid s',
  mt_get_xid s = Ret (xid, s') ∧ s_zh s' = s_zh s ∧ w_sync (s_world s') = w_sync (s_world s).
Proof.
  unfold mt_get_xid. msteps. destruct (w_xid (s_world s) =? -1); msteps; [|eexists _, _; by split_and!].
  unfold get_system_time. destruct (w_clock (s_world s)); msteps; eexists _, _; by split_and!.
Qed.
(** Removing a watch locally.  In the build with threads an asynchronous call that
    removes a registered watch without asking the server treats the data of the caller as
    a synchronous completion and writes to it: unless it happens to be the address of one,
    the behaviour is undefined. *)
Theorem local_removal_undefined s A path sp wtype watcher ctx fn data :
  watches_repr (zh_watches (s_zh s)) A → zh_prepend_string path s = Ret (Some sp, s) →
  isValidPath (Some sp) 0 = true → pathHasWatcher (zh_watches (s_zh s)) sp wtype watcher ctx = Ret true →
  w_sync (s_world s) !! data = None →
  zoo_aremove_watches path wtype watcher ctx true fn data s = UB.
Proof.
  intros HA Hp Hv Hhas Hd. unfold zoo_aremove_watches, aremove_watches. rewrite M_bind_eq, Hp. run.
  destruct (mt_get_xid_returns s) as (xid & s1 & Ex & Hz & Hw).
  rewrite M_bind_eq. change (get_xid s) with (mt_get_xid s). rewrite Ex. run. rewrite Hv. cbn [negb]. msteps.
  rewrite Hz. unfold lift at 1. rewrite Hhas. msteps. unfold lift. rewrite removeWatchers_all.
  destruct (remove_all_spec (type_tables wtype) sp watcher ctx _ A HA) as (w & -> & _). run. msteps. threaded.
  unfold notify_sync_completion, the_sync. msteps. cbn [s_world]. by rewrite Hw, Hd.
Qed.
End undefined.

Lemma local_removal_undefined_witness :
  @zoo_aremove_watches sample_host (@mt_adaptor sample_host zero_locals) (Some (lit "/a")) 2 7 70 true 11 110 sample_sys = UB.
Proof.
  apply (@local_removal_undefined sample_host zero_locals sample_sys sample_registry (Some (lit "/a")) (lit "/a")).
  - apply sample_watches_repr.
  - reflexivity.
  - reflexivity.
  - vm_compute. reflexivity.
  - reflexivity.
Defined.

(** Memory runs out after [n] allocations. *)
Definition sample_scarce (n : nat) : sys :=
  mk_sys (s_zh (p_sys sample_started)) (set_w_alloc (replicate n true ++ [false]) (s_world (p_sys sample_started))).
Definition sample_dangling : sys :=
  sys_after (before_wait (@sync_api sample_host zero_locals sample_sync) 16 (sample_scarce 5)) (sample_scarce 5).
(** A request without its packet.  If memory runs out when the packet of a synchronous
    request is queued, after its entry has been, the call returns [ZMARSHALLINGERROR] and
    frees its completion, but the entry stays in the queue and refers to it: the next loss
    of the connection, or an answer to another request, finds it there, and the behaviour
    is undefined. *)
Example request_without_packet :
  before_wait (@sync_api sample_host zero_locals sample_sync) 16 (sample_scarce 5) =
    Ret (Some ZMARSHALLINGERROR, sample_dangling) ∧
  w_sync (s_world sample_dangling) !! 16 = None ∧ zh_to_send (s_zh sample_dangling) = [] ∧
  (∃ e, zh_sent_requests (s_zh sample_dangling) = [e] ∧ synchronous e ∧ c_data e = 16) ∧
  @handle_error sample_host zero_locals (@mt_adaptor sample_host zero_locals) ZCONNECTIONLOSS sample_dangling = UB.
Proof.
  split; [vm_compute; reflexivity|]. split; [vm_compute; reflexivity|]. split; [vm_compute; reflexivity|].
  split; [|vm_compute; reflexivity]. eexists. split; [vm_compute; reflexivity|]. split; reflexivity.
Qed.
