(* ===== verification/Cli.v ===== *)
(** * The command line client

    src/cli.c in the build without threads: [processline], which takes a line apart and
    calls the library, and the part of [main] that collects lines from the input.  What
    the client prints is recorded as messages; the times it prints are left out; its
    completions and its watcher are in [CliRun].  [fopen] with what [fread] then
    reads is the argument [files].  The handle of the client is NULL if [reinit] could
    not make a new one: some calls of the library test it then, others read it. *)

From S2P Require Import Prelude RecordIO Jute Path Watchers Addrvec Hosts Handshake Transport Handle.
From S2P Require Import Session Requests Interest Init.
Local Open Scope Z_scope.

(** ** What the client prints *)
Inductive message :=
  | MHelp
  | MVerbose (on : bool)
  | MPath (line : cstring)
  | MError (rc : Z) (line : cstring)
  | MNoData
  | MNoTtl
  | MBadTtl
  | MOption (c : byte)
  | MMode
  | MCreating (line : cstring) (mode : Z)
  | MFile (name : cstring)
  | MMemory (name : cstring)
  | MSession (id : Z)
  | MQuitting
  | MOverdosing
  | MOdFailed (rc : Z)
  | MTooLong
  | MBye.

(** ** The functions of the client, as pointers *)
Definition watcher : Z := 200.
Definition my_string_completion_free_data : Z := 201.
Definition my_string_stat_completion_free_data : Z := 202.
Definition my_data_completion : Z := 203.
Definition my_strings_completion : Z := 204.
Definition my_strings_stat_completion : Z := 205.
Definition my_void_completion : Z := 206.
Definition my_stat_completion : Z := 207.
Definition od_completion : Z := 208.

(** ** The state of the client *)

(** The library, whether [zh] is not NULL, the strings made for completions by their
    addresses, with the next address, and the messages printed. *)
Record cli := mk_cli {
  cl_isys : isys;
  cl_open : bool;
  cl_strings : gmap Z cstring;
  cl_next : Z;
  cl_verbose : bool;
  cl_shutdown : bool;
  cl_messages : list message;
}.
Definition set_isys (x : isys) (c : cli) : cli :=
  mk_cli x (cl_open c) (cl_strings c) (cl_next c) (cl_verbose c) (cl_shutdown c) (cl_messages c).
Definition set_open (x : bool) (c : cli) : cli :=
  mk_cli (cl_isys c) x (cl_strings c) (cl_next c) (cl_verbose c) (cl_shutdown c) (cl_messages c).
Definition set_verbose (x : bool) (c : cli) : cli :=
  mk_cli (cl_isys c) (cl_open c) (cl_strings c) (cl_next c) x (cl_shutdown c) (cl_messages c).
Definition set_shutdown (x : bool) (c : cli) : cli :=
  mk_cli (cl_isys c) (cl_open c) (cl_strings c) (cl_next c) (cl_verbose c) x (cl_messages c).
Definition add_message (x : message) (c : cli) : cli :=
  mk_cli (cl_isys c) (cl_open c) (cl_strings c) (cl_next c) (cl_verbose c) (cl_shutdown c)
    (cl_messages c ++ [x]).
Definition add_string (s : cstring) (c : cli) : cli :=
  mk_cli (cl_isys c) (cl_open c) (<[cl_next c := s]> (cl_strings c)) (cl_next c + 1) (cl_verbose c)
    (cl_shutdown c) (cl_messages c).

Definition MC (A : Type) : Type := cli → outcome (A * cli).
Global Instance MC_ret : MRet MC := λ A a c, Ret (a, c).
Global Instance MC_bind : MBind MC := λ A B f m c, '(a, c) ← m c; f a c.
Definition update (f : cli → cli) : MC () := λ c, Ret ((), f c).
Definition ask {A} (f : cli → A) : MC A := λ c, Ret (f c, c).
(** Pure code that can fail. *)
Definition attempt {A} (m : outcome A) : MC A := λ c, a ← m; Ret (a, c).
Definition say (x : message) : MC () := update (add_message x).
(** A computation of the library, whatever [zh] is. *)
Definition library {A} (m : MI A) : MC A := λ c,
  '(a, s) ← m (cl_isys c); Ret (a, set_isys s c).
(** A call that reads the handle before it tests it ([zoo_aget], [zoo_agetconfig],
    [zoo_aexists] and the calls for children read the watcher in it): NULL is dereferenced. *)
Definition with_zh {A} (m : M A) : MC A :=
  open ← ask cl_open;
  if open : bool then library (sess m) else attempt UB.
(** A request whose function takes a number and then tests the handle. *)
Definition tested_zh `{Host} (m : M Z) : MC Z :=
  open ← ask cl_open;
  if open : bool then library (sess m) else library (sess get_xid);; mret ZBADARGUMENTS.

(** [strdup(line)] for the data of a completion, and for a string of the client. *)
Definition strdup_data (line : cstring) : MC Z :=
  ok ← library (sess (allocating (λ o, Ret (alloc o))));
  if ok : bool then address ← ask cl_next; update (add_string line);; mret address else mret 0.
Definition strdup_string (line : cstring) : MC (option cstring) :=
  library (sess (allocating (λ o, Ret (strdup line o)))).

(** ** Numbers *)

(** [strtol(s, &end, 10)] and [strtoull(s, NULL, 16)]. *)
Definition strtol10 (s : cstring) : Z * cstring :=
  let '(negative, s') := sign (skip_space s) in
  match s' with
  | c :: _ =>
      if bool_decide (is_Some (digit 10 c)) then
        let '(n, end_) := digits 10 s' 0 in
        (Z.max LONG_MIN (Z.min LONG_MAX (if negative then - n else n)), end_)
      else (0, s)
  | [] => (0, s)
  end.
Definition strtoull16 (s : cstring) : Z :=
  let '(negative, s) := sign (skip_space s) in
  let s := match s with
           | z :: x :: d :: s' =>
               if isc z Byte.x30 && (isc x Byte.x78 || isc x Byte.x58) && bool_decide (is_Some (digit 16 d))
               then d :: s' else s
           | _ => s
           end in
  let n := fst (digits 16 s 0) in
  if 2 ^ 64 <=? n then 2 ^ 64 - 1 else if negative then (- n) mod 2 ^ 64 else n.

(** ** Commands *)
Definition startsWith (line prefix : cstring) : bool := starts_with line prefix.
Definition space : byte := Byte.x20.
Definition report (rc : Z) (line : cstring) : MC () :=
  if negb (rc =? 0) then say (MError rc line) else mret ().
(** A path must start with a slash. *)
Definition on_path (line : cstring) (command : MC ()) : MC () :=
  match line with
  | c :: _ => if isc c slash then command else say (MPath line)
  | [] => say (MPath line)
  end.
(** [strchr(line, ' ')] with the string cut there. *)
Fixpoint cut_at (c : byte) (s : cstring) : option (cstring * cstring) :=
  match s with
  | [] => None
  | x :: s =>
      if isc x c then Some ([], s)
      else '(a, b) ← cut_at c s; Some (x :: a, b)
  end.

Section commands.
Context `{Host, Locals} (files : cstring → option (list byte)) (hostPort : option cstring).

Definition verbose_command : MC () :=
  verbose ← ask cl_verbose;
  update (set_verbose (negb verbose));; say (MVerbose (negb verbose)).
Definition get_command (line : cstring) : MC () :=
  on_path line (
    data ← strdup_data line;
    rc ← with_zh (zoo_aget (Some line) 1 my_data_completion data);
    report rc line).
Definition config_command (line : cstring) : MC () :=
  data ← strdup_data ZOO_CONFIG_NODE;
  rc ← with_zh (zoo_agetconfig 1 my_data_completion data);
  report rc line.
Definition set_command (line : cstring) : MC () :=
  on_path line (
    match cut_at space line with
    | None => say MNoData
    | Some (path, ptr) =>
        data ← strdup_data path;
        rc ← tested_zh (zoo_aset (Some path) (Some ptr) (Z.of_nat (length ptr)) (-1) my_stat_completion data);
        report rc path
    end).
Definition ls_command (line : cstring) : MC () :=
  on_path line (
    data ← strdup_data line;
    rc ← with_zh (zoo_aget_children (Some line) 1 my_strings_completion data);
    report rc line).
Definition ls2_command (line : cstring) : MC () :=
  on_path line (
    data ← strdup_data line;
    rc ← with_zh (zoo_aget_children2 (Some line) 1 my_strings_stat_completion data);
    report rc line).
Definition delete_command (line : cstring) : MC () :=
  on_path line (
    data ← strdup_data line;
    rc ← tested_zh (zoo_adelete (Some line) (-1) my_void_completion data);
    report rc line).
Definition sync_command (line : cstring) : MC () :=
  on_path line (
    data ← strdup_data line;
    rc ← tested_zh (zoo_async (Some line) my_string_completion_free_data data);
    report rc line).
Definition wexists_command (line : cstring) : MC () :=
  on_path line (
    data ← strdup_data line;
    rc ← tested_zh (zoo_awexists (Some line) watcher 0 my_stat_completion data);
    report rc line).
Definition exists_command (line : cstring) : MC () :=
  on_path line (
    data ← strdup_data line;
    rc ← with_zh (zoo_aexists (Some line) 1 my_stat_completion data);
    report rc line).
Definition myid_command : MC () :=
  id ← with_zh zoo_client_id; say (MSession (ci_client_id id)).
(** [zookeeper_close] of NULL is refused. *)
Definition reinit_command : MC () :=
  open ← ask cl_open;
  (if open : bool then library (sess zookeeper_close);; mret () else mret ());;
  ok ← library (zookeeper_init hostPort watcher 30000 None 0 0);
  update (set_open ok).
Definition od_command : MC () :=
  say MOverdosing;;
  rc ← tested_zh (zoo_aset (Some (lit "/od")) (Some (lit "fire off")) 8 (-1) od_completion 0);
  if negb (rc =? 0) then say (MOdFailed rc) else mret ().
(** [old_state] is what [malloc] leaves in the new entry. *)
Definition addauth_command (old_state : Z) (line : cstring) : MC () :=
  let '(scheme, cert) := match cut_at space line with
                         | None => (line, None)
                         | Some (scheme, cert) => (scheme, Some cert)
                         end in
  open ← ask cl_open;
  if open : bool then
    library (sess (zoo_add_auth old_state (Some scheme) cert (Z.of_nat (length (default [] cert))) 0 0));; mret ()
  else mret ().

(** *** create and create2 *)

(** The flags after a plus sign. *)
Record create_flags := mk_flags {
  fl_ephemeral : bool;
  fl_sequential : bool;
  fl_container : bool;
  fl_ttl : bool;
  fl_ttl_value : Z;
}.
Definition no_flags : create_flags := mk_flags false false false false (-1).
(** The loop over the letters: the flags and the rest of the line, or a message.  After the
    value of a ttl [line] is moved back to its last digit and on again. *)
Fixpoint flags_loop (fuel : nat) (line : cstring) (fl : create_flags)
    : outcome (message + create_flags * cstring) :=
  match fuel with
  | O => Loop
  | S fuel =>
      match line with
      | [] => Ret (inr (fl, line))
      | c :: rest =>
          if isc c space then Ret (inr (fl, line))
          else if isc c Byte.x65 then
            flags_loop fuel rest (mk_flags true (fl_sequential fl) (fl_container fl) (fl_ttl fl) (fl_ttl_value fl))
          else if isc c Byte.x73 then
            flags_loop fuel rest (mk_flags (fl_ephemeral fl) true (fl_container fl) (fl_ttl fl) (fl_ttl_value fl))
          else if isc c Byte.x63 then
            flags_loop fuel rest (mk_flags (fl_ephemeral fl) (fl_sequential fl) true (fl_ttl fl) (fl_ttl_value fl))
          else if isc c Byte.x74 then
            match rest with
            | e :: rest =>
                if negb (isc e Byte.x3d) then Ret (inl MNoTtl) else
                let '(value, rest) := strtol10 rest in
                if value <=? 0 then Ret (inl MBadTtl) else
                flags_loop fuel rest
                  (mk_flags (fl_ephemeral fl) (fl_sequential fl) (fl_container fl) true value)
            | [] => Ret (inl MNoTtl)
            end
          else Ret (inl (MOption c))
      end
  end.
Definition mode_of_flags (fl : create_flags) : option Z :=
  let e := fl_ephemeral fl in let s := fl_sequential fl in
  let c := fl_container fl in let t := fl_ttl fl in
  if e && negb s && negb c && negb t then Some ZOO_EPHEMERAL
  else if negb e && s && negb c && negb t then Some ZOO_PERSISTENT_SEQUENTIAL
  else if e && s && negb c && negb t then Some ZOO_EPHEMERAL_SEQUENTIAL
  else if negb e && negb s && c && negb t then Some ZOO_CONTAINER
  else if negb e && negb s && negb c && t then Some ZOO_PERSISTENT_WITH_TTL
  else if negb e && s && negb c && t then Some ZOO_PERSISTENT_SEQUENTIAL_WITH_TTL
  else None.
Definition ZOO_OPEN_ACL_UNSAFE : vector ACL :=
  mk_vector 1 (Some [mk_ACL 31 (mk_Id (Some (lit "world")) (Some (lit "anyone")))]).
(** The mode, the ttl and the path. *)
Definition create_arguments (line : cstring) : outcome (message + Z * Z * cstring) :=
  match line with
  | c :: rest =>
      if isc c Byte.x2b then
        parsed ← flags_loop (S (length rest)) rest no_flags;
        match parsed with
        | inl m => Ret (inl m)
        | inr (fl, line) =>
            match mode_of_flags fl with
            | None => Ret (inl MMode)
            | Some mode =>
                let line := match line with c :: l => if isc c space then l else line | [] => line end in
                Ret (inr (mode, fl_ttl_value fl, line))
            end
        end
      else Ret (inr (0, -1, line))
  | [] => Ret (inr (0, -1, line))
  end.
Definition create_command (is_create2 : bool) (line : cstring) : MC () :=
  parsed ← attempt (create_arguments line);
  match parsed with
  | inl m => say m
  | inr (mode, ttl, line) =>
      on_path line (
        say (MCreating line mode);;
        data ← strdup_data line;
        rc ← tested_zh
          (if is_create2 then
             zoo_acreate2_ttl (Some line) (Some (lit "new")) 3 (Some ZOO_OPEN_ACL_UNSAFE) mode ttl
               my_string_stat_completion_free_data data
           else
             zoo_acreate_ttl (Some line) (Some (lit "new")) 3 (Some ZOO_OPEN_ACL_UNSAFE) mode ttl
               my_string_completion_free_data data);
        report rc line)
  end.

(** *** reconfig *)

(** The tokens of [strtok(s, " ")]; [cur] is the one read so far. *)
Fixpoint words (cur s : cstring) : list cstring :=
  match s with
  | [] => match cur with [] => [] | _ => [cur] end
  | c :: s =>
      if isc c space then match cur with [] => words [] s | _ => cur :: words [] s end
      else words (cur ++ [c]) s
  end.
Record reconfig_args := mk_args {
  ra_mode : Z;
  ra_joining : option cstring;
  ra_leaving : option cstring;
  ra_members : option cstring;
  ra_version : Z;
}.
(** [None] is a syntax error. *)
Fixpoint reconfig_loop (toks : list cstring) (a : reconfig_args) : MC (option reconfig_args) :=
  match toks with
  | [] => mret (Some a)
  | p :: toks =>
      if bool_decide (p = lit "-add") then
        match toks with
        | q :: toks =>
            if ra_mode a =? 2 then mret None else
            s ← strdup_string q;
            reconfig_loop toks (mk_args 1 s (ra_leaving a) (ra_members a) (ra_version a))
        | [] => mret None
        end
      else if bool_decide (p = lit "-remove") then
        match toks with
        | q :: toks =>
            if ra_mode a =? 2 then mret None else
            s ← strdup_string q;
            reconfig_loop toks (mk_args 1 (ra_joining a) s (ra_members a) (ra_version a))
        | [] => mret None
        end
      else if bool_decide (p = lit "-members") then
        match toks with
        | q :: toks =>
            if ra_mode a =? 1 then mret None else
            s ← strdup_string q;
            reconfig_loop toks (mk_args 2 (ra_joining a) (ra_leaving a) s (ra_version a))
        | [] => mret None
        end
      else if bool_decide (p = lit "-file") then
        match toks with
        | q :: toks =>
            if ra_mode a =? 1 then mret None else
            match files q with
            | None => say (MFile q);; mret None
            | Some contents =>
                ok ← library (sess (allocating (λ o, Ret (alloc o))));
                if negb ok then say (MMemory q);; mret None else
                match contents with
                | [] => say (MFile q);; mret None
                | _ => reconfig_loop toks
                         (mk_args 2 (ra_joining a) (ra_leaving a) (Some (c_str contents)) (ra_version a))
                end
            end
        | [] => mret None
        end
      else if bool_decide (p = lit "-version") then
        match toks with
        | q :: toks =>
            if negb (ra_version a =? -1) then mret None else
            let version := wrap_s 64 (strtoull16 q) in
            if version <? 0 then mret None else
            reconfig_loop toks (mk_args (ra_mode a) (ra_joining a) (ra_leaving a) (ra_members a) version)
        | [] => mret None
        end
      else mret None
  end.
Definition reconfig_command (line : cstring) : MC () :=
  copy ← strdup_string line;
  match copy with
  | None => attempt UB
  | Some copy =>
      parsed ← reconfig_loop (words [] copy) (mk_args 0 None None None (-1));
      match parsed with
      | None => mret ()
      | Some a =>
          data ← strdup_data line;
          rc ← tested_zh (zoo_areconfig (ra_joining a) (ra_leaving a) (ra_members a) (ra_version a)
                          my_data_completion data);
          report rc line
      end
  end.

(** ** Lines *)
Definition processline (old_state : Z) (line : cstring) : MC () :=
  let async := match line with c :: _ => isc c Byte.x61 | [] => false end &&
               negb (startsWith line (lit "addauth ")) in
  let line := if async then tail line else line in
  if startsWith line (lit "help") then say MHelp
  else if startsWith line (lit "verbose") then verbose_command
  else if startsWith line (lit "get ") then get_command (drop 4 line)
  else if bool_decide (line = lit "config") then config_command line
  else if startsWith line (lit "reconfig ") then reconfig_command (drop 9 line)
  else if startsWith line (lit "set ") then set_command (drop 4 line)
  else if startsWith line (lit "ls ") then ls_command (drop 3 line)
  else if startsWith line (lit "ls2 ") then ls2_command (drop 4 line)
  else if startsWith line (lit "create ") || startsWith line (lit "create2 ") then
    let is_create2 := startsWith line (lit "create2 ") in
    create_command is_create2 (drop (if is_create2 then 8 else 7) line)
  else if startsWith line (lit "delete ") then delete_command (drop 7 line)
  else if startsWith line (lit "sync ") then sync_command (drop 5 line)
  else if startsWith line (lit "wexists ") then wexists_command (drop 8 line)
  else if startsWith line (lit "exists ") then exists_command (drop 7 line)
  else if bool_decide (line = lit "myid") then myid_command
  else if bool_decide (line = lit "reinit") then reinit_command
  else if startsWith line (lit "quit") then say MQuitting;; update (set_shutdown true)
  else if startsWith line (lit "od") then od_command
  else if startsWith line (lit "addauth ") then addauth_command old_state (drop 8 line)
  else mret ().

(** ** The input *)

(** [buffer] of [main] and [bufoff]. *)
Definition BUFFER_SIZE : Z := 4096.
Record input := mk_input { in_buffer : list byte; in_bufoff : Z }.
(** The loop over the lines in the buffer. *)
Fixpoint lines_loop (fuel : nat) (old_state : Z) (i : input) : MC input :=
  match fuel with
  | O => attempt Loop
  | S fuel =>
      match cut_at Byte.x0a (c_str (in_buffer i)) with
      | None => mret i
      | Some (line, rest) =>
          processline old_state line;;
          buffer ← attempt (copy_to (in_buffer i) 0 (rest ++ [Byte.x00]));
          lines_loop fuel old_state (mk_input buffer 0)
      end
  end.
(** What one round of reading does to the loop of [main]. *)
Inductive round := Reading (i : input) | Exit (status : Z) | Bye.
(** [answer] is what is there to read, at least. *)
Definition read_round (old_state : Z) (answer : list byte) (i : input) : MC round :=
  let len := BUFFER_SIZE - in_bufoff i - 1 in
  if len <=? 0 then say MTooLong;; mret (Exit 2) else
  let chunk := take (Z.to_nat len) answer in
  let rc := Z.of_nat (length chunk) in
  if rc <=? 0 then say MBye;; mret Bye else
  buffer ← attempt (copy_to (in_buffer i) (in_bufoff i) chunk);
  let bufoff := in_bufoff i + rc in
  buffer ← attempt (copy_to buffer bufoff [Byte.x00]);
  i ← lines_loop (S (Z.to_nat BUFFER_SIZE)) old_state (mk_input buffer bufoff);
  mret (Reading i).
End commands.
