(* ===== verification/CliTheorems.v ===== *)
(** * Theorems about the command line client

    Commands as their syntax, how they are written, and that [processline] does with a
    line what the command says; what becomes of lines however they arrive. *)

From S2P Require Import Prelude RecordIO Jute Path Watchers WatchersTheorems Addrvec Hosts HostsTheorems HostsSpec Handshake.
From S2P Require Import Transport Handle Session SessionTheorems Requests Interest Init StateTheorems Cli.
Local Open Scope Z_scope.

(** ** Commands *)
Inductive flag := Ephemeral | Sequential | Container | Ttl (n : Z).
(** What [reconfig] takes; a version by its hexadecimal digits. *)
Inductive reconfig_option :=
  | Add (servers : cstring)
  | Remove (ids : cstring)
  | Members (servers : cstring)
  | File (name : cstring)
  | Version (ds : list Z).
Inductive command :=
  | Help
  | Verbose
  | Myid
  | Reinit
  | Quit_
  | Od
  | Addauth (scheme : cstring) (cert : option cstring)
  | Reconfig_ (options : list reconfig_option)
  | Get_ (path : cstring)
  | Set_ (path value : cstring)
  | Ls (path : cstring)
  | Ls2 (path : cstring)
  | Create_ (two : bool) (flags : list flag) (path : cstring)
  | Delete_ (path : cstring)
  | Sync_ (path : cstring)
  | Wexists (path : cstring)
  | Exists_ (path : cstring)
  | Config.

(** How a command is written; a ttl in decimal. *)
Definition print_flag (f : flag) (rest : cstring) : cstring :=
  match f with
  | Ephemeral => Byte.x65 :: rest
  | Sequential => Byte.x73 :: rest
  | Container => Byte.x63 :: rest
  | Ttl n => Byte.x74 :: Byte.x3d :: decimal_to 19 n rest
  end.
Definition print_flags (fs : list flag) (rest : cstring) : cstring := foldr print_flag rest fs.
Definition hex_char (d : Z) : byte := default Byte.x30 (lit "0123456789abcdef" !! Z.to_nat d).
Definition option_words (o : reconfig_option) : list cstring :=
  match o with
  | Add servers => [lit "-add"; servers]
  | Remove ids => [lit "-remove"; ids]
  | Members servers => [lit "-members"; servers]
  | File name => [lit "-file"; name]
  | Version ds => [lit "-version"; hex_char <$> ds]
  end.
Fixpoint unwords (ws : list cstring) : cstring :=
  match ws with
  | [] => []
  | [w] => w
  | w :: ws => w ++ space :: unwords ws
  end.
Definition print_options (os : list reconfig_option) : cstring := unwords (os ≫= option_words).
Definition print (c : command) : cstring :=
  match c with
  | Help => lit "help"
  | Verbose => lit "verbose"
  | Myid => lit "myid"
  | Reinit => lit "reinit"
  | Quit_ => lit "quit"
  | Od => lit "od"
  | Addauth scheme cert => lit "addauth " ++ scheme ++ match cert with None => [] | Some cert => space :: cert end
  | Reconfig_ options => lit "reconfig " ++ print_options options
  | Get_ path => lit "get " ++ path
  | Set_ path value => lit "set " ++ path ++ space :: value
  | Ls path => lit "ls " ++ path
  | Ls2 path => lit "ls2 " ++ path
  | Create_ two flags path =>
      lit (if two then "create2 " else "create ") ++
      match flags with [] => path | _ => Byte.x2b :: print_flags flags (space :: path) end
  | Delete_ path => lit "delete " ++ path
  | Sync_ path => lit "sync " ++ path
  | Wexists path => lit "wexists " ++ path
  | Exists_ path => lit "exists " ++ path
  | Config => lit "config"
  end.
(** A path starts with a slash, one before a value has no space, and neither has a scheme
    or a word of [reconfig]; a ttl is a positive [long]. *)
Definition absolute (path : cstring) : Prop := ∃ rest, path = slash :: rest.
Definition good_flag (f : flag) : Prop := match f with Ttl n => 0 < n ≤ LONG_MAX | _ => True end.
Definition is_word (w : cstring) : Prop := w ≠ [] ∧ Forall (λ c, c ≠ space) w.
Definition good_option (o : reconfig_option) : Prop :=
  match o with
  | Add w | Remove w | Members w | File w => is_word w
  | Version ds => ds ≠ [] ∧ Forall (λ d, 0 ≤ d < 16) ds
  end.
Definition well_formed (c : command) : Prop :=
  match c with
  | Help | Verbose | Myid | Reinit | Quit_ | Od => True
  | Addauth scheme _ => Forall (λ c, c ≠ space) scheme
  | Reconfig_ options => Forall good_option options
  | Set_ path _ => absolute path ∧ Forall (λ c, c ≠ space) path
  | Create_ _ flags path => absolute path ∧ Forall good_flag flags
  | Get_ path | Ls path | Ls2 path | Delete_ path | Sync_ path | Wexists path | Exists_ path => absolute path
  | Config => True
  end.

(** What a set of flags means: the mode, none for a set that makes no sense, and the last
    ttl. *)
Global Instance flag_eq_dec : EqDecision flag.
Proof. solve_decision. Defined.
Definition has_ttl (fs : list flag) : bool := existsb (λ f, match f with Ttl _ => true | _ => false end) fs.
Definition mode_meant (fs : list flag) : option Z :=
  match fs with
  | [] => Some ZOO_PERSISTENT
  | _ =>
      match bool_decide (Ephemeral ∈ fs), bool_decide (Sequential ∈ fs), bool_decide (Container ∈ fs), has_ttl fs with
      | true, false, false, false => Some ZOO_EPHEMERAL
      | false, true, false, false => Some ZOO_PERSISTENT_SEQUENTIAL
      | true, true, false, false => Some ZOO_EPHEMERAL_SEQUENTIAL
      | false, false, true, false => Some ZOO_CONTAINER
      | false, false, false, true => Some ZOO_PERSISTENT_WITH_TTL
      | false, true, false, true => Some ZOO_PERSISTENT_SEQUENTIAL_WITH_TTL
      | _, _, _, _ => None
      end
  end.
Definition ttl_meant (fs : list flag) : Z :=
  foldl (λ t f, match f with Ttl n => n | _ => t end) (-1) fs.

(** Options that cannot be used together: servers to add and remove with those that are to
    be all, and two versions; and a version is no more than the largest [int64_t]. *)
Definition incremental (o : reconfig_option) : bool := match o with Add _ | Remove _ => true | _ => false end.
Definition complete (o : reconfig_option) : bool := match o with Members _ | File _ => true | _ => false end.
Definition versioned (o : reconfig_option) : bool := match o with Version _ => true | _ => false end.
Definition clashes (before : list reconfig_option) (o : reconfig_option) : bool :=
  match o with
  | Add _ | Remove _ => existsb complete before
  | Members _ | File _ => existsb incremental before
  | Version ds => existsb versioned before || (2 ^ 63 <=? value 16 ds)
  end.
(** The last text given for what [p] says; a copy that could not be made is no text. *)
Definition text_of (p : reconfig_option → bool) (os : list (reconfig_option * option cstring)) : option cstring :=
  foldl (λ t '(o, t'), if p o then t' else t) None os.
Definition is_add (o : reconfig_option) : bool := match o with Add _ => true | _ => false end.
Definition is_remove (o : reconfig_option) : bool := match o with Remove _ => true | _ => false end.
Definition version_of (os : list reconfig_option) : Z :=
  foldl (λ v o, match o with Version ds => value 16 ds | _ => v end) (-1) os.

(** The request a command stands for, with the function and the text for its completion. *)
Definition request_of (c : command) : option (request * Z * cstring) :=
  match c with
  | Get_ path => Some (Get (Some path) 1, my_data_completion, path)
  | Set_ path value =>
      Some (SetData (Some path) (Some value) (Z.of_nat (length value)) (-1), my_stat_completion, path)
  | Ls path => Some (GetChildren (Some path) 1, my_strings_completion, path)
  | Ls2 path => Some (GetChildren2 (Some path) 1, my_strings_stat_completion, path)
  | Create_ two flags path =>
      mode ← mode_meant flags;
      Some (if two then (Create2TTL (Some path) (Some (lit "new")) 3 (Some ZOO_OPEN_ACL_UNSAFE) mode (ttl_meant flags),
                         my_string_stat_completion_free_data, path)
            else (CreateTTL (Some path) (Some (lit "new")) 3 (Some ZOO_OPEN_ACL_UNSAFE) mode (ttl_meant flags),
                  my_string_completion_free_data, path))
  | Delete_ path => Some (Delete (Some path) (-1), my_void_completion, path)
  | Sync_ path => Some (Sync (Some path), my_string_completion_free_data, path)
  | Wexists path => Some (WExists (Some path) watcher 0, my_stat_completion, path)
  | Exists_ path => Some (Exists (Some path) 1, my_stat_completion, path)
  | Config => Some (GetConfig 1, my_data_completion, ZOO_CONFIG_NODE)
  | _ => None
  end.
(** What is printed if the request is refused names the path. *)
Definition error_text (c : command) (text : cstring) : cstring :=
  match c with Config => lit "config" | _ => text end.

Section commands.
Context `{Host, Locals} (files : cstring → option (list byte)) (hostPort : option cstring).

(** A request is made with the handle.  Without one the functions that read the watcher in
    it run into NULL; the others refuse, after they have taken a number. *)
Definition call (r : request) (fn data : Z) : MC Z :=
  open ← ask cl_open;
  if open : bool then library (sess (run_request r fn data))
  else match r with
       | Get _ _ | GetConfig _ | Exists _ _ | GetChildren _ _ | GetChildren2 _ _ => attempt UB
       | AddAuth _ _ _ _ => mret ZBADARGUMENTS
       | _ => library (sess get_xid);; mret ZBADARGUMENTS
       end.
(** What an option brings: a copy of its word, or the contents of the file; [None] if there
    is nothing to go on with. *)
Definition read_option (o : reconfig_option) : MC (option (option cstring)) :=
  match o with
  | Add w | Remove w | Members w => s ← strdup_string w; mret (Some s)
  | Version _ => mret (Some None)
  | File name =>
      match files name with
      | None => say (MFile name);; mret None
      | Some contents =>
          ok ← library (sess (allocating (λ o, Ret (alloc o))));
          if negb ok then say (MMemory name);; mret None
          else if bool_decide (contents = []) then say (MFile name);; mret None
          else mret (Some (Some (c_str contents)))
      end
  end.
(** The options in order, up to one that does not go with those before it. *)
Fixpoint read_options (before os : list reconfig_option) : MC (option (list (reconfig_option * option cstring))) :=
  match os with
  | [] => mret (Some [])
  | o :: os =>
      if clashes before o then mret None else
      t ← read_option o;
      match t with
      | None => mret None
      | Some t => rest ← read_options (before ++ [o]) os; mret (cons (o, t) <$> rest)
      end
  end.
(** A command runs: the request is made with a copy of its text as data; [old] is what is
    in memory for a new entry of the authentications. *)
Definition execute (old : Z) (c : command) : MC () :=
  match c with
  | Help => say MHelp
  | Verbose => λ c, Ret ((), add_message (MVerbose (negb (cl_verbose c))) (set_verbose (negb (cl_verbose c)) c))
  | Myid => open ← ask cl_open;
            if open : bool then id ← library (sess (get zh_client_id)); say (MSession id) else attempt UB
  | Reinit => open ← ask cl_open;
              (if open : bool then library (sess zookeeper_close);; mret () else mret ());;
              made ← library (zookeeper_init hostPort watcher 30000 None 0 0);
              update (set_open made)
  | Quit_ => λ c, Ret ((), set_shutdown true (add_message MQuitting c))
  | Od => say MOverdosing;;
          rc ← call (SetData (Some (lit "/od")) (Some (lit "fire off")) 8 (-1)) od_completion 0;
          if negb (rc =? 0) then say (MOdFailed rc) else mret ()
  | Addauth scheme cert =>
      call (AddAuth old (Some scheme) cert (Z.of_nat (length (default [] cert)))) 0 0;; mret ()
  | Reconfig_ options =>
      copy ← strdup_string (print_options options);
      if copy is None then attempt UB else
      texts ← read_options [] options;
      match texts with
      | None => mret ()
      | Some texts =>
          data ← strdup_data (print_options options);
          rc ← call (Reconfig (text_of is_add texts) (text_of is_remove texts) (text_of complete texts)
                       (version_of texts.*1)) my_data_completion data;
          report rc (print_options options)
      end
  | _ =>
      match request_of c with
      | None => say MMode
      | Some (r, fn, text) =>
          (match c with
           | Create_ _ flags path => say (MCreating path (default 0 (mode_meant flags)))
           | _ => mret ()
           end);;
          data ← strdup_data text;
          rc ← call r fn data;
          report rc (error_text c text)
      end
  end.

Lemma on_absolute path (m : MC ()) : absolute path → on_path path m = m.
Proof. intros [rest ->]. unfold on_path. by rewrite isc_spec, bool_decide_eq_true_2. Qed.
Lemma cut_at_first a b : Forall (λ c, c ≠ space) a → cut_at space (a ++ space :: b) = Some (a, b).
Proof.
  induction 1 as [|c a Hc _ IH]; cbn [cut_at app]; rewrite isc_spec.
  - by rewrite bool_decide_eq_true_2.
  - rewrite bool_decide_eq_false_2 by done. by rewrite IH.
Qed.

Lemma cut_at_none a : Forall (λ c, c ≠ space) a → cut_at space a = None.
Proof.
  induction 1 as [|c a Hc _ IH]; cbn [cut_at]; [done|]. rewrite isc_spec, bool_decide_eq_false_2 by done. by rewrite IH.
Qed.

(** *** Flags *)
Lemma strtol10_decimal n rest : 0 < n ≤ LONG_MAX →
  match rest with [] => True | c :: _ => digit 10 c = None end → strtol10 (decimal_to 19 n rest) = (n, rest).
Proof.
  intros Hn Hr. assert (0 < n < 10 ^ Z.of_nat 19) as Hb by (change (10 ^ Z.of_nat 19) with 10000000000000000000; lia).
  destruct (decimal_to_head 19 n rest Hb) as (d & s & Hd & E).
  pose proof (digits_decimal_to 19 n rest ltac:(lia)) as Hdig. rewrite E in *.
  assert (∀ x, byte.unsigned x < 48 ∨ 58 ≤ byte.unsigned x → isc (digit_char d) x = false) as Hx.
  { intros x Hx. rewrite isc_spec. apply bool_decide_eq_false_2. apply is_digit_ne; [|done]. exists d. by split; [lia|]. }
  unfold strtol10. cbn [skip_space]. unfold isspace. rewrite digit_char_spec by lia.
  rewrite (proj2 (Z.eqb_neq _ 32)), (proj2 (Z.leb_gt _ 13)) by lia.
  rewrite andb_false_r. cbn [orb sign]. rewrite !Hx by (vm_compute; intuition congruence).
  rewrite bool_decide_eq_true_2 by (rewrite digit_digit_char by lia; eauto). rewrite Hdig.
  assert (digits 10 rest n = (n, rest)) as -> by (destruct rest as [|c rest]; cbn [digits]; [done|by rewrite Hr]).
  f_equal. lia.
Qed.
Definition add_flag (fl : create_flags) (f : flag) : create_flags :=
  match f with
  | Ephemeral => mk_flags true (fl_sequential fl) (fl_container fl) (fl_ttl fl) (fl_ttl_value fl)
  | Sequential => mk_flags (fl_ephemeral fl) true (fl_container fl) (fl_ttl fl) (fl_ttl_value fl)
  | Container => mk_flags (fl_ephemeral fl) (fl_sequential fl) true (fl_ttl fl) (fl_ttl_value fl)
  | Ttl n => mk_flags (fl_ephemeral fl) (fl_sequential fl) (fl_container fl) true n
  end.
Lemma print_flags_head fs path :
  match print_flags fs (space :: path) with [] => True | c :: _ => digit 10 c = None end.
Proof. destruct fs as [|[] fs]; done. Qed.
Lemma flags_loop_print fs path fuel fl : Forall good_flag fs → (length fs < fuel)%nat →
  flags_loop fuel (print_flags fs (space :: path)) fl = Ret (inr (foldl add_flag fl fs, space :: path)).
Proof.
  intros Hfs. revert fuel fl. induction Hfs as [|f fs Hf Hfs IH]; intros fuel fl Hfuel.
  - destruct fuel as [|fuel]; [simpl in Hfuel; lia|]. reflexivity.
  - destruct fuel as [|fuel]; [simpl in Hfuel; lia|]. cbn [print_flags foldr]. fold (print_flags fs (space :: path)).
    destruct f as [| | |n]; cbn [print_flag flags_loop foldl add_flag];
      rewrite !isc_spec; rewrite !bool_decide_eq_false_2, ?bool_decide_eq_true_2 by done; try (apply IH; simpl in Hfuel; lia).
    cbn [negb]. rewrite strtol10_decimal by (done || apply print_flags_head).
    rewrite (proj2 (Z.leb_gt n 0)) by (destruct Hf; lia). apply IH. simpl in Hfuel. lia.
Qed.
Lemma decimal_to_length fuel n rest : (length rest ≤ length (decimal_to fuel n rest))%nat.
Proof.
  revert n rest. induction fuel as [|fuel IH]; intros n rest; [done|]. cbn [decimal_to].
  destruct (n <? 10); [simpl; lia|]. etrans; [|apply IH]. simpl. lia.
Qed.
Lemma print_flags_length fs rest : (length fs + length rest ≤ length (print_flags fs rest))%nat.
Proof.
  induction fs as [|f fs IH]; [done|]. cbn [print_flags foldr length]. fold (print_flags fs rest).
  destruct f as [| | |n]; cbn [print_flag length]; try lia.
  pose proof (decimal_to_length 19 n (print_flags fs rest)). lia.
Qed.
Lemma foldl_flags fs fl :
  foldl add_flag fl fs =
    mk_flags (fl_ephemeral fl || bool_decide (Ephemeral ∈ fs)) (fl_sequential fl || bool_decide (Sequential ∈ fs))
      (fl_container fl || bool_decide (Container ∈ fs)) (fl_ttl fl || has_ttl fs)
      (foldl (λ t f, match f with Ttl n => n | _ => t end) (fl_ttl_value fl) fs).
Proof.
  revert fl. induction fs as [|f fs IH]; intros fl.
  - rewrite !bool_decide_eq_false_2 by (intros Hin; inversion Hin). simpl. rewrite !orb_false_r. by destruct fl.
  - cbn [foldl]. rewrite IH.
    assert (∀ g, bool_decide (g ∈ f :: fs) = bool_decide (g = f) || bool_decide (g ∈ fs)) as Hb.
    { intros g. rewrite <- bool_decide_or. apply bool_decide_ext. apply elem_of_cons. }
    rewrite !Hb. destruct f; cbn [add_flag fl_ephemeral fl_sequential fl_container fl_ttl fl_ttl_value has_ttl existsb];
      repeat match goal with
        | |- context [bool_decide (?a = ?b)] =>
            first [rewrite (bool_decide_eq_true_2 (a = b)) by done | rewrite (bool_decide_eq_false_2 (a = b)) by done]
        end;
      cbn [orb]; rewrite ?orb_true_r; done.
Qed.
Lemma mode_of_foldl fs : fs ≠ [] → mode_of_flags (foldl add_flag no_flags fs) = mode_meant fs.
Proof.
  intros Hfs. rewrite foldl_flags. destruct fs as [|f fs]; [done|]. unfold mode_of_flags, mode_meant. cbn [no_flags fl_ephemeral fl_sequential fl_container fl_ttl fl_ttl_value orb].
  by destruct (bool_decide (Ephemeral ∈ f :: fs)), (bool_decide (Sequential ∈ f :: fs)), (bool_decide (Container ∈ f :: fs)), (has_ttl (f :: fs)).
Qed.
Lemma create_arguments_print fs path : absolute path → Forall good_flag fs →
  create_arguments (match fs with [] => path | _ => Byte.x2b :: print_flags fs (space :: path) end) =
    Ret (match mode_meant fs with Some mode => inr (mode, ttl_meant fs, path) | None => inl MMode end).
Proof.
  intros [rest ->] Hfs. destruct (decide (fs = [])) as [->|Hne]; [done|].
  replace (match fs with [] => _ | _ => Byte.x2b :: print_flags fs (space :: slash :: rest) end)
    with (Byte.x2b :: print_flags fs (space :: slash :: rest)) by (by destruct fs).
  unfold create_arguments. rewrite isc_spec, bool_decide_eq_true_2 by done.
  rewrite flags_loop_print by (done || (pose proof (print_flags_length fs (space :: slash :: rest)); lia)).
  cbn [mbind outcome_bind]. rewrite mode_of_foldl by done.
  destruct (mode_meant fs); [|done]. by rewrite foldl_flags.
Qed.

(** *** Lines *)
Lemma attempt_ret {A B} (a : A) (f : A → MC B) : attempt (Ret a) ≫= f = f a.
Proof. reflexivity. Qed.
Lemma bind_assoc {A B C} (m : MC A) (f : A → MC B) (g : B → MC C) c :
  ((m ≫= f) ≫= g) c = (m ≫= (λ a, f a ≫= g)) c.
Proof. unfold mbind, MC_bind. by destruct (m c) as [[]| | |]. Qed.
Lemma bind_eq {A B} (m : MC A) (f g : A → MC B) c : (∀ a c, f a c = g a c) → (m ≫= f) c = (m ≫= g) c.
Proof. intros E. unfold mbind, MC_bind. destruct (m c) as [[]| | |]; [apply E|done..]. Qed.
Lemma bind_run {A B} (m m' : MC A) (f : A → MC B) c : (∀ c, m c = m' c) → (m ≫= f) c = (m' ≫= f) c.
Proof. intros E. unfold mbind, MC_bind. by rewrite E. Qed.
Lemma ret_bind {A B} (a : A) (f : A → MC B) c : (mret a ≫= f) c = f a c.
Proof. reflexivity. Qed.
Lemma absolute_app path rest : absolute path → absolute (path ++ rest).
Proof. intros [r ->]. by exists (r ++ rest). Qed.
Lemma create_command_print two fs path : absolute path → Forall good_flag fs →
  create_command two (match fs with [] => path | _ => Byte.x2b :: print_flags fs (space :: path) end) =
    execute 0 (Create_ two fs path).
Proof.
  intros Hp Hfs. unfold create_command. rewrite create_arguments_print by done. unfold execute. cbn [request_of].
  rewrite attempt_ret. destruct (mode_meant fs) as [mode|]; [|reflexivity]. rewrite on_absolute by done.
  by destruct two.
Qed.
(** *** reconfig *)
Lemma words_word cur w s : Forall (λ c, c ≠ space) w → cur ++ w ≠ [] →
  words cur (w ++ space :: s) = (cur ++ w) :: words [] s ∧ words cur w = [cur ++ w].
Proof.
  intros Hw. revert cur. induction Hw as [|c w Hc _ IH]; intros cur Hne; cbn [app words].
  - rewrite isc_spec, bool_decide_eq_true_2 by done. rewrite app_nil_r in *. by destruct cur.
  - rewrite isc_spec, bool_decide_eq_false_2 by done.
    destruct (IH (cur ++ [c])) as [E1 E2]; [by destruct cur|]. by rewrite E1, E2, <- !app_assoc.
Qed.
Lemma words_unwords ws : Forall is_word ws → words [] (unwords ws) = ws.
Proof.
  induction 1 as [|w ws [Hne Hw] _ IH]; [done|]. destruct (words_word [] w (unwords ws) Hw Hne) as [E1 E2].
  destruct ws as [|w' ws]; [done|].
  change (unwords (w :: w' :: ws)) with (w ++ space :: unwords (w' :: ws)). by rewrite E1, IH.
Qed.
Lemma hex_char_spec d : 0 ≤ d < 16 → digit_in 16 (hex_char d) d ∧ hex_char d ≠ space ∧
  isc (hex_char d) Byte.x78 = false ∧ isc (hex_char d) Byte.x58 = false.
Proof.
  intros Hd. assert (d ∈ [0; 1; 2; 3; 4; 5; 6; 7; 8; 9; 10; 11; 12; 13; 14; 15]) as Hin by (rewrite !elem_of_cons; lia).
  rewrite <- digit_16. rewrite !elem_of_cons, elem_of_nil in Hin. destruct_or! Hin; subst d; try done.
Qed.
Lemma option_is_words o : good_option o → Forall is_word (option_words o).
Proof.
  destruct o as [w|w|w|w|ds]; cbn [good_option option_words]; intros Hw;
    (constructor; [split; [done|]; apply Forall_forall; intros c Hc ->; vm_compute in Hc; set_solver|]);
    (constructor; [|constructor]); try done.
  destruct Hw as [Hne Hds]. split; [by destruct ds|]. apply Forall_fmap. eapply Forall_impl; [exact Hds|].
  intros d Hd. by apply hex_char_spec.
Qed.
(** A version is read back. *)
Lemma strtoull16_hex ds : ds ≠ [] → Forall (λ d, 0 ≤ d < 16) ds →
  strtoull16 (hex_char <$> ds) = if 2 ^ 64 <=? value 16 ds then 2 ^ 64 - 1 else value 16 ds.
Proof.
  intros Hne Hds.
  assert (digits 16 (hex_char <$> ds) 0 = (value 16 ds, [])) as Ed.
  { apply digits_spec; [done|]. exists ds. split; [|done]. apply Forall2_fmap_l, Forall_Forall2_diag.
    eapply Forall_impl; [exact Hds|]. intros d Hd. by apply hex_char_spec. }
  destruct ds as [|d ds]; [done|]. apply Forall_cons in Hds as [Hd Hds]. destruct (hex_char_spec d Hd) as ((Hdd & _) & _).
  destruct (digit_no_prefix (hex_char d) d) as (H1 & H2 & H3); [apply digit_16; split; [done|lia]|].
  rewrite fmap_cons in *. unfold strtoull16. cbn [skip_space]. rewrite H1. cbn [sign]. rewrite H2, H3.
  destruct ds as [|x ds]; [cbn [fmap list_fmap] in *; by rewrite Ed|].
  apply Forall_cons in Hds as [Hx Hds]. destruct (hex_char_spec x Hx) as (_ & _ & Hx1 & Hx2).
  rewrite fmap_cons in *. rewrite Hx1, Hx2, andb_false_r. cbn [andb]. destruct (hex_char <$> ds); by rewrite Ed.
Qed.
Lemma value_nonneg ds acc : 0 ≤ acc → Forall (λ d, 0 ≤ d < 16) ds → 0 ≤ foldl (λ n d, 16 * n + d) acc ds.
Proof. intros Ha Hds. revert acc Ha. induction Hds as [|d ds Hd _ IH]; intros acc Ha; [done|]. apply IH. lia. Qed.
Lemma version_read ds : ds ≠ [] → Forall (λ d, 0 ≤ d < 16) ds →
  (wrap_s 64 (strtoull16 (hex_char <$> ds)) <? 0) = (2 ^ 63 <=? value 16 ds) ∧
  (value 16 ds < 2 ^ 63 → wrap_s 64 (strtoull16 (hex_char <$> ds)) = value 16 ds ∧ 0 ≤ value 16 ds).
Proof.
  intros Hne Hds. rewrite strtoull16_hex by done. pose proof (value_nonneg ds 0 ltac:(lia) Hds) as Hv. fold (value 16 ds) in Hv.
  destruct (Z.leb_spec (2 ^ 64) (value 16 ds)) as [H1|H1].
  - split; [|lia]. symmetry. apply Z.leb_le. lia.
  - destruct (Z.leb_spec (2 ^ 63) (value 16 ds)) as [H2|H2].
    + split; [|lia]. apply Z.ltb_lt. unfold wrap_s. rewrite <- (Z_mod_plus_full _ (-1)), Z.mod_small by lia. lia.
    + rewrite wrap_s_id by (unfold in_s; lia). split; [apply Z.ltb_ge; lia|lia].
Qed.

(** The loop over the words reads the options. *)
Definition take_option (a : reconfig_args) (x : reconfig_option * option cstring) : reconfig_args :=
  let '(o, t) := x in
  match o with
  | Add _ => mk_args 1 t (ra_leaving a) (ra_members a) (ra_version a)
  | Remove _ => mk_args 1 (ra_joining a) t (ra_members a) (ra_version a)
  | Members _ | File _ => mk_args 2 (ra_joining a) (ra_leaving a) t (ra_version a)
  | Version ds => mk_args (ra_mode a) (ra_joining a) (ra_leaving a) (ra_members a) (value 16 ds)
  end.
Definition agrees (before : list reconfig_option) (a : reconfig_args) : Prop :=
  (ra_mode a =? 2) = existsb complete before ∧ (ra_mode a =? 1) = existsb incremental before ∧
  (ra_version a =? -1) = negb (existsb versioned before).
Lemma agrees_next before a o t : agrees before a → good_option o → clashes before o = false →
  agrees (before ++ [o]) (take_option a (o, t)).
Proof.
  intros (H1 & H2 & H3) Ho Hc. unfold agrees. rewrite !existsb_app.
  destruct o as [w|w|w|w|ds]; cbn [clashes] in Hc; cbn [take_option ra_mode ra_version existsb complete incremental versioned];
    rewrite ?orb_false_r, ?orb_true_r; try (by rewrite ?H1, ?H2, ?H3, ?Hc).
  apply orb_false_iff in Hc as [Hc Hv]. split_and!; [done|done|]. apply Z.eqb_neq.
  destruct Ho as [Hne Hds]. destruct (version_read ds Hne Hds) as [_ Hr]. apply Z.leb_gt in Hv. lia.
Qed.
Lemma reconfig_loop_read os : ∀ before a c, Forall good_option os → agrees before a →
  reconfig_loop files (os ≫= option_words) a c =
    (texts ← read_options before os; mret (foldl take_option a <$> texts)) c.
Proof.
  induction os as [|o os IH]; intros before a c Hos Ha; [done|]. apply Forall_cons in Hos as [Ho Hos].
  pose proof Ha as (H1 & H2 & H3). pose proof (λ t, agrees_next before a o t Ha Ho) as Hn.
  assert (∀ (t : option cstring) c, clashes before o = false →
    reconfig_loop files (os ≫= option_words) (take_option a (o, t)) c =
      (texts ← (rest ← read_options (before ++ [o]) os; mret (cons (o, t) <$> rest));
       mret (foldl take_option a <$> texts)) c) as Hgo.
  { intros t c' Hc. rewrite (IH (before ++ [o])) by auto. unfold mbind, MC_bind.
    by destruct (read_options (before ++ [o]) os c') as [[[ts|] c'']| | |]. }
  change ((o :: os) ≫= option_words) with (option_words o ++ (os ≫= option_words)). cbn [read_options].
  destruct o as [w|w|w|w|ds]; cbn [option_words app reconfig_loop clashes read_option] in *;
    repeat match goal with
      | |- context [bool_decide (lit ?x = lit ?y)] =>
          first [rewrite (bool_decide_eq_true_2 (lit x = lit y)) by done
                |rewrite (bool_decide_eq_false_2 (lit x = lit y)) by done]
      end.
  1, 2: rewrite H1; destruct (existsb complete before); [done|].
  3, 4: rewrite H2; destruct (existsb incremental before); [done|].
  1, 2, 3: rewrite !bind_assoc; apply bind_eq; intros t c'; apply Hgo; reflexivity.
  - destruct (files w) as [contents|]; [|reflexivity].
    rewrite !bind_assoc. apply bind_eq. intros [] c'; [|reflexivity].
    destruct contents; [reflexivity|]. by apply Hgo.
  - rewrite H3, negb_involutive. destruct (existsb versioned before); [done|]. destruct Ho as [Hne Hds].
    destruct (version_read ds Hne Hds) as [-> Hr]. cbn [orb] in *. destruct (Z.leb_spec (2 ^ 63) (value 16 ds)); [done|].
    rewrite (proj1 (Hr ltac:(lia))). by apply (Hgo None).
Qed.
Lemma take_options ts a :
  let a' := foldl take_option a ts in
  ra_joining a' = foldl (λ t '(o, t'), if is_add o then t' else t) (ra_joining a) ts ∧
  ra_leaving a' = foldl (λ t '(o, t'), if is_remove o then t' else t) (ra_leaving a) ts ∧
  ra_members a' = foldl (λ t '(o, t'), if complete o then t' else t) (ra_members a) ts ∧
  ra_version a' = foldl (λ v o, match o with Version ds => value 16 ds | _ => v end) (ra_version a) ts.*1.
Proof. revert a. induction ts as [|[[] t] ts IH]; intros a; [done|apply IH..]. Qed.
Lemma strdup_bind {B} line (f g : option cstring → MC B) c :
  (∀ c, f (Some line) c = g (Some line) c) → (∀ c, f None c = g None c) →
  (strdup_string line ≫= f) c = (strdup_string line ≫= g) c.
Proof.
  intros H1 H2. unfold strdup_string, library, sess, allocating, strdup, mbind, MC_bind. cbn [mbind outcome_bind].
  destruct (alloc _) as [[] o]; cbn [mbind outcome_bind]; auto.
Qed.
Lemma reconfig_command_print old os c : Forall good_option os →
  reconfig_command files (print_options os) c = execute old (Reconfig_ os) c.
Proof.
  intros Hos. unfold reconfig_command. cbn [execute]. apply strdup_bind; clear c; intros c; [|reflexivity].
  assert (words [] (print_options os) = os ≫= option_words) as ->
    by (apply words_unwords;
        apply Forall_bind; eapply Forall_impl; [exact Hos|]; apply option_is_words).
  rewrite (bind_run _ _ _ _ (λ c, reconfig_loop_read os [] (mk_args 0 None None None (-1)) c Hos (conj eq_refl (conj eq_refl eq_refl)))), bind_assoc.
  apply bind_eq. intros [ts|] c'; [|reflexivity]. rewrite ret_bind. cbn [fmap option_fmap option_map].
  destruct (take_options ts (mk_args 0 None None None (-1))) as (-> & -> & -> & ->). reflexivity.
Qed.
Ltac runs m :=
  transitivity m; [reflexivity|];
  cbv beta delta [get_command ls_command ls2_command delete_command sync_command wexists_command exists_command];
  rewrite on_absolute by done; reflexivity.
Lemma processline_print old c s : well_formed c → processline files hostPort old (print c) s = execute old c s.
Proof.
  destruct c as [| | | | | |scheme cert|os|path|path value|path|path|two fs path|path|path|path|path|];
    cbn [well_formed]; intros Hp.
  1, 2, 4, 5: reflexivity.
  - transitivity (myid_command s); [reflexivity|]. unfold myid_command, with_zh. rewrite bind_assoc.
    apply bind_eq. by intros [] c'.
  - transitivity (od_command s); reflexivity.
  - transitivity (addauth_command old (scheme ++ match cert with None => [] | Some cert => space :: cert end) s);
      [reflexivity|]. unfold addauth_command. cbn [execute]. unfold call. rewrite bind_assoc.
    destruct cert as [cert|]; [rewrite cut_at_first by done|rewrite app_nil_r, cut_at_none by done];
      apply bind_eq; by intros [] c'.
  - transitivity (reconfig_command files (print_options os) s); [reflexivity|]. by apply reconfig_command_print.
  - runs (get_command path s).
  - transitivity (set_command (path ++ space :: value) s); [reflexivity|]. destruct Hp as [Hp Hs].
    unfold set_command. rewrite on_absolute by (by apply absolute_app). rewrite cut_at_first by done. reflexivity.
  - runs (ls_command path s).
  - runs (ls2_command path s).
  - transitivity (execute 0 (Create_ two fs path) s); [|reflexivity]. rewrite <- create_command_print by apply Hp.
    destruct two; reflexivity.
  - runs (delete_command path s).
  - runs (sync_command path s).
  - runs (wexists_command path s).
  - runs (exists_command path s).
  - reflexivity.
Qed.
Lemma processline_async old c : processline files hostPort old (Byte.x61 :: print c) = processline files hostPort old (print c).
Proof. destruct c as [| | | | | | | | | | | |[]| | | | |]; reflexivity. Qed.

(** *** Termination *)
Lemma digits_shorter base s n : (length (digits base s n).2 ≤ length s)%nat.
Proof.
  revert n. induction s as [|c s IH]; intros n; cbn [digits]; [done|]. destruct (digit base c); [|done].
  etrans; [apply IH|]. simpl. lia.
Qed.
Lemma skip_space_shorter s : (length (skip_space s) ≤ length s)%nat.
Proof. induction s as [|c s IH]; cbn [skip_space]; [done|]. destruct (isspace c); simpl; lia. Qed.
Lemma sign_shorter s : (length (sign s).2 ≤ length s)%nat.
Proof. unfold sign. destruct s as [|c s]; [done|]. repeat case_match; simpl; lia. Qed.
Lemma strtol10_shorter s : (length (strtol10 s).2 ≤ length s)%nat.
Proof.
  unfold strtol10. pose proof (sign_shorter (skip_space s)) as Hs. pose proof (skip_space_shorter s) as Hk.
  destruct (sign (skip_space s)) as [neg s'] eqn:E. destruct s' as [|c s']; [done|]. case_bool_decide; [|done].
  pose proof (digits_shorter 10 (c :: s') 0) as Hd. destruct (digits 10 (c :: s') 0) as [n e]. cbn [snd] in *. lia.
Qed.
(** The loop over the flags ends on every text. *)
Lemma flags_loop_halts fuel line fl : (length line < fuel)%nat → flags_loop fuel line fl ≠ Loop.
Proof.
  revert line fl. induction fuel as [|fuel IH]; intros line fl Hl; [lia|]. cbn [flags_loop].
  destruct line as [|c rest]; [done|]. cbn [length] in Hl. 
  repeat match goal with |- (if ?b then _ else _) ≠ _ => destruct b end; try done; try (apply IH; lia).
  destruct rest as [|e rest]; [done|]. destruct (negb (isc e Byte.x3d)); [done|].
  pose proof (strtol10_shorter rest) as Hd. destruct (strtol10 rest) as [value rest'].
  destruct (value <=? 0); [done|]. apply IH. simpl in *. lia.
Qed.

(** *** Input *)
Definition newline : byte := Byte.x0a.
(** The complete lines of a text and what follows the last newline. *)
Fixpoint split_lines (s : cstring) : list cstring * cstring :=
  match s with
  | [] => ([], [])
  | c :: s =>
      let '(ls, r) := split_lines s in
      if isc c newline then ([] :: ls, r)
      else match ls with [] => ([], c :: r) | l :: ls => ((c :: l) :: ls, r) end
  end.
Fixpoint run_lines (old : Z) (ls : list cstring) : MC () :=
  match ls with
  | [] => mret ()
  | l :: ls => processline files hostPort old l;; run_lines old ls
  end.
(** The buffer holds text that has arrived and is no complete line. *)
Definition pending (i : input) : cstring := take (Z.to_nat (in_bufoff i)) (in_buffer i).
Definition wf_input (i : input) : Prop :=
  Z.of_nat (length (in_buffer i)) = BUFFER_SIZE ∧ 0 ≤ in_bufoff i < BUFFER_SIZE ∧
  Forall (λ b, b ≠ Byte.x00 ∧ b ≠ newline) (pending i).
Lemma split_lines_cut s :
  split_lines s = match cut_at newline s with
                  | None => ([], s)
                  | Some (l, s') => (l :: (split_lines s').1, (split_lines s').2)
                  end.
Proof.
  induction s as [|c s IH]; [done|]. cbn [split_lines cut_at]. destruct (isc c newline).
  - by destruct (split_lines s).
  - rewrite IH. by destruct (cut_at newline s) as [[l s']|].
Qed.
Lemma cut_at_app s l s' : cut_at newline s = Some (l, s') → s = l ++ newline :: s'.
Proof.
  revert l. induction s as [|c s IH]; intros l; cbn [cut_at]; [done|]. destruct (isc c newline) eqn:E.
  - intros [= <- <-]. rewrite isc_spec in E. by apply bool_decide_eq_true in E as ->.
  - destruct (cut_at newline s) as [[l' r]|]; [|done]. intros [= <- <-]. by rewrite (IH l').
Qed.
Lemma c_str_app s junk : no_nul s → c_str (s ++ Byte.x00 :: junk) = s.
Proof. induction 1 as [|c s Hc _ IH]; cbn [c_str app]; [done|]. rewrite decide_False by done. by f_equal. Qed.
Lemma copy_front buffer src : (length src ≤ length buffer)%nat →
  copy_to buffer 0 src = Ret (src ++ drop (length src) buffer).
Proof. intros Hl. pose proof (copy_to_next [] buffer 0 src eq_refl Hl) as E. by rewrite app_nil_l in E. Qed.
Lemma lines_loop_runs fuel old : ∀ s junk off, (length s < fuel)%nat → no_nul s →
  let i := mk_input (s ++ Byte.x00 :: junk) off in
  ∃ i', length (in_buffer i') = length (in_buffer i) ∧
    ((split_lines s).1 = [] → i' = i) ∧ ((split_lines s).1 ≠ [] → in_bufoff i' = 0) ∧
    ∀ c, lines_loop files hostPort fuel old i c = (run_lines old (split_lines s).1;; mret i') c.
Proof.
  induction fuel as [|fuel IH]; intros s junk off Hf Hs i; [lia|].
  destruct (cut_at newline s) as [[l s']|] eqn:E.
  - pose proof (cut_at_app _ _ _ E) as ->. rewrite split_lines_cut, E. cbn [fst].
    rewrite length_app in Hf. cbn [length] in Hf.
    assert (length (s' ++ [Byte.x00]) ≤ length (in_buffer i))%nat as Hl
      by (subst i; cbn [in_buffer]; rewrite !length_app; cbn [length]; lia).
    pose proof Hs as [_ [_ Hs']%Forall_cons]%Forall_app.
    destruct (IH s' (drop (length (s' ++ [Byte.x00])) (in_buffer i)) 0 ltac:(lia) Hs') as (i' & Hb & Hi1 & Hi2 & Hrun).
    exists i'. split_and!; [|done| |].
    + rewrite Hb. cbn [in_buffer]. rewrite length_app. cbn [length]. rewrite length_drop.
      rewrite length_app in Hl |- *. cbn [length] in *. lia.
    + intros _. destruct (decide ((split_lines s').1 = [])) as [En|En]; [by rewrite (Hi1 En)|by apply Hi2].
    + intros c. cbn [lines_loop run_lines]. subst i. cbn [in_buffer] in *. rewrite c_str_app by done.
      fold newline. rewrite E. rewrite bind_assoc. apply bind_eq. intros [] c'.
      rewrite copy_front by done. rewrite attempt_ret. rewrite <- app_assoc. apply Hrun.
  - exists i. rewrite split_lines_cut, E. cbn [fst]. split_and!; [done|done|done|]. intros c. cbn [lines_loop].
    subst i. cbn [in_buffer]. rewrite c_str_app by done. fold newline. by rewrite E.
Qed.

(** What one read brings: the complete lines of what is pending and what is read run in
    order; without one all of it stays pending, with one nothing does. *)
Definition read_meant (old : Z) (answer : list byte) (i i' : input) (c : cli) : outcome (round * cli) :=
  if in_bufoff i =? BUFFER_SIZE - 1 then (say MTooLong;; mret (Exit 2)) c else
  match answer with
  | [] => (say MBye;; mret Bye) c
  | _ => (run_lines old (split_lines (pending i ++ answer)).1;; mret (Reading i')) c
  end.
Lemma no_lines s : (split_lines s).1 = [] ↔ Forall (λ b, b ≠ newline) s.
Proof.
  induction s as [|x s IH]; cbn [split_lines]; [split; auto|]. destruct (split_lines s) as [ls r] eqn:E. cbn [fst] in IH.
  rewrite isc_spec, Forall_cons. case_bool_decide; [naive_solver|]. destruct ls; cbn [fst]; naive_solver.
Qed.
Lemma filled_buffer i chunk : wf_input i → in_bufoff i + Z.of_nat (length chunk) < BUFFER_SIZE →
  ∃ junk, (buffer ← copy_to (in_buffer i) (in_bufoff i) chunk;
           copy_to buffer (in_bufoff i + Z.of_nat (length chunk)) [Byte.x00]) =
            Ret ((pending i ++ chunk) ++ Byte.x00 :: junk) ∧
          length ((pending i ++ chunk) ++ Byte.x00 :: junk) = length (in_buffer i).
Proof.
  intros (Hb & Ho & _) Hc. set (rest := drop (Z.to_nat (in_bufoff i)) (in_buffer i)).
  assert (in_buffer i = pending i ++ rest) as Ei by (symmetry; apply take_drop).
  assert (in_bufoff i = Z.of_nat (length (pending i))) as Eo by (unfold pending; rewrite length_take; lia).
  assert (length (in_buffer i) = length (pending i) + length rest)%nat as El by (by rewrite Ei, length_app at 1).
  exists (drop 1 (drop (length chunk) rest)). rewrite Ei at 1.
  rewrite copy_to_next by lia. cbn [mbind outcome_bind].
  rewrite copy_to_next by (rewrite ?length_app, ?length_drop; cbn [length]; lia). cbn [length].
  split; [by rewrite <- app_assoc|]. rewrite !length_app. cbn [length]. rewrite !length_drop. lia.
Qed.
Lemma read_round_runs old answer i : wf_input i → no_nul answer → answer ≠ [] →
  in_bufoff i + Z.of_nat (length answer) < BUFFER_SIZE →
  ∃ i', wf_input i' ∧
    pending i' = (if bool_decide (newline ∈ answer) then [] else pending i ++ answer) ∧
    ∀ c, read_round files hostPort old answer i c =
      (run_lines old (split_lines (pending i ++ answer)).1;; mret (Reading i')) c.
Proof.
  intros Hi Ha Hne Hl. destruct (filled_buffer i answer Hi Hl) as (junk & Ef & El). destruct Hi as (Hb & Ho & Hp).
  assert (no_nul (pending i ++ answer)) as Hn
    by (apply Forall_app; split; [by eapply Forall_impl; [exact Hp|intros b []]|done]).
  assert ((split_lines (pending i ++ answer)).1 = [] ↔ newline ∉ answer) as Hlines.
  { rewrite no_lines, Forall_app, !Forall_forall. rewrite Forall_forall in Hp. set_solver. }
  assert (1 ≤ Z.of_nat (length answer) ≤ BUFFER_SIZE - in_bufoff i - 1) as Hroom by (destruct answer; [done|simpl in *; lia]).
  set (off := in_bufoff i + Z.of_nat (length answer)) in *.
  assert (length (pending i ++ answer) = Z.to_nat off)%nat as Ht
    by (rewrite length_app; unfold pending; rewrite length_take; lia).
  assert (pending (mk_input ((pending i ++ answer) ++ Byte.x00 :: junk) off) = pending i ++ answer) as Ep
    by (unfold pending at 1; cbn [in_buffer in_bufoff]; by rewrite <- Ht, take_app_length).
  destruct (lines_loop_runs (S (Z.to_nat BUFFER_SIZE)) old (pending i ++ answer) junk off) as (i' & Hlen & H1 & H2 & Hrun);
    [lia|done|]. cbn [in_buffer] in Hlen. rewrite El in Hlen.
  exists i'. split; [|split].
  - destruct (decide (newline ∈ answer)) as [Hin|Hin].
    + assert (in_bufoff i' = 0) as E0 by (apply H2; naive_solver). unfold wf_input, pending. rewrite E0.
      rewrite Hlen. split_and!; [done|done|done|constructor].
    + rewrite (H1 (proj2 Hlines Hin)). unfold wf_input. rewrite Ep. cbn [in_buffer in_bufoff].
      rewrite El. split_and!; [done|lia|done|].
      apply Forall_app. split; [done|]. unfold no_nul in Ha. rewrite Forall_forall in Ha |- *.
      intros b Hb'. split; [by apply Ha|]. by intros ->.
  - case_bool_decide as Hin.
    + unfold pending. rewrite H2; [done|naive_solver].
    + rewrite (H1 (proj2 Hlines Hin)). apply Ep.
  - intros c. unfold read_round. rewrite (proj2 (Z.leb_gt _ 0)) by lia.
    rewrite take_ge by lia. rewrite (proj2 (Z.leb_gt _ 0)) by lia.
    revert Ef. destruct (copy_to (in_buffer i) (in_bufoff i) answer) as [buffer| | |]; try done.
    cbn [mbind outcome_bind]. intros Ef. rewrite !attempt_ret. fold off. rewrite Ef, attempt_ret.
    etrans; [by apply (bind_run _ _ _ _ Hrun)|]. by rewrite bind_assoc.
Qed.

(** C34. A line that is a command as it is written does what the command says; every
    command of the client is covered.  A request is made with the given path and value,
    for [create] with the mode and the ttl the flags mean together (or their combination
    is refused and no request is made), for [reconfig] with the last servers, members and
    version given (and nothing is sent if options clash or a file cannot be read); a copy
    of the text goes to the completion, and a refusal by the library is printed.  The
    letter [a] before a command makes no difference: every request of the client is
    asynchronous, although the help text reserves that for the prefix.  The loop over the
    flags ends on every text. *)
Theorem processline_correct old :
  (∀ c s, well_formed c →
     processline files hostPort old (print c) s = execute old c s ∧
     processline files hostPort old (Byte.x61 :: print c) s = execute old c s) ∧
  (∀ line, create_arguments line ≠ Loop).
Proof.
  split.
  - intros c s Hc. rewrite processline_async. split; by apply processline_print.
  - intros line. unfold create_arguments. destruct line as [|x rest]; [done|]. destruct (isc x Byte.x2b); [|done].
    pose proof (flags_loop_halts (S (length rest)) rest no_flags ltac:(lia)) as Hl.
    destruct (flags_loop (S (length rest)) rest no_flags) as [[m|[fl l]]| | |]; try done.
    cbn [mbind outcome_bind]. by destruct (mode_of_flags fl).
Qed.

(** C38. One read of the input, however the text is cut: the complete lines of what was
    pending and what is read run in order; a read that holds no newline is kept, so that a
    line may arrive in pieces, but once a line has run nothing is kept, so the start of a
    line read behind a complete one is lost.  The end of the input ends the client, and
    so does a line that fills the buffer. *)
Theorem lines_read old answer i : wf_input i → no_nul answer →
  in_bufoff i + Z.of_nat (length answer) < BUFFER_SIZE →
  ∃ i', wf_input i' ∧ pending i' = (if bool_decide (newline ∈ answer) then [] else pending i ++ answer) ∧
    ∀ c, read_round files hostPort old answer i c = read_meant old answer i i' c.
Proof.
  intros Hi Ha Hl. destruct (decide (answer = [])) as [->|Hne].
  - exists i. split_and!; [done|by rewrite app_nil_r|]. intros c. unfold read_round, read_meant. rewrite take_nil.
    destruct Hi as (_ & Ho & _). destruct (Z.eqb_spec (in_bufoff i) (BUFFER_SIZE - 1)) as [E|E].
    + rewrite (proj2 (Z.leb_le _ 0)) by lia. reflexivity.
    + rewrite (proj2 (Z.leb_gt _ 0)) by lia. reflexivity.
  - destruct (read_round_runs old answer i Hi Ha Hne Hl) as (i' & Hi' & Hp & Hr). exists i'. split_and!; [done..|].
    intros c. rewrite Hr. unfold read_meant. destruct answer as [|b answer]; [done|]. cbn [length] in Hl.
    by rewrite (proj2 (Z.eqb_neq _ _)) by lia.
Qed.
End commands.

(** ** Samples *)
Definition sample_cli : cli := mk_cli sample_created true ∅ 1 false false [].
Definition no_files : cstring → option (list byte) := λ _, None.
Definition printed {A} (m : outcome (A * cli)) : option (list message) :=
  match m with Ret (_, c) => Some (cl_messages c) | _ => None end.
Lemma processline_correct_witness :
  printed (@processline sample_host zero_locals no_files None 0 (lit "acreate2 +st=60000 /a") sample_cli) =
    Some [MCreating (lit "/a") ZOO_PERSISTENT_SEQUENTIAL_WITH_TTL].
Proof.
  destruct (@processline_correct sample_host zero_locals no_files None 0) as [Hp _].
  destruct (Hp (Create_ true [Sequential; Ttl 60000] (lit "/a")) sample_cli) as [_ E].
  - split; [by exists (lit "a")|]. repeat constructor; vm_compute; congruence.
  - replace (lit "acreate2 +st=60000 /a")
      with (Byte.x61 :: print (Create_ true [Sequential; Ttl 60000] (lit "/a"))) by reflexivity.
    rewrite E. vm_compute. reflexivity.
Defined.
(** Two lines, the second without its end yet: the second is lost. *)
Definition sample_input : input := mk_input (replicate 4096 Byte.x00) 0.
Lemma lines_read_witness :
  ∃ i', pending i' = [] ∧
    ∀ c, @read_round sample_host zero_locals no_files None 0 (lit "myid" ++ newline :: lit "ls /") sample_input c =
      (@processline sample_host zero_locals no_files None 0 (lit "myid");; mret ();; mret (Reading i')) c.
Proof.
  destruct (@lines_read sample_host zero_locals no_files None 0 (lit "myid" ++ newline :: lit "ls /") sample_input)
    as (i' & _ & Hp & Hr); [vm_compute; split_and!; (reflexivity || discriminate || constructor)| |reflexivity|].
  - repeat constructor; discriminate.
  - exists i'. split; [exact Hp|]. intros c. rewrite Hr. exact (bind_assoc _ _ _ _).
Defined.
