(* ===== verification/Zookbag.v ===== *)
(** * The wrapper of the client library

    ZOOK_MS/zookbag.cpp and zookbag.h: the class [zookbag], which keeps a session and turns
    the synchronous calls of the library into methods that throw, and [zk_watcher], which
    the library calls for events.  The program is C++ with threads of the library around
    it, so a method is a tree of the calls it makes and of the reads and writes of the
    fields of its object: between any two of them another thread may run.  Memory for C++
    strings is taken to suffice; what is printed and logged is left out. *)

From S2P Require Import Prelude RecordIO Jute Path Watchers Addrvec Hosts Handshake Transport Handle.
From S2P Require Import Session Requests Interest Init Sync Threads Cli.
Local Open Scope Z_scope.

Abbreviation ZNOAUTH := (-102).
Abbreviation ZNODEEXISTS := (-110).
Abbreviation ZNOTEMPTY := (-111).
Abbreviation ZINVALIDACL := (-114).
Abbreviation EINVAL := 22.
Abbreviation AF_INET := 2.
Abbreviation AF_INET6 := 23.

(** ** Programs *)

(** The calls of the library and of the system.  [CStopped] reads the volatile [_stop]. *)
Inductive call :=
  | CSync (r : sync_request)
  | CInit (nodes : cstring) (recv_timeout : Z) (clientid : bool)
  | CClose
  | CState
  | CRecvTimeout
  | CClientId
  | CConnectedHost
  | CTime
  | CSleep (ms : Z)
  | CStopped
  | COpen (file : cstring)
  | CWrite (data : list byte)
  | CCloseFile.
(** What they return: [zookeeper_init] a handle or [errno]; [zookeeper_get_connected_host]
    NULL or the family and the port as it is stored; the functions on files [errno] if they
    fail. *)
Definition answer (c : call) : Type :=
  match c with
  | CSync _ => Z * sync_result
  | CInit _ _ _ => option Z
  | CClose | CState | CRecvTimeout | CTime => Z
  | CClientId | CSleep _ => ()
  | CConnectedHost => option (Z * Z)
  | CStopped => bool
  | COpen _ | CCloseFile => option Z
  | CWrite _ => Z * Z
  end.
(** [CException], the exception of type int, and the one [resize] throws. *)
Inductive exn :=
  | CException (errmsg : cstring) (errcode : Z)
  | IntException (i : Z)
  | LengthError.

(** The fields of an object: whether [_zk_clientid] and [_zk_handle] are not NULL, and
    the rest as it is. *)
Record zookbag := mk_zookbag {
  _zk_clientid : bool;
  _zk_handle : bool;
  _zk_nodes : cstring;
  _expected_session_timeout_seconds : Z;
  _physical_session_timeout_seconds : Z;
  _start_connect_time : Z;
}.
Definition new_zookbag : zookbag := mk_zookbag false false [] 10 0 0.
Definition set_clientid (x : bool) (z : zookbag) : zookbag :=
  mk_zookbag x (_zk_handle z) (_zk_nodes z) (_expected_session_timeout_seconds z)
    (_physical_session_timeout_seconds z) (_start_connect_time z).
Definition set_handle (x : bool) (z : zookbag) : zookbag :=
  mk_zookbag (_zk_clientid z) x (_zk_nodes z) (_expected_session_timeout_seconds z)
    (_physical_session_timeout_seconds z) (_start_connect_time z).
Definition set_nodes (nodes : cstring) (timeout : Z) (z : zookbag) : zookbag :=
  mk_zookbag (_zk_clientid z) (_zk_handle z) nodes timeout
    (_physical_session_timeout_seconds z) (_start_connect_time z).
Definition set_physical (x : Z) (z : zookbag) : zookbag :=
  mk_zookbag (_zk_clientid z) (_zk_handle z) (_zk_nodes z) (_expected_session_timeout_seconds z)
    x (_start_connect_time z).
Definition set_start (x : Z) (z : zookbag) : zookbag :=
  mk_zookbag (_zk_clientid z) (_zk_handle z) (_zk_nodes z) (_expected_session_timeout_seconds z)
    (_physical_session_timeout_seconds z) x.

Inductive prog (A : Type) :=
  | Done (a : A)
  | Throw (e : exn)
  | Undefined
  | Lib (c : call) (k : answer c → prog A)
  | Get (k : zookbag → prog A)
  | Put (f : zookbag → zookbag) (k : prog A).
Arguments Done {A} a.
Arguments Throw {A} e.
Arguments Undefined {A}.
Arguments Lib {A} c k.
Arguments Get {A} k.
Arguments Put {A} f k.
Fixpoint prog_bind {A B} (f : A → prog B) (p : prog A) : prog B :=
  match p with
  | Done a => f a
  | Throw e => Throw e
  | Undefined => Undefined
  | Lib c k => Lib c (λ x, prog_bind f (k x))
  | Get k => Get (λ z, prog_bind f (k z))
  | Put g k => Put g (prog_bind f k)
  end.
Global Instance prog_mret : MRet prog := λ A a, Done a.
Global Instance prog_mbind : MBind prog := λ A B f p, prog_bind f p.
(** [try { p } catch (int i) { h }] *)
Fixpoint catch_int {A} (p : prog A) (h : Z → prog A) : prog A :=
  match p with
  | Throw (IntException i) => h i
  | Throw e => Throw e
  | Done a => Done a
  | Undefined => Undefined
  | Lib c k => Lib c (λ x, catch_int (k x) h)
  | Get k => Get (λ z, catch_int (k z) h)
  | Put g k => Put g (catch_int k h)
  end.
Definition lib (c : call) : prog (answer c) := Lib c Done.
Definition field {A} (f : zookbag → A) : prog A := Get (λ z, Done (f z)).
Definition assign (f : zookbag → zookbag) : prog () := Put f (Done ()).
(** A call with [_zk_handle] that dereferences NULL. *)
Definition with_handle (c : call) : prog (answer c) :=
  handle ← field _zk_handle; if handle : bool then lib c else Undefined.
(** The synchronous calls of the class.  [zoo_get], [zoo_exists] and [zoo_get_children]
    read the watcher of the handle first; the others have the handle tested when their
    request is made up, in [Request_path_init]. *)
Definition tests_handle (r : sync_request) : bool :=
  match r with
  | SCreate _ _ _ _ _ _ _ | SDelete _ _ | SSet _ _ _ _ | SSet2 _ _ _ _ _ | SGetAcl _ _ _ | SSetAcl _ _ _ => true
  | _ => false
  end.
Definition sync (r : sync_request) : prog (Z * sync_result) :=
  handle ← field _zk_handle;
  if handle : bool then lib (CSync r)
  else if tests_handle r then Done (ZBADARGUMENTS, mk_sync_result None None None None None) else Undefined.

(** ** Error texts *)
Section texts.
Context (strerror : Z → cstring).
Definition zerror_text (c : Z) : option string :=
  match c with
  | 0 => Some "ok"
  | -1 => Some "system error"
  | -2 => Some "run time inconsistency"
  | -3 => Some "data inconsistency"
  | -4 => Some "connection loss"
  | -5 => Some "marshalling error"
  | -6 => Some "unimplemented"
  | -7 => Some "operation timeout"
  | -8 => Some "bad arguments"
  | -9 => Some "invalid zhandle state"
  | -13 => Some "no quorum of new config is connected and up-to-date with the leader of last commmitted config - try invoking reconfiguration after new servers are connected and synced"
  | -14 => Some "Another reconfiguration is in progress -- concurrent reconfigs not supported (yet)"
  | -100 => Some "api error"
  | -101 => Some "no node"
  | -102 => Some "not authenticated"
  | -103 => Some "bad version"
  | -108 => Some "no children for ephemerals"
  | -110 => Some "node exists"
  | -111 => Some "not empty"
  | -112 => Some "session expired"
  | -113 => Some "invalid callback"
  | -114 => Some "invalid acl"
  | -115 => Some "authentication failed"
  | -116 => Some "zookeeper is closing"
  | -117 => Some "(not error) no server responses to process"
  | -118 => Some "session moved to another server, so operation is ignored"
  | -119 => Some "state-changing request is passed to read-only server"
  | -120 => Some "attempt to create ephemeral node on a local session"
  | -121 => Some "the watcher couldn't be found"
  | -123 => Some "attempts to perform a reconfiguration operation when reconfiguration feature is disable"
  | _ => None
  end%string.
Definition zerror (c : Z) : cstring :=
  match zerror_text c with
  | Some s => lit s
  | None => if 0 <? c then strerror c else lit "unknown error"
  end.
(** [FormatString] of two texts: before, between and after them what the format has. *)
Definition FormatString (a x b y : cstring) : cstring := a ++ x ++ b ++ y.
Definition THROW_EXCEPTION {A} (errmsg : cstring) (errcode : Z) : prog A := Throw (CException errmsg errcode).
(** The exception of a failed operation on a path. *)
Definition failed {A} (what : string) (path : cstring) (then_ : string) (errcode : Z) : prog A :=
  THROW_EXCEPTION (FormatString (lit what) path (lit then_) (zerror errcode)) errcode.

(** ** Methods *)

(** [std::string::resize]; a negative int becomes a size no string has. *)
Definition resize (n : Z) (s : list byte) : prog (list byte) :=
  if n <? 0 then Throw LengthError
  else Done (take (Z.to_nat n) s ++ replicate (Z.to_nat n - length s) Byte.x00).
Definition bool_int (b : bool) : Z := if b then 1 else 0.

(** [get_zk_data(zk_path, zk_data, ...)]: the size of the data of the node, and the string
    behind [zk_data]. *)
Definition get_zk_data (zk_path : cstring) (zk_data : list byte) (data_size : Z) (keep_watch : bool)
    : prog (Z * list byte) :=
  let data_size_ := if data_size <? 1 then 1 else data_size in
  zk_data ← resize data_size_ zk_data;
  '(errcode, r) ← sync (SGet (Some zk_path) (bool_int keep_watch) (Some zk_data) (Some data_size_) true);
  if errcode =? ZOK then
    match sr_mem r, sr_len r, sr_stat r with
    | Some zk_data, Some datalen, Some stat =>
        zk_data ← resize datalen zk_data; Done (Stat_dataLength stat, zk_data)
    | _, _, _ => Undefined
    end
  else failed "get path://" zk_path " data failed: " errcode.
Definition get_zk_string (zk_path : cstring) (data_size : Z) (keep_watch : bool) : prog (list byte) :=
  '(_, zk_data) ← get_zk_data zk_path [] data_size keep_watch; Done zk_data.
(** [SIZE_MAX] as an int, the default of [data_size]. *)
Definition default_data_size : Z := int32 (2 ^ 64 - 1).
Definition set_zk_data (zk_path : cstring) (zk_data : list byte) (stat : bool) (version : Z)
    : prog sync_result :=
  let size := int32 (Z.of_nat (length zk_data)) in
  '(errcode, r) ← sync (if stat then SSet2 (Some zk_path) (Some zk_data) size version true
                        else SSet (Some zk_path) (Some zk_data) size version);
  if negb (errcode =? ZOK) then failed "set path://" zk_path " data failed: " errcode else Done r.
Definition is_zhu_exist : prog bool :=
  '(rc, _) ← sync (SExists (Some (lit "/nodes/test")) 0 false); Done (negb (rc =? ZNONODE)).

(** *** Sessions *)
Definition create_session (zk_nodes : cstring) (session_timeout_seconds : Z) : prog () :=
  match zk_nodes with
  | [] => THROW_EXCEPTION (lit "parameter[zk_nodes] of connect_zookeeper is empty") EINVAL
  | _ =>
      let timeout := session_timeout_seconds * 1000 in
      if negb (bool_decide (int32 timeout = timeout)) then Undefined else
      assign (set_nodes zk_nodes timeout);;
      clientid ← field _zk_clientid;
      failure ← lib (CInit zk_nodes timeout clientid);
      assign (set_handle (bool_decide (failure = None)));;
      match failure with
      | Some errno => THROW_EXCEPTION (FormatString (lit "connect nodes://") zk_nodes (lit " failed: ") (strerror errno)) errno
      | None => Done ()
      end
  end.
Definition close_session : prog () :=
  handle ← field _zk_handle;
  if negb handle then Done () else
  errcode ← lib CClose;
  if negb (errcode =? ZOK) then
    nodes ← field _zk_nodes; failed "close nodes://" nodes " failed: " errcode
  else assign (set_handle false);; assign (set_clientid false).
Definition recreate_session : prog () :=
  close_session;;
  nodes ← field _zk_nodes;
  timeout ← field _expected_session_timeout_seconds;
  clientid ← field _zk_clientid;
  failure ← lib (CInit nodes timeout clientid);
  assign (set_handle (bool_decide (failure = None)));;
  match failure with
  | Some errno => THROW_EXCEPTION (FormatString (lit "reconnect nodes://") nodes (lit " failed: ") (strerror errno)) errno
  | None => Done ()
  end.

(** [to_string] and [ipv6_tostring] return memory that was never written: the [sprintf] is
    commented out. *)
Definition get_connected_host : prog (option (cstring * Z)) :=
  host ← with_handle CConnectedHost;
  match host with
  | None => Done None
  | Some (family, _) => if (family =? AF_INET) || (family =? AF_INET6) then Undefined else Done None
  end.
Definition get_session_timeout : prog Z := with_handle CRecvTimeout.
Definition get_session_timeout_milliseconds : prog Z := with_handle CRecvTimeout.
(** [zoo_state] of NULL is 0. *)
Definition get_state : prog Z :=
  handle ← field _zk_handle; if handle : bool then lib CState else Done 0.
Definition is_connected : prog bool := state ← get_state; Done (state =? ZOO_CONNECTED_STATE).
Definition is_connecting : prog bool := state ← get_state; Done (state =? ZOO_CONNECTING_STATE).
Definition is_auth_failed : prog bool := state ← get_state; Done (state =? ZOO_AUTH_FAILED_STATE).
Definition is_session_expired : prog bool :=
  state ← get_state;
  if state =? ZOO_EXPIRED_SESSION_STATE then Done true else
  start ← field _start_connect_time;
  if 0 <? start then
    current_time ← lib CTime;
    start ← field _start_connect_time;
    if start <? current_time then
      session_timeout_seconds ← get_session_timeout_milliseconds;
      start ← field _start_connect_time;
      Done (Z.quot session_timeout_seconds 1000 - 1 <? int32 (current_time - start))
    else Done false
  else Done false.

(** *** Nodes *)

(** What [race_master] returns, with [*zk_errcode]; the text of the error is only printed. *)
Definition race_master (zk_path path_data : cstring) (acl : option (vector ACL)) : prog (bool * Z) :=
  '(errcode_, _) ← sync (SCreate (Some zk_path) (Some path_data) (int32 (Z.of_nat (length path_data)))
                           acl ZOO_EPHEMERAL None 0);
  Done (errcode_ =? ZOK, errcode_).
Definition node_exists_exception (errcode : Z) : bool := ZNODEEXISTS =? errcode.
Definition invalid_handle_exception (errcode : Z) : bool := ZINVALIDSTATE =? errcode.
Definition session_expried_exception (errcode : Z) : bool := ZSESSIONEXPIRED =? errcode.
Definition create_node (zk_parent_path zk_node_name zk_node_data : cstring) (flags : Z)
    (acl : option (vector ACL)) : prog () :=
  let acl_ := match acl with None => ZOO_OPEN_ACL_UNSAFE | Some acl => acl end in
  let zk_path := zk_parent_path ++ slash :: zk_node_name in
  '(errcode, _) ← sync (SCreate (Some zk_path) (Some zk_node_data) (int32 (Z.of_nat (length zk_node_data)))
                          (Some acl_) flags None 0);
  if negb (errcode =? ZOK) then Throw (IntException 1) else Done ().
(** The overloads without flags pass -1. *)
Definition create_node_plain (zk_parent_path zk_node_name : cstring) : prog () :=
  create_node zk_parent_path zk_node_name [] (-1) None.
Definition create_node_data (zk_parent_path zk_node_name zk_node_data : cstring) : prog () :=
  create_node zk_parent_path zk_node_name zk_node_data (-1) None.
Definition create_node_flags (zk_parent_path zk_node_name zk_node_data : cstring) (flags : Z) : prog () :=
  create_node zk_parent_path zk_node_name zk_node_data flags None.
Definition create_node_acl (zk_parent_path zk_node_name zk_node_data : cstring)
    (acl : option (vector ACL)) : prog () :=
  create_node zk_parent_path zk_node_name zk_node_data (-1) acl.
Definition delete_node (zk_path : cstring) (version : Z) : prog () :=
  '(errcode, _) ← sync (SDelete (Some zk_path) version);
  if negb (errcode =? ZOK) then failed "delete path://" zk_path " failed: " errcode else Done ().
Definition set_access_control_list (zk_path : cstring) (acl : option (vector ACL)) (version : Z) : prog () :=
  '(errcode, _) ← sync (SSetAcl (Some zk_path) version acl);
  if negb (errcode =? ZOK) then failed "set path://" zk_path " ACL failed: " errcode else Done ().
Definition get_access_control_list (zk_path : cstring) (acl stat : bool) : prog sync_result :=
  '(errcode, r) ← sync (SGetAcl (Some zk_path) acl stat);
  if negb (errcode =? ZOK) then failed "get path://" zk_path " ACL failed: " errcode else Done r.
(** The strings of a vector; NULL is no string. *)
Definition copy_children (v : vector (option cstring)) : prog (list cstring) :=
  if v_count v <? 0 then Throw LengthError else
  match mapM id (take (Z.to_nat (v_count v)) (default [] (v_data v))) with
  | Some l => if bool_decide (Z.of_nat (length l) = v_count v) then Done l else Undefined
  | None => Undefined
  end.
Definition get_all_children (zk_path : cstring) (keep_watch : bool) : prog (list cstring) :=
  '(errcode, r) ← sync (SGetChildren (Some zk_path) (bool_int keep_watch) true);
  if negb (errcode =? ZOK) then failed "get path://" zk_path " children failed: " errcode else
  match sr_strings r with Some v => copy_children v | None => Undefined end.
Definition SIZE_8K : Z := 512.
Definition SIZE_4K : Z := 256.
(** [THROW_SYSCALL_EXCEPTION] makes an exception without throwing it, so a failed [open] or
    [write] falls off the end of a function that has to return a value. *)
Definition store_data (data_filepath zk_path : cstring) : prog Z :=
  '(n, zk_data) ← get_zk_data zk_path [] SIZE_8K true;
  '(n, zk_data) ← (if SIZE_8K <? n then get_zk_data zk_path zk_data n true else Done (n, zk_data));
  failure ← lib (COpen data_filepath);
  match failure with
  | Some _ => Undefined
  | None =>
      '(n, _) ← lib (CWrite zk_data);
      if negb (n =? int32 (Z.of_nat (length zk_data))) then lib CCloseFile;; Undefined
      else lib CCloseFile;; Done n
  end.

(** ** Events *)

(** What the derived class does for them. *)
Record handlers := mk_handlers {
  on_zookeeper_session_connected : cstring → prog ();
  on_zookeeper_session_connecting : cstring → prog ();
  on_zookeeper_session_expired : cstring → prog ();
  on_zookeeper_session_event : Z → cstring → prog ();
  on_zookeeper_event : Z → Z → cstring → prog ();
}.
Context (on : handlers).
Definition zookeeper_session_connected (path : cstring) : prog () :=
  with_handle CClientId;;
  assign (set_clientid true);;
  timeout ← get_session_timeout_milliseconds;
  assign (set_physical timeout);;
  assign (set_start 0);;
  on_zookeeper_session_connected on path.
Definition zookeeper_session_connecting (path : cstring) : prog () :=
  now ← lib CTime;
  assign (set_start now);;
  on_zookeeper_session_connecting on path.
Definition zookeeper_session_expired (path : cstring) : prog () := on_zookeeper_session_expired on path.
Definition zookeeper_session_event (state : Z) (path : cstring) : prog () :=
  on_zookeeper_session_event on state path.
Definition zookeeper_event (type state : Z) (path : cstring) : prog () := on_zookeeper_event on type state path.
Definition zk_watcher (type state : Z) (path : cstring) : prog () :=
  if negb (type =? ZOO_SESSION_EVENT) then zookeeper_event type state path
  else if state =? ZOO_EXPIRED_SESSION_STATE then zookeeper_session_expired path
  else if state =? ZOO_CONNECTED_STATE then zookeeper_session_connected path
  else if state =? ZOO_CONNECTING_STATE then zookeeper_session_connecting path
  else zookeeper_session_event state path.
End texts.
