(* ===== verification/Election.v ===== *)
(** * The election of a master

    ZOOK_MS/MyApp.cpp and test.cpp: clients race to create one ephemeral node; who wins
    works until its session is over or the primary is back.  [run] and [work] loop, so
    each is the body of its loop, between the places where a thread can be; a system is
    a number of such clients around one service, and a step of it is one call, one access
    to a field, or a move of the service. *)

From S2P Require Import Prelude RecordIO Jute Path Watchers Addrvec Hosts Handshake Transport Handle.
From S2P Require Import Session Requests Interest Init Sync Threads Cli Zookbag.
Local Open Scope Z_scope.

(** ** The program *)
Record MyApp := mk_MyApp {
  _master_path : cstring;
  _master_data : cstring;
  zk_parent_path : cstring;
  zk_node_name : cstring;
  zk_node_data : cstring;
}.
(** Where the main thread is: in the loop of [run]; in the loop of [work], [true] if it was
    entered because the node exists already; in [work] after the loop was left to give the
    node up; after [run]. *)
Inductive place := Racing | Working (found : bool) | Quitting (found : bool) | Exited.
Global Instance place_eq_dec : EqDecision place.
Proof. solve_decision. Defined.

Section program.
Context (strerror : Z → cstring) (m : MyApp).

Definition retry : prog place := lib (CSleep 2000);; Done Racing.
(** [work] has returned. *)
Definition work_returned (found : bool) : prog place :=
  lib CStopped;; if found then retry else Done Racing.
(** An iteration of the loop of [run]; [_master_path] is copied to an array of 512. *)
Definition run_body : prog place :=
  stop ← lib CStopped;
  if stop : bool then Done Exited else
  '(won, zk_errcode) ← race_master (_master_path m) (_master_data m) (Some ZOO_OPEN_ACL_UNSAFE);
  if won : bool then Done (Working false) else
  if node_exists_exception zk_errcode then
    if 512 <=? Z.of_nat (length (_master_path m)) then Undefined else
    data ← get_zk_string strerror (_master_path m) 512 true;
    if bool_decide (data = lit "zk_1") then Done (Working true) else retry
  else
    get_state;; get_state;;
    (if session_expried_exception zk_errcode || invalid_handle_exception zk_errcode
     then recreate_session strerror else Done ());;
    retry.
(** An iteration of the loop of [work], and its end after the primary was seen. *)
Definition work_body (found : bool) : prog place :=
  stop ← lib CStopped;
  if stop : bool then work_returned found else
  expired ← is_session_expired;
  if expired : bool then work_returned found else
  exist ← is_zhu_exist;
  connected ← (if exist : bool then is_connected else Done false);
  if connected : bool then Done (Quitting found)
  else lib (CSleep 2000);; get_state;; get_state;; Done (Working found).
Definition work_quits (found : bool) : prog place :=
  delete_node strerror (_master_path m) (-1);;
  lib (CSleep 10000);;
  work_returned found.
(** What the main thread does next at a place. *)
Definition body (p : place) : prog place :=
  match p with
  | Racing => run_body
  | Working found => work_body found
  | Quitting found => work_quits found
  | Exited => Done Exited
  end.

(** *** Events *)
Definition app_connected (path : cstring) : prog () :=
  catch_int (create_node_flags (zk_parent_path m) (zk_node_name m) (zk_node_data m) ZOO_EPHEMERAL)
    (λ _, Done ()).
Definition app_event (type state : Z) (path : cstring) : prog () :=
  if type =? 3 then get_zk_data strerror path [] SIZE_4K true;; Done () else Done ().
Definition app_handlers : handlers :=
  mk_handlers app_connected (λ _, Done ()) (λ _, Done ()) (λ _ _, Done ()) app_event.

(** [main] of test.cpp, up to [run]: the configuration has been read. *)
Definition main (zk_nodes : cstring) (session_timeout_seconds : Z) : prog place :=
  create_session strerror zk_nodes session_timeout_seconds;; Done Racing.
End program.

(** ** The service *)

(** What a ZooKeeper service with the library in front of it can answer to a call of
    client [i], how it moves by itself, and which events it delivers. *)
Class Service := {
  server : Type;
  answers : nat → ∀ c, server → answer c → server → Prop;
  moves : server → server → Prop;
  delivers : nat → server → Z → Z → cstring → Prop;
}.

(** ** The system *)

(** A process: the fields of its object, the place of its main thread and what is left of
    the body there, and what is left of the event the thread for completions handles. *)
Record client := mk_client {
  c_app : MyApp;
  c_bag : zookbag;
  c_place : place;
  c_main : prog place;
  c_event : prog ();
}.
Definition set_main (z : zookbag) (p : prog place) (c : client) : client :=
  mk_client (c_app c) z (c_place c) p (c_event c).
Definition set_place (pl : place) (p : prog place) (c : client) : client :=
  mk_client (c_app c) (c_bag c) pl p (c_event c).
Definition set_event (z : zookbag) (p : prog ()) (c : client) : client :=
  mk_client (c_app c) z (c_place c) (c_main c) p.
(** An exception that leaves either thread, and undefined behaviour, end the process. *)
Definition ended {A} (p : prog A) : bool := match p with Throw _ | Undefined => true | _ => false end.
Definition runs (c : client) : bool := negb (ended (c_main c)) && negb (ended (c_event c)).

Section system.
Context `{Service} (strerror : Z → cstring).

Inductive pstep {A} (i : nat) : server * zookbag * prog A → server * zookbag * prog A → Prop :=
  | pstep_get s z k : pstep i (s, z, Get k) (s, z, k z)
  | pstep_put s z f k : pstep i (s, z, Put f k) (s, f z, k)
  | pstep_lib s z c k a s' : answers i c s a s' → pstep i (s, z, Lib c k) (s', z, k a).

Inductive step : server * list client → server * list client → Prop :=
  | step_main s cs i c s' z p :
      cs !! i = Some c → runs c = true → pstep i (s, c_bag c, c_main c) (s', z, p) →
      step (s, cs) (s', <[i := set_main z p c]> cs)
  | step_loop s cs i c pl :
      cs !! i = Some c → runs c = true → c_main c = Done pl → pl ≠ Exited →
      step (s, cs) (s, <[i := set_place pl (body strerror (c_app c) pl) c]> cs)
  | step_deliver s cs i c type state path :
      cs !! i = Some c → runs c = true → c_event c = Done () → delivers i s type state path →
      step (s, cs)
        (s, <[i := set_event (c_bag c) (zk_watcher (app_handlers strerror (c_app c)) type state path) c]> cs)
  | step_event s cs i c s' z p :
      cs !! i = Some c → runs c = true → pstep i (s, c_bag c, c_event c) (s', z, p) →
      step (s, cs) (s', <[i := set_event z p c]> cs)
  | step_moves s cs s' : moves s s' → step (s, cs) (s', cs).

(** A client that was just started. *)
Definition started (zk_nodes : cstring) (session_timeout_seconds : Z) (m : MyApp) : client :=
  mk_client m new_zookbag Racing (main strerror zk_nodes session_timeout_seconds) (Done ()).
End system.
