(* ===== verification/ElectionTheorems.v ===== *)
(** * Theorems about the election

    What the service promises about the node the clients race for, that at most one client
    with a live session works if no client writes [zk_1] into it, and what happens if one
    does. *)

From S2P Require Import Prelude RecordIO Jute Path Watchers Addrvec Hosts Handshake Transport Handle.
From S2P Require Import Session Requests Interest Init Sync Threads Cli Zookbag Election.
Local Open Scope Z_scope.

(** ** Calls about the node *)
Section node.
Context (path : cstring).
Definition session_call (c : call) : bool := match c with CInit _ _ _ | CClose => true | _ => false end.
Definition deletes (c : call) : bool :=
  match c with CSync (SDelete (Some p) _) => bool_decide (p = path) | _ => false end.
(** The data an ephemeral node at [path] is created with. *)
Definition creates (c : call) : option (list byte) :=
  match c with
  | CSync (SCreate (Some p) (Some d) len _ mode _ _) =>
      if bool_decide (p = path ∧ mode = ZOO_EPHEMERAL) then Some (take (Z.to_nat len) d) else None
  | _ => None
  end.
Definition result (c : call) : answer c → option Z :=
  match c with CSync _ => λ a, Some a.1 | _ => λ _, None end.
Definition wins (c : call) (a : answer c) : bool :=
  bool_decide (is_Some (creates c) ∧ result c a = Some ZOK).
(** The bytes a call of [zoo_get] for the node returns. *)
Definition reads (c : call) : answer c → option (list byte) :=
  match c with
  | CSync (SGet (Some p) _ _ _ _) => λ a,
      if bool_decide (p = path ∧ a.1 = ZOK) then
        match sr_mem a.2, sr_len a.2 with
        | Some mem, Some n => Some (take (Z.to_nat n) mem ++ replicate (Z.to_nat n - length mem) Byte.x00)
        | _, _ => None
        end
      else None
  | _ => λ _, None
  end.
Definition size_asked (c : call) : Z :=
  match c with CSync (SGet _ _ _ (Some len) _) => len | _ => 0 end.
End node.

(** What a service promises: who owns the node at [path] and what is in it, and whose
    session is alive.  A call takes effect at one moment.
    - a session is made alive only by its client;
    - the node of a live session stays its node unless a client whose session is alive
      deletes it;
    - a client that is told it has created the node found none, and owns it if its session
      is alive;
    - only a creation writes to the node, and what is read is what is in it. *)
Class ZooKeeper `{Service} (path : cstring) := {
  owner : server → option nat;
  content : server → option (list byte);
  alive : server → nat → Prop;
  answers_alive i j c s a s' : answers j c s a s' → (i = j → session_call c = false) → alive s' i → alive s i;
  moves_alive i s s' : moves s s' → alive s' i → alive s i;
  answers_owner i j c s a s' : answers j c s a s' → (i = j → session_call c = false) →
    (deletes path c = true → ¬ alive s j) → alive s' i → owner s = Some i → owner s' = Some i;
  moves_owner i s s' : moves s s' → alive s' i → owner s = Some i → owner s' = Some i;
  answers_create j c s a s' : answers j c s a s' → wins path c a = true → alive s' j → owner s' = Some j;
  answers_free j c s a s' : answers j c s a s' → wins path c a = true → owner s = None;
  answers_content j c s a s' : answers j c s a s' →
    content s' = content s ∨ content s' = None ∨ (∃ d, creates path c = Some d ∧ content s' = Some d);
  moves_content s s' : moves s s' → content s' = content s ∨ content s' = None;
  answers_read j c s a s' d : answers j c s a s' → reads path c a = Some d →
    ∃ x, content s = Some x ∧ d = take (Z.to_nat (size_asked c)) x;
}.

Section exclusion.
Context `{ZooKeeper} (strerror : Z → cstring).

(** ** Programs that leave the node alone *)
Definition zk_1 : list byte := lit "zk_1".
Fixpoint neutral {A} (p : prog A) : Prop :=
  match p with
  | Done _ | Throw _ | Undefined => True
  | Lib c k => session_call c = false ∧ deletes path c = false ∧ creates path c = None ∧ ∀ a, neutral (k a)
  | Get k => ∀ z, neutral (k z)
  | Put _ k => neutral k
  end.
Lemma neutral_bind {A B} (p : prog A) (f : A → prog B) : neutral p → (∀ a, neutral (f a)) → neutral (p ≫= f).
Proof.
  intros Hp Hf. induction p as [a| | |c k IH|k IH|g k IH]; cbn in *; try done.
  - destruct Hp as (H1 & H2 & H3 & Hk). split_and!; [done..|]. intros a. apply IH, Hk.
  - intros z. apply IH, Hp.
  - by apply IH.
Qed.
Lemma neutral_catch {A} (p : prog A) h : neutral p → (∀ i, neutral (h i)) → neutral (catch_int p h).
Proof.
  intros Hp Hh. induction p as [a|e| |c k IH|k IH|g k IH]; cbn in *; try done.
  - destruct e; [done|apply Hh|done].
  - destruct Hp as (H1 & H2 & H3 & Hk). split_and!; [done..|]. intros a. apply IH, Hk.
  - intros z. apply IH, Hp.
  - by apply IH.
Qed.

(** ** The main thread *)

(** Places only the master may be at. *)
Definition master_place (pl : place) : bool := match pl with Working _ | Quitting _ => true | _ => false end.
(** A body may start with [own] if it deletes the node only if the client has won it, and
    goes to a place of the master only then; it never writes [zk_1], and never reads it. *)
Fixpoint ok (own : bool) (p : prog place) : Prop :=
  match p with
  | Done pl => master_place pl = true → own = true
  | Throw _ | Undefined => True
  | Get k => ∀ z, ok own (k z)
  | Put _ k => ok own k
  | Lib c k =>
      (deletes path c = true → own = true) ∧ creates path c ≠ Some zk_1 ∧
      ∀ a, (4 < size_asked c → reads path c a ≠ Some zk_1) →
        ok (if session_call c || deletes path c then false else own || wins path c a) (k a)
  end.
Lemma no_win c a : creates path c = None → wins path c a = false.
Proof. intros E. unfold wins. rewrite E. apply bool_decide_eq_false_2. intros [[x Hx] _]. done. Qed.
Lemma ok_bind {A} own (p : prog A) f : neutral p → (∀ a, ok own (f a)) → ok own (p ≫= f).
Proof.
  intros Hp Hf. induction p as [a| | |c k IH|k IH|g k IH]; cbn in *; try done.
  - destruct Hp as (H1 & H2 & H3 & Hk). rewrite H1, H2, H3. split_and!; [done..|]. intros a _.
    rewrite no_win by done. cbn [orb]. rewrite orb_false_r. apply IH, Hk.
  - intros z. apply IH, Hp.
  - by apply IH.
Qed.
(** Who owns nothing may close and open sessions as well. *)
Fixpoint unarmed {A} (p : prog A) : Prop :=
  match p with
  | Done _ | Throw _ | Undefined => True
  | Lib c k => deletes path c = false ∧ creates path c = None ∧ ∀ a, unarmed (k a)
  | Get k => ∀ z, unarmed (k z)
  | Put _ k => unarmed k
  end.
Lemma ok_bind_unarmed {A} (p : prog A) f : unarmed p → (∀ a, ok false (f a)) → ok false (p ≫= f).
Proof.
  intros Hp Hf. induction p as [a| | |c k IH|k IH|g k IH]; cbn in *; try done.
  - destruct Hp as (H2 & H3 & Hk). rewrite H2, H3. split_and!; [done..|]. intros a _.
    rewrite no_win by done. destruct (session_call c); apply IH, Hk.
  - intros z. apply IH, Hp.
  - by apply IH.
Qed.

(** *** The bodies *)

(** A client that is set up for this election. *)
Definition configured (m : MyApp) : Prop :=
  _master_path m = path ∧ _master_data m ≠ zk_1 ∧ Z.of_nat (length (_master_data m)) < 2 ^ 31 ∧
  zk_parent_path m ++ slash :: zk_node_name m ≠ path.
Lemma neutral_get_state : neutral get_state.
Proof. cbn. intros z. by destruct (_zk_handle z). Qed.
Lemma neutral_is_connected : neutral is_connected.
Proof. apply neutral_bind; [apply neutral_get_state|done]. Qed.
Lemma neutral_with_handle c : session_call c = false → deletes path c = false → creates path c = None →
  neutral (with_handle c).
Proof. intros H1 H2 H3 z. cbn. by destruct (_zk_handle z). Qed.
Lemma neutral_sync r : deletes path (CSync r) = false → creates path (CSync r) = None → neutral (sync r).
Proof.
  intros H2 H3 z. cbn. destruct (_zk_handle z); [done|]. by destruct (tests_handle r).
Qed.
Lemma neutral_is_session_expired : neutral is_session_expired.
Proof.
  apply neutral_bind; [apply neutral_get_state|]. intros state. case_match; [done|]. intros z. cbn. case_match; [|done].
  split_and!; [done..|]. intros now z'. case_match; [|done]. intros z''. case_match; [|done]. split_and!; done.
Qed.
Lemma neutral_resize n s : neutral (resize n s).
Proof. unfold resize. by case_match. Qed.
Lemma neutral_get_zk_data p d n w : neutral (get_zk_data strerror p d n w).
Proof.
  unfold get_zk_data. apply neutral_bind; [apply neutral_resize|]. intros d'.
  apply neutral_bind; [by apply neutral_sync|]. intros [rc r]. case_match; [|done].
  repeat case_match; try done. apply neutral_bind; [apply neutral_resize|done].
Qed.
Lemma ok_retry own : ok own retry.
Proof. cbn. by split_and!. Qed.
Lemma ok_work_returned own found : ok own (work_returned found).
Proof. cbn. split_and!; [done..|]. intros _ _. destruct found; [apply ok_retry|done]. Qed.
Lemma ok_neutral p : neutral p → ok true p.
Proof.
  induction p as [a| | |c k IH|k IH|g k IH]; cbn; try done.
  - intros (H1 & H2 & H3 & Hk). rewrite H1, H2, H3. split_and!; [done..|]. intros a _. apply IH, Hk.
  - intros Hp z. apply IH, Hp.
Qed.
Lemma neutral_work_body found : neutral (work_body found).
Proof.
  assert (neutral (work_returned found)) as Hr by (cbn; split_and!; [done..|]; intros _; by destruct found).
  unfold work_body. apply neutral_bind; [done|]. intros stop. destruct stop; [done|].
  apply neutral_bind; [apply neutral_is_session_expired|]. intros expired. destruct expired; [done|].
  apply neutral_bind; [apply neutral_bind; [by apply neutral_sync|by intros []]|]. intros exist.
  apply neutral_bind; [destruct exist; [apply neutral_is_connected|done]|]. intros connected.
  destruct connected; [done|].
  apply neutral_bind; [done|]. intros _. repeat (apply neutral_bind; [apply neutral_get_state|]; intros _). done.
Qed.
Lemma ok_work_quits m found : ok true (work_quits strerror m found).
Proof.
  unfold work_quits, delete_node. cbn. intros z. destruct (_zk_handle z); [|done]. split_and!; [done..|].
  intros [rc r] _. match goal with |- ok ?o _ => generalize o end. intros own. cbn.
  destruct (negb (rc =? ZOK)); [done|]. cbn. split_and!; [done..|]. intros _ _. apply ok_work_returned.
Qed.
Lemma unarmed_recreate_session : unarmed (recreate_session strerror).
Proof.
  cbn. intros z. destruct (_zk_handle z); cbn.
  - split_and!; [done..|]. intros rc. destruct (negb (rc =? ZOK)); cbn; [done|].
    intros z1 z2 z3. split_and!; [done..|]. intros failure. by destruct failure.
  - intros z1 z2 z3. split_and!; [done..|]. intros failure. by destruct failure.
Qed.
(** The test of the data read: [zk_1] is never read. *)
Lemma ok_read_node m : _master_path m = path →
  ok false (data ← get_zk_string strerror (_master_path m) 512 true;
            if bool_decide (data = lit "zk_1") then Done (Working true) else retry).
Proof.
  intros Hp. cbn. intros z. destruct (_zk_handle z); [|done]. split_and!; [done..|]. intros [rc r] Hr.
  specialize (Hr eq_refl). cbn in Hr |- *. rewrite Hp in *. destruct (Z.eqb_spec rc ZOK) as [->|]; [|done].
  rewrite bool_decide_eq_true_2 in Hr by done.
  destruct (sr_mem r) as [mem|], (sr_len r) as [n|], (sr_stat r) as [st|]; try done.
  unfold resize. destruct (Z.ltb_spec n 0); [done|]. cbn.
  rewrite bool_decide_eq_false_2; [apply ok_retry|]. intros E. apply Hr. by rewrite E.
Qed.
Lemma creates_race m acl : configured m →
  creates path (CSync (SCreate (Some (_master_path m)) (Some (_master_data m))
    (int32 (Z.of_nat (length (_master_data m)))) acl ZOO_EPHEMERAL None 0)) ≠ Some zk_1.
Proof.
  intros (Hp & Hd & Hl & _). cbn [creates]. rewrite bool_decide_eq_true_2 by done.
  rewrite wrap_s_id by (unfold in_s; lia). rewrite Nat2Z.id, firstn_all. congruence.
Qed.
Lemma wins_race m rc r : _master_path m = path →
  wins path (CSync (SCreate (Some (_master_path m)) (Some (_master_data m))
    (int32 (Z.of_nat (length (_master_data m)))) (Some ZOO_OPEN_ACL_UNSAFE) ZOO_EPHEMERAL None 0)) (rc, r) =
    (rc =? ZOK).
Proof.
  intros Hp. unfold wins. set (c := CSync _).
  assert (is_Some (creates path c)) as Hc by (cbn; rewrite bool_decide_eq_true_2 by done; by eexists).
  destruct (Z.eqb_spec rc ZOK) as [->|Hrc]; [by apply bool_decide_eq_true_2|].
  apply bool_decide_eq_false_2. intros [_ [= ?]]. done.
Qed.
Lemma ok_race_lost m rc : _master_path m = path →
  ok false (if node_exists_exception rc then
              if 512 <=? Z.of_nat (length (_master_path m)) then Undefined else
              data ← get_zk_string strerror (_master_path m) 512 true;
              if bool_decide (data = lit "zk_1") then Done (Working true) else retry
            else
              get_state;; get_state;;
              (if session_expried_exception rc || invalid_handle_exception rc
               then recreate_session strerror else Done ());;
              retry).
Proof.
  intros Hp. destruct (node_exists_exception rc).
  - destruct (512 <=? _); [done|]. by apply ok_read_node.
  - do 2 (apply ok_bind; [apply neutral_get_state|]; intros _).
    apply ok_bind_unarmed; [|intros _; apply ok_retry]. destruct (_ || _); [apply unarmed_recreate_session|done].
Qed.
Lemma ok_run_body m : configured m → ok false (run_body strerror m).
Proof.
  intros Hm. pose proof Hm as (Hp & _). unfold run_body. apply ok_bind; [done|]. intros stop. destruct stop; [done|].
  intros z. cbn -[get_state node_exists_exception session_expried_exception invalid_handle_exception
    recreate_session retry get_zk_string wins creates lit].
  destruct (_zk_handle z); [|by apply (ok_race_lost m ZBADARGUMENTS)].
  split_and!; [done|by apply creates_race|]. intros [rc r] _. cbn -[get_state node_exists_exception
    session_expried_exception invalid_handle_exception recreate_session retry get_zk_string wins lit].
  rewrite wins_race by done. destruct (rc =? ZOK); [done|]. by apply ok_race_lost.
Qed.
Lemma ok_main nodes timeout : ok false (main strerror nodes timeout).
Proof.
  unfold main, create_session. destruct nodes as [|x nodes]; [done|]. case_match; [done|].
  apply ok_bind_unarmed; [|done]. cbn. intros z. split_and!; [done..|]. intros failure. by destruct failure.
Qed.
Lemma ok_body m pl : configured m → pl ≠ Exited → ok (master_place pl) (body strerror m pl).
Proof. intros Hm Hpl. destruct pl; [by apply ok_run_body|apply ok_neutral, neutral_work_body|apply ok_work_quits|done]. Qed.
Lemma neutral_watcher m type state p : configured m →
  neutral (zk_watcher (app_handlers strerror m) type state p).
Proof.
  intros (_ & _ & _ & Hn). unfold zk_watcher. case_match.
  { unfold zookeeper_event. cbn -[get_zk_data]. unfold app_event. case_match; [|done].
    apply neutral_bind; [apply neutral_get_zk_data|done]. }
  case_match; [done|]. case_match.
  - unfold zookeeper_session_connected. apply neutral_bind; [by apply (neutral_with_handle CClientId)|]. intros _.
    apply neutral_bind; [done|]. intros _. apply neutral_bind; [by apply (neutral_with_handle CRecvTimeout)|]. intros t.
    do 2 (apply neutral_bind; [done|]; intros _). apply neutral_catch; [|done].
    apply neutral_bind; [|by intros [rc r]; case_match]. apply neutral_sync; [done|].
    cbn. rewrite bool_decide_eq_false_2; [done|]. by intros [].
  - case_match; [|done]. cbn. by split_and!.
Qed.

(** ** The invariant *)
Definition works (c : client) : Prop := ∃ found, c_place c = Working found.
Definition owns (s : server) (i : nat) (own : bool) : Prop := own = true → alive s i → owner s = Some i.
Definition client_ok (s : server) (i : nat) (c : client) : Prop :=
  configured (c_app c) ∧ neutral (c_event c) ∧
  ∃ own, ok own (c_main c) ∧ owns s i own ∧ (works c → own = true ∧ neutral (c_main c)).
Definition system_ok (sc : server * list client) : Prop :=
  content sc.1 ≠ Some zk_1 ∧ ∀ i c, sc.2 !! i = Some c → client_ok sc.1 i c.

(** A step of the service for client [j] and another client. *)
Lemma owns_other s i j c a s' own : answers j c s a s' → i ≠ j → owns s i own →
  (deletes path c = true → owns s j true) → owns s' i own.
Proof.
  intros Ha Hij Hi Hj Hown Hal.
  assert (alive s i) as Hai by (eapply answers_alive; [exact Ha|done|done]).
  eapply answers_owner; [exact Ha|done| |done|by apply Hi].
  intros Hd Haj. specialize (Hi Hown Hai). rewrite (Hj Hd eq_refl Haj) in Hi. congruence.
Qed.
(** And for the client itself. *)
Lemma owns_self s i c a s' own : answers i c s a s' → owns s i own →
  owns s' i (if session_call c || deletes path c then false else own || wins path c a).
Proof.
  intros Ha Hi. destruct (session_call c) eqn:Hc; [done|]. destruct (deletes path c) eqn:Hd; [done|]. cbn.
  intros Hown Hal. apply orb_true_iff in Hown as [Hown|Hw]; [|by eapply answers_create].
  eapply answers_owner; [exact Ha|done|congruence|done|]. apply Hi; [done|]. by eapply answers_alive.
Qed.
Lemma content_other s j c a s' : answers j c s a s' → creates path c ≠ Some zk_1 → content s ≠ Some zk_1 →
  content s' ≠ Some zk_1.
Proof. intros Ha Hc Hs. destruct (answers_content j c s a s' Ha) as [->|[->|(d & Hd & ->)]]; congruence. Qed.
Lemma not_read j c s a s' : answers j c s a s' → content s ≠ Some zk_1 →
  4 < size_asked c → reads path c a ≠ Some zk_1.
Proof.
  intros Ha Hs Hn Hr. destruct (answers_read j c s a s' zk_1 Ha Hr) as (x & Hx & Hd). apply Hs. rewrite Hx. f_equal.
  assert (length x < Z.to_nat (size_asked c))%nat as Hl.
  { apply (f_equal length) in Hd. rewrite length_take in Hd. change (length zk_1) with 4%nat in Hd. lia. }
  by rewrite take_ge in Hd by lia.
Qed.

(** What the step of a program of client [i] leaves to the others. *)
Definition others_keep (i : nat) (s s' : server) : Prop :=
  content s' ≠ Some zk_1 ∧ ∀ j own, j ≠ i → owns s j own → owns s' j own.
Lemma main_step i s z (p : prog place) s' z' p' own :
  pstep i (s, z, p) (s', z', p') → ok own p → owns s i own → content s ≠ Some zk_1 →
  others_keep i s s' ∧ ∃ own', ok own' p' ∧ owns s' i own' ∧
    (own = true → neutral p → own' = true ∧ neutral p').
Proof.
  intros Hs Hp Ho Hc. inversion Hs as [| |? ? c k a ? Ha]; subst; cbn -[zk_1] in Hp.
  - split; [by split; auto|]. exists own. split_and!; [done..|]. intros Hown Hn. by split.
  - split; [by split; auto|]. exists own. by split_and!.
  - destruct Hp as (Hd & Hcr & Hk). split.
    + split; [by eapply content_other|]. intros j o Hj Hjo. eapply owns_other; [exact Ha|done|done|].
      intros Hdel. by rewrite <- (Hd Hdel).
    + eexists. split; [apply Hk; by eapply not_read|]. split; [by eapply owns_self|].
      intros -> (H1 & H2 & H3 & Hn). rewrite H1, H2. by split.
Qed.
Lemma event_step i s z (p : prog ()) s' z' p' own :
  pstep i (s, z, p) (s', z', p') → neutral p → owns s i own → content s ≠ Some zk_1 →
  others_keep i s s' ∧ neutral p' ∧ owns s' i own.
Proof.
  intros Hs Hp Ho Hc. inversion Hs as [| |? ? c k a ? Ha]; subst; cbn in Hp.
  - split; [by split; auto|]. by split.
  - split; [by split; auto|]. by split.
  - destruct Hp as (H1 & H2 & H3 & Hn). split; [split|split; [done|]].
    + eapply content_other; [exact Ha|by rewrite H3|done].
    + intros j o Hj Hjo. eapply owns_other; [exact Ha|done|done|congruence].
    + pose proof (owns_self s i c a s' own Ha Ho) as Hs'. rewrite H1, H2, no_win in Hs' by done.
      cbn [orb] in Hs'. by rewrite orb_false_r in Hs'.
Qed.
Lemma system_update s s' cs i c c' : system_ok (s, cs) → cs !! i = Some c → others_keep i s s' →
  client_ok s' i c' → system_ok (s', <[i := c']> cs).
Proof.
  intros [_ Hcs] Hi [Hc Ho] Hc'. split; [done|]. cbn in *. intros j d Hj.
  apply list_lookup_insert_Some in Hj as [(<- & <- & _)|(Hij & Hj)]; [done|].
  destruct (Hcs j d Hj) as (Hd & Hn & own & Hok & Hown & Hw). split_and!; [done..|]. exists own.
  split_and!; [done|by apply Ho|done].
Qed.
Lemma step_ok sc sc' : step strerror sc sc' → system_ok sc → system_ok sc'.
Proof.
  intros Hs Hok. destruct Hs as [s cs i c s' z p Hi _ Hp|s cs i c pl Hi _ Hm Hpl|s cs i c type state ev Hi _ He Hd|
    s cs i c s' z p Hi _ Hp|s cs s' Hmv]; cycle 4.
  { destruct Hok as [Hc Hcs]. split; [cbn in *; destruct (moves_content s s' Hmv) as [-> | ->]; done|].
    intros i c Hi. destruct (Hcs i c Hi) as (Hd & Hn & own & Hown & Ho & Hw). split_and!; [done..|]. exists own.
    split_and!; [done| |done]. intros Ht Ha. eapply moves_owner; [done..|]. apply Ho; [done|]. by eapply moves_alive. }
  all: pose proof Hok as [Hc Hcs]; destruct (Hcs i c Hi) as (Hd' & Hn & own & Hown & Ho & Hw); cbn in Hc, Ho.
  - destruct (main_step i s _ _ s' z p own Hp Hown Ho Hc) as (Hk & own' & H1 & H2 & H3).
    eapply system_update; [done..|]. split_and!; [done..|]. exists own'. split_and!; [done..|].
    intros Hwork. destruct (Hw Hwork) as [-> Hneu]. by apply H3.
  - eapply system_update; [done..| |]; [by split; auto|]. split_and!; [done..|]. exists (master_place pl).
    cbn [c_main set_place]. rewrite Hm in Hown. split_and!; [by apply ok_body| |].
    + intros Hpm. apply Ho. by apply Hown.
    + intros [found Hf]. cbn in Hf. subst pl. split; [done|]. apply neutral_work_body.
  - eapply system_update; [done..| |]; [by split; auto|]. split_and!; [done|by apply neutral_watcher|]. by exists own.
  - destruct (event_step i s _ _ s' z p own Hp Hn Ho Hc) as (Hk & H1 & H2).
    eapply system_update; [done..|]. split_and!; [done..|]. by exists own.
Qed.
Lemma started_ok s nodes timeout apps : Forall configured apps → content s ≠ Some zk_1 →
  system_ok (s, started strerror nodes timeout <$> apps).
Proof.
  intros Ha Hc. split; [done|]. cbn. intros i c Hi. rewrite list_lookup_fmap in Hi.
  destruct (apps !! i) as [m|] eqn:Hm; [|done]. injection Hi as <-.
  split_and!; [by eapply Forall_lookup_1|done|]. exists false. split_and!; [apply ok_main|done|].
  intros [found Hf]. done.
Qed.

(** C3. However the clients, their threads and the service are interleaved: if no client
    is configured to write [zk_1] into the node they race for, and nobody else writes it,
    then at most one of the clients whose session the service still holds is at work, and
    it owns the node. *)
Theorem one_master s0 nodes timeout apps s cs :
  Forall configured apps → content s0 ≠ Some zk_1 →
  rtc (step strerror) (s0, started strerror nodes timeout <$> apps) (s, cs) →
  (∀ i c, cs !! i = Some c → works c → alive s i → owner s = Some i) ∧
  (∀ i j c d, cs !! i = Some c → cs !! j = Some d → works c → works d → alive s i → alive s j → i = j).
Proof.
  intros Ha Hc Hr.
  assert (system_ok (s, cs)) as [_ Hcs].
  { eapply (rtc_ind_r system_ok); [by apply started_ok| |exact Hr]. intros x y _ Hxy. by apply step_ok. }
  assert (∀ i c, cs !! i = Some c → works c → alive s i → owner s = Some i) as Ho.
  { intros i c Hi Hw Hal. destruct (Hcs i c Hi) as (_ & _ & own & _ & Hown & H1). by apply Hown; [apply H1|]. }
  split; [done|]. intros i j c d Hi Hj Hw Hw' Hal Hal'.
  pose proof (Ho i c Hi Hw Hal). pose proof (Ho j d Hj Hw' Hal'). congruence.
Qed.

(** ** A creation whose answer is lost *)

(** Nobody takes itself for the master. *)
Definition waiting_ok (i : nat) (sc : server * list client) : Prop :=
  owner sc.1 = Some i ∧ content sc.1 ≠ Some zk_1 ∧
  ∀ j c, sc.2 !! j = Some c →
    configured (c_app c) ∧ neutral (c_event c) ∧ ok false (c_main c) ∧ master_place (c_place c) = false.
Lemma waiting_update i s s' cs j c c' : waiting_ok i (s, cs) → cs !! j = Some c → owner s' = Some i →
  content s' ≠ Some zk_1 → configured (c_app c') → neutral (c_event c') → ok false (c_main c') →
  master_place (c_place c') = false → waiting_ok i (s', <[j := c']> cs).
Proof.
  intros (_ & _ & Hcs) Hj Ho Hc H1 H2 H3 H4. split_and!; [done..|]. cbn in *. intros k d Hk.
  apply list_lookup_insert_Some in Hk as [(<- & <- & _)|(Hjk & Hk)]; [done|exact (Hcs k d Hk)].
Qed.
Lemma waiting_main i j s z (p : prog place) s' z' p' : pstep j (s, z, p) (s', z', p') → owner s = Some i →
  content s ≠ Some zk_1 → ok false p → ok false p' ∧ content s' ≠ Some zk_1.
Proof.
  intros Hs Ho Hc Hp. inversion Hs as [| |? ? c k a ? Ha]; subst; cbn -[zk_1] in Hp; [done..|].
  destruct Hp as (_ & Hcr & Hk). split; [|by eapply content_other].
  assert (wins path c a = false) as Hw.
  { destruct (wins path c a) eqn:Hw; [|done]. pose proof (answers_free j c s a s' Ha Hw). congruence. }
  specialize (Hk a ltac:(by eapply (not_read j))).   rewrite Hw in Hk. by destruct (session_call c || deletes path c).
Qed.
Lemma waiting_step i sc sc' : step strerror sc sc' → owner sc'.1 = Some i → waiting_ok i sc → waiting_ok i sc'.
Proof.
  intros Hs Ho' Hok. destruct Hs as [s cs j c s' z p Hj _ Hp|s cs j c pl Hj _ Hm Hpl|s cs j c type state ev Hj _ He Hd|
    s cs j c s' z p Hj _ Hp|s cs s' Hmv]; cbn in Ho'; cycle 4.
  { destruct Hok as (_ & Hc & Hcs). split_and!; [done| |done]. cbn in *. by destruct (moves_content s s' Hmv) as [-> | ->]. }
  all: pose proof Hok as (Ho & Hc & Hcs); destruct (Hcs j c Hj) as (H1 & H2 & H3 & H4); cbn in Ho, Hc.
  - destruct (waiting_main i j s _ _ s' z p Hp Ho Hc H3) as [H5 H6]. by eapply waiting_update.
  - rewrite Hm in H3. assert (master_place pl = false) as Hpl' by (destruct (master_place pl) eqn:E; [by specialize (H3 E)|done]).
    eapply waiting_update; [done..| |done]. cbn [c_main set_place]. rewrite <- Hpl'. by apply ok_body.
  - eapply waiting_update; [done..| |done|done]. by apply neutral_watcher.
  - destruct (event_step j s _ _ s' z p false Hp H2 ltac:(done) Hc) as ([H5 _] & H6 & _). by eapply waiting_update.
Qed.

(** C35. A client whose creation of the node took effect but whose answer was lost is one
    more client that waits: as long as its node stays, nobody works, the client that owns
    the node included. *)
Theorem unclaimed_node i s apps bags sc :
  Forall configured apps → owner s = Some i → content s ≠ Some zk_1 →
  rtc (λ x y, step strerror x y ∧ owner y.1 = Some i)
    (s, zip_with (λ m z, mk_client m z Racing (run_body strerror m) (Done ())) apps bags) sc →
  ∀ j c, sc.2 !! j = Some c → ¬ works c.
Proof.
  intros Ha Ho Hc Hr.
  assert (waiting_ok i sc) as (_ & _ & Hcs).
  { eapply (rtc_ind_r (waiting_ok i)); [| |exact Hr]; [|intros x y _ [Hxy Hy]; by apply waiting_step].
    split_and!; [done..|]. intros j c Hj. cbn in Hj. apply lookup_zip_with_Some in Hj as (m & z & -> & Hm & _).
    pose proof (Forall_lookup_1 _ _ _ _ Ha Hm) as Hcm. split_and!; [done..|by apply ok_run_body|done]. }
  intros j c Hj [found Hf]. destruct (Hcs j c Hj) as (_ & _ & _ & Hp). by rewrite Hf in Hp.
Qed.
End exclusion.

(** ** A service *)

(** One server: the node [/master] with its owner, and the live sessions.  The answer to a
    creation may be lost; a session may end at any time; the library may deliver any event
    once its handle was made.  What is asked about other nodes is answered in any way. *)
Module Server.
Definition master : cstring := lit "/master".
Record zk := mk_zk { zk_node : option (nat * list byte); zk_sessions : gset nat }.
(** The end of a session takes its node along. *)
Definition drop_session (i : nat) (s : zk) : zk :=
  mk_zk (match zk_node s with Some (j, d) => if decide (i = j) then None else Some (j, d) | None => None end)
    (zk_sessions s ∖ {[i]}).
Definition zk_create (i : nat) (d : list byte) (s : zk) : zk := mk_zk (Some (i, d)) (zk_sessions s).
Definition zk_answers (i : nat) (c : call) : zk → answer c → zk → Prop :=
  match c with
  | CSync (SCreate (Some p) (Some d) len _ mode _ _) => λ s a s',
      if bool_decide (p = master ∧ mode = ZOO_EPHEMERAL) then
        (i ∈ zk_sessions s ∧ zk_node s = None ∧ s' = zk_create i (take (Z.to_nat len) d) s ∧
           (a.1 = ZOK ∨ a.1 = ZCONNECTIONLOSS)) ∨
        (s' = s ∧ a.1 ≠ ZOK)
      else s' = s
  | CSync (SDelete (Some p) _) => λ s a s',
      s' = s ∨ p = master ∧ i ∈ zk_sessions s ∧ s' = mk_zk None (zk_sessions s)
  | CSync (SGet (Some p) w buf len st) => λ s a s',
      s' = s ∧
      (p = master → a.1 = ZOK → ∃ o x rest, zk_node s = Some (o, x) ∧
         let t := take (Z.to_nat (size_asked (CSync (SGet (Some p) w buf len st)))) x in
         sr_mem a.2 = Some (t ++ rest) ∧ sr_len a.2 = Some (Z.of_nat (length t)))
  | CInit _ _ _ => λ s a s',
      (a = None ∧ s' = mk_zk (zk_node (drop_session i s)) ({[i]} ∪ zk_sessions s)) ∨ (is_Some a ∧ s' = s)
  | CClose => λ s a s', s' = drop_session i s
  | _ => λ s a s', s' = s
  end.
Definition zk_moves (s s' : zk) : Prop := ∃ i, s' = drop_session i s.
Definition zk_delivers (i : nat) (s : zk) (type state : Z) (path : cstring) : Prop := i ∈ zk_sessions s.
#[export] Instance service : Service := {|
  server := zk; answers := zk_answers; moves := zk_moves; delivers := zk_delivers |}.

Definition zk_owner (s : zk) : option nat := fst <$> zk_node s.
Definition zk_content (s : zk) : option (list byte) := snd <$> zk_node s.
Definition zk_alive (s : zk) (i : nat) : Prop := i ∈ zk_sessions s.

Lemma drop_session_alive i j s : zk_alive (drop_session j s) i → i ≠ j ∧ zk_alive s i.
Proof. unfold zk_alive. cbn. set_solver. Qed.
Lemma drop_session_owner i j s : i ≠ j → zk_owner s = Some i → zk_owner (drop_session j s) = Some i.
Proof.
  unfold zk_owner. cbn. destruct (zk_node s) as [[o d]|]; [|done]. cbn. intros Hij [= ->].
  by rewrite decide_False by congruence.
Qed.
Lemma drop_session_content i s : zk_content (drop_session i s) = zk_content s ∨ zk_content (drop_session i s) = None.
Proof. unfold zk_content. cbn. destruct (zk_node s) as [[o d]|]; [|by left]. case_decide; [by right|by left]. Qed.

(** Every answer leaves the state alone, creates, deletes, opens or closes a session. *)
Inductive effect (i : nat) (c : call) (a : answer c) (s : zk) : zk → Prop :=
  | effect_none : wins master c a = false → effect i c a s s
  | effect_create d : creates master c = Some d → zk_node s = None → zk_alive s i → effect i c a s (zk_create i d s)
  | effect_delete : deletes master c = true → zk_alive s i → effect i c a s (mk_zk None (zk_sessions s))
  | effect_open : session_call c = true →
      effect i c a s (mk_zk (zk_node (drop_session i s)) ({[i]} ∪ zk_sessions s))
  | effect_close : session_call c = true → effect i c a s (drop_session i s).
Lemma no_creation c a : creates master c = None → wins master c a = false.
Proof. intros E. unfold wins. rewrite E. apply bool_decide_eq_false_2. intros [[x Hx] _]. done. Qed.
Lemma effects i c s a s' : zk_answers i c s a s' → effect i c a s s'.
Proof.
  destruct c as [r|n t cl| | | | | | | | | | |]; try (intros ->; by apply effect_none, no_creation).
  - destruct r as [[p|] [d|] len acl mode buf buflen| | | |[p|] v| | |[p|] w buf len st| | | | | | | | | | | | | | |];
      try (intros ->; by apply effect_none, no_creation).
    + cbn. case_bool_decide as Hp.
      * intros [(Hi & Hn & -> & _)|(-> & Hrc)].
        -- apply effect_create; [|done|done]. cbn. by rewrite bool_decide_eq_true_2.
        -- apply effect_none. apply bool_decide_eq_false_2. intros [_ [= E]]. done.
      * intros ->. apply effect_none, no_creation. cbn. by rewrite bool_decide_eq_false_2.
    + cbn. intros [-> |(-> & Hi & ->)]; [by apply effect_none, no_creation|]. apply effect_delete; [|done].
      cbn. by apply bool_decide_eq_true_2.
    + cbn. intros [-> _]. by apply effect_none, no_creation.
  - cbn. intros [(-> & ->)|(_ & ->)]; [by apply effect_open|by apply effect_none, no_creation].
  - cbn. intros ->. by apply effect_close.
Qed.
#[export] Instance zookeeper : ZooKeeper master.
Proof.
  refine {| owner := zk_owner; content := zk_content; alive := zk_alive |}.
  - intros i j c s a s' Ha Hij Hal. destruct (effects _ _ _ _ _ Ha) as [| | |Hc|Hc]; [done..| |].
    + unfold zk_alive in *. cbn in Hal. apply elem_of_union in Hal as [->%elem_of_singleton|]; [|done].
      by rewrite Hij in Hc.
    + by apply drop_session_alive in Hal as [_ ?].
  - intros i s s' [j ->] Hal. by apply drop_session_alive in Hal as [_ ?].
  - intros i j c s a s' Ha Hij Hd Hal Ho. destruct (effects _ _ _ _ _ Ha) as [|d _ Hn _|Hdel Hj|Hc|Hc]; [done| | | |].
    + unfold zk_owner in Ho. by rewrite Hn in Ho.
    + by destruct (Hd Hdel).
    + assert (i ≠ j) by (intros ->; by rewrite Hij in Hc). exact (drop_session_owner i j s H Ho).
    + apply drop_session_owner; [|done]. intros ->. by rewrite Hij in Hc.
  - intros i s s' [j ->] Hal Ho. apply drop_session_owner; [|done]. by apply drop_session_alive in Hal as [? _].
  - intros j c s a s' Ha Hw _. destruct (effects _ _ _ _ _ Ha) as [Hn| |Hdel _|Hc|Hc]; [congruence|done| | |];
      unfold wins in Hw; apply bool_decide_eq_true in Hw as [[d Hd] _]; destruct c as [[]| | | | | | | | | | | |]; done.
  - intros j c s a s' Ha Hw. destruct (effects _ _ _ _ _ Ha) as [Hn|d _ Hn _|Hdel _|Hc|Hc]; [congruence| | | |];
      [unfold zk_owner; by rewrite Hn|..];
      unfold wins in Hw; apply bool_decide_eq_true in Hw as [[d Hd] _]; destruct c as [[]| | | | | | | | | | | |]; done.
  - intros j c s a s' Ha. destruct (effects _ _ _ _ _ Ha) as [Hn|d Hd Hn _|Hdel _|Hc|Hc]; [by left| | | |].
    + right. right. by exists d.
    + right. by left.
    + destruct (drop_session_content j s) as [E|E]; [by left|right; by left].
    + destruct (drop_session_content j s) as [E|E]; [by left|right; by left].
  - intros s s' [j ->]. apply drop_session_content.
  - intros j c s a s' d Ha Hr. destruct c as [[]| | | | | | | | | | | |]; try done.
    destruct path as [p|]; [|done]. destruct Ha as [-> Ha]. cbn -[size_asked] in Hr, Ha. case_bool_decide as Hp; [|done].
    destruct Hp as [-> Hrc]. destruct (Ha eq_refl Hrc) as (o & x & rest & Hn & Hm & Hl). rewrite Hm, Hl in Hr.
    exists x. split; [unfold zk_content; by rewrite Hn|]. injection Hr as <-. rewrite Nat2Z.id, take_app_length.
    rewrite length_app. replace (_ - _)%nat with 0%nat by lia. by rewrite app_nil_r.
Defined.

(** *** Runs *)

(** A service that answers: one of the answers above for each call. *)
Definition no_result : sync_result := mk_sync_result None None None None None.
Definition read_result (buf : option (list byte)) (d : list byte) : sync_result :=
  mk_sync_result (Some (d ++ drop (length d) (default [] buf))) (Some (Z.of_nat (length d)))
    (Some zero_Stat) None None.
(** [lost] is whether the answer to a creation is lost. *)
Definition serve (lost : bool) (i : nat) (c : call) (s : zk) : answer c * zk :=
  match c with
  | CSync (SCreate (Some p) (Some d) len _ mode _ _) =>
      if bool_decide (p = master ∧ mode = ZOO_EPHEMERAL) then
        if bool_decide (i ∈ zk_sessions s) then
          match zk_node s with
          | None => ((if lost then ZCONNECTIONLOSS else ZOK, no_result), zk_create i (take (Z.to_nat len) d) s)
          | Some _ => ((ZNODEEXISTS, no_result), s)
          end
        else ((ZINVALIDSTATE, no_result), s)
      else ((ZOK, no_result), s)
  | CSync (SGet (Some p) _ buf (Some len) _) =>
      match zk_node s with
      | Some (_, x) => ((ZOK, read_result buf (take (Z.to_nat len) x)), s)
      | None => ((ZNONODE, no_result), s)
      end
  | CSync _ => ((ZNONODE, no_result), s)
  | CInit _ _ _ => (None, mk_zk (zk_node (drop_session i s)) ({[i]} ∪ zk_sessions s))
  | CClose => (ZOK, drop_session i s)
  | CState => (ZOO_CONNECTED_STATE, s)
  | CRecvTimeout => (10000, s)
  | CTime => (1000, s)
  | CClientId | CSleep _ => ((), s)
  | CConnectedHost => (None, s)
  | CStopped => (false, s)
  | COpen _ | CCloseFile => (None, s)
  | CWrite _ => ((0, 0), s)
  end.
Lemma serve_answers lost i c s : zk_answers i c s (serve lost i c s).1 (serve lost i c s).2.
Proof.
  destruct c as [[[p|] [d|] len acl mode buf buflen| | | |[p|] v| | |[p|] w buf [len|] st| | | | | | | | | | | | | | |]
    |n t cl| | | | | | | | | | |]; try (cbn; auto; done).
  - cbn. case_bool_decide; [|done]. case_bool_decide; [|by right].
    destruct (zk_node s) eqn:E; [by right|left]. destruct lost; cbn; auto.
  - cbn. destruct (zk_node s) as [[o x]|]; [|done]. split; [done|]. intros _ _.
    exists o, x, (drop (length (take (Z.to_nat len) x)) (default [] buf)). done.
Qed.
(** At most [n] steps of a program. *)
Fixpoint drive {A} (n : nat) (lost : bool) (i : nat) (s : zk) (z : zookbag) (p : prog A) : zk * zookbag * prog A :=
  match n with
  | O => (s, z, p)
  | S n =>
      match p with
      | Get k => drive n lost i s z (k z)
      | Put f k => drive n lost i s (f z) k
      | Lib c k => drive n lost i (serve lost i c s).2 z (k (serve lost i c s).1)
      | _ => (s, z, p)
      end
  end.
Section runs.
Context (strerror : Z → cstring).
(** What a schedule does: [n] steps of a thread of client [i], the next iteration of its
    loop, an event for it, the end of its session. *)
Inductive act :=
  | AMain (n : nat) (lost : bool) (i : nat)
  | ALoop (i : nat)
  | ADeliver (i : nat) (type state : Z) (path : cstring)
  | AEvent (n : nat) (i : nat)
  | ADrop (i : nat).
Definition run_act (a : act) (sc : zk * list client) : option (zk * list client) :=
  let '(s, cs) := sc in
  match a with
  | AMain n lost i =>
      c ← cs !! i;
      if ended (c_event c) then None else
      let '(s', z, p) := drive n lost i s (c_bag c) (c_main c) in Some (s', <[i := set_main z p c]> cs)
  | ALoop i =>
      c ← cs !! i;
      match c_main c with
      | Done Exited => None
      | Done pl =>
          if ended (c_event c) then None else Some (s, <[i := set_place pl (body strerror (c_app c) pl) c]> cs)
      | _ => None
      end
  | ADeliver i type state path =>
      c ← cs !! i;
      match c_event c with
      | Done () =>
          if ended (c_main c) || negb (bool_decide (i ∈ zk_sessions s)) then None else
          Some (s, <[i := set_event (c_bag c) (zk_watcher (app_handlers strerror (c_app c)) type state path) c]> cs)
      | _ => None
      end
  | AEvent n i =>
      c ← cs !! i;
      if ended (c_main c) then None else
      let '(s', z, p) := drive n false i s (c_bag c) (c_event c) in Some (s', <[i := set_event z p c]> cs)
  | ADrop i => Some (drop_session i s, cs)
  end.
Fixpoint run_acts (l : list act) (sc : zk * list client) : option (zk * list client) :=
  match l with [] => Some sc | a :: l => sc ← run_act a sc; run_acts l sc end.

Lemma drive_steps {A} n lost i : ∀ s z (p : prog A), rtc (pstep i) (s, z, p) (drive n lost i s z p).
Proof.
  induction n as [|n IH]; intros s z p; [done|]. destruct p; cbn [drive]; try done;
    (eapply rtc_l; [|apply IH]); constructor. apply serve_answers.
Qed.
Lemma pstep_running {A} i s z (p : prog A) y : pstep i (s, z, p) y → ended p = false.
Proof. by inversion 1. Qed.
Lemma lift_main i cs c x y : cs !! i = Some c → ended (c_event c) = false → rtc (pstep i) x y →
  rtc (step strerror) (x.1.1, <[i := set_main x.1.2 x.2 c]> cs) (y.1.1, <[i := set_main y.1.2 y.2 c]> cs).
Proof.
  intros Hi He. induction 1 as [x|[[s z] p] [[s1 z1] p1] y Hp _ IH]; [done|]. eapply rtc_l; [|exact IH]. cbn.
  pose proof (@step_main service strerror s (<[i := set_main z p c]> cs) i (set_main z p c) s1 z1 p1) as Hs.
  rewrite list_insert_insert_eq in Hs. apply Hs; [|unfold runs; cbn|done].
  - apply list_lookup_insert_eq. by eapply lookup_lt_Some.
  - by rewrite (pstep_running i s z p _ Hp), He.
Qed.
Lemma lift_event i cs c x y : cs !! i = Some c → ended (c_main c) = false → rtc (pstep i) x y →
  rtc (step strerror) (x.1.1, <[i := set_event x.1.2 x.2 c]> cs) (y.1.1, <[i := set_event y.1.2 y.2 c]> cs).
Proof.
  intros Hi He. induction 1 as [x|[[s z] p] [[s1 z1] p1] y Hp _ IH]; [done|]. eapply rtc_l; [|exact IH]. cbn.
  pose proof (@step_event service strerror s (<[i := set_event z p c]> cs) i (set_event z p c) s1 z1 p1) as Hs.
  rewrite list_insert_insert_eq in Hs. apply Hs; [|unfold runs; cbn|done].
  - apply list_lookup_insert_eq. by eapply lookup_lt_Some.
  - by rewrite (pstep_running i s z p _ Hp), He.
Qed.
Lemma run_act_steps a sc sc' : run_act a sc = Some sc' → rtc (step strerror) sc sc'.
Proof.
  destruct sc as [s cs]. destruct a as [n lost i|i|i type state path|n i|i]; cbn -[drive body zk_watcher app_handlers].
  - destruct (cs !! i) as [c|] eqn:Hi; [|done]. cbn -[drive]. destruct (ended (c_event c)) eqn:He; [done|].
    pose proof (lift_main i cs c _ _ Hi He (drive_steps n lost i s (c_bag c) (c_main c))) as Hr. cbn -[drive] in Hr.
    destruct (drive n lost i s (c_bag c) (c_main c)) as [[s' z] p]. intros [= <-].
    rewrite (list_insert_id cs) in Hr; [done|by destruct c].
  - destruct (cs !! i) as [c|] eqn:Hi; [|done]. cbn -[body]. destruct (c_main c) as [pl| | | | |] eqn:Em; try done.
    intros E. assert (pl ≠ Exited) as Hpl by (by intros ->).
    assert (ended (c_event c) = false ∧ sc' = (s, <[i := set_place pl (body strerror (c_app c) pl) c]> cs)) as [He ->]
      by (destruct (ended (c_event c)), pl; try done; injection E as <-; done).
    apply rtc_once. eapply (@step_loop service); [done| |done|done]. unfold runs. by rewrite Em, He.
  - destruct (cs !! i) as [c|] eqn:Hi; [|done]. cbn -[zk_watcher app_handlers].
    destruct (c_event c) as [[]| | | | |] eqn:Ev; try done. destruct (ended (c_main c)) eqn:Em; [done|].
    case_bool_decide as Hal; [|done]. cbn -[zk_watcher app_handlers]. intros [= <-].
    apply rtc_once. eapply (@step_deliver service); [done| |done|done]. unfold runs. by rewrite Em, Ev.
  - destruct (cs !! i) as [c|] eqn:Hi; [|done]. cbn -[drive]. destruct (ended (c_main c)) eqn:He; [done|].
    pose proof (lift_event i cs c _ _ Hi He (drive_steps n false i s (c_bag c) (c_event c))) as Hr. cbn -[drive] in Hr.
    destruct (drive n false i s (c_bag c) (c_event c)) as [[s' z] p]. intros [= <-].
    rewrite (list_insert_id cs) in Hr; [done|by destruct c].
  - intros [= <-]. apply rtc_once, (@step_moves service). by exists i.
Qed.
Lemma run_acts_steps l : ∀ sc sc', run_acts l sc = Some sc' → rtc (step strerror) sc sc'.
Proof.
  induction l as [|a l IH]; intros sc sc'; cbn -[run_act]; [by intros [= ->]|].
  destruct (run_act a sc) as [sc1|] eqn:E; [|done]. intros Hl. etrans; [by eapply run_act_steps|by apply IH].
Qed.
End runs.
End Server.

(** ** Samples *)
Definition no_text : Z → cstring := λ _, [].
Definition sample_app (data : cstring) : MyApp :=
  mk_MyApp Server.master data (lit "/nodes") (lit "test1") (lit "123").
Definition sample_clients (data : list cstring) : list client :=
  started no_text (lit "127.0.0.1:2181") 10 <$> (sample_app <$> data).
Definition no_node : Server.zk := Server.mk_zk None ∅.
(** A client starts, and races once. *)
Definition start_and_race (i : nat) : list Server.act :=
  [Server.AMain 20 false i; Server.ALoop i; Server.AMain 20 false i; Server.ALoop i].
Definition sample_run (l : list Server.act) (data : list cstring) : Server.zk * list client :=
  default (no_node, []) (Server.run_acts no_text l (no_node, sample_clients data)).
Definition places (sc : Server.zk * list client) : list place := c_place <$> sc.2.
(** A schedule that can be followed. *)
Definition possible (l : list Server.act) (data : list cstring) : bool :=
  match Server.run_acts no_text l (no_node, sample_clients data) with Some _ => true | None => false end.
Lemma schedule_steps l data : possible l data = true →
  rtc (@step Server.service no_text) (no_node, sample_clients data) (sample_run l data).
Proof.
  unfold possible, sample_run. destruct (Server.run_acts no_text l (no_node, sample_clients data)) eqn:E; [|done].
  intros _. by apply (Server.run_acts_steps no_text l).
Qed.
Lemma sample_configured data : data ≠ zk_1 → Z.of_nat (length data) < 2 ^ 31 →
  @configured Server.master (sample_app data).
Proof. intros Hd Hl. split_and!; [done..|]. done. Qed.
(** The first of two clients works. *)
Definition sample_won : Server.zk * list client :=
  sample_run (start_and_race 0 ++ start_and_race 1) [lit "zk_2"; lit "zk_3"].
Lemma sample_won_places : places sample_won = [Working false; Racing].
Proof. vm_compute. reflexivity. Qed.
Lemma sample_won_alive : bool_decide (0%nat ∈ Server.zk_sessions sample_won.1) = true.
Proof. vm_compute. reflexivity. Qed.
Lemma sample_won_steps :
  rtc (@step Server.service no_text) (no_node, sample_clients [lit "zk_2"; lit "zk_3"]) sample_won.
Proof. apply schedule_steps. vm_compute. reflexivity. Qed.
Lemma first_works sc pl : places sc = Working false :: pl → ∃ c, sc.2 !! 0%nat = Some c ∧ works c.
Proof.
  unfold places. destruct sc.2 as [|c cs]; [done|]. intros [= Hc _]. exists c. split; [done|by exists false].
Qed.
Lemma one_master_witness : Server.zk_owner sample_won.1 = Some 0%nat.
Proof.
  pose proof sample_won_steps as Hr. pose proof (first_works _ _ sample_won_places) as (c & Hc & Hw).
  pose proof (proj1 (bool_decide_eq_true _) sample_won_alive) as Hal.
  revert Hr Hc Hal. generalize sample_won. intros [s cs] Hr Hc Hal.
  refine (proj1 (@one_master Server.service Server.master Server.zookeeper no_text no_node (lit "127.0.0.1:2181") 10
    (sample_app <$> [lit "zk_2"; lit "zk_3"]) s cs _ _ Hr) 0%nat c Hc Hw Hal); [|done].
  repeat constructor; by apply sample_configured.
Defined.
(** The node is there with the first client as its owner, who was never told. *)
Definition sample_lost : Server.zk := Server.mk_zk (Some (0%nat, lit "zk_2")) {[0%nat; 1%nat]}.
Definition sample_racing : client :=
  mk_client (sample_app (lit "zk_2")) (set_handle true new_zookbag) Racing (run_body no_text (sample_app (lit "zk_2")))
    (Done ()).
Lemma unclaimed_node_witness : ∃ p, ∀ j c,
  [set_main (set_handle true new_zookbag) p sample_racing] !! j = Some c → ¬ works c.
Proof.
  eexists. refine (@unclaimed_node Server.service Server.master Server.zookeeper no_text 0%nat sample_lost
    [sample_app (lit "zk_2")] [set_handle true new_zookbag] (sample_lost, _) _ _ _ _); [|done|done|].
  - repeat constructor; by apply sample_configured.
  - apply rtc_once. split; [|done].
    apply (@step_main Server.service no_text sample_lost [sample_racing] 0%nat sample_racing sample_lost); [done|done|].
    apply (@pstep_lib Server.service _ 0%nat sample_lost _ CStopped _ false sample_lost). done.
Defined.

(** C36. With the configuration that comes with the program, in which a client writes
    [zk_1], there are two masters: any other client that finds this text in the node takes
    itself for its owner and works as well, while both sessions are alive. *)
Theorem two_masters data : ∃ s cs,
  rtc (@step Server.service no_text) (no_node, sample_clients [lit "zk_1"; data]) (s, cs) ∧
  c_place <$> cs = [Working false; Working true] ∧
  Server.zk_alive s 0 ∧ Server.zk_alive s 1 ∧ Server.zk_owner s = Some 0%nat.
Proof.
  set (l := start_and_race 0 ++ start_and_race 1). set (sc := sample_run l [lit "zk_1"; data]).
  assert (rtc (@step Server.service no_text) (no_node, sample_clients [lit "zk_1"; data]) sc) as Hr
    by (apply schedule_steps; vm_compute; reflexivity).
  assert (places sc = [Working false; Working true]) as Hp by (vm_compute; reflexivity).
  assert (bool_decide (0%nat ∈ Server.zk_sessions sc.1) = true) as H0 by (vm_compute; reflexivity).
  assert (bool_decide (1%nat ∈ Server.zk_sessions sc.1) = true) as H1 by (vm_compute; reflexivity).
  assert (Server.zk_owner sc.1 = Some 0%nat) as Ho by (vm_compute; reflexivity).
  revert Hr Hp H0 H1 Ho. generalize sc. intros [s cs] Hr Hp H0 H1 Ho. exists s, cs.
  split_and!; [done|done|by apply bool_decide_eq_true in H0|by apply bool_decide_eq_true in H1|done].
Qed.

(** A node that goes between the two calls of a client that lost the race ends the client:
    the exception of [get_zk_data] leaves [run]. *)
Lemma backup_dies : ∃ sc c,
  rtc (@step Server.service no_text) (no_node, sample_clients [lit "zk_2"; lit "zk_3"]) sc ∧
  sc.2 !! 1%nat = Some c ∧ c_main c = Throw (CException (lit "get path:///master data failed: no node") ZNONODE).
Proof.
  set (l := start_and_race 0 ++ [Server.AMain 20 false 1; Server.ALoop 1; Server.AMain 3 false 1; Server.ADrop 0;
    Server.AMain 20 false 1]).
  set (sc := sample_run l [lit "zk_2"; lit "zk_3"]). exists sc.
  assert (rtc (@step Server.service no_text) (no_node, sample_clients [lit "zk_2"; lit "zk_3"]) sc) as Hr
    by (apply schedule_steps; vm_compute; reflexivity).
  assert (c_main <$> sc.2 !! 1%nat = Some (Throw (CException (lit "get path:///master data failed: no node") ZNONODE))) as Hm
    by (vm_compute; reflexivity).
  revert Hr Hm. generalize sc. intros x Hr Hm. destruct (x.2 !! 1%nat) as [c|] eqn:E; [|done]. exists c.
  split_and!; [done..|]. by injection Hm.
Qed.
(** [zookeeper_init] starts the threads of the library before it returns: an event that
    comes before [create_session] has stored the handle is handled with the handle NULL. *)
Lemma callback_too_early : ∃ sc c,
  rtc (@step Server.service no_text) (no_node, sample_clients [lit "zk_2"]) sc ∧
  sc.2 !! 0%nat = Some c ∧ c_event c = Undefined.
Proof.
  set (l := [Server.AMain 3 false 0; Server.ADeliver 0 ZOO_SESSION_EVENT ZOO_CONNECTED_STATE []; Server.AEvent 1 0]).
  set (sc := sample_run l [lit "zk_2"]). exists sc.
  assert (rtc (@step Server.service no_text) (no_node, sample_clients [lit "zk_2"]) sc) as Hr
    by (apply schedule_steps; vm_compute; reflexivity).
  assert (c_event <$> sc.2 !! 0%nat = Some Undefined) as Hm by (vm_compute; reflexivity).
  revert Hr Hm. generalize sc. intros x Hr Hm. destruct (x.2 !! 0%nat) as [c|] eqn:E; [|done]. exists c.
  split_and!; [done..|]. by injection Hm.
Qed.
