(* ===== verification/LoadGen.v ===== *)
(** * The load generator

    src/load_gen.c, which is built with threads: [recursiveDelete] with the two synchronous
    calls it makes, and the cycle of [main], in which the main thread makes asynchronous
    requests and waits on a counter that the completions, called by the thread of the
    library, count down.  What is logged is left out. *)

From S2P Require Import Prelude RecordIO Jute Path Watchers Addrvec Hosts HostsTheorems Handshake Transport Handle.
From S2P Require Import Session Requests Interest Init Cli.
Local Open Scope Z_scope.

(** [snprintf(buf, size, ...)]: what is in the buffer up to the NUL. *)
Definition snprintf (size : nat) (text : cstring) : cstring := take (size - 1) text.
(** A path and a name with a slash between them. *)
Definition join (root name : cstring) : cstring := root ++ slash :: name.

(** ** Deleting a subtree *)

(** What [zoo_get_children] and [zoo_delete] with version -1 return, and what they do to the
    nodes of the service: the library and the service behind it. *)
Class Tree := {
  store : Type;
  zoo_get_children : cstring → store → Z * vector (option cstring) * store;
  zoo_delete : cstring → store → Z * store;
}.
(** [children.data[0]] to [children.data[children.count - 1]]. *)
Definition children_data (v : vector (option cstring)) : outcome (list (option cstring)) :=
  let data := take (Z.to_nat (v_count v)) (default [] (v_data v)) in
  if v_count v <=? Z.of_nat (length data) then Ret data else UB.

Section delete.
Context `{Tree}.
(** The store and [deletedCounter]. *)
Definition MD (A : Type) : Type := store * Z → outcome (A * (store * Z)).
Global Instance MD_ret : MRet MD := λ A a x, Ret (a, x).
Global Instance MD_bind : MBind MD := λ A B f m x, '(a, x) ← m x; f a x.
Definition of_outcome {A} (m : outcome A) : MD A := λ x, a ← m; Ret (a, x).
Definition get_children (path : cstring) : MD (Z * vector (option cstring)) := λ '(s, d),
  let '(rc, v, s) := zoo_get_children path s in Ret ((rc, v), (s, d)).
Definition delete (path : cstring) : MD Z := λ '(s, d), let '(rc, s) := zoo_delete path s in Ret (rc, (s, d)).
Definition count_deleted : MD () := λ '(s, d), if d =? INT_MAX then UB else Ret ((), (s, d + 1)).

(** The loop over the children: [deletes] is the recursive call.  NULL is no name. *)
Fixpoint delete_children (deletes : cstring → MD Z) (root : cstring) (l : list (option cstring)) : MD Z :=
  match l with
  | [] => mret ZOK
  | None :: _ => of_outcome UB
  | Some name :: l =>
      rc ← deletes (snprintf 2048 (join root name));
      if negb (rc =? ZOK) then mret rc else delete_children deletes root l
  end.
(** The node itself, after its children. *)
Definition delete_node (root : cstring) : MD Z :=
  rc ← delete root;
  (if negb (rc =? ZOK) then mret () else count_deleted);; mret rc.
Fixpoint recursiveDelete (fuel : nat) (root : cstring) : MD Z :=
  match fuel with
  | O => of_outcome Loop
  | S fuel =>
      '(rc, children) ← get_children root;
      if rc =? ZNONODE then delete_node root
      else if negb (rc =? ZOK) then mret rc else
      l ← of_outcome (children_data children);
      rc ← delete_children (recursiveDelete fuel) root l;
      if negb (rc =? ZOK) then mret rc else delete_node root
  end.
End delete.

(** ** The cycle *)
Inductive phase := Creates | Writes | Reads | Deletes.
(** The request [i] of a phase, for a node below [root]. *)
Definition nodeName (root : cstring) (i : Z) : cstring := snprintf 1024 (join root (decimal i)).
Definition load_request (root : cstring) (ph : phase) (i : Z) : request :=
  let name := Some (nodeName root i) in
  match ph with
  | Creates => Create name (Some (lit "first")) 5 (Some ZOO_OPEN_ACL_UNSAFE) 0
  | Writes => SetData name (Some (lit "second")) 6 (-1)
  | Reads => Get name 0
  | Deletes => Delete name (-1)
  end.
Definition next_phase (ph : phase) : option phase :=
  match ph with Creates => Some Writes | Writes => Some Reads | Reads => Some Deletes | Deletes => None end.

(** Where the main thread is: in [ensureConnected]; about to begin a phase; in the loop of a
    phase, before [incCounter(1)] and before the request; in [waitCounter]. *)
Inductive load_pc :=
  | Connecting
  | Beginning (ph : phase)
  | Counting (ph : phase) (i : Z)
  | Calling (ph : phase) (i : Z)
  | Waiting (ph : phase).
(** The requests the library has accepted and not answered, and those it has answered, are
    not of the program; [counter] is. *)
Record load := mk_load {
  counter : Z;
  lg_pc : load_pc;
  lg_pending : list request;
  lg_answered : list request;
}.
Definition set_pc (p : load_pc) (l : load) : load := mk_load (counter l) p (lg_pending l) (lg_answered l).
Definition incCounter (delta : Z) (l : load) : load :=
  mk_load (counter l + delta) (lg_pc l) (lg_pending l) (lg_answered l).
Definition setCounter (cnt : Z) (l : load) : load := mk_load cnt (lg_pc l) (lg_pending l) (lg_answered l).
(** The test of the loop of [waitCounter]. *)
Definition waitCounter_leaves (l : load) : bool := negb (0 <? counter l).
(** [doWrites], [doReads] and [doDeletes] begin with [counter=0], [doCreateNodes] does not. *)
Definition begin_phase (ph : phase) (l : load) : load :=
  match ph with Creates => l | _ => setCounter 0 l end.

(** What a step is: of the main thread, with the answer of the library to a request; a
    completion; a session event. *)
Inductive load_event := Main | Refused (rc : Z) | Completed | SessionEvent.
Definition accept (r : request) (l : load) : load :=
  mk_load (counter l) (lg_pc l) (lg_pending l ++ [r]) (lg_answered l).
(** [listener] for a session event, and a completion for the oldest request. *)
Definition listener (l : load) : load := setCounter 0 l.
Definition completed (l : load) : option load :=
  match lg_pending l with
  | [] => None
  | r :: rest => Some (incCounter (-1) (mk_load (counter l) (lg_pc l) rest (lg_answered l ++ [r])))
  end.
Section cycle.
Context (root : cstring) (nodeCount : Z).
Definition main_step (refused : bool) (l : load) : option load :=
  match lg_pc l with
  | Connecting => if refused then None else Some (set_pc (Beginning Creates) l)
  | Beginning ph => if refused then None else Some (set_pc (Counting ph 0) (begin_phase ph l))
  | Counting ph i =>
      if refused then None else
      if i <? nodeCount then Some (set_pc (Calling ph i) (incCounter 1 l)) else Some (set_pc (Waiting ph) l)
  | Calling ph i =>
      if refused then Some (set_pc (Waiting ph) l)
      else Some (set_pc (Counting ph (i + 1)) (accept (load_request root ph i) l))
  | Waiting ph =>
      if refused || negb (waitCounter_leaves l) then None else
      Some (set_pc match next_phase ph with Some ph => Beginning ph | None => Connecting end l)
  end.
Definition load_step (e : load_event) (l : load) : option load :=
  match e with
  | Main => main_step false l
  | Refused rc => if rc =? ZOK then None else main_step true l
  | Completed => completed l
  | SessionEvent => Some (listener l)
  end.
Definition load_start : load := mk_load 0 Connecting [] [].
End cycle.

(** [read_completion] for an answer: the data must begin with [second]; [None] is
    [exit(1)].  [memcmp] looks at six bytes, however many there are. *)
Definition read_completion (rc : Z) (value : option (list byte)) : outcome (option ()) :=
  if negb (rc =? ZOK) then Ret (Some ()) else
  match value with
  | None => UB
  | Some value =>
      if (length value <? 6)%nat then UB
      else if bool_decide (take 6 value = lit "second") then Ret (Some ()) else Ret None
  end.
