(* ===== verification/LoadGenTheorems.v ===== *)
(** * Theorems about the load generator

    [recursiveDelete] deletes a subtree and nothing else, and ends, if no path is too long;
    the counter the main
    thread waits on says how many requests are unanswered, so that a phase begins when the
    requests of the one before have been answered; what one refused request does. *)

From S2P Require Import Prelude RecordIO Jute Path Watchers Addrvec Hosts HostsTheorems Handshake Transport Handle.
From S2P Require Import Session Requests Interest Init Cli LoadGen.
Local Open Scope Z_scope.

(** ** Subtrees *)
Definition under (root p : cstring) : Prop := p = root ∨ root ++ [slash] `prefix_of` p.
Global Instance under_dec root p : Decision (under root p).
Proof. unfold under. apply _. Defined.
Definition subtree (root : cstring) (t : gset cstring) : gset cstring := filter (under root) t.
Definition slashless (name : cstring) : Prop := Forall (λ c, c ≠ slash) name.

Lemma under_join root name p : under (join root name) p → under root p ∧ p ≠ root.
Proof.
  unfold join. intros [->|[r ->]].
  - split; [right; exists name; by rewrite <- app_assoc|]. intros E%(f_equal length). rewrite length_app in E. simpl in E. lia.
  - split; [right; exists (name ++ slash :: r); by rewrite <- !app_assoc|].
    intros E%(f_equal length). rewrite !length_app in E. simpl in E. lia.
Qed.
(** Names without slashes have their own subtrees. *)
Lemma slashless_first a b r r' : slashless a → slashless b → a ++ slash :: r = b ++ slash :: r' → a = b.
Proof.
  intros Ha. revert b. induction Ha as [|c a Hc _ IH]; intros [|d b] Hb E; simpl in E; [done| | |].
  - injection E as <- _. by apply Forall_cons in Hb as [? _].
  - by injection E as -> _.
  - injection E as -> E. apply Forall_cons in Hb as [_ Hb]. f_equal. by apply IH.
Qed.
Lemma slashless_no a b r : slashless a → a ≠ b ++ slash :: r.
Proof. intros Ha ->. apply Forall_app in Ha as [_ Ha]. by apply Forall_cons in Ha as [? _]. Qed.
Lemma under_apart root a b p : slashless a → slashless b → under (join root a) p → under (join root b) p → a = b.
Proof.
  unfold join. intros Ha Hb [->|[r ->]] [E|[r' E]]; rewrite <- ?app_assoc in E; apply app_inv_head in E; simpl in E.
  - by injection E as ->.
  - injection E as E. rewrite <- ?app_assoc in E. by apply slashless_no in E.
  - injection E as E. rewrite <- ?app_assoc in E. symmetry in E. by apply slashless_no in E.
  - injection E as E. rewrite <- ?app_assoc in E. by apply slashless_first in E.
Qed.
(** A path below a root is below one of its names. *)
Lemma first_name rest : ∃ name, slashless name ∧ (rest = name ∨ ∃ r, rest = name ++ slash :: r).
Proof.
  induction rest as [|c rest (name & Hn & IH)]; [exists []; split; [constructor|by left]|].
  destruct (decide (c = slash)) as [->|Hc].
  - exists []. split; [constructor|]. right. by exists rest.
  - exists (c :: name). split; [by constructor|]. destruct IH as [->|[r ->]]; [by left|right; by exists r].
Qed.

(** ** The service *)

(** What the service promises, if nobody else changes the nodes: the children are the nodes
    one level down; only a node with nothing below it is deleted; an error may hide a
    deletion that was done. *)
Class TreeLaws `{Tree} := {
  nodes : store → gset cstring;
  nodes_closed s p name r : slashless name → join p (name ++ slash :: r) ∈ nodes s → join p name ∈ nodes s;
  children_keep p s rc v s' : zoo_get_children p s = (rc, v, s') → nodes s' = nodes s;
  children_ok p s v s' : zoo_get_children p s = (ZOK, v, s') → p ≠ [slash] →
    p ∈ nodes s ∧ ∃ names, children_data v = Ret (Some <$> names) ∧ NoDup names ∧
      ∀ name, name ∈ names ↔ slashless name ∧ join p name ∈ nodes s;
  delete_any p s rc s' : zoo_delete p s = (rc, s') → nodes s' = nodes s ∨ nodes s' = nodes s ∖ {[p]};
  delete_ok p s s' : zoo_delete p s = (ZOK, s') →
    p ∈ nodes s ∧ nodes s' = nodes s ∖ {[p]} ∧ subtree p (nodes s') = ∅;
}.
(** A service that never fails to do what it can. *)
Definition reliable `{TreeLaws} : Prop :=
  (∀ p s, p ∈ nodes s → (zoo_get_children p s).1.1 = ZOK) ∧
  (∀ p s, p ∈ nodes s → subtree p (nodes s) = {[p]} → (zoo_delete p s).1 = ZOK).

Section deletion.
Context `{TreeLaws}.

(** What a deletion below [root] does to the nodes and to [deletedCounter]. *)
Definition sz (s : store) : Z := Z.of_nat (size (nodes s)).
Definition deleted (root : cstring) (s : store) (d rc : Z) (s' : store) (d' : Z) : Prop :=
  nodes s' ⊆ nodes s ∧ (∀ q, q ∈ nodes s → ¬ under root q → q ∈ nodes s') ∧
  d' + sz s' ≤ d + sz s ∧
  (rc = ZOK → subtree root (nodes s') = ∅ ∧ d' + sz s' = d + sz s).
Definition fits (s : store) (d : Z) : Prop := d + sz s ≤ INT_MAX.
Definition short (root : cstring) (s : store) : Prop := ∀ q, under root q → q ∈ nodes s → (length q < 2048)%nat.

Lemma elem_of_subtree root t q : q ∈ subtree root t ↔ under root q ∧ q ∈ t.
Proof. unfold subtree. apply elem_of_filter. Qed.
Lemma size_minus_one s s' p : p ∈ nodes s → nodes s' = nodes s ∖ {[p]} → sz s' = sz s - 1.
Proof.
  intros Hp E. unfold sz. rewrite E. rewrite size_difference by set_solver. rewrite size_singleton.
  assert (size (nodes s) ≠ 0%nat) by (intros Hz%size_empty_inv; set_solver). lia.
Qed.
Lemma delete_node_spec root s d : fits s d →
  ∃ rc s' d', delete_node root (s, d) = Ret (rc, (s', d')) ∧ deleted root s d rc s' d' ∧
    (reliable → root ∈ nodes s → subtree root (nodes s) = {[root]} → rc = ZOK).
Proof.
  intros Hf. unfold delete_node, delete, count_deleted, mbind, MD_bind, mret, MD_ret.
  destruct (zoo_delete root s) as [rc s'] eqn:E. cbn.
  assert (reliable → root ∈ nodes s → subtree root (nodes s) = {[root]} → rc = ZOK) as Hrel.
  { intros [_ Hr] Hin Hsub. specialize (Hr root s Hin Hsub). by rewrite E in Hr. }
  destruct (Z.eqb_spec rc ZOK) as [->|Hrc]; cbn.
  - destruct (delete_ok _ _ _ E) as (Hin & Hn & Hsub). pose proof (size_minus_one s s' root Hin Hn) as Hsz.
    assert (0 ≤ sz s') by (unfold sz; lia). unfold fits in Hf.
    destruct (Z.eqb_spec d INT_MAX) as [->|_]; [lia|]. exists ZOK, s', (d + 1). split_and!; [done| |done].
    split_and!; [set_solver| |lia|intros _; split; [done|lia]].
    intros q Hq Hu. rewrite Hn. apply elem_of_difference. split; [done|]. intros ->%elem_of_singleton. apply Hu. by left.
  - exists rc, s', d. split_and!; [done| |done]. destruct (delete_any _ _ _ _ E) as [Hn|Hn].
    + split_and!; [set_solver|intros; by rewrite Hn|unfold sz; rewrite Hn; lia|done].
    + split_and!; [set_solver| | |done].
      * intros q Hq Hu. rewrite Hn. apply elem_of_difference. split; [done|]. intros ->%elem_of_singleton. apply Hu. by left.
      * unfold sz. rewrite Hn. assert (size (nodes s ∖ {[root]}) ≤ size (nodes s))%nat by (apply subseteq_size; set_solver). lia.
Qed.

(** The recursive call on a child, for a store that has shrunk. *)
Definition call_ok (deletes : cstring → MD Z) (t : gset cstring) (p : cstring) : Prop :=
  ∀ s d, nodes s ⊆ t → fits s d →
    ∃ rc s' d', deletes p (s, d) = Ret (rc, (s', d')) ∧ deleted p s d rc s' d' ∧
      (reliable → p ∈ nodes s → rc = ZOK).
Definition cleared (root : cstring) (names : list cstring) (s : store) (d rc : Z) (s' : store) (d' : Z) : Prop :=
  nodes s' ⊆ nodes s ∧ (∀ q, q ∈ nodes s → (∀ name, name ∈ names → ¬ under (join root name) q) → q ∈ nodes s') ∧
  d' + sz s' ≤ d + sz s ∧
  (rc = ZOK → (∀ name, name ∈ names → subtree (join root name) (nodes s') = ∅) ∧ d' + sz s' = d + sz s).
Lemma subtree_empty_mono root t t' : t' ⊆ t → subtree root t = ∅ → subtree root t' = ∅.
Proof. unfold subtree. set_solver. Qed.
Lemma delete_children_spec deletes root t names : ∀ s d, nodes s ⊆ t → fits s d →
  (∀ name, name ∈ names → slashless name ∧ snprintf 2048 (join root name) = join root name ∧ call_ok deletes t (join root name)) →
  NoDup names →
  ∃ rc s' d', delete_children deletes root (Some <$> names) (s, d) = Ret (rc, (s', d')) ∧
    cleared root names s d rc s' d' ∧
    (reliable → (∀ name, name ∈ names → join root name ∈ nodes s) → rc = ZOK).
Proof.
  induction names as [|name names IH]; intros s d Ht Hf Hn Hd.
  { exists ZOK, s, d. split_and!; [done| |done]. split_and!; [done|auto|lia|intros _; split; [by intros ? ?%elem_of_nil|done]]. }
  apply NoDup_cons in Hd as [Hnew Hd]. destruct (Hn name (list_elem_of_here _ _)) as (Hsl & Hsn & Hcall).
  cbn [fmap list_fmap delete_children]. rewrite Hsn. unfold mbind, MD_bind.
  destruct (Hcall s d Ht Hf) as (rc & s1 & d1 & -> & (H1 & H2 & H3 & H4) & Hrel). cbn [mbind outcome_bind].
  destruct (Z.eqb_spec rc ZOK) as [->|Hrc]; cbn [negb].
  - destruct (IH s1 d1) as (rc2 & s2 & d2 & -> & (G1 & G2 & G3 & G4) & Grel);
      [by etrans|unfold fits in *; lia|intros n' Hn'; apply Hn; by right|done|].
    destruct (H4 eq_refl) as [H5 H6].
    exists rc2, s2, d2. split_and!; [done| |].
    + split_and!; [by etrans| |lia|].
      * intros q Hq Hu. apply G2; [apply H2; [done|apply Hu; by left]|]. intros n' Hn'. apply Hu. by right.
      * intros Hok. destruct (G4 Hok) as [G5 G6]. split; [|lia]. intros n' [->|Hn']%elem_of_cons; [|by apply G5].
        by eapply subtree_empty_mono.
    + intros Hr Hall. apply Grel; [done|]. intros n' Hn'. apply H2; [apply Hall; by right|]. intros Hu.
      assert (n' = name) as ->; [|done]. apply (under_apart root n' name (join root n')); [|done|by left|done].
      apply (Hn n'). by right.
  - exists rc, s1, d1. split_and!; [done| |].
    + split_and!; [done| |done|done]. intros q Hq Hu. apply H2; [done|]. apply Hu. by left.
    + intros Hr Hall. apply Hrel; [done|]. apply Hall. by left.
Qed.
Lemma join_not_root root name : root ≠ [] → join root name ≠ [slash].
Proof. intros Hr E%(f_equal length). unfold join in E. rewrite length_app in E. destruct root; simpl in E; [done|lia]. Qed.
(** Nothing is left below [root] if nothing is left below its children. *)
Lemma only_root root (names : list cstring) (s s' : store) :
  (∀ name, name ∈ names ↔ slashless name ∧ join root name ∈ nodes s) → nodes s' ⊆ nodes s → root ∈ nodes s' →
  (∀ name, name ∈ names → subtree (join root name) (nodes s') = ∅) → subtree root (nodes s') = {[root]}.
Proof.
  intros Hnames Hsub Hroot Hempty. apply set_eq. intros q. rewrite elem_of_subtree, elem_of_singleton. split.
  - intros [[->|[rest ->]] Hq]; [done|]. exfalso. destruct (first_name rest) as (name & Hn & Hr).
    assert (join root name ∈ nodes s ∧ under (join root name) ((root ++ [slash]) ++ rest)) as [Hin Hu].
    { unfold join. destruct Hr as [->|[r ->]]; rewrite <- app_assoc in *; simpl in *.
      - split; [by apply Hsub|by left].
      - split; [eapply nodes_closed; [done|]; by apply Hsub|]. right. exists r. by rewrite <- !app_assoc. }
    specialize (Hempty name (proj2 (Hnames name) (conj Hn Hin))).
    assert ((root ++ [slash]) ++ rest ∈ subtree (join root name) (nodes s')) by (by apply elem_of_subtree). set_solver.
  - intros ->. split; [by left|done].
Qed.
(** A child has a smaller subtree. *)
Lemma child_smaller (root name : cstring) (t t' : gset cstring) : root ∈ t → t' ⊆ t →
  (size (subtree (join root name) t') < size (subtree root t))%nat.
Proof.
  intros Hr Ht. apply subset_size. split.
  - intros q [Hu Hq]%elem_of_subtree. apply elem_of_subtree. apply under_join in Hu as [Hu _]. set_solver.
  - intros Hs. assert (root ∈ subtree (join root name) t') as [Hu _]%elem_of_subtree.
    { apply Hs, elem_of_subtree. split; [by left|done]. }
    by apply under_join in Hu as [_ ?].
Qed.
Lemma cleared_keeps root names s d rc s' d' q : cleared root names s d rc s' d' → q ∈ nodes s → ¬ under root q ∨ q = root →
  q ∈ nodes s'.
Proof.
  intros (_ & H2 & _) Hq Hu. apply H2; [done|]. intros name _ Hu'. apply under_join in Hu' as [? ?]. by destruct Hu.
Qed.
Lemma cleared_deleted root names s d rc s' d' : cleared root names s d rc s' d' → rc ≠ ZOK → deleted root s d rc s' d'.
Proof.
  intros Hc Hrc. split_and!; [apply Hc| |apply Hc|done]. intros q Hq Hu. eapply cleared_keeps; [done..|]. by left.
Qed.
Lemma cleared_then root names s d s1 d1 rc s' d' : cleared root names s d ZOK s1 d1 → deleted root s1 d1 rc s' d' →
  deleted root s d rc s' d'.
Proof.
  intros Hc (G1 & G2 & G3 & G4). pose proof Hc as (H1 & _ & H3 & H4). destruct (H4 eq_refl) as [_ H6].
  split_and!; [set_solver| |lia|intros Hok; destruct (G4 Hok); split; [done|lia]].
  intros q Hq Hu. apply G2; [|done]. eapply cleared_keeps; [done..|]. by left.
Qed.
Lemma recursiveDelete_spec fuel : ∀ root s d, (size (subtree root (nodes s)) < fuel)%nat →
  root ≠ [] → root ≠ [slash] → short root s → fits s d →
  ∃ rc s' d', recursiveDelete fuel root (s, d) = Ret (rc, (s', d')) ∧ deleted root s d rc s' d' ∧
    (reliable → root ∈ nodes s → rc = ZOK).
Proof.
  induction fuel as [|fuel IH]; intros root s d Hfuel Hr0 Hr1 Hshort Hf; [lia|]. cbn [recursiveDelete].
  unfold get_children, of_outcome, mbind, MD_bind. destruct (zoo_get_children root s) as [[rc v] s1] eqn:E.
  pose proof (children_keep _ _ _ _ _ E) as Hk.
  assert (fits s1 d) as Hf1 by (unfold fits, sz in *; by rewrite Hk).
  assert (∀ rc s' d', deleted root s1 d rc s' d' → deleted root s d rc s' d') as Hdel
    by (unfold deleted, sz; by rewrite Hk).
  cbn. destruct (Z.eqb_spec rc ZNONODE) as [->|Hrc1].
  { destruct (delete_node_spec root s1 d Hf1) as (rc & s' & d' & -> & Hd & _). exists rc, s', d'.
    split_and!; [done|by apply Hdel|]. intros [Hrel _] Hin. specialize (Hrel root s Hin). by rewrite E in Hrel. }
  destruct (Z.eqb_spec rc ZOK) as [->|Hrc2]; cbn; cycle 1.
  { exists rc, s1, d. split_and!; [done| |intros [Hrel _] Hin; specialize (Hrel root s Hin); by rewrite E in Hrel].
    apply Hdel. split_and!; [done|auto|lia|done]. }
  destruct (children_ok _ _ _ _ E Hr1) as (Hin & names & -> & Hnd & Hnames). cbn.
  destruct (delete_children_spec (recursiveDelete fuel) root (nodes s1) names s1 d) as
    (rc & s2 & d2 & -> & Hc & Hrel); [done|done| |done|].
  { intros name [Hsl Hj]%Hnames. split_and!; [done| |].
    - unfold snprintf. apply take_ge. specialize (Hshort _ (proj1 (under_join root name _ (or_introl eq_refl))) Hj). lia.
    - intros s' d' Hs' Hf'. apply IH; [|unfold join; by destruct root|by apply join_not_root| |done].
      + pose proof (child_smaller root name (nodes s) (nodes s') Hin ltac:(by rewrite <- Hk)). lia.
      + intros q Hu Hq. apply Hshort; [by apply (under_join root name)|]. rewrite <- Hk. by apply Hs'. }
  assert (root ∈ nodes s2) as Hroot by (eapply cleared_keeps; [done|by rewrite Hk|by right]).
  cbn. destruct (Z.eqb_spec rc ZOK) as [->|Hrc]; cbn; cycle 1.
  { exists rc, s2, d2. split_and!; [done|by eapply Hdel, cleared_deleted|].
    intros Hre _. apply Hrel; [done|]. intros name [_ Hj]%Hnames. by rewrite Hk. }
  pose proof Hc as (H1 & _ & H3 & H4). destruct (H4 eq_refl) as [H5 H6].
  destruct (delete_node_spec root s2 d2) as (rc & s3 & d3 & -> & Hd & Grel); [unfold fits in *; lia|].
  exists rc, s3, d3. split_and!; [done|by eapply Hdel, cleared_then|].
  intros Hre _. apply Grel; [done|done|]. apply (only_root root names s s2); [done| |done|done]. by rewrite <- Hk.
Qed.

(** C28. Against a service that answers truthfully ([TreeLaws]: nobody else changes the
    nodes, but any call may fail), for a path other than "/" below which every path is
    shorter than 2048 bytes, and a counter that does not overflow: [recursiveDelete]
    ends and deletes nothing outside the subtree of the path; if it returns [ZOK] the
    subtree is gone and [deletedCounter] has grown by the number of its nodes; and if the
    service does what it can and the path is a node, it does return [ZOK]. *)
Theorem recursiveDelete_correct root s d : root ≠ [] → root ≠ [slash] → short root s → fits s d →
  ∃ rc s' d', recursiveDelete (S (size (nodes s))) root (s, d) = Ret (rc, (s', d')) ∧
    (∀ q, q ∈ nodes s' → q ∈ nodes s) ∧ (∀ q, q ∈ nodes s → ¬ under root q → q ∈ nodes s') ∧
    (rc = ZOK → nodes s' = nodes s ∖ subtree root (nodes s) ∧ d' = d + Z.of_nat (size (subtree root (nodes s)))) ∧
    (reliable → root ∈ nodes s → rc = ZOK).
Proof.
  intros Hr0 Hr1 Hs Hf.
  assert (size (subtree root (nodes s)) ≤ size (nodes s))%nat as Hle by (apply subseteq_size; unfold subtree; set_solver).
  destruct (recursiveDelete_spec (S (size (nodes s))) root s d) as (rc & s' & d' & E & (H1 & H2 & H3 & H4) & Hrel);
    [lia|done..|]. exists rc, s', d'. split_and!; [done|apply H1|apply H2| |done].
  intros Hok. destruct (H4 Hok) as [H5 H6].
  assert (nodes s' = nodes s ∖ subtree root (nodes s)) as Hn.
  { apply set_eq. intros q. rewrite elem_of_difference, elem_of_subtree. split.
    - intros Hq. split; [by apply H1|]. intros [Hu _]. assert (q ∈ subtree root (nodes s')) by (by apply elem_of_subtree). set_solver.
    - intros [Hq Hu]. apply H2; [done|]. naive_solver. }
  split; [done|]. unfold sz in H6. rewrite Hn, size_difference in H6 by (unfold subtree; set_solver). lia.
Qed.
(** The bound on the paths is needed: below a path of 2047 bytes the name of a child is cut
    to the path itself, and the recursion never ends. *)
Lemma long_path_never_ends fuel : ∀ root name s d, reliable → length root = 2047%nat → root ∈ nodes s →
  slashless name → join root name ∈ nodes s → recursiveDelete fuel root (s, d) = Loop.
Proof.
  induction fuel as [|fuel IH]; intros root name s d Hr Hl Hin Hn Hj; [done|]. cbn [recursiveDelete].
  unfold get_children, of_outcome, mbind, MD_bind. destruct (zoo_get_children root s) as [[rc v] s1] eqn:E.
  pose proof (proj1 Hr root s Hin) as Hrc. rewrite E in Hrc. cbn in Hrc. subst rc.
  destruct (children_ok _ _ _ _ E) as (_ & names & Ed & _ & Hnames); [by intros ->|].
  pose proof (proj2 (Hnames name) (conj Hn Hj)) as Hin'. rewrite <- (children_keep _ _ _ _ _ E) in Hin, Hj.
  cbn. rewrite Ed. cbn. destruct names as [|n0 names]; [by apply elem_of_nil in Hin'|].
  cbn [fmap list_fmap delete_children]. unfold mbind, MD_bind.
  assert (snprintf 2048 (join root n0) = root) as ->.
  { unfold snprintf, join. change (2048 - 1)%nat with 2047%nat. rewrite <- Hl. apply take_app_length. }
  by rewrite (IH root name s1 d Hr Hl Hin Hn Hj).
Qed.
End deletion.

(** ** A tree *)
Module Nodes.
Definition closed (t : gset cstring) : Prop :=
  ∀ p name r, slashless name → join p (name ++ slash :: r) ∈ t → join p name ∈ t.
Definition tree : Type := { t : gset cstring | closed t }.
Global Instance slashless_dec name : Decision (slashless name).
Proof. unfold slashless. apply _. Defined.
(** The name of a child. *)
Definition child_name (p q : cstring) : option cstring :=
  let name := drop (length p + 1) q in
  if decide (q = join p name ∧ slashless name) then Some name else None.
Definition names (p : cstring) (t : gset cstring) : list cstring := omap (child_name p) (elements t).
Definition children (p : cstring) (t : tree) : Z * vector (option cstring) * tree :=
  if decide (p ∈ `t) then
    (ZOK, mk_vector (Z.of_nat (length (names p (`t)))) (Some (Some <$> names p (`t))), t)
  else (ZNONODE, mk_vector 0 None, t).
Lemma closed_delete p t : closed t → subtree p t = {[p]} → closed (t ∖ {[p]}).
Proof.
  intros Hc Hs q name r Hn [Hin _]%elem_of_difference. apply elem_of_difference. split; [by eapply Hc|].
  intros E%elem_of_singleton.
  assert (join q (name ++ slash :: r) ∈ subtree p t) as Hj.
  { apply elem_of_filter. split; [|done]. right. exists r. subst p. unfold join. by rewrite <- !app_assoc. }
  rewrite Hs in Hj. apply elem_of_singleton in Hj. subst p. unfold join in Hj. apply app_inv_head in Hj.
  injection Hj as Hj%(f_equal length). rewrite length_app in Hj. simpl in Hj. lia.
Qed.
Definition remove (p : cstring) (t : tree) : Z * tree :=
  match decide (subtree p (`t) = {[p]}) with
  | left Hs => (ZOK, exist closed (`t ∖ {[p]}) (closed_delete p (`t) (proj2_sig t) Hs))
  | right _ => (if decide (p ∈ `t) then -111 else ZNONODE, t)
  end.
#[export] Instance service : Tree := {| store := tree; zoo_get_children := children; zoo_delete := remove |}.

Lemma child_name_spec p q name : child_name p q = Some name ↔ q = join p name ∧ slashless name.
Proof.
  unfold child_name. assert (∀ n, drop (length p + 1) (join p n) = n) as Hd.
  { intros n. unfold join. change (p ++ slash :: n) with (p ++ [slash] ++ n). rewrite app_assoc, drop_app_length'; [done|].
    rewrite length_app. simpl. lia. }
  split; [case_decide as Hc; [|done]; intros [= <-]; done|]. intros [-> Hn]. by rewrite Hd, decide_True.
Qed.
Lemma elem_of_names p t name : name ∈ names p t ↔ slashless name ∧ join p name ∈ t.
Proof.
  unfold names. rewrite list_elem_of_omap. setoid_rewrite child_name_spec. setoid_rewrite elem_of_elements. naive_solver.
Qed.
Lemma NoDup_names p t : NoDup (names p t).
Proof.
  unfold names. induction (NoDup_elements t) as [|q l Hq _ IH]; [constructor|]. cbn [omap list_omap].
  destruct (child_name p q) as [name|] eqn:E; [|done]. apply NoDup_cons. split; [|done].
  intros (q' & Hin & E')%list_elem_of_omap. apply child_name_spec in E as [-> _]. by apply child_name_spec in E' as [-> _].
Qed.
#[export] Instance laws : TreeLaws.
Proof.
  refine {| nodes := λ t : @store service, `t |}.
  - intros [t Ht] p name r. apply Ht.
  - intros p s rc v s' E. cbn in E. unfold children in E. case_decide; by injection E as _ _ <-.
  - intros p s v s' E _. cbn in E. unfold children in E. case_decide as Hp; [|done]. injection E as <- _.
    split; [done|]. exists (names p (`s)). split_and!; [|apply NoDup_names|apply elem_of_names].
    unfold children_data. cbn. rewrite Nat2Z.id, take_ge by (by rewrite length_fmap).
    by rewrite length_fmap, Z.leb_refl.
  - intros p s rc s' E. cbn in E. unfold remove in E. destruct (decide _); injection E as _ <-; [by right|by left].
  - intros p s s' E. cbn in E. unfold remove in E. destruct (decide (subtree p (`s) = {[p]})) as [Hs|].
    + injection E as <-. cbn. assert (p ∈ subtree p (`s)) as [_ Hin]%elem_of_filter by set_solver. split_and!; [done|done|].
      apply set_eq. intros q. rewrite elem_of_subtree, elem_of_difference. split; [|done]. intros (Hu & Hq & Hne).
      assert (q ∈ subtree p (`s)) as Hq' by (by apply elem_of_filter). rewrite Hs in Hq'. done.
    + case_decide; discriminate.
Defined.
Lemma service_reliable : @reliable service laws.
Proof.
  split; intros p s Hin; cbn in *.
  - unfold children. by rewrite decide_True.
  - intros Hs. unfold remove. by destruct (decide _).
Qed.
(** A set of paths that holds what comes before each slash. *)
Definition holds_parents (t : gset cstring) : bool :=
  forallb (λ q, forallb (λ k, bool_decide (q !! k = Some slash → take k q ∈ t)) (seq 1 (length q))) (elements t).
Lemma holds_parents_closed t : holds_parents t = true → closed t.
Proof.
  intros Hh p name r _ Hin. unfold holds_parents in Hh. rewrite forallb_forall in Hh.
  assert (join p (name ++ slash :: r) = join p name ++ slash :: r) as E by (unfold join; by rewrite <- app_assoc).
  rewrite E in Hin. specialize (Hh _ (proj1 (list_elem_of_In _ _) (proj2 (elem_of_elements _ _) Hin))).
  rewrite forallb_forall in Hh. specialize (Hh (length (join p name))). rewrite bool_decide_eq_true in Hh.
  rewrite take_app_length in Hh. apply Hh.
  - apply in_seq. rewrite length_app. unfold join. rewrite length_app. simpl. lia.
  - by rewrite list_lookup_middle.
Qed.
Lemma short_check root (t : tree) : forallb (λ q, length q <? 2048)%nat (elements (`t)) = true → @short service laws root t.
Proof. intros Hl q _ Hq. rewrite forallb_forall in Hl. by apply Nat.ltb_lt, Hl, list_elem_of_In, elem_of_elements. Qed.
Lemma in_check (t : tree) (q : cstring) : bool_decide (q ∈ `t) = true → q ∈ @nodes service laws t.
Proof. apply bool_decide_eq_true. Qed.
Definition sample_set : gset cstring := {[lit "/a"; lit "/a/b"; lit "/a/b/c"; lit "/x"]}.
Definition sample : tree := exist closed sample_set (holds_parents_closed sample_set eq_refl).
Lemma sample_size : size (@nodes service laws sample) = 4%nat.
Proof. vm_compute. reflexivity. Qed.
Lemma sample_subtree : size (subtree (lit "/a") (@nodes service laws sample)) = 3%nat.
Proof. vm_compute. reflexivity. Qed.
Lemma sample_left : @nodes service laws sample ∖ subtree (lit "/a") (@nodes service laws sample) = {[lit "/x"]}.
Proof. apply (bool_decide_unpack _). vm_compute. exact I. Qed.
End Nodes.
Lemma recursiveDelete_correct_witness : ∃ s' : @store Nodes.service,
  @recursiveDelete Nodes.service 5 (lit "/a") (Nodes.sample, 0) = Ret (ZOK, (s', 3)) ∧
  `s' = {[lit "/x"]}.
Proof.
  destruct (@recursiveDelete_correct Nodes.service Nodes.laws (lit "/a") Nodes.sample 0) as
    (rc & s' & d' & E & _ & _ & Hok & Hrel); [discriminate|discriminate| |vm_compute; discriminate|].
  - apply Nodes.short_check. vm_compute. reflexivity.
  - assert (rc = ZOK) as -> by (apply Hrel; [apply Nodes.service_reliable|apply Nodes.in_check; vm_compute; reflexivity]).
    destruct (Hok eq_refl) as [Hn Hd]. exists s'. rewrite Nodes.sample_size in E. rewrite Nodes.sample_subtree in Hd.
    rewrite Hd in E. split; [exact E|]. etrans; [exact Hn|exact Nodes.sample_left].
Defined.

(** ** The cycle *)
Section cycle.
Context (root : cstring) (nodeCount : Z).

Fixpoint run_load (es : list load_event) (l : load) : option load :=
  match es with [] => Some l | e :: es => l ← load_step root nodeCount e l; run_load es l end.

(** The first [n] requests of a phase, all of them, those of the phases before one, and
    those of a round. *)
Definition requests (ph : phase) (n : nat) : list request := load_request root ph ∘ Z.of_nat <$> seq 0 n.
Definition all_requests (ph : phase) : list request := requests ph (Z.to_nat nodeCount).
Definition phases_before (ph : phase) : list phase :=
  match ph with
  | Creates => []
  | Writes => [Creates]
  | Reads => [Creates; Writes]
  | Deletes => [Creates; Writes; Reads]
  end.
Definition before (ph : phase) : list request := phases_before ph ≫= all_requests.
Definition round_requests : list request := before Deletes ++ all_requests Deletes.
(** What has been asked for in a round when the main thread is at a place. *)
Definition asked (p : load_pc) : list request :=
  match p with
  | Connecting => []
  | Beginning ph => before ph
  | Counting ph i | Calling ph i => before ph ++ requests ph (Z.to_nat i)
  | Waiting ph => before ph ++ all_requests ph
  end.
(** Whether the main thread is between two phases. *)
Definition between (p : load_pc) : bool := match p with Connecting | Beginning _ => true | _ => false end.
Definition counted (p : load_pc) : Z := match p with Calling _ _ => 1 | _ => 0 end.
Definition in_range (p : load_pc) : Prop :=
  match p with Counting _ i => 0 ≤ i ≤ Z.max 0 nodeCount | Calling _ i => 0 ≤ i < nodeCount | _ => True end.
Definition load_ok (l : load) : Prop :=
  counter l = Z.of_nat (length (lg_pending l)) + counted (lg_pc l) ∧ in_range (lg_pc l) ∧
  (between (lg_pc l) = true → lg_pending l = []) ∧
  ∃ k, lg_answered l ++ lg_pending l = mjoin (replicate k round_requests) ++ asked (lg_pc l).

Lemma requests_next ph i : 0 ≤ i →
  requests ph (Z.to_nat (i + 1)) = requests ph (Z.to_nat i) ++ [load_request root ph i].
Proof.
  intros Hi. unfold requests. replace (Z.to_nat (i + 1)) with (Z.to_nat i + 1)%nat by lia.
  rewrite seq_app, fmap_app. cbn. by rewrite Z2Nat.id.
Qed.
Lemma completed_ok l l' : completed l = Some l' → load_ok l → load_ok l'.
Proof.
  unfold completed. destruct (lg_pending l) as [|r rest] eqn:E; [done|]. intros [= <-] (Hc & Hr & Hb & k & Hk).
  rewrite E in *. split_and!; cbn in *; [lia|done|intros Hbt; by specialize (Hb Hbt)|].
  exists k. by rewrite <- app_assoc.
Qed.
Lemma main_ok l l' : main_step root nodeCount false l = Some l' → load_ok l → load_ok l'.
Proof.
  intros Hm (Hc & Hr & Hb & k & Hk). unfold main_step in Hm.
  destruct (lg_pc l) as [|ph|ph i|ph i|ph] eqn:E; cbn [between counted in_range asked] in *.
  - injection Hm as <-. split_and!; [cbn; lia|done|auto|by exists k].
  - injection Hm as <-. specialize (Hb eq_refl). rewrite Hb in *. cbn in Hc.
    split_and!; [destruct ph; cbn; by rewrite ?Hc, Hb|cbn; lia|done|].
    exists k. transitivity (lg_answered l ++ []); [by destruct ph; cbn; rewrite Hb|]. rewrite Hk. cbn [set_pc lg_pc asked].
    change (requests ph (Z.to_nat 0)) with (@nil request). by rewrite app_nil_r.
  - destruct (Z.ltb_spec i nodeCount); injection Hm as <-; (split_and!; [cbn; lia|cbn; lia || done|done|]); exists k; cbn [set_pc incCounter lg_answered lg_pending lg_pc asked]; rewrite Hk.
    + done.
    + unfold all_requests. by replace (Z.to_nat nodeCount) with (Z.to_nat i) by lia.
  - injection Hm as <-. split_and!; [cbn; rewrite length_app; cbn; lia|cbn; lia|done|].
    exists k. cbn [set_pc accept lg_answered lg_pending lg_pc asked]. rewrite app_assoc, Hk, requests_next by lia. by rewrite <- !app_assoc.
  - unfold waitCounter_leaves in Hm. destruct (Z.ltb_spec 0 (counter l)); [done|]. injection Hm as <-.
    assert (lg_pending l = []) as Hp by (destruct (lg_pending l); [done|cbn in Hc; lia]).
    rewrite Hp in *. destruct ph; (split_and!; cbn [set_pc counter lg_answered lg_pending lg_pc between counted in_range next_phase asked]; rewrite ?Hp; [cbn; lia|done|done|]).
    1-3: exists k; rewrite Hk; f_equal; unfold before; cbn; by rewrite ?app_nil_r, <- ?app_assoc.
    exists (S k). rewrite Hk, replicate_S_end, join_app. cbn [mjoin list_join]. by rewrite !app_nil_r.
Qed.
(** Runs in which no request is refused and no session event comes. *)
Definition undisturbed (e : load_event) : Prop := e = Main ∨ e = Completed.
Lemma run_load_ok es l l' : Forall undisturbed es → run_load es l = Some l' → load_ok l → load_ok l'.
Proof.
  intros Hes. revert l. induction Hes as [|e es He _ IH]; intros l; cbn; [by intros [= ->]|].
  destruct (load_step root nodeCount e l) as [l1|] eqn:E; [|done]. cbn. intros Hr Hl. apply (IH l1); [done|].
  destruct He as [->| ->]; [by eapply main_ok|by eapply completed_ok].
Qed.
Lemma load_ok_moves l : load_ok l → ∃ e, undisturbed e ∧ is_Some (load_step root nodeCount e l).
Proof.
  intros (Hc & _). destruct (lg_pending l) as [|r rest] eqn:E.
  - exists Main. split; [by left|]. cbn. unfold main_step, waitCounter_leaves. destruct (lg_pc l); cbn in Hc; try by eexists.
    + case_match; by eexists.
    + rewrite (proj2 (Z.ltb_ge 0 (counter l))) by lia. by eexists.
  - exists Completed. split; [by right|]. cbn. unfold completed. rewrite E. by eexists.
Qed.

(** C29. While no request is refused and no session event comes, the counter the main thread
    waits on is the number of unanswered requests; a phase begins, and a round ends, only
    when every request before it has been answered, and each phase has made all its
    requests once and in order; and the program never stops. *)
Theorem load_cycle es l : Forall undisturbed es → run_load es load_start = Some l →
  (counted (lg_pc l) = 0 → counter l = Z.of_nat (length (lg_pending l))) ∧
  (∃ k, lg_answered l ++ lg_pending l = mjoin (replicate k round_requests) ++ asked (lg_pc l) ∧
     (between (lg_pc l) = true → lg_answered l = mjoin (replicate k round_requests) ++ asked (lg_pc l))) ∧
  ∃ e, undisturbed e ∧ is_Some (load_step root nodeCount e l).
Proof.
  intros Hes Hr. assert (load_ok l) as Hl.
  { eapply run_load_ok; [done|exact Hr|]. split_and!; [done..|]. by exists 0%nat. }
  pose proof Hl as (Hc & _ & Hb & k & Hk). split_and!; [lia| |by apply load_ok_moves].
  exists k. split; [done|]. intros Hbt. rewrite (Hb Hbt), app_nil_r in Hk. exact Hk.
Qed.

(** A refused request has been counted, and nothing counts it down again. *)
Lemma refused_blocks es l l' ph : lg_pc l = Waiting ph → Z.of_nat (length (lg_pending l)) < counter l →
  SessionEvent ∉ es → run_load es l = Some l' → lg_pc l' = Waiting ph.
Proof.
  revert l. induction es as [|e es IH]; intros l Hp Hc Hes; cbn; [by intros [= ->]|].
  apply not_elem_of_cons in Hes as [He Hes]. destruct (load_step root nodeCount e l) as [l1|] eqn:E; [|done]. cbn.
  assert (waitCounter_leaves l = false) as Hw by (unfold waitCounter_leaves; rewrite (proj2 (Z.ltb_lt 0 _)) by lia; done).
  destruct e as [|rc| |]; cbn in E; [| | |done].
  - unfold main_step in E. by rewrite Hp, Hw in E.
  - unfold main_step in E. rewrite Hp in E. by destruct (rc =? ZOK).
  - unfold completed in E. destruct (lg_pending l) eqn:Ep; [done|]. injection E as <-. apply IH; [done| |done].
    cbn in *. lia.
Qed.
End cycle.

(** Two nodes: a whole round, in which some answers come while requests are made. *)
Definition sample_phase : list load_event :=
  [Main; Main; Main; Completed; Main; Main; Main; Completed; Main].
Definition sample_round : list load_event :=
  Main :: sample_phase ++ sample_phase ++ sample_phase ++ sample_phase.
Lemma sample_load : ∃ l, run_load (lit "/r") 2 sample_round load_start = Some l ∧
  lg_answered l = round_requests (lit "/r") 2 ∧ lg_pc l = Connecting ∧ lg_pending l = [].
Proof. eexists. split; [vm_compute; reflexivity|]. vm_compute. done. Qed.
Lemma sample_undisturbed : Forall undisturbed sample_round.
Proof. repeat (constructor; [first [left; reflexivity|right; reflexivity]|]). constructor. Qed.
Lemma load_cycle_witness : ∃ l, run_load (lit "/r") 2 sample_round load_start = Some l ∧
  lg_answered l = round_requests (lit "/r") 2 ∧ counter l = 0.
Proof.
  destruct sample_load as (l & E & Ha & Hp & Hq).
  destruct (load_cycle (lit "/r") 2 sample_round l sample_undisturbed E) as (H1 & _ & _).
  exists l. split; [exact E|]. split; [exact Ha|]. rewrite Hp, Hq in H1. exact (H1 eq_refl).
Defined.
