(* ===== verification/CliRun.v ===== *)
(** * The callbacks of the command line client, and how it starts

    src/cli.c: the watcher and the completions, with the strings they free and the counters
    of the [od] command, and [main] up to its loop: the command of the batch mode, the
    stored session, and the creation of the handle.  What is printed is recorded, without
    the times. *)

From S2P Require Import Prelude RecordIO Jute Path Watchers Addrvec Hosts Handshake Transport Handle.
From S2P Require Import Session Requests Interest Init Cli LoadGen.
Local Open Scope Z_scope.

Abbreviation NOTWATCHING_EVENT_DEF := (-2).
Definition state2String (state : Z) : cstring :=
  if state =? 0 then lit "CLOSED_STATE"
  else if state =? ZOO_CONNECTING_STATE then lit "CONNECTING_STATE"
  else if state =? ZOO_ASSOCIATING_STATE then lit "ASSOCIATING_STATE"
  else if state =? ZOO_CONNECTED_STATE then lit "CONNECTED_STATE"
  else if state =? ZOO_READONLY_STATE then lit "READONLY_STATE"
  else if state =? ZOO_EXPIRED_SESSION_STATE then lit "EXPIRED_SESSION_STATE"
  else if state =? ZOO_AUTH_FAILED_STATE then lit "AUTH_FAILED_STATE"
  else lit "INVALID_STATE".
Definition type2String (type : Z) : cstring :=
  if type =? CREATED_EVENT_DEF then lit "CREATED_EVENT"
  else if type =? DELETED_EVENT_DEF then lit "DELETED_EVENT"
  else if type =? CHANGED_EVENT_DEF then lit "CHANGED_EVENT"
  else if type =? CHILD_EVENT_DEF then lit "CHILD_EVENT"
  else if type =? ZOO_SESSION_EVENT then lit "SESSION_EVENT"
  else if type =? NOTWATCHING_EVENT_DEF then lit "NOTWATCHING_EVENT"
  else lit "UNKNOWN_EVENT_TYPE".

(** ** State *)
Inductive output :=
  | OWatcher (type state : cstring) (path : option cstring)
  | ONewSession (id : Z)
  | OPerror (what : cstring)
  | OShutdown (expired : bool)
  | OAnswer (data : cstring) (rc : Z)
  | OName (name : cstring)
  | OValue (value : list byte)
  | OStrings (names : list cstring)
  | OStat (stat : option Stat)
  | OReceived (recvd to_send : Z)
  | OUsage
  | OTooLong (cmdlen : Z)
  | OBatch (cmd : cstring).
(** The client, its other static variables, the files it reads and writes, what it prints. *)
Record run := mk_run {
  ru_cli : cli;
  batchMode : bool;
  cmd : cstring;
  to_send : Z;
  sent : Z;
  recvd : Z;
  myid : clientid;
  clientIdFile : option cstring;
  ru_files : gmap cstring (list byte);
  ru_out : list output;
}.
Definition set_cli (x : cli) (r : run) : run :=
  mk_run x (batchMode r) (cmd r) (to_send r) (sent r) (recvd r) (myid r) (clientIdFile r) (ru_files r) (ru_out r).
Definition set_batch (x : cstring) (r : run) : run :=
  mk_run (ru_cli r) true x (to_send r) (sent r) (recvd r) (myid r) (clientIdFile r) (ru_files r) (ru_out r).
Definition set_counters (x y z : Z) (r : run) : run :=
  mk_run (ru_cli r) (batchMode r) (cmd r) x y z (myid r) (clientIdFile r) (ru_files r) (ru_out r).
Definition set_myid (x : clientid) (r : run) : run :=
  mk_run (ru_cli r) (batchMode r) (cmd r) (to_send r) (sent r) (recvd r) x (clientIdFile r) (ru_files r) (ru_out r).
Definition set_clientIdFile (x : cstring) (r : run) : run :=
  mk_run (ru_cli r) (batchMode r) (cmd r) (to_send r) (sent r) (recvd r) (myid r) (Some x) (ru_files r) (ru_out r).
Definition set_files (x : gmap cstring (list byte)) (r : run) : run :=
  mk_run (ru_cli r) (batchMode r) (cmd r) (to_send r) (sent r) (recvd r) (myid r) (clientIdFile r) x (ru_out r).
Definition add_output (x : output) (r : run) : run :=
  mk_run (ru_cli r) (batchMode r) (cmd r) (to_send r) (sent r) (recvd r) (myid r) (clientIdFile r) (ru_files r)
    (ru_out r ++ [x]).

Definition MR (A : Type) : Type := run → outcome (A * run).
Global Instance MR_ret : MRet MR := λ A a r, Ret (a, r).
Global Instance MR_bind : MBind MR := λ A B f m r, '(a, r) ← m r; f a r.
Definition change (f : run → run) : MR () := λ r, Ret ((), f r).
Definition read {A} (f : run → A) : MR A := λ r, Ret (f r, r).
Definition stop {A} (m : outcome A) : MR A := λ r, a ← m; Ret (a, r).
Definition client {A} (m : MC A) : MR A := λ r, '(a, c) ← m (ru_cli r); Ret (a, set_cli c r).
Definition out (x : output) : MR () := change (add_output x).

(** ** The data of a completion *)

(** [%s] with the data: it must be there. *)
Definition print_data (data : Z) : MR cstring :=
  strings ← client (ask cl_strings); stop (match strings !! data with Some s => Ret s | None => UB end).
Definition drop_string (data : Z) (c : cli) : cli :=
  mk_cli (cl_isys c) (cl_open c) (base.delete data (cl_strings c)) (cl_next c) (cl_verbose c) (cl_shutdown c)
    (cl_messages c).
(** [free]: of NULL, nothing. *)
Definition free (data : Z) : MR () :=
  if data =? 0 then mret () else
  strings ← client (ask cl_strings);
  if bool_decide (is_Some (strings !! data)) then client (update (drop_string data)) else stop UB.
(** [if(batchMode) shutdownThisThing=1] *)
Definition end_batch : MR () :=
  b ← read batchMode; if b : bool then client (update (set_shutdown true)) else mret ().

(** ** Completions *)
Definition dumpStat (stat : option Stat) : MR () := out (OStat stat).
Definition my_string_completion (rc : Z) (name : option cstring) (data : Z) : MR () :=
  text ← (if data =? 0 then mret (lit "null") else print_data data);
  out (OAnswer text rc);;
  (if rc =? 0 then n ← stop (match name with Some n => Ret n | None => UB end); out (OName n) else mret ());;
  end_batch.
Definition my_string_completion_free_data (rc : Z) (name : option cstring) (data : Z) : MR () :=
  my_string_completion rc name data;; free data.
Definition my_string_stat_completion (rc : Z) (name : option cstring) (stat : option Stat) (data : Z) : MR () :=
  my_string_completion rc name data;; dumpStat stat.
Definition my_string_stat_completion_free_data (rc : Z) (name : option cstring) (stat : option Stat) (data : Z)
    : MR () :=
  my_string_stat_completion rc name stat data;; free data.
(** [written] is the result of [write] to the terminal, which is asserted. *)
Definition my_data_completion (written : Z) (rc : Z) (value : option (list byte)) (stat : option Stat) (data : Z)
    : MR () :=
  text ← print_data data;
  out (OAnswer text rc);;
  (match value with
   | Some v => out (OValue v);; (if written =? Z.of_nat (length v) then mret () else stop Abort)
   | None => mret ()
   end);;
  dumpStat stat;; free data;; end_batch.
Definition my_silent_data_completion (rc : Z) (value : option (list byte)) (stat : option Stat) (data : Z) : MR () :=
  change (λ r, set_counters (to_send r) (sent r) (recvd r + 1) r);;
  text ← print_data data;
  out (OAnswer text rc);; free data;;
  r ← read id;
  if recvd r =? to_send r then out (OReceived (recvd r) (to_send r));; end_batch else mret ().
(** Every name is printed; NULL is none. *)
Definition my_strings_completion (rc : Z) (strings : option (vector (option cstring))) (data : Z) : MR () :=
  text ← print_data data;
  out (OAnswer text rc);;
  (match strings with
   | Some v =>
       l ← stop (children_data v);
       stop (match mapM id l with Some names => Ret names | None => UB end) ≫= λ names, out (OStrings names)
   | None => mret ()
   end);;
  free data;; end_batch.
Definition my_strings_stat_completion (rc : Z) (strings : option (vector (option cstring))) (stat : option Stat)
    (data : Z) : MR () :=
  my_strings_completion rc strings data;; dumpStat stat;; end_batch.
Definition my_void_completion (rc : Z) (data : Z) : MR () :=
  text ← print_data data; out (OAnswer text rc);; free data;; end_batch.
Definition my_stat_completion (rc : Z) (stat : option Stat) (data : Z) : MR () :=
  text ← print_data data; out (OAnswer text rc);; dumpStat stat;; free data;; end_batch.
Definition my_silent_stat_completion (rc : Z) (stat : option Stat) (data : Z) : MR () :=
  change (λ r, set_counters (to_send r) (sent r + 1) (recvd r) r);; free data.

Section callbacks.
Context `{Host, Locals}.
(** The pointers to the two completions of [sendRequest]. *)
Definition my_silent_stat_completion_ptr : Z := 209.
Definition my_silent_data_completion_ptr : Z := 210.
Definition sendRequest (data : cstring) : MC () :=
  d ← strdup_data (lit "/od");
  tested_zh (zoo_aset (Some (lit "/od")) (Some data) (Z.of_nat (length data)) (-1) my_silent_stat_completion_ptr d);;
  d ← strdup_data (lit "/od");
  with_zh (zoo_aget (Some (lit "/od")) 1 my_silent_data_completion_ptr d);; mret ().
Fixpoint send_requests (n : nat) (data : cstring) : MC () :=
  match n with O => mret () | S n => sendRequest data;; send_requests n data end.
Definition od_completion (rc : Z) (stat : option Stat) (data : Z) : MR () :=
  out (OAnswer (lit "od command response") rc);;
  dumpStat stat;;
  change (set_counters 200 0 0);;
  client (send_requests 200 (replicate (Z.to_nat (4096 * 16 - 1)) Byte.xff)).

(** ** The watcher *)

(** A [clientid_t] in memory. *)
Definition clientid_size : nat := 24.
Definition clientid_bytes (c : clientid) : list byte := mem_of_int 8 (ci_client_id c) ++ ci_passwd c.
Definition clientid_of (bs : list byte) : clientid := mk_clientid (int_of_mem (take 8 bs)) (drop 8 bs).
Definition zero_clientid : clientid := mk_clientid 0 (replicate 16 Byte.x00).
(** [fopen(name, "w")], [fwrite] of one item and [fclose]: [writable] says whether the file
    can be opened, [room] how many bytes it takes.  The number of items written is compared
    with their size. *)
Definition store_clientid (writable : cstring → bool) (room : nat) (name : cstring) (id : clientid) : MR () :=
  if negb (writable name) then out (OPerror name) else
  let bytes := take room (clientid_bytes id) in
  change (λ r, set_files (<[name := bytes]> (ru_files r)) r);;
  let rc := if (length bytes =? clientid_size)%nat then 1 else 0 in
  if negb (rc =? Z.of_nat clientid_size) then out (OPerror (lit "writing client id")) else mret ().
(** [zookeeper_close(zzh)], and the client gives its handle up. *)
Definition shut_down (expired : bool) : MR () :=
  out (OShutdown expired);; client (library (sess zookeeper_close);; update (set_shutdown true);; update (set_open false)).
Definition watcher (writable : cstring → bool) (room : nat) (type state : Z) (path : option cstring) : MR () :=
  out (OWatcher (type2String type) (state2String state) (match path with Some [] => None | p => p end));;
  if negb (type =? ZOO_SESSION_EVENT) then mret () else
  if state =? ZOO_CONNECTED_STATE then
    id ← client (library (sess zoo_client_id));
    mine ← read myid;
    if (ci_client_id mine =? 0) || negb (ci_client_id mine =? ci_client_id id) then
      change (set_myid id);; out (ONewSession (ci_client_id id));;
      name ← read clientIdFile;
      match name with Some name => store_clientid writable room name id | None => mret () end
    else mret ()
  else if state =? ZOO_AUTH_FAILED_STATE then shut_down false
  else if state =? ZOO_EXPIRED_SESSION_STATE then shut_down true
  else mret ().

(** ** The start of main *)

(** [fread] of one item of the size of [myid], compared with its size in the same way. *)
Definition load_clientid (content : list byte) : clientid :=
  let rc := if (clientid_size <=? length content)%nat then 1 else 0 in
  if negb (rc =? Z.of_nat clientid_size) then zero_clientid else clientid_of (take clientid_size content).
Definition CMD_SIZE : Z := 1024.
(** The second argument: [None] to go on, or the status to return. *)
Definition second_argument (arg : cstring) : MR (option Z) :=
  if startsWith arg (lit "cmd:") then
    let cmdlen := Z.of_nat (length arg) in
    if CMD_SIZE <? cmdlen then out (OTooLong cmdlen);; mret (Some 2) else
    let c := take (Z.to_nat (CMD_SIZE - 1)) (drop 4 arg) in
    change (set_batch c);; out (OBatch c);; mret None
  else
    change (set_clientIdFile arg);;
    files ← read ru_files;
    match files !! arg with
    | Some content => change (set_myid (load_clientid content));; mret None
    | None => mret None
    end.
(** [zoo_deterministic_conn_order(1)] *)
Definition zoo_deterministic_conn_order : MI () := λ s,
  let r := e_resolving (i_env s) in
  Ret ((), mk_isys (i_sys s) (i_net s)
             (mk_env (mk_resolving (getaddrinfo r) (urandom r) (rnd r) true) (e_drand (i_env s)) (e_dials (i_env s))
                (e_probes (i_env s)) (e_attempts (i_env s)))).
Inductive start := Returns (status : Z) | Returns_errno | Enters_loop.
Definition main_start (argv : list cstring) : MR start :=
  match argv with
  | [] => stop UB
  | [_] => out OUsage;; mret (Returns 2)
  | _ :: hostPort :: rest =>
      r ← (match rest with arg :: _ => second_argument arg | [] => mret None end);
      match r with
      | Some status => mret (Returns status)
      | None =>
          let flags := if existsb (λ a, bool_decide (a = lit "-r")) (hostPort :: rest) then ZOO_READONLY else 0 in
          client (update (set_verbose false);; library zoo_deterministic_conn_order);;
          id ← read myid;
          ok ← client (library (zookeeper_init (Some hostPort) Cli.watcher 30000 (Some id) 0 flags));
          client (update (set_open ok));;
          mret (if ok : bool then Enters_loop else Returns_errno)
      end
  end.
End callbacks.
