(* ===== verification/CliRunTheorems.v ===== *)
(** * Theorems about the callbacks and the start of the command line client

    A completion frees the text it was given, once; a session that was stored is not used
    when the client is started again. *)

From S2P Require Import Prelude RecordIO Jute Path Watchers WatchersTheorems Addrvec Hosts HostsTheorems Handshake.
From S2P Require Import Transport Handle Session SessionTheorems Requests Interest Init StateTheorems Cli CliTheorems.
From S2P Require Import LoadGen CliRun.
Local Open Scope Z_scope.

(** ** Completions *)

(** What the library calls a completion with, apart from the data. *)
Inductive answer :=
  | AString (name : option cstring)
  | AStringStat (name : option cstring) (stat : option Stat)
  | AData (written : Z) (value : option (list byte)) (stat : option Stat)
  | AStrings (strings : option (vector (option cstring)))
  | AStringsStat (strings : option (vector (option cstring))) (stat : option Stat)
  | AVoid
  | AStat (stat : option Stat).
Definition complete (a : answer) (rc data : Z) : MR () :=
  match a with
  | AString name => my_string_completion_free_data rc name data
  | AStringStat name stat => my_string_stat_completion_free_data rc name stat data
  | AData written value stat => my_data_completion written rc value stat data
  | AStrings strings => my_strings_completion rc strings data
  | AStringsStat strings stat => my_strings_stat_completion rc strings stat data
  | AVoid => my_void_completion rc data
  | AStat stat => my_stat_completion rc stat data
  end.
(** A name comes with success, vectors hold as many strings as they say, none of them NULL,
    and the terminal takes a value whole. *)
Definition good_strings (strings : option (vector (option cstring))) : Prop :=
  ∀ v, strings = Some v → ∃ names, v_count v = Z.of_nat (length names) ∧ default [] (v_data v) = Some <$> names.
Definition good_answer (a : answer) (rc : Z) : Prop :=
  match a with
  | AString name | AStringStat name _ => rc = 0 → is_Some name
  | AData written value _ => ∀ v, value = Some v → written = Z.of_nat (length v)
  | AStrings strings | AStringsStat strings _ => good_strings strings
  | AVoid | AStat _ => True
  end.
(** All that a callback leaves to the rest of the program, the output apart. *)
Definition finished (data : Z) (r : run) (outputs : list output) : run :=
  let c := drop_string data (ru_cli r) in
  mk_run (if batchMode r then set_shutdown true c else c) (batchMode r) (cmd r) (to_send r) (sent r) (recvd r) (myid r)
    (clientIdFile r) (ru_files r) (ru_out r ++ outputs).

Lemma MR_bind_eq {A B} (m : MR A) (f : A → MR B) r : (m ≫= f) r = ('(a, r) ← m r; f a r).
Proof. done. Qed.
Lemma MR_bind_assoc {A B C} (m : MR A) (f : A → MR B) (g : B → MR C) r :
  ((m ≫= f) ≫= g) r = (m ≫= λ a, f a ≫= g) r.
Proof. rewrite !MR_bind_eq. by destruct (m r) as [[a r']| | |]. Qed.
Lemma out_eq x r : out x r = Ret ((), add_output x r).
Proof. done. Qed.
Lemma client_ask {A} (f : cli → A) r : client (ask f) r = Ret (f (ru_cli r), r).
Proof. by destruct r. Qed.
Lemma print_data_runs data r : print_data data r =
  match cl_strings (ru_cli r) !! data with Some text => Ret (text, r) | None => UB end.
Proof.
  unfold print_data. rewrite MR_bind_eq, client_ask. cbn [mbind outcome_bind]. unfold stop. by case_match.
Qed.
Lemma free_eq data text r : data ≠ 0 → cl_strings (ru_cli r) !! data = Some text →
  free data r = Ret ((), set_cli (drop_string data (ru_cli r)) r).
Proof.
  intros Hd Ht. unfold free. rewrite (proj2 (Z.eqb_neq data 0)) by done. rewrite MR_bind_eq, client_ask.
  cbn [mbind outcome_bind]. by rewrite bool_decide_eq_true_2 by (rewrite Ht; by exists text).
Qed.
Lemma end_batch_eq r :
  end_batch r = Ret ((), if batchMode r then set_cli (set_shutdown true (ru_cli r)) r else r).
Proof. unfold end_batch. rewrite MR_bind_eq. unfold read. cbn [mbind outcome_bind]. by destruct (batchMode r). Qed.
Lemma names_printed v names : v_count v = Z.of_nat (length names) → default [] (v_data v) = Some <$> names →
  children_data v = Ret (Some <$> names) ∧ mapM id (Some <$> names) = Some names.
Proof.
  intros Hc Hd. unfold children_data. rewrite Hc, Hd, Nat2Z.id. rewrite take_ge by (rewrite length_fmap; lia).
  rewrite length_fmap, Z.leb_refl. split; [done|]. clear. induction names as [|n names IH]; [done|]. cbn. by rewrite IH.
Qed.

Lemma read_eq {A} (f : run → A) r : read f r = Ret (f r, r).
Proof. done. Qed.
Lemma change_eq f r : change f r = Ret ((), f r).
Proof. done. Qed.
Lemma stop_eq {A} (a : A) r : stop (Ret a) r = Ret (a, r).
Proof. done. Qed.
Lemma MR_ret_eq {A} (a : A) r : (mret a : MR A) r = Ret (a, r).
Proof. done. Qed.
(** Running the code of a callback step by step. *)
Ltac callback Ht :=
  unfold dumpStat;
  repeat (progress (rewrite ?MR_bind_eq, ?out_eq, ?end_batch_eq, ?print_data_runs, ?stop_eq, ?MR_ret_eq;
                    cbn [add_output ru_cli set_cli]; rewrite ?Ht; cbn [mbind outcome_bind]));
  try (match goal with |- context [free ?d ?s] => rewrite (free_eq d _ s ltac:(done) Ht) end; callback Ht).
(** The two sides agree in batch mode and otherwise. *)
Ltac callback_done r := unfold finished, add_output, set_cli; cbn; rewrite <- ?app_assoc; by destruct (batchMode r).
Lemma string_completion_runs rc name data text r : (rc = 0 → is_Some name) → data ≠ 0 →
  cl_strings (ru_cli r) !! data = Some text →
  ∃ outputs, my_string_completion rc name data r =
    Ret ((), mk_run (if batchMode r then set_shutdown true (ru_cli r) else ru_cli r) (batchMode r) (cmd r) (to_send r)
               (sent r) (recvd r) (myid r) (clientIdFile r) (ru_files r) (ru_out r ++ OAnswer text rc :: outputs)).
Proof.
  intros Hn Hd Ht. unfold my_string_completion. rewrite (proj2 (Z.eqb_neq data 0)) by done. callback Ht.
  destruct (Z.eqb_spec rc 0) as [->|Hrc].
  - destruct (Hn eq_refl) as [n ->]. exists [OName n]. callback Ht. callback_done r.
  - exists []. callback Ht. callback_done r.
Qed.
Lemma strings_completion_runs rc strings data text r : good_strings strings → data ≠ 0 →
  cl_strings (ru_cli r) !! data = Some text →
  ∃ outputs, my_strings_completion rc strings data r = Ret ((), finished data r (OAnswer text rc :: outputs)).
Proof.
  intros Hn Hd Ht. unfold my_strings_completion. callback Ht. destruct strings as [v|].
  - destruct (Hn v eq_refl) as (names & Hc & Hv). destruct (names_printed v names Hc Hv) as [E1 E2].
    exists [OStrings names]. rewrite E1. callback Ht. rewrite E2. callback Ht. callback_done r.
  - exists []. callback Ht. callback_done r.
Qed.
Lemma complete_runs a rc data text r : good_answer a rc → data ≠ 0 → cl_strings (ru_cli r) !! data = Some text →
  ∃ outputs, complete a rc data r = Ret ((), finished data r (OAnswer text rc :: outputs)).
Proof.
  intros Ha Hd Ht. destruct a as [name|name stat|written value stat|strings|strings stat| |stat]; cbn [complete].
  - destruct (string_completion_runs rc name data text r Ha Hd Ht) as [outputs E]. exists outputs.
    unfold my_string_completion_free_data. rewrite MR_bind_eq, E. cbn [mbind outcome_bind].
    rewrite (free_eq data text) by (done || by destruct (batchMode r)). callback_done r.
  - destruct (string_completion_runs rc name data text r Ha Hd Ht) as [outputs E]. exists (outputs ++ [OStat stat]).
    unfold my_string_stat_completion_free_data, my_string_stat_completion. rewrite !MR_bind_eq, E.
    cbn [mbind outcome_bind]. callback Ht.
    rewrite (free_eq data text) by (done || by destruct (batchMode r)). callback_done r.
  - unfold my_data_completion. callback Ht. destruct value as [v|].
    + rewrite (Ha v eq_refl). exists [OValue v; OStat stat]. callback Ht. rewrite Z.eqb_refl. callback Ht. callback_done r.
    + exists [OStat stat]. callback Ht. callback_done r.
  - by apply strings_completion_runs.
  - destruct (strings_completion_runs rc strings data text r Ha Hd Ht) as [outputs E]. exists (outputs ++ [OStat stat]).
    unfold my_strings_stat_completion. rewrite MR_bind_eq, E. cbn [mbind outcome_bind]. callback Ht. callback_done r.
  - unfold my_void_completion. exists []. callback Ht. callback_done r.
  - unfold my_stat_completion. exists [OStat stat]. callback Ht. callback_done r.
Qed.
Lemma complete_freed a rc data r : data ≠ 0 → cl_strings (ru_cli r) !! data = None → complete a rc data r = UB.
Proof.
  intros Hd Ht. destruct a; cbn [complete];
    unfold my_string_completion_free_data, my_string_stat_completion_free_data, my_string_stat_completion,
      my_string_completion, my_data_completion, my_strings_stat_completion, my_strings_completion, my_void_completion,
      my_stat_completion; rewrite ?(proj2 (Z.eqb_neq data 0)) by done; rewrite !MR_bind_eq, print_data_runs, Ht; done.
Qed.

(** Every completion of a command, called with an answer the library gives and with the
    text that was copied for it: it prints that text and the result first, frees the text
    and nothing else, ends the client exactly in batch mode, and changes nothing else.
    Called once more with the same text it would use freed memory. *)
Theorem completions_free_once a rc data text r :
  good_answer a rc → data ≠ 0 → cl_strings (ru_cli r) !! data = Some text →
  ∃ outputs r', complete a rc data r = Ret ((), r') ∧ r' = finished data r (OAnswer text rc :: outputs) ∧
    cl_strings (ru_cli r') = base.delete data (cl_strings (ru_cli r)) ∧
    cl_shutdown (ru_cli r') = cl_shutdown (ru_cli r) || batchMode r ∧
    complete a rc data r' = UB.
Proof.
  intros Ha Hd Ht. destruct (complete_runs a rc data text r Ha Hd Ht) as [outputs E].
  assert (cl_strings (ru_cli (finished data r (OAnswer text rc :: outputs))) = base.delete data (cl_strings (ru_cli r)))
    as Hs by (unfold finished; cbn; by destruct (batchMode r)).
  exists outputs, (finished data r (OAnswer text rc :: outputs)). split_and!; [done|done|done| |].
  - unfold finished. cbn. destruct (batchMode r); [by rewrite orb_true_r|by rewrite orb_false_r].
  - apply complete_freed; [done|]. rewrite Hs. by apply lookup_delete_eq.
Qed.

(** ** The session that is stored *)
Section stored.
Context `{Host, Locals}.
Definition good_clientid (c : clientid) : Prop := in_s 64 (ci_client_id c) ∧ length (ci_passwd c) = 16%nat.
Lemma clientid_roundtrip c : good_clientid c →
  length (clientid_bytes c) = clientid_size ∧ clientid_of (clientid_bytes c) = c.
Proof.
  intros [Hi Hp]. unfold clientid_bytes, clientid_of. pose proof (length_mem_of_int 8 (ci_client_id c)) as Hl. split.
  - rewrite length_app, Hl, Hp. done.
  - rewrite take_app_length' by done. rewrite drop_app_length' by done. rewrite int_of_mem_of_int by (lia || done).
    by destruct c.
Qed.
(** [fread] never returns 24. *)
Lemma load_clientid_zero content : load_clientid content = zero_clientid.
Proof. unfold load_clientid. by destruct (_ <=? _)%nat. Qed.
(** The session of the handle when the watcher is called. *)
Definition session_of (r : run) : clientid :=
  let zh := s_zh (i_sys (cl_isys (ru_cli r))) in mk_clientid (zh_client_id zh) (zh_passwd zh).
Lemma watcher_stores writable room name path r : writable name = true → (clientid_size ≤ room)%nat →
  good_clientid (session_of r) → clientIdFile r = Some name →
  ci_client_id (myid r) = 0 ∨ ci_client_id (myid r) ≠ ci_client_id (session_of r) →
  ∃ r', watcher writable room ZOO_SESSION_EVENT ZOO_CONNECTED_STATE path r = Ret ((), r') ∧
    myid r' = session_of r ∧ ru_files r' = <[name := clientid_bytes (session_of r)]> (ru_files r) ∧
    OPerror (lit "writing client id") ∈ ru_out r'.
Proof.
  intros Hw Hroom Hg Hn Hnew. destruct (clientid_roundtrip _ Hg) as [Hl _].
  unfold watcher. rewrite !Z.eqb_refl. cbn [negb]. rewrite MR_bind_eq, out_eq. cbn [mbind outcome_bind].
  set (r1 := add_output _ r). rewrite MR_bind_eq. 
  replace (client (library (sess zoo_client_id)) r1) with (Ret (session_of r, r1)) by (subst r1; by destruct r as [[[[]]]]).
  cbn [mbind outcome_bind]. rewrite MR_bind_eq, read_eq. cbn [mbind outcome_bind]. change (myid r1) with (myid r).
  rewrite (proj2 (orb_true_iff _ _)) by (destruct Hnew; [left; by apply Z.eqb_eq|right; by apply negb_true_iff, Z.eqb_neq]).
  rewrite MR_bind_eq, change_eq. cbn [mbind outcome_bind]. rewrite MR_bind_eq, out_eq. cbn [mbind outcome_bind].
  rewrite MR_bind_eq, read_eq. cbn [mbind outcome_bind]. subst r1. cbn [add_output set_myid clientIdFile].
  rewrite Hn. unfold store_clientid. rewrite Hw. cbn [negb]. rewrite take_ge by lia. rewrite Hl.
  rewrite MR_bind_eq, change_eq. cbn [mbind outcome_bind]. rewrite Nat.eqb_refl.
  change (negb (1 =? Z.of_nat clientid_size)) with true. cbn iota. rewrite out_eq.
  eexists. split; [reflexivity|]. split; [done|]. split; [done|]. cbn. set_solver.
Qed.
(** The static variables before [main]. *)
Definition fresh_run (c : cli) (files : gmap cstring (list byte)) : run :=
  mk_run c false [] 0 0 0 zero_clientid None files [].
(** Code that neither reads nor writes files. *)
Definition blind {A} (m : MR A) : Prop :=
  ∀ files r, m (set_files files r) = ('(a, r) ← m r; Ret (a, set_files files r)).
Lemma blind_bind {A B} (m : MR A) (f : A → MR B) : blind m → (∀ a, blind (f a)) → blind (m ≫= f).
Proof.
  intros Hm Hf files r. rewrite !MR_bind_eq, Hm. destruct (m r) as [[a r']| | |]; [|done..].
  cbn [mbind outcome_bind]. apply Hf.
Qed.
Lemma blind_client {A} (m : MC A) : blind (client m).
Proof. intros files r. unfold client. cbn [ru_cli set_files]. by destruct (m (ru_cli r)) as [[a c]| | |]. Qed.
Lemma second_argument_ignores arg r : myid r = zero_clientid →
  second_argument arg r =
    if startsWith arg (lit "cmd:") then second_argument arg r else Ret (None, set_clientIdFile arg r).
Proof.
  intros Hz. destruct (startsWith arg (lit "cmd:")) eqn:E; [done|]. unfold second_argument. rewrite E.
  rewrite MR_bind_eq, change_eq. cbn [mbind outcome_bind]. rewrite MR_bind_eq, read_eq. cbn [mbind outcome_bind].
  destruct (_ !! arg) as [content|]; [|done]. rewrite load_clientid_zero. rewrite <- Hz. by destruct r.
Qed.
Lemma second_argument_blind arg files r : myid r = zero_clientid →
  second_argument arg (set_files files r) = ('(a, r) ← second_argument arg r; Ret (a, set_files files r)).
Proof.
  intros Hz. rewrite (second_argument_ignores arg (set_files files r)), (second_argument_ignores arg r) by done.
  unfold second_argument. destruct (startsWith arg (lit "cmd:")); [|done]. by destruct (_ <? _).
Qed.
Lemma main_start_blind argv files r : myid r = zero_clientid →
  main_start argv (set_files files r) = ('(a, r) ← main_start argv r; Ret (a, set_files files r)).
Proof.
  intros Hz. destruct argv as [|a0 [|host rest]]; [done|done|]. cbn [main_start]. rewrite !MR_bind_eq.
  replace ((match rest with arg :: _ => second_argument arg | [] => mret None end) (set_files files r))
    with ('(a, r) ← (match rest with arg :: _ => second_argument arg | [] => mret None end) r; Ret (a, set_files files r)).
  2:{ destruct rest as [|arg rest]; [done|]. by rewrite second_argument_blind. }
  destruct ((match rest with arg :: _ => second_argument arg | [] => mret None end) r) as [[o r1]| | |]; [|done..].
  cbn [mbind outcome_bind]. destruct o as [status|]; [done|].
  apply blind_bind; [apply blind_client|intros _]. apply blind_bind; [done|intros id].
  apply blind_bind; [apply blind_client|intros ok]. apply blind_bind; [apply blind_client|done].
Qed.

(** C39. When a session is established the watcher stores it in the file the client was
    started with, in full, though it reports an error; started again with that file, or
    with any other content of it, the client does what it does without the file: it begins
    a new session.  (The numbers of items that [fwrite] and [fread] return are compared
    with the size of an item.) *)
Theorem stored_session_ignored writable room name path r argv c files :
  writable name = true → (clientid_size ≤ room)%nat → good_clientid (session_of r) → clientIdFile r = Some name →
  ci_client_id (myid r) = 0 ∨ ci_client_id (myid r) ≠ ci_client_id (session_of r) →
  (∃ r', watcher writable room ZOO_SESSION_EVENT ZOO_CONNECTED_STATE path r = Ret ((), r') ∧
     myid r' = session_of r ∧ OPerror (lit "writing client id") ∈ ru_out r' ∧
     ∃ content, ru_files r' !! name = Some content ∧ length content = clientid_size ∧
       clientid_of content = session_of r) ∧
  main_start argv (fresh_run c files) =
    ('(a, r) ← main_start argv (fresh_run c ∅); Ret (a, set_files files r)).
Proof.
  intros Hw Hroom Hg Hn Hnew. split; [|by apply (main_start_blind argv files (fresh_run c ∅))].
  destruct (watcher_stores writable room name path r Hw Hroom Hg Hn Hnew) as (r' & E & Hm & Hf & Ho).
  exists r'. split_and!; [done..|]. exists (clientid_bytes (session_of r)). rewrite Hf, lookup_insert, decide_True by done.
  split; [done|]. by apply clientid_roundtrip.
Qed.
End stored.

(** ** Samples *)
Definition sample_run : run :=
  mk_run (mk_cli sample_created true {[1 := lit "/a"]} 2 false false []) true (lit "delete /a") 0 0 0 zero_clientid
    (Some (lit "id")) ∅ [].
Lemma sample_strings : cl_strings (ru_cli sample_run) = {[1 := lit "/a"]}.
Proof. reflexivity. Qed.
Lemma completions_free_once_witness :
  ∃ r', complete AVoid 0 1 sample_run = Ret ((), r') ∧ cl_strings (ru_cli r') = ∅ ∧ cl_shutdown (ru_cli r') = true.
Proof.
  destruct (completions_free_once AVoid 0 1 (lit "/a") sample_run I) as (outputs & r' & E & _ & Hs & Hd & _);
    [discriminate|rewrite sample_strings; vm_compute; reflexivity|].
  exists r'. split; [exact E|]. split; [|rewrite Hd; reflexivity].
  rewrite Hs, sample_strings. vm_compute. reflexivity.
Defined.
Lemma sample_session : session_of sample_run = mk_clientid 77 (replicate 16 Byte.x2a).
Proof. vm_compute. reflexivity. Qed.
Lemma stored_session_ignored_witness :
  (∃ r' content, @watcher sample_host zero_locals (λ _, true) 4096 ZOO_SESSION_EVENT ZOO_CONNECTED_STATE None sample_run =
     Ret ((), r') ∧ ru_files r' !! lit "id" = Some content ∧
     @clientid_of sample_host content = mk_clientid 77 (replicate 16 Byte.x2a)) ∧
  ∀ content,
    @main_start sample_host zero_locals [lit "cli"; lit "a:2181"; lit "id"] (fresh_run sample_cli {[lit "id" := content]}) =
    ('(a, r) ← @main_start sample_host zero_locals [lit "cli"; lit "a:2181"; lit "id"] (fresh_run sample_cli ∅);
     Ret (a, set_files {[lit "id" := content]} r)).
Proof.
  pose proof (λ content, @stored_session_ignored sample_host zero_locals (λ _, true) 4096 (lit "id") None sample_run
    [lit "cli"; lit "a:2181"; lit "id"] sample_cli {[lit "id" := content]}) as T.
  rewrite sample_session in T.
  pose proof (λ content, T content eq_refl ltac:(vm_compute; lia)
    ltac:(split; [vm_compute; split; congruence|reflexivity]) eq_refl (or_introl eq_refl)) as T2.
  split; [|intros content; apply T2].
  destruct (T2 []) as [(r' & E & _ & _ & content & Hf & _ & Hc) _]. exists r', content. split; [exact E|]. by split.
Defined.
