(* ===== verification/Log.v ===== *)
(** * Logging

    src/zk_log.c in the build with threads: the level, the buffers each thread has of its
    own, and [log_message], which puts a header and a message into one of them.  The text
    of the time up to the seconds ([strftime]), the identity of the process and the thread,
    and the message as [vsnprintf] would write it without a limit are arguments. *)

From S2P Require Import Prelude Hosts HostsTheorems LoadGen.
Local Open Scope Z_scope.

Definition TIME_NOW_BUF_SIZE : nat := 1024.
Definition FORMAT_LOG_BUF_SIZE : nat := 4096.
Abbreviation ZOO_LOG_LEVEL_ERROR := 1.
Abbreviation ZOO_LOG_LEVEL_WARN := 2.
Abbreviation ZOO_LOG_LEVEL_INFO := 3.
Abbreviation ZOO_LOG_LEVEL_DEBUG := 4.

(** [logLevel] after [zoo_set_debug_level], for a value of the type of the levels. *)
Definition zoo_set_debug_level (level : Z) : Z :=
  if level =? 0 then 0 else
  let level := if level <? ZOO_LOG_LEVEL_ERROR then ZOO_LOG_LEVEL_ERROR else level in
  if ZOO_LOG_LEVEL_DEBUG <? level then ZOO_LOG_LEVEL_DEBUG else level.
(** [logStream]: 0 is NULL, [stderr] the default. *)
Definition zoo_get_log_stream (stderr logStream : Z) : Z := if logStream =? 0 then stderr else logStream.

(** [getTSData]: whether the thread has the buffer already; if not it is allocated.  A
    failure of [pthread_setspecific] is only reported. *)
Definition getTSData (present : bool) (o : allocs) : bool * allocs := if present then (true, o) else alloc o.

(** Three digits for the milliseconds. *)
Definition three_digits (n : Z) : cstring :=
  [digit_char (n / 100 mod 10); digit_char (n / 10 mod 10); digit_char (n mod 10)].
(** [time_now]: [seconds] is the text of [strftime], which fits. *)
Definition time_now (seconds : cstring) (usec : Z) : cstring :=
  seconds ++ snprintf (TIME_NOW_BUF_SIZE - length seconds) (lit "," ++ three_digits (Z.quot usec 1000)).

Definition dbgLevelStr : list cstring :=
  [lit "ZOO_INVALID"; lit "ZOO_ERROR"; lit "ZOO_WARN"; lit "ZOO_INFO"; lit "ZOO_DEBUG"].
(** A nonnegative int, and an unsigned long in hexadecimal. *)
Fixpoint hex_to (fuel : nat) (n : Z) (rest : cstring) : cstring :=
  match fuel with
  | O => rest
  | S fuel =>
      let d := n mod 16 in
      let rest := byte.of_Z (if d <? 10 then 48 + d else 87 + d) :: rest in
      if n <? 16 then rest else hex_to fuel (n / 16) rest
  end.
Record log_context := mk_log_context { lc_seconds : cstring; lc_usec : Z; lc_pid : Z; lc_tid : Z }.
(** What [snprintf] has to write: ["%s:%ld(0x%lx):%s@%s@%d: "]. *)
Definition log_header (x : log_context) (level : cstring) (funcName : cstring) (line : Z) : cstring :=
  time_now (lc_seconds x) (lc_usec x) ++ lit ":" ++ decimal_to 19 (lc_pid x) (lit "(0x" ++
    hex_to 16 (lc_tid x) (lit "):" ++ level ++ lit "@" ++ funcName ++ lit "@" ++ decimal_to 10 line (lit ": "))).
(** Who gets the text: the callback, or the stream. *)
Inductive log_output := ToCallback (text : cstring) | ToStream (text : cstring) | NoMemory.
(** [log_message].  The time goes to a buffer that is not tested for NULL.  [ofs] is what the
    header needs, not what of it was written; behind it [vsnprintf] gets the size that is
    left, which is unsigned. *)
Definition log_message (time_buffer format_buffer callback : bool) (x : log_context) (curLevel line : Z)
    (funcName text : cstring) (o : allocs) : outcome (log_output * allocs) :=
  let '(ok, o) := getTSData time_buffer o in
  if negb ok then UB else
  let '(ok, o) := getTSData format_buffer o in
  if negb ok then Ret (NoMemory, o) else
  match dbgLevelStr !! Z.to_nat curLevel with
  | None => UB
  | Some level =>
      let header := log_header x level funcName line in
      let ofs := length header in
      if (FORMAT_LOG_BUF_SIZE - 1 <? ofs)%nat then UB else
      let size := (FORMAT_LOG_BUF_SIZE - 1 - ofs)%nat in
      let buf := if (size =? 0)%nat then snprintf (FORMAT_LOG_BUF_SIZE - 1) header
                 else header ++ snprintf size text in
      Ret (if callback then ToCallback buf else ToStream buf, o)
  end.

(** ** Theorems *)

(** Only the levels of the header file are ever set, and each of them can be. *)
Lemma set_debug_level_range level : 0 ≤ zoo_set_debug_level level ≤ ZOO_LOG_LEVEL_DEBUG.
Proof. unfold zoo_set_debug_level. repeat case_match; lia. Qed.
Lemma set_debug_level_id level : 0 ≤ level ≤ ZOO_LOG_LEVEL_DEBUG → zoo_set_debug_level level = level.
Proof. intros Hl. unfold zoo_set_debug_level. repeat case_match; lia. Qed.
Lemma decimal_to_bound fuel n rest : (length (decimal_to fuel n rest) ≤ fuel + length rest)%nat.
Proof.
  revert n rest. induction fuel as [|fuel IH]; intros n rest; cbn [decimal_to]; [lia|].
  destruct (n <? 10); [simpl; lia|]. etrans; [apply IH|]. simpl. lia.
Qed.
Lemma hex_to_bound fuel n rest : (length (hex_to fuel n rest) ≤ fuel + length rest)%nat.
Proof.
  revert n rest. induction fuel as [|fuel IH]; intros n rest; cbn [hex_to]; [lia|].
  destruct (n <? 16); [simpl; lia|]. etrans; [apply IH|]. simpl. lia.
Qed.
Lemma level_bound curLevel level : dbgLevelStr !! Z.to_nat curLevel = Some level → (length level ≤ 11)%nat.
Proof.
  intros Hl%list_elem_of_lookup_2. revert level Hl. apply Forall_forall. repeat constructor.
Qed.
Lemma header_bound x level funcName line : (length level ≤ 11)%nat →
  (length (log_header x level funcName line) ≤ length (lc_seconds x) + length funcName + 70)%nat.
Proof.
  intros Hl. unfold log_header, time_now, snprintf. rewrite !length_app, length_take.
  pose proof (decimal_to_bound 10 line (lit ": ")) as H1.
  set (r1 := lit "):" ++ level ++ lit "@" ++ funcName ++ lit "@" ++ decimal_to 10 line (lit ": ")).
  assert (length r1 ≤ length funcName + 27)%nat as H2
    by (unfold r1; rewrite !length_app; change (length (lit "):")) with 2%nat; change (length (lit "@")) with 1%nat;
        change (length (lit ": ")) with 2%nat in H1; lia).
  pose proof (hex_to_bound 16 (lc_tid x) r1) as H3.
  pose proof (decimal_to_bound 19 (lc_pid x) (lit "(0x" ++ hex_to 16 (lc_tid x) r1)) as H4. rewrite length_app in H4.
  change (length (lit "(0x")) with 3%nat in H4. change (length (lit ":")) with 1%nat.
  change (length (lit "," ++ three_digits _)) with 4%nat. lia.
Qed.

(** C40. If the thread gets its buffers, a message at one of the levels is written within
    the buffer, for every text and for names of functions and times that are not absurdly
    long: what comes out is the header and as much of the message as 4094 bytes hold. *)
Theorem log_message_fits tb fb callback x curLevel line funcName text o :
  0 ≤ curLevel ≤ ZOO_LOG_LEVEL_DEBUG → (length (lc_seconds x) + length funcName ≤ 4000)%nat →
  (getTSData tb o).1 = true → (getTSData fb (getTSData tb o).2).1 = true →
  ∃ level out, dbgLevelStr !! Z.to_nat curLevel = Some level ∧
    log_message tb fb callback x curLevel line funcName text o =
      Ret (if callback then ToCallback out else ToStream out, (getTSData fb (getTSData tb o).2).2) ∧
    out = take (FORMAT_LOG_BUF_SIZE - 2) (log_header x level funcName line ++ text) ∧
    (length out < FORMAT_LOG_BUF_SIZE)%nat.
Proof.
  intros Hl Hf Ht Hb. unfold log_message. destruct (getTSData tb o) as [ok o1]. cbn [fst snd] in *. subst ok.
  destruct (getTSData fb o1) as [ok o2]. cbn [fst snd] in *. subst ok. cbn [negb].
  destruct (lookup_lt_is_Some_2 dbgLevelStr (Z.to_nat curLevel)) as [level Hlev]; [change (length dbgLevelStr) with 5%nat; lia|].
  rewrite Hlev. pose proof (header_bound x level funcName line (level_bound _ _ Hlev)) as Hh.
  set (header := log_header x level funcName line) in *. assert (length header ≤ 4070)%nat as Hle by lia. clear Hh.
  unfold FORMAT_LOG_BUF_SIZE. rewrite (proj2 (Nat.ltb_ge _ _)) by lia. rewrite (proj2 (Nat.eqb_neq _ 0)) by lia.
  exists level, (header ++ snprintf (4096 - 1 - length header) text). split_and!; [done|done| |].
  - fold header. rewrite take_app_ge by lia. unfold snprintf.
    by replace (4096 - 1 - length header - 1)%nat with (4096 - 2 - length header)%nat by lia.
  - unfold snprintf. rewrite length_app, length_take. lia.
Qed.
Definition sample_context : log_context := mk_log_context (lit "2021-02-05 09:33:41") 7000 42 255.
Lemma log_message_fits_witness :
  log_message false false false sample_context ZOO_LOG_LEVEL_INFO 29 (lit "main") (lit "ok") [] =
    Ret (ToStream (lit "2021-02-05 09:33:41,007:42(0xff):ZOO_INFO@main@29: ok"), []).
Proof.
  destruct (log_message_fits false false false sample_context ZOO_LOG_LEVEL_INFO 29 (lit "main") (lit "ok") [])
    as (level & out & Hl & -> & -> & _); [lia|vm_compute; lia|reflexivity|reflexivity|].
  injection Hl as <-. vm_compute. reflexivity.
Defined.
