(* ===== verification/Exceptions.v ===== *)
(** * The exceptions of the wrapper

    ZOOK_MS/exception.cpp, syscall_exception.cpp and extract_filename.h: what an exception
    keeps and the text it makes of it. *)

From S2P Require Import Prelude Hosts HostsTheorems.
Local Open Scope Z_scope.

(** ** Strings *)

(** [s.find(pattern, pos)]: the first position from [pos] on, or [npos]. *)
Fixpoint find_from (pattern s : cstring) (pos : nat) : option nat :=
  match s with
  | [] => if bool_decide (pattern = []) then Some pos else None
  | _ :: s' => if bool_decide (pattern `prefix_of` s) then Some pos else find_from pattern s' (S pos)
  end.
Definition find (s pattern : cstring) (pos : nat) : option nat :=
  if (length s <? pos)%nat then None else find_from pattern (drop pos s) pos.
(** [s.replace(pos, len, text)] *)
Definition replace (s : cstring) (pos len : nat) (text : cstring) : cstring :=
  take pos s ++ text ++ drop (pos + len) s.
Fixpoint string_replace (fuel : nat) (strBig strsrc strdst : cstring) (pos : nat) : outcome cstring :=
  match fuel with
  | O => Loop
  | S fuel =>
      match find strBig strsrc pos with
      | None => Ret strBig
      | Some pos =>
          string_replace fuel (replace strBig pos (length strsrc) strdst) strsrc strdst (pos + length strdst)
      end
  end.
(** [s.find_last_of(c) + 1]: 0 if there is none. *)
Fixpoint after_last (c : byte) (s : cstring) : nat :=
  match s with
  | [] => 0
  | x :: s =>
      match after_last c s with
      | O => if decide (x = c) then 1 else 0
      | n => S n
      end
  end.
Definition backslash : byte := Byte.x5c.
Definition slash_char : byte := Byte.x2f.
Definition extract_filename (strFullName : cstring) : outcome cstring :=
  match strFullName with
  | [] => Ret []
  | _ =>
      s ← string_replace (S (length strFullName)) strFullName [slash_char] [backslash] 0;
      Ret (drop (after_last backslash s) s)
  end.

(** ** Exceptions *)
Definition int_text (n : Z) : cstring := if n <? 0 then lit "-" ++ decimal (- n) else decimal n.
Record CException := mk_CException {
  _errmsg : cstring;
  _errcode : Z;
  _file : cstring;
  _line : Z;
}.
(** [init], on the empty strings of a new object; a pointer may be NULL. *)
Definition init (errmsg : option cstring) (errcode : Z) (file : option cstring) (line : Z) : outcome CException :=
  f ← (match file with Some file => extract_filename file | None => Ret [] end);
  Ret (mk_CException (default [] errmsg) errcode f line).
(** The constructor with strings; the other one is [init]. *)
Definition new_CException (errmsg : cstring) (errcode : Z) (file : cstring) (line : Z) : outcome CException :=
  init (Some errmsg) errcode (Some file) line.
Definition CException_str (e : CException) : cstring :=
  lit "exception://" ++ lit "[" ++ int_text (_errcode e) ++ lit "]" ++ _errmsg e ++ lit "@" ++ _file e ++ lit ":" ++
  int_text (_line e).
Record CSyscallException := mk_CSyscallException { se_base : CException; _syscall : cstring }.
(** Without a message, or with an empty one, [strerror(errno)] is the message. *)
Definition new_CSyscallException_c (strerror_errno : cstring) (errmsg : option cstring) (errcode : Z)
    (file : option cstring) (line : Z) (syscall : option cstring) : outcome CSyscallException :=
  e ← init errmsg errcode file line;
  let e := match errmsg with
           | None => mk_CException strerror_errno (_errcode e) (_file e) (_line e)
           | Some _ => e
           end in
  Ret (mk_CSyscallException e (default [] syscall)).
Definition new_CSyscallException (strerror_errno errmsg : cstring) (errcode : Z) (file : cstring) (line : Z)
    (syscall : cstring) : outcome CSyscallException :=
  e ← new_CException errmsg errcode file line;
  let e := match errmsg with
           | [] => mk_CException strerror_errno (_errcode e) (_file e) (_line e)
           | _ => e
           end in
  Ret (mk_CSyscallException e syscall).
Definition CSyscallException_str (e : CSyscallException) : cstring :=
  lit "syscall_exception://" ++ _errmsg (se_base e) ++ lit "@" ++ _file (se_base e) ++ lit ":" ++
  int_text (_line (se_base e)) ++
  match _syscall e with [] => [] | s => lit "#" ++ s end.

(** ** Theorems *)

(** Either separator. *)
Definition separator (c : byte) : Prop := c = slash_char ∨ c = backslash.
Global Instance separator_dec c : Decision (separator c).
Proof. unfold separator. apply _. Defined.
(** The replacement, character by character. *)
Definition unify (s : cstring) : cstring := fmap (λ c, if decide (c = slash_char) then backslash else c) s.
Lemma find_from_char c s pos :
  match find_from [c] s pos with
  | None => c ∉ s
  | Some n => ∃ a b, s = a ++ c :: b ∧ (c ∉ a) ∧ n = (pos + length a)%nat
  end.
Proof.
  revert pos. induction s as [|x s IH]; intros pos; cbn [find_from].
  - rewrite bool_decide_eq_false_2 by done. set_solver.
  - case_bool_decide as Hp.
    + destruct Hp as [r Hr]. injection Hr as -> ->. exists [], r. split_and!; [done|set_solver|simpl; lia].
    + assert (x ≠ c) as Hx by (intros ->; apply Hp; by exists s).
      specialize (IH (S pos)). destruct (find_from [c] s (S pos)) as [n|]; [|set_solver].
      destruct IH as (a & b & -> & Ha & ->). exists (x :: a), b. split_and!; [done|set_solver|simpl; lia].
Qed.
Lemma unify_id s : slash_char ∉ s → unify s = s.
Proof.
  induction s as [|x s IH]; [done|]. intros Hs. cbn. rewrite decide_False by set_solver. f_equal. apply IH. set_solver.
Qed.
Lemma string_replace_unify fuel : ∀ done_ rest, slash_char ∉ done_ → (length rest < fuel)%nat →
  string_replace fuel (done_ ++ rest) [slash_char] [backslash] (length done_) = Ret (done_ ++ unify rest).
Proof.
  induction fuel as [|fuel IH]; intros done_ rest Hd Hf; [lia|]. cbn [string_replace]. unfold find.
  rewrite (proj2 (Nat.ltb_ge _ _)) by (rewrite length_app; lia). rewrite drop_app_length.
  pose proof (find_from_char slash_char rest (length done_)) as Hff.
  destruct (find_from [slash_char] rest (length done_)) as [n|]; [|by rewrite unify_id].
  destruct Hff as (a & b & -> & Ha & ->). unfold replace.
  replace (take (length done_ + length a) (done_ ++ a ++ slash_char :: b)) with (done_ ++ a).
  2:{ rewrite app_assoc, <- length_app. by rewrite take_app_length. }
  replace (drop (length done_ + length a + length [slash_char]) (done_ ++ a ++ slash_char :: b)) with b.
  2:{ change (slash_char :: b) with ([slash_char] ++ b). rewrite !app_assoc, drop_app_length'; [done|].
      rewrite !length_app. lia. }
  replace ((done_ ++ a) ++ [backslash] ++ b) with (((done_ ++ a) ++ [backslash]) ++ b) by (by rewrite <- !app_assoc).
  replace (length done_ + length a + length [backslash])%nat with (length ((done_ ++ a) ++ [backslash]))
    by (by rewrite !length_app).
  rewrite IH; [|set_solver|rewrite length_app in Hf; simpl in Hf; lia].
  f_equal. unfold unify. rewrite fmap_app. cbn. fold (unify a). rewrite (unify_id a) by done. by rewrite <- !app_assoc.
Qed.
Lemma after_last_split c s :
  (after_last c s = 0%nat ∧ c ∉ s) ∨
  ∃ a b, s = a ++ c :: b ∧ (c ∉ b) ∧ after_last c s = S (length a).
Proof.
  induction s as [|x s [[E Hs]|(a & b & -> & Hb & E)]]; cbn [after_last].
  - left. split; [done|set_solver].
  - rewrite E. destruct (decide (x = c)) as [->|Hx]; [right; by exists [], s|left; split; [done|set_solver]].
  - right. exists (x :: a), b. cbn [after_last app]. rewrite E. by split_and!.
Qed.

Lemma extract_filename_unify s : extract_filename s = Ret (drop (after_last backslash (unify s)) (unify s)).
Proof.
  unfold extract_filename. destruct s as [|x s]; [done|].
  pose proof (string_replace_unify (S (length (x :: s))) [] (x :: s) ltac:(set_solver) ltac:(lia)) as E.
  cbn [app length] in E. cbn [length]. by rewrite E.
Qed.
Lemma unify_no_separator name : backslash ∉ unify name → Forall (λ c, ¬ separator c) name ∧ unify name = name.
Proof.
  induction name as [|c name IH]; [by split; [constructor|]|]. cbn. case_decide as Hc; [set_solver|].
  intros Hn. destruct IH as [H1 H2]; [set_solver|]. split; [|by f_equal]. constructor; [|done].
  intros [->| ->]; set_solver.
Qed.
(** [extract_filename] ends on every name, and returns what follows the last separator
    of either kind, or the whole name if it has none. *)
Theorem extract_filename_correct s : ∃ dir name, s = dir ++ name ∧ extract_filename s = Ret name ∧
  Forall (λ c, ¬ separator c) name ∧ (dir = [] ∨ ∃ d c, dir = d ++ [c] ∧ separator c).
Proof.
  rewrite extract_filename_unify. set (n := after_last backslash (unify s)).
  assert ((backslash ∉ unify (drop n s)) ∧ (n = 0%nat ∨ ∃ a : cstring, n = S (length a) ∧ unify s !! length a = Some backslash))
    as [Hn Hd].
  { unfold unify at 1. rewrite fmap_drop. fold (unify s). unfold n.
    destruct (after_last_split backslash (unify s)) as [[-> Hs]|(a & b & E & Hb & ->)]; [by split; [|left]|].
    rewrite E. split; [|right; exists a; split; [done|by apply list_lookup_middle]].
    change (a ++ backslash :: b) with (a ++ [backslash] ++ b). rewrite app_assoc, drop_app_length'; [done|].
    rewrite length_app. simpl. lia. }
  destruct (unify_no_separator _ Hn) as [Hsep Hid]. exists (take n s), (drop n s). split_and!; [by rewrite take_drop| |done|].
  - f_equal. rewrite <- Hid. unfold unify. by rewrite fmap_drop.
  - destruct Hd as [->|(a & -> & Ha)]; [by left|]. right. unfold unify in Ha. rewrite list_lookup_fmap in Ha.
    destruct (s !! length a) as [c|] eqn:Hc; [|done]. exists (take (length a) s), c.
    rewrite (take_S_r _ _ _ Hc). split; [done|]. cbn in Ha. case_decide; [by left|]. injection Ha as ->. by right.
Qed.
